(* ===== verification/_CoqProject ===== *)
-Q . S2P
Prelude.v
Mem.v
Str.v
Hashmap.v
PageTree.v
Radixtree.v
Ringbuffer.v
Ioviter.v
Pmm.v
Pmmcache.v
Mmu.v
Vmm.v
Slab.v
Vfs.v
Tmpfs.v
Locks.v
Mutex.v
Sched.v
Callout.v
Fdtable.v
Pipefs.v
Proc.v
Signal.v
Futex.v
Socket.v
Tty.v
Pty.v
Input.v
Filemap.v
Elf.v
Elfstack.v
Ps2.v
Nvme.v
Devfs.v
Initrd.v
