(* ===== verification/Prelude.v ===== *)
(** * SalernOS kernel: verification library

    SalernOS is a monolithic Unix-like kernel for x86-64, written in C. This
    library models its machine-independent core as Rocq definitions translated
    function by function from src/src/com and src/include, and proves what
    makes each part correct. Where the code does not do what it means to, a
    theorem shows the run that goes wrong.

    ** The program and the files

    A system call enters through a table of handlers, which work on the
    process of the calling thread: its descriptor table, its address space and
    its root and working directories. Below them lie the virtual file system
    with the memory file system, the memory managers, the scheduler with the
    locks and timers, and a library of containers.

    - [Prelude]: results of kernel functions ([res]), error numbers, machine
      integers, address constants, lemmas and tactics shared by all files.
    - [Mem] (com/lib/mem.c, libhelp.h), [Str] (com/lib/str.c): byte memory and
      its primitives, strings, number printing, path splitting.
    - [Hashmap] (com/lib/hashmap.c), [Radixtree] (com/lib/radixtree.c,
      com/fs/pagecache.c), [Ringbuffer] (com/lib/ringbuffer.c), [Ioviter]
      (com/lib/ioviter.c): the containers.
    - [PageTree], [Mmu] (platform/x86-64/mmu.c): page tables in physical
      memory, as trees and as the words the hardware reads.
    - [Pmm] (com/mm/pmm.c), [Pmmcache] (com/mm/pmmcache.c), [Vmm]
      (com/mm/vmm.c), [Slab] (com/mm/slab.c): physical pages and their free
      list, the cache of a processor, address spaces, small objects.
    - [Vfs] (com/fs/vfs.c), [Tmpfs] (com/fs/tmpfs.c): name look-up across
      mounts and symbolic links over tables of operations, and the file system
      that fills these tables. [Tmpfs] builds a concrete kernel on which the
      hypotheses of [Vfs] hold.
    - [Locks] (com/lib/spinlock.c, rwlock.c), [Mutex] (com/lib/mutex.c),
      [Sched] (com/sys/sched.c, thread.c), [Callout] (com/sys/callout.c):
      concurrency: threads as points in the code, one step per section under a
      spinlock; queues of threads and of timed callbacks.
    - [Fdtable] (com/sys/proc.c, include/kernel/com/fs/file.h, and the calls
      on descriptors in com/sys/syscall): open files of several processes.
    - [Pipefs] (com/fs/pipefs.c): pipes, as a machine of sections of reads and
      writes interleaved with signals and closes.
    - [Proc] (com/sys/proc.c): the process table, reference counts, groups and
      sessions, with the system calls on them.
    - [Signal] (com/ipc/signal.c, com/sys/proc.c, platform/x86-64/context.c):
      sending, masking and handling signals, stopping and continuing, exit and
      waitpid, over the states of [Sched] and [Proc].
    - [Futex] (com/sys/syscall/futex.c): sleeping and waking on words of
      memory, over [Sched] and [Signal].
    - [Socket] (com/ipc/socket, com/fs/sockfs.c and the calls on sockets):
      Unix domain sockets over [Ringbuffer], [Ioviter] and [Fdtable].
    - [Tty] (com/io/tty.c), [Pty] (com/io/pty.c): the line discipline, text
      and pseudo-terminals, over a record of the operations that differ.
      [Input] (com/io/keyboard, mouse.c, console.c): packets from devices and
      the console that hands them to the terminal in the foreground. [Ps2]
      (platform/x86-64/ps2.c): the bytes of keyboard and mouse.
    - [Filemap] (com/fs/tmpfs.c, com/sys/syscall/mmap.c, munmap.c): mapping
      files and memory into a process, over [Vmm] and [Tmpfs].
    - [Elf], [Elfstack] (com/sys/elf.c): the program loader: segments read and
      mapped through [Vfs] and [Filemap], the initial stack and registers.
    - [Nvme] (opt/nvme/nvme.c): the queues of the disk driver against a device
      given by what it promises ([NvmeSpec]), and its reads and writes.
    - [Devfs] (com/fs/devfs.c, com/dev/null.c): device nodes, the hand-over of
      calls to drivers, registration, over [Tmpfs].
    - [Initrd] (com/fs/initrd.c): the archive of the boot loader, from its
      bytes to calls of [Vfs].

    ** How the code is represented

    A function that can fail returns [res]: [Ok], [Panic] for a failed
    assertion, [Fault] for an access the code has no right to make, [Fuel] for
    a loop that did not end within its fuel. Error numbers are values of
    [errno]. State is passed explicitly: a record per component with finite
    maps from addresses to objects; where aliasing matters (pages, vnodes,
    threads, callouts, files) objects are named by their address in a store,
    and intrusive lists are lists of addresses, which an element may be on only
    once. Integers are [Z] with the wrap-around of their width written out
    ([u64], [u8]). Code outside the repository's core is a parameter: the
    allocator's choice of an address, handlers of callouts (what they do to their
    own data and whether they put the callout back), the tables of other file
    systems, the clock. Locks are not modelled inside the components they
    protect, except in [Locks] and [Mutex], which are about them, and where the
    code lets go of a lock half-way ([Sched.notify_pop],
    [Callout.cancel_claim]): there the halves are separate definitions.

    Fuel is used for loops without a structural measure: name look-up
    ([Vfs.com_fs_vfs_lookup_total] proves that a bound computed from the path
    and the file system is enough), the timer interrupt
    ([Callout.com_sys_callout_run_returns]: one more than the callouts due), the
    duplication of a descriptor (98 for a table of 96) and the loops of the
    ring buffer over its waiting points.

    ** What the theorems show

    - Invariants: the free list of [Pmm], the file system of [Tmpfs] and the
      queues of [Callout] are kept by every operation, which never panics or
      faults in a state that has them. For the queues of [Sched], the counts
      of [Fdtable], the process table and the sockets this holds of the calls
      within stated limits ([sched_op_ok], [fd_op_ok], [proc_op_ok],
      [sock_op_ok]); past these the code fails, as theorems beside them show.
    - Refinement: pipes and sockets carry streams of bytes
      ([Pipefs.pipe_fifo]; [Socket.unix_stream_fifo] for transfers of one piece
      that do not sleep), futexes are queues of threads
      ([Futex.futex_refines_queues]), and the line discipline implements a
      line editor ([Tty.canon_implements_editor]).
    - Functional behaviour: look-up agrees with the walk of a path
      ([Vfs.com_fs_vfs_lookup_resolves]), reads and writes of files with a
      function from offsets to bytes ([Tmpfs]), the hash map with a finite map
      ([Hashmap.khashmap_refines_map]), mapping with translation ([Mmu], [Vmm]),
      opening with the lowest free descriptor ([Fdtable.openat_lowest]).
    - Composition, seen from a process through its page tables: a mapped file
      ([Filemap.com_fs_vfs_mmap_shows_file]), fresh memory
      ([Filemap.mmap_anonymous_zeroed]), the segments of a program
      ([Elf.load_segment_image]) and its first stack
      ([Elfstack.new_stack_seen_by_process]).
    - Safety and liveness of the concurrent parts: exclusion of spinlock,
      reader-writer lock and mutex; no lost wake-up; round robin.
    - Faults found: theorems without hypotheses that run the code into the
      fault ([Vmm.prefault_loses_page], [Fdtable.last_descriptor_reused],
      [Sched.exit_ready_thread_panics] and others).

    ** Not modelled

    Processor set-up, interrupt entry, the other device drivers, the ACPI interpreter and
    the terminal emulator (third-party), logging and profiling. Registers and
    stacks in the context switch, lock depths in the scheduler, the
    interprocessor interrupts, and weak memory ordering: a step is a section
    between two lock operations. The calls that only compose modelled parts
    and the table of system calls are left out. *)
From Stdlib Require Export ZArith Lia.
From stdpp Require Export base numbers gmap sets.
From stdpp Require Export list.
#[global] Open Scope Z_scope.

(** ** Results of kernel code

    [Ok a] is a normal return, [Panic] a failed [KASSERT] (the configuration
    in config/config.h is [CONST_ASSERT_PANIC], so the kernel stops), [Fault]
    an access the C code has no right to make (NULL or out of an object), and
    [Fuel] a loop that did not end within the fuel it was given. *)
Inductive res (A : Type) : Type :=
  | Ok (a : A)
  | Panic
  | Fault
  | Fuel.
Arguments Ok {A} a.
Arguments Panic {A}.
Arguments Fault {A}.
Arguments Fuel {A}.

#[export] Instance res_ret : MRet res := fun A a => Ok a.
#[export] Instance res_bind : MBind res := fun A B f m =>
  match m with Ok a => f a | Panic => Panic | Fault => Fault | Fuel => Fuel end.

(** [KASSERT(b)] under [CONST_ASSERT_PANIC]. *)
Definition KASSERT (b : bool) : res unit := if b then Ok tt else Panic.

(** A pointer dereference: [None] stands for a pointer to nothing. *)
Definition deref {A} (o : option A) : res A :=
  match o with Some a => Ok a | None => Fault end.

(** The [int] a kernel function returns: 0 or an errno constant. The numeric
    values belong to the C library's errno.h and are not used. *)
Inductive errno : Type :=
  | E0 | ENOENT | ENOMEM | EAGAIN | EINTR | EINVAL | ENOTDIR | EISDIR | EEXIST
  | ENOSYS | ENOTEMPTY | EOVERFLOW | ENOTSUP | ELOOP | EFAULT | ETIMEDOUT
  | EPIPE | EBADF | EIO | ENOTCONN | EISCONN | EOPNOTSUPP | ECONNREFUSED
  | EADDRNOTAVAIL | EBUSY | ESRCH | ECHILD | EPERM | EACCES | ENOTTY | ENODEV
  | ENAMETOOLONG | ENOEXEC | ESPIPE | EXDEV
  | ENXIO | EMFILE | EAFNOSUPPORT | ENOTSOCK.
#[export] Instance errno_eq_dec : EqDecision errno.
Proof. solve_decision. Defined.

(** ** Machine integers *)
Definition wrap (w z : Z) : Z := z mod 2 ^ w.
Abbreviation u8 := (wrap 8).
Abbreviation u64 := (wrap 64).

(** [KMIN] and [KMAX] of include/lib/util.h. *)
Definition KMIN (x y : Z) : Z := if x <? y then x else y.
Definition KMAX (x y : Z) : Z := if y <? x then x else y.

(** [KMOD_FAST]: the remainder by a power of two, as a mask. *)
Definition KMOD_FAST (value multiple : Z) : Z := Z.land value (multiple - 1).

(** ** Constants of include/kernel/platform/x86-64/arch/info.h *)
Definition ARCH_PAGE_SIZE : Z := 4096.
Definition HHDM_BASE : Z := 0xffff800000000000.
Definition ARCH_PHYS_TO_HHDM (addr : Z) : Z := u64 (HHDM_BASE + addr).
Definition ARCH_HHDM_TO_PHYS (addr : Z) : Z := u64 (addr - HHDM_BASE).

(** The number of processes there can be (config/config.h). *)
Definition CONFIG_PROC_MAX : Z := 250000.
(** The bytes of a path. *)
Definition CONFIG_PATH_MAX : Z := 256.

(** ** Generic lemmas *)
Lemma bind_Ok {A B} (m : res A) (f : A → res B) b :
  m ≫= f = Ok b ↔ ∃ a, m = Ok a ∧ f a = Ok b.
Proof. destruct m; simpl; split; intros H; try done; [by exists a|..]; by destruct H as (?&?&?); simplify_eq. Qed.

Lemma KASSERT_Ok b : KASSERT b = Ok tt ↔ b = true.
Proof. by destruct b. Qed.

Lemma deref_Ok {A} (o : option A) a : deref o = Ok a ↔ o = Some a.
Proof. destruct o; simpl; split; intros; simplify_eq; done. Qed.

Lemma KMIN_min x y : KMIN x y = Z.min x y.
Proof. unfold KMIN. destruct (Z.ltb_spec x y); lia. Qed.

Lemma KMAX_max x y : KMAX x y = Z.max x y.
Proof. unfold KMAX. destruct (Z.ltb_spec y x); lia. Qed.

Lemma wrap_small w z : 0 ≤ z < 2 ^ w → wrap w z = z.
Proof. apply Z.mod_small. Qed.

Lemma wrap_range w z : 0 ≤ w → 0 ≤ wrap w z < 2 ^ w.
Proof. intros. apply Z.mod_pos_bound. by apply Z.pow_pos_nonneg. Qed.

Lemma wrap_wrap w z : 0 ≤ w → wrap w (wrap w z) = wrap w z.
Proof. intros. apply wrap_small, wrap_range. done. Qed.

Lemma wrap_add_l w x y : wrap w (wrap w x + y) = wrap w (x + y).
Proof. apply Zplus_mod_idemp_l. Qed.

Lemma wrap_add_r w x y : wrap w (x + wrap w y) = wrap w (x + y).
Proof. apply Zplus_mod_idemp_r. Qed.

Lemma wrap_sub_l w x y : wrap w (wrap w x - y) = wrap w (x - y).
Proof. apply Zminus_mod_idemp_l. Qed.

Lemma wrap_sub_r w x y : wrap w (x - wrap w y) = wrap w (x - y).
Proof. apply Zminus_mod_idemp_r. Qed.

(** The header of util.h notes that [KMOD_FAST] needs a power of two. *)
Lemma KMOD_FAST_pow2 value k : 0 ≤ k → KMOD_FAST value (2 ^ k) = value mod 2 ^ k.
Proof. intros. unfold KMOD_FAST.
  replace (2 ^ k - 1) with (Z.ones k) by (rewrite Z.ones_equiv; lia). by apply Z.land_ones. Qed.

Lemma hhdm_phys_roundtrip a : 0 ≤ a < 2 ^ 64 → ARCH_HHDM_TO_PHYS (ARCH_PHYS_TO_HHDM a) = a.
Proof.
  intros. unfold ARCH_HHDM_TO_PHYS, ARCH_PHYS_TO_HHDM. rewrite wrap_sub_l.
  replace (HHDM_BASE + a - HHDM_BASE) with a by lia. by apply wrap_small.
Qed.

Lemma filter_all {A} (P : A → Prop) `{!∀ x, Decision (P x)} l : Forall P l → filter P l = l.
Proof. induction 1; [done|]. rewrite filter_cons_True by done. by f_equal. Qed.

Lemma filter_none {A} (P : A → Prop) `{!∀ x, Decision (P x)} l : Forall (λ x, ¬ P x) l → filter P l = [].
Proof. induction 1; [done|]. by rewrite filter_cons_False. Qed.

Lemma filter_ext_in {A} (P Q : A → Prop) `{!∀ x, Decision (P x), !∀ x, Decision (Q x)} (l : list A) :
  (∀ x, x ∈ l → P x ↔ Q x) → filter P l = filter Q l.
Proof.
  induction l as [|a l IH]; intros Hpq; [done|]. rewrite !filter_cons, IH by (intros x Hx; apply Hpq; by right).
  destruct (Hpq a (list_elem_of_here a l)). by destruct (decide (P a)), (decide (Q a)); tauto.
Qed.

(** ** Intrusive lists

    A [TAILQ] is the list of the addresses of its elements. Removing an
    element that is not on the list writes through its stale links. *)
Fixpoint TAILQ_REMOVE (q : list Z) (t : Z) : res (list Z) :=
  match q with
  | [] => Fault
  | u :: q => if u =? t then Ok q else q' ← TAILQ_REMOVE q t; Ok (u :: q')
  end.

Lemma TAILQ_REMOVE_filter q t : t ∈ q → NoDup q → TAILQ_REMOVE q t = Ok (filter (λ d, d ≠ t) q).
Proof.
  induction q as [|a q IH]; intros Ht Hnd; [by apply not_elem_of_nil in Ht|]. apply NoDup_cons in Hnd as [Ha Hnd]. simpl. destruct (Z.eqb_spec a t) as [->|Hne].
  - rewrite filter_cons_False by tauto. rewrite filter_all; [done|]. apply Forall_forall. intros d Hd ->. done.
  - apply elem_of_cons in Ht as [?|Ht]; [congruence|]. by rewrite (IH Ht Hnd), filter_cons_True.
Qed.

(** Splits a run of a monadic definition that returned into its steps. *)
Ltac inv_res :=
  repeat match goal with
  | H : mbind _ _ = Ok _ |- _ => apply bind_Ok in H; destruct H as (? & ? & H)
  | H : KASSERT _ = Ok _ |- _ => apply (proj1 (KASSERT_Ok _)) in H
  | H : deref _ = Ok _ |- _ => apply deref_Ok in H
  | H : mret _ = Ok _ |- _ => unfold mret, res_ret in H
  | H : Ok _ = Ok _ |- _ => injection H as H
  | H : Panic = Ok _ |- _ => discriminate H
  | H : Fault = Ok _ |- _ => discriminate H
  | H : Fuel = Ok _ |- _ => discriminate H
  | u : unit |- _ => destruct u
  end; simplify_eq.

(** Case analysis on the boolean comparisons the C conditions translate to. *)
Ltac zcases :=
  repeat match goal with
  | |- context [ ?x <? ?y ] => destruct (Z.ltb_spec x y)
  | |- context [ ?x <=? ?y ] => destruct (Z.leb_spec x y)
  | |- context [ ?x =? ?y ] => destruct (Z.eqb_spec x y)
  end.
Ltac zcases_in H :=
  repeat match type of H with
  | context [ ?x <? ?y ] => destruct (Z.ltb_spec x y)
  | context [ ?x <=? ?y ] => destruct (Z.leb_spec x y)
  | context [ ?x =? ?y ] => destruct (Z.eqb_spec x y)
  end.

Lemma res_bind_Ok {A B} (a : A) (f : A → res B) : (Ok a ≫= f) = f a.
Proof. done. Qed.

Lemma KASSERT_true {B} (f : unit → res B) : (KASSERT true ≫= f) = f tt.
Proof. done. Qed.

(** The same step by rewriting, for goals whose other calls are costly to
    convert. *)
Ltac mstep_rw := first [rewrite res_bind_Ok | rewrite KASSERT_true]; cbv beta iota.

(** One reduction step of the result monad, unfolding nothing else. *)
Ltac mstep := cbn [mbind res_bind mret res_ret KASSERT deref].
