(* ===== verification/Mem.v ===== *)
(** * Memory primitives of src/com/lib/mem.c

    Byte-addressed memory and the kernel's [kmem*] routines, in the variant
    the x86-64 build compiles ([ARCH_LIBHELP_FAST_*], inline [rep] string
    instructions) and, for [kmemcpy] and [kmemmove], in the portable variant
    of the [#else] branches. The profiler calls around each routine measure
    time only and are left out. *)
From S2P Require Import Prelude.

(** ** Memory *)

(** A memory maps every address to a byte. *)
Definition mem : Type := Z → Z.

Definition upd (m : mem) (a v : Z) : mem := λ x, if x =? a then v else m x.

(** A [char] as a number: bytes from 128 on are negative. *)
Definition schar (c : Z) : Z := (c + 128) mod 256 - 128.

(** The [n] bytes from address [a] on. *)
Fixpoint rd_bytes (m : mem) (a : Z) (n : nat) : list Z :=
  match n with O => [] | S n => m a :: rd_bytes m (a + 1) n end.

(** Stores a list of bytes from address [a] on. *)
Fixpoint wr_bytes (m : mem) (a : Z) (bs : list Z) : mem :=
  match bs with [] => m | b :: bs => wr_bytes (upd m a b) (a + 1) bs end.

(** The [n] low bytes of a number, least significant first, and the number of
    such bytes: the fields of structures in memory. *)
Fixpoint le_bytes (n : nat) (v : Z) : list Z :=
  match n with O => [] | S n => v mod 256 :: le_bytes n (v / 256) end.
Fixpoint le_val (bs : list Z) : Z :=
  match bs with [] => 0 | b :: bs => b + 256 * le_val bs end.
Definition rd_uint (n : nat) (m : mem) (a : Z) : Z := le_val (rd_bytes m a n).
Definition wr_u64 (m : mem) (a v : Z) : mem := wr_bytes m a (le_bytes 8 v).

(** ** The string instructions of arch/libhelp.h

    [rep stosb] and [rep movsb] run once per unit of rcx; with the direction
    flag clear ([cld]) rdi and rsi step forwards, with it set ([std]) they
    step backwards. *)
Fixpoint rep_stosb (rcx : nat) (rdi al : Z) (m : mem) : mem :=
  match rcx with
  | O => m
  | S rcx => rep_stosb rcx (rdi + 1) al (upd m rdi al)
  end.

Fixpoint rep_movsb (df : bool) (rcx : nat) (rdi rsi : Z) (m : mem) : mem :=
  match rcx with
  | O => m
  | S rcx =>
      let step := if df then -1 else 1 in
      rep_movsb df rcx (rdi + step) (rsi + step) (upd m rdi (m rsi))
  end.

(** [ARCH_LIBHELP_FAST_REVERSE_MEMCPY(dst, src, n)]: "std; rep movsb; cld",
    with rdi = dst and rsi = src. *)
Definition FAST_REVERSE_MEMCPY (dst src n : Z) (m : mem) : mem :=
  rep_movsb true (Z.to_nat n) dst src m.

(** ** The routines; each returns its pointer result and the new memory *)
Definition kmemset (buff buffsize val : Z) (m : mem) : Z * mem :=
  (buff, rep_stosb (Z.to_nat buffsize) buff val m).

Definition kmemcpy (dst src buffsize : Z) (m : mem) : Z * mem :=
  (dst, rep_movsb false (Z.to_nat buffsize) dst src m).

(** The [for] loop of the portable [kmemcpy]: [i] counts up to [buffsize]. *)
Fixpoint kmemcpy_loop (todo : nat) (i dst_off src_off : Z) (m : mem) : mem :=
  match todo with
  | O => m
  | S todo =>
      let val := m (src_off + i) in
      kmemcpy_loop todo (i + 1) dst_off src_off (upd m (dst_off + i) val)
  end.

Definition kmemcpy_portable (dst src buffsize : Z) (m : mem) : Z * mem :=
  (dst, kmemcpy_loop (Z.to_nat buffsize) 0 dst src m).

Fixpoint kmemcmp_loop (todo : nat) (i buff1 buff2 : Z) (m : mem) : Z :=
  match todo with
  | O => 0
  | S todo =>
      if m (buff1 + i) =? m (buff2 + i)
      then kmemcmp_loop todo (i + 1) buff1 buff2 m
      else -1
  end.

Definition kmemcmp (buff1 buff2 buffsize : Z) (m : mem) : Z :=
  kmemcmp_loop (Z.to_nat buffsize) 0 buff1 buff2 m.

(** [kmemchr]: the argument [c] is compared as an [int], unconverted. *)
Fixpoint kmemchr_loop (todo : nat) (i s c : Z) (m : mem) : option Z :=
  match todo with
  | O => None
  | S todo =>
      if c =? m (s + i) then Some (s + i) else kmemchr_loop todo (i + 1) s c m
  end.

Definition kmemchr (str c n : Z) (m : mem) : option Z :=
  kmemchr_loop (Z.to_nat n) 0 str c m.

(** [kmemrchr] converts [c] to [unsigned char]; [while (n--)] visits
    n-1, ..., 0. *)
Fixpoint kmemrchr_loop (n : nat) (s c : Z) (m : mem) : option Z :=
  match n with
  | O => None
  | S n =>
      if m (s + Z.of_nat n) =? c then Some (s + Z.of_nat n)
      else kmemrchr_loop n s c m
  end.

Definition kmemrchr (str c n : Z) (m : mem) : option Z :=
  kmemrchr_loop (Z.to_nat n) str (u8 c) m.

Definition kmemmove (dst src n : Z) (m : mem) : Z * mem :=
  (dst,
   if dst <? src then (kmemcpy dst src n m).2
   else if src <? dst then FAST_REVERSE_MEMCPY dst src n m
   else m).

(** The [#else] branch of [kmemmove]: [for (i = n; i > 0; i--)]. *)
Fixpoint kmemmove_loop (i : nat) (pdest psrc : Z) (m : mem) : mem :=
  match i with
  | O => m
  | S i' =>
      kmemmove_loop i' pdest psrc
        (upd m (pdest + Z.of_nat i') (m (psrc + Z.of_nat i')))
  end.

Definition kmemmove_portable (dst src n : Z) (m : mem) : Z * mem :=
  (dst,
   if dst <? src then (kmemcpy_portable dst src n m).2
   else if src <? dst then kmemmove_loop (Z.to_nat n) dst src m
   else m).

(** The doubling loop of [kmemrepcpy]. *)
Fixpoint kmemrepcpy_loop (fuel : nat) (dst copied dst_size : Z) (m : mem) : res mem :=
  match fuel with
  | O => Fuel
  | S fuel =>
      if copied <? dst_size then
        let to_copy := if dst_size <? u64 (copied + copied)
                       then dst_size - copied else copied in
        kmemrepcpy_loop fuel dst (u64 (copied + to_copy)) dst_size
          (kmemcpy (dst + copied) dst to_copy m).2
      else Ok m
  end.

(** One iteration per copy is enough fuel (theorem [kmemrepcpy_spec]). *)
Definition kmemrepcpy (dst src buffsize rep : Z) (m : mem) : res (option Z * mem) :=
  if (rep =? 0) || (buffsize =? 0) then Ok (None, m)
  else
    let m := (kmemcpy dst src buffsize m).2 in
    m ← kmemrepcpy_loop (S (Z.to_nat rep)) dst buffsize (u64 (buffsize * rep)) m;
    Ok (Some dst, m).

(** ** Lemmas *)

(** Is [a] one of the [n] addresses from [base] on? *)
Definition in_range (a base n : Z) : bool := (base <=? a) && (a <? base + n).

Lemma in_range_spec a base n : reflect (base ≤ a < base + n) (in_range a base n).
Proof. apply iff_reflect. unfold in_range. rewrite andb_true_iff, Z.leb_le, Z.ltb_lt. lia. Qed.

(** Two blocks with no address in common. *)
Definition disjoint (a n b k : Z) : Prop := a + n ≤ b ∨ b + k ≤ a.

Lemma upd_lookup m a v x : upd m a v x = if x =? a then v else m x.
Proof. done. Qed.

Lemma upd_eq m a v : upd m a v a = v.
Proof. unfold upd. by rewrite Z.eqb_refl. Qed.

Lemma upd_ne m a v x : x ≠ a → upd m a v x = m x.
Proof. intros. unfold upd. by destruct (Z.eqb_spec x a). Qed.

(** Splits on every [in_range] test in the goal, then on the comparisons an
    update leaves. *)
Ltac mem_cases :=
  repeat match goal with
  | |- context [in_range ?a ?b ?n] => destruct (in_range_spec a b n)
  end;
  unfold upd; zcases; try lia; try (f_equal; lia).

Lemma rep_stosb_lookup n d v m a :
  rep_stosb n d v m a = if in_range a d (Z.of_nat n) then v else m a.
Proof.
  revert d m; induction n as [|n IH]; intros; simpl rep_stosb; [|rewrite IH]; mem_cases; done.
Qed.

(** Copying forwards is right when the destination does not start inside the
    part of the source still to be read. *)
Lemma rep_movsb_lookup n d s m a :
  d ≤ s ∨ s + Z.of_nat n ≤ d →
  rep_movsb false n d s m a =
    if in_range a d (Z.of_nat n) then m (s + (a - d)) else m a.
Proof.
  revert d s m; induction n as [|n IH]; intros d s m Hov; simpl rep_movsb; [mem_cases; done|].
  rewrite IH by lia. mem_cases.
Qed.

Lemma kmemcpy_lookup dst src n m a :
  0 ≤ n → dst ≤ src ∨ src + n ≤ dst →
  (kmemcpy dst src n m).2 a = if in_range a dst n then m (src + (a - dst)) else m a.
Proof. intros. unfold kmemcpy; simpl. rewrite rep_movsb_lookup, Z2Nat.id by lia. done. Qed.

Lemma kmemset_lookup buff n v m a :
  0 ≤ n → (kmemset buff n v m).2 a = if in_range a buff n then v else m a.
Proof. intros. unfold kmemset; simpl. by rewrite rep_stosb_lookup, Z2Nat.id by lia. Qed.

(** The string instruction and the portable loop perform the same stores in
    the same order, overlapping or not. *)
Lemma kmemcpy_loop_movsb n i d s m :
  kmemcpy_loop n i d s m = rep_movsb false n (d + i) (s + i) m.
Proof.
  revert i m; induction n as [|n IH]; intros; simpl; [done|].
  rewrite IH. f_equal; lia.
Qed.

Lemma kmemmove_loop_lookup n d s m a :
  s ≤ d →
  kmemmove_loop n d s m a = if in_range a d (Z.of_nat n) then m (s + (a - d)) else m a.
Proof.
  intros Hle. revert m; induction n as [|n IH]; intros m; simpl kmemmove_loop; [mem_cases; done|].
  rewrite IH. mem_cases.
Qed.

(** Copying backwards touches no address above [dst]. *)
Lemma rep_movsb_back_above n d s m a : d < a → rep_movsb true n d s m a = m a.
Proof.
  revert d s m; induction n as [|n IH]; intros d s m H; simpl; [done|].
  rewrite IH by lia. apply upd_ne; lia.
Qed.

Lemma length_rd_bytes m a n : length (rd_bytes m a n) = n.
Proof. revert a; induction n; intros; simpl; auto. Qed.

Lemma rd_bytes_lookup m a n i :
  (i < n)%nat → rd_bytes m a n !! i = Some (m (a + Z.of_nat i)).
Proof.
  revert a i; induction n as [|n IH]; intros a [|i] H; simpl; try lia.
  - do 2 f_equal; lia.
  - rewrite IH by lia. do 2 f_equal; lia.
Qed.

Lemma rd_bytes_ext m m' a b n :
  (∀ i, 0 ≤ i < Z.of_nat n → m (a + i) = m' (b + i)) → rd_bytes m a n = rd_bytes m' b n.
Proof.
  intros H. apply list_eq; intros i. destruct (decide (i < n)%nat).
  - rewrite !rd_bytes_lookup by done. f_equal. apply H; lia.
  - rewrite !lookup_ge_None_2; rewrite ?length_rd_bytes; done || lia.
Qed.

Lemma rd_bytes_app m a n k :
  rd_bytes m a (n + k) = rd_bytes m a n ++ rd_bytes m (a + Z.of_nat n) k.
Proof.
  revert a; induction n as [|n IH]; intros; simpl; [f_equal; lia|].
  rewrite IH. do 3 f_equal; lia.
Qed.

Lemma wr_bytes_lookup m a bs x :
  wr_bytes m a bs x =
    if in_range x a (Z.of_nat (length bs)) then nth (Z.to_nat (x - a)) bs 0 else m x.
Proof.
  revert m a; induction bs as [|b bs IH]; intros; simpl wr_bytes; simpl length; [mem_cases; done|].
  rewrite IH. mem_cases.
  - replace (Z.to_nat (x - a)) with (S (Z.to_nat (x - (a + 1)))) by lia. done.
  - subst. by rewrite Z.sub_diag.
Qed.

Lemma rd_wr_bytes m a bs : rd_bytes (wr_bytes m a bs) a (length bs) = bs.
Proof.
  apply list_eq; intros i. destruct (decide (i < length bs)%nat) as [H|H].
  - rewrite rd_bytes_lookup, wr_bytes_lookup by done.
    destruct (in_range_spec (a + Z.of_nat i) a (Z.of_nat (length bs))); [|lia].
    replace (Z.to_nat (a + Z.of_nat i - a)) with i by lia.
    destruct (nth_lookup_or_length bs i 0); [done|lia].
  - rewrite !lookup_ge_None_2; rewrite ?length_rd_bytes; done || lia.
Qed.

Lemma le_val_le_bytes n v : 0 ≤ v < 256 ^ Z.of_nat n → le_val (le_bytes n v) = v.
Proof.
  revert v. induction n as [|n IH]; intros v Hv; [simpl in *; lia|].
  cbn [le_bytes le_val]. rewrite IH.
  - unfold wrap. change (2 ^ 8) with 256. pose proof (Z.div_mod v 256). lia.
  - rewrite Nat2Z.inj_succ, Z.pow_succ_r in Hv by lia. split; [apply Z.div_pos; lia|]. apply Z.div_lt_upper_bound; lia.
Qed.

Lemma length_le_bytes n v : length (le_bytes n v) = n.
Proof. revert v. induction n as [|n IH]; intros v; [done|]. cbn [le_bytes length]. by rewrite IH. Qed.

Lemma wr_u64_lookup m a v x : ¬ a ≤ x < a + 8 → wr_u64 m a v x = m x.
Proof. intros Hx. unfold wr_u64. rewrite wr_bytes_lookup, length_le_bytes. by destruct (in_range_spec x a (Z.of_nat 8)). Qed.

Lemma rd_wr_u64 m a v : 0 ≤ v < 2 ^ 64 → rd_uint 8 (wr_u64 m a v) a = v.
Proof.
  intros Hv. unfold rd_uint, wr_u64. pose proof (rd_wr_bytes m a (le_bytes 8 v)) as H. rewrite length_le_bytes in H.
  rewrite H. apply le_val_le_bytes. exact Hv.
Qed.

Lemma rd_uint_same n m m' a : (∀ x, a ≤ x < a + Z.of_nat n → m' x = m x) → rd_uint n m' a = rd_uint n m a.
Proof. intros Hm. unfold rd_uint. f_equal. apply rd_bytes_ext. intros i Hi. apply Hm. lia. Qed.

Lemma wr_bytes_app m a bs cs :
  wr_bytes m a (bs ++ cs) = wr_bytes (wr_bytes m a bs) (a + Z.of_nat (length bs)) cs.
Proof.
  revert m a; induction bs as [|b bs IH]; intros; simpl; [f_equal; lia|].
  rewrite IH. f_equal; lia.
Qed.

Lemma kmemcmp_loop_0 n i a b m :
  kmemcmp_loop n i a b m = 0 ↔
  ∀ k, i ≤ k < i + Z.of_nat n → m (a + k) = m (b + k).
Proof.
  revert i; induction n as [|n IH]; intros i; simpl kmemcmp_loop; [split; [lia|done]|].
  zcases; [rewrite IH|]; split; intros H; try done.
  - intros k Hk. destruct (decide (k = i)) as [->|]; [done|apply H; lia].
  - intros k Hk. apply H; lia.
  - exfalso. apply n0, H. lia.
Qed.

Lemma kmemcmp_loop_range n i a b m :
  kmemcmp_loop n i a b m = 0 ∨ kmemcmp_loop n i a b m = -1.
Proof. revert i; induction n; intros; simpl; [auto|]. zcases; auto. Qed.

(** [kmemcmp] compares the two blocks as lists. *)
Lemma kmemcmp_rd_bytes a b n m :
  kmemcmp a b n m = 0 ↔ rd_bytes m a (Z.to_nat n) = rd_bytes m b (Z.to_nat n).
Proof.
  unfold kmemcmp. rewrite kmemcmp_loop_0. split; intros H.
  - apply rd_bytes_ext. intros; apply H; lia.
  - intros k Hk. assert (Hi : (Z.to_nat k < Z.to_nat n)%nat) by lia.
    pose proof (rd_bytes_lookup m a _ _ Hi) as Ha. rewrite H, rd_bytes_lookup in Ha by done.
    injection Ha as Ha. rewrite Z2Nat.id in Ha by lia. done.
Qed.

Lemma kmemchr_loop_Some n i s c m p :
  kmemchr_loop n i s c m = Some p ↔
  ∃ k, i ≤ k < i + Z.of_nat n ∧ p = s + k ∧ m p = c ∧ ∀ j, i ≤ j < k → m (s + j) ≠ c.
Proof.
  revert i; induction n as [|n IH]; intros i; simpl kmemchr_loop.
  { split; [done|]. intros (k & ? & _); lia. }
  zcases; [|rewrite IH]; split.
  - intros [= <-]. exists i; repeat split; [lia..|done|lia].
  - intros (k & Hk & -> & Hm & Hj). do 2 f_equal.
    destruct (decide (k = i)); [done|]. exfalso. apply (Hj i); [lia|done].
  - intros (k & Hk & Hp & Hm & Hj). exists k; repeat split; [lia..|done|done|].
    intros j ?. destruct (decide (j = i)) as [->|]; [congruence|apply Hj; lia].
  - intros (k & Hk & -> & Hm & Hj). destruct (decide (k = i)) as [->|]; [congruence|].
    exists k; repeat split; [lia..|done|]. intros; apply Hj; lia.
Qed.

Lemma kmemchr_loop_None n i s c m :
  kmemchr_loop n i s c m = None ↔ ∀ k, i ≤ k < i + Z.of_nat n → m (s + k) ≠ c.
Proof.
  revert i; induction n as [|n IH]; intros i; simpl kmemchr_loop; [split; [lia|done]|].
  zcases; [|rewrite IH]; split; try done.
  - intros H. exfalso. apply (H i); [lia|done].
  - intros H k Hk. destruct (decide (k = i)) as [->|]; [congruence|apply H; lia].
  - intros H k Hk. apply H; lia.
Qed.

Lemma kmemrchr_loop_Some n s c m p :
  kmemrchr_loop n s c m = Some p ↔
  ∃ k, 0 ≤ k < Z.of_nat n ∧ p = s + k ∧ m p = c ∧ ∀ j, k < j < Z.of_nat n → m (s + j) ≠ c.
Proof.
  induction n as [|n IH]; simpl kmemrchr_loop; [split; [done|intros (?&?&?); lia]|].
  zcases; [|rewrite IH]; split.
  - intros [= <-]. exists (Z.of_nat n); repeat split; [lia..|done|lia].
  - intros (k & Hk & -> & Hm & Hj). do 2 f_equal.
    destruct (decide (k = Z.of_nat n)); [done|]. exfalso. apply (Hj (Z.of_nat n)); [lia|done].
  - intros (k & Hk & Hp & Hm & Hj). exists k; repeat split; [lia..|done|done|].
    intros j ?. destruct (decide (j = Z.of_nat n)) as [->|]; [congruence|apply Hj; lia].
  - intros (k & Hk & -> & Hm & Hj). destruct (decide (k = Z.of_nat n)) as [->|]; [congruence|].
    exists k; repeat split; [lia..|done|]. intros; apply Hj; lia.
Qed.

Lemma kmemrchr_loop_None n s c m :
  kmemrchr_loop n s c m = None ↔ ∀ k, 0 ≤ k < Z.of_nat n → m (s + k) ≠ c.
Proof.
  induction n as [|n IH]; simpl kmemrchr_loop; [split; [lia|done]|].
  zcases; [|rewrite IH]; split; try done.
  - intros H. exfalso. apply (H (Z.of_nat n)); [lia|done].
  - intros H k Hk. destruct (decide (k = Z.of_nat n)) as [->|]; [congruence|apply H; lia].
  - intros H k Hk. apply H; lia.
Qed.

(** The loop invariant of [kmemrepcpy]: the first [copied] bytes repeat the
    pattern, everything outside the destination is still as in [m0]. *)
Definition rep_inv (dst size total : Z) (pat : Z → Z) (m0 : mem) (copied : Z) (m : mem) : Prop :=
  size ≤ copied ≤ total ∧ copied mod size = 0 ∧
  (∀ x, 0 ≤ x < copied → m (dst + x) = pat (x mod size)) ∧
  (∀ a, ¬ (dst ≤ a < dst + total) → m a = m0 a).

Lemma rep_inv_step dst size total pat m0 copied n m :
  0 < size → 0 ≤ n ≤ copied → copied + n ≤ total →
  (n = copied ∨ copied + n = total) → total mod size = 0 →
  rep_inv dst size total pat m0 copied m →
  rep_inv dst size total pat m0 (copied + n) (kmemcpy (dst + copied) dst n m).2.
Proof.
  intros Hs Hn Hle Hcase Htot ([? ?] & Hmod & Hin & Hout).
  assert (Hk : ∀ a, (kmemcpy (dst + copied) dst n m).2 a =
    if in_range a (dst + copied) n then m (dst + (a - (dst + copied))) else m a)
    by (intros; apply kmemcpy_lookup; lia).
  split_and!; [lia|lia| | |].
  - destruct Hcase as [->| ->]; [|done]. rewrite Z.add_mod, Hmod by lia. done.
  - intros x Hx. rewrite Hk. destruct (in_range_spec (dst + x) (dst + copied) n).
    + replace (dst + (dst + x - (dst + copied))) with (dst + (x - copied)) by lia.
      rewrite Hin by lia. f_equal. rewrite Zminus_mod, Hmod, Z.sub_0_r, Z.mod_mod; lia.
    + apply Hin; lia.
  - intros a Ha. rewrite Hk. destruct (in_range_spec a (dst + copied) n); [lia|].
    apply Hout; lia.
Qed.

Lemma kmemrepcpy_loop_ok fuel dst size total pat m0 copied m :
  0 < size → total < 2 ^ 63 → total mod size = 0 →
  total - copied < Z.of_nat fuel * size →
  rep_inv dst size total pat m0 copied m →
  ∃ m', kmemrepcpy_loop fuel dst copied total m = Ok m' ∧ rep_inv dst size total pat m0 total m'.
Proof.
  intros Hs Hmax Htot. revert copied m.
  induction fuel as [|fuel IH]; intros copied m Hf Hinv; [destruct Hinv as ([? ?] & _); lia|].
  pose proof Hinv as ([? ?] & Hmod & _). simpl kmemrepcpy_loop.
  destruct (Z.ltb_spec copied total).
  - assert (size ≤ total - copied).
    { apply Z.mod_divide in Hmod as [i ->], Htot as [k ->]; [|lia..].
      assert (i < k) by nia. nia. }
    rewrite (wrap_small 64 (copied + copied)) by lia.
    destruct (Z.ltb_spec total (copied + copied)); rewrite wrap_small by lia;
      (apply IH; [nia|apply rep_inv_step; (done || lia)]).
  - replace copied with total in * by lia. by exists m.
Qed.

(** ** Properties *)

(** [kmemrepcpy] ends and fills the destination with [rep] copies of the
    source block, leaving the rest of memory alone, although it copies in
    doubling steps from the destination itself. *)
Theorem kmemrepcpy_spec dst src size rep m :
  0 < size → 0 < rep → size * rep < 2 ^ 63 → disjoint dst (size * rep) src size →
  ∃ m', kmemrepcpy dst src size rep m = Ok (Some dst, m') ∧
    ∀ a, m' a = if in_range a dst (size * rep) then m (src + (a - dst) mod size) else m a.
Proof.
  intros Hs Hr Hmax Hd. unfold disjoint in Hd. unfold kmemrepcpy.
  destruct (Z.eqb_spec rep 0); [lia|]. destruct (Z.eqb_spec size 0); [lia|]. simpl orb.
  rewrite wrap_small by nia.
  destruct (kmemrepcpy_loop_ok (S (Z.to_nat rep)) dst size (size * rep) (λ x, m (src + x)) m size
    (kmemcpy dst src size m).2) as (m' & -> & _ & _ & Hin & Hout); [lia|done| |nia| |].
  - rewrite Z.mul_comm. apply Z.mod_mul; lia.
  - assert (Hk : ∀ a, (kmemcpy dst src size m).2 a =
      if in_range a dst size then m (src + (a - dst)) else m a)
      by (intros; apply kmemcpy_lookup; nia).
    split_and!; [lia|nia|apply Z.mod_same; lia| |].
    + intros x Hx. rewrite Hk. destruct (in_range_spec (dst + x) dst size); [|lia].
      rewrite Z.mod_small by lia. f_equal; lia.
    + intros a Ha. rewrite Hk. destruct (in_range_spec a dst size); [nia|done].
  - exists m'. split; [done|]. intros a. destruct (in_range_spec a dst (size * rep)).
    + replace a with (dst + (a - dst)) at 1 by lia. rewrite Hin by lia. done.
    + by apply Hout.
Qed.

Definition abc_mem : mem := wr_bytes (λ _, 0) 100 [97; 98; 99].

Lemma kmemrepcpy_spec_witness :
  ∃ m', kmemrepcpy 200 100 3 5 abc_mem = Ok (Some 200, m') ∧
    ∀ a, m' a = if in_range a 200 (3 * 5) then abc_mem (100 + (a - 200) mod 3) else abc_mem a.
Proof. apply (kmemrepcpy_spec 200 100 3 5 abc_mem); unfold disjoint; lia. Defined.

(** the portable [kmemmove] moves the block whatever the overlap. *)
Theorem kmemmove_portable_correct dst src n m a :
  0 ≤ n →
  (kmemmove_portable dst src n m).2 a =
    if in_range a dst n then m (src + (a - dst)) else m a.
Proof.
  intros Hn. unfold kmemmove_portable, kmemcpy_portable; simpl.
  destruct (Z.ltb_spec dst src); [|destruct (Z.ltb_spec src dst)].
  - rewrite kmemcpy_loop_movsb, !Z.add_0_r, rep_movsb_lookup, Z2Nat.id by lia. done.
  - rewrite kmemmove_loop_lookup, Z2Nat.id by lia. done.
  - replace src with dst by lia. mem_cases; done.
Qed.

Lemma kmemmove_portable_correct_witness :
  (kmemmove_portable 101 100 3 abc_mem).2 103 = 99.
Proof. rewrite kmemmove_portable_correct; [reflexivity|lia]. Defined.

(** the [kmemmove] the x86-64 build compiles is not that function. Moving
    a block upwards with [std; rep movsb] started at the block's first byte
    leaves every later byte of the destination as it was. *)
Theorem kmemmove_x86_upwards_keeps_tail dst src n m a :
  src < dst → dst < a < dst + n →
  (kmemmove dst src n m).2 a = m a.
Proof.
  intros Hlt Ha. unfold kmemmove; simpl.
  destruct (Z.ltb_spec dst src); [lia|]. destruct (Z.ltb_spec src dst); [|lia].
  apply rep_movsb_back_above; lia.
Qed.

Lemma kmemmove_x86_upwards_keeps_tail_witness :
  (kmemmove 200 100 3 abc_mem).2 202 = 0 ∧ (kmemmove_portable 200 100 3 abc_mem).2 202 = 99.
Proof.
  split; [rewrite kmemmove_x86_upwards_keeps_tail; [reflexivity|lia|lia]|reflexivity].
Defined.
