(* ===== verification/Str.v ===== *)
(** * Strings and number printing: src/com/lib/str.c

    C strings are addresses into a [Mem.mem]; a loop that runs to a NUL byte
    takes fuel, and the theorems give the fuel that suffices. *)
From S2P Require Import Prelude Mem.

(** ** C strings *)
Fixpoint kstrcmp_loop (fuel : nat) (s1 s2 : Z) (m : mem) : res Z :=
  match fuel with
  | O => Fuel
  | S fuel =>
      if negb (m s1 =? 0) || negb (m s2 =? 0) then
        if negb (m s1 =? m s2) then Ok (-1)
        else kstrcmp_loop fuel (s1 + 1) (s2 + 1) m
      else Ok 0
  end.

Definition kstrcmp (fuel : nat) (s1 s2 : Z) (m : mem) : res Z :=
  kstrcmp_loop fuel s1 s2 m.

Fixpoint kstrlen_loop (fuel : nat) (s n : Z) (m : mem) : res Z :=
  match fuel with
  | O => Fuel
  | S fuel => if negb (m s =? 0) then kstrlen_loop fuel (s + 1) (u64 (n + 1)) m else Ok n
  end.

Definition kstrlen (fuel : nat) (s : Z) (m : mem) : res Z := kstrlen_loop fuel s 0 m.

Fixpoint kstrcpy_loop (fuel : nat) (dst src n : Z) (m : mem) : res mem :=
  match fuel with
  | O => Fuel
  | S fuel =>
      if negb (m (src + n) =? 0)
      then kstrcpy_loop fuel dst src (n + 1) (upd m (dst + n) (m (src + n)))
      else Ok (upd m (dst + n) 0)
  end.

Definition kstrcpy (fuel : nat) (dst src : Z) (m : mem) : res mem :=
  kstrcpy_loop fuel dst src 0 m.

(** [len - 1] is a [size_t]: it wraps when [len] is 0. *)
Fixpoint kstrncpy_loop (fuel : nat) (dst src len n : Z) (m : mem) : res mem :=
  match fuel with
  | O => Fuel
  | S fuel =>
      if negb (m (src + n) =? 0) && (n <? u64 (len - 1))
      then kstrncpy_loop fuel dst src len (n + 1) (upd m (dst + n) (m (src + n)))
      else Ok (upd m (dst + n) 0)
  end.

Definition kstrncpy (fuel : nat) (dst src len : Z) (m : mem) : res mem :=
  kstrncpy_loop fuel dst src len 0 m.

(** ** Number printing *)

(** The first loop of [kuitoa] and [kxuitoa]: [size] is the number of digits
    in base [b], minus one. *)
Fixpoint itoa_size (b : Z) (fuel : nat) (size_test size : Z) : res Z :=
  match fuel with
  | O => Fuel
  | S fuel =>
      if b <=? size_test then itoa_size b fuel (size_test / b) (u8 (size + 1)) else Ok size
  end.

(** The loop [while (idx < size)] that stores the low digits at
    [s[top - idx]]; it runs [size - idx = todo] times. *)
Fixpoint itoa_loop (dig : Z → Z) (b : Z) (todo : nat) (top idx val s : Z) (m : mem)
    : Z * Z * mem :=
  match todo with
  | O => (val, idx, m)
  | S todo =>
      let rem := u8 (val mod b) in
      itoa_loop dig b todo top (u8 (idx + 1)) (val / b) s
        (upd m (s + (top - idx)) (dig rem))
  end.

(** [rem + '0'] and the two-way choice of [kxuitoa]. *)
Definition dec_char (rem : Z) : Z := u8 (rem + 48).
Definition hex_char (rem : Z) : Z := if rem <? 10 then u8 (rem + 48) else u8 (rem - 10 + 65).

(** A 64-bit value has at most 64 digits in any base from 2 on. *)
Definition ITOA_FUEL : nat := 65.

Definition kuitoa (val s : Z) (m : mem) : res (Z * mem) :=
  size ← itoa_size 10 ITOA_FUEL val 0;
  let '(val, idx, m) := itoa_loop dec_char 10 (Z.to_nat size) size 0 val s m in
  let m := upd m (s + (size - idx)) (dec_char (u8 (val mod 10))) in
  Ok (s, upd m (s + (size + 1)) 0).

(** [kitoa]'s own size loop: [val / size_test] is an unsigned division. *)
Fixpoint kitoa_size (fuel : nat) (val size_test size : Z) : res Z :=
  match fuel with
  | O => Fuel
  | S fuel =>
      if 0 <? u64 val / size_test
      then kitoa_size fuel val (u64 (size_test * 10)) (u8 (size + 1))
      else Ok size
  end.

(** [val *= -1] overflows, which C leaves undefined, for the least int64. *)
Definition kitoa (val s : Z) (m : mem) : res (Z * mem) :=
  let is_negative := if val <? 0 then 1 else 0 in
  let m := upd m s (if val <? 0 then 45 else 43) in
  val ← (if val <? 0 then (if val =? - 2 ^ 63 then Fault else Ok (- val)) else Ok val);
  size ← kitoa_size ITOA_FUEL val 10 0;
  let '(val, idx, m) :=
    itoa_loop dec_char 10 (Z.to_nat size) (is_negative + size) 0 val s m in
  let m := upd m (s + (is_negative + size - idx)) (dec_char (u8 (val mod 10))) in
  Ok (s, upd m (s + (is_negative + size + 1)) 0).

Definition kxuitoa (val s : Z) (have_leading : bool) (m : mem) : res (Z * mem) :=
  size ← itoa_size 16 ITOA_FUEL val 0;
  let print_size := if have_leading then 15 else size in
  let m := if have_leading then rep_stosb (Z.to_nat (16 - size)) s 48 m else m in
  let '(val, idx, m) := itoa_loop hex_char 16 (Z.to_nat size) print_size 0 val s m in
  let m := upd m (s + (print_size - idx)) (hex_char (u8 (val mod 16))) in
  Ok (s, upd m (s + (print_size + 1)) 0).

(** ** Paths *)

(** [while (len > 0 && '/' == s[len - 1]) len--;] *)
Fixpoint strip_slashes (s : Z) (len : nat) (m : mem) : nat :=
  match len with
  | O => O
  | S l => if m (s + Z.of_nat l) =? 47 then strip_slashes s l m else S l
  end.

(** Returns [*penult_len], [*end_idx] and [*end_len]. *)
Definition kstrpathpenult (s len : Z) (m : mem) : Z * Z * Z :=
  let len := Z.of_nat (strip_slashes s (Z.to_nat len) m) in
  match kmemrchr s 47 len m with
  | Some e => let plen := e - s in (plen, plen + 1, len - (plen + 1))
  | None => (0, 0, len)
  end.

(** ** Lemmas: number printing *)

(** The number a list of digit characters denotes, most significant first. *)
Definition num_value (b : Z) (undig : Z → Z) (cs : list Z) : Z :=
  fold_left (λ acc c, acc * b + undig c) cs 0.

Definition dec_digit (c : Z) : Z := c - 48.
Definition hex_digit (c : Z) : Z := if c <? 58 then c - 48 else c - 55.

Lemma dec_char_digit r : 0 ≤ r < 10 → dec_digit (dec_char r) = r.
Proof. intros. unfold dec_digit, dec_char. rewrite wrap_small; lia. Qed.

Lemma hex_char_digit r : 0 ≤ r < 16 → hex_digit (hex_char r) = r.
Proof. intros. unfold hex_digit, hex_char. zcases; rewrite wrap_small in * by lia; lia. Qed.

Lemma itoa_size_spec b n v sz :
  2 ≤ b → 0 ≤ v < 2 ^ Z.of_nat n → 0 ≤ sz → sz + Z.of_nat n < 256 →
  ∃ k, itoa_size b (S n) v sz = Ok (sz + k) ∧ 0 ≤ k ≤ Z.of_nat n ∧
    v < b ^ (k + 1) ∧ (0 < k → b ^ k ≤ v).
Proof.
  intros Hb. revert v sz. induction n as [|n IH]; intros v sz Hv Hsz Hlt.
  - exists 0. assert (v = 0) as -> by (simpl in Hv; lia). cbn [itoa_size].
    destruct (Z.leb_spec b 0); [lia|]. change (0 + 1) with 1. rewrite Z.pow_1_r.
    split_and!; [f_equal; lia|lia..].
  - cbn [itoa_size]. destruct (Z.leb_spec b v).
    + rewrite (wrap_small 8 (sz + 1)) by lia. rewrite Nat2Z.inj_succ, Z.pow_succ_r in Hv by lia.
      destruct (IH (v / b) (sz + 1)) as (k & Hr & Hk & Hup & Hlo); [|lia..|].
      { split; [apply Z.div_pos; lia|]. apply Z.div_lt_upper_bound; [lia|]. nia. }
      exists (k + 1). cbn [itoa_size] in Hr. rewrite Hr. split_and!; [f_equal; lia|lia..| |].
      * rewrite (Z.pow_add_r b (k + 1) 1), Z.pow_1_r by lia.
        rewrite (Z.div_mod v b) by lia. pose proof (Z.mod_pos_bound v b). nia.
      * intros _. rewrite Z.pow_add_r, Z.pow_1_r by lia.
        pose proof (Z.mul_div_le v b). destruct (decide (k = 0)) as [->|]; [simpl; nia|].
        specialize (Hlo ltac:(lia)). nia.
    + exists 0. change (0 + 1) with 1. rewrite Z.pow_1_r. split_and!; [f_equal; lia|lia..].
Qed.

Lemma itoa_loop_spec dig b todo top idx val s m val' idx' m' :
  2 ≤ b ≤ 256 → 0 ≤ val → 0 ≤ idx → idx + Z.of_nat todo < 256 →
  itoa_loop dig b todo top idx val s m = (val', idx', m') →
  val' = val / b ^ Z.of_nat todo ∧ idx' = idx + Z.of_nat todo ∧
  ∀ a, m' a =
    if in_range a (s + top - idx - Z.of_nat todo + 1) (Z.of_nat todo)
    then dig ((val / b ^ (s + top - idx - a)) mod b) else m a.
Proof.
  intros Hb. revert idx val m. induction todo as [|todo IH]; intros idx val m Hv Hi Hlt; simpl itoa_loop.
  - intros [= <- <- <-]. split_and!; [by rewrite Z.div_1_r|lia|]. intros a. mem_cases; done.
  - rewrite (wrap_small 8 (idx + 1)) by lia.
    pose proof (Z.mod_pos_bound val b ltac:(lia)). rewrite (wrap_small 8 (val mod b)) by lia.
    intros Hl. apply IH in Hl as (-> & -> & Hm); [|apply Z.div_pos; lia|lia..].
    rewrite Nat2Z.inj_succ. split_and!; [|lia|].
    + rewrite Z.pow_succ_r, Z.div_div by (try apply Z.pow_pos_nonneg; lia). done.
    + intros a. rewrite Hm. clear Hm.
      destruct (in_range_spec a (s + top - (idx + 1) - Z.of_nat todo + 1) (Z.of_nat todo));
      destruct (in_range_spec a (s + top - idx - Z.succ (Z.of_nat todo) + 1) (Z.succ (Z.of_nat todo))); try lia.
      * rewrite Z.div_div by (try apply Z.pow_pos_nonneg; lia). rewrite <- Z.pow_succ_r by lia.
        do 3 f_equal; f_equal; lia.
      * rewrite upd_lookup. destruct (Z.eqb_spec a (s + (top - idx))); [|lia].
        replace (s + top - idx - a) with 0 by lia. by rewrite Z.div_1_r.
      * apply upd_ne. lia.
Qed.

(** Both steps together: the [size + 1] digits of [val] end at [s + top]. *)
Lemma itoa_print_spec dig b size top val s m val' idx' m' :
  2 ≤ b ≤ 256 → 0 ≤ val → 0 ≤ size < 256 →
  itoa_loop dig b (Z.to_nat size) top 0 val s m = (val', idx', m') →
  ∀ a, upd m' (s + (top - idx')) (dig (u8 (val' mod b))) a =
    if in_range a (s + top - size) (size + 1)
    then dig ((val / b ^ (s + top - a)) mod b) else m a.
Proof.
  intros Hb Hv Hs Hl a. apply itoa_loop_spec in Hl as (-> & -> & Hm); [|lia..].
  rewrite Z2Nat.id in * by lia. pose proof (Z.mod_pos_bound (val / b ^ size) b ltac:(lia)).
  rewrite wrap_small by lia. rewrite upd_lookup, Hm, Z.sub_0_r.
  destruct (Z.eqb_spec a (s + (top - (0 + size))));
  destruct (in_range_spec a (s + top - size + 1) size); 
  destruct (in_range_spec a (s + top - size) (size + 1)); try lia; try done.
  do 4 f_equal; lia.
Qed.

(** Digits stored most significant first denote the number they came from. *)
Lemma num_value_digits b dig undig s n v m :
  2 ≤ b → 0 ≤ v → (∀ r, 0 ≤ r < b → undig (dig r) = r) →
  (∀ i, 0 ≤ i < Z.of_nat n → m (s + i) = dig ((v / b ^ (Z.of_nat n - 1 - i)) mod b)) →
  num_value b undig (rd_bytes m s n) = v mod b ^ Z.of_nat n.
Proof.
  intros Hb Hv Hdig. revert v Hv. induction n as [|n IH]; intros v Hv Hm.
  { simpl. by rewrite Z.mod_1_r. }
  replace (S n) with (n + 1)%nat by lia. rewrite rd_bytes_app. unfold num_value.
  rewrite fold_left_app. fold (num_value b undig (rd_bytes m s n)). simpl.
  rewrite (IH (v / b)) by (try apply Z.div_pos; try lia; intros i Hi; rewrite Hm by lia;
    rewrite Z.div_div by (try apply Z.pow_pos_nonneg; lia);
    rewrite <- Z.pow_succ_r by lia; do 3 f_equal; f_equal; lia).
  rewrite Hm by lia. replace (Z.of_nat (S n) - 1 - Z.of_nat n) with 0 by lia.
  rewrite Z.div_1_r, Hdig by (apply Z.mod_pos_bound; lia).
  rewrite Nat2Z.inj_add, Z.pow_add_r, Z.pow_1_r, (Z.mul_comm (_ ^ _) b) by lia.
  rewrite Z.rem_mul_r by (try apply Z.pow_pos_nonneg; lia). lia.
Qed.

Lemma pow_bound b k w v : 2 ≤ b → 0 ≤ k → 0 ≤ w → b ^ k ≤ v → v < b ^ w → k < w.
Proof. intros. destruct (decide (w ≤ k)); [|lia]. pose proof (Z.pow_le_mono_r b w k). lia. Qed.

(** The leading digit of a number with more than one digit is not 0. *)
Lemma lead_digit_pos b k v :
  2 ≤ b → 0 < k → b ^ k ≤ v < b ^ (k + 1) → 0 < (v / b ^ k) mod b.
Proof.
  intros Hb Hk [Hlo Hup]. pose proof (Z.pow_pos_nonneg b k).
  rewrite Z.pow_add_r, Z.pow_1_r in Hup by lia.
  assert (v / b ^ k < b) by (apply Z.div_lt_upper_bound; lia).
  assert (1 ≤ v / b ^ k) by (apply Z.div_le_lower_bound; lia).
  rewrite Z.mod_small; lia.
Qed.

(** [m'] holds at [s] a NUL-terminated numeral of [n] digits with value [v],
    and agrees with [m] outside those [n + 1] bytes. *)
Definition prints (b : Z) (undig : Z → Z) (v s : Z) (n : nat) (m m' : mem) : Prop :=
  num_value b undig (rd_bytes m' s n) = v ∧
  (∀ i, 0 ≤ i < Z.of_nat n → 0 ≤ undig (m' (s + i)) < b) ∧
  m' (s + Z.of_nat n) = 0 ∧
  (∀ a, ¬ (s ≤ a ≤ s + Z.of_nat n) → m' a = m a).

Lemma prints_intro b dig undig v s n m m' m'' :
  2 ≤ b → 0 ≤ v < b ^ Z.of_nat n → (∀ r, 0 ≤ r < b → undig (dig r) = r) →
  (∀ i, 0 ≤ i < Z.of_nat n → m' (s + i) = dig ((v / b ^ (Z.of_nat n - 1 - i)) mod b)) →
  (∀ a, ¬ (s ≤ a < s + Z.of_nat n) → m' a = m a) →
  (∀ a, m'' a = upd m' (s + Z.of_nat n) 0 a) →
  prints b undig v s n m m''.
Proof.
  intros Hb Hv Hdig Hin Hout Hm.
  assert (Hin' : ∀ i, 0 ≤ i < Z.of_nat n →
    m'' (s + i) = dig ((v / b ^ (Z.of_nat n - 1 - i)) mod b))
    by (intros; rewrite Hm, upd_ne by lia; auto).
  split_and!.
  - rewrite (num_value_digits b dig undig s n v) by (auto || lia). by apply Z.mod_small.
  - intros i Hi. rewrite Hin', Hdig by (done || apply Z.mod_pos_bound; lia).
    apply Z.mod_pos_bound; lia.
  - rewrite Hm. apply upd_eq.
  - intros a Ha. rewrite Hm, upd_ne by lia. apply Hout; lia.
Qed.

(** ** Properties: number printing *)

(** for every 64-bit value, [kuitoa] prints the decimal numeral of that
    value: at most 20 digits, no leading zero, NUL-terminated, and nothing
    outside the printed bytes is touched. *)
Theorem kuitoa_roundtrip val s m :
  0 ≤ val < 2 ^ 64 →
  ∃ n m', kuitoa val s m = Ok (s, m') ∧ (1 ≤ n ≤ 20)%nat ∧
    prints 10 dec_digit val s n m m' ∧ ((1 < n)%nat → m' s ≠ 48).
Proof.
  intros Hv. destruct (itoa_size_spec 10 64 val 0) as (k & Hsz & Hk & Hup & Hlo); [lia..|].
  unfold kuitoa. change ITOA_FUEL with 65%nat. rewrite Hsz, Z.add_0_l. mstep.
  destruct (itoa_loop dec_char 10 (Z.to_nat k) k 0 val s m) as [[v' idx'] m'] eqn:Hl.
  pose proof (itoa_print_spec dec_char 10 k k val s m _ _ _ ltac:(lia) ltac:(lia) ltac:(lia) Hl) as Hp.
  exists (Z.to_nat (k + 1)). eexists. split; [done|].
  assert (Hk19 : k < 20).
  { destruct (decide (k = 0)); [lia|]. apply (pow_bound 10 k 20 val); lia. }
  split_and!; [lia|lia| |].
  - eapply (prints_intro 10 dec_char); rewrite ?Z2Nat.id by lia; [lia|lia|apply dec_char_digit| | |reflexivity].
    + intros i Hi. rewrite Hp. destruct (in_range_spec (s + i) (s + k - k) (k + 1)); [|lia].
      do 3 f_equal; f_equal; lia.
    + intros a Ha. rewrite Hp. destruct (in_range_spec a (s + k - k) (k + 1)); [lia|done].
  - intros Hn. rewrite upd_ne, Hp by lia.
    destruct (in_range_spec s (s + k - k) (k + 1)); [|lia].
    replace (s + k - s) with k by lia. pose proof (lead_digit_pos 10 k val).
    pose proof (Z.mod_pos_bound (val / 10 ^ k) 10). unfold dec_char. rewrite wrap_small; lia.
Qed.

Lemma kuitoa_roundtrip_witness :
  ∃ n m', kuitoa 1234 50 (λ _, 0) = Ok (50, m') ∧ (1 ≤ n ≤ 20)%nat ∧
    prints 10 dec_digit 1234 50 n (λ _, 0) m' ∧ ((1 < n)%nat → m' 50 ≠ 48).
Proof. apply (kuitoa_roundtrip 1234 50 (λ _, 0)). lia. Defined.

Lemma kitoa_size_spec fuel val j :
  0 ≤ val < 2 ^ 63 → 0 ≤ j ≤ 18 → 18 - j < Z.of_nat fuel → (0 < j → 10 ^ j ≤ val) →
  ∃ k, kitoa_size fuel val (10 ^ (j + 1)) j = Ok k ∧ j ≤ k ≤ 18 ∧ val < 10 ^ (k + 1).
Proof.
  intros Hv. revert j. induction fuel as [|fuel IH]; intros j Hj Hf Hlo; [lia|].
  simpl. rewrite (wrap_small 64 val) by lia. pose proof (Z.pow_pos_nonneg 10 (j + 1)).
  destruct (Z.ltb_spec 0 (val / 10 ^ (j + 1))) as [Hq|Hq].
  - assert (10 ^ (j + 1) ≤ val).
    { pose proof (Z.mul_div_le val (10 ^ (j + 1))). nia. }
    pose proof (pow_bound 10 (j + 1) 19 val).
    rewrite (wrap_small 8) by lia. pose proof (Z.pow_le_mono_r 10 (j + 1) 18).
    rewrite wrap_small by lia.
    replace (10 ^ (j + 1) * 10) with (10 ^ (j + 1 + 1)) by (rewrite (Z.pow_add_r 10 (j + 1) 1); lia).
    destruct (IH (j + 1)) as (k & ? & ? & ?); [lia..|]. exists k. split_and!; done || lia.
  - exists j. split_and!; [done|lia..|].
    apply Z.nle_gt. intros Hge. pose proof (Z.div_le_lower_bound val (10 ^ (j + 1)) 1). lia.
Qed.

(** [kitoa] prints every int64 but the least one: a minus sign for the
    negative ones, then the decimal numeral of the absolute value. *)
Theorem kitoa_roundtrip val s m :
  - 2 ^ 63 < val < 2 ^ 63 →
  ∃ n m', kitoa val s m = Ok (s, m') ∧ (1 ≤ n ≤ 19)%nat ∧
    (if val <? 0 then m' s = 45 ∧ prints 10 dec_digit (- val) (s + 1) n (upd m s 45) m'
     else prints 10 dec_digit val s n m m').
Proof.
  intros Hv. unfold kitoa. set (neg := if val <? 0 then 1 else 0).
  set (m0 := upd m s (if val <? 0 then 45 else 43)).
  assert (Habs : (if val <? 0 then if val =? - 2 ^ 63 then Fault else Ok (- val) else Ok val)
    = Ok (Z.abs val)).
  { destruct (Z.ltb_spec val 0); [destruct (Z.eqb_spec val (- 2 ^ 63)); [lia|]|]; f_equal; lia. }
  rewrite Habs. mstep.
  destruct (kitoa_size_spec ITOA_FUEL (Z.abs val) 0) as (k & Hsz & Hk & Hup); [unfold ITOA_FUEL; lia..|].
  change (10 ^ (0 + 1)) with 10 in Hsz. rewrite Hsz. mstep.
  destruct (itoa_loop _ _ _ _ _ _ _ _) as [[v' idx'] m'] eqn:Hl.
  pose proof (itoa_print_spec dec_char 10 k (neg + k) (Z.abs val) s m0 _ _ _ ltac:(lia) ltac:(lia) ltac:(lia) Hl) as Hp.
  exists (Z.to_nat (k + 1)). eexists. split; [done|]. split; [lia|].
  assert (Hpr : prints 10 dec_digit (Z.abs val) (s + neg) (Z.to_nat (k + 1)) 
    (if val <? 0 then m0 else m)
    (upd (upd m' (s + (neg + k - idx')) (dec_char (u8 (v' mod 10)))) (s + (neg + k + 1)) 0)).
  { eapply (prints_intro 10 dec_char); rewrite ?Z2Nat.id by lia;
      [lia|lia|apply dec_char_digit| | |intros a; f_equal; lia].
    - intros i Hi. rewrite Hp. destruct (in_range_spec (s + neg + i) (s + (neg + k) - k) (k + 1)); [|lia].
      do 3 f_equal; f_equal; lia.
    - intros a Ha. rewrite Hp. destruct (in_range_spec a (s + (neg + k) - k) (k + 1)); [lia|].
      unfold m0, neg in *. destruct (Z.ltb_spec val 0); [done|]. apply upd_ne; lia. }
  unfold neg, m0 in *. destruct (Z.ltb_spec val 0).
  - rewrite Z.abs_neq in Hpr by lia. split; [|done].
    destruct Hpr as (_ & _ & _ & Ho). rewrite Ho by lia. apply upd_eq.
  - rewrite Z.abs_eq, Z.add_0_r in Hpr by lia. done.
Qed.

Lemma kitoa_roundtrip_witness :
  ∃ n m', kitoa (-70) 50 (λ _, 0) = Ok (50, m') ∧ (1 ≤ n ≤ 19)%nat ∧
    (if -70 <? 0 then m' 50 = 45 ∧ prints 10 dec_digit (- -70) (50 + 1) n (upd (λ _, 0) 50 45) m'
     else prints 10 dec_digit (-70) 50 n (λ _, 0) m').
Proof. apply (kitoa_roundtrip (-70) 50 (λ _, 0)). lia. Defined.

(** [kxuitoa] prints every 64-bit value in hexadecimal: exactly 16 digits
    with leading zeros, without them at most 16 and no leading zero. *)
Theorem kxuitoa_roundtrip val s have_leading m :
  0 ≤ val < 2 ^ 64 →
  ∃ n m', kxuitoa val s have_leading m = Ok (s, m') ∧ (1 ≤ n ≤ 16)%nat ∧
    (have_leading = true → n = 16%nat) ∧ prints 16 hex_digit val s n m m' ∧
    (have_leading = false → (1 < n)%nat → m' s ≠ 48).
Proof.
  intros Hv. destruct (itoa_size_spec 16 64 val 0) as (k & Hsz & Hk & Hup & Hlo); [lia..|].
  unfold kxuitoa. change ITOA_FUEL with 65%nat. rewrite Hsz, Z.add_0_l. mstep.
  set (top := if have_leading then 15 else k).
  set (m0 := if have_leading then rep_stosb (Z.to_nat (16 - k)) s 48 m else m).
  destruct (itoa_loop hex_char 16 (Z.to_nat k) top 0 val s m0) as [[v' idx'] m'] eqn:Hl.
  pose proof (itoa_print_spec hex_char 16 k top val s m0 _ _ _ ltac:(lia) ltac:(lia) ltac:(lia) Hl) as Hp.
  assert (Hk16 : k < 16).
  { destruct (decide (k = 0)); [lia|]. apply (pow_bound 16 k 16 val); lia. }
  assert (Hm0 : ∀ a, m0 a = if have_leading && in_range a s (16 - k) then 48 else m a).
  { intros a. unfold m0. destruct have_leading; [|done].
    by rewrite rep_stosb_lookup, Z2Nat.id by lia. }
  exists (Z.to_nat (top + 1)). eexists. split; [done|].
  split; [unfold top; destruct have_leading; lia|].
  split; [intros ->; subst top; simpl; lia|]. split.
  - eapply (prints_intro 16 hex_char); rewrite ?Z2Nat.id by (subst top; destruct have_leading; lia);
      [lia| |apply hex_char_digit| | |reflexivity].
    + subst top; destruct have_leading; simpl; lia.
    + intros i Hi. rewrite Hp. destruct (in_range_spec (s + i) (s + top - k) (k + 1)).
      { do 3 f_equal; f_equal; lia. }
      rewrite Hm0. subst top. destruct have_leading; [|lia]. simpl andb.
      destruct (in_range_spec (s + i) s (16 - k)); [|lia].
      rewrite Z.div_small; [done|]. split; [lia|].
      pose proof (Z.pow_le_mono_r 16 (k + 1) (15 + 1 - 1 - i)). lia.
    + intros a Ha. rewrite Hp, Hm0. subst top.
      destruct (in_range_spec a (s + (if have_leading then 15 else k) - k) (k + 1));
        [destruct have_leading; lia|].
      destruct have_leading; cbn [andb]; [|done].
      destruct (in_range_spec a s (16 - k)); [lia|done].
  - intros -> Hn. subst top. rewrite upd_ne, Hp by lia.
    destruct (in_range_spec s (s + k - k) (k + 1)); [|lia].
    replace (s + k - s) with k by lia. pose proof (lead_digit_pos 16 k val).
    pose proof (Z.mod_pos_bound (val / 16 ^ k) 16). unfold hex_char.
    zcases; rewrite wrap_small; lia.
Qed.

Lemma kxuitoa_roundtrip_witness :
  ∃ n m', kxuitoa 48879 50 true (λ _, 0) = Ok (50, m') ∧ (1 ≤ n ≤ 16)%nat ∧
    (true = true → n = 16%nat) ∧ prints 16 hex_digit 48879 50 n (λ _, 0) m' ∧
    (true = false → (1 < n)%nat → m' 50 ≠ 48).
Proof. apply (kxuitoa_roundtrip 48879 50 true (λ _, 0)). lia. Defined.

(** ** Lemmas: C strings and paths *)

(** [bs] is the C string at [s]. *)
Definition cstr (m : mem) (s : Z) (bs : list Z) : Prop :=
  rd_bytes m s (length bs) = bs ∧ m (s + Z.of_nat (length bs)) = 0 ∧ Forall (λ b, b ≠ 0) bs.

Lemma cstr_nil m s : cstr m s [] ↔ m s = 0.
Proof. unfold cstr. simpl. rewrite Z.add_0_r. split; [tauto|]. intros; split_and!; done || constructor. Qed.

Lemma cstr_cons m s b bs : cstr m s (b :: bs) ↔ m s = b ∧ b ≠ 0 ∧ cstr m (s + 1) bs.
Proof.
  unfold cstr. simpl length. simpl rd_bytes. rewrite Forall_cons.
  replace (s + Z.of_nat (S (length bs))) with (s + 1 + Z.of_nat (length bs)) by lia.
  split; [intros ([= -> ->] & ? & ? & ?)|intros (-> & ? & -> & ? & ?)]; auto.
Qed.

Lemma kstrlen_loop_spec m s bs n fuel :
  cstr m s bs → (length bs < fuel)%nat → 0 ≤ n → n + Z.of_nat (length bs) < 2 ^ 64 →
  kstrlen_loop fuel s n m = Ok (n + Z.of_nat (length bs)).
Proof.
  revert s n fuel. induction bs as [|b bs IH]; intros s n [|fuel] Hs Hf Hn Hlt; simpl in Hf; try lia.
  - apply cstr_nil in Hs. simpl. rewrite Hs. simpl. f_equal; lia.
  - apply cstr_cons in Hs as (<- & Hb & Hs). simpl length in *. simpl.
    destruct (Z.eqb_spec (m s) 0); [done|]. simpl.
    rewrite wrap_small by lia. rewrite (IH (s + 1) (n + 1) fuel) by (done || lia). f_equal; lia.
Qed.

Lemma kstrcmp_loop_spec m s1 s2 bs1 bs2 fuel :
  cstr m s1 bs1 → cstr m s2 bs2 → (length bs1 + length bs2 < fuel)%nat →
  kstrcmp_loop fuel s1 s2 m = Ok (if decide (bs1 = bs2) then 0 else -1).
Proof.
  revert s1 s2 bs2 fuel. induction bs1 as [|b1 bs1 IH]; intros s1 s2 [|b2 bs2] [|fuel] H1 H2 Hf;
    simpl in Hf; try lia; cbn [kstrcmp_loop];
    first [apply cstr_nil in H1|apply cstr_cons in H1];
    first [apply cstr_nil in H2|apply cstr_cons in H2].
  - by rewrite H1, H2.
  - destruct H2 as (<- & ? & _). rewrite H1, decide_False by done.
    destruct (Z.eqb_spec (m s2) 0); [done|]. cbn [negb orb].
    destruct (Z.eqb_spec 0 (m s2)); [congruence|done].
  - destruct H1 as (<- & ? & _). rewrite H2, decide_False by done.
    destruct (Z.eqb_spec (m s1) 0); done.
  - destruct H1 as (<- & ? & H1), H2 as (<- & ? & H2).
    destruct (Z.eqb_spec (m s1) 0); [done|]. cbn [negb orb].
    destruct (Z.eqb_spec (m s1) (m s2)) as [->|]; cbn [negb].
    + rewrite (IH _ _ bs2) by (done || lia). repeat case_decide; simplify_eq; done.
    + rewrite decide_False; [done|]. congruence.
Qed.

Lemma strip_slashes_spec s n m :
  (strip_slashes s n m ≤ n)%nat ∧
  (∀ i, (strip_slashes s n m ≤ i < n)%nat → m (s + Z.of_nat i) = 47) ∧
  ((0 < strip_slashes s n m)%nat → m (s + Z.of_nat (strip_slashes s n m - 1)) ≠ 47).
Proof.
  induction n as [|n (Hle & Hs & Hl)]; simpl; [split_and!; lia|].
  destruct (Z.eqb_spec (m (s + Z.of_nat n)) 47); split_and!; try lia; try done.
  - intros i Hi. destruct (decide (i = n)) as [->|]; [done|apply Hs; lia].
  - intros _. replace (S n - 1)%nat with n by lia. done.
Qed.

Lemma kstrncpy_loop_spec m dst src bs len n fuel :
  cstr m (src + n) bs → 1 ≤ len < 2 ^ 64 → 0 ≤ n ≤ len - 1 → (length bs < fuel)%nat →
  dst + len ≤ src ∨ src + n + Z.of_nat (length bs) < dst →
  ∃ m' k, kstrncpy_loop fuel dst src len n m = Ok m' ∧
    k = Z.min (Z.of_nat (length bs)) (len - 1 - n) ∧
    (∀ i, 0 ≤ i < k → m' (dst + n + i) = m (src + n + i)) ∧ m' (dst + n + k) = 0 ∧
    (∀ a, ¬ (dst + n ≤ a ≤ dst + n + k) → m' a = m a).
Proof.
  intros Hs Hlen. revert n m fuel Hs.
  induction bs as [|b bs IH]; intros n m [|fuel] Hs Hn Hf Hd; simpl length in *; try lia; cbn [kstrncpy_loop].
  - apply cstr_nil in Hs. rewrite Hs. cbn [Z.eqb negb andb]. eexists _, 0. split; [done|].
    rewrite Z.add_0_r, upd_eq. split_and!; [lia|lia|done|]. intros a Ha. apply upd_ne; lia.
  - apply cstr_cons in Hs as (Hb & Hb0 & Hs). rewrite Hb. rewrite (wrap_small 64) by lia.
    destruct (Z.eqb_spec b 0); [done|]. cbn [negb andb]. destruct (Z.ltb_spec n (len - 1)).
    + destruct (IH (n + 1) (upd m (dst + n) b) fuel) as (m' & k & -> & Hk & Hin & Hz & Hout); [|lia..|].
      { destruct Hs as (Hr & H0 & Hnz). replace (src + (n + 1)) with (src + n + 1) by lia.
        split_and!; [|rewrite upd_ne by lia; done|done].
        rewrite <- Hr at 2. apply rd_bytes_ext. intros; apply upd_ne; lia. }
      exists m', (k + 1). split_and!; [done|lia| | |].
      * intros i Hi. destruct (decide (i = 0)) as [->|].
        { rewrite Hout, !Z.add_0_r, upd_eq by lia. done. }
        replace (dst + n + i) with (dst + (n + 1) + (i - 1)) by lia. rewrite Hin by lia.
        rewrite upd_ne by lia. f_equal; lia.
      * rewrite <- Hz. f_equal; lia.
      * intros a Ha. rewrite Hout by lia. apply upd_ne; lia.
    + eexists _, 0. split; [done|].
      rewrite Z.add_0_r, upd_eq. split_and!; [lia|lia|done|]. intros a Ha. apply upd_ne; lia.
Qed.

(** ** Properties: strings and paths *)

(** [kstrpathpenult] splits a path at its last component: what remains
    after trailing slashes is the part of length [penult_len], a slash and a
    slash-free component at [end_idx]; with no slash the component is all. *)
Theorem kstrpathpenult_split s len m :
  0 ≤ len →
  ∃ total penult_len end_idx end_len,
    kstrpathpenult s len m = (penult_len, end_idx, end_len) ∧
    0 ≤ total ≤ len ∧ (∀ i, total ≤ i < len → m (s + i) = 47) ∧
    (0 < total → m (s + (total - 1)) ≠ 47) ∧
    end_idx + end_len = total ∧ 0 ≤ penult_len ≤ end_idx ∧ 0 ≤ end_len ∧
    (∀ i, end_idx ≤ i < total → m (s + i) ≠ 47) ∧
    (if 0 <? end_idx then end_idx = penult_len + 1 ∧ m (s + penult_len) = 47
     else penult_len = 0).
Proof.
  intros Hlen. destruct (strip_slashes_spec s (Z.to_nat len) m) as (Hle & Hs & Hl).
  unfold kstrpathpenult. set (t := strip_slashes s (Z.to_nat len) m) in *.
  exists (Z.of_nat t).
  assert (Hs' : ∀ i, Z.of_nat t ≤ i < len → m (s + i) = 47).
  { intros i Hi. replace i with (Z.of_nat (Z.to_nat i)) by lia. apply Hs; lia. }
  assert (Hl' : 0 < Z.of_nat t → m (s + (Z.of_nat t - 1)) ≠ 47).
  { intros. replace (Z.of_nat t - 1) with (Z.of_nat (t - 1)) by lia. apply Hl; lia. }
  unfold kmemrchr. rewrite Nat2Z.id, (wrap_small 8) by lia.
  destruct (kmemrchr_loop t s 47 m) as [e|] eqn:He.
  - apply kmemrchr_loop_Some in He as (k & Hk & -> & Hm & Hj).
    replace (s + k - s) with k by lia. exists k, (k + 1), (Z.of_nat t - (k + 1)).
    split_and!; try done; try lia.
    + intros; apply Hj; lia.
    + destruct (Z.ltb_spec 0 (k + 1)); [done|lia].
  - rewrite kmemrchr_loop_None in He. exists 0, 0, (Z.of_nat t).
    split_and!; try done; lia.
Qed.

Definition path_mem : mem := wr_bytes (λ _, 0) 10 [47; 97; 47; 98; 47].

Lemma kstrpathpenult_split_witness :
  kstrpathpenult 10 5 path_mem = (2, 3, 1) ∧
  ∃ total penult_len end_idx end_len,
    kstrpathpenult 10 5 path_mem = (penult_len, end_idx, end_len) ∧
    0 ≤ total ≤ 5 ∧ (∀ i, total ≤ i < 5 → path_mem (10 + i) = 47) ∧
    (0 < total → path_mem (10 + (total - 1)) ≠ 47) ∧
    end_idx + end_len = total ∧ 0 ≤ penult_len ≤ end_idx ∧ 0 ≤ end_len ∧
    (∀ i, end_idx ≤ i < total → path_mem (10 + i) ≠ 47) ∧
    (if 0 <? end_idx then end_idx = penult_len + 1 ∧ path_mem (10 + penult_len) = 47
     else penult_len = 0).
Proof. split; [reflexivity|apply (kstrpathpenult_split 10 5 path_mem); lia]. Defined.

(** [kstrncpy] never writes outside the [len] bytes of its destination,
    copies at most [len - 1] characters and always terminates the result. *)
Theorem kstrncpy_bounded fuel dst src len bs m :
  cstr m src bs → 1 ≤ len < 2 ^ 64 → (length bs < fuel)%nat →
  dst + len ≤ src ∨ src + Z.of_nat (length bs) < dst →
  ∃ m' k, kstrncpy fuel dst src len m = Ok m' ∧
    k = Z.min (Z.of_nat (length bs)) (len - 1) ∧
    (∀ i, 0 ≤ i < k → m' (dst + i) = m (src + i)) ∧ m' (dst + k) = 0 ∧
    (∀ a, ¬ (dst ≤ a < dst + len) → m' a = m a).
Proof.
  intros Hs Hlen Hf Hd. unfold kstrncpy.
  destruct (kstrncpy_loop_spec m dst src bs len 0 fuel)
    as (m' & k & -> & Hk & Hin & Hz & Hout); [by rewrite Z.add_0_r|lia..|].
  exists m', k. rewrite Z.add_0_r in Hz. split_and!; [done|lia| |done|].
  - intros i Hi. specialize (Hin i Hi). rewrite !Z.add_0_r in Hin. done.
  - intros a Ha. apply Hout. lia.
Qed.

Lemma kstrncpy_bounded_witness :
  ∃ m' k, kstrncpy 10 200 100 3 abc_mem = Ok m' ∧
    k = Z.min (Z.of_nat (length [97; 98; 99])) (3 - 1) ∧
    (∀ i, 0 ≤ i < k → m' (200 + i) = abc_mem (100 + i)) ∧ m' (200 + k) = 0 ∧
    (∀ a, ¬ (200 ≤ a < 200 + 3) → m' a = abc_mem a).
Proof.
  apply (kstrncpy_bounded 10 200 100 3 [97; 98; 99] abc_mem); simpl; try lia.
  split; [reflexivity|split; [reflexivity|]]. repeat constructor; lia.
Defined.
