(* ===== verification/Hashmap.v ===== *)
(** * The hash map of src/com/lib/hashmap.c

    Buckets are [TAILQ]s of entries, modelled as lists from head to tail. A
    key is the list of the bytes behind the [key] pointer, so [key_size] is
    its length; values ([void *]) are a type of their own. *)
From S2P Require Import Prelude.

Definition FNV1OFFSET : Z := 0xcbf29ce484222325.
Definition FNV1PRIME : Z := 0x100000001b3.
Definition KHASHMAP_DEFAULT_SIZE : Z := 16376.

(** [h ^= *ptr++; h *= FNV1PRIME;] over the bytes of the key. *)
Definition get_hash (buffer : list Z) : Z :=
  fold_left (λ h b, u64 (Z.lxor h b * FNV1PRIME)) buffer FNV1OFFSET.

(** [sizeof(khashmap_entry_t)]: two link pointers and four words. *)
Definition sizeof_entry : Z := 48.

Section hashmap.
Context {V : Type}.

Record khashmap_entry := Entry {
  hash : Z;
  key_size : Z;
  key : list Z;
  value : V }.

Record khashmap := Hashmap {
  capacity : Z;
  num_entries : Z;
  entries : list (list khashmap_entry) }.

Definition with_bucket (hm : khashmap) (off : Z) (b : list khashmap_entry) : khashmap :=
  Hashmap (capacity hm) (num_entries hm) (<[Z.to_nat off := b]> (entries hm)).

Definition bucket_off (hm : khashmap) (h : Z) : Z := Z.land h (capacity hm - 1).

(** [&hashmap->entries[off]], dereferenced. *)
Definition bucket (hm : khashmap) (off : Z) : res (list khashmap_entry) :=
  deref (entries hm !! Z.to_nat off).

(** The test of [get_entry]; the key bytes are compared when sizes and hashes
    agree, [kmemcmp] being equality of the two blocks. *)
Definition entry_matches (k : list Z) (ksize h : Z) (e : khashmap_entry) : Prop :=
  key_size e = ksize ∧ hash e = h ∧ key e = k.

#[global] Instance entry_matches_dec k ksize h e : Decision (entry_matches k ksize h e).
Proof. unfold entry_matches. apply _. Defined.

(** The entry found is designated by its position in the bucket. *)
Definition get_entry (hm : khashmap) (k : list Z) (h : Z) : res (option (nat * khashmap_entry)) :=
  b ← bucket hm (bucket_off hm h);
  Ok (list_find (entry_matches k (Z.of_nat (length k)) h) b).

(** [entries_phys] is what [com_mm_pmm_alloc_many] returned; the NULL test is
    on its higher-half address. [num_entries] is not written. *)
Definition khashmap_init (hm : khashmap) (size entries_phys : Z) : errno * khashmap :=
  if ARCH_PHYS_TO_HHDM entries_phys =? 0
  then (ENOMEM, Hashmap size (num_entries hm) (entries hm))
  else (E0, Hashmap size (num_entries hm) (replicate (Z.to_nat size) [])).

(** The number of pages [khashmap_init] asks for. *)
Definition khashmap_init_pages (size : Z) : Z := sizeof_entry * size / ARCH_PAGE_SIZE + 1.

Definition khashmap_set (hm : khashmap) (k : list Z) (v : V) : res (errno * khashmap) :=
  let h := get_hash k in
  e ← get_entry hm k h;
  match e with
  | Some (i, e) =>
      b ← bucket hm (bucket_off hm h);
      Ok (E0, with_bucket hm (bucket_off hm h)
                (<[i := Entry (hash e) (key_size e) (key e) v]> b))
  | None => Ok (ENOENT, hm)
  end.

(** [alloc_entry] and [alloc_key] say whether the two [com_mm_slab_alloc] calls
    returned memory. *)
Definition khashmap_put (alloc_entry alloc_key : bool) (hm : khashmap) (k : list Z) (v : V)
    : res (errno * khashmap) :=
  r ← khashmap_set hm k v;
  let '(ret, hm) := r in
  if decide (ret = E0) then Ok (E0, hm)
  else
    let h := get_hash k in
    let off := bucket_off hm h in
    if negb alloc_entry then Ok (ENOMEM, hm)
    else if negb alloc_key then Ok (ENOMEM, hm)
    else
      b ← bucket hm off;
      let hm := with_bucket hm off (Entry h (Z.of_nat (length k)) k v :: b) in
      Ok (E0, Hashmap (capacity hm) (u64 (num_entries hm + 1)) (entries hm)).

(** The value stored in [*out], if any. *)
Definition khashmap_get (hm : khashmap) (k : list Z) : res (errno * option V) :=
  e ← get_entry hm k (get_hash k);
  match e with
  | None => Ok (ENOENT, None)
  | Some (_, e) => Ok (E0, Some (value e))
  end.

Definition khashmap_remove (hm : khashmap) (k : list Z) : res (errno * khashmap) :=
  let h := get_hash k in
  let off := bucket_off hm h in
  b ← bucket hm off;
  e ← get_entry hm k h;
  match e with
  | None => Ok (ENOENT, hm)
  | Some (i, _) =>
      let hm := with_bucket hm off (delete i b) in
      Ok (E0, Hashmap (capacity hm) (u64 (num_entries hm - 1)) (entries hm))
  end.

Definition khashmap_default (alloc_entry alloc_key : bool) (hm : khashmap) (k : list Z) (d : V)
    : res (errno * option V * khashmap) :=
  g ← khashmap_get hm k;
  let '(get_ret, ret) := g in
  if decide (get_ret = E0) then Ok (E0, ret, hm)
  else if decide (get_ret ≠ ENOENT) then Ok (get_ret, None, hm)
  else
    p ← khashmap_put alloc_entry alloc_key hm k d;
    let '(put_ret, hm) := p in
    if decide (put_ret ≠ E0) then Ok (put_ret, None, hm)
    else
      g ← khashmap_get hm k;
      let '(ret, out) := g in Ok (ret, out, hm).

(** "TODO: implement hashmap destroy": nothing is freed. *)
Definition khashmap_destroy (hm : khashmap) : errno * khashmap := (E0, hm).

(** ** Invariant and abstraction *)

Definition entry_ok (hm : khashmap) (i : nat) (e : khashmap_entry) : Prop :=
  hash e = get_hash (key e) ∧ key_size e = Z.of_nat (length (key e)) ∧
  Z.of_nat i = bucket_off hm (hash e).

(** Every entry sits in the bucket of its hash, no key occurs twice and the
    counter counts the entries. *)
Definition wf (hm : khashmap) : Prop :=
  0 < capacity hm ∧ Z.of_nat (length (entries hm)) = capacity hm ∧
  NoDup (key <$> concat (entries hm)) ∧
  (∀ i b e, entries hm !! i = Some b → e ∈ b → entry_ok hm i e) ∧
  num_entries hm = u64 (Z.of_nat (length (concat (entries hm)))).

Definition kvs (hm : khashmap) : list (list Z * V) :=
  (λ e, (key e, value e)) <$> concat (entries hm).

(** The finite map a hash map stands for. *)
Definition hm_map (hm : khashmap) : gmap (list Z) V := list_to_map (kvs hm).

(** ** Lemmas *)

Lemma get_hash_nonneg k : 0 ≤ get_hash k.
Proof.
  unfold get_hash. assert (H : 0 ≤ FNV1OFFSET) by done. revert H.
  generalize FNV1OFFSET. induction k as [|b k IH]; intros h H; simpl; [done|].
  apply IH. apply wrap_range; lia.
Qed.

Lemma bucket_off_range hm h : 0 < capacity hm → 0 ≤ h → 0 ≤ bucket_off hm h < capacity hm.
Proof.
  intros Hc Hh. unfold bucket_off. split; [apply Z.land_nonneg; lia|].
  enough (Z.land h (capacity hm - 1) ≤ capacity hm - 1) by lia.
  apply Z.ldiff_le; [lia|]. rewrite Z.ldiff_land, <- Z.land_assoc.
  by rewrite <- (Z.ldiff_land (capacity hm - 1)), Z.ldiff_diag, Z.land_0_r.
Qed.

Lemma wf_bucket hm k :
  wf hm → ∃ b, bucket hm (bucket_off hm (get_hash k)) = Ok b ∧
    entries hm !! Z.to_nat (bucket_off hm (get_hash k)) = Some b.
Proof.
  intros (Hc & Hl & _). pose proof (bucket_off_range hm (get_hash k) Hc (get_hash_nonneg k)).
  destruct (lookup_lt_is_Some_2 (entries hm) (Z.to_nat (bucket_off hm (get_hash k)))) as [b Hb]; [lia|].
  exists b. unfold bucket. by rewrite Hb.
Qed.

(** Replacing one bucket, as a permutation of all entries. *)
Lemma concat_insert_perm {A} (l : list (list A)) i b b' :
  l !! i = Some b → ∃ rest, concat l ≡ₚ b ++ rest ∧ concat (<[i:=b']> l) ≡ₚ b' ++ rest.
Proof.
  intros Hi. exists (concat (take i l) ++ concat (drop (S i) l)). split.
  - rewrite <- (take_drop_middle l i b Hi) at 1. rewrite concat_app. simpl. solve_Permutation.
  - rewrite insert_take_drop by (by eapply lookup_lt_Some). rewrite concat_app. simpl. solve_Permutation.
Qed.

Lemma insert_perm {A} (l : list A) i x y :
  l !! i = Some x → ∃ rest, l ≡ₚ x :: rest ∧ <[i:=y]> l ≡ₚ y :: rest ∧ delete i l ≡ₚ rest.
Proof.
  intros Hi. exists (take i l ++ drop (S i) l). split_and!.
  - rewrite <- (take_drop_middle l i x Hi) at 1. solve_Permutation.
  - rewrite insert_take_drop by (by eapply lookup_lt_Some). solve_Permutation.
  - by rewrite delete_take_drop.
Qed.

Lemma kvs_keys hm : (kvs hm).*1 = key <$> concat (entries hm).
Proof. unfold kvs. by rewrite <- list_fmap_compose. Qed.

Lemma hm_map_Some hm k v :
  wf hm → hm_map hm !! k = Some v ↔ ∃ e, e ∈ concat (entries hm) ∧ key e = k ∧ value e = v.
Proof.
  intros (_ & _ & Hnd & _). unfold hm_map. rewrite <- elem_of_list_to_map by by rewrite kvs_keys.
  unfold kvs. rewrite list_elem_of_fmap. naive_solver.
Qed.

Lemma elem_of_concat {A} (l : list (list A)) x : x ∈ concat l ↔ ∃ i b, l !! i = Some b ∧ x ∈ b.
Proof.
  rewrite list_elem_of_In, in_concat. split.
  - intros (b & Hb & Hx). apply list_elem_of_In, list_elem_of_lookup in Hb as [i Hi].
    exists i, b. by rewrite list_elem_of_In.
  - intros (i & b & Hi & Hx). exists b. split; [|by apply list_elem_of_In].
    apply list_elem_of_In. by eapply list_elem_of_lookup_2.
Qed.

(** [get_entry] finds the entry of a key in its bucket, or the map has no
    such key. *)
Lemma get_entry_spec hm k :
  wf hm → ∃ b, bucket hm (bucket_off hm (get_hash k)) = Ok b ∧
    entries hm !! Z.to_nat (bucket_off hm (get_hash k)) = Some b ∧
    match list_find (entry_matches k (Z.of_nat (length k)) (get_hash k)) b with
    | Some (i, e) => b !! i = Some e ∧ entry_matches k (Z.of_nat (length k)) (get_hash k) e ∧
                     hm_map hm !! k = Some (value e)
    | None => hm_map hm !! k = None
    end.
Proof.
  intros Hwf. destruct (wf_bucket hm k Hwf) as (b & Hb & Hl). exists b. split_and!; [done..|].
  destruct (list_find _ b) as [[i e]|] eqn:Hf.
  - apply list_find_Some in Hf as (Hi & Hm & _). split_and!; [done..|].
    apply hm_map_Some; [done|]. exists e. destruct Hm as (_ & _ & Hk). split_and!; [|done..].
    apply elem_of_concat. eexists _, b. split; [done|]. by eapply list_elem_of_lookup_2.
  - apply list_find_None in Hf. apply eq_None_not_Some. intros [v Hv].
    apply hm_map_Some in Hv as (e & He & Hk & _); [|done].
    apply elem_of_concat in He as (i & b' & Hi & He).
    pose proof Hwf as (Hc & Hlen & _ & Hok & _). destruct (Hok i b' e Hi He) as (Hh & Hs & Ho).
    assert (b' = b) as ->.
    { rewrite Hh, Hk in Ho. rewrite <- Ho, Nat2Z.id in Hl. congruence. }
    rewrite Forall_forall in Hf. apply (Hf e He). unfold entry_matches. by rewrite Hs, Hh, Hk.
Qed.

(** What an operation does to the entries it changes, in one bucket. *)
Lemma with_bucket_concat hm off b c b' c' n :
  entries hm !! Z.to_nat off = Some b → b ≡ₚ c → b' ≡ₚ c' →
  ∃ rest, concat (entries hm) ≡ₚ c ++ rest ∧
    concat (entries (Hashmap (capacity hm) n (entries (with_bucket hm off b')))) ≡ₚ c' ++ rest.
Proof.
  intros Hb Hc Hc'. destruct (concat_insert_perm _ _ b b' Hb) as (rest & H1 & H2).
  exists rest. rewrite <- Hc, <- Hc'. done.
Qed.

(** A bucket may be replaced by one whose entries belong there, as long as no
    key repeats and the counter is right. *)
Lemma wf_with_bucket hm k b b' n :
  wf hm → entries hm !! Z.to_nat (bucket_off hm (get_hash k)) = Some b →
  (∀ e, e ∈ b' → e ∈ b ∨ key e = k ∧ hash e = get_hash k ∧ key_size e = Z.of_nat (length k)) →
  (∀ rest, concat (entries hm) ≡ₚ b ++ rest →
    NoDup (key <$> b' ++ rest) ∧ n = u64 (Z.of_nat (length (b' ++ rest)))) →
  wf (Hashmap (capacity hm) n (entries (with_bucket hm (bucket_off hm (get_hash k)) b'))).
Proof.
  intros Hwf Hb Hin Hnd. pose proof Hwf as (Hc & Hlen & _ & Hok & _).
  destruct (with_bucket_concat hm (bucket_off hm (get_hash k)) b b b' b' n Hb (reflexivity _) (reflexivity _)) as (rest & Hp & Hp').
  destruct (Hnd rest Hp) as [Hn Hcnt]. split_and!; simpl in *; [done| | | |].
  - by rewrite length_insert.
  - by rewrite Hp'.
  - intros i c e Hi He. destruct (decide (i = Z.to_nat (bucket_off hm (get_hash k)))) as [->|].
    + rewrite list_lookup_insert_eq in Hi by (by eapply lookup_lt_Some). simplify_eq.
      destruct (Hin e He) as [He'|(Hk & Hh & Hs)]; [by apply (Hok _ b)|].
      unfold entry_ok. rewrite Hk, Hh, Hs. split_and!; [done..|].
      pose proof (bucket_off_range hm (get_hash k) Hc (get_hash_nonneg k)).
      rewrite Z2Nat.id by lia. done.
    + rewrite list_lookup_insert_ne in Hi by done. by apply (Hok i c).
  - by rewrite Hcnt, Hp'.
Qed.

(** The map can be read off any permutation of the entries. *)
Definition map_of (l : list khashmap_entry) : gmap (list Z) V :=
  list_to_map ((λ e, (key e, value e)) <$> l).

Lemma hm_map_perm hm l : wf hm → concat (entries hm) ≡ₚ l → hm_map hm = map_of l.
Proof.
  intros (_ & _ & Hnd & _) Hl. apply list_to_map_proper; [by rewrite kvs_keys|].
  unfold kvs. by rewrite Hl.
Qed.

Lemma map_of_cons e l : map_of (e :: l) = <[key e := value e]> (map_of l).
Proof. done. Qed.

Lemma map_of_fresh e l : NoDup (key <$> e :: l) → map_of l !! key e = None.
Proof.
  intros [Hni _]%NoDup_cons. apply not_elem_of_list_to_map.
  by rewrite <- list_fmap_compose.
Qed.

Lemma NoDup_key_cons (e e' : khashmap_entry) l :
  key e = key e' → NoDup (key <$> e :: l) → NoDup (key <$> e' :: l).
Proof. simpl. by intros ->. Qed.

(** ** The operations against the finite map *)

Lemma khashmap_get_spec hm k :
  wf hm → khashmap_get hm k =
    Ok (match hm_map hm !! k with Some v => (E0, Some v) | None => (ENOENT, None) end).
Proof.
  intros Hwf. destruct (get_entry_spec hm k Hwf) as (b & Hb & _ & Hf).
  unfold khashmap_get, get_entry. rewrite Hb. mstep.
  destruct (list_find _ b) as [[i e]|]; [destruct Hf as (_ & _ & ->)|rewrite Hf]; done.
Qed.

Lemma khashmap_set_spec hm k v :
  wf hm →
  match hm_map hm !! k with
  | Some _ => ∃ hm', khashmap_set hm k v = Ok (E0, hm') ∧ wf hm' ∧
                     hm_map hm' = <[k := v]> (hm_map hm)
  | None => khashmap_set hm k v = Ok (ENOENT, hm)
  end.
Proof.
  intros Hwf. destruct (get_entry_spec hm k Hwf) as (b & Hb & Hl & Hf).
  unfold khashmap_set, get_entry. rewrite Hb. mstep.
  destruct (list_find _ b) as [[i e]|]; [destruct Hf as (Hi & (Hks & Hh & Hk) & ->)|by rewrite Hf].
  mstep. eexists; split; [done|].
  set (e' := Entry (hash e) (key_size e) (key e) v).
  destruct (insert_perm b i e e' Hi) as (r & Hp & Hp' & _).
  pose proof Hwf as (_ & _ & Hnd & _ & Hcnt).
  assert (Hw : wf (with_bucket hm (bucket_off hm (get_hash k)) (<[i:=e']> b))).
  { apply (wf_with_bucket hm k b _ (num_entries hm)); [done..| |].
    - intros x Hx. rewrite Hp' in Hx. apply elem_of_cons in Hx as [->|Hx]; [by right|].
      left. rewrite Hp. by apply elem_of_cons; right.
    - intros rest Hr. rewrite Hr, Hp in Hnd. rewrite Hp'. split.
      + by apply (NoDup_key_cons e).
      + rewrite Hcnt, Hr, Hp. done. }
  split; [done|].
  destruct (with_bucket_concat hm _ b _ _ _ (num_entries hm) Hl Hp Hp') as (rest & Hr & Hr').
  cbn [app] in Hr, Hr'.
  rewrite (hm_map_perm hm _ Hwf Hr), (hm_map_perm _ _ Hw Hr'), !map_of_cons. simpl.
  by rewrite Hk, insert_insert_eq.
Qed.

Lemma khashmap_put_spec ae ak hm k v :
  wf hm →
  if bool_decide (is_Some (hm_map hm !! k)) || (ae && ak)
  then ∃ hm', khashmap_put ae ak hm k v = Ok (E0, hm') ∧ wf hm' ∧
              hm_map hm' = <[k := v]> (hm_map hm)
  else khashmap_put ae ak hm k v = Ok (ENOMEM, hm).
Proof.
  intros Hwf. pose proof (khashmap_set_spec hm k v Hwf) as Hset. unfold khashmap_put.
  destruct (hm_map hm !! k) as [w|] eqn:Hk.
  { destruct Hset as (hm' & -> & ? & ?). rewrite bool_decide_true by done. simpl. by exists hm'. }
  rewrite Hset, bool_decide_false by (intros [? ?]; done). mstep. rewrite decide_False by done.
  destruct ae; [|done]. destruct ak; [|done]. cbn [negb andb orb].
  destruct (get_entry_spec hm k Hwf) as (b & Hb & Hl & _). rewrite Hb. mstep.
  eexists; split; [done|]. set (e := Entry (get_hash k) (Z.of_nat (length k)) k v).
  pose proof Hwf as (_ & _ & Hnd & _ & Hcnt).
  assert (Hfresh : k ∉ key <$> concat (entries hm)).
  { intros (x & Hx & Hin)%list_elem_of_fmap. apply (eq_None_not_Some (hm_map hm !! k)); [done|].
    exists (value x). apply hm_map_Some; [done|]. by exists x. }
  assert (Hw : wf (Hashmap (capacity hm) (u64 (num_entries hm + 1))
    (entries (with_bucket hm (bucket_off hm (get_hash k)) (e :: b))))).
  { apply (wf_with_bucket hm k b); [done..| |].
    - intros x [->|Hx]%elem_of_cons; [by right|by left].
    - intros rest Hr. rewrite Hr in Hnd, Hfresh. split.
      + simpl. by apply NoDup_cons.
      + rewrite Hcnt, Hr, wrap_add_l. f_equal. simpl length. lia. }
  split; [done|].
  destruct (with_bucket_concat hm _ b b (e :: b) _ (u64 (num_entries hm + 1)) Hl (reflexivity _) (reflexivity _)) as (rest & Hr & Hr').
  cbn [app] in Hr, Hr'.
  rewrite (hm_map_perm hm _ Hwf Hr). exact (hm_map_perm _ _ Hw Hr').
Qed.

Lemma khashmap_remove_spec hm k :
  wf hm →
  match hm_map hm !! k with
  | Some _ => ∃ hm', khashmap_remove hm k = Ok (E0, hm') ∧ wf hm' ∧
                     hm_map hm' = delete k (hm_map hm)
  | None => khashmap_remove hm k = Ok (ENOENT, hm)
  end.
Proof.
  intros Hwf. destruct (get_entry_spec hm k Hwf) as (b & Hb & Hl & Hf).
  unfold khashmap_remove, get_entry. rewrite Hb. mstep.
  destruct (list_find _ b) as [[i e]|]; [destruct Hf as (Hi & (Hks & Hh & Hk) & ->)|by rewrite Hf].
  eexists; split; [done|]. destruct (insert_perm b i e e Hi) as (r & Hp & _ & Hd).
  pose proof Hwf as (_ & _ & Hnd & _ & Hcnt).
  assert (Hw : wf (Hashmap (capacity hm) (u64 (num_entries hm - 1))
    (entries (with_bucket hm (bucket_off hm (get_hash k)) (delete i b))))).
  { apply (wf_with_bucket hm k b); [done..| |].
    - intros x Hx. rewrite Hd in Hx. left. rewrite Hp. by apply elem_of_cons; right.
    - intros rest Hr. rewrite Hr, Hp in Hnd. rewrite Hd. split.
      + by apply NoDup_cons in Hnd as [_ ?].
      + rewrite Hcnt, Hr, Hp, wrap_sub_l. f_equal. simpl length. lia. }
  split; [done|].
  destruct (with_bucket_concat hm _ b _ _ _ (u64 (num_entries hm - 1)) Hl Hp Hd) as (rest & Hr & Hr').
  cbn [app] in Hr, Hr'.
  rewrite Hr in Hnd.
  rewrite (hm_map_perm hm _ Hwf Hr), map_of_cons, Hk.
  etransitivity; [exact (hm_map_perm _ _ Hw Hr')|]. symmetry.
  rewrite delete_insert_id; [done|]. rewrite <- Hk. by apply map_of_fresh.
Qed.

Lemma khashmap_default_spec ae ak hm k d :
  wf hm →
  match hm_map hm !! k with
  | Some v => khashmap_default ae ak hm k d = Ok (E0, Some v, hm)
  | None =>
      if ae && ak
      then ∃ hm', khashmap_default ae ak hm k d = Ok (E0, Some d, hm') ∧ wf hm' ∧
                  hm_map hm' = <[k := d]> (hm_map hm)
      else khashmap_default ae ak hm k d = Ok (ENOMEM, None, hm)
  end.
Proof.
  intros Hwf. unfold khashmap_default. rewrite khashmap_get_spec by done. mstep.
  pose proof (khashmap_put_spec ae ak hm k d Hwf) as Hp.
  destruct (hm_map hm !! k) as [v|] eqn:Hk; [done|].
  rewrite bool_decide_false in Hp by (intros [? ?]; done). cbn [orb] in Hp.
  mstep. rewrite decide_False, decide_False by (done || tauto).
  destruct (ae && ak); [|by rewrite Hp].
  destruct Hp as (hm' & -> & Hwf' & Hm). mstep. rewrite decide_False by tauto.
  rewrite khashmap_get_spec, Hm, lookup_insert_eq by done. by exists hm'.
Qed.

(** ** The contract: a hash map is a finite map *)

Inductive hm_op : Type :=
  | OpSet (k : list Z) (v : V)
  | OpPut (alloc_entry alloc_key : bool) (k : list Z) (v : V)
  | OpGet (k : list Z)
  | OpRemove (k : list Z)
  | OpDefault (alloc_entry alloc_key : bool) (k : list Z) (d : V).

Definition hm_exec (hm : khashmap) (op : hm_op) : res (errno * option V * khashmap) :=
  match op with
  | OpSet k v => '(r, hm) ← khashmap_set hm k v; Ok (r, None, hm)
  | OpPut ae ak k v => '(r, hm) ← khashmap_put ae ak hm k v; Ok (r, None, hm)
  | OpGet k => '(r, out) ← khashmap_get hm k; Ok (r, out, hm)
  | OpRemove k => '(r, hm) ← khashmap_remove hm k; Ok (r, None, hm)
  | OpDefault ae ak k d => khashmap_default ae ak hm k d
  end.

(** The specification: the same operations on a finite map. *)
Definition map_exec (m : gmap (list Z) V) (op : hm_op) : errno * option V * gmap (list Z) V :=
  match op with
  | OpSet k v => match m !! k with Some _ => (E0, None, <[k := v]> m) | None => (ENOENT, None, m) end
  | OpPut ae ak k v =>
      if bool_decide (is_Some (m !! k)) || (ae && ak)
      then (E0, None, <[k := v]> m) else (ENOMEM, None, m)
  | OpGet k => match m !! k with Some v => (E0, Some v, m) | None => (ENOENT, None, m) end
  | OpRemove k => match m !! k with Some _ => (E0, None, delete k m) | None => (ENOENT, None, m) end
  | OpDefault ae ak k d =>
      match m !! k with
      | Some v => (E0, Some v, m)
      | None => if ae && ak then (E0, Some d, <[k := d]> m) else (ENOMEM, None, m)
      end
  end.

Fixpoint hm_run (hm : khashmap) (ops : list hm_op) : res (list (errno * option V) * khashmap) :=
  match ops with
  | [] => Ok ([], hm)
  | op :: ops =>
      '(r, hm) ← hm_exec hm op;
      '(rs, hm) ← hm_run hm ops;
      Ok (r :: rs, hm)
  end.

Fixpoint map_run (m : gmap (list Z) V) (ops : list hm_op)
    : list (errno * option V) * gmap (list Z) V :=
  match ops with
  | [] => ([], m)
  | op :: ops => let '(r, m) := map_exec m op in let '(rs, m) := map_run m ops in (r :: rs, m)
  end.

Lemma hm_exec_sim hm op :
  wf hm → ∃ r hm', hm_exec hm op = Ok (r, hm') ∧ wf hm' ∧
    map_exec (hm_map hm) op = (r, hm_map hm').
Proof.
  intros Hwf. destruct op as [k v|ae ak k v|k|k|ae ak k d]; cbn [hm_exec map_exec].
  - pose proof (khashmap_set_spec hm k v Hwf) as H. destruct (hm_map hm !! k).
    + destruct H as (hm' & -> & ? & <-). by eexists _, hm'.
    + rewrite H. by eexists _, hm.
  - pose proof (khashmap_put_spec ae ak hm k v Hwf) as H.
    destruct (bool_decide (is_Some (hm_map hm !! k)) || (ae && ak)).
    + destruct H as (hm' & -> & ? & <-). by eexists _, hm'.
    + rewrite H. by eexists _, hm.
  - rewrite khashmap_get_spec by done. destruct (hm_map hm !! k); by eexists _, hm.
  - pose proof (khashmap_remove_spec hm k Hwf) as H. destruct (hm_map hm !! k).
    + destruct H as (hm' & -> & ? & <-). by eexists _, hm'.
    + rewrite H. by eexists _, hm.
  - pose proof (khashmap_default_spec ae ak hm k d Hwf) as H. destruct (hm_map hm !! k).
    + rewrite H. by eexists _, hm.
    + destruct (ae && ak); [destruct H as (hm' & -> & ? & <-); by eexists _, hm'|].
      rewrite H. by eexists _, hm.
Qed.

Lemma hm_run_sim ops hm :
  wf hm → ∃ rs hm', hm_run hm ops = Ok (rs, hm') ∧ wf hm' ∧
    map_run (hm_map hm) ops = (rs, hm_map hm').
Proof.
  revert hm. induction ops as [|op ops IH]; intros hm Hwf; cbn [hm_run map_run].
  { by exists [], hm. }
  destruct (hm_exec_sim hm op Hwf) as (r & hm1 & -> & Hwf1 & ->). mstep.
  destruct (IH hm1 Hwf1) as (rs & hm2 & -> & Hwf2 & ->). mstep. by exists (r :: rs), hm2.
Qed.

Lemma concat_replicate_nil {A} n : concat (replicate n ([] : list A)) = [].
Proof. by induction n. Qed.

Lemma wf_init hm size : 0 < size → num_entries hm = 0 → 
  let hm' := Hashmap size (num_entries hm) (replicate (Z.to_nat size) []) in
  wf hm' ∧ hm_map hm' = ∅.
Proof.
  intros Hs Hn. simpl. unfold hm_map, kvs. simpl. rewrite concat_replicate_nil.
  split; [|done]. split_and!; simpl; rewrite ?concat_replicate_nil; try done.
  - rewrite length_replicate. lia.
  - apply NoDup_nil_2.
  - intros i b e [-> _]%lookup_replicate_1 He. by apply elem_of_nil in He.
Qed.

Lemma wf_size hm : wf hm → num_entries hm = u64 (Z.of_nat (size (hm_map hm))).
Proof.
  intros (_ & _ & Hnd & _ & ->). do 2 f_equal. unfold hm_map.
  rewrite <- (length_map_to_list (list_to_map (kvs hm))), map_to_list_to_map by by rewrite kvs_keys.
  unfold kvs. by rewrite length_fmap.
Qed.

(** C6: a hash map initialised over zeroed memory behaves, over any sequence
    of set, put, get, remove and default operations, as the finite map from
    keys to values, results and error codes included; failed allocations
    change nothing, and [num_entries] is the number of keys (modulo 2^64). *)
Theorem khashmap_refines_map hm0 sz phys hm ops :
  0 < sz → num_entries hm0 = 0 → khashmap_init hm0 sz phys = (E0, hm) →
  ∃ rs hm', hm_run hm ops = Ok (rs, hm') ∧ map_run ∅ ops = (rs, hm_map hm') ∧
    num_entries hm' = u64 (Z.of_nat (size (hm_map hm'))).
Proof.
  intros Hs Hn Hi. unfold khashmap_init in Hi.
  destruct (ARCH_PHYS_TO_HHDM phys =? 0); [done|]. injection Hi as <-.
  destruct (wf_init hm0 sz Hs Hn) as [Hwf Hm].
  destruct (hm_run_sim ops _ Hwf) as (rs & hm' & Hr & Hwf' & Hr'). simpl in *.
  rewrite Hm in Hr'. exists rs, hm'. split_and!; [done..|]. by apply wf_size.
Qed.

(** with the default size, which is not a power of two, masking with
    [capacity - 1] never selects a bucket whose index has bit 3 set: half of
    the buckets are never used. *)
Theorem default_capacity_half_unused hm h :
  capacity hm = KHASHMAP_DEFAULT_SIZE → Z.testbit (bucket_off hm h) 3 = false.
Proof. intros Hc. unfold bucket_off. rewrite Hc, Z.land_spec. by rewrite andb_false_r. Qed.

End hashmap.
Arguments khashmap : clear implicits.
Arguments khashmap_entry : clear implicits.
Arguments hm_op : clear implicits.

Lemma khashmap_refines_map_witness :
  ∃ rs (hm' : khashmap Z),
    hm_run (Hashmap 8 0 (replicate 8 []))
      [OpPut true true [1; 2] 7; OpGet [1; 2]; OpRemove [3]] = Ok (rs, hm') ∧
    map_run ∅ [OpPut true true [1; 2] 7; OpGet [1; 2]; OpRemove [3]] = (rs, hm_map hm') ∧
    num_entries hm' = u64 (Z.of_nat (size (hm_map hm'))).
Proof. apply (khashmap_refines_map (Hashmap 0 0 []) 8 4096); [lia|done|reflexivity]. Defined.

Lemma default_capacity_half_unused_witness :
  Z.testbit (bucket_off (Hashmap KHASHMAP_DEFAULT_SIZE 0 [] : khashmap Z) 255) 3 = false.
Proof. apply (default_capacity_half_unused (V := Z)). reflexivity. Defined.
