(* ===== verification/PageTree.v ===== *)
(** * Trees of pages

    The radix tree (src/com/lib/radixtree.c) and the page tables
    (src/platform/x86-64/mmu.c) are the same structure: pages of 512 words in
    memory, a word of an inner page naming the page below it. This file holds
    what they share: the memory of such pages, the interface the page
    allocator offers them, and the lemmas about walking such a tree and
    growing it on demand. *)
From S2P Require Import Prelude.

(** ** Pages in memory *)

(** A page maps word indices to words; a word never written is 0, since
    allocated pages are zeroed. Pages are named by the virtual address the
    kernel reaches them at. *)
Abbreviation page := (gmap Z Z).
Abbreviation pheap := (gmap Z (gmap Z Z)).

Definition rd_slot (pg : page) (i : Z) : Z := default 0 (pg !! i).

(** [ptr[i]] and [ptr[i] = w] for a pointer to a page. *)
Definition rd (h : pheap) (p i : Z) : res Z := pg ← deref (h !! p); Ok (rd_slot pg i).
Definition wr (h : pheap) (p i w : Z) : res pheap :=
  pg ← deref (h !! p); Ok (<[p := <[i := w]> pg]> h).

(** A physical address a page can have: page aligned, not page 0, and low
    enough for the higher-half map. *)
Definition valid_phys (p : Z) : Prop := 0 < p < 2 ^ 46 ∧ p mod ARCH_PAGE_SIZE = 0.

(** ** What a page allocator promises

    [pa_alloc] is a call such as [com_mm_pmm_alloc_zero()]. [pa_taken] are the
    pages handed out so far, [pa_free] how many more can be. *)
Class PageAlloc (A : Type) := {
  pa_alloc : A → res (Z * A);
  pa_inv : A → Prop;
  pa_taken : A → Z → Prop;
  pa_free : A → nat;
  pa_alloc_ok a p a' :
    pa_inv a → pa_alloc a = Ok (p, a') →
    pa_inv a' ∧ valid_phys p ∧ ¬ pa_taken a p ∧
    (∀ q, pa_taken a' q ↔ q = p ∨ pa_taken a q);
  pa_alloc_total a :
    pa_inv a → (0 < pa_free a)%nat →
    ∃ p a', pa_alloc a = Ok (p, a') ∧ pa_free a = S (pa_free a')
}.

(** Every page in use was handed out by the allocator. *)
Definition heap_owned `{PageAlloc A} (h : pheap) (a : A) : Prop :=
  ∀ p, valid_phys p → is_Some (h !! ARCH_PHYS_TO_HHDM p) → pa_taken a p.

Lemma valid_phys_hhdm p : valid_phys p → ARCH_PHYS_TO_HHDM p = HHDM_BASE + p.
Proof. intros [? _]. apply wrap_small. unfold HHDM_BASE. lia. Qed.

Lemma hhdm_inj p q : valid_phys p → valid_phys q →
  ARCH_PHYS_TO_HHDM p = ARCH_PHYS_TO_HHDM q → p = q.
Proof. intros Hp Hq. rewrite !valid_phys_hhdm by done. lia. Qed.

Lemma hhdm_nonzero p : valid_phys p → ARCH_PHYS_TO_HHDM p ≠ 0.
Proof. intros Hp. rewrite valid_phys_hhdm by done. destruct Hp. unfold HHDM_BASE. lia. Qed.

Section tree.
(** [next w] is the page a word points to (0 when it points to none), [mk p]
    the word stored for a fresh page at physical address [p]. *)
Context (next mk : Z → Z).
Context (next_0 : next 0 = 0).
Context (next_mk : ∀ p, valid_phys p → next (mk p) = ARCH_PHYS_TO_HHDM p).
Context `{PageAlloc A}.

(** Following the indices of a path from a page. *)
Fixpoint walk (h : pheap) (p : Z) (path : list Z) : res (option Z) :=
  match path with
  | [] => Ok (Some p)
  | i :: path =>
      w ← rd h p i;
      if next w =? 0 then Ok None else walk h (next w) path
  end.

(** The same, adding the pages that are missing. *)
Fixpoint ensure (h : pheap) (a : A) (p : Z) (path : list Z) : res (pheap * A * Z) :=
  match path with
  | [] => Ok (h, a, p)
  | i :: path =>
      w ← rd h p i;
      if next w =? 0 then
        '(q, a) ← pa_alloc a;
        h ← wr h p i (mk q);
        ensure (<[ARCH_PHYS_TO_HHDM q := ∅]> h) a (ARCH_PHYS_TO_HHDM q) path
      else ensure h a (next w) path
  end.

(** The word a path and a last index lead to; 0 if a page is missing. *)
Definition word_at (h : pheap) (root : Z) (path : list Z) (i : Z) : Z :=
  match walk h root path with
  | Ok (Some p) => match rd h p i with Ok w => w | _ => 0 end
  | _ => 0
  end.

(** The pages up to depth [n] exist, and no page is reached twice. *)
Definition ptree (h : pheap) (root : Z) (n : nat) : Prop :=
  (∀ π p, (length π ≤ n)%nat → walk h root π = Ok (Some p) → is_Some (h !! p)) ∧
  (∀ π π' p, (length π ≤ n)%nat → (length π' ≤ n)%nat →
    walk h root π = Ok (Some p) → walk h root π' = Ok (Some p) → π = π').

(** ** Lemmas *)

Lemma rd_ok h p i : is_Some (h !! p) → ∃ w, rd h p i = Ok w.
Proof. intros [pg Hp]. unfold rd. rewrite Hp. by eexists. Qed.

Lemma rd_insert_eq h p pg i : rd (<[p := pg]> h) p i = Ok (rd_slot pg i).
Proof. unfold rd. by rewrite lookup_insert_eq. Qed.

Lemma rd_insert_ne h p q pg i : q ≠ p → rd (<[p := pg]> h) q i = rd h q i.
Proof. intros. unfold rd. by rewrite lookup_insert_ne. Qed.

Lemma rd_slot_insert pg i j w : rd_slot (<[i := w]> pg) j = if decide (i = j) then w else rd_slot pg j.
Proof. unfold rd_slot. rewrite lookup_insert. by case_decide. Qed.

Lemma rd_slot_empty i : rd_slot ∅ i = 0.
Proof. unfold rd_slot. by rewrite lookup_empty. Qed.

Lemma wr_inv h p i w h' : wr h p i w = Ok h' → ∃ pg, h !! p = Some pg ∧ h' = <[p := <[i := w]> pg]> h.
Proof. unfold wr. intros Hw. inv_res. by exists x. Qed.

Lemma wr_lookup h p i w pg : h !! p = Some pg → wr h p i w = Ok (<[p := <[i := w]> pg]> h).
Proof. intros Hp. unfold wr. by rewrite Hp. Qed.

Lemma rd_lookup h p i pg : h !! p = Some pg → rd h p i = Ok (rd_slot pg i).
Proof. intros Hp. unfold rd. by rewrite Hp. Qed.

Lemma wr_ok h p i w : is_Some (h !! p) → ∃ h', wr h p i w = Ok h'.
Proof. intros [pg Hp]. unfold wr. rewrite Hp. by eexists. Qed.

Lemma rd_wr h p i w h' q j :
  wr h p i w = Ok h' → rd h' q j = if decide (q = p ∧ j = i) then Ok w else rd h q j.
Proof.
  intros (pg & Hp & ->)%wr_inv. destruct (decide (q = p)) as [->|].
  - rewrite rd_insert_eq, rd_slot_insert. unfold rd. rewrite Hp. simpl.
    repeat case_decide; naive_solver.
  - rewrite rd_insert_ne, decide_False by naive_solver. done.
Qed.

Lemma wr_dom h p i w h' q : wr h p i w = Ok h' → is_Some (h' !! q) ↔ is_Some (h !! q).
Proof.
  intros (pg & Hp & ->)%wr_inv. destruct (decide (q = p)) as [->|].
  - rewrite lookup_insert_eq, Hp. split; eauto.
  - by rewrite lookup_insert_ne.
Qed.

Lemma walk_app h p π π' :
  walk h p (π ++ π') =
    q ← walk h p π; match q with Some q => walk h q π' | None => Ok None end.
Proof.
  revert p. induction π as [|i π IH]; intros p; simpl; [done|].
  destruct (rd h p i); simpl; try done. destruct (next a =? 0); simpl; [done|apply IH].
Qed.

(** In a tree a walk never leaves allocated memory. *)
Lemma walk_total h root n π :
  ptree h root n → (length π ≤ n)%nat → ∃ o, walk h root π = Ok o.
Proof.
  intros [Hdom _]. induction π as [|i π IH] using rev_ind; intros Hle; [by eexists|].
  rewrite length_app in Hle. simpl in Hle. destruct IH as [o Ho]; [lia|].
  rewrite walk_app, Ho. simpl. destruct o as [p|]; [|by eexists]. simpl.
  destruct (rd_ok h p i) as [w ->]; [apply (Hdom π); [lia|done]|]. simpl.
  destruct (next w =? 0); by eexists.
Qed.

(** Reads that agree along a path give the same walk. *)
Lemma walk_ext h h' p π :
  (∀ σ j ρ q, π = σ ++ j :: ρ → walk h p σ = Ok (Some q) → rd h' q j = rd h q j) →
  walk h' p π = walk h p π.
Proof.
  revert p. induction π as [|i π IH]; intros p Hrd; simpl; [done|].
  rewrite (Hrd [] i π p) by done. destruct (rd h p i) as [w| | |] eqn:Hw; simpl; try done.
  destruct (next w =? 0) eqn:Hn; [done|]. apply IH. intros σ j ρ q -> Hσ.
  apply (Hrd (i :: σ) j ρ q); [done|]. simpl. rewrite Hw. simpl. by rewrite Hn.
Qed.

Lemma walk_app_Some h p π π' q :
  walk h p (π ++ π') = Ok (Some q) →
  ∃ r, walk h p π = Ok (Some r) ∧ walk h r π' = Ok (Some q).
Proof.
  rewrite walk_app. destruct (walk h p π) as [[r|]| | |]; simpl; try done. intros. by exists r.
Qed.

(** Writing a word of a page at the bottom of the tree changes no walk. *)
Lemma walk_wr_leaf h root n π p i w h' π' :
  ptree h root n → length π = n → walk h root π = Ok (Some p) →
  wr h p i w = Ok h' → (length π' ≤ n)%nat → walk h' root π' = walk h root π'.
Proof.
  intros [Hdom Hinj] Hlen Hwalk Hwr Hle. apply walk_ext. intros σ j ρ q -> Hσ.
  rewrite length_app in Hle. simpl in Hle. rewrite (rd_wr h p i w h' q j Hwr).
  rewrite decide_False; [done|]. intros [-> _].
  assert (σ = π) as -> by (apply (Hinj σ π p); [lia..|done|done]). lia.
Qed.

Lemma ptree_wr_leaf h root n π p i w h' :
  ptree h root n → length π = n → walk h root π = Ok (Some p) →
  wr h p i w = Ok h' → ptree h' root n.
Proof.
  intros Ht Hlen Hwalk Hwr. pose proof Ht as [Hdom Hinj]. split.
  - intros π' q Hle Hq. rewrite (walk_wr_leaf h root n π p i w) in Hq by done.
    eapply wr_dom; [done|]. by eapply Hdom.
  - intros π1 π2 q H1 H2 Hq1 Hq2.
    rewrite (walk_wr_leaf h root n π p i w) in Hq1 by done.
    rewrite (walk_wr_leaf h root n π p i w) in Hq2 by done. by eapply Hinj.
Qed.

(** It changes exactly the word it writes. *)
Lemma word_at_wr_leaf h root n π p i w h' π' j :
  ptree h root n → length π = n → walk h root π = Ok (Some p) →
  wr h p i w = Ok h' → length π' = n →
  word_at h' root π' j = if decide (π' = π ∧ j = i) then w else word_at h root π' j.
Proof.
  intros Ht Hlen Hwalk Hwr Hle. pose proof Ht as [Hdom Hinj]. unfold word_at.
  rewrite (walk_wr_leaf h root n π p i w) by (done || lia).
  destruct (walk h root π') as [[q|]| | |] eqn:Hq.
  - rewrite (rd_wr h p i w h' q j Hwr).
    destruct (decide (q = p ∧ j = i)) as [[-> ->]|Hne].
    + rewrite decide_True; [done|]. split; [|done]. apply (Hinj _ _ p); done || lia.
    + rewrite decide_False; [done|]. intros [-> ->]. apply Hne. split; [congruence|done].
  - rewrite decide_False; [done|]. intros [-> _]. congruence.
  - rewrite decide_False; [done|]. intros [-> _]. congruence.
  - rewrite decide_False; [done|]. intros [-> _]. congruence.
  - rewrite decide_False; [done|]. intros [-> _]. congruence.
Qed.

(** A single empty page is a tree of any depth. *)
Lemma ptree_single h root n : h !! root = Some ∅ → ptree h root n.
Proof.
  intros Hr. assert (Hw : ∀ π p, walk h root π = Ok (Some p) → π = [] ∧ p = root).
  { intros [|i π] p; simpl; [by intros [= <-]|]. unfold rd. rewrite Hr. mstep.
    rewrite rd_slot_empty, next_0. done. }
  split.
  - intros π p _ [-> ->]%Hw. by exists ∅.
  - intros π π' p _ _ [-> _]%Hw [-> _]%Hw. done.
Qed.

Section grow.
Context (h : pheap) (root : Z) (n : nat) (π : list Z) (p i w0 q : Z) (h1 : pheap).
Context (Ht : ptree h root n) (Hlen : (length π < n)%nat).
Context (Hwalk : walk h root π = Ok (Some p)).
Context (Hrd : rd h p i = Ok w0) (Hnext : next w0 = 0).
Context (Hq : valid_phys q) (Hfresh : h !! ARCH_PHYS_TO_HHDM q = None).
Context (Hwr : wr h p i (mk q) = Ok h1).
Let h2 : pheap := <[ARCH_PHYS_TO_HHDM q := ∅]> h1.

Lemma grow_rd r j : is_Some (h !! r) → rd h2 r j = if decide (r = p ∧ j = i) then Ok (mk q) else rd h r j.
Proof using All.
  intros Hr. unfold h2. rewrite rd_insert_ne by (intros ->; rewrite Hfresh in Hr; by destruct Hr).
  by apply rd_wr.
Qed.

(** Walks that do not use the new word are as before. *)
Lemma grow_walk_old π' :
  (length π' ≤ n)%nat → ¬ (π ++ [i]) `prefix_of` π' → walk h2 root π' = walk h root π'.
Proof using All.
  intros Hle Hpre. destruct Ht as [Hdom Hinj]. apply walk_ext. intros σ j ρ r -> Hσ.
  rewrite length_app in Hle. simpl in Hle.
  rewrite grow_rd by (apply (Hdom σ); [lia|done]). rewrite decide_False; [done|].
  intros [-> ->]. assert (σ = π) as -> by (apply (Hinj σ π p); [lia..|done|done]).
  apply Hpre. exists ρ. by rewrite <- app_assoc.
Qed.

(** The new word leads to the new, empty page. *)
Lemma grow_walk_new ρ :
  walk h2 root (π ++ i :: ρ) =
    match ρ with [] => Ok (Some (ARCH_PHYS_TO_HHDM q)) | _ => Ok None end.
Proof using All.
  rewrite walk_app, grow_walk_old, Hwalk; [|lia|].
  2: { intros Hpre%prefix_length. rewrite length_app in Hpre. simpl in Hpre. lia. }
  simpl. rewrite grow_rd by (destruct Ht as [Hdom _]; apply (Hdom π); [lia|done]).
  rewrite decide_True by done. simpl. rewrite next_mk by done.
  destruct (Z.eqb_spec (ARCH_PHYS_TO_HHDM q) 0); [by apply hhdm_nonzero in e|].
  destruct ρ as [|j ρ]; [done|]. cbn [walk]. unfold h2. rewrite rd_insert_eq. mstep.
  by rewrite rd_slot_empty, next_0.
Qed.

Lemma grow_old_none ρ : walk h root (π ++ i :: ρ) = Ok None.
Proof using Hwalk Hrd Hnext. rewrite walk_app, Hwalk. simpl. rewrite Hrd. simpl. by rewrite Hnext. Qed.

Lemma prefix_snoc_cases π' : {ρ | π' = π ++ i :: ρ} + {¬ (π ++ [i]) `prefix_of` π'}.
Proof using All.
  destruct (decide ((π ++ [i]) `prefix_of` π')) as [Hp|]; [left|by right].
  exists (drop (S (length π)) π'). destruct Hp as [ρ ->]. rewrite <- app_assoc. simpl. f_equal. f_equal.
  replace (π ++ i :: ρ) with ((π ++ [i]) ++ ρ) by by rewrite <- app_assoc.
  rewrite drop_app_length'; [done|]. rewrite length_app. simpl. lia.
Qed.

Lemma grow_ptree : ptree h2 root n.
Proof using All.
  pose proof Ht as [Hdom Hinj]. split.
  - intros π' r Hle Hr. destruct (prefix_snoc_cases π') as [[ρ ->]|Hn].
    + rewrite grow_walk_new in Hr. destruct ρ; simplify_eq. unfold h2. rewrite lookup_insert_eq. eauto.
    + rewrite grow_walk_old in Hr by done. unfold h2. apply lookup_insert_is_Some'. right.
      eapply wr_dom; [done|]. by eapply Hdom.
  - assert (Hnew : ∀ π' r, (length π' ≤ n)%nat → walk h2 root π' = Ok (Some r) →
      π' = π ++ [i] ∧ r = ARCH_PHYS_TO_HHDM q ∨ walk h root π' = Ok (Some r) ∧ is_Some (h !! r)).
    { intros π' r Hle Hr. destruct (prefix_snoc_cases π') as [[ρ ->]|Hn].
      - rewrite grow_walk_new in Hr. destruct ρ; simplify_eq. by left.
      - right. rewrite grow_walk_old in Hr by done. split; [done|]. by eapply Hdom. }
    intros π1 π2 r H1 H2 Hr1 Hr2.
    destruct (Hnew π1 r H1 Hr1) as [[-> ->]|[Ho1 [? Hs1]]],
      (Hnew π2 _ H2 Hr2) as [[-> Heq]|[Ho2 [? Hs2]]]; subst; try congruence.
    by apply (Hinj _ _ r).
Qed.

(** No word at the bottom of the tree changes. *)
Lemma grow_word_at π' j : length π' = n → word_at h2 root π' j = word_at h root π' j.
Proof using All.
  intros Hle. pose proof Ht as [Hdom _]. unfold word_at.
  destruct (prefix_snoc_cases π') as [[ρ ->]|Hn].
  - rewrite grow_walk_new, grow_old_none. destruct ρ; [|done].
    unfold h2. rewrite rd_insert_eq. done.
  - rewrite grow_walk_old by (done || lia). destruct (walk h root π') as [[r|]| | |] eqn:Hr; try done.
    rewrite grow_rd by (apply (Hdom π'); [lia|done]). rewrite decide_False; [done|].
    intros [-> ->]. destruct Ht as [_ Hinj].
    assert (π' = π) as -> by (apply (Hinj _ _ p); [lia..|done|done]). lia.
Qed.
End grow.

Lemma grow_owned h a q a' h1 p i w :
  pa_inv a → heap_owned h a → pa_alloc a = Ok (q, a') → wr h p i w = Ok h1 →
  heap_owned (<[ARCH_PHYS_TO_HHDM q := ∅]> h1) a' ∧ h !! ARCH_PHYS_TO_HHDM q = None.
Proof.
  intros Hinv Hown Hal Hwr. destruct (pa_alloc_ok a q a' Hinv Hal) as (_ & Hq & Hnt & Htk). split.
  - intros r Hr Hs. apply Htk. destruct (decide (r = q)) as [|Hne]; [by left|right].
    apply Hown; [done|]. apply (wr_dom h p i w h1 _ Hwr).
    rewrite lookup_insert_ne in Hs; [done|]. intros Heq. apply Hne. symmetry. by apply hhdm_inj.
  - apply eq_None_not_Some. intros Hs. by apply Hnt, Hown.
Qed.

(** Growing a tree along a path succeeds while the allocator has pages; it
    keeps the tree a tree, reaches the page at the end of the path and changes
    no word at the bottom. *)
Lemma ensure_spec h a root n σ p π :
  ptree h root n → walk h root σ = Ok (Some p) → (length σ + length π ≤ n)%nat →
  pa_inv a → heap_owned h a → (length π ≤ pa_free a)%nat →
  ∃ h' a' q, ensure h a p π = Ok (h', a', q) ∧ ptree h' root n ∧
    walk h' root (σ ++ π) = Ok (Some q) ∧ pa_inv a' ∧ heap_owned h' a' ∧
    (pa_free a ≤ pa_free a' + length π)%nat ∧
    (∀ π' j, length π' = n → word_at h' root π' j = word_at h root π' j).
Proof.
  revert h a σ p. induction π as [|i π IH]; intros h a σ p Ht Hwalk Hlen Hinv Hown Hfree.
  { exists h, a, p. rewrite app_nil_r. split_and!; first [done|simpl; lia]. }
  simpl in *. pose proof Ht as [Hdom _].
  destruct (rd_ok h p i) as [w Hw]; [apply (Hdom σ); [lia|done]|]. rewrite Hw. mstep.
  destruct (Z.eqb_spec (next w) 0) as [Hn|Hn].
  - destruct (pa_alloc_total a Hinv) as (q & a1 & Hal & Hf); [lia|]. rewrite Hal. mstep.
    destruct (wr_ok h p i (mk q)) as [h1 Hwr]; [apply (Hdom σ); [lia|done]|]. rewrite Hwr. mstep.
    destruct (pa_alloc_ok a q a1 Hinv Hal) as (Hinv1 & Hq & _ & _).
    destruct (grow_owned h a q a1 h1 p i (mk q)) as [Hown1 Hfresh]; [done..|].
    pose proof (grow_ptree h root n σ p i w q h1 Ht ltac:(lia) Hwalk Hw Hn Hq Hfresh Hwr) as Ht1.
    pose proof (grow_walk_new h root n σ p i w q h1 Ht ltac:(lia) Hwalk Hw Hn Hq Hfresh Hwr []) as Hw1.
    destruct (IH _ a1 (σ ++ [i]) (ARCH_PHYS_TO_HHDM q) Ht1 Hw1)
      as (h' & a' & r & He & Ht' & Hwk & Hi' & Ho' & Hf' & Hwd);
      [rewrite length_app; simpl; lia|done|done|lia|].
    exists h', a', r. rewrite <- app_assoc in Hwk. split_and!; try done; [lia|].
    intros π' j Hle. rewrite Hwd by done. by apply (grow_word_at h root n σ p i w q h1 Ht ltac:(lia) Hwalk Hw Hn Hq Hfresh Hwr).
  - assert (Hw1 : walk h root (σ ++ [i]) = Ok (Some (next w))).
    { rewrite walk_app, Hwalk. simpl. rewrite Hw. simpl. by destruct (Z.eqb_spec (next w) 0). }
    destruct (IH h a (σ ++ [i]) (next w) Ht Hw1)
      as (h' & a' & r & He & Ht' & Hwk & Hi' & Ho' & Hf' & Hwd);
      [rewrite length_app; simpl; lia|done|done|lia|].
    exists h', a', r. rewrite <- app_assoc in Hwk. split_and!; try done. lia.
Qed.

(** Growing a tree gives no page back. *)
Lemma ensure_taken h a p π h' a' q :
  pa_inv a → ensure h a p π = Ok (h', a', q) → ∀ r, pa_taken a r → pa_taken a' r.
Proof.
  revert h a p. induction π as [|i π IH]; intros h a p Hinv He r Hr; simpl in He; [by simplify_eq|]. inv_res.
  destruct (next x =? 0); inv_res.
  - destruct x0 as [q1 a1]. inv_res. destruct (pa_alloc_ok a q1 a1) as (Hi1 & _ & _ & Htk); [done|done|].
    eapply IH; [exact Hi1|done|]. apply Htk. by right.
  - by eapply IH.
Qed.
(** The pages of a tree down to depth [n]. *)
Definition tree_page (h : pheap) (root : Z) (n : nat) (r : Z) : Prop :=
  ∃ π, (length π ≤ n)%nat ∧ walk h root π = Ok (Some r).

Lemma tree_page_wr_leaf h root n π p i w h' r :
  ptree h root n → length π = n → walk h root π = Ok (Some p) → wr h p i w = Ok h' →
  tree_page h' root n r ↔ tree_page h root n r.
Proof.
  intros Ht Hl Hw Hwr. split; intros (σ & Hσ & Hr); exists σ; split; try done.
  - by rewrite (walk_wr_leaf h root n π p i w h' σ) in Hr.
  - by rewrite (walk_wr_leaf h root n π p i w h' σ).
Qed.

(** Growing a tree touches its own pages and fresh ones only, so what was in
    memory and outside the tree stays both. *)
Lemma ensure_frame h a root n σ p π h' a' q r :
  ptree h root n → walk h root σ = Ok (Some p) → (length σ + length π ≤ n)%nat →
  pa_inv a → heap_owned h a → ensure h a p π = Ok (h', a', q) →
  is_Some (h !! r) → ¬ tree_page h root n r → h' !! r = h !! r ∧ ¬ tree_page h' root n r.
Proof.
  revert h a σ p. induction π as [|i π IH]; intros h a σ p Ht Hwalk Hlen Hinv Hown He Hr Hnt; cbn [ensure] in He.
  { by injection He as <- <- <-. }
  simpl in Hlen. inv_res. rename x into w, H0 into Hw. case_match eqn:Hn.
  - apply Z.eqb_eq in Hn. inv_res. destruct x as [q1 a1]. inv_res. rename x into h1, H0 into Hal, H1 into Hwr.
    destruct (pa_alloc_ok a q1 a1 Hinv Hal) as (Hinv1 & Hq & _ & _).
    destruct (grow_owned h a q1 a1 h1 p i (mk q1)) as [Hown1 Hfresh]; [done..|].
    pose proof (grow_ptree h root n σ p i w q1 h1 Ht ltac:(lia) Hwalk Hw Hn Hq Hfresh Hwr) as Ht1.
    pose proof (grow_walk_new h root n σ p i w q1 h1 Ht ltac:(lia) Hwalk Hw Hn Hq Hfresh Hwr) as Hnew.
    assert (Hrp : r ≠ p) by (intros ->; apply Hnt; exists σ; split; [lia|done]).
    assert (Hrq : r ≠ ARCH_PHYS_TO_HHDM q1) by (intros ->; rewrite Hfresh in Hr; by destruct Hr).
    assert (Hsame : <[ARCH_PHYS_TO_HHDM q1 := ∅]> h1 !! r = h !! r).
    { rewrite lookup_insert_ne by done. destruct (wr_inv _ _ _ _ _ Hwr) as (pg & _ & ->). by rewrite lookup_insert_ne. }
    rewrite <- Hsame. eapply (IH _ a1 (σ ++ [i])); [exact Ht1|exact (Hnew [])|rewrite length_app; simpl; lia|done|done|exact He|by rewrite Hsame|].
    intros (τ & Hτ & Hrτ).
    destruct (prefix_snoc_cases h root n σ p i w q1 h1 Ht ltac:(lia) Hwalk Hw Hn Hq Hfresh Hwr τ) as [[ρ ->]|Hp].
    + rewrite Hnew in Hrτ. destruct ρ; [|done]. congruence.
    + rewrite (grow_walk_old h root n σ p i w q1 h1 Ht ltac:(lia) Hwalk Hw Hn Hq Hfresh Hwr) in Hrτ by done.
      apply Hnt. by exists τ.
  - eapply (IH h a (σ ++ [i])); try done; [|rewrite length_app; simpl; lia].
    rewrite walk_app, Hwalk. simpl. rewrite Hw. simpl. by rewrite Hn.
Qed.

(** A tree whose pages keep their contents is the same tree. *)
Lemma tree_unchanged h h' root n :
  ptree h root n → (∀ r, tree_page h root n r → h' !! r = h !! r) →
  (∀ π, (length π ≤ n)%nat → walk h' root π = walk h root π) ∧ ptree h' root n ∧
  (∀ r, tree_page h' root n r ↔ tree_page h root n r) ∧
  ∀ π j, length π = n → word_at h' root π j = word_at h root π j.
Proof.
  intros [Hdom Hinj] Hsame.
  assert (Hw : ∀ π, (length π ≤ n)%nat → walk h' root π = walk h root π).
  { intros π Hle. apply walk_ext. intros σ j ρ q -> Hσ. rewrite length_app in Hle. unfold rd.
    rewrite Hsame; [done|]. exists σ. split; [lia|done]. }
  split; [done|]. split; [|split].
  - split.
    + intros π p Hle Hp. rewrite Hw in Hp by done. rewrite Hsame by by exists π. by apply (Hdom π).
    + intros π π' p H1 H2. rewrite !Hw by done. by apply Hinj.
  - intros r. split; intros (π & Hle & Hr); exists π; split; try done; by rewrite ?Hw in *.
  - intros π j Hle. unfold word_at. rewrite Hw by lia. destruct (walk h root π) as [[p|]| | |] eqn:Hp; try done.
    unfold rd. rewrite Hsame; [done|]. exists π. split; [lia|done].
Qed.
End tree.

(** ** A concrete allocator

    Handing out successive pages meets the interface; the witnesses of the
    theorems proved against it use this one. *)
Record bump := Bump { bump_next : Z }.

Definition bump_alloc (b : bump) : res (Z * bump) :=
  if bump_next b <? 2 ^ 34 then Ok (bump_next b * ARCH_PAGE_SIZE, Bump (bump_next b + 1)) else Panic.

#[export] Program Instance bump_PageAlloc : PageAlloc bump := {
  pa_alloc := bump_alloc;
  pa_inv b := 1 ≤ bump_next b;
  pa_taken b p := valid_phys p ∧ p < bump_next b * ARCH_PAGE_SIZE;
  pa_free b := Z.to_nat (2 ^ 34 - bump_next b) }.
Next Obligation.
  intros [n] p a' Hn Ha. unfold bump_alloc in Ha. simpl in *.
  destruct (Z.ltb_spec n (2 ^ 34)); simplify_eq. simpl. unfold valid_phys, ARCH_PAGE_SIZE.
  rewrite Z.mod_mul by done. split_and!; try lia. intros q. split.
  - intros [[? Hm%Z.mod_divide] Hlt]; [|done]. destruct Hm as [k ->]. 
    destruct (decide (k = n)) as [->|]; [by left|right]. split; [|lia].
    split; [lia|]. by apply Z.mod_mul.
  - intros [->|[? ?]]; [|lia]. rewrite Z.mod_mul by done. lia.
Qed.
Next Obligation.
  intros [n] Hn Hf. unfold bump_alloc. simpl in *. destruct (Z.ltb_spec n (2 ^ 34)); [|lia].
  eexists _, _. split; [done|]. simpl. lia.
Qed.
