(* ===== verification/Radixtree.v ===== *)
(** * The radix tree and the page cache

    src/com/lib/radixtree.c and src/com/fs/pagecache.c. A tree is a record
    with the address of its root page; the pages are in a [pheap]. The
    functions that take the tree's spinlock are their [_nolock] bodies between
    an acquire and a release of it; the spinlock is not modelled. *)
From S2P Require Import Prelude PageTree.

Definition KRADIXTREE_LAYER_SIZE : Z := 512.
Definition KRADIXTREE_INDEX_BITS : Z := 9.
Definition KRADIXTREE_INDEX_MASK : Z := KRADIXTREE_LAYER_SIZE - 1.
Definition KRADIXTREE_MAX_LAYERS : Z := 64 / KRADIXTREE_INDEX_BITS.

Record kradixtree := Radixtree {
  num_layers : nat;
  back : Z }.

(** [split_index]: nine bits of the index per layer, the topmost first. *)
Definition split_index (index : Z) (layers : nat) : list Z :=
  (λ i : nat, Z.land (Z.shiftr index (KRADIXTREE_INDEX_BITS * Z.of_nat (layers - i - 1)))
                     KRADIXTREE_INDEX_MASK) <$> seq 0 layers.

(** Branch words are the addresses of the pages below. *)
Definition rx_next (w : Z) : Z := w.
Definition rx_mk (phys : Z) : Z := ARCH_PHYS_TO_HHDM phys.

Section radixtree.
Context `{PageAlloc A}.

(** [kradixtree_new] with [KRADIXTREE_INIT]; the structure itself, from the
    slab allocator, is the record. *)
Definition kradixtree_new (layers : nat) (h : pheap) (a : A) : res (kradixtree * pheap * A) :=
  KASSERT (Z.of_nat layers <=? KRADIXTREE_MAX_LAYERS) ;;
  '(p, a) ← pa_alloc a;
  Ok (Radixtree layers (ARCH_PHYS_TO_HHDM p), <[ARCH_PHYS_TO_HHDM p := ∅]> h, a).

(** The loop over the branch layers is [walk]; [*out] is the second component.
    [last_layer] is out of the [indices] array when there are no layers. *)
Definition kradixtree_get_nolock (rxtree : kradixtree) (index : Z) (h : pheap)
    : res (errno * option Z) :=
  let indices := split_index index (num_layers rxtree) in
  let last_layer := (num_layers rxtree - 1)%nat in
  root ← walk rx_next h (back rxtree) (take last_layer indices);
  match root with
  | None => Ok (ENOENT, None)
  | Some root =>
      i ← deref (indices !! last_layer);
      data ← rd h root i;
      if data =? 0 then Ok (ENOENT, None) else Ok (E0, Some data)
  end.

(** Missing branch pages are allocated on the way down ([ensure]). *)
Definition kradixtree_put_nolock (rxtree : kradixtree) (index data : Z) (h : pheap) (a : A)
    : res (errno * pheap * A) :=
  let indices := split_index index (num_layers rxtree) in
  let last_layer := (num_layers rxtree - 1)%nat in
  '(h, a, root) ← ensure rx_next rx_mk h a (back rxtree) (take last_layer indices);
  i ← deref (indices !! last_layer);
  old ← rd h root i;
  KASSERT (old =? 0) ;;
  h ← wr h root i data;
  Ok (E0, h, a).

Definition kradixtree_remove_nolock (rxtree : kradixtree) (index : Z) (h : pheap)
    : res (errno * pheap) :=
  let indices := split_index index (num_layers rxtree) in
  let last_layer := (num_layers rxtree - 1)%nat in
  root ← walk rx_next h (back rxtree) (take last_layer indices);
  match root with
  | None => Ok (ENOENT, h)
  | Some root =>
      i ← deref (indices !! last_layer);
      old ← rd h root i;
      KASSERT (negb (old =? 0)) ;;
      h ← wr h root i 0;
      Ok (E0, h)
  end.

(** ** Page cache: a radix tree of four layers from page numbers to pages *)

(** Returns the page's address when it is present ([*out], result [true]). *)
Definition com_fs_pagecache_get (root : kradixtree) (index : Z) (h : pheap) : res (option Z) :=
  '(ret, out_void) ← kradixtree_get_nolock root index h;
  if decide (ret = E0) then Ok out_void else Ok None.

Definition com_fs_pagecache_default (root : kradixtree) (index : Z) (h : pheap) (a : A)
    : res (Z * pheap * A) :=
  page ← com_fs_pagecache_get root index h;
  match page with
  | Some p => Ok (p, h, a)
  | None =>
      '(p, a) ← pa_alloc a;
      let data := ARCH_PHYS_TO_HHDM p in
      '(_, h, a) ← kradixtree_put_nolock root index data h a;
      Ok (data, h, a)
  end.

Definition com_fs_pagecache_new (h : pheap) (a : A) : res (kradixtree * pheap * A) :=
  kradixtree_new 4 h a.

(** ** Invariant and abstraction *)

Definition rx_wf (rx : kradixtree) (h : pheap) (a : A) : Prop :=
  (1 ≤ num_layers rx ≤ 7)%nat ∧ ptree rx_next h (back rx) (num_layers rx - 1) ∧
  pa_inv a ∧ heap_owned h a.

(** The number of distinct indices of the tree. *)
Definition rx_span (rx : kradixtree) : Z := 2 ^ (9 * Z.of_nat (num_layers rx)).

(** The map from indices to data a tree stands for. *)
Definition rx_lookup (rx : kradixtree) (h : pheap) (index : Z) : option Z :=
  let indices := split_index index (num_layers rx) in
  let last_layer := (num_layers rx - 1)%nat in
  match word_at rx_next h (back rx) (take last_layer indices) (nth last_layer indices 0) with
  | 0 => None
  | w => Some w
  end.

(** ** Lemmas: the index split *)

Lemma length_split_index index n : length (split_index index n) = n.
Proof. unfold split_index. by rewrite length_fmap, length_seq. Qed.

Lemma split_index_lookup index n i :
  (i < n)%nat →
  split_index index n !! i = Some ((index / 2 ^ (9 * Z.of_nat (n - i - 1))) mod 512).
Proof.
  intros Hi. unfold split_index. rewrite list_lookup_fmap, lookup_seq_lt by done. simpl. f_equal.
  rewrite Z.shiftr_div_pow2 by (unfold KRADIXTREE_INDEX_BITS; lia).
  change KRADIXTREE_INDEX_MASK with (Z.ones 9). by rewrite Z.land_ones by lia.
Qed.

(** Dropping the last layer drops the low nine bits. *)
Lemma split_index_snoc index n :
  split_index index (S n) = split_index (index / 512) n ++ [index mod 512].
Proof.
  apply list_eq. intros i. destruct (decide (i < n)%nat) as [Hi|Hi].
  - rewrite lookup_app_l by (rewrite length_split_index; done).
    rewrite !split_index_lookup by lia. do 2 f_equal. 
    rewrite Z.div_div by (try apply Z.pow_pos_nonneg; lia). f_equal.
    change 512 with (2 ^ 9). rewrite <- Z.pow_add_r by lia. f_equal. lia.
  - destruct (decide (i = n)) as [->|].
    + rewrite split_index_lookup, lookup_app_r by (rewrite ?length_split_index; lia).
      rewrite length_split_index, Nat.sub_diag.
      replace (S n - n - 1)%nat with 0%nat by lia. cbn [lookup list_lookup].
      change (2 ^ (9 * Z.of_nat 0)) with 1. by rewrite Z.div_1_r.
    + rewrite !lookup_ge_None_2; [done|..]; rewrite ?length_app, ?length_split_index; simpl; lia.
Qed.

Lemma split_index_inj n x y :
  split_index x n = split_index y n ↔ x mod 2 ^ (9 * Z.of_nat n) = y mod 2 ^ (9 * Z.of_nat n).
Proof.
  revert x y. induction n as [|n IH]; intros x y.
  { split; [|done]. by rewrite !Z.mod_1_r. }
  rewrite !split_index_snoc. replace (9 * Z.of_nat (S n)) with (9 + 9 * Z.of_nat n) by lia.
  rewrite Z.pow_add_r by lia. change (2 ^ 9) with 512.
  pose proof (Z.pow_pos_nonneg 2 (9 * Z.of_nat n) ltac:(lia) ltac:(lia)).
  rewrite !(Z.rem_mul_r _ 512) by lia. 
  pose proof (Z.mod_pos_bound x 512 ltac:(lia)). pose proof (Z.mod_pos_bound y 512 ltac:(lia)).
  specialize (IH (x / 512) (y / 512)). split.
  - intros [Ha Hb]%app_inj_2; [|done]. injection Hb as Hb. rewrite Hb. apply IH in Ha. by rewrite Ha.
  - intros Heq. assert (x mod 512 = y mod 512) as -> by nia. f_equal. apply IH. nia.
Qed.

(** ** Lemmas: the operations *)

Definition rx_path (rx : kradixtree) (index : Z) : list Z :=
  take (num_layers rx - 1) (split_index index (num_layers rx)).
Definition rx_last (rx : kradixtree) (index : Z) : Z :=
  nth (num_layers rx - 1) (split_index index (num_layers rx)) 0.

Lemma rx_last_lookup rx index :
  (1 ≤ num_layers rx)%nat →
  split_index index (num_layers rx) !! (num_layers rx - 1)%nat = Some (rx_last rx index).
Proof.
  intros Hn. unfold rx_last.
  destruct (nth_lookup_or_length (split_index index (num_layers rx)) (num_layers rx - 1) 0) as [|Hl]; [done|].
  rewrite length_split_index in Hl. lia.
Qed.

Lemma length_rx_path rx index : length (rx_path rx index) = (num_layers rx - 1)%nat.
Proof. unfold rx_path. rewrite length_take, length_split_index. lia. Qed.

Lemma rx_path_eq rx x y :
  (1 ≤ num_layers rx)%nat →
  (rx_path rx x = rx_path rx y ∧ rx_last rx x = rx_last rx y) ↔ x mod rx_span rx = y mod rx_span rx.
Proof.
  intros Hn. unfold rx_span. rewrite <- split_index_inj.
  assert (Hs : ∀ z, split_index z (num_layers rx) = rx_path rx z ++ [rx_last rx z]).
  { intros z. unfold rx_path. rewrite <- take_S_r by by apply rx_last_lookup.
    rewrite take_ge; [done|]. rewrite length_split_index. lia. }
  rewrite !Hs. split; [by intros [-> ->]|].
  intros [Hp Hl]%app_inj_2; [|done]. split; [done|]. by injection Hl.
Qed.

Lemma rx_lookup_word rx h index :
  rx_lookup rx h index =
    match word_at rx_next h (back rx) (rx_path rx index) (rx_last rx index) with
    | 0 => None | w => Some w end.
Proof. done. Qed.

Lemma rx_lookup_None rx h index :
  rx_lookup rx h index = None ↔
  word_at rx_next h (back rx) (rx_path rx index) (rx_last rx index) = 0.
Proof. rewrite rx_lookup_word. destruct (word_at _ _ _ _ _); split; done. Qed.

Lemma rx_get_spec rx h a index :
  rx_wf rx h a →
  kradixtree_get_nolock rx index h =
    Ok (match rx_lookup rx h index with Some w => (E0, Some w) | None => (ENOENT, None) end).
Proof.
  intros (Hn & Ht & _). unfold kradixtree_get_nolock. fold (rx_path rx index).
  destruct (walk_total rx_next h (back rx) _ (rx_path rx index) Ht) as [o Ho];
    [by rewrite length_rx_path|].
  rewrite rx_lookup_word. unfold word_at. rewrite Ho. mstep. destruct o as [p|]; [|done].
  rewrite rx_last_lookup by lia. mstep. destruct Ht as [Hdom _].
  destruct (rd_ok h p (rx_last rx index)) as [w ->];
    [by eapply Hdom; [|done]; rewrite length_rx_path|].
  mstep. by destruct w.
Qed.

(** Replacing the word of an index that has a leaf page. *)
Lemma rx_wr_leaf rx h a index p w h' :
  rx_wf rx h a → walk rx_next h (back rx) (rx_path rx index) = Ok (Some p) →
  wr h p (rx_last rx index) w = Ok h' →
  rx_wf rx h' a ∧
  ∀ j, rx_lookup rx h' j =
    if decide (j mod rx_span rx = index mod rx_span rx)
    then (if w =? 0 then None else Some w) else rx_lookup rx h j.
Proof.
  intros (Hn & Ht & Hi & Ho) Hw Hwr. split.
  - split_and!; [lia|lia| |done|].
    + by apply (ptree_wr_leaf rx_next h _ _ (rx_path rx index) p (rx_last rx index) w);
        [|rewrite length_rx_path|..].
    + intros q Hq Hs. apply Ho; [done|]. by apply (wr_dom h p (rx_last rx index) w h').
  - intros j. rewrite !rx_lookup_word.
    rewrite (word_at_wr_leaf rx_next h (back rx) (num_layers rx - 1) (rx_path rx index) p
      (rx_last rx index) w) by (done || apply length_rx_path).
    destruct (decide (j mod rx_span rx = index mod rx_span rx)) as [Heq|Hne].
    + apply rx_path_eq in Heq as [-> ->]; [|lia]. rewrite decide_True by done. by destruct w.
    + rewrite decide_False; [done|]. intros Heq. apply Hne, rx_path_eq; [lia|done].
Qed.

Lemma rx_put_spec rx h a index data :
  rx_wf rx h a → (num_layers rx - 1 ≤ pa_free a)%nat →
  match rx_lookup rx h index with
  | Some _ => kradixtree_put_nolock rx index data h a = Panic
  | None =>
      ∃ h' a', kradixtree_put_nolock rx index data h a = Ok (E0, h', a') ∧ rx_wf rx h' a' ∧
        (∀ j, rx_lookup rx h' j =
          if decide (j mod rx_span rx = index mod rx_span rx)
          then (if data =? 0 then None else Some data) else rx_lookup rx h j) ∧
        (∀ q, pa_taken a q → pa_taken a' q) ∧ (pa_free a ≤ pa_free a' + (num_layers rx - 1))%nat
  end.
Proof.
  intros (Hn & Ht & Hi & Ho) Hf. unfold kradixtree_put_nolock. fold (rx_path rx index).
  destruct (ensure_spec rx_next rx_mk eq_refl (λ _ _, eq_refl) h a (back rx) (num_layers rx - 1)
    [] (back rx) (rx_path rx index)) as (h1 & a1 & p & He & Ht1 & Hw & Hi1 & Ho1 & Hfr1 & Hwd);
    [done|done|by rewrite length_rx_path|done|done|by rewrite length_rx_path|].
  rewrite He. mstep. rewrite rx_last_lookup by lia. mstep. simpl app in Hw.
  assert (Hwf1 : rx_wf rx h1 a1) by done.
  assert (Hlk : ∀ j, rx_lookup rx h1 j = rx_lookup rx h j).
  { intros j. rewrite !rx_lookup_word. by rewrite Hwd by apply length_rx_path. }
  pose proof Ht1 as [Hdom _].
  assert (Hp : is_Some (h1 !! p)) by (eapply Hdom; [|done]; by rewrite length_rx_path).
  destruct (rd_ok h1 p (rx_last rx index) Hp) as [w Hrd]. rewrite Hrd. mstep.
  rewrite <- Hlk, rx_lookup_word. unfold word_at. rewrite Hw, Hrd.
  destruct (Z.eqb_spec w 0) as [->|Hw0]; [|by destruct w].
  destruct (wr_ok h1 p (rx_last rx index) data Hp) as [h2 Hwr]. cbn [KASSERT mbind res_bind].
  rewrite Hwr. mstep. exists h2, a1.
  destruct (rx_wr_leaf rx h1 a1 index p data h2 Hwf1 Hw Hwr) as [Hwf2 Hlk2].
  split_and!; [done..| | |].
  - intros j. by rewrite Hlk2, Hlk.
  - by apply (ensure_taken rx_next rx_mk _ _ _ _ _ _ _ Hi He).
  - by rewrite length_rx_path in Hfr1.
Qed.

Lemma rx_remove_spec rx h a index :
  rx_wf rx h a →
  match rx_lookup rx h index with
  | Some _ =>
      ∃ h', kradixtree_remove_nolock rx index h = Ok (E0, h') ∧ rx_wf rx h' a ∧
        ∀ j, rx_lookup rx h' j =
          if decide (j mod rx_span rx = index mod rx_span rx) then None else rx_lookup rx h j
  | None => kradixtree_remove_nolock rx index h = Ok (ENOENT, h) ∨
            kradixtree_remove_nolock rx index h = Panic
  end.
Proof.
  intros Hwf. pose proof Hwf as (Hn & Ht & _). unfold kradixtree_remove_nolock. fold (rx_path rx index).
  destruct (walk_total rx_next h (back rx) _ (rx_path rx index) Ht) as [o Hw];
    [by rewrite length_rx_path|].
  rewrite rx_lookup_word. unfold word_at. rewrite Hw. mstep. destruct o as [p|]; [|by left].
  rewrite rx_last_lookup by lia. mstep. destruct Ht as [Hdom _].
  assert (Hp : is_Some (h !! p)) by (eapply Hdom; [|done]; by rewrite length_rx_path).
  destruct (rd_ok h p (rx_last rx index) Hp) as [w Hrd]. rewrite Hrd. mstep.
  destruct (Z.eqb_spec w 0) as [->|Hw0]; [by right|].
  destruct (wr_ok h p (rx_last rx index) 0 Hp) as [h' Hwr]. cbn [negb KASSERT mbind res_bind].
  rewrite Hwr. mstep. destruct (rx_wr_leaf rx h a index p 0 h' Hwf Hw Hwr) as [Hwf' Hlk].
  destruct w; [done|exists h'; split_and!; done..].
Qed.

(** A new tree is well formed and empty. *)
Lemma rx_new_spec layers h a :
  (1 ≤ layers ≤ 7)%nat → pa_inv a → heap_owned h a → (0 < pa_free a)%nat →
  ∃ rx h' a', kradixtree_new layers h a = Ok (rx, h', a') ∧ rx_wf rx h' a' ∧
    num_layers rx = layers ∧ ∀ j, rx_lookup rx h' j = None.
Proof.
  intros Hl Hi Ho Hf. unfold kradixtree_new.
  destruct (Z.leb_spec (Z.of_nat layers) KRADIXTREE_MAX_LAYERS) as [|Hbad];
    [|change KRADIXTREE_MAX_LAYERS with 7 in Hbad; lia].
  cbn [KASSERT mbind res_bind].
  destruct (pa_alloc_total a Hi Hf) as (p & a' & Hal & _). rewrite Hal. mstep.
  destruct (pa_alloc_ok a p a' Hi Hal) as (Hi' & Hp & Hnt & Htk).
  set (h' := <[ARCH_PHYS_TO_HHDM p := ∅]> h).
  assert (Hwk : ∀ π, walk rx_next h' (ARCH_PHYS_TO_HHDM p) π =
    match π with [] => Ok (Some (ARCH_PHYS_TO_HHDM p)) | _ => Ok None end).
  { intros [|i π]; [done|]. cbn [walk]. unfold h'. rewrite rd_insert_eq. mstep.
    by rewrite rd_slot_empty. }
  assert (Hpt : ptree rx_next h' (ARCH_PHYS_TO_HHDM p) (layers - 1)).
  { split.
    - intros π q _. rewrite Hwk. destruct π; intros; simplify_eq. unfold h'. rewrite lookup_insert_eq. eauto.
    - intros π1 π2 q _ _. rewrite !Hwk. by destruct π1, π2. }
  exists (Radixtree layers (ARCH_PHYS_TO_HHDM p)), h', a'. split; [done|]. split; [|split; [done|]].
  - split; [simpl; lia|]. split; [done|]. split; [done|]. intros q Hq Hs. apply Htk. destruct (decide (q = p)); [by left|right]. apply Ho; [done|].
    unfold h' in Hs. rewrite lookup_insert_ne in Hs; [done|]. intros ?%hhdm_inj; done.
  - intros j. apply rx_lookup_None. unfold word_at. simpl back. rewrite Hwk.
    destruct (rx_path _ j); [|done]. unfold h'. by rewrite rd_insert_eq, rd_slot_empty.
Qed.

(** ** Properties *)

(** storing data at a free index succeeds while pages can be allocated;
    afterwards looking an index up gives the data at that index, and at every
    other index what it gave before. Indices are taken modulo the tree's
    span of [2^(9 * num_layers)]. *)
Theorem kradixtree_put_get rx h a index data :
  rx_wf rx h a → (num_layers rx - 1 ≤ pa_free a)%nat → data ≠ 0 →
  kradixtree_get_nolock rx index h = Ok (ENOENT, None) →
  ∃ h' a', kradixtree_put_nolock rx index data h a = Ok (E0, h', a') ∧ rx_wf rx h' a' ∧
    ∀ j, kradixtree_get_nolock rx j h' =
      if decide (j mod rx_span rx = index mod rx_span rx)
      then Ok (E0, Some data) else kradixtree_get_nolock rx j h.
Proof.
  intros Hwf Hf Hd Hg. rewrite (rx_get_spec rx h a index Hwf) in Hg.
  pose proof (rx_put_spec rx h a index data Hwf Hf) as Hp.
  destruct (rx_lookup rx h index); [done|]. destruct Hp as (h' & a' & Hr & Hwf' & Hlk & _).
  exists h', a'. split_and!; [done..|]. intros j.
  rewrite (rx_get_spec rx h' a' j Hwf'), (rx_get_spec rx h a j Hwf), Hlk.
  case_decide; [|done]. by destruct (Z.eqb_spec data 0).
Qed.

(** removing an index that holds data succeeds and forgets that index
    alone. *)
Theorem kradixtree_remove_get rx h a index data :
  rx_wf rx h a → kradixtree_get_nolock rx index h = Ok (E0, Some data) →
  ∃ h', kradixtree_remove_nolock rx index h = Ok (E0, h') ∧ rx_wf rx h' a ∧
    ∀ j, kradixtree_get_nolock rx j h' =
      if decide (j mod rx_span rx = index mod rx_span rx)
      then Ok (ENOENT, None) else kradixtree_get_nolock rx j h.
Proof.
  intros Hwf Hg. rewrite (rx_get_spec rx h a index Hwf) in Hg.
  pose proof (rx_remove_spec rx h a index Hwf) as Hp.
  destruct (rx_lookup rx h index); [|done]. destruct Hp as (h' & Hr & Hwf' & Hlk).
  exists h'. split_and!; [done..|]. intros j.
  rewrite (rx_get_spec rx h' a j Hwf'), (rx_get_spec rx h a j Hwf), Hlk. by case_decide.
Qed.

Lemma pagecache_get_spec rx h a index :
  rx_wf rx h a → com_fs_pagecache_get rx index h = Ok (rx_lookup rx h index).
Proof.
  intros Hwf. unfold com_fs_pagecache_get. rewrite (rx_get_spec rx h a index Hwf). mstep.
  by destruct (rx_lookup rx h index).
Qed.

Lemma pagecache_default_spec rx h a index :
  rx_wf rx h a → (num_layers rx ≤ pa_free a)%nat →
  ∃ p h' a', com_fs_pagecache_default rx index h a = Ok (p, h', a') ∧ rx_wf rx h' a' ∧ p ≠ 0 ∧
    (∀ j, rx_lookup rx h' j =
       if decide (j mod rx_span rx = index mod rx_span rx) then Some p else rx_lookup rx h j) ∧
    match rx_lookup rx h index with
    | Some q => p = q ∧ h' = h ∧ a' = a
    | None => ∃ q, p = ARCH_PHYS_TO_HHDM q ∧ valid_phys q ∧ ¬ pa_taken a q ∧ pa_taken a' q
    end ∧
    (∀ q, pa_taken a q → pa_taken a' q) ∧ (pa_free a ≤ pa_free a' + num_layers rx)%nat.
Proof.
  intros Hwf Hf. unfold com_fs_pagecache_default.
  rewrite (pagecache_get_spec rx h a index Hwf). mstep. pose proof Hwf as (Hn & _ & Hi & Ho).
  destruct (rx_lookup rx h index) as [q|] eqn:Hq.
  - exists q, h, a. split_and!; try done.
    + intros ->. rewrite rx_lookup_word in Hq. by destruct (word_at _ _ _ _ _).
    + intros j. case_decide as Hj; [|done]. apply rx_path_eq in Hj as [Hp Hl]; [|lia].
      by rewrite <- Hq, !rx_lookup_word, Hp, Hl.
    + lia.
  - destruct (pa_alloc_total a Hi) as (p & a1 & Hal & Hf1); [lia|]. rewrite Hal. mstep.
    destruct (pa_alloc_ok a p a1 Hi Hal) as (Hi1 & Hp & Hnt & Htk).
    assert (Hwf1 : rx_wf rx h a1).
    { destruct Hwf as (? & ? & _). split_and!; try (done || lia). intros r Hr Hs. apply Htk. right. by apply Ho. }
    pose proof (rx_put_spec rx h a1 index (ARCH_PHYS_TO_HHDM p) Hwf1) as Hput. rewrite Hq in Hput.
    destruct Hput as (h' & a' & -> & Hwf' & Hlk & Htk' & Hfr'); [lia|]. mstep.
    assert (Hp0 : ARCH_PHYS_TO_HHDM p ≠ 0) by by apply hhdm_nonzero.
    exists (ARCH_PHYS_TO_HHDM p), h', a'. split_and!; try done; [| | |lia].
    2:{ exists p. split_and!; try done. apply Htk', Htk. by left. }
    2:{ intros q Hq'. apply Htk', Htk. by right. }
    intros j. rewrite Hlk. by destruct (Z.eqb_spec (ARCH_PHYS_TO_HHDM p) 0).
Qed.

(** Pages outside the tree stay as they are, and outside. *)
Lemma rx_put_frame rx h a index data h' a' r :
  rx_wf rx h a → (num_layers rx - 1 ≤ pa_free a)%nat → kradixtree_put_nolock rx index data h a = Ok (E0, h', a') →
  is_Some (h !! r) → ¬ tree_page rx_next h (back rx) (num_layers rx - 1) r →
  h' !! r = h !! r ∧ ¬ tree_page rx_next h' (back rx) (num_layers rx - 1) r.
Proof.
  intros (Hn & Ht & Hi & Ho) Hfree Hput Hr Hnt. unfold kradixtree_put_nolock in Hput. fold (rx_path rx index) in Hput.
  apply bind_Ok in Hput as ([[h1 a1] p] & He & Hput). rewrite rx_last_lookup in Hput by lia. cbn [deref mbind res_bind] in Hput.
  apply bind_Ok in Hput as (w & Hrd & Hput). destruct (w =? 0); [|done]. cbn [KASSERT mbind res_bind] in Hput.
  apply bind_Ok in Hput as (h2 & Hwr & Hput). injection Hput as <- <-.
  pose proof (length_rx_path rx index) as Hlen.
  destruct (ensure_frame rx_next rx_mk eq_refl (λ _ _, eq_refl) h a (back rx) (num_layers rx - 1) [] (back rx) (rx_path rx index) h1 a1 p r) as [Hs Hnt1];
    [done|done|simpl; lia|done..|].
  destruct (ensure_spec rx_next rx_mk eq_refl (λ _ _, eq_refl) h a (back rx) (num_layers rx - 1)
    [] (back rx) (rx_path rx index)) as (h1' & a1' & p' & He' & Ht1 & Hw1 & _); [done|done|simpl; lia|done|done|lia|].
  rewrite He in He'. injection He' as <- <- <-. simpl app in Hw1.
  assert (Hrp : r ≠ p) by (intros ->; apply Hnt1; exists (rx_path rx index); split; [lia|done]).
  apply wr_inv in Hwr as Hwr'. destruct Hwr' as (pg & Hpg & ->). split; [by rewrite lookup_insert_ne|].
  by rewrite (tree_page_wr_leaf rx_next h1 (back rx) (num_layers rx - 1) (rx_path rx index) p (rx_last rx index) data _ r).
Qed.

Lemma pagecache_default_frame rx h a index p h' a' r :
  rx_wf rx h a → (num_layers rx ≤ pa_free a)%nat → com_fs_pagecache_default rx index h a = Ok (p, h', a') →
  is_Some (h !! r) → ¬ tree_page rx_next h (back rx) (num_layers rx - 1) r →
  h' !! r = h !! r ∧ ¬ tree_page rx_next h' (back rx) (num_layers rx - 1) r.
Proof.
  intros Hwf Hfree Hd Hr Hnt. unfold com_fs_pagecache_default in Hd. rewrite (pagecache_get_spec rx h a index Hwf) in Hd. cbn [mbind res_bind] in Hd.
  destruct (rx_lookup rx h index); [by injection Hd as <- <- <-|]. apply bind_Ok in Hd as ([q a1] & Hal & Hd).
  apply bind_Ok in Hd as ([[e h2] a2] & Hput & Hd). injection Hd as <- <- <-.
  destruct Hwf as (Hn & Ht & Hi & Ho). destruct (pa_alloc_ok a q a1 Hi Hal) as (Hi1 & _ & _ & Htk).
  assert (Hwf1 : rx_wf rx h a1) by (split_and!; try (done || lia); intros x Hx Hs; apply Htk; right; by apply Ho).
  assert (e = E0) as ->.
  { clear -Hput. unfold kradixtree_put_nolock in Hput. repeat (apply bind_Ok in Hput as ([] & _ & Hput) || apply bind_Ok in Hput as (? & _ & Hput) || case_match); try done; by injection Hput. }
  destruct (pa_alloc_total a Hi) as (q' & a1' & Hal' & Hf1); [lia|]. rewrite Hal in Hal'. injection Hal' as <- <-.
  apply (rx_put_frame rx h a1 index (ARCH_PHYS_TO_HHDM q) h2 a2 r); try done. lia.
Qed.

(** the page cache gives every file page a page of memory and keeps
    giving the same one: after [com_fs_pagecache_default] a lookup of that
    index finds the page returned, a second call returns it again without
    changing anything, a page created by the call is one the allocator had
    not handed out, and other indices are untouched. *)
Theorem com_fs_pagecache_default_stable rx h a index :
  rx_wf rx h a → (num_layers rx ≤ pa_free a)%nat →
  ∃ p h' a', com_fs_pagecache_default rx index h a = Ok (p, h', a') ∧ rx_wf rx h' a' ∧
    com_fs_pagecache_get rx index h' = Ok (Some p) ∧
    com_fs_pagecache_default rx index h' a' = Ok (p, h', a') ∧
    (com_fs_pagecache_get rx index h = Ok None →
       ∃ q, p = ARCH_PHYS_TO_HHDM q ∧ valid_phys q ∧ ¬ pa_taken a q) ∧
    (∀ j, j mod rx_span rx ≠ index mod rx_span rx →
       com_fs_pagecache_get rx j h' = com_fs_pagecache_get rx j h).
Proof.
  intros Hwf Hf. destruct (pagecache_default_spec rx h a index Hwf Hf)
    as (p & h' & a' & Hr & Hwf' & Hp0 & Hlk & Hcase & _).
  assert (Hg : com_fs_pagecache_get rx index h' = Ok (Some p)).
  { rewrite (pagecache_get_spec rx h' a' index Hwf'), Hlk. by rewrite decide_True. }
  exists p, h', a'. split_and!; try done.
  - unfold com_fs_pagecache_default. by rewrite Hg.
  - rewrite (pagecache_get_spec rx h a index Hwf). intros [= Hn]. rewrite Hn in Hcase. destruct Hcase as (q & ? & ? & ? & _). by exists q.
  - intros j Hj. rewrite (pagecache_get_spec rx h' a' j Hwf'), (pagecache_get_spec rx h a j Hwf), Hlk.
    by rewrite decide_False.
Qed.

(** Page numbers that differ by a multiple of the tree's span share their
    page: the bits of the index above the layers are dropped. *)
Theorem com_fs_pagecache_index_aliases rx index h :
  com_fs_pagecache_get rx (index + rx_span rx) h = com_fs_pagecache_get rx index h.
Proof.
  unfold com_fs_pagecache_get, kradixtree_get_nolock.
  assert (split_index (index + rx_span rx) (num_layers rx) = split_index index (num_layers rx)) as ->; [|done].
  apply split_index_inj. unfold rx_span. rewrite <- (Z.mul_1_l (2 ^ _)) at 1. by rewrite Z_mod_plus_full.
Qed.
End radixtree.

(** A tree of two layers, just created. *)
Definition demo_rx : kradixtree := Radixtree 2 (ARCH_PHYS_TO_HHDM 4096).
Definition demo_heap : pheap := {[ARCH_PHYS_TO_HHDM 4096 := ∅]}.

Lemma demo_rx_wf : rx_wf demo_rx demo_heap (Bump 2).
Proof.
  destruct (rx_new_spec 2 ∅ (Bump 1)) as (rx & h & a & Hr & Hwf & _); [lia|simpl; lia| |simpl; lia|].
  - intros p _ Hs. rewrite lookup_empty in Hs. by destruct Hs.
  - vm_compute in Hr. injection Hr as <- <- <-. exact Hwf.
Qed.

Lemma demo_rx_free : (num_layers demo_rx ≤ pa_free (Bump 2))%nat.
Proof. simpl. lia. Qed.

Lemma kradixtree_put_get_witness :
  ∃ h' a', kradixtree_put_nolock demo_rx 700 77 demo_heap (Bump 2) = Ok (E0, h', a') ∧
    rx_wf demo_rx h' a' ∧
    ∀ j, kradixtree_get_nolock demo_rx j h' =
      if decide (j mod rx_span demo_rx = 700 mod rx_span demo_rx)
      then Ok (E0, Some 77) else kradixtree_get_nolock demo_rx j demo_heap.
Proof.
  apply (kradixtree_put_get demo_rx demo_heap (Bump 2) 700 77); [apply demo_rx_wf| |done|reflexivity].
  pose proof demo_rx_free. lia.
Defined.

(** The same tree holding a leaf page with the word 9 at index 0. *)
Definition demo_heap1 : pheap :=
  {[ARCH_PHYS_TO_HHDM 4096 := {[0 := ARCH_PHYS_TO_HHDM 8192]};
    ARCH_PHYS_TO_HHDM 8192 := {[0 := 9]}]}.

Lemma demo_heap1_wf : rx_wf demo_rx demo_heap1 (Bump 3).
Proof.
  pose proof (rx_put_spec demo_rx demo_heap (Bump 2) 0 9 demo_rx_wf) as Hp.
  assert (Hl : rx_lookup demo_rx demo_heap 0 = None) by reflexivity. rewrite Hl in Hp.
  destruct Hp as (h' & a' & Hr & Hwf & _); [pose proof demo_rx_free; lia|].
  vm_compute in Hr. injection Hr as <- <-. exact Hwf.
Qed.

Lemma kradixtree_remove_get_witness :
  ∃ h', kradixtree_remove_nolock demo_rx 0 demo_heap1 = Ok (E0, h') ∧ rx_wf demo_rx h' (Bump 3) ∧
    ∀ j, kradixtree_get_nolock demo_rx j h' =
      if decide (j mod rx_span demo_rx = 0 mod rx_span demo_rx)
      then Ok (ENOENT, None) else kradixtree_get_nolock demo_rx j demo_heap1.
Proof.
  apply (kradixtree_remove_get demo_rx demo_heap1 (Bump 3) 0 9); [apply demo_heap1_wf|reflexivity].
Defined.

Lemma com_fs_pagecache_default_stable_witness :
  ∃ p h' a', com_fs_pagecache_default demo_rx 5 demo_heap (Bump 2) = Ok (p, h', a') ∧
    rx_wf demo_rx h' a' ∧
    com_fs_pagecache_get demo_rx 5 h' = Ok (Some p) ∧
    com_fs_pagecache_default demo_rx 5 h' a' = Ok (p, h', a') ∧
    (com_fs_pagecache_get demo_rx 5 demo_heap = Ok None →
       ∃ q, p = ARCH_PHYS_TO_HHDM q ∧ valid_phys q ∧ ¬ pa_taken (Bump 2) q) ∧
    (∀ j, j mod rx_span demo_rx ≠ 5 mod rx_span demo_rx →
       com_fs_pagecache_get demo_rx j h' = com_fs_pagecache_get demo_rx j demo_heap).
Proof.
  apply (com_fs_pagecache_default_stable demo_rx demo_heap (Bump 2) 5);
    [apply demo_rx_wf|apply demo_rx_free].
Defined.
