(* ===== verification/Ringbuffer.v ===== *)
(** * The ring buffer of src/com/lib/ringbuffer.c

    [kringbuffer_t] with its blocking and nonblocking write and its read.
    The caller's buffers live in the memory of [Mem.v]; the ring's own array
    is a list of bytes. What the routines do with the rest of the kernel
    (waiting on a queue, waking one, asking the owner whether the other end
    hung up, running the poll callback, looking for a pending signal) goes
    through a record of operations on a world type, so that the theorems hold
    for every such kernel that keeps the laws they state. The lock is held by
    the caller of every [_nolock] routine, and [ksync_wait] is the only point
    where other threads touch the ring. *)
From S2P Require Import Prelude Mem.

(** ** Data *)
Record kringbuffer : Type := mkRb {
  rb_buffer : list Z;
  rb_buffer_size : Z;
  rb_write_index : Z;
  rb_read_index : Z;
  rb_is_eof : bool
}.

(** [KRINGBUFFER_SIZE]: a quarter of a page. *)
Definition KRINGBUFFER_SIZE : Z := ARCH_PAGE_SIZE / 4.
Definition KRINGBUFFER_NOATOMIC : Z := 1.

Definition KRINGBUFFER_AVAIL_READ (rb : kringbuffer) : Z :=
  u64 (rb_write_index rb - rb_read_index rb).
Definition KRINGBUFFER_AVAIL_WRITE (rb : kringbuffer) : Z :=
  u64 (rb_buffer_size rb - KRINGBUFFER_AVAIL_READ rb).

(** [KRINGBUFFER_INIT_CUSTOM] and [KRINGBUFFER_INIT]; the array keeps what it
    held. *)
Definition KRINGBUFFER_INIT_CUSTOM (buffptr : list Z) (buffsz : Z) : kringbuffer :=
  mkRb buffptr buffsz 0 0 false.
Definition KRINGBUFFER_INIT (internal : list Z) : kringbuffer :=
  KRINGBUFFER_INIT_CUSTOM internal KRINGBUFFER_SIZE.

Inductive rbop : Type := KRINGBUFFER_OP_READ | KRINGBUFFER_OP_WRITE.

(** What a [check_hangup] callback stores: its result, [*force_return] and,
    when it writes it, [*new_nbytes]. *)
Record hup : Type := mkHup { hup_ret : errno; hup_force : bool; hup_nbytes : option Z }.

(** The rest of the kernel, as seen from a ring: [rk_wait q] sleeps on queue
    [q] and returns the ring and world found on waking up, or [None] when
    nobody ever wakes the thread; [rk_hangup] is [rb->check_hangup] applied
    to its argument, [rk_callback] the caller's callback. *)
Record rbkern (W : Type) : Type := mkRk {
  rk_hangup : option (rbop → Z → kringbuffer → W → res (hup * W));
  rk_wait : rbop → kringbuffer → W → option (kringbuffer * W);
  rk_notify : rbop → W → W;
  rk_callback : option (W → W);
  rk_signal : W → bool
}.
Arguments mkRk {W}.
Arguments rk_hangup {W}.
Arguments rk_wait {W}.
Arguments rk_notify {W}.
Arguments rk_callback {W}.
Arguments rk_signal {W}.

(** ** Operations *)
Section ops.
Context {W : Type} (K : rbkern W).

(** [CHECK_HANGUP_GENERIC(&nbytes, curr, rb, op, arg)]: [Some ret] when the
    macro returns from the calling function, with the new [nbytes]. *)
Definition check_hangup (nbytes curr : Z) (op : rbop) (rb : kringbuffer) (w : W)
    : res (option errno * Z * W) :=
  match rk_hangup K with
  | None => Ok (None, nbytes, w)
  | Some f =>
      '(h, w) ← f op curr rb w;
      let nbytes := default nbytes (hup_nbytes h) in
      Ok (if negb (bool_decide (hup_ret h = E0)) || hup_force h
          then Some (hup_ret h) else None, nbytes, w)
  end.

(** [kmemcpy] into the ring's array: writing past its end is a fault. *)
Definition rb_store (idx : Z) (bs : list Z) (buf : list Z) : res (list Z) :=
  if idx + Z.of_nat (length bs) <=? Z.of_nat (length buf)
  then Ok (list_inserts (Z.to_nat idx) bs buf) else Fault.
Definition rb_load (idx n : Z) (buf : list Z) : res (list Z) :=
  if idx + n <=? Z.of_nat (length buf)
  then Ok (take (Z.to_nat n) (drop (Z.to_nat idx) buf)) else Fault.

(** The copy both writers share: [can_write] bytes from [buf] to the write
    index, in one or two pieces. *)
Definition write_chunk (m : mem) (rb : kringbuffer) (buf can_write : Z) : res kringbuffer :=
  let idxoff := KMOD_FAST (rb_write_index rb) (rb_buffer_size rb) in
  let left := rb_buffer_size rb - idxoff in
  b ← rb_store idxoff (rd_bytes m buf (Z.to_nat (KMIN can_write left))) (rb_buffer rb);
  b ← (if left <? can_write
       then rb_store 0 (rd_bytes m (buf + left) (Z.to_nat (can_write - left))) b
       else Ok b);
  Ok (mkRb b (rb_buffer_size rb) (u64 (rb_write_index rb + can_write))
        (rb_read_index rb) (rb_is_eof rb)).

Definition run_callback (w : W) : W :=
  match rk_callback K with None => w | Some f => f w end.

(** The inner [while] of [write_blocking]: [inl] when there is room,
    [inr (ret, *buflen)] when the function returns. *)
Fixpoint write_wait (fuel : nat) (rb : kringbuffer) (w : W)
    (buflen bytes_written atomic_size : Z)
    : res (Z * kringbuffer * W + errno * Z * kringbuffer * W) :=
  match fuel with
  | O => Fuel
  | S fuel =>
      if KRINGBUFFER_AVAIL_WRITE rb <? atomic_size then
        match rk_wait K KRINGBUFFER_OP_WRITE rb w with
        | None => Fuel
        | Some (rb, w) =>
            if rk_signal K w then
              Ok (inr (if bytes_written =? 0 then (EINTR, 0, rb, w)
                       else (E0, bytes_written, rb, w)))
            else
              '(r, buflen, w) ← check_hangup buflen 0 KRINGBUFFER_OP_WRITE rb w;
              match r with
              | Some ret => Ok (inr (ret, buflen, rb, w))
              | None => write_wait fuel rb w buflen bytes_written atomic_size
              end
        end
      else Ok (inl (buflen, rb, w))
  end.

(** [write_blocking]; [to_write] and [bytes_written] are its locals. *)
Fixpoint write_blocking_loop (fuel : nat) (m : mem) (rb : kringbuffer) (w : W)
    (buf to_write bytes_written buflen atomic_size : Z)
    : res (errno * Z * kringbuffer * W) :=
  match fuel with
  | O => Fuel
  | S fuel' =>
      if 0 <? to_write then
        '(r, buflen, w) ← check_hangup buflen 0 KRINGBUFFER_OP_WRITE rb w;
        match r with
        | Some ret => Ok (ret, buflen, rb, w)
        | None =>
            s ← write_wait fuel rb w buflen bytes_written atomic_size;
            match s with
            | inr out => Ok out
            | inl (buflen, rb, w) =>
                let can_write := KMIN to_write (KRINGBUFFER_AVAIL_WRITE rb) in
                rb ← write_chunk m rb buf can_write;
                let w := run_callback (rk_notify K KRINGBUFFER_OP_READ w) in
                write_blocking_loop fuel' m rb w (buf + can_write)
                  (to_write - can_write) (u64 (bytes_written + can_write))
                  buflen atomic_size
            end
        end
      else Ok (E0, bytes_written, rb, w)
  end.

Definition write_blocking (fuel : nat) (m : mem) (rb : kringbuffer) (w : W)
    (buf buflen atomic_size : Z) : res (errno * Z * kringbuffer * W) :=
  write_blocking_loop fuel m rb w buf buflen 0 buflen atomic_size.

Definition write_nonblocking (m : mem) (rb : kringbuffer) (w : W)
    (buf buflen atomic_size : Z) : res (errno * Z * kringbuffer * W) :=
  '(r, buflen, w) ← check_hangup buflen 0 KRINGBUFFER_OP_WRITE rb w;
  match r with
  | Some ret => Ok (ret, buflen, rb, w)
  | None =>
      let space := KRINGBUFFER_AVAIL_WRITE rb in
      let can_write := KMIN buflen space in
      if can_write <? atomic_size then Ok (EAGAIN, buflen, rb, w)
      else
        rb ← write_chunk m rb buf can_write;
        Ok (E0, can_write, rb, run_callback (rk_notify K KRINGBUFFER_OP_READ w))
  end.

(** Returns the error, [*bytes_written], the ring and the world. *)
Definition kringbuffer_write_nolock (fuel : nat) (m : mem) (rb : kringbuffer) (w : W)
    (buf buflen atomic_size : Z) (blocking : bool) : res (errno * Z * kringbuffer * W) :=
  KASSERT (negb (rb_buffer_size rb =? 0));;
  KASSERT (atomic_size <? rb_buffer_size rb);;
  if blocking then write_blocking fuel m rb w buf buflen atomic_size
  else write_nonblocking m rb w buf buflen atomic_size.

(** The wait loop of the reader: [inl] when it falls out of the loop,
    [inr (ret, bytes_read)] when the function is left; [bytes_read] is
    [None] when the return does not store it. *)
Fixpoint read_wait (fuel : nat) (rb : kringbuffer) (w : W) (nbytes atomic_size : Z)
    (blocking : bool)
    : res (Z * kringbuffer * W + errno * option Z * kringbuffer * W) :=
  match fuel with
  | O => Fuel
  | S fuel =>
      if (KRINGBUFFER_AVAIL_READ rb <? atomic_size) && negb (rb_is_eof rb) then
        if negb blocking then Ok (inr (EAGAIN, Some 0, rb, w))
        else match rk_wait K KRINGBUFFER_OP_READ rb w with
        | None => Fuel
        | Some (rb, w) =>
            '(r, nbytes, w) ← check_hangup nbytes nbytes KRINGBUFFER_OP_READ rb w;
            match r with
            | Some ret => Ok (inr (ret, None, rb, w))
            | None =>
                if rb_is_eof rb then Ok (inl (nbytes, rb, w))
                else if rk_signal K w then Ok (inr (EINTR, Some 0, rb, w))
                else read_wait fuel rb w nbytes atomic_size blocking
            end
        end
      else Ok (inl (nbytes, rb, w))
  end.

(** The end of the reader, after its wait loop. *)
Definition read_chunk (m : mem) (dst : Z) (rb : kringbuffer) (w : W) (nbytes : Z)
    : res (errno * option Z * mem * kringbuffer * W) :=
  if rb_is_eof rb then
    Ok (E0, Some 0, m, mkRb (rb_buffer rb) (rb_buffer_size rb) (rb_write_index rb)
                         (rb_read_index rb) false, w)
  else
    let space := KRINGBUFFER_AVAIL_READ rb in
    let can_read := KMIN nbytes space in
    let idxoff := KMOD_FAST (rb_read_index rb) (rb_buffer_size rb) in
    let left := rb_buffer_size rb - idxoff in
    bs ← rb_load idxoff (KMIN can_read left) (rb_buffer rb);
    let m := wr_bytes m dst bs in
    m ← (if left <? can_read
         then bs ← rb_load 0 (can_read - left) (rb_buffer rb); Ok (wr_bytes m (dst + left) bs)
         else Ok m);
    let rb := mkRb (rb_buffer rb) (rb_buffer_size rb) (rb_write_index rb)
                (u64 (rb_read_index rb + can_read)) (rb_is_eof rb) in
    Ok (E0, Some can_read, m, rb, run_callback (rk_notify K KRINGBUFFER_OP_WRITE w)).

(** Returns the error, what is stored in [*bytes_read] (if anything), the
    memory with the bytes read, the ring and the world. *)
Definition kringbuffer_read_nolock (fuel : nat) (m : mem) (dst : Z) (rb : kringbuffer) (w : W)
    (nbytes atomic_size : Z) (blocking : bool)
    : res (errno * option Z * mem * kringbuffer * W) :=
  '(r, nbytes, w) ← check_hangup nbytes nbytes KRINGBUFFER_OP_READ rb w;
  match r with
  | Some ret => Ok (ret, None, m, rb, w)
  | None =>
      KASSERT (atomic_size <? rb_buffer_size rb);;
      s ← read_wait fuel rb w nbytes atomic_size blocking;
      match s with
      | inr (ret, n, rb, w) => Ok (ret, n, m, rb, w)
      | inl (nbytes, rb, w) => read_chunk m dst rb w nbytes
      end
  end.
End ops.

(** ** What a ring holds *)

(** The ring's invariant: a power-of-two size no larger than half of the
    index range, an array of that size, and never more unread bytes than
    fit. *)
Definition rb_wf (rb : kringbuffer) : Prop :=
  (∃ k, 0 ≤ k < 64 ∧ rb_buffer_size rb = 2 ^ k) ∧
  Z.of_nat (length (rb_buffer rb)) = rb_buffer_size rb ∧
  0 ≤ rb_write_index rb < 2 ^ 64 ∧ 0 ≤ rb_read_index rb < 2 ^ 64 ∧
  KRINGBUFFER_AVAIL_READ rb ≤ rb_buffer_size rb.

Definition bget (l : list Z) (i : Z) : Z := default 0 (l !! Z.to_nat i).

(** The bytes written and not yet read, oldest first. *)
Definition rb_contents (rb : kringbuffer) : list Z :=
  map (λ i, bget (rb_buffer rb) ((rb_read_index rb + i) mod rb_buffer_size rb))
    (seqZ 0 (KRINGBUFFER_AVAIL_READ rb)).

(** ** Lemmas *)
Lemma length_rb_contents rb : Z.of_nat (length (rb_contents rb)) = KRINGBUFFER_AVAIL_READ rb.
Proof.
  unfold rb_contents. rewrite length_map, length_seqZ.
  pose proof (wrap_range 64 (rb_write_index rb - rb_read_index rb)).
  unfold KRINGBUFFER_AVAIL_READ in *. lia.
Qed.

Lemma rb_contents_lookup rb i :
  Z.of_nat i < KRINGBUFFER_AVAIL_READ rb →
  rb_contents rb !! i =
    Some (bget (rb_buffer rb) ((rb_read_index rb + Z.of_nat i) mod rb_buffer_size rb)).
Proof. intros. unfold rb_contents. rewrite list_lookup_fmap, lookup_seqZ_lt by lia. done. Qed.

Lemma avail_read_range rb : rb_wf rb → 0 ≤ KRINGBUFFER_AVAIL_READ rb ≤ rb_buffer_size rb.
Proof.
  intros (_ & _ & _ & _ & ?). split; [|done]. unfold KRINGBUFFER_AVAIL_READ. by apply wrap_range.
Qed.

Lemma rb_size_range rb : rb_wf rb → 0 < rb_buffer_size rb < 2 ^ 64.
Proof.
  intros ((k & ? & ->) & _). split; [lia|]. apply Z.pow_lt_mono_r; lia.
Qed.

Lemma avail_write_eq rb :
  rb_wf rb → KRINGBUFFER_AVAIL_WRITE rb = rb_buffer_size rb - KRINGBUFFER_AVAIL_READ rb.
Proof.
  intros Hwf. pose proof (avail_read_range rb Hwf). pose proof (rb_size_range rb Hwf).
  apply wrap_small. lia.
Qed.

(** The size divides the index range, so index arithmetic modulo 2^64 agrees
    with array arithmetic modulo the size. *)
Lemma rb_size_divides rb x : rb_wf rb → u64 x mod rb_buffer_size rb = x mod rb_buffer_size rb.
Proof.
  intros ((k & ? & ->) & _). apply Z.mod_mod_divide. exists (2 ^ (64 - k)).
  rewrite <- Z.pow_add_r by lia. f_equal; lia.
Qed.

Lemma rb_idx rb x : rb_wf rb → KMOD_FAST x (rb_buffer_size rb) = x mod rb_buffer_size rb.
Proof. intros ((k & ? & ->) & _). apply KMOD_FAST_pow2. lia. Qed.

Lemma write_index_mod rb :
  rb_wf rb → rb_write_index rb mod rb_buffer_size rb =
    (rb_read_index rb + KRINGBUFFER_AVAIL_READ rb) mod rb_buffer_size rb.
Proof.
  intros Hwf. rewrite <- (rb_size_divides rb (_ + _)) by done.
  unfold KRINGBUFFER_AVAIL_READ. rewrite wrap_add_r.
  replace (rb_read_index rb + (rb_write_index rb - rb_read_index rb)) with (rb_write_index rb) by lia.
  by rewrite rb_size_divides.
Qed.

Lemma mod_add_cases s x d :
  0 < s → 0 ≤ d ≤ s →
  (x + d) mod s = if x mod s + d <? s then x mod s + d else x mod s + d - s.
Proof.
  intros. pose proof (Z.mod_pos_bound x s). rewrite <- Zplus_mod_idemp_l.
  destruct (Z.ltb_spec (x mod s + d) s); [apply Z.mod_small; lia|].
  symmetry. apply Z.mod_unique with 1; lia.
Qed.

Lemma bget_inserts k xs l i :
  0 ≤ i < Z.of_nat (length l) → 0 ≤ k →
  bget (list_inserts (Z.to_nat k) xs l) i =
    if in_range i k (Z.of_nat (length xs)) then bget xs (i - k) else bget l i.
Proof.
  intros Hi Hk. unfold bget. destruct (in_range_spec i k (Z.of_nat (length xs))).
  - rewrite list_lookup_inserts by lia. do 2 f_equal. lia.
  - destruct (decide (i < k)).
    + rewrite list_lookup_inserts_lt by lia. done.
    + rewrite list_lookup_inserts_ge by lia. done.
Qed.

Lemma bget_rd_bytes m a n i : 0 ≤ i < Z.of_nat n → bget (rd_bytes m a n) i = m (a + i).
Proof. intros. unfold bget. rewrite rd_bytes_lookup by lia. simpl. f_equal. lia. Qed.

Lemma rb_store_ok idx bs buf :
  0 ≤ idx → idx + Z.of_nat (length bs) ≤ Z.of_nat (length buf) →
  rb_store idx bs buf = Ok (list_inserts (Z.to_nat idx) bs buf).
Proof. intros. unfold rb_store. destruct (Z.leb_spec (idx + Z.of_nat (length bs)) (Z.of_nat (length buf))); [done|lia]. Qed.

(** The array after the one or two copies of a write. *)
Lemma write_chunk_buffer m rb buf n :
  rb_wf rb → 0 ≤ n ≤ KRINGBUFFER_AVAIL_WRITE rb →
  let s := rb_buffer_size rb in let idx := rb_write_index rb mod s in
  ∃ b, write_chunk m rb buf n =
         Ok (mkRb b s (u64 (rb_write_index rb + n)) (rb_read_index rb) (rb_is_eof rb)) ∧
    length b = length (rb_buffer rb) ∧
    ∀ j, 0 ≤ j < s → bget b j =
      if in_range j idx n then m (buf + (j - idx))
      else if in_range j (idx - s) n then m (buf + (j - idx + s)) else bget (rb_buffer rb) j.
Proof.
  intros Hwf Hn s idx. pose proof (rb_size_range rb Hwf) as Hs.
  pose proof (avail_read_range rb Hwf). rewrite avail_write_eq in Hn by done.
  assert (Hlen : Z.of_nat (length (rb_buffer rb)) = s) by apply Hwf.
  assert (0 ≤ idx < s) by (apply Z.mod_pos_bound; lia).
  unfold write_chunk. rewrite rb_idx by done. fold s idx. rewrite KMIN_min.
  rewrite rb_store_ok by (rewrite ?length_rd_bytes; lia). mstep.
  destruct (Z.ltb_spec (s - idx) n).
  - rewrite rb_store_ok by (rewrite ?length_inserts, ?length_rd_bytes; lia). mstep.
    eexists; split; [done|]. split; [by rewrite !length_inserts|].
    intros j Hj. rewrite !bget_inserts by (rewrite ?length_inserts; lia). rewrite !length_rd_bytes.
    rewrite !Z2Nat.id by lia.
    destruct (in_range_spec j 0 (n - (s - idx))), (in_range_spec j idx n),
      (in_range_spec j (idx - s) n), (in_range_spec j idx (Z.min n (s - idx)));
      try lia; rewrite ?bget_rd_bytes by lia; f_equal; lia.
  - eexists; split; [done|]. split; [by rewrite !length_inserts|].
    intros j Hj. rewrite !bget_inserts by lia. rewrite !length_rd_bytes, !Z2Nat.id by lia.
    destruct (in_range_spec j idx n), (in_range_spec j (idx - s) n),
      (in_range_spec j idx (Z.min n (s - idx)));
      try lia; rewrite ?bget_rd_bytes by lia; f_equal; lia.
Qed.

Lemma avail_after_write rb b n e :
  rb_wf rb → 0 ≤ n ≤ KRINGBUFFER_AVAIL_WRITE rb →
  KRINGBUFFER_AVAIL_READ (mkRb b (rb_buffer_size rb) (u64 (rb_write_index rb + n)) (rb_read_index rb) e)
    = KRINGBUFFER_AVAIL_READ rb + n.
Proof.
  intros Hwf Hn. pose proof (rb_size_range rb Hwf). rewrite avail_write_eq in Hn by done.
  pose proof (avail_read_range rb Hwf). unfold KRINGBUFFER_AVAIL_READ in *; simpl.
  rewrite wrap_sub_l. replace (rb_write_index rb + n - rb_read_index rb)
    with (rb_write_index rb - rb_read_index rb + n) by lia.
  rewrite <- wrap_add_l. apply wrap_small. lia.
Qed.

Lemma avail_after_read rb n e :
  rb_wf rb → 0 ≤ n ≤ KRINGBUFFER_AVAIL_READ rb →
  KRINGBUFFER_AVAIL_READ (mkRb (rb_buffer rb) (rb_buffer_size rb) (rb_write_index rb)
    (u64 (rb_read_index rb + n)) e) = KRINGBUFFER_AVAIL_READ rb - n.
Proof.
  intros Hwf Hn. pose proof (avail_read_range rb Hwf). pose proof (rb_size_range rb Hwf).
  unfold KRINGBUFFER_AVAIL_READ in *; simpl. rewrite wrap_sub_r.
  replace (rb_write_index rb - (rb_read_index rb + n))
    with (rb_write_index rb - rb_read_index rb - n) by lia.
  rewrite <- wrap_sub_l. apply wrap_small. lia.
Qed.

(** Writing appends to the contents. *)
Lemma write_chunk_spec m rb buf n :
  rb_wf rb → 0 ≤ n ≤ KRINGBUFFER_AVAIL_WRITE rb →
  ∃ rb', write_chunk m rb buf n = Ok rb' ∧ rb_wf rb' ∧
    rb_contents rb' = rb_contents rb ++ rd_bytes m buf (Z.to_nat n) ∧
    rb_buffer_size rb' = rb_buffer_size rb ∧ rb_is_eof rb' = rb_is_eof rb.
Proof.
  intros Hwf Hn. destruct (write_chunk_buffer m rb buf n Hwf Hn) as (b & -> & Hlen & Hb).
  pose proof (rb_size_range rb Hwf) as Hs. pose proof (avail_read_range rb Hwf) as Hav.
  pose proof (avail_write_eq rb Hwf) as Haw. pose proof (write_index_mod rb Hwf) as Hwi.
  eexists; split; [done|]. split; [|split; [|done]].
  - pose proof Hwf as (? & ? & ? & ? & ?). unfold rb_wf. rewrite avail_after_write by done. simpl.
    rewrite Hlen. pose proof (wrap_range 64 (rb_write_index rb + n)). split_and!; (done || lia).
  - apply list_eq; intros i. destruct (decide (Z.of_nat i < KRINGBUFFER_AVAIL_READ rb + n)).
    2:{ rewrite !lookup_ge_None_2; [done|..].
        - rewrite length_app, length_rd_bytes. pose proof (length_rb_contents rb). lia.
        - match goal with |- (length (rb_contents ?r) <= _)%nat => pose proof (length_rb_contents r) as Hl end.
          rewrite avail_after_write in Hl by done. lia. }
    rewrite rb_contents_lookup by (rewrite avail_after_write by done; lia). simpl.
    rewrite Hb by (apply Z.mod_pos_bound; lia). rewrite Hwi.
    pose proof (length_rb_contents rb) as Hlc.
    set (s := rb_buffer_size rb) in *. set (av := KRINGBUFFER_AVAIL_READ rb) in *.
    pose proof (Z.mod_pos_bound (rb_read_index rb) s).
    destruct (decide (Z.of_nat i < av)).
    + rewrite lookup_app_l, rb_contents_lookup by lia.
      rewrite !mod_add_cases by lia. fold s. zcases;
        match goal with |- context [in_range ?x ?y n] => destruct (in_range_spec x y n) end; try lia;
        match goal with |- context [in_range ?x ?y n] => destruct (in_range_spec x y n) end; try lia;
        do 2 f_equal; rewrite mod_add_cases by lia; zcases; lia.
    + rewrite lookup_app_r, rd_bytes_lookup by lia.
      rewrite !mod_add_cases by lia. zcases;
        match goal with |- context [in_range ?x ?y n] => destruct (in_range_spec x y n) end;
        try match goal with |- context [in_range ?x ?y n] => destruct (in_range_spec x y n) end; try lia;
        do 2 f_equal; lia.
Qed.

Lemma rb_load_ok idx n buf :
  idx + n ≤ Z.of_nat (length buf) →
  rb_load idx n buf = Ok (take (Z.to_nat n) (drop (Z.to_nat idx) buf)).
Proof. intros. unfold rb_load. destruct (Z.leb_spec (idx + n) (Z.of_nat (length buf))); [done|lia]. Qed.

Lemma slice_lookup (buf : list Z) idx n i :
  0 ≤ idx → idx + n ≤ Z.of_nat (length buf) → Z.of_nat i < n →
  take (Z.to_nat n) (drop (Z.to_nat idx) buf) !! i = Some (bget buf (idx + Z.of_nat i)).
Proof.
  intros. rewrite lookup_take_lt, lookup_drop by lia. unfold bget.
  replace (Z.to_nat (idx + Z.of_nat i)) with (Z.to_nat idx + i)%nat by lia.
  destruct (lookup_lt_is_Some_2 buf (Z.to_nat idx + i)%nat) as [x ->]; [lia|done].
Qed.

Lemma length_slice (buf : list Z) idx n :
  0 ≤ idx → 0 ≤ n → idx + n ≤ Z.of_nat (length buf) →
  length (take (Z.to_nat n) (drop (Z.to_nat idx) buf)) = Z.to_nat n.
Proof. intros. rewrite length_take, length_drop. lia. Qed.

(** The two pieces a read copies are the oldest bytes, in order. *)
Lemma contents_pieces rb n :
  rb_wf rb → 0 ≤ n ≤ KRINGBUFFER_AVAIL_READ rb →
  let s := rb_buffer_size rb in let idx := rb_read_index rb mod s in
  take (Z.to_nat n) (rb_contents rb) =
    take (Z.to_nat (Z.min n (s - idx))) (drop (Z.to_nat idx) (rb_buffer rb)) ++
    take (Z.to_nat (n - (s - idx))) (drop (Z.to_nat 0) (rb_buffer rb)).
Proof.
  intros Hwf Hn s idx. pose proof (rb_size_range rb Hwf). pose proof (avail_read_range rb Hwf).
  pose proof (length_rb_contents rb) as Hl. destruct Hwf as (_ & Hb & _).
  assert (0 ≤ idx < s) by (apply Z.mod_pos_bound; lia). fold s in Hb.
  apply list_eq; intros i. destruct (decide (Z.of_nat i < n)).
  2:{ rewrite !lookup_ge_None_2; [done|..]; rewrite ?length_app, ?length_take, ?length_drop; lia. }
  rewrite lookup_take_lt, rb_contents_lookup by lia.
  rewrite mod_add_cases by lia. fold s idx. zcases.
  - rewrite lookup_app_l by (rewrite length_slice; lia). rewrite slice_lookup by lia. done.
  - rewrite lookup_app_r by (rewrite length_slice; lia).
    rewrite length_slice, slice_lookup by lia. do 2 f_equal. lia.
Qed.

(** Dropping the oldest bytes by moving the read index. *)
Lemma contents_after_read rb n e :
  rb_wf rb → 0 ≤ n ≤ KRINGBUFFER_AVAIL_READ rb →
  let rb' := mkRb (rb_buffer rb) (rb_buffer_size rb) (rb_write_index rb)
               (u64 (rb_read_index rb + n)) e in
  rb_wf rb' ∧ rb_contents rb' = drop (Z.to_nat n) (rb_contents rb).
Proof.
  intros Hwf Hn rb'. pose proof (avail_after_read rb n e Hwf Hn) as Hav. fold rb' in Hav.
  pose proof (avail_read_range rb Hwf). pose proof (length_rb_contents rb) as Hl.
  pose proof (length_rb_contents rb') as Hl'. split.
  - pose proof Hwf as (? & ? & ? & ? & ?). unfold rb_wf. rewrite Hav. simpl.
    pose proof (wrap_range 64 (rb_read_index rb + n)). split_and!; (done || lia).
  - apply list_eq; intros i. destruct (decide (Z.of_nat i < KRINGBUFFER_AVAIL_READ rb')).
    2:{ rewrite !lookup_ge_None_2; rewrite ?length_drop; (done || lia). }
    rewrite lookup_drop, !rb_contents_lookup by lia. simpl. do 2 f_equal.
    rewrite <- (rb_size_divides rb (_ + _)) by done. rewrite wrap_add_l, rb_size_divides by done.
    f_equal. lia.
Qed.

Section ops_lemmas.
Context {W : Type} (K : rbkern W).

Lemma check_hangup_none nbytes curr op rb w :
  rk_hangup K = None → check_hangup K nbytes curr op rb w = Ok (None, nbytes, w).
Proof. intros H. unfold check_hangup. by rewrite H. Qed.

Lemma read_chunk_spec m dst rb w nbytes :
  rb_wf rb → rb_is_eof rb = false → 0 ≤ nbytes →
  let n := Z.min nbytes (KRINGBUFFER_AVAIL_READ rb) in
  ∃ rb', read_chunk K m dst rb w nbytes =
      Ok (E0, Some n, wr_bytes m dst (take (Z.to_nat n) (rb_contents rb)), rb',
          run_callback K (rk_notify K KRINGBUFFER_OP_WRITE w)) ∧
    rb_wf rb' ∧ rb_contents rb' = drop (Z.to_nat n) (rb_contents rb) ∧
    rb_buffer_size rb' = rb_buffer_size rb ∧ rb_is_eof rb' = false.
Proof.
  intros Hwf Heof Hnb n. pose proof (rb_size_range rb Hwf). pose proof (avail_read_range rb Hwf).
  assert (Hn : 0 ≤ n ≤ KRINGBUFFER_AVAIL_READ rb) by lia.
  destruct (contents_after_read rb n false Hwf Hn) as [Hwf' Hc'].
  eexists. split; [|split; [exact Hwf'|split; [exact Hc'|done]]].
  rewrite contents_pieces by done.
  assert (Hlen : Z.of_nat (length (rb_buffer rb)) = rb_buffer_size rb) by apply Hwf.
  assert (0 ≤ rb_read_index rb mod rb_buffer_size rb < rb_buffer_size rb)
    by (apply Z.mod_pos_bound; lia).
  unfold read_chunk. rewrite Heof, !KMIN_min. fold n. rewrite rb_idx by done.
  rewrite rb_load_ok by lia. mstep. rewrite wr_bytes_app, length_slice, Z2Nat.id by lia.
  destruct (Z.ltb_spec (rb_buffer_size rb - rb_read_index rb mod rb_buffer_size rb) n).
  - rewrite rb_load_ok by lia. mstep. rewrite Z.min_r by lia. done.
  - rewrite rb_load_ok by lia. mstep. replace (Z.to_nat (n - (rb_buffer_size rb - rb_read_index rb mod rb_buffer_size rb)))
      with O by lia. done.
Qed.

(** What the writer's sleeps may do to the ring: readers consume from the
    front, everybody else leaves it alone. [consumed] is the stream of
    bytes the readers have taken so far. *)
Record writer_rely (consumed : W → list Z) : Prop := {
  rely_wait rb w rb' w' : rb_wf rb → rk_wait K KRINGBUFFER_OP_WRITE rb w = Some (rb', w') →
    rb_wf rb' ∧ rb_buffer_size rb' = rb_buffer_size rb ∧
    consumed w' ++ rb_contents rb' = consumed w ++ rb_contents rb;
  rely_notify q w : consumed (rk_notify K q w) = consumed w;
  rely_callback f w : rk_callback K = Some f → consumed (f w) = consumed w
}.

Lemma consumed_wake consumed q w :
  writer_rely consumed → consumed (run_callback K (rk_notify K q w)) = consumed w.
Proof.
  intros [_ Hn Hc]. unfold run_callback. destruct (rk_callback K) as [f|] eqn:E;
    [rewrite (Hc f) by done|]; apply Hn.
Qed.

Lemma write_wait_spec consumed fuel rb w buflen bw atomic r :
  rk_hangup K = None → writer_rely consumed → rb_wf rb →
  write_wait K fuel rb w buflen bw atomic = Ok r →
  match r with
  | inl (buflen', rb', w') =>
      buflen' = buflen ∧ rb_wf rb' ∧ rb_buffer_size rb' = rb_buffer_size rb ∧
      consumed w' ++ rb_contents rb' = consumed w ++ rb_contents rb ∧
      atomic ≤ KRINGBUFFER_AVAIL_WRITE rb'
  | inr (ret, n, rb', w') =>
      rb_wf rb' ∧ n = bw ∧ ret = (if bw =? 0 then EINTR else E0) ∧ rk_signal K w' = true ∧
      consumed w' ++ rb_contents rb' = consumed w ++ rb_contents rb
  end.
Proof.
  intros Hnh Hrel. revert rb w; induction fuel as [|fuel IH]; intros rb w Hwf Hrun; [done|].
  simpl in Hrun. destruct (Z.ltb_spec (KRINGBUFFER_AVAIL_WRITE rb) atomic).
  2:{ simplify_eq. split_and!; done || lia. }
  destruct (rk_wait K KRINGBUFFER_OP_WRITE rb w) as [[rb1 w1]|] eqn:Hw; [|done].
  destruct (rely_wait _ Hrel _ _ _ _ Hwf Hw) as (Hwf1 & Hs1 & Hc1).
  destruct (rk_signal K w1) eqn:Hsig.
  - simplify_eq. destruct (Z.eqb_spec bw 0) as [->|]; done.
  - rewrite check_hangup_none in Hrun by done. simpl in Hrun.
    specialize (IH rb1 w1 Hwf1 Hrun). rewrite Hs1, Hc1 in IH. done.
Qed.

(** Whatever the waits interleave, the bytes come out in order: at the
    return, what readers have consumed followed by what the ring holds is
    what it was before, followed by the bytes reported written. *)
Lemma write_blocking_loop_spec consumed fuel m rb w buf todo bw buflen atomic ret n rb' w' :
  rk_hangup K = None → writer_rely consumed → rb_wf rb →
  0 ≤ todo → 0 ≤ bw → bw + todo < 2 ^ 64 →
  write_blocking_loop K fuel m rb w buf todo bw buflen atomic = Ok (ret, n, rb', w') →
  bw ≤ n ≤ bw + todo ∧ rb_wf rb' ∧
  consumed w' ++ rb_contents rb' =
    consumed w ++ rb_contents rb ++ rd_bytes m buf (Z.to_nat (n - bw)) ∧
  (ret = E0 ∧ (n = bw + todo ∨ rk_signal K w' = true) ∨
   ret = EINTR ∧ n = 0 ∧ rk_signal K w' = true).
Proof.
  intros Hnh Hrel. revert rb w buf todo bw.
  induction fuel as [|fuel IH]; intros rb w buf todo bw Hwf Ht Hbw Hmax Hrun; [done|].
  cbn [write_blocking_loop] in Hrun. destruct (Z.ltb_spec 0 todo).
  2:{ simplify_eq. split_and!; [lia..|done| |left; split; [done|lia]].
      replace (Z.to_nat (n - n)) with O by lia. by rewrite app_nil_r. }
  rewrite check_hangup_none in Hrun by done. revert Hrun. mstep. intros Hrun.
  apply bind_Ok in Hrun as (s & Hs & Hrun). apply (write_wait_spec consumed) in Hs; [|done..].
  destruct s as [[[b1 rb1] w1]|[[[ret1 n1] rb1] w1]].
  - destruct Hs as (-> & Hwf1 & Hs1 & Hc1 & Hat). apply bind_Ok in Hrun as (rb2 & Hch & Hrun).
    set (c := KMIN todo (KRINGBUFFER_AVAIL_WRITE rb1)) in *.
    pose proof (avail_write_eq _ Hwf1) as Haw. pose proof (avail_read_range _ Hwf1).
    assert (Hc : 0 ≤ c ≤ KRINGBUFFER_AVAIL_WRITE rb1 ∧ c ≤ todo) by (subst c; rewrite KMIN_min; lia).
    destruct (write_chunk_spec m rb1 buf c Hwf1) as (rb2' & Hch' & Hwf2 & Hc2 & Hs2 & _); [lia|].
    rewrite Hch in Hch'. injection Hch' as <-. rewrite wrap_small in Hrun by lia.
    apply IH in Hrun as (Hn & Hwf' & Hcc & Hret); [|(done || lia)..].
    split_and!; [lia|lia|done| |].
    + rewrite Hcc, consumed_wake, Hc2, <- !app_assoc, (app_assoc (consumed w1)), Hc1, <- app_assoc by done.
      do 2 f_equal. replace (Z.to_nat (n - bw)) with (Z.to_nat c + Z.to_nat (n - (bw + c)))%nat by lia.
      by rewrite rd_bytes_app, Z2Nat.id by lia.
    + destruct Hret as [[-> [?|?]]|?]; [left; split; [done|left; lia]|by left; auto|by right].
  - destruct Hs as (Hwf1 & -> & -> & Hsig & Hc1). simplify_eq. split_and!; [lia..|done| |].
    + replace (Z.to_nat (n - n)) with O by lia. by rewrite app_nil_r.
    + destruct (Z.eqb_spec n 0); [right|left]; auto.
Qed.

(** A reader that makes room before it wakes the writer, with no signal:
    the writer's waits end. *)
Definition writer_progress : Prop :=
  ∀ rb w, rb_wf rb → 0 < KRINGBUFFER_AVAIL_READ rb →
    ∃ rb' w', rk_wait K KRINGBUFFER_OP_WRITE rb w = Some (rb', w') ∧ rk_signal K w' = false ∧
      rb_wf rb' ∧ rb_buffer_size rb' = rb_buffer_size rb ∧
      KRINGBUFFER_AVAIL_READ rb' < KRINGBUFFER_AVAIL_READ rb.

Lemma write_wait_ends fuel rb w buflen bw atomic :
  rk_hangup K = None → writer_progress → rb_wf rb → atomic < rb_buffer_size rb →
  KRINGBUFFER_AVAIL_READ rb < Z.of_nat fuel →
  ∃ rb' w', write_wait K fuel rb w buflen bw atomic = Ok (inl (buflen, rb', w')) ∧
    rb_wf rb' ∧ rb_buffer_size rb' = rb_buffer_size rb ∧ atomic ≤ KRINGBUFFER_AVAIL_WRITE rb'.
Proof.
  intros Hnh Hpr. revert rb w; induction fuel as [|fuel IH]; intros rb w Hwf Hat Hf;
    pose proof (avail_read_range rb Hwf); [lia|]. simpl.
  destruct (Z.ltb_spec (KRINGBUFFER_AVAIL_WRITE rb) atomic); [|by exists rb, w].
  rewrite avail_write_eq in * by done.
  destruct (Hpr rb w Hwf) as (rb1 & w1 & -> & -> & Hwf1 & Hs1 & Hlt); [lia|].
  rewrite check_hangup_none by done. simpl. rewrite <- Hs1. apply IH; [done|lia..].
Qed.

Lemma write_blocking_loop_ends fuel m rb w buf todo bw buflen atomic :
  rk_hangup K = None → writer_progress → rb_wf rb → 1 ≤ atomic < rb_buffer_size rb →
  0 ≤ todo → 0 ≤ bw → bw + todo < 2 ^ 64 →
  todo + rb_buffer_size rb < Z.of_nat fuel →
  ∃ rb' w', write_blocking_loop K fuel m rb w buf todo bw buflen atomic =
    Ok (E0, bw + todo, rb', w').
Proof.
  intros Hnh Hpr. revert rb w buf todo bw.
  induction fuel as [|fuel IH]; intros rb w buf todo bw Hwf Hat Ht Hbw Hmax Hf;
    pose proof (rb_size_range rb Hwf); pose proof (avail_read_range rb Hwf); [lia|].
  cbn [write_blocking_loop]. destruct (Z.ltb_spec 0 todo).
  2:{ exists rb, w. do 3 f_equal. replace todo with 0 by lia. by rewrite Z.add_0_r. }
  rewrite check_hangup_none by done. mstep.
  destruct (write_wait_ends (S fuel) rb w buflen bw atomic) as (rb1 & w1 & -> & Hwf1 & Hs1 & Hat1);
    [(done || lia)..|]. mstep.
  set (c := KMIN todo (KRINGBUFFER_AVAIL_WRITE rb1)).
  assert (Hc : 1 ≤ c ≤ KRINGBUFFER_AVAIL_WRITE rb1 ∧ c ≤ todo) by (subst c; rewrite KMIN_min; lia).
  destruct (write_chunk_spec m rb1 buf c Hwf1) as (rb2 & -> & Hwf2 & _ & Hs2 & _); [lia|]. mstep.
  rewrite wrap_small by lia.
  assert (Hw : rb_buffer_size rb2 = rb_buffer_size rb) by congruence.
  destruct (IH rb2 (run_callback K (rk_notify K KRINGBUFFER_OP_READ w1)) (buf + c) (todo - c)
    (bw + c)) as (rb' & w' & Heq); [done|rewrite ?Hw; lia..|].
  exists rb', w'. by replace (bw + todo) with (bw + c + (todo - c)) by lia.
Qed.
End ops_lemmas.

(** ** Properties *)

(** C17: A blocking write delivers everything: whatever the readers interleave
    while the writer sleeps, if each of them takes at least one byte before
    it wakes the writer and no signal comes, the write returns 0 with all
    its bytes written, and what the readers have consumed followed by what
    the ring holds is the old stream followed by the caller's bytes, in
    order. Fuel for the request plus one ring is enough. *)
Theorem kringbuffer_write_blocking_delivers {W} (K : rbkern W) consumed fuel m rb w buf buflen atomic :
  rk_hangup K = None → writer_rely K consumed → writer_progress K →
  rb_wf rb → 1 ≤ atomic < rb_buffer_size rb → 0 ≤ buflen < 2 ^ 64 →
  buflen + rb_buffer_size rb < Z.of_nat fuel →
  ∃ rb' w', kringbuffer_write_nolock K fuel m rb w buf buflen atomic true = Ok (E0, buflen, rb', w') ∧
    rb_wf rb' ∧
    consumed w' ++ rb_contents rb' = consumed w ++ rb_contents rb ++ rd_bytes m buf (Z.to_nat buflen).
Proof.
  intros Hnh Hrel Hpr Hwf Hat Hb Hf. pose proof (rb_size_range rb Hwf).
  destruct (write_blocking_loop_ends K fuel m rb w buf buflen 0 buflen atomic) as (rb' & w' & Hrun);
    [(done || lia)..|].
  exists rb', w'. unfold kringbuffer_write_nolock, write_blocking.
  destruct (Z.eqb_spec (rb_buffer_size rb) 0); [lia|].
  destruct (Z.ltb_spec atomic (rb_buffer_size rb)); [|lia]. split; [done|].
  apply (write_blocking_loop_spec K consumed) in Hrun as (_ & Hwf' & Hc & _); [|(done || lia)..].
  by rewrite Z.add_0_l, Z.sub_0_r in Hc.
Qed.

(** A nonblocking write stores the longest prefix that fits, at the end of
    the contents, and nothing else; when less than [atomic_size] fits it
    changes nothing, returns [EAGAIN], and reports the whole request as
    written. *)
Theorem kringbuffer_write_nonblocking_spec {W} (K : rbkern W) fuel m rb w buf buflen atomic :
  rk_hangup K = None → rb_wf rb → 0 ≤ buflen → atomic < rb_buffer_size rb →
  let n := Z.min buflen (rb_buffer_size rb - KRINGBUFFER_AVAIL_READ rb) in
  if n <? atomic then
    kringbuffer_write_nolock K fuel m rb w buf buflen atomic false = Ok (EAGAIN, buflen, rb, w)
  else
    ∃ rb', kringbuffer_write_nolock K fuel m rb w buf buflen atomic false =
        Ok (E0, n, rb', run_callback K (rk_notify K KRINGBUFFER_OP_READ w)) ∧
      rb_wf rb' ∧ rb_contents rb' = rb_contents rb ++ rd_bytes m buf (Z.to_nat n).
Proof.
  intros Hnh Hwf Hb Hat n. pose proof (rb_size_range rb Hwf). pose proof (avail_read_range rb Hwf).
  unfold kringbuffer_write_nolock, write_nonblocking. rewrite check_hangup_none by done. mstep.
  destruct (Z.eqb_spec (rb_buffer_size rb) 0); [lia|].
  destruct (Z.ltb_spec atomic (rb_buffer_size rb)); [|lia]. mstep.
  rewrite avail_write_eq, KMIN_min by done. fold n. cbn [negb].
  destruct (Z.ltb_spec n atomic); [done|].
  destruct (write_chunk_spec m rb buf n Hwf) as (rb' & -> & Hwf' & Hc & _);
    [rewrite avail_write_eq by done; lia|].
  by exists rb'.
Qed.

(** A read that does not have to wait: at end of file it returns 0 bytes and
    clears the mark; with enough bytes it moves the oldest ones to the caller
    and drops them from the ring; otherwise, when it may not block, it
    returns [EAGAIN] and 0 bytes. *)
Theorem kringbuffer_read_spec {W} (K : rbkern W) fuel m dst rb w nbytes atomic :
  rk_hangup K = None → rb_wf rb → 0 ≤ nbytes → atomic < rb_buffer_size rb → (0 < fuel)%nat →
  let n := Z.min nbytes (KRINGBUFFER_AVAIL_READ rb) in
  if rb_is_eof rb then
    ∃ rb', kringbuffer_read_nolock K fuel m dst rb w nbytes atomic false = Ok (E0, Some 0, m, rb', w) ∧
      rb_contents rb' = rb_contents rb ∧ rb_is_eof rb' = false
  else if KRINGBUFFER_AVAIL_READ rb <? atomic then
    kringbuffer_read_nolock K fuel m dst rb w nbytes atomic false = Ok (EAGAIN, Some 0, m, rb, w)
  else
    ∃ rb', kringbuffer_read_nolock K fuel m dst rb w nbytes atomic false =
        Ok (E0, Some n, wr_bytes m dst (take (Z.to_nat n) (rb_contents rb)), rb',
            run_callback K (rk_notify K KRINGBUFFER_OP_WRITE w)) ∧
      rb_wf rb' ∧ rb_contents rb' = drop (Z.to_nat n) (rb_contents rb).
Proof.
  intros Hnh Hwf Hb Hat Hfuel n. unfold kringbuffer_read_nolock. rewrite check_hangup_none by done. mstep.
  destruct (Z.ltb_spec atomic (rb_buffer_size rb)); [|lia]. mstep.
  destruct fuel as [|fuel]; [lia|]. cbn [read_wait].
  destruct (rb_is_eof rb) eqn:Heof.
  - rewrite andb_false_r. mstep. unfold read_chunk. rewrite Heof. by eexists.
  - destruct (Z.ltb_spec (KRINGBUFFER_AVAIL_READ rb) atomic); cbn [negb andb]; [done|]. mstep.
    destruct (read_chunk_spec K m dst rb w nbytes Hwf Heof Hb) as (rb' & Hrun & Hwf' & Hc & _).
    by exists rb'.
Qed.

(** What a nonblocking write put into an empty ring the next read takes out:
    the bytes reappear at the destination, wherever the indices stand. *)
Theorem kringbuffer_write_read_roundtrip {W} (K : rbkern W) fuel m buf dst rb w n :
  rk_hangup K = None → rb_wf rb → rb_is_eof rb = false → rb_contents rb = [] →
  1 ≤ n ≤ rb_buffer_size rb → 1 < rb_buffer_size rb → (0 < fuel)%nat →
  ∃ rb1 w1 m' rb2 w2,
    kringbuffer_write_nolock K fuel m rb w buf n 1 false = Ok (E0, n, rb1, w1) ∧
    kringbuffer_read_nolock K fuel m dst rb1 w1 n 1 false = Ok (E0, Some n, m', rb2, w2) ∧
    rd_bytes m' dst (Z.to_nat n) = rd_bytes m buf (Z.to_nat n) ∧ rb_contents rb2 = [].
Proof.
  intros Hnh Hwf Heof Hemp Hn Hs Hfuel. pose proof (length_rb_contents rb) as Hl.
  rewrite Hemp in Hl. simpl in Hl. unfold kringbuffer_write_nolock, write_nonblocking.
  rewrite check_hangup_none by done.
  destruct (Z.eqb_spec (rb_buffer_size rb) 0); [lia|].
  destruct (Z.ltb_spec 1 (rb_buffer_size rb)); [|lia]. mstep. cbn [negb].
  rewrite avail_write_eq, KMIN_min, Z.min_l by (done || lia).
  destruct (Z.ltb_spec n 1); [lia|].
  destruct (write_chunk_spec m rb buf n Hwf) as (rb1 & -> & Hwf1 & Hc1 & Hs1 & He1);
    [rewrite avail_write_eq by done; lia|]. mstep. rewrite Hemp in Hc1. cbn [app] in Hc1.
  rewrite Heof in He1. pose proof (length_rb_contents rb1) as Hl1.
  rewrite Hc1, length_rd_bytes in Hl1.
  destruct (read_chunk_spec K m dst rb1 (run_callback K (rk_notify K KRINGBUFFER_OP_READ w)) n Hwf1 He1)
    as (rb2 & Hrun & _ & Hc2 & _); [lia|]. rewrite Z.min_l in Hrun, Hc2 by lia.
  eexists _, _, _, _, _. split; [done|]. unfold kringbuffer_read_nolock.
  rewrite check_hangup_none by done. mstep. destruct (Z.ltb_spec 1 (rb_buffer_size rb1)); [|lia]. mstep.
  destruct fuel as [|fuel]; [lia|]. cbn [read_wait]. rewrite He1.
  destruct (Z.ltb_spec (KRINGBUFFER_AVAIL_READ rb1) 1); [lia|]. cbn [andb]. mstep.
  split; [exact Hrun|]. rewrite Hc2, Hc1, take_ge, drop_ge by (rewrite length_rd_bytes; lia).
  split; [|done].
  pose proof (rd_wr_bytes m dst (rd_bytes m buf (Z.to_nat n))) as Hrw. by rewrite length_rd_bytes in Hrw.
Qed.

(** When the hang-up check of a read asks for a return, [*bytes_read] is not
    stored, although the check has set the byte count to report. *)
Theorem kringbuffer_read_hangup {W} (K : rbkern W) f fuel m dst rb w w' nbytes atomic blocking h :
  rk_hangup K = Some f → f KRINGBUFFER_OP_READ nbytes rb w = Ok (h, w') →
  hup_ret h ≠ E0 ∨ hup_force h = true →
  kringbuffer_read_nolock K fuel m dst rb w nbytes atomic blocking = Ok (hup_ret h, None, m, rb, w').
Proof.
  intros Hf Hh Hret. unfold kringbuffer_read_nolock, check_hangup. rewrite Hf, Hh. mstep.
  destruct (bool_decide (hup_ret h = E0)) eqn:E; [|done].
  apply bool_decide_eq_true in E. destruct Hret as [?| ->]; done.
Qed.

(** ** A concrete kernel for the witnesses

    The world is the stream the readers have consumed; whoever wakes the
    writer has read up to two bytes. *)
Definition demo_reader (rb : kringbuffer) (w : list Z) : kringbuffer * list Z :=
  let n := Z.min 2 (KRINGBUFFER_AVAIL_READ rb) in
  (mkRb (rb_buffer rb) (rb_buffer_size rb) (rb_write_index rb) (u64 (rb_read_index rb + n))
     (rb_is_eof rb), w ++ take (Z.to_nat n) (rb_contents rb)).

Definition demo_kern : rbkern (list Z) := {|
  rk_hangup := None;
  rk_wait q rb w := match q with
                    | KRINGBUFFER_OP_WRITE => Some (demo_reader rb w)
                    | KRINGBUFFER_OP_READ => None
                    end;
  rk_notify q w := w;
  rk_callback := None;
  rk_signal w := false
|}.

(** A four-byte ring whose write index is about to wrap around 2^64. *)
Definition demo_rb : kringbuffer := mkRb [0; 0; 0; 0] 4 (2 ^ 64 - 1) (2 ^ 64 - 1) false.
Definition demo_buf : mem := wr_bytes (λ _, 0) 100 [1; 2; 3; 4; 5; 6; 7].

Lemma demo_rb_wf : rb_wf demo_rb.
Proof. split_and!; [exists 2; split; [lia|done]|vm_compute; (done || (split; done))..]. Qed.

Lemma demo_reader_wf rb w :
  rb_wf rb →
  rb_wf (demo_reader rb w).1 ∧ rb_buffer_size (demo_reader rb w).1 = rb_buffer_size rb ∧
  (demo_reader rb w).2 ++ rb_contents (demo_reader rb w).1 = w ++ rb_contents rb.
Proof.
  intros Hwf. pose proof (avail_read_range rb Hwf).
  destruct (contents_after_read rb (Z.min 2 (KRINGBUFFER_AVAIL_READ rb)) (rb_is_eof rb) Hwf) as [Hwf' Hc];
    [lia|]. unfold demo_reader. cbn [fst snd]. split_and!; [done|done|].
  rewrite Hc, <- app_assoc, take_drop. done.
Qed.

Lemma demo_rely : writer_rely demo_kern (λ w, w).
Proof.
  split; [|done|done]. intros rb w rb' w' Hwf. cbn. intros [= <- <-].
  destruct (demo_reader_wf rb w Hwf) as (? & ? & ?). done.
Qed.

Lemma demo_progress : writer_progress demo_kern.
Proof.
  intros rb w Hwf Hav. destruct (demo_reader_wf rb w Hwf) as (? & ? & ?).
  exists (demo_reader rb w).1, (demo_reader rb w).2. split_and!; try done.
  unfold demo_reader. cbn [fst]. rewrite avail_after_read by (done || lia). lia.
Qed.

Lemma kringbuffer_write_blocking_delivers_witness :
  ∃ rb' w', kringbuffer_write_nolock demo_kern 20 demo_buf demo_rb [] 100 7 1 true = Ok (E0, 7, rb', w') ∧
    rb_wf rb' ∧ w' ++ rb_contents rb' = [1; 2; 3; 4; 5; 6; 7].
Proof.
  exact (kringbuffer_write_blocking_delivers demo_kern (λ w, w) 20 demo_buf demo_rb [] 100 7 1
    eq_refl demo_rely demo_progress demo_rb_wf ltac:(split; done) ltac:(split; done) ltac:(done)).
Defined.

Lemma kringbuffer_write_nonblocking_spec_witness :
  ∃ rb', kringbuffer_write_nolock demo_kern 1 demo_buf demo_rb [] 100 7 1 false = Ok (E0, 4, rb', []) ∧
    rb_wf rb' ∧ rb_contents rb' = [1; 2; 3; 4].
Proof.
  exact (kringbuffer_write_nonblocking_spec demo_kern 1 demo_buf demo_rb [] 100 7 1
    eq_refl demo_rb_wf ltac:(lia) ltac:(done)).
Defined.

Lemma kringbuffer_read_spec_witness :
  kringbuffer_read_nolock demo_kern 1 demo_buf 200 demo_rb [] 7 1 false = Ok (EAGAIN, Some 0, demo_buf, demo_rb, []).
Proof.
  exact (kringbuffer_read_spec demo_kern 1 demo_buf 200 demo_rb [] 7 1
    eq_refl demo_rb_wf ltac:(lia) ltac:(done) ltac:(lia)).
Defined.

Lemma kringbuffer_write_read_roundtrip_witness :
  ∃ rb1 w1 m' rb2 w2,
    kringbuffer_write_nolock demo_kern 1 demo_buf demo_rb [] 100 4 1 false = Ok (E0, 4, rb1, w1) ∧
    kringbuffer_read_nolock demo_kern 1 demo_buf 200 rb1 w1 4 1 false = Ok (E0, Some 4, m', rb2, w2) ∧
    rd_bytes m' 200 4 = [1; 2; 3; 4] ∧ rb_contents rb2 = [].
Proof.
  exact (kringbuffer_write_read_roundtrip demo_kern 1 demo_buf 100 200 demo_rb [] 4
    eq_refl demo_rb_wf eq_refl eq_refl ltac:(split; done) ltac:(done) ltac:(lia)).
Defined.

(** The pseudo-terminal's check once the master is closed: force a return of
    0 bytes (see src/com/io/pty.c). *)
Definition demo_closed_kern : rbkern unit :=
  mkRk (Some (λ op curr rb w, Ok (mkHup E0 true (Some 0), w))) (λ _ _ _, None) (λ _ w, w) None (λ _, false).

Lemma kringbuffer_read_hangup_witness :
  kringbuffer_read_nolock demo_closed_kern 1 demo_buf 200 demo_rb tt 7 1 true =
    Ok (E0, None, demo_buf, demo_rb, tt).
Proof.
  exact (kringbuffer_read_hangup demo_closed_kern _ 1 demo_buf 200 demo_rb tt tt 7 1 true
    (mkHup E0 true (Some 0)) eq_refl eq_refl (or_intror eq_refl)).
Defined.
