(* ===== verification/Ioviter.v ===== *)
(** * The I/O vector iterator of src/com/lib/ioviter.c

    A position in an array of [struct iovec] buffers, the gather and scatter
    copies through it, and the transfers between it and a ring buffer. The
    iovec array and its buffers live in the caller's memory ([Mem.v]); the
    iterator's pointer [curr_iov] is an index into the array, and reading
    through it past the end of the array is a [Fault]. *)
From S2P Require Import Prelude Mem Ringbuffer.

(** ** Data *)
Record iovec : Type := mkIov { iov_base : Z; iov_len : Z }.

Record kioviter : Type := mkIt {
  first_iov : list iovec;
  curr_iov : nat;
  curr_off : Z;
  total_off : Z;
  total_size : Z
}.

Definition set_pos (it : kioviter) (iov : nat) (off tot : Z) : kioviter :=
  mkIt (first_iov it) iov off tot (total_size it).

(** [*ioviter->curr_iov] *)
Definition curr (it : kioviter) : res iovec := deref (first_iov it !! curr_iov it).

Definition KIOVITER_FINISHED (it : kioviter) : bool := total_off it =? total_size it.
Definition KIOVITER_CURR_FINISHED (it : kioviter) : res bool :=
  v ← curr it; Ok (curr_off it =? iov_len v).
Definition KIOVITER_REMAINING (it : kioviter) : Z := u64 (total_size it - total_off it).
Definition KIOVITER_CURR_REMAINING (it : kioviter) : res Z :=
  v ← curr it; Ok (u64 (iov_len v - curr_off it)).

(** ** Position *)

(** The loop of [ioviter_size], a [size_t] sum. *)
Fixpoint ioviter_size_loop (iovs : list iovec) (size : Z) : Z :=
  match iovs with
  | [] => size
  | v :: iovs => ioviter_size_loop iovs (u64 (size + iov_len v))
  end.
Definition ioviter_size (iovs : list iovec) : Z := ioviter_size_loop iovs 0.

Definition kioviter_init (iovs : list iovec) : kioviter := mkIt iovs 0 0 0 (ioviter_size iovs).

(** The [do ... while] of [kioviter_skip]. *)
Fixpoint skip_loop (fuel : nat) (it : kioviter) (count : Z) : res kioviter :=
  match fuel with
  | O => Fuel
  | S fuel =>
      curr_rem ← KIOVITER_CURR_REMAINING it;
      let curr_skip := KMIN curr_rem count in
      let count := count - curr_skip in
      let it := set_pos it (curr_iov it) (u64 (curr_off it + curr_skip))
                  (u64 (total_off it + curr_skip)) in
      cf ← KIOVITER_CURR_FINISHED it;
      let it := if cf && negb (KIOVITER_FINISHED it)
                then set_pos it (S (curr_iov it)) 0 (total_off it) else it in
      if negb (count =? 0) && negb (KIOVITER_FINISHED it) then skip_loop fuel it count
      else Ok it
  end.

(** One turn per iovec is enough fuel (lemma [skip_loop_spec]). *)
Definition kioviter_skip (it : kioviter) (count : Z) : res (Z * kioviter) :=
  it ← skip_loop (S (length (first_iov it))) it count;
  Ok (KIOVITER_REMAINING it, it).

Definition kioviter_goto (it : kioviter) (off : Z) : res (Z * kioviter) :=
  if total_off it <? off then kioviter_skip it (off - total_off it)
  else kioviter_skip (set_pos it 0 0 0) off.

(** ** Copies *)

(** The three copies share their loop: [copy it done n] moves [n] bytes at
    the current position, [done] bytes into the transfer. Returns the number
    of bytes done. *)
Section transfer.
Variable copy : iovec → Z → Z → Z → mem → mem.

Fixpoint transfer_loop (fuel : nat) (it : kioviter) (cnt tot_rem : Z) (m : mem)
    : res (Z * kioviter * mem) :=
  match fuel with
  | O => Fuel
  | S fuel =>
      curr_rem ← KIOVITER_CURR_REMAINING it;
      let copy_size := KMIN curr_rem tot_rem in
      v ← curr it;
      let m := copy v (curr_off it) cnt copy_size m in
      '(_, it) ← kioviter_skip it copy_size;
      let cnt := u64 (cnt + copy_size) in
      let tot_rem := tot_rem - copy_size in
      if negb (tot_rem =? 0) && negb (KIOVITER_FINISHED it)
      then transfer_loop fuel it cnt tot_rem m
      else Ok (cnt, it, m)
  end.
End transfer.

Definition read_copy (buf : Z) (v : iovec) (off cnt n : Z) (m : mem) : mem :=
  (kmemcpy (buf + cnt) (iov_base v + off) n m).2.
Definition write_copy (buf : Z) (v : iovec) (off cnt n : Z) (m : mem) : mem :=
  (kmemcpy (iov_base v + off) (buf + cnt) n m).2.
(** As the code has it: [len], the third argument of [kioviter_memset], not
    the copy size. *)
Definition memset_copy (value len : Z) (v : iovec) (off cnt n : Z) (m : mem) : mem :=
  (kmemset (iov_base v + off) len value m).2.

(** Each returns [*bytes_read] (or [*bytes_written]), the iterator and the
    memory; the C functions return 0. One turn per iovec is enough fuel. *)
Definition kioviter_read (buf buflen : Z) (it : kioviter) (m : mem) : res (Z * kioviter * mem) :=
  transfer_loop (read_copy buf) (S (length (first_iov it))) it 0
    (KMIN buflen (KIOVITER_REMAINING it)) m.

Definition kioviter_write (it : kioviter) (buf buflen : Z) (m : mem) : res (Z * kioviter * mem) :=
  transfer_loop (write_copy buf) (S (length (first_iov it))) it 0
    (KMIN buflen (KIOVITER_REMAINING it)) m.

Definition kioviter_memset (it : kioviter) (value len : Z) (m : mem) : res (Z * kioviter * mem) :=
  transfer_loop (memset_copy value len) (S (length (first_iov it))) it 0
    (KMIN len (KIOVITER_REMAINING it)) m.

(** [kioviter_next]: the iovec the iterator stood in, from its base. *)
Definition kioviter_next (it : kioviter) : res (option iovec * kioviter) :=
  if KIOVITER_FINISHED it then Ok (None, it)
  else
    v ← curr it;
    Ok (Some v, set_pos it (S (curr_iov it)) 0 (u64 (total_off it + u64 (iov_len v - curr_off it)))).

(** [kioviter_next_page], over the translation [com_mm_vmm_get_physical] of
    the caller's address space. Returns the error and the three outputs. *)
Definition kioviter_next_page (get_physical : Z → option Z) (it : kioviter)
    : res (errno * option Z * Z * Z) :=
  curr_rem ← KIOVITER_CURR_REMAINING it;
  if negb (curr_rem =? 0) then
    v ← curr it;
    let vaddr := u64 (iov_base v + curr_off it) in
    let page_off := vaddr mod ARCH_PAGE_SIZE in
    match get_physical vaddr with
    | None => Ok (EFAULT, None, page_off, 0)
    | Some paddr =>
        let phys_page := Z.land paddr (Z.lnot (ARCH_PAGE_SIZE - 1)) in
        Ok (E0, Some phys_page, page_off, KMIN ARCH_PAGE_SIZE curr_rem)
    end
  else Ok (E0, None, 0, 0).

(** ** Transfers with a ring buffer *)
Section ring.
Context {W : Type} (K : rbkern W).

(** The loop of [kioviter_read_to_ringbuffer_nolock]. *)
Fixpoint to_ring_loop (fuel : nat) (m : mem) (rb : kringbuffer) (w : W) (it : kioviter)
    (atomic_size : Z) (blocking : bool) (read_count tot_rem : Z)
    : res (errno * Z * kringbuffer * W * kioviter) :=
  match fuel with
  | O => Fuel
  | S fuel' =>
      curr_rem ← KIOVITER_CURR_REMAINING it;
      let copy_size := KMIN curr_rem tot_rem in
      v ← curr it;
      '(ret, curr_count, rb, w) ←
        kringbuffer_write_nolock K fuel m rb w (iov_base v + curr_off it) copy_size
          atomic_size blocking;
      if negb (bool_decide (ret = E0)) then Ok (ret, read_count, rb, w, it)
      else
        '(_, it) ← kioviter_skip it copy_size;
        let read_count := u64 (read_count + curr_count) in
        let tot_rem := u64 (tot_rem - curr_count) in
        if negb (tot_rem =? 0) && negb (KIOVITER_FINISHED it)
        then to_ring_loop fuel' m rb w it atomic_size blocking read_count tot_rem
        else Ok (ret, read_count, rb, w, it)
  end.

Definition kioviter_read_to_ringbuffer_nolock (fuel : nat) (m : mem) (rb : kringbuffer) (w : W)
    (atomic_size : Z) (blocking : bool) (it : kioviter) (nbytes : Z)
    : res (errno * Z * kringbuffer * W * kioviter) :=
  let init_off := curr_off it in
  let tot_rem := KMIN nbytes (KIOVITER_REMAINING it) in
  '(ret, read_count, rb, w, it) ← to_ring_loop fuel m rb w it atomic_size blocking 0 tot_rem;
  if negb (bool_decide (ret = E0)) then
    '(_, it) ← kioviter_goto it (u64 (init_off + read_count));
    Ok (ret, read_count, rb, w, it)
  else Ok (ret, read_count, rb, w, it).

(** The loop of [kioviter_write_from_ringbuffer_nolock]; [curr_count] is
    initialised to 0 and keeps that value when the read does not store it. *)
Fixpoint from_ring_loop (fuel : nat) (m : mem) (rb : kringbuffer) (w : W) (it : kioviter)
    (atomic_size : Z) (blocking : bool) (write_count tot_rem : Z)
    : res (errno * Z * mem * kringbuffer * W * kioviter) :=
  match fuel with
  | O => Fuel
  | S fuel' =>
      curr_rem ← KIOVITER_CURR_REMAINING it;
      let copy_size := KMIN curr_rem tot_rem in
      v ← curr it;
      '(ret, n, m, rb, w) ←
        kringbuffer_read_nolock K fuel m (iov_base v + curr_off it) rb w copy_size
          atomic_size blocking;
      let curr_count := default 0 n in
      if negb (bool_decide (ret = E0)) then Ok (ret, write_count, m, rb, w, it)
      else
        '(_, it) ← kioviter_skip it copy_size;
        let write_count := u64 (write_count + curr_count) in
        let tot_rem := u64 (tot_rem - curr_count) in
        if negb (tot_rem =? 0) && negb (KIOVITER_FINISHED it)
        then from_ring_loop fuel' m rb w it atomic_size blocking write_count tot_rem
        else Ok (ret, write_count, m, rb, w, it)
  end.

Definition kioviter_write_from_ringbuffer_nolock (fuel : nat) (m : mem) (it : kioviter)
    (nbytes : Z) (rb : kringbuffer) (w : W) (atomic_size : Z) (blocking : bool)
    : res (errno * Z * mem * kringbuffer * W * kioviter) :=
  let init_off := curr_off it in
  let tot_rem := KMIN nbytes (KIOVITER_REMAINING it) in
  '(ret, write_count, m, rb, w, it) ← from_ring_loop fuel m rb w it atomic_size blocking 0 tot_rem;
  if negb (bool_decide (ret = E0)) then
    '(_, it) ← kioviter_goto it (u64 (init_off + write_count));
    Ok (ret, write_count, m, rb, w, it)
  else Ok (ret, write_count, m, rb, w, it).
End ring.

(** ** Lemmas *)

(** The bytes of the vector, as addresses in order, and their number. *)
Definition iov_addrs (iovs : list iovec) : list Z :=
  concat (map (λ v, seqZ (iov_base v) (iov_len v)) iovs).
Definition iov_total (iovs : list iovec) : Z := foldr (λ v s, iov_len v + s) 0 iovs.

Definition iovs_ok (iovs : list iovec) : Prop :=
  Forall (λ v, 0 ≤ iov_len v) iovs ∧ iov_total iovs < 2 ^ 64.

(** A valid position: inside an iovec, with the running total in step. *)
Definition it_wf (it : kioviter) : Prop :=
  iovs_ok (first_iov it) ∧ total_size it = iov_total (first_iov it) ∧
  ∃ v, first_iov it !! curr_iov it = Some v ∧ 0 ≤ curr_off it ≤ iov_len v ∧
    total_off it = iov_total (take (curr_iov it) (first_iov it)) + curr_off it.

Lemma iov_total_app xs ys : iov_total (xs ++ ys) = iov_total xs + iov_total ys.
Proof. induction xs as [|v xs IH]; simpl; [done|]. unfold iov_total in *. simpl. lia. Qed.

Lemma iov_total_nonneg iovs : Forall (λ v, 0 ≤ iov_len v) iovs → 0 ≤ iov_total iovs.
Proof. induction 1; simpl; lia. Qed.

Lemma iov_total_split iovs i v :
  iovs !! i = Some v →
  iov_total iovs = iov_total (take i iovs) + iov_len v + iov_total (drop (S i) iovs).
Proof.
  intros Hi. rewrite <- (take_drop_middle _ _ _ Hi) at 1. rewrite iov_total_app. simpl. lia.
Qed.

Lemma iov_total_take_S iovs i v :
  iovs !! i = Some v → iov_total (take (S i) iovs) = iov_total (take i iovs) + iov_len v.
Proof. intros Hi. rewrite (take_S_r _ _ _ Hi), iov_total_app. simpl. lia. Qed.

Lemma iov_rest_nonneg iovs i : iovs_ok iovs → 0 ≤ iov_total (drop i iovs) ∧ 0 ≤ iov_total (take i iovs).
Proof.
  intros [Hf _]. split; apply iov_total_nonneg; [by apply Forall_drop|by apply Forall_take].
Qed.

Lemma ioviter_size_loop_sum iovs s :
  Forall (λ v, 0 ≤ iov_len v) iovs → 0 ≤ s → s + iov_total iovs < 2 ^ 64 →
  ioviter_size_loop iovs s = s + iov_total iovs.
Proof.
  intros Hf. revert s; induction Hf as [|v iovs Hv Hf IH]; intros s Hs Hmax; simpl in *; [lia|].
  pose proof (iov_total_nonneg iovs Hf). unfold iov_total in *. rewrite wrap_small by lia.
  rewrite IH by lia. lia.
Qed.

(** The bounds a valid position satisfies. *)
Lemma it_wf_bounds it :
  it_wf it → 0 ≤ total_off it ≤ total_size it ∧ total_size it < 2 ^ 64 ∧
    KIOVITER_REMAINING it = total_size it - total_off it.
Proof.
  intros (Hok & Hts & v & Hv & Hc & Hto).
  pose proof (iov_total_split _ _ _ Hv). pose proof (iov_rest_nonneg _ (curr_iov it) Hok) as [_ ?].
  pose proof (iov_rest_nonneg _ (S (curr_iov it)) Hok) as [? _]. destruct Hok as [_ ?].
  split_and!; [lia..|]. apply wrap_small; lia.
Qed.

Lemma it_wf_curr it :
  it_wf it → ∃ v, first_iov it !! curr_iov it = Some v ∧ curr it = Ok v ∧
    0 ≤ curr_off it ≤ iov_len v ∧ iov_len v < 2 ^ 64 ∧
    KIOVITER_CURR_REMAINING it = Ok (iov_len v - curr_off it).
Proof.
  intros Hwf. pose proof (it_wf_bounds it Hwf) as (? & ? & _).
  destruct Hwf as (Hok & Hts & v & Hv & Hc & Hto). exists v.
  pose proof (iov_total_split _ _ _ Hv). pose proof (iov_rest_nonneg _ (curr_iov it) Hok) as [_ ?].
  pose proof (iov_rest_nonneg _ (S (curr_iov it)) Hok) as [? _].
  assert (curr it = Ok v) as Hcur by (unfold curr; by rewrite Hv).
  split_and!; [done|done|lia..|]. unfold KIOVITER_CURR_REMAINING. rewrite Hcur. mstep.
  by rewrite wrap_small by lia.
Qed.

(** Skipping moves by exactly the count, as far as there is something left;
    it leaves the current iovec once that is used up. *)
Lemma skip_loop_spec fuel it count :
  it_wf it → 0 ≤ count → (length (first_iov it) < fuel + curr_iov it)%nat →
  ∃ it', skip_loop fuel it count = Ok it' ∧ it_wf it' ∧ first_iov it' = first_iov it ∧
    total_size it' = total_size it ∧
    total_off it' = Z.min (total_off it + count) (total_size it) ∧
    (curr_iov it <= curr_iov it')%nat ∧
    (∀ v, first_iov it !! curr_iov it = Some v → iov_len v ≤ curr_off it + count →
      total_off it' < total_size it' → (curr_iov it < curr_iov it')%nat).
Proof.
  revert it count. induction fuel as [|fuel IH]; intros it count Hwf Hcnt Hf.
  { destruct Hwf as (_ & _ & v & Hv & _). apply lookup_lt_Some in Hv. lia. }
  pose proof (it_wf_bounds it Hwf) as (Hb & Hmax & _).
  destruct (it_wf_curr it Hwf) as (v & Hv & _ & Hco & Hlv & Hrem).
  simpl. rewrite Hrem. mstep. rewrite KMIN_min.
  set (n := Z.min (iov_len v - curr_off it) count).
  destruct Hwf as (Hok & Hts & v' & Hv' & _ & Hto). assert (v' = v) as -> by congruence.
  pose proof (iov_total_split _ _ _ Hv) as Hsp.
  pose proof (iov_rest_nonneg _ (curr_iov it) Hok) as [_ Hn1].
  pose proof (iov_rest_nonneg _ (S (curr_iov it)) Hok) as [Hn2 _].
  rewrite !wrap_small by lia. unfold KIOVITER_CURR_FINISHED, curr, KIOVITER_FINISHED.
  cbn [set_pos first_iov curr_iov curr_off total_off total_size]. rewrite Hv. mstep.
  set (it1 := if (_ =? iov_len v) && _ then set_pos _ _ _ _ else _).
  assert (Hit1 : it_wf it1 ∧ first_iov it1 = first_iov it ∧ total_size it1 = total_size it ∧
    total_off it1 = total_off it + n ∧
    ((curr_off it + n = iov_len v ∧ total_off it + n < total_size it ∧ curr_iov it1 = S (curr_iov it)) ∨
     ((curr_off it + n < iov_len v ∨ total_off it + n = total_size it) ∧ curr_iov it1 = curr_iov it))).
  { subst it1. destruct (Z.eqb_spec (curr_off it + n) (iov_len v)),
      (Z.eqb_spec (total_off it + n) (total_size it)); cbn -[iov_total];
      (split; [|split_and!; [done|done|done|lia]]); (split; [done|split; [done|]]); cbn -[iov_total];
      try (exists v; split_and!; [done|lia..]).
    destruct (lookup_lt_is_Some_2 (first_iov it) (S (curr_iov it))) as [v2 Hv2].
    { destruct (decide (S (curr_iov it) < length (first_iov it))%nat); [done|].
      rewrite drop_ge in Hsp by lia. simpl in Hsp. lia. }
    exists v2. split; [done|]. rewrite (iov_total_take_S _ _ _ Hv).
    destruct Hok as [Hok _]. rewrite Forall_lookup in Hok. specialize (Hok _ _ Hv2). cbn in Hok. lia. }
  destruct Hit1 as (Hwf1 & Hf1 & Hts1 & Hto1 & Hcase). clearbody it1.
  rewrite Hts1, Hto1.
  destruct (Z.eqb_spec (count - n) 0) as [Hz|Hz]; cbn [negb andb].
  { exists it1. split_and!; [done|done|done|done|lia|lia|]. intros ? ? ?. simplify_eq. lia. }
  destruct (Z.eqb_spec (total_off it + n) (total_size it)) as [He|He]; cbn [negb].
  { exists it1. split_and!; [done|done|done|done|lia|lia|]. intros ? ? ?. simplify_eq. lia. }
  destruct (IH it1 (count - n)) as (it' & -> & Hwf' & Hf' & Hts' & Hto' & Hle & _);
    [done|lia|rewrite Hf1; lia|].
  exists it'. split_and!; [done|done|congruence|lia|lia|lia|]. intros; lia.
Qed.

Lemma kioviter_skip_ok it count :
  it_wf it → 0 ≤ count →
  ∃ it', kioviter_skip it count = Ok (total_size it - total_off it', it') ∧
    it_wf it' ∧ first_iov it' = first_iov it ∧
    total_size it' = total_size it ∧
    total_off it' = Z.min (total_off it + count) (total_size it) ∧
    (curr_iov it <= curr_iov it')%nat ∧
    (∀ v, first_iov it !! curr_iov it = Some v → iov_len v ≤ curr_off it + count →
      total_off it' < total_size it' → (curr_iov it < curr_iov it')%nat).
Proof.
  intros Hwf Hc. destruct (skip_loop_spec (S (length (first_iov it))) it count Hwf Hc)
    as (it' & Hs & Hrest); [lia|].
  exists it'. split; [|done]. unfold kioviter_skip. rewrite Hs. mstep.
  destruct Hrest as (Hwf' & _ & Hts & _). destruct (it_wf_bounds it' Hwf') as (_ & _ & ->).
  by rewrite Hts.
Qed.

(** The address of the byte [i] further on in the current iovec. *)
Lemma addr_at it v i :
  it_wf it → first_iov it !! curr_iov it = Some v → 0 ≤ i < iov_len v - curr_off it →
  iov_addrs (first_iov it) !! Z.to_nat (total_off it + i) = Some (iov_base v + curr_off it + i).
Proof.
  intros (Hok & _ & v' & Hv' & Hc & Hto) Hv Hi. assert (v' = v) as -> by congruence.
  assert (Hlen : ∀ l, Forall (λ v, 0 ≤ iov_len v) l → Z.of_nat (length (iov_addrs l)) = iov_total l).
  { induction 1; [done|]. unfold iov_addrs, iov_total in *. simpl. rewrite length_app, length_seqZ. lia. }
  rewrite <- (take_drop_middle _ _ _ Hv) at 1. unfold iov_addrs in *.
  rewrite map_app, concat_app. simpl.
  pose proof (iov_rest_nonneg _ (curr_iov it) Hok) as [_ ?].
  destruct Hok as [Hok _]. pose proof (Hlen _ (Forall_take _ (curr_iov it) _ Hok)) as Hl.
  rewrite lookup_app_r by lia. rewrite lookup_app_l by (rewrite length_seqZ; lia).
  rewrite lookup_seqZ_lt by lia. f_equal. lia.
Qed.

Lemma length_iov_addrs iovs : iovs_ok iovs → Z.of_nat (length (iov_addrs iovs)) = iov_total iovs.
Proof.
  intros [H _]. induction H; [done|]. unfold iov_addrs, iov_total in *. simpl.
  rewrite length_app, length_seqZ. lia.
Qed.

(** The loop of the copies, with an invariant on the bytes done and the
    memory: it ends, having moved the iterator by the size of the transfer. *)
Section transfer_lemmas.
Variables (copy : iovec → Z → Z → Z → mem → mem) (iovs : list iovec) (off0 N : Z).
Variable Inv : Z → mem → Prop.
Hypothesis Hstep : ∀ it v cnt n m,
  it_wf it → first_iov it = iovs → iovs !! curr_iov it = Some v → total_off it = off0 + cnt →
  0 ≤ cnt → 0 ≤ n ≤ iov_len v - curr_off it → cnt + n ≤ N → Inv cnt m →
  Inv (cnt + n) (copy v (curr_off it) cnt n m).

Lemma transfer_loop_spec fuel it cnt rem m :
  rem = N - cnt → it_wf it → first_iov it = iovs → total_off it = off0 + cnt → 0 ≤ cnt ≤ N →
  0 ≤ off0 → off0 + N ≤ total_size it →
  (length iovs < fuel + curr_iov it)%nat → Inv cnt m →
  ∃ it' m', transfer_loop copy fuel it cnt rem m = Ok (N, it', m') ∧
    it_wf it' ∧ first_iov it' = iovs ∧ total_off it' = off0 + N ∧ Inv N m'.
Proof.
  intros ->. revert it cnt m. induction fuel as [|fuel IH]; intros it cnt m Hwf Hi Ht Hc Ho HN Hf HI.
  { destruct Hwf as (_ & _ & v & Hv & _). apply lookup_lt_Some in Hv. rewrite Hi in Hv. lia. }
  pose proof (it_wf_bounds it Hwf) as (Hb & Hmax & _).
  destruct (it_wf_curr it Hwf) as (v & Hv & Hcur & Hco & Hlv & Hrem).
  cbn [transfer_loop]. rewrite Hrem, Hcur. mstep. rewrite KMIN_min.
  set (n := Z.min (iov_len v - curr_off it) (N - cnt)).
  destruct (kioviter_skip_ok it n Hwf) as (it1 & -> & Hwf1 & Hf1 & Hs1 & Ht1 & Hle & Hlt); [lia|].
  mstep. rewrite wrap_small by lia.
  assert (HI1 : Inv (cnt + n) (copy v (curr_off it) cnt n m))
    by (apply Hstep; [done|done|by rewrite <- Hi|lia..|done]).
  assert (Ht1' : total_off it1 = off0 + (cnt + n)) by lia. clear Ht1.
  replace (N - cnt - n) with (N - (cnt + n)) by lia.
  destruct (Z.eqb_spec (N - (cnt + n)) 0) as [Hz|Hz]; cbn [negb andb].
  { exists it1, (copy v (curr_off it) cnt n m). replace N with (cnt + n) by lia.
    split_and!; (done || congruence). }
  unfold KIOVITER_FINISHED. destruct (Z.eqb_spec (total_off it1) (total_size it1)); [lia|]. cbn [negb].
  specialize (Hlt v Hv ltac:(lia) ltac:(lia)).
  apply IH; [done|congruence|lia..|done].
Qed.
End transfer_lemmas.

(** Everything the copy of one piece needs to know about addresses. *)
Lemma piece_addr it v off0 cnt j :
  it_wf it → first_iov it !! curr_iov it = Some v → total_off it = off0 + cnt →
  0 ≤ j < iov_len v - curr_off it →
  bget (iov_addrs (first_iov it)) (off0 + cnt + j) = iov_base v + curr_off it + j ∧
  iov_base v + curr_off it + j ∈ iov_addrs (first_iov it).
Proof.
  intros Hwf Hv Ht Hj. pose proof (addr_at it v j Hwf Hv Hj) as Ha. unfold bget. rewrite <- Ht, Ha.
  split; [done|]. by eapply list_elem_of_lookup_2.
Qed.

(** A block that none of the vector's bytes lies in. *)
Definition iov_apart (iovs : list iovec) (buf n : Z) : Prop :=
  ∀ a, a ∈ iov_addrs iovs → ¬ (buf ≤ a < buf + n).

Lemma read_copy_step buf iovs off0 N m0 it v cnt n m :
  iov_apart iovs buf N →
  it_wf it → first_iov it = iovs → iovs !! curr_iov it = Some v → total_off it = off0 + cnt →
  0 ≤ cnt → 0 ≤ n ≤ iov_len v - curr_off it → cnt + n ≤ N →
  (∀ a, m a = if in_range a buf cnt then m0 (bget (iov_addrs iovs) (off0 + (a - buf))) else m0 a) →
  ∀ a, read_copy buf v (curr_off it) cnt n m a =
    if in_range a buf (cnt + n) then m0 (bget (iov_addrs iovs) (off0 + (a - buf))) else m0 a.
Proof.
  intros Hap Hwf <- Hv Ht Hc Hn HN Hm a.
  assert (Hp : ∀ j, 0 ≤ j < n → ¬ (buf ≤ iov_base v + curr_off it + j < buf + N)).
  { intros j Hj. destruct (piece_addr it v off0 cnt j) as [_ Hin]; [done|done|done|lia|]. by apply Hap. }
  unfold read_copy. rewrite kmemcpy_lookup; [|lia|].
  2:{ destruct (decide (n = 0)); [lia|]. pose proof (Hp 0 ltac:(lia)).
      destruct (decide (buf + cnt ≤ iov_base v + curr_off it)); [lia|].
      destruct (decide (iov_base v + curr_off it + n ≤ buf + cnt)); [lia|].
      specialize (Hp (buf + cnt - (iov_base v + curr_off it))). lia. }
  destruct (in_range_spec a (buf + cnt) n), (in_range_spec a buf (cnt + n)); try lia.
  - rewrite Hm. destruct (in_range_spec (iov_base v + curr_off it + (a - (buf + cnt))) buf cnt).
    + specialize (Hp (a - (buf + cnt))). lia.
    + destruct (piece_addr it v off0 cnt (a - (buf + cnt))) as [<- _]; [done|done|done|lia|].
      do 2 f_equal. lia.
  - rewrite Hm. destruct (in_range_spec a buf cnt); [done|lia].
  - rewrite Hm. destruct (in_range_spec a buf cnt); [lia|done].
Qed.

(** The scatter invariant: the first [cnt] bytes of the vector (from [off0])
    hold the buffer's, and nothing else has changed. *)
Definition scattered (addrs : list Z) (off0 buf cnt : Z) (m0 m : mem) : Prop :=
  (∀ i, 0 ≤ i < cnt → m (bget addrs (off0 + i)) = m0 (buf + i)) ∧
  (∀ a, (∀ i, 0 ≤ i < cnt → a ≠ bget addrs (off0 + i)) → m a = m0 a).

Lemma bget_inj (l : list Z) i j :
  NoDup l → 0 ≤ i < Z.of_nat (length l) → 0 ≤ j < Z.of_nat (length l) → bget l i = bget l j → i = j.
Proof.
  intros Hnd Hi Hj. unfold bget.
  destruct (lookup_lt_is_Some_2 l (Z.to_nat i)) as [x Hx]; [lia|].
  destruct (lookup_lt_is_Some_2 l (Z.to_nat j)) as [y Hy]; [lia|].
  rewrite Hx, Hy. simpl. intros ->. pose proof (NoDup_lookup _ _ _ _ Hnd Hx Hy). lia.
Qed.

Lemma write_copy_step buf iovs off0 N m0 it v cnt n m :
  iov_apart iovs buf N → NoDup (iov_addrs iovs) → 0 ≤ off0 → off0 + N ≤ iov_total iovs →
  it_wf it → first_iov it = iovs → iovs !! curr_iov it = Some v → total_off it = off0 + cnt →
  0 ≤ cnt → 0 ≤ n ≤ iov_len v - curr_off it → cnt + n ≤ N →
  scattered (iov_addrs iovs) off0 buf cnt m0 m →
  scattered (iov_addrs iovs) off0 buf (cnt + n) m0 (write_copy buf v (curr_off it) cnt n m).
Proof.
  intros Hap Hnd Hoff HNT Hwf Hi Hv Ht Hc Hn HN [Hin Hout].
  assert (Hlen : Z.of_nat (length (iov_addrs iovs)) = iov_total iovs)
    by (apply length_iov_addrs; rewrite <- Hi; apply Hwf).
  set (p := iov_base v + curr_off it).
  assert (Hp : ∀ j, 0 ≤ j < n → bget (iov_addrs iovs) (off0 + cnt + j) = p + j ∧
                               ¬ (buf ≤ p + j < buf + N)).
  { intros j Hj. subst iovs. destruct (piece_addr it v off0 cnt j) as [Hq Hq']; [done|done|done|lia|].
    split; [done|]. by apply Hap. }
  assert (Hlk : ∀ a, write_copy buf v (curr_off it) cnt n m a =
                     if in_range a p n then m (buf + cnt + (a - p)) else m a).
  { intros a. unfold write_copy. fold p. apply kmemcpy_lookup; [lia|].
    destruct (decide (n = 0)); [lia|]. destruct (decide (p ≤ buf + cnt)); [lia|].
    destruct (decide (buf + cnt + n ≤ p)); [lia|]. destruct (Hp 0); lia. }
  (* the source bytes not yet copied are still the original ones *)
  assert (Hsrc : ∀ i, cnt ≤ i < cnt + n → m (buf + i) = m0 (buf + i)).
  { intros i Hii. apply Hout. intros k Hk Heq. apply (Hap (bget (iov_addrs iovs) (off0 + k))).
    - unfold bget. destruct (lookup_lt_is_Some_2 (iov_addrs iovs) (Z.to_nat (off0 + k))) as [x Hx]; [lia|].
      rewrite Hx. by eapply list_elem_of_lookup_2.
    - lia. }
  split.
  - intros i Hii. rewrite Hlk. destruct (decide (i < cnt)).
    + destruct (in_range_spec (bget (iov_addrs iovs) (off0 + i)) p n) as [Hr|]; [|apply Hin; lia].
      destruct (Hp (bget (iov_addrs iovs) (off0 + i) - p)) as [Hq _]; [lia|].
      apply (bget_inj (iov_addrs iovs) (off0 + cnt + (bget (iov_addrs iovs) (off0 + i) - p)) (off0 + i))
        in Hnd; lia.
    + destruct (Hp (i - cnt)) as [Hq _]; [lia|]. replace (off0 + cnt + (i - cnt)) with (off0 + i) in Hq by lia.
      rewrite Hq. destruct (in_range_spec (p + (i - cnt)) p n); [|lia].
      rewrite <- Hsrc by lia. f_equal. lia.
  - intros a Ha. rewrite Hlk. destruct (in_range_spec a p n) as [Hr|].
    + exfalso. destruct (Hp (a - p)) as [Hq _]; [lia|]. apply (Ha (cnt + (a - p))); [lia|].
      rewrite Z.add_assoc. lia.
    + apply Hout. intros; apply Ha; lia.
Qed.

(** ** Properties *)

(** [kioviter_goto] reaches every position of the vector, from every other,
    forwards or backwards, and returns how much is left from there. *)
Theorem kioviter_goto_position it off :
  it_wf it → 0 ≤ off ≤ total_size it →
  ∃ it', kioviter_goto it off = Ok (total_size it - off, it') ∧ it_wf it' ∧
    first_iov it' = first_iov it ∧ total_off it' = off ∧ total_size it' = total_size it.
Proof.
  intros Hwf Hoff. pose proof (it_wf_bounds it Hwf) as (Hb & _). unfold kioviter_goto.
  destruct (Z.ltb_spec (total_off it) off).
  - destruct (kioviter_skip_ok it (off - total_off it) Hwf) as (it' & -> & Hwf' & Hf & Hs & Ht & _); [lia|].
    exists it'. replace off with (total_off it') by lia. by rewrite Hs.
  - assert (Hwf0 : it_wf (set_pos it 0 0 0)).
    { destruct Hwf as (Hok & Hts & v & Hv & _). split; [done|]. split; [done|].
      destruct (lookup_lt_is_Some_2 (first_iov it) 0) as [v0 Hv0]; [apply lookup_lt_Some in Hv; lia|].
      exists v0. cbn. split_and!; [done|lia| |done].
      destruct Hok as [Hok _]. rewrite Forall_lookup in Hok. by apply (Hok 0%nat). }
    destruct (kioviter_skip_ok _ off Hwf0) as (it' & -> & Hwf' & Hf & Hs & Ht & _); [lia|].
    cbn in Ht, Hs, Hf. exists it'. replace (total_off it') with off in * by lia. done.
Qed.

(** Gathering: [kioviter_read] copies the next bytes of the vector, in
    order, to a buffer apart from it, as many as asked for or as are left,
    and moves the iterator past them. *)
Theorem kioviter_read_gathers buf buflen it m :
  it_wf it → 0 ≤ buflen → iov_apart (first_iov it) buf buflen →
  let N := Z.min buflen (total_size it - total_off it) in
  ∃ it' m', kioviter_read buf buflen it m = Ok (N, it', m') ∧ it_wf it' ∧
    total_off it' = total_off it + N ∧
    ∀ a, m' a = if in_range a buf N
                then m (bget (iov_addrs (first_iov it)) (total_off it + (a - buf))) else m a.
Proof.
  intros Hwf Hb Hap N. pose proof (it_wf_bounds it Hwf) as (Hbd & _ & Hrem).
  assert (HapN : iov_apart (first_iov it) buf N) by (intros a' Ha' ?; apply (Hap a' Ha'); lia).
  unfold kioviter_read. rewrite Hrem, KMIN_min. fold N.
  destruct (transfer_loop_spec (read_copy buf) (first_iov it) (total_off it) N
    (λ cnt m', ∀ a, m' a = if in_range a buf cnt
       then m (bget (iov_addrs (first_iov it)) (total_off it + (a - buf))) else m a))
    with (fuel := S (length (first_iov it))) (it := it) (cnt := 0) (rem := N) (m := m)
    as (it' & m' & -> & Hwf' & _ & Ht & Hm); [|lia|done|done|lia..| |by exists it', m'].
  - intros it2 v2 cnt n m2 ? ? ? ? ? ? ? ?. eapply read_copy_step; eauto.
  - intros a. destruct (in_range_spec a buf 0); [lia|done].
Qed.

(** Scattering: [kioviter_write] spreads a buffer apart from the vector over
    its next bytes, in order, and changes nothing else. *)
Theorem kioviter_write_scatters it buf buflen m :
  it_wf it → 0 ≤ buflen → iov_apart (first_iov it) buf buflen → NoDup (iov_addrs (first_iov it)) →
  let N := Z.min buflen (total_size it - total_off it) in
  ∃ it' m', kioviter_write it buf buflen m = Ok (N, it', m') ∧ it_wf it' ∧
    total_off it' = total_off it + N ∧
    scattered (iov_addrs (first_iov it)) (total_off it) buf N m m'.
Proof.
  intros Hwf Hb Hap Hnd N. pose proof (it_wf_bounds it Hwf) as (Hbd & _ & Hrem).
  assert (Hts : total_size it = iov_total (first_iov it)) by apply Hwf.
  assert (HapN : iov_apart (first_iov it) buf N) by (intros a' Ha' ?; apply (Hap a' Ha'); lia).
  unfold kioviter_write. rewrite Hrem, KMIN_min. fold N.
  destruct (transfer_loop_spec (write_copy buf) (first_iov it) (total_off it) N
    (λ cnt m', scattered (iov_addrs (first_iov it)) (total_off it) buf cnt m m'))
    with (fuel := S (length (first_iov it))) (it := it) (cnt := 0) (rem := N) (m := m)
    as (it' & m' & -> & Hwf' & _ & Ht & Hm); [|lia|done|done|lia..| |by exists it', m'].
  - intros it2 v2 cnt n m2 ? ? ? ? ? ? ? ?. eapply write_copy_step; eauto; lia.
  - split; [lia|done].
Qed.

(** [kioviter_memset] fills as many bytes as it was asked to clear in total
    from every iovec it comes to: already the first fill runs over the end of
    an iovec shorter than the request. *)
Theorem kioviter_memset_overruns it v value len m :
  it_wf it → first_iov it !! curr_iov it = Some v →
  0 < iov_len v - curr_off it < len → len ≤ total_size it - total_off it →
  ∃ it' m', kioviter_memset it value len m = Ok (len, it', m') ∧
    ∀ a, iov_base v + curr_off it ≤ a < iov_base v + curr_off it + len → m' a = value.
Proof.
  intros Hwf Hv Hlen Htot. pose proof (it_wf_bounds it Hwf) as (Hb & Hmax & Hrem).
  unfold kioviter_memset. rewrite Hrem, KMIN_min, Z.min_l by lia.
  set (p := iov_base v + curr_off it).
  destruct (it_wf_curr it Hwf) as (v' & Hv' & Hcur & Hco & Hlv & Hcr). assert (v' = v) as -> by congruence.
  cbn [transfer_loop]. rewrite Hcr, Hcur. mstep. rewrite KMIN_min, Z.min_l by lia.
  destruct (kioviter_skip_ok it (iov_len v - curr_off it) Hwf) as (it1 & -> & Hwf1 & Hf1 & Hs1 & Ht1 & _ & Hlt);
    [lia|]. mstep. specialize (Hlt v Hv ltac:(lia)).
  destruct (Z.eqb_spec (len - (iov_len v - curr_off it)) 0); [lia|]. unfold KIOVITER_FINISHED.
  destruct (Z.eqb_spec (total_off it1) (total_size it1)); [lia|]. cbn [negb andb].
  rewrite wrap_small by lia. rewrite Z.add_0_l.
  destruct (transfer_loop_spec (memset_copy value len) (first_iov it) (total_off it) len
    (λ _ m', ∀ a, p ≤ a < p + len → m' a = value))
    with (fuel := length (first_iov it)) (it := it1) (cnt := iov_len v - curr_off it)
      (rem := len - (iov_len v - curr_off it))
      (m := memset_copy value len v (curr_off it) 0 (iov_len v - curr_off it) m)
    as (it' & m' & -> & _ & _ & _ & Hm); [|lia|done|done|lia..| |by exists it', m'].
  - intros it2 v2 cnt n2 m2 _ _ _ _ _ _ _ Hm2 a Ha. unfold memset_copy.
    rewrite kmemset_lookup by lia. destruct (in_range_spec a (iov_base v2 + curr_off it2) len); [done|by apply Hm2].
  - intros a Ha. unfold memset_copy. fold p. rewrite kmemset_lookup by lia.
    destruct (in_range_spec a p len); [done|lia].
Qed.

(** A transfer to a ring that fails at once, with nothing moved, does not
    leave the iterator where it was: it takes the offset in the current iovec
    for the offset in the vector. *)
Theorem read_to_ringbuffer_error_rewinds {W} (K : rbkern W) fuel m rb w atomic blocking it v nbytes
    ret n rb' w' :
  it_wf it → first_iov it !! curr_iov it = Some v → 0 ≤ nbytes → ret ≠ E0 →
  kringbuffer_write_nolock K (S fuel) m rb w (iov_base v + curr_off it)
    (Z.min (iov_len v - curr_off it) (Z.min nbytes (total_size it - total_off it))) atomic blocking
    = Ok (ret, n, rb', w') →
  ∃ it', kioviter_read_to_ringbuffer_nolock K (S fuel) m rb w atomic blocking it nbytes =
      Ok (ret, 0, rb', w', it') ∧ total_off it' = curr_off it.
Proof.
  intros Hwf Hv Hnb Hret Hw. pose proof (it_wf_bounds it Hwf) as (Hb & Hmax & Hrem).
  destruct (it_wf_curr it Hwf) as (v' & Hv' & Hcur & Hco & Hlv & Hcr). assert (v' = v) as -> by congruence.
  unfold kioviter_read_to_ringbuffer_nolock. cbn [to_ring_loop].
  rewrite Hrem, Hcr, Hcur. mstep. rewrite !KMIN_min, Hw. mstep.
  rewrite bool_decide_false by done. cbn [negb]. mstep. rewrite bool_decide_false by done. cbn [negb].
  rewrite Z.add_0_r, wrap_small by lia.
  assert (0 ≤ curr_off it ≤ total_size it).
  { destruct Hwf as (Hok & Hts & v' & _ & Hc & Hto). pose proof (iov_rest_nonneg _ (curr_iov it) Hok). lia. }
  destruct (kioviter_goto_position it (curr_off it) Hwf) as (it' & -> & _ & _ & Ht & _); [lia|].
  by exists it'.
Qed.

(** ** Witnesses *)
Definition demo_it : kioviter := kioviter_init [mkIov 100 3; mkIov 300 2].

(** One byte into the second iovec. *)
Definition demo_it4 : kioviter := set_pos demo_it 1 1 4.

Lemma demo_iovs_ok : iovs_ok [mkIov 100 3; mkIov 300 2].
Proof. split; [repeat constructor; done|done]. Qed.

Lemma demo_it_wf : it_wf demo_it.
Proof. split; [exact demo_iovs_ok|]. split; [done|]. by exists (mkIov 100 3). Qed.

Lemma demo_it4_wf : it_wf demo_it4.
Proof. split; [exact demo_iovs_ok|]. split; [done|]. by exists (mkIov 300 2). Qed.

Lemma demo_addrs : iov_addrs (first_iov demo_it) = [100; 101; 102; 300; 301].
Proof. done. Qed.

Lemma demo_apart : iov_apart (first_iov demo_it) 200 5.
Proof.
  intros a. rewrite demo_addrs. intros Ha.
  repeat (apply elem_of_cons in Ha as [-> | Ha]; [lia|]). by apply not_elem_of_nil in Ha.
Qed.

Lemma demo_nodup : NoDup (iov_addrs (first_iov demo_it)).
Proof. apply (bool_decide_eq_true_1 _). by vm_compute. Qed.

Lemma kioviter_goto_position_witness :
  ∃ it', kioviter_goto demo_it4 1 = Ok (4, it') ∧ it_wf it' ∧
    first_iov it' = first_iov demo_it ∧ total_off it' = 1 ∧ total_size it' = 5.
Proof. exact (kioviter_goto_position demo_it4 1 demo_it4_wf ltac:(vm_compute; (done || (split; done)))). Defined.

Lemma kioviter_read_gathers_witness :
  ∃ it' m', kioviter_read 200 5 demo_it abc_mem = Ok (5, it', m') ∧ it_wf it' ∧ total_off it' = 5 ∧
    ∀ a, m' a = if in_range a 200 5
                then abc_mem (bget [100; 101; 102; 300; 301] (0 + (a - 200))) else abc_mem a.
Proof. exact (kioviter_read_gathers 200 5 demo_it abc_mem demo_it_wf ltac:(lia) demo_apart). Defined.

Lemma kioviter_write_scatters_witness :
  ∃ it' m', kioviter_write demo_it 200 5 abc_mem = Ok (5, it', m') ∧ it_wf it' ∧ total_off it' = 5 ∧
    scattered [100; 101; 102; 300; 301] 0 200 5 abc_mem m'.
Proof. exact (kioviter_write_scatters demo_it 200 5 abc_mem demo_it_wf ltac:(lia) demo_apart demo_nodup). Defined.

Lemma kioviter_memset_overruns_witness :
  ∃ it' m', kioviter_memset demo_it 7 5 abc_mem = Ok (5, it', m') ∧
    ∀ a, 100 ≤ a < 105 → m' a = 7.
Proof.
  exact (kioviter_memset_overruns demo_it (mkIov 100 3) 7 5 abc_mem demo_it_wf eq_refl
    ltac:(vm_compute; (done || (split; done))) ltac:(vm_compute; (done || (split; done)))).
Defined.

(** A full four-byte ring refuses a nonblocking write; the iterator, four
    bytes into the vector, ends up at its second byte. *)
Definition demo_full_rb : kringbuffer := mkRb [0; 0; 0; 0] 4 4 0 false.

Lemma read_to_ringbuffer_error_rewinds_witness :
  ∃ it', kioviter_read_to_ringbuffer_nolock demo_kern 1 abc_mem demo_full_rb [] 1 false demo_it4 1 =
      Ok (EAGAIN, 0, demo_full_rb, [], it') ∧ total_off it' = 1.
Proof.
  exact (read_to_ringbuffer_error_rewinds demo_kern 0 abc_mem demo_full_rb [] 1 false demo_it4
    (mkIov 300 2) 1 EAGAIN 1 demo_full_rb [] demo_it4_wf eq_refl ltac:(lia) ltac:(done) eq_refl).
Defined.
