(* ===== verification/Pmm.v ===== *)
(** * The physical memory manager of src/com/mm/pmm.c

    The free list of page blocks, the array of page metadata, the statistics
    and every operation of the interface, boot-time initialisation included.
    A [struct freelist_entry] lives at the start of the block it describes;
    here it is a pair of the block's (higher-half) address and its [pages]
    field, and the TAILQ is a list. What the pages hold beyond such a header
    is not part of this state: [kmemset] on block contents and the clearing
    of the header of an allocated block are left out. The free list's lock is
    held around each list operation and is left out too. *)
From Stdlib Require Import Sorting.Sorted.
From S2P Require Import Prelude PageTree.

(** ** The free list *)
Record freelist_entry : Type := mkFe { fe_addr : Z; fe_pages : Z }.
Abbreviation freelist := (list freelist_entry).

#[export] Instance freelist_entry_eq_dec : EqDecision freelist_entry.
Proof. solve_decision. Defined.

(** [TAILQ_REMOVE]: unlinks the entry at an address. On an entry that is not
    linked any more but was first in the list, the macro stores the links
    that are there already. *)
Definition TAILQ_REMOVE (fl : freelist) (a : Z) : freelist :=
  filter (λ e, fe_addr e ≠ a) fl.

(** The search loop of [freelist_add_ordered_nolock], with its fallback. *)
Fixpoint insert_ordered (fl : freelist) (e : freelist_entry) : freelist :=
  match fl with
  | [] => [e]
  | c :: rest => if fe_pages c <=? fe_pages e then e :: fl else c :: insert_ordered rest e
  end.

(** [curr_last->pages++] and the like, on the last entry. *)
Definition set_last_pages (fl : freelist) (n : Z) : freelist :=
  match last fl with
  | None => fl
  | Some l => removelast fl ++ [mkFe (fe_addr l) n]
  end.

Definition freelist_add_ordered_nolock (fl : freelist) (e : freelist_entry) : freelist :=
  if 1 =? fe_pages e then
    match last fl with
    | None => fl ++ [e]
    | Some curr_last =>
        if fe_addr e =? u64 (fe_addr curr_last + fe_pages curr_last * ARCH_PAGE_SIZE)
        then set_last_pages fl (u64 (fe_pages curr_last + 1))
        else if fe_addr curr_last =? u64 (fe_addr e + ARCH_PAGE_SIZE)
        then removelast fl ++ [mkFe (fe_addr e) (u64 (fe_pages e + fe_pages curr_last))]
        else fl ++ [e]
    end
  else insert_ordered fl e.

(** The loop of [freelist_add_merged_nolock]: the list with the entry merged
    into one of its blocks, if it borders on one. The last page of [curr] is
    computed from [entry->pages], as the code has it. *)
Fixpoint merge_loop (fl : freelist) (e : freelist_entry) : option freelist :=
  let entry_first_page := fe_addr e in
  let entry_last_page := u64 (entry_first_page + (fe_pages e - 1) * ARCH_PAGE_SIZE) in
  match fl with
  | [] => None
  | c :: rest =>
      let curr_first_page := fe_addr c in
      let curr_last_page := u64 (curr_first_page + (fe_pages e - 1) * ARCH_PAGE_SIZE) in
      if curr_first_page =? u64 (entry_last_page + ARCH_PAGE_SIZE)
      then Some (mkFe (fe_addr e) (u64 (fe_pages e + fe_pages c)) :: rest)
      else if curr_last_page =? u64 (entry_first_page - ARCH_PAGE_SIZE)
      then Some (mkFe (fe_addr c) (u64 (fe_pages c + fe_pages e)) :: rest)
      else option_map (cons c) (merge_loop rest e)
  end.

Definition freelist_add_merged_nolock (fl : freelist) (e : freelist_entry) : freelist :=
  match merge_loop fl e with
  | Some fl => fl
  | None => freelist_add_ordered_nolock fl e
  end.

(** Returns the address of the page taken. *)
Definition freelist_pop_rear_nolock (fl : freelist) : res (Z * freelist) :=
  match last fl with
  | None => Panic
  | Some l =>
      if 1 =? fe_pages l then Ok (fe_addr l, removelast fl)
      else
        let pages := u64 (fe_pages l - 1) in
        Ok (u64 (fe_addr l + ARCH_PAGE_SIZE * pages), set_last_pages fl pages)
  end.

(** Returns the address and size of the block taken. *)
Definition freelist_pop_front_nolock (fl : freelist) (num_pages : Z) : res (Z * Z * freelist) :=
  match fl with
  | [] => Panic
  | ret :: rest =>
      let alloc_size := KMIN num_pages (fe_pages ret) in
      let '(addr, entry, fl) :=
        if alloc_size =? fe_pages ret then (fe_addr ret, ret, rest)
        else
          let pages := u64 (fe_pages ret - alloc_size) in
          let entry := mkFe (fe_addr ret) pages in
          (u64 (fe_addr ret + ARCH_PAGE_SIZE * pages), entry, entry :: rest) in
      let fl :=
        match rest with
        | next_entry :: _ =>
            if fe_pages entry <? fe_pages next_entry
            then freelist_add_ordered_nolock (TAILQ_REMOVE fl (fe_addr entry)) entry
            else fl
        | [] => fl
        end in
      Ok (addr, alloc_size, fl)
  end.

(** ** Page metadata *)
Inductive page_state : Type := E_PAGE_STATE_FREE | E_PAGE_STATE_RESERVED | E_PAGE_STATE_TAKEN.
Inductive page_type : Type := E_PAGE_TYPE_ANONYMOUS | E_PAGE_TYPE_FILE.
#[export] Instance page_state_eq_dec : EqDecision page_state.
Proof. solve_decision. Defined.

Record page_meta : Type := mkMeta { pm_state : page_state; pm_num_ref : Z; pm_type : page_type }.

(** All zeroes, as memory is on boot. *)
Definition meta_zero : page_meta := mkMeta E_PAGE_STATE_FREE 0 E_PAGE_TYPE_ANONYMOUS.
(** [sizeof(struct page_meta)]: two enums and a [size_t], with padding. *)
Definition sizeof_page_meta : Z := 24.

(** [struct page_meta_array]; entries never written are zero. *)
Record page_meta_array : Type := mkPma {
  pma_buffer : option Z;
  pma_entries : gmap Z page_meta;
  pma_len : Z;
  pma_reserved_start : Z;
  pma_extended_len : Z;
  pma_fake_entry : page_meta
}.

Record com_pmm_stats : Type := mkStats {
  st_total : Z; st_usable : Z; st_reserved : Z; st_free : Z; st_used : Z
}.

(** [MainFreeList], [PageMeta] and [MemoryStats]. *)
Record pmm : Type := mkPmm {
  MainFreeList : freelist;
  PageMeta : page_meta_array;
  MemoryStats : com_pmm_stats
}.

Definition PHYS_TO_META_INDEX (page_phys : Z) : Z := page_phys / ARCH_PAGE_SIZE.
Definition PAGE_META_ARRAY_LEN (memsize : Z) : Z := memsize / ARCH_PAGE_SIZE.
Definition PAGE_META_ARRAY_SIZE (memsize : Z) : Z :=
  u64 (PAGE_META_ARRAY_LEN memsize * sizeof_page_meta).

(** A pointer to an entry of the array, or to the imaginary entry. *)
Inductive meta_ptr : Type := MetaBuf (index : Z) | MetaFake.

Definition page_meta_get (pm : page_meta_array) (phys_addr : Z) : res meta_ptr :=
  let index := PHYS_TO_META_INDEX phys_addr in
  KASSERT (index <? pma_extended_len pm);;
  Ok (if index <? pma_reserved_start pm then MetaBuf index else MetaFake).

Definition meta_rd (pm : page_meta_array) (p : meta_ptr) : page_meta :=
  match p with
  | MetaBuf i => default meta_zero (pma_entries pm !! i)
  | MetaFake => pma_fake_entry pm
  end.

Definition meta_wr (pm : page_meta_array) (p : meta_ptr) (v : page_meta) : page_meta_array :=
  match p with
  | MetaBuf i => mkPma (pma_buffer pm) (<[i := v]> (pma_entries pm)) (pma_len pm)
                   (pma_reserved_start pm) (pma_extended_len pm) (pma_fake_entry pm)
  | MetaFake => mkPma (pma_buffer pm) (pma_entries pm) (pma_len pm)
                  (pma_reserved_start pm) (pma_extended_len pm) v
  end.

(** Stores [v] in [n] consecutive entries; past the end of the array, or past
    the imaginary entry, is a fault. *)
Fixpoint meta_fill (n : nat) (i : Z) (v : page_meta) (m : gmap Z page_meta) : gmap Z page_meta :=
  match n with O => m | S n => meta_fill n (i + 1) v (<[i := v]> m) end.

Definition meta_wr_many (pm : page_meta_array) (p : meta_ptr) (v : page_meta) (n : Z)
    : res page_meta_array :=
  match p with
  | MetaBuf i =>
      if i + n <=? pma_len pm
      then Ok (mkPma (pma_buffer pm) (meta_fill (Z.to_nat n) i v (pma_entries pm)) (pma_len pm)
                 (pma_reserved_start pm) (pma_extended_len pm) (pma_fake_entry pm))
      else Fault
  | MetaFake => if n =? 0 then Ok pm else if n =? 1 then Ok (meta_wr pm p v) else Fault
  end.

Definition page_meta_set (pm : page_meta_array) (page_phys : Z) (tocopy : page_meta) (num_pages : Z)
    : res page_meta_array :=
  let end_addr := u64 (page_phys + num_pages * ARCH_PAGE_SIZE) in
  let index1 := PHYS_TO_META_INDEX page_phys in
  let index2 := u64 (PHYS_TO_META_INDEX end_addr - 1) in
  KASSERT (index1 <? pma_len pm);;
  KASSERT (index2 <? pma_len pm);;
  p ← page_meta_get pm page_phys;
  meta_wr_many pm p tocopy num_pages.

(** [UPDATE_STATS(used, +n)] and [UPDATE_STATS(free, -n)]. *)
Definition stats_take (s : com_pmm_stats) (n : Z) : com_pmm_stats :=
  mkStats (st_total s) (st_usable s) (st_reserved s)
    (u64 (st_free s - n * ARCH_PAGE_SIZE)) (u64 (st_used s + n * ARCH_PAGE_SIZE)).

(** ** Interface *)
Definition com_mm_pmm_alloc (s : pmm) : res (Z * pmm) :=
  '(virt_ret, fl) ← freelist_pop_rear_nolock (MainFreeList s);
  let phys := ARCH_HHDM_TO_PHYS virt_ret in
  p ← page_meta_get (PageMeta s) phys;
  let m := meta_rd (PageMeta s) p in
  KASSERT (bool_decide (pm_state m = E_PAGE_STATE_FREE));;
  KASSERT (pm_num_ref m =? 0);;
  let pm := meta_wr (PageMeta s) p (mkMeta E_PAGE_STATE_TAKEN 1 E_PAGE_TYPE_ANONYMOUS) in
  Ok (phys, mkPmm fl pm (stats_take (MemoryStats s) 1)).

Definition taken_model : page_meta := mkMeta E_PAGE_STATE_TAKEN 1 E_PAGE_TYPE_ANONYMOUS.

Definition com_mm_pmm_alloc_many (s : pmm) (pages : Z) : res (Z * pmm) :=
  if 1 =? pages then com_mm_pmm_alloc s
  else
    '(virt_ret, alloc_size, fl) ← freelist_pop_front_nolock (MainFreeList s) pages;
    KASSERT (alloc_size =? pages);;
    let phys := ARCH_HHDM_TO_PHYS virt_ret in
    pm ← page_meta_set (PageMeta s) phys taken_model pages;
    Ok (phys, mkPmm fl pm (stats_take (MemoryStats s) pages)).

Definition com_mm_pmm_alloc_zero (s : pmm) : res (Z * pmm) := com_mm_pmm_alloc s.
Definition com_mm_pmm_alloc_many_zero (s : pmm) (pages : Z) : res (Z * pmm) :=
  com_mm_pmm_alloc_many s pages.

(** Returns the block, what is stored in [*out_alloc_size] ([None] when the
    function does not store it) and the state. *)
Definition com_mm_pmm_alloc_max (s : pmm) (pages : Z) : res (Z * option Z * pmm) :=
  if 1 =? pages then '(phys, s) ← com_mm_pmm_alloc s; Ok (phys, None, s)
  else
    '(virt_ret, alloc_size, fl) ← freelist_pop_front_nolock (MainFreeList s) pages;
    let phys := ARCH_HHDM_TO_PHYS virt_ret in
    pm ← page_meta_set (PageMeta s) phys taken_model alloc_size;
    Ok (phys, Some alloc_size, mkPmm fl pm (stats_take (MemoryStats s) alloc_size)).
Definition com_mm_pmm_alloc_max_zero (s : pmm) (pages : Z) : res (Z * option Z * pmm) :=
  com_mm_pmm_alloc_max s pages.

Definition set_meta (s : pmm) (pm : page_meta_array) : pmm :=
  mkPmm (MainFreeList s) pm (MemoryStats s).

Definition com_mm_pmm_hold (s : pmm) (page : Z) : res pmm :=
  p ← page_meta_get (PageMeta s) page;
  let m := meta_rd (PageMeta s) p in
  KASSERT (negb (bool_decide (pm_state m = E_PAGE_STATE_FREE)));;
  Ok (set_meta s (meta_wr (PageMeta s) p (mkMeta (pm_state m) (u64 (pm_num_ref m + 1)) (pm_type m)))).

Definition com_mm_pmm_is_shared (s : pmm) (page : Z) : res bool :=
  p ← page_meta_get (PageMeta s) page;
  let m := meta_rd (PageMeta s) p in
  KASSERT (negb (bool_decide (pm_state m = E_PAGE_STATE_FREE)));;
  Ok (1 <? pm_num_ref m).

(** Gives up a reference; both ways out of the conditional return, and what
    should follow is a TODO in the code. *)
Definition com_mm_pmm_free (s : pmm) (page : Z) : res pmm :=
  p ← page_meta_get (PageMeta s) page;
  let m := meta_rd (PageMeta s) p in
  if negb (bool_decide (pm_state m = E_PAGE_STATE_TAKEN)) then Ok s
  else Ok (set_meta s (meta_wr (PageMeta s) p (mkMeta (pm_state m) (u64 (pm_num_ref m - 1)) (pm_type m)))).

Fixpoint free_many_loop (n : nat) (i : Z) (s : pmm) (base : Z) : res pmm :=
  match n with
  | O => Ok s
  | S n =>
      s ← com_mm_pmm_free s (base + i * ARCH_PAGE_SIZE);
      free_many_loop n (i + 1) s base
  end.
Definition com_mm_pmm_free_many (s : pmm) (base pages : Z) : res pmm :=
  free_many_loop (Z.to_nat pages) 0 s base.

Definition com_mm_pmm_unreserve_many (s : pmm) (base pages : Z) : res pmm :=
  p ← page_meta_get (PageMeta s) base;
  pm ← meta_wr_many (PageMeta s) p meta_zero pages;
  let entry := mkFe (ARCH_PHYS_TO_HHDM base) pages in
  let st := MemoryStats s in
  Ok (mkPmm (freelist_add_ordered_nolock (MainFreeList s) entry) pm
        (mkStats (st_total st) (st_usable st) (u64 (st_reserved st - pages * ARCH_PAGE_SIZE))
           (u64 (st_free st + pages * ARCH_PAGE_SIZE)) (st_used st))).

Definition com_mm_pmm_get_stats (s : pmm) : com_pmm_stats := MemoryStats s.

(** ** Initialisation *)
Inductive memmap_type : Type :=
  | LIMINE_MEMMAP_USABLE | LIMINE_MEMMAP_BOOTLOADER_RECLAIMABLE
  | LIMINE_MEMMAP_KERNEL_AND_MODULES | LIMINE_MEMMAP_FRAMEBUFFER | LIMINE_MEMMAP_OTHER.
#[export] Instance memmap_type_eq_dec : EqDecision memmap_type.
Proof. solve_decision. Defined.

Record arch_memmap_entry : Type := mkMm { mm_base : Z; mm_length : Z; mm_type : memmap_type }.

Definition ARCH_MEMMAP_IS_USABLE (e : arch_memmap_entry) : bool :=
  bool_decide (mm_type e = LIMINE_MEMMAP_USABLE).
Definition ARCH_MEMMAP_IS_RECLAIMABLE (e : arch_memmap_entry) : bool :=
  bool_decide (mm_type e = LIMINE_MEMMAP_BOOTLOADER_RECLAIMABLE) ||
  bool_decide (mm_type e = LIMINE_MEMMAP_KERNEL_AND_MODULES).

(** The first loop: the statistics, the highest address and the highest
    indexed address. *)
Fixpoint scan_memmap (mm : list arch_memmap_entry) (st : com_pmm_stats)
    (highest_addr highest_indexed_addr : Z) : com_pmm_stats * Z * Z :=
  match mm with
  | [] => (st, highest_addr, highest_indexed_addr)
  | e :: mm =>
      let total := u64 (st_total st + mm_length e) in
      let seg_top := u64 (mm_base e + mm_length e) in
      let highest_addr := KMAX highest_addr seg_top in
      let highest_indexed_addr := if ARCH_MEMMAP_IS_RECLAIMABLE e
        then KMAX highest_indexed_addr seg_top else highest_indexed_addr in
      if negb (ARCH_MEMMAP_IS_USABLE e) then
        scan_memmap mm (mkStats total (st_usable st) (u64 (st_reserved st + mm_length e))
                          (st_free st) (st_used st)) highest_addr highest_indexed_addr
      else
        scan_memmap mm (mkStats total (u64 (st_usable st + mm_length e)) (st_reserved st)
                          (st_free st) (st_used st))
          highest_addr (KMAX highest_indexed_addr seg_top)
  end.

(** One turn of the second loop, which places the array in the first usable
    segment it fits in and puts all others on the free list. *)
Definition place_entry (highest_addr highest_indexed_addr : Z) (e : arch_memmap_entry) (s : pmm)
    : res pmm :=
  let page_meta_size := PAGE_META_ARRAY_SIZE highest_indexed_addr in
  let page_meta_pages := u64 (page_meta_size + ARCH_PAGE_SIZE - 1) / ARCH_PAGE_SIZE in
  let page_meta_aligned_size := u64 (page_meta_pages * ARCH_PAGE_SIZE) in
  if negb (ARCH_MEMMAP_IS_USABLE e) then Ok s
  else match pma_buffer (PageMeta s) with
  | None =>
      if page_meta_aligned_size <=? mm_length e then
        let pm := mkPma (Some (ARCH_PHYS_TO_HHDM (mm_base e))) (pma_entries (PageMeta s))
                    (PAGE_META_ARRAY_LEN highest_indexed_addr)
                    (PHYS_TO_META_INDEX highest_indexed_addr)
                    (PAGE_META_ARRAY_LEN highest_addr) (pma_fake_entry (PageMeta s)) in
        pm ← page_meta_set pm (mm_base e)
               (mkMeta E_PAGE_STATE_RESERVED 1 E_PAGE_TYPE_ANONYMOUS) page_meta_pages;
        let st := MemoryStats s in
        let st := mkStats (st_total st) (u64 (st_usable st - page_meta_aligned_size))
                    (u64 (st_reserved st + page_meta_aligned_size)) (st_free st) (st_used st) in
        let fl :=
          if u64 (page_meta_aligned_size + ARCH_PAGE_SIZE) <=? mm_length e then
            let remaining_length := u64 (mm_length e - page_meta_aligned_size) in
            let remaining_pages := remaining_length / ARCH_PAGE_SIZE in
            freelist_add_ordered_nolock (MainFreeList s)
              (mkFe (u64 (ARCH_PHYS_TO_HHDM (mm_base e) + page_meta_aligned_size)) remaining_pages)
          else MainFreeList s in
        Ok (mkPmm fl pm st)
      else
        Ok (mkPmm (freelist_add_ordered_nolock (MainFreeList s)
                     (mkFe (ARCH_PHYS_TO_HHDM (mm_base e)) (mm_length e / ARCH_PAGE_SIZE)))
              (PageMeta s) (MemoryStats s))
  | Some _ =>
      Ok (mkPmm (freelist_add_ordered_nolock (MainFreeList s)
                   (mkFe (ARCH_PHYS_TO_HHDM (mm_base e)) (mm_length e / ARCH_PAGE_SIZE)))
            (PageMeta s) (MemoryStats s))
  end.

Fixpoint place_loop (ha hia : Z) (mm : list arch_memmap_entry) (s : pmm) : res pmm :=
  match mm with
  | [] => Ok s
  | e :: mm => s ← place_entry ha hia e s; place_loop ha hia mm s
  end.

(** The third loop: segments that are not usable are reserved. *)
Fixpoint reserve_loop (hia : Z) (mm : list arch_memmap_entry) (s : pmm) : res pmm :=
  match mm with
  | [] => Ok s
  | e :: mm =>
      s ← (if negb (ARCH_MEMMAP_IS_USABLE e) && (u64 (mm_base e + mm_length e) <? hia) then
             pm ← page_meta_set (PageMeta s) (mm_base e)
                    (mkMeta E_PAGE_STATE_RESERVED 1 E_PAGE_TYPE_ANONYMOUS)
                    (u64 (mm_length e + ARCH_PAGE_SIZE - 1) / ARCH_PAGE_SIZE);
             Ok (set_meta s pm)
           else Ok s);
      reserve_loop hia mm s
  end.

Definition pmm_boot : pmm :=
  mkPmm [] (mkPma None ∅ 0 0 0 (mkMeta E_PAGE_STATE_RESERVED 1 E_PAGE_TYPE_ANONYMOUS))
    (mkStats 0 0 0 0 0).

Definition com_mm_pmm_init (mm : list arch_memmap_entry) : res pmm :=
  let '(st, highest_addr, highest_indexed_addr) := scan_memmap mm (MemoryStats pmm_boot) 0 0 in
  let st := mkStats highest_addr (st_usable st) (st_reserved st) (st_free st) (st_used st) in
  s ← place_loop highest_addr highest_indexed_addr mm
        (mkPmm (MainFreeList pmm_boot) (PageMeta pmm_boot) st);
  s ← reserve_loop highest_indexed_addr mm s;
  let st := MemoryStats s in
  Ok (mkPmm (MainFreeList s) (PageMeta s)
        (mkStats (st_total st) (st_usable st) (st_reserved st) (st_usable st) (st_used st))).

(** ** The pages of a free list *)
Definition fe_page_list (e : freelist_entry) : list Z :=
  map (λ k, fe_addr e + k * ARCH_PAGE_SIZE) (seqZ 0 (fe_pages e)).
Definition fl_page_list (fl : freelist) : list Z := concat (map fe_page_list fl).

#[local] Arguments fe_page_list : simpl never.
#[local] Arguments fl_page_list : simpl never.

(** A block of at least one page, inside the higher-half map and not at
    physical page 0. *)
Definition fe_wf (e : freelist_entry) : Prop :=
  1 ≤ fe_pages e ∧ HHDM_BASE < fe_addr e ∧
  fe_addr e + fe_pages e * ARCH_PAGE_SIZE ≤ HHDM_BASE + 2 ^ 46 ∧
  fe_addr e mod ARCH_PAGE_SIZE = 0.
Definition fl_wf (fl : freelist) : Prop := Forall fe_wf fl.

(** Ordered by size, largest first. *)
Definition fl_sorted (fl : freelist) : Prop := StronglySorted (λ e f, fe_pages f ≤ fe_pages e) fl.

Ltac solve_fe_wf :=
  unfold fe_wf, ARCH_PAGE_SIZE, HHDM_BASE in *; cbn [fe_addr fe_pages] in *;
  split_and!; (done || lia).

Lemma fl_page_list_app fl fl' : fl_page_list (fl ++ fl') = fl_page_list fl ++ fl_page_list fl'.
Proof. unfold fl_page_list. by rewrite map_app, concat_app. Qed.

Lemma fl_page_list_one e : fl_page_list [e] = fe_page_list e.
Proof. unfold fl_page_list. simpl. by rewrite app_nil_r. Qed.

Lemma fl_page_list_cons e fl : fl_page_list (e :: fl) = fe_page_list e ++ fl_page_list fl.
Proof. done. Qed.

Lemma length_fe_page_list e : length (fe_page_list e) = Z.to_nat (fe_pages e).
Proof. unfold fe_page_list. by rewrite length_map, length_seqZ. Qed.

(** Two neighbouring blocks are one. *)
Lemma fe_page_list_app a n k :
  0 ≤ n → 0 ≤ k →
  fe_page_list (mkFe a (n + k)) =
    fe_page_list (mkFe a n) ++ fe_page_list (mkFe (a + n * ARCH_PAGE_SIZE) k).
Proof.
  intros Hn Hk. unfold fe_page_list; simpl. rewrite seqZ_app, map_app by lia. f_equal.
  replace (0 + n) with (n + 0) by lia. rewrite <- (fmap_add_seqZ n 0 k).
  change (Z.add n <$> seqZ 0 k) with (map (Z.add n) (seqZ 0 k)).
  rewrite map_map. apply map_ext. intros i. lia.
Qed.

Lemma fe_page_list_1 a : fe_page_list (mkFe a 1) = [a].
Proof. unfold fe_page_list; simpl. f_equal. lia. Qed.

Lemma fe_page_list_elem e a : a ∈ fe_page_list e ↔ ∃ k, 0 ≤ k < fe_pages e ∧ a = fe_addr e + k * ARCH_PAGE_SIZE.
Proof.
  unfold fe_page_list. rewrite list_elem_of_fmap. split.
  - intros (k & -> & Hk). apply elem_of_seqZ in Hk. exists k. split; [lia|done].
  - intros (k & Hk & ->). exists k. split; [done|]. apply elem_of_seqZ. lia.
Qed.

Lemma fl_wf_bound e : fe_wf e →
  fe_pages e < 2 ^ 34 ∧ 0 < fe_addr e ∧
  u64 (fe_addr e + fe_pages e * ARCH_PAGE_SIZE) = fe_addr e + fe_pages e * ARCH_PAGE_SIZE.
Proof.
  intros (? & ? & Hu & _). unfold HHDM_BASE, ARCH_PAGE_SIZE in *.
  split_and!; [lia|lia|apply wrap_small; lia].
Qed.

(** Adding a block to the list adds its pages, by whichever path. *)
Lemma insert_ordered_pages fl e :
  fl_page_list (insert_ordered fl e) ≡ₚ fe_page_list e ++ fl_page_list fl.
Proof.
  induction fl as [|c fl IH]; simpl; [done|].
  destruct (Z.leb_spec (fe_pages c) (fe_pages e)); [done|].
  rewrite !fl_page_list_cons, IH, !app_assoc. f_equiv. apply Permutation_app_comm.
Qed.

Lemma insert_ordered_wf fl e : fl_wf fl → fe_wf e → fl_wf (insert_ordered fl e).
Proof.
  intros Hfl He. induction Hfl as [|c fl Hc Hfl IH]; simpl; [by constructor|].
  destruct (Z.leb_spec (fe_pages c) (fe_pages e)); constructor; try done. by constructor.
Qed.

Lemma add_ordered_spec fl e :
  fl_wf fl → fe_wf e →
  fl_wf (freelist_add_ordered_nolock fl e) ∧
  fl_page_list (freelist_add_ordered_nolock fl e) ≡ₚ fe_page_list e ++ fl_page_list fl.
Proof.
  intros Hfl He. unfold freelist_add_ordered_nolock.
  destruct (Z.eqb_spec 1 (fe_pages e)) as [H1|].
  2:{ split; [by apply insert_ordered_wf|apply insert_ordered_pages]. }
  assert (Hsnoc : fl_wf (fl ++ [e]) ∧ fl_page_list (fl ++ [e]) ≡ₚ fe_page_list e ++ fl_page_list fl).
  { split; [apply Forall_app; split; [done|by constructor]|].
    rewrite fl_page_list_app, fl_page_list_one. apply Permutation_app_comm. }
  destruct (last fl) as [l|] eqn:Hlast; [|done].
  pose proof Hlast as Hlast'. apply last_Some in Hlast' as [fl0 ->].
  apply Forall_app in Hfl as [Hfl0 Hl]. rewrite Forall_singleton in Hl.
  destruct e as [ea en], l as [la ln]. cbn [fe_addr fe_pages] in *. subst en.
  pose proof (fl_wf_bound _ Hl) as (Hn & Ha & Hu). simpl in Hu. rewrite Hu. clear Hu.
  pose proof (fl_wf_bound _ He) as (_ & _ & Hu). simpl in Hu. rewrite Z.mul_1_l in Hu. rewrite Hu. clear Hu.
  destruct He as (_ & He1 & He2 & He3), Hl as (Hl1 & Hl2 & Hl3 & Hl4). cbn [fe_addr fe_pages] in *.
  destruct (Z.eqb_spec ea (la + ln * ARCH_PAGE_SIZE)) as [->|].
  { unfold set_last_pages. rewrite Hlast, removelast_last. cbn [fe_addr fe_pages]. rewrite wrap_small by lia. split.
    - apply Forall_app; split; [done|]. constructor; [|done]. solve_fe_wf.
    - rewrite !fl_page_list_app, !fl_page_list_one, fe_page_list_app, !fe_page_list_1 by lia.
      rewrite app_assoc. apply Permutation_app_comm. }
  destruct (Z.eqb_spec la (ea + ARCH_PAGE_SIZE)) as [->|]; [|done].
  rewrite removelast_last, wrap_small by lia. split.
  - apply Forall_app; split; [done|]. constructor; [|done]. solve_fe_wf.
  - rewrite !fl_page_list_app, !fl_page_list_one, fe_page_list_app, !fe_page_list_1, Z.mul_1_l by lia.
    rewrite !app_assoc. f_equiv. apply Permutation_app_comm.
Qed.

Lemma insert_ordered_sorted fl e : fl_sorted fl → fl_sorted (insert_ordered fl e).
Proof.
  intros Hs. induction Hs as [|c fl Hs IH Hc]; simpl; [by repeat constructor|].
  destruct (Z.leb_spec (fe_pages c) (fe_pages e)).
  - constructor; [by constructor|]. constructor; [done|].
    eapply Forall_impl; [exact Hc|]. simpl. lia.
  - constructor; [done|]. clear -Hc H. induction fl as [|d fl IH]; simpl; [repeat constructor; lia|].
    apply Forall_cons in Hc as [Hd Hc]. destruct (fe_pages d <=? fe_pages e);
      repeat constructor; (done || lia || auto).
Qed.

Lemma add_ordered_sorted fl e : fe_pages e ≠ 1 → fl_sorted fl → fl_sorted (freelist_add_ordered_nolock fl e).
Proof.
  intros Hne Hs. unfold freelist_add_ordered_nolock.
  destruct (Z.eqb_spec 1 (fe_pages e)); [lia|by apply insert_ordered_sorted].
Qed.

(** Taking a page from the rear takes exactly that page. *)
Lemma pop_rear_spec fl :
  fl_wf fl → fl ≠ [] →
  ∃ a fl', freelist_pop_rear_nolock fl = Ok (a, fl') ∧ fl_wf fl' ∧
    fl_page_list fl ≡ₚ a :: fl_page_list fl'.
Proof.
  intros Hfl Hne. unfold freelist_pop_rear_nolock.
  destruct (last fl) as [l|] eqn:Hlast; [|by apply last_None in Hlast].
  pose proof Hlast as Hlast'. apply last_Some in Hlast' as [fl0 ->].
  pose proof Hfl as Hfl'. apply Forall_app in Hfl' as [Hfl0 Hl]. rewrite Forall_singleton in Hl.
  destruct l as [la ln]. pose proof (fl_wf_bound _ Hl) as (Hn & Ha & _).
  destruct Hl as (Hl1 & Hl2 & Hl3 & Hl4). cbn [fe_addr fe_pages] in *.
  destruct (Z.eqb_spec 1 ln) as [<-|].
  { eexists _, _. split; [done|]. rewrite removelast_last. split; [done|].
    rewrite fl_page_list_app, fl_page_list_one, fe_page_list_1. symmetry. apply Permutation_cons_append. }
  rewrite (wrap_small 64 (ln - 1)) by lia.
  rewrite wrap_small by (unfold ARCH_PAGE_SIZE, HHDM_BASE in *; lia).
  eexists _, _. split; [done|]. unfold set_last_pages. rewrite Hlast, removelast_last. cbn [fe_addr fe_pages]. split.
  - apply Forall_app; split; [done|]. constructor; [|done].
    solve_fe_wf.
  - rewrite !fl_page_list_app, !fl_page_list_one.
    replace ln with (ln - 1 + 1) at 1 by lia. rewrite fe_page_list_app, fe_page_list_1 by lia.
    rewrite Z.mul_comm, app_assoc. symmetry. apply Permutation_cons_append.
Qed.

(** Taking a block from the front of an ordered list takes exactly that
    block. *)
Lemma pop_front_spec fl n :
  fl_wf fl → NoDup (fl_page_list fl) → fl_sorted fl → fl ≠ [] → 1 ≤ n →
  ∃ a k fl', freelist_pop_front_nolock fl n = Ok (a, k, fl') ∧ fl_wf fl' ∧
    k = Z.min n (default 0 (fe_pages <$> head fl)) ∧ 1 ≤ k ∧ fe_wf (mkFe a k) ∧
    fl_page_list fl ≡ₚ fe_page_list (mkFe a k) ++ fl_page_list fl'.
Proof.
  intros Hfl Hnd Hs Hne Hn. destruct fl as [|[ra rn] rest]; [done|]. simpl.
  apply Forall_cons in Hfl as [Hr Hrest]. rewrite KMIN_min.
  pose proof (fl_wf_bound _ Hr) as (Hrn & Hra & _). destruct Hr as (Hr1 & Hr2 & Hr3 & Hr4). simpl in *.
  apply StronglySorted_inv in Hs as [Hs Hhd].
  destruct (Z.eqb_spec (Z.min n rn) rn) as [He|He].
  { rewrite He. assert (Hno : match rest with
      | [] => rest
      | f :: _ => if rn <? fe_pages f
                  then freelist_add_ordered_nolock (TAILQ_REMOVE rest ra) (mkFe ra rn) else rest
      end = rest).
    { destruct rest as [|f rest]; [done|]. apply Forall_cons in Hhd as [Hf _]. simpl in Hf.
      destruct (Z.ltb_spec rn (fe_pages f)); [lia|done]. }
    cbn [fe_addr fe_pages]. rewrite Hno. eexists ra, rn, rest. split_and!; (done || lia). }
  assert (Hmin : Z.min n rn = n) by lia. rewrite Hmin. rewrite (wrap_small 64 (rn - n)) by lia.
  unfold ARCH_PAGE_SIZE, HHDM_BASE in *. rewrite wrap_small by lia.
  set (e := mkFe ra (rn - n)).
  assert (Hblk : fe_wf (mkFe (ra + 4096 * (rn - n)) n)).
  { split_and!; unfold ARCH_PAGE_SIZE, HHDM_BASE; simpl; [lia|lia|lia|].
    rewrite Z.add_mod, Hr4, Z.mul_comm, Z.mod_mul by lia. done. }
  assert (He' : fe_wf e).
  { subst e. solve_fe_wf. }
  assert (Hpages : fl_page_list (mkFe ra rn :: rest) ≡ₚ
    fe_page_list (mkFe (ra + 4096 * (rn - n)) n) ++ fl_page_list (e :: rest)).
  { rewrite !fl_page_list_cons. replace rn with (rn - n + n) at 1 by lia.
    rewrite fe_page_list_app by lia. unfold ARCH_PAGE_SIZE. rewrite (Z.mul_comm (rn - n)).
    rewrite !app_assoc. f_equiv. apply Permutation_app_comm. }
  assert (Hkeep : fl_wf (e :: rest)) by by constructor.
  destruct rest as [|f rest']; [|destruct (Z.ltb_spec (fe_pages e) (fe_pages f))].
  - by eexists _, _, _.
  - (* the rest of the block moves to its new place *)
    assert (Hrem : TAILQ_REMOVE (e :: f :: rest') ra = f :: rest').
    { unfold TAILQ_REMOVE. rewrite filter_cons_False by (simpl; tauto).
      apply filter_all, Forall_forall. intros g Hg Heq.
      rewrite fl_page_list_cons in Hnd. apply NoDup_app in Hnd as (_ & Hdis & _).
      apply (Hdis ra); [apply fe_page_list_elem; exists 0; simpl; lia|].
      unfold fl_page_list. apply list_elem_of_In, in_concat. exists (fe_page_list g).
      split; [by apply in_map, list_elem_of_In|]. apply list_elem_of_In, fe_page_list_elem.
      exists 0. rewrite Forall_forall in Hrest. destruct (Hrest g Hg) as [? _]. lia. }
    change (fe_addr e) with ra. rewrite Hrem.
    destruct (add_ordered_spec (f :: rest') e) as [Hwf' Hp']; [done|done|].
    eexists _, _, _. do 5 (split; [done|]). by rewrite Hpages, Hp'.
  - by eexists _, _, _.
Qed.

(** ** The manager's invariant *)
Definition meta_of (s : pmm) (p : Z) : page_meta :=
  default meta_zero (pma_entries (PageMeta s) !! PHYS_TO_META_INDEX p).

(** Free pages are distinct, indexed by the metadata array and marked free
    there, and the statistics count them. *)
Definition pmm_inv (s : pmm) : Prop :=
  let pages := fl_page_list (MainFreeList s) in
  fl_wf (MainFreeList s) ∧ NoDup pages ∧
  pma_reserved_start (PageMeta s) ≤ pma_len (PageMeta s) ∧
  pma_reserved_start (PageMeta s) ≤ pma_extended_len (PageMeta s) ∧
  (∀ a, a ∈ pages → let p := ARCH_HHDM_TO_PHYS a in
    PHYS_TO_META_INDEX p < pma_reserved_start (PageMeta s) ∧
    pm_state (meta_of s p) = E_PAGE_STATE_FREE ∧ pm_num_ref (meta_of s p) = 0) ∧
  st_free (MemoryStats s) = u64 (Z.of_nat (length pages) * ARCH_PAGE_SIZE).

Definition pmm_taken (s : pmm) (p : Z) : Prop :=
  valid_phys p ∧ PHYS_TO_META_INDEX p < pma_reserved_start (PageMeta s) ∧
  pm_state (meta_of s p) = E_PAGE_STATE_TAKEN.

Lemma meta_fill_lookup n i v m j :
  meta_fill n i v m !! j = if decide (i ≤ j < i + Z.of_nat n) then Some v else m !! j.
Proof.
  revert i m; induction n as [|n IH]; intros i m; simpl; [by case_decide; [lia|]|].
  rewrite IH, lookup_insert. repeat case_decide; (done || lia).
Qed.

Lemma fe_wf_page e i : fe_wf e → 0 ≤ i < fe_pages e →
  let p := fe_addr e - HHDM_BASE in
  valid_phys (p + i * ARCH_PAGE_SIZE) ∧
  ARCH_HHDM_TO_PHYS (fe_addr e + i * ARCH_PAGE_SIZE) = p + i * ARCH_PAGE_SIZE ∧
  PHYS_TO_META_INDEX (p + i * ARCH_PAGE_SIZE) = PHYS_TO_META_INDEX p + i.
Proof.
  intros (Hp & Ha & Hu & Hm) Hi p. unfold PHYS_TO_META_INDEX.
  assert (Hb : 0 < p + i * ARCH_PAGE_SIZE < 2 ^ 46) by (unfold ARCH_PAGE_SIZE in *; lia).
  assert (Hmod : p mod ARCH_PAGE_SIZE = 0).
  { unfold p. rewrite Zminus_mod, Hm. done. }
  assert (Hpe : p = fe_addr e - HHDM_BASE) by done. clearbody p.
  split_and!.
  - split; [done|]. rewrite Z.add_mod, Hmod, Z.mod_mul; done.
  - unfold ARCH_HHDM_TO_PHYS. rewrite wrap_small; lia.
  - by rewrite Z.div_add.
Qed.

Lemma page_index_inj p q : valid_phys p → valid_phys q →
  PHYS_TO_META_INDEX p = PHYS_TO_META_INDEX q → p = q.
Proof.
  unfold PHYS_TO_META_INDEX, ARCH_PAGE_SIZE. intros [_ Hp] [_ Hq] Heq.
  unfold ARCH_PAGE_SIZE in *.
  pose proof (Z.div_mod p 4096). pose proof (Z.div_mod q 4096). lia.
Qed.

(** Moving a block of free pages to the taken ones, the step every
    allocation ends with. *)
Definition mark_taken (pm : page_meta_array) (phys k : Z) : page_meta_array :=
  mkPma (pma_buffer pm) (meta_fill (Z.to_nat k) (PHYS_TO_META_INDEX phys) taken_model (pma_entries pm))
    (pma_len pm) (pma_reserved_start pm) (pma_extended_len pm) (pma_fake_entry pm).

Section take.
Variables (s : pmm) (a k : Z) (fl' : freelist).
Hypothesis Hinv : pmm_inv s.
Hypothesis Hfl' : fl_wf fl'.
Hypothesis Hblk : fe_wf (mkFe a k).
Hypothesis Hperm : fl_page_list (MainFreeList s) ≡ₚ fe_page_list (mkFe a k) ++ fl_page_list fl'.
Let phys := ARCH_HHDM_TO_PHYS a.
Let s' := mkPmm fl' (mark_taken (PageMeta s) phys k) (stats_take (MemoryStats s) k).

Lemma take_phys : phys = a - HHDM_BASE.
Proof.
  assert (1 ≤ k) by apply Hblk.
  destruct (fe_wf_page _ 0 Hblk) as (_ & Hp & _); [cbn; lia|].
  simpl in Hp. unfold phys. by rewrite !Z.add_0_r in Hp.
Qed.

Lemma take_page i : 0 ≤ i < k →
  valid_phys (phys + i * ARCH_PAGE_SIZE) ∧
  PHYS_TO_META_INDEX (phys + i * ARCH_PAGE_SIZE) = PHYS_TO_META_INDEX phys + i ∧
  PHYS_TO_META_INDEX phys + i < pma_reserved_start (PageMeta s) ∧
  pm_state (meta_of s (phys + i * ARCH_PAGE_SIZE)) = E_PAGE_STATE_FREE ∧
  pm_num_ref (meta_of s (phys + i * ARCH_PAGE_SIZE)) = 0.
Proof.
  intros Hi. rewrite take_phys. destruct (fe_wf_page _ i Hblk Hi) as (Hv & Hph & Hix). simpl in *.
  destruct Hinv as (_ & _ & _ & _ & Hfree & _).
  assert (Hin : a + i * ARCH_PAGE_SIZE ∈ fl_page_list (MainFreeList s)).
  { rewrite Hperm. apply elem_of_app. left. apply fe_page_list_elem. by exists i. }
  specialize (Hfree _ Hin). cbn in Hfree. rewrite Hph in Hfree.
  destruct Hfree as (? & ? & ?). rewrite Hix in *. done.
Qed.

Lemma take_range p : valid_phys p →
  (PHYS_TO_META_INDEX phys ≤ PHYS_TO_META_INDEX p < PHYS_TO_META_INDEX phys + k ↔
   ∃ i, 0 ≤ i < k ∧ p = phys + i * ARCH_PAGE_SIZE).
Proof.
  intros Hp. split.
  - intros Hr. exists (PHYS_TO_META_INDEX p - PHYS_TO_META_INDEX phys). split; [lia|].
    destruct (take_page (PHYS_TO_META_INDEX p - PHYS_TO_META_INDEX phys)) as (Hv & Hix & _); [lia|].
    apply page_index_inj; [done|done|lia].
  - intros (i & Hi & ->). destruct (take_page i Hi) as (_ & -> & _). lia.
Qed.

Lemma take_meta p : valid_phys p →
  meta_of s' p = if decide (PHYS_TO_META_INDEX phys ≤ PHYS_TO_META_INDEX p < PHYS_TO_META_INDEX phys + k)
                 then taken_model else meta_of s p.
Proof.
  intros Hp. unfold meta_of, s', mark_taken; cbn [PageMeta pma_entries]. rewrite meta_fill_lookup.
  assert (1 ≤ k) by apply Hblk. rewrite Z2Nat.id by lia. by case_decide.
Qed.

Lemma take_taken q :
  pmm_taken s' q ↔ (∃ i, 0 ≤ i < k ∧ q = phys + i * ARCH_PAGE_SIZE) ∨ pmm_taken s q.
Proof.
  split.
  - intros (Hv & Hr & Hst). rewrite take_meta in Hst by done.
    case_decide; [left; by apply take_range|right; done].
  - intros Hq.
    assert (Hv : valid_phys q).
    { destruct Hq as [(i & Hi & ->)|Hq]; [by apply take_page|by apply Hq]. }
    assert (Hr : PHYS_TO_META_INDEX q < pma_reserved_start (PageMeta s)).
    { destruct Hq as [(i & Hi & ->)|Hq]; [|by apply Hq]. by destruct (take_page i Hi) as (_ & -> & ? & _). }
    split; [done|]. split; [done|]. rewrite take_meta by done. case_decide as Hd; [done|].
    rewrite take_range in Hd by done. destruct Hq as [?|(_ & _ & ?)]; done.
Qed.

Lemma take_fresh i : 0 ≤ i < k → ¬ pmm_taken s (phys + i * ARCH_PAGE_SIZE).
Proof. intros Hi (_ & _ & Hst). destruct (take_page i Hi) as (_ & _ & _ & Hf & _). congruence. Qed.

Lemma take_inv : pmm_inv s'.
Proof.
  pose proof Hinv as (Hfl & Hnd & Hlen & Hext & Hfree & Hst).
  rewrite Hperm in Hnd. apply NoDup_app in Hnd as (_ & Hdis & Hnd').
  split; [done|]. split; [done|]. split; [done|]. split; [done|]. split.
  - intros b Hb. cbn. assert (Hin : b ∈ fl_page_list (MainFreeList s)).
    { rewrite Hperm. apply elem_of_app. by right. }
    destruct (Hfree b Hin) as (Hix & Hfr & Hrf). split; [done|].
    assert (Hbv : ∃ e j, fe_wf e ∧ 0 ≤ j < fe_pages e ∧ b = fe_addr e + j * ARCH_PAGE_SIZE).
    { apply list_elem_of_In, in_concat in Hb as (l & Hl & Hb). apply in_map_iff in Hl as (e & <- & He).
      apply list_elem_of_In, fe_page_list_elem in Hb as (j & Hj & ->). exists e, j.
      split; [|done]. unfold fl_wf in Hfl'. rewrite Forall_forall in Hfl'. by apply Hfl', list_elem_of_In. }
    destruct Hbv as (e & j & He & Hj & ->). destruct (fe_wf_page e j He Hj) as (Hv & Hph & _).
    rewrite Hph in *. change (mkPmm fl' _ _) with s'. rewrite take_meta by done.
    rewrite decide_False; [done|]. rewrite take_range by done. intros (i & Hi & Heq).
    rewrite take_phys in Heq.
    apply (Hdis (a + i * ARCH_PAGE_SIZE)); [apply fe_page_list_elem; by exists i|].
    replace (a + i * ARCH_PAGE_SIZE) with (fe_addr e + j * ARCH_PAGE_SIZE) by lia. done.
  - cbn. rewrite Hst, Hperm, length_app, length_fe_page_list. cbn [fe_pages].
    rewrite wrap_sub_l. f_equal. assert (1 ≤ k) by apply Hblk. lia.
Qed.

(** [page_meta_set] marks such a block without hitting an assertion. *)
Lemma take_page_meta_set :
  page_meta_set (PageMeta s) phys taken_model k = Ok (mark_taken (PageMeta s) phys k).
Proof.
  pose proof Hinv as (_ & _ & Hlen & Hext & _). assert (Hk : 1 ≤ k) by apply Hblk.
  destruct (take_page 0) as ((Hv & _) & _ & Hr0 & _); [lia|].
  destruct (take_page (k - 1)) as ((Hvl & _) & _ & Hrl & _); [lia|].
  rewrite Z.add_0_r in *. unfold page_meta_set.
  assert (Hend : u64 (phys + k * ARCH_PAGE_SIZE) = phys + k * ARCH_PAGE_SIZE)
    by (apply wrap_small; unfold ARCH_PAGE_SIZE in *; lia).
  assert (Hend' : PHYS_TO_META_INDEX (phys + k * ARCH_PAGE_SIZE) = PHYS_TO_META_INDEX phys + k)
    by (unfold PHYS_TO_META_INDEX; by rewrite Z.div_add).
  rewrite Hend, Hend'. assert (0 ≤ PHYS_TO_META_INDEX phys) by (apply Z.div_pos; [lia|done]).
  assert (PHYS_TO_META_INDEX phys + k < 2 ^ 64).
  { rewrite <- Hend'. apply Z.div_lt_upper_bound; [done|]. unfold ARCH_PAGE_SIZE in *. lia. }
  rewrite wrap_small by lia.
  destruct (Z.ltb_spec (PHYS_TO_META_INDEX phys) (pma_len (PageMeta s))); [|lia]. mstep.
  destruct (Z.ltb_spec (PHYS_TO_META_INDEX phys + k - 1) (pma_len (PageMeta s))); [|lia]. mstep.
  unfold page_meta_get.
  destruct (Z.ltb_spec (PHYS_TO_META_INDEX phys) (pma_extended_len (PageMeta s))); [|lia]. mstep.
  destruct (Z.ltb_spec (PHYS_TO_META_INDEX phys) (pma_reserved_start (PageMeta s))); [|lia].
  unfold meta_wr_many.
  destruct (Z.leb_spec (PHYS_TO_META_INDEX phys + k) (pma_len (PageMeta s))); [done|lia].
Qed.
End take.

Lemma meta_fill_1 i v m : meta_fill (Z.to_nat 1) i v m = <[i := v]> m.
Proof. done. Qed.

(** One page: every step of [com_mm_pmm_alloc], on a list that is not
    empty. *)
Lemma alloc_step s :
  pmm_inv s → MainFreeList s ≠ [] →
  ∃ p s', com_mm_pmm_alloc s = Ok (p, s') ∧ pmm_inv s' ∧ valid_phys p ∧ ¬ pmm_taken s p ∧
    (∀ q, pmm_taken s' q ↔ q = p ∨ pmm_taken s q) ∧
    meta_of s' p = taken_model ∧
    fl_page_list (MainFreeList s) ≡ₚ ARCH_PHYS_TO_HHDM p :: fl_page_list (MainFreeList s').
Proof.
  intros Hinv Hne. pose proof Hinv as (Hfl & _ & _ & Hext & Hfree & _).
  destruct (pop_rear_spec _ Hfl Hne) as (a & fl' & Hpop & Hfl' & Hperm).
  unfold com_mm_pmm_alloc. rewrite Hpop. mstep.
  assert (Hin : a ∈ fl_page_list (MainFreeList s)) by (rewrite Hperm; apply elem_of_cons; by left).
  assert (Hblk : fe_wf (mkFe a 1)).
  { apply list_elem_of_In, in_concat in Hin as (l & Hl & Ha). apply in_map_iff in Hl as (e & <- & He).
    apply list_elem_of_In, fe_page_list_elem in Ha as (j & Hj & ->).
    unfold fl_wf in Hfl. rewrite Forall_forall in Hfl. apply list_elem_of_In, Hfl in He.
    destruct He as (? & ? & ? & Hm).
    assert (Hma : (fe_addr e + j * ARCH_PAGE_SIZE) mod ARCH_PAGE_SIZE = 0)
      by (rewrite Z.add_mod, Hm, Z.mod_mul; done).
    unfold fe_wf, ARCH_PAGE_SIZE in *. cbn [fe_addr fe_pages]. split_and!; (done || lia). }
  assert (Hperm' : fl_page_list (MainFreeList s) ≡ₚ fe_page_list (mkFe a 1) ++ fl_page_list fl')
    by (rewrite fe_page_list_1; done).
  destruct (take_page s a 1 fl' Hinv Hblk Hperm' 0) as (Hv & _ & Hr & Hst & Hrf); [lia|].
  rewrite Z.mul_0_l, Z.add_0_r in *. unfold page_meta_get.
  destruct (Z.ltb_spec (PHYS_TO_META_INDEX (ARCH_HHDM_TO_PHYS a)) (pma_extended_len (PageMeta s))); [|lia].
  mstep. destruct (Z.ltb_spec (PHYS_TO_META_INDEX (ARCH_HHDM_TO_PHYS a)) (pma_reserved_start (PageMeta s))); [|lia].
  unfold meta_of in Hst, Hrf. unfold meta_rd. rewrite Hst, Hrf. rewrite bool_decide_true by done. mstep.
  rewrite Z.eqb_refl. mstep.
  eexists _, _. split; [done|].
  pose proof (take_inv s a 1 fl' Hinv Hfl' Hblk Hperm') as Hinv'.
  pose proof (take_taken s a 1 fl' Hinv Hblk Hperm') as Htk.
  pose proof (take_fresh s a 1 fl' Hinv Hblk Hperm' 0 ltac:(lia)) as Hfr.
  pose proof (take_meta s a 1 fl' Hblk _ Hv) as Hmt.
  rewrite decide_True in Hmt by lia. rewrite Z.mul_0_l, Z.add_0_r in Hfr.
  unfold mark_taken in *. rewrite meta_fill_1 in *.
  split; [exact Hinv'|]. split; [done|]. split; [done|]. split; [|split; [exact Hmt|]].
  - intros q. rewrite Htk. f_equiv. split.
    + intros (i & ? & ->). replace i with 0 by lia. lia.
    + intros ->. exists 0. lia.
  - cbn. rewrite Hperm. f_equiv. unfold ARCH_PHYS_TO_HHDM.
    rewrite (take_phys a 1 Hblk).
    replace (HHDM_BASE + (a - HHDM_BASE)) with a by lia. symmetry. apply wrap_small.
    destruct Hblk as (_ & ? & Hu & _). cbn in *. unfold HHDM_BASE, ARCH_PAGE_SIZE in *. lia.
Qed.

(** The manager is a page allocator in the sense of the page trees. *)
#[export] Program Instance pmm_page_alloc : PageAlloc pmm := {|
  pa_alloc := com_mm_pmm_alloc_zero;
  pa_inv := pmm_inv;
  pa_taken := pmm_taken;
  pa_free s := length (fl_page_list (MainFreeList s))
|}.
Next Obligation.
  intros s p s' Hinv Hal. destruct (decide (MainFreeList s = [])) as [He|Hne].
  - unfold com_mm_pmm_alloc_zero, com_mm_pmm_alloc, freelist_pop_rear_nolock in Hal. by rewrite He in Hal.
  - destruct (alloc_step s Hinv Hne) as (p' & s'' & Hal' & ? & ? & ? & ? & _).
    unfold com_mm_pmm_alloc_zero in Hal. rewrite Hal' in Hal. injection Hal as <- <-. done.
Qed.
Next Obligation.
  intros s Hinv Hfree. cbn in *. assert (Hne : MainFreeList s ≠ []) by (intros He; rewrite He in Hfree; simpl in Hfree; lia).
  destruct (alloc_step s Hinv Hne) as (p & s' & Hal & _ & _ & _ & _ & _ & Hperm).
  exists p, s'. split; [done|]. by rewrite Hperm.
Qed.

(** ** Properties *)

(** C10: Allocating a page never fails while the free list holds one: it hands out
    a page that was free, moves exactly that page from the free list to the
    taken pages, gives it one reference, and keeps the manager's invariant
    (distinct free pages, metadata and statistics in step). *)
Theorem com_mm_pmm_alloc_fresh s :
  pmm_inv s → MainFreeList s ≠ [] →
  ∃ p s', com_mm_pmm_alloc s = Ok (p, s') ∧ pmm_inv s' ∧ ¬ pmm_taken s p ∧
    (∀ q, pmm_taken s' q ↔ q = p ∨ pmm_taken s q) ∧ pm_num_ref (meta_of s' p) = 1 ∧
    fl_page_list (MainFreeList s) ≡ₚ ARCH_PHYS_TO_HHDM p :: fl_page_list (MainFreeList s').
Proof.
  intros Hinv Hne. destruct (alloc_step s Hinv Hne) as (p & s' & ? & ? & _ & ? & ? & Hm & ?).
  exists p, s'. rewrite Hm. done.
Qed.

(** On an ordered list, an allocation of up to [pages] pages takes a block of
    contiguous free pages from the largest entry, as much of it as asked for,
    and keeps the invariant. *)
Theorem com_mm_pmm_alloc_max_block s pages :
  pmm_inv s → fl_sorted (MainFreeList s) → MainFreeList s ≠ [] → 2 ≤ pages →
  ∃ p k s', com_mm_pmm_alloc_max s pages = Ok (p, Some k, s') ∧ pmm_inv s' ∧
    1 ≤ k ∧ k = Z.min pages (default 0 (fe_pages <$> head (MainFreeList s))) ∧
    (∀ i, 0 ≤ i < k → ¬ pmm_taken s (p + i * ARCH_PAGE_SIZE)) ∧
    (∀ q, pmm_taken s' q ↔ (∃ i, 0 ≤ i < k ∧ q = p + i * ARCH_PAGE_SIZE) ∨ pmm_taken s q).
Proof.
  intros Hinv Hs Hne Hp. pose proof Hinv as (Hfl & Hnd & _).
  destruct (pop_front_spec _ pages Hfl Hnd Hs Hne) as (a & k & fl' & Hpop & Hfl' & Hk & Hk1 & Hblk & Hperm); [lia|].
  unfold com_mm_pmm_alloc_max. destruct (Z.eqb_spec 1 pages); [lia|]. rewrite Hpop. mstep.
  rewrite (take_page_meta_set s a k fl' Hinv Hblk Hperm). mstep.
  eexists _, _, _. split; [done|]. split; [by apply take_inv|]. split; [done|]. split; [done|].
  split; [by eapply take_fresh|]. intros q. by eapply take_taken.
Qed.

(** Giving a reserved block back makes all its pages free and keeps the
    invariant, wherever the block goes in the list and whatever it merges
    with. *)
Theorem com_mm_pmm_unreserve_many_frees s base pages :
  pmm_inv s → fe_wf (mkFe (ARCH_PHYS_TO_HHDM base) pages) → valid_phys base →
  (∀ a, a ∈ fe_page_list (mkFe (ARCH_PHYS_TO_HHDM base) pages) → a ∉ fl_page_list (MainFreeList s)) →
  PHYS_TO_META_INDEX base + pages ≤ pma_reserved_start (PageMeta s) →
  ∃ s', com_mm_pmm_unreserve_many s base pages = Ok s' ∧ pmm_inv s' ∧
    fl_page_list (MainFreeList s') ≡ₚ
      fe_page_list (mkFe (ARCH_PHYS_TO_HHDM base) pages) ++ fl_page_list (MainFreeList s).
Proof.
  intros (Hfl & Hnd & Hlen & Hext & Hfree & Hst) Hblk Hbase Hdis Hidx.
  set (e := mkFe (ARCH_PHYS_TO_HHDM base) pages) in *. assert (Hpg : 1 ≤ pages) by apply Hblk.
  destruct (add_ordered_spec (MainFreeList s) e Hfl Hblk) as [Hfl' Hperm].
  unfold com_mm_pmm_unreserve_many, page_meta_get.
  destruct (Z.ltb_spec (PHYS_TO_META_INDEX base) (pma_extended_len (PageMeta s))); [|lia]. mstep.
  destruct (Z.ltb_spec (PHYS_TO_META_INDEX base) (pma_reserved_start (PageMeta s))); [|lia].
  unfold meta_wr_many. destruct (Z.leb_spec (PHYS_TO_META_INDEX base + pages) (pma_len (PageMeta s))); [|lia].
  mstep. eexists. split; [done|]. split; [|exact Hperm].
  split; [exact Hfl'|]. split.
  { cbn. fold e. rewrite Hperm. apply NoDup_app. split; [|by split].
    unfold fe_page_list. apply NoDup_fmap_2_strong; [|apply NoDup_seqZ].
    intros x y _ _. unfold ARCH_PAGE_SIZE. lia. }
  split; [exact Hlen|]. split; [exact Hext|]. split.
  - intros a Ha. cbn. unfold meta_of. cbn. rewrite meta_fill_lookup, Z2Nat.id by lia.
    fold e in Ha. cbn in Ha. rewrite Hperm in Ha. apply elem_of_app in Ha as [Ha|Ha].
    + apply fe_page_list_elem in Ha as (i & Hi & ->). destruct (fe_wf_page e i Hblk Hi) as (_ & -> & ->).
      replace (fe_addr e - HHDM_BASE) with base by (cbn; rewrite valid_phys_hhdm by done; lia).
      cbn in Hi. rewrite decide_True by lia. split; [lia|done].
    + destruct (Hfree a Ha) as (Hr & Hf & Hn). split; [done|]. case_decide; [done|]. done.
  - cbn. fold e. rewrite Hperm, length_app, length_fe_page_list, Hst. cbn [fe_pages e].
    rewrite wrap_add_l. f_equal. lia.
Qed.

(** A machine with two usable segments of one spare page each (the first also
    holds the metadata array) and a reclaimable page after the second. *)
Definition gap_memmap : list arch_memmap_entry :=
  [mkMm 0x1000 0x2000 LIMINE_MEMMAP_USABLE; mkMm 0x5000 0x1000 LIMINE_MEMMAP_USABLE;
   mkMm 0x6000 0x1000 LIMINE_MEMMAP_BOOTLOADER_RECLAIMABLE].

(** The list is not kept ordered: merging a page into the last entry can make
    it larger than the first. [freelist_pop_front_nolock] then re-inserts the
    entry it has just handed out: on this machine, after the reclaimable page
    is given back, a request for up to two pages returns page 2 and leaves it
    on the free list, and the next single-page allocation takes it again and
    stops the kernel on its assertion. *)
Theorem pop_front_double_allocates :
  ∃ s0 s1 s2,
    com_mm_pmm_init gap_memmap = Ok s0 ∧ com_mm_pmm_unreserve_many s0 0x6000 1 = Ok s1 ∧
    com_mm_pmm_alloc_max s1 2 = Ok (0x2000, Some 1, s2) ∧
    ARCH_PHYS_TO_HHDM 0x2000 ∈ fl_page_list (MainFreeList s2) ∧
    com_mm_pmm_alloc s2 = Panic.
Proof.
  eexists _, _, _. split; [vm_compute; reflexivity|]. split; [vm_compute; reflexivity|].
  split; [vm_compute; reflexivity|]. split; [|vm_compute; reflexivity].
  apply (bool_decide_eq_true_1 _). vm_compute. reflexivity.
Qed.

(** ** Witnesses *)

(** A machine with one segment of usable memory. *)
Definition demo_memmap : list arch_memmap_entry :=
  [mkMm 0x1000 0x4000 LIMINE_MEMMAP_USABLE; mkMm 0x5000 0x1000 LIMINE_MEMMAP_BOOTLOADER_RECLAIMABLE].
Definition demo_pmm : pmm :=
  match com_mm_pmm_init demo_memmap with Ok s => s | _ => pmm_boot end.

Lemma demo_pmm_init : com_mm_pmm_init demo_memmap = Ok demo_pmm.
Proof. vm_compute. reflexivity. Qed.

Lemma demo_pmm_pages : fl_page_list (MainFreeList demo_pmm) =
  [ARCH_PHYS_TO_HHDM 0x2000; ARCH_PHYS_TO_HHDM 0x3000; ARCH_PHYS_TO_HHDM 0x4000].
Proof. vm_compute. reflexivity. Qed.

Lemma demo_pmm_inv : pmm_inv demo_pmm.
Proof.
  split; [|rewrite demo_pmm_pages; split; [|split; [|split; [|split]]]].
  - replace (MainFreeList demo_pmm) with [mkFe (ARCH_PHYS_TO_HHDM 0x2000) 3] by (vm_compute; reflexivity).
    apply Forall_singleton. split_and!; vm_compute; done.
  - apply (bool_decide_eq_true_1 _). vm_compute. reflexivity.
  - vm_compute. discriminate.
  - vm_compute. discriminate.
  - intros a Ha. repeat (apply elem_of_cons in Ha as [-> | Ha]; [vm_compute; done|]).
    by apply not_elem_of_nil in Ha.
  - vm_compute. reflexivity.
Qed.

Lemma com_mm_pmm_alloc_fresh_witness :
  ∃ p s', com_mm_pmm_alloc demo_pmm = Ok (p, s') ∧ pmm_inv s' ∧ ¬ pmm_taken demo_pmm p ∧
    (∀ q, pmm_taken s' q ↔ q = p ∨ pmm_taken demo_pmm q) ∧ pm_num_ref (meta_of s' p) = 1 ∧
    fl_page_list (MainFreeList demo_pmm) ≡ₚ ARCH_PHYS_TO_HHDM p :: fl_page_list (MainFreeList s').
Proof. exact (com_mm_pmm_alloc_fresh demo_pmm demo_pmm_inv ltac:(vm_compute; done)). Defined.

Lemma com_mm_pmm_alloc_max_block_witness :
  ∃ p k s', com_mm_pmm_alloc_max demo_pmm 2 = Ok (p, Some k, s') ∧ pmm_inv s' ∧ 1 ≤ k ∧ k = 2 ∧
    (∀ i, 0 ≤ i < k → ¬ pmm_taken demo_pmm (p + i * ARCH_PAGE_SIZE)) ∧
    (∀ q, pmm_taken s' q ↔ (∃ i, 0 ≤ i < k ∧ q = p + i * ARCH_PAGE_SIZE) ∨ pmm_taken demo_pmm q).
Proof.
  exact (com_mm_pmm_alloc_max_block demo_pmm 2 demo_pmm_inv
    ltac:(vm_compute; repeat constructor) ltac:(vm_compute; done) ltac:(lia)).
Defined.

Lemma com_mm_pmm_unreserve_many_frees_witness :
  ∃ s', com_mm_pmm_unreserve_many demo_pmm 0x5000 1 = Ok s' ∧ pmm_inv s' ∧
    fl_page_list (MainFreeList s') ≡ₚ
      [ARCH_PHYS_TO_HHDM 0x5000] ++ fl_page_list (MainFreeList demo_pmm).
Proof.
  refine (com_mm_pmm_unreserve_many_frees demo_pmm 0x5000 1 demo_pmm_inv _ _ _ _).
  - vm_compute. repeat split; discriminate.
  - split; [lia|reflexivity].
  - intros a Ha. apply (bool_decide_eq_true_1 _). apply fe_page_list_elem in Ha as (k & Hk & ->).
    cbn in Hk. replace k with 0 by lia. vm_compute. reflexivity.
  - vm_compute. discriminate.
Defined.
