(* ===== verification/Pmmcache.v ===== *)
(** * The per-CPU page cache of src/com/mm/pmmcache.c

    A chain of page pools taken from the physical memory manager in batches.
    A [struct pool] lives at the start of the block it describes; here the
    chain is a list of (address, length) pairs, and the clearing of the header
    of an allocated page and of a freed page are left out with the rest of
    the pages' contents. The lock is taken and released around each operation
    and is left out. *)
From S2P Require Import Prelude PageTree Pmm.

Record pmm_cache : Type := mkCache {
  pc_pool_size : Z;
  pc_max_pool_size : Z;
  pc_pool : list (Z * Z);
  pc_avail_pages : Z;
  pc_flags : Z
}.

Definition COM_MM_PMM_CACHE_FLAGS_AUTOLOCK : Z := 1.
Definition COM_MM_PMM_CACHE_FLAGS_AUTOMERGE : Z := 2.
Definition COM_MM_PMM_CACHE_FLAGS_AUTOALLOC : Z := 4.
Definition HAS_AUTOMERGE (c : pmm_cache) : bool :=
  negb (Z.land COM_MM_PMM_CACHE_FLAGS_AUTOMERGE (pc_flags c) =? 0).
Definition HAS_AUTOALLOC (c : pmm_cache) : bool :=
  negb (Z.land COM_MM_PMM_CACHE_FLAGS_AUTOALLOC (pc_flags c) =? 0).

(** The loop of [pmm_cache_new_pool]. [curr_size] is not initialised, so
    reading it when the allocation has not stored it is a fault. *)
Fixpoint new_pool_loop (fuel : nat) (s : pmm) (pages allocated : Z) (pool : list (Z * Z))
    : res (list (Z * Z) * pmm) :=
  match fuel with
  | O => Fuel
  | S fuel =>
      if allocated <? pages then
        '(phys, curr_size, s) ← com_mm_pmm_alloc_max_zero s pages;
        curr_size ← deref curr_size;
        new_pool_loop fuel s pages (u64 (allocated + curr_size))
          (pool ++ [(ARCH_PHYS_TO_HHDM phys, curr_size)])
      else Ok (pool, s)
  end.

(** Every turn takes at least a page. *)
Definition pmm_cache_new_pool (s : pmm) (pages : Z) : res (list (Z * Z) * pmm) :=
  new_pool_loop (S (Z.to_nat pages)) s pages 0 [].

(** Returns the page, 0 standing for [NULL]. *)
Definition com_mm_pmm_cache_alloc (c : pmm_cache) (s : pmm) (pages : Z) : res (Z * pmm_cache * pmm) :=
  KASSERT (1 =? pages);;
  r ← match pc_pool c with
      | [] =>
          KASSERT (0 =? pc_avail_pages c);;
          if negb (HAS_AUTOALLOC c) then Ok None
          else
            '(pool, s) ← pmm_cache_new_pool s (pc_pool_size c);
            Ok (Some (pool, pc_pool_size c, s))
      | pool => Ok (Some (pool, pc_avail_pages c, s))
      end;
  match r with
  | None => Ok (0, c, s)
  | Some (pool, avail, s) =>
      match pool with
      | [] => Fault
      | (addr, len) :: rest =>
          let len := u64 (len - 1) in
          let pool := if len =? 0 then rest else (u64 (addr + ARCH_PAGE_SIZE), len) :: rest in
          Ok (ARCH_HHDM_TO_PHYS addr,
              mkCache (pc_pool_size c) (pc_max_pool_size c) pool (u64 (avail - 1)) (pc_flags c), s)
      end
  end.

Definition com_mm_pmm_cache_free (c : pmm_cache) (page : Z) : pmm_cache :=
  if HAS_AUTOMERGE c then c
  else mkCache (pc_pool_size c) (pc_max_pool_size c) ((ARCH_PHYS_TO_HHDM page, 1) :: pc_pool c)
         (u64 (pc_avail_pages c + 1)) (pc_flags c).

Definition com_mm_pmm_cache_init (s : pmm) (init_size pool_size max_pool_size flags : Z)
    : res (pmm_cache * pmm) :=
  '(pool, s) ← pmm_cache_new_pool s init_size;
  Ok (mkCache pool_size max_pool_size pool init_size flags, s).

(** ** Lemmas *)

(** The pages of a chain, as a free list's pages. *)
Definition pool_pages (pool : list (Z * Z)) : list Z :=
  fl_page_list (map (λ '(a, n), mkFe a n) pool).

Definition pool_wf (pool : list (Z * Z)) : Prop := fl_wf (map (λ '(a, n), mkFe a n) pool).

Lemma fe_page_list_S a n :
  1 ≤ n → fe_page_list (mkFe a n) = a :: fe_page_list (mkFe (a + ARCH_PAGE_SIZE) (n - 1)).
Proof.
  intros Hn. replace n with (1 + (n - 1)) at 1 by lia.
  rewrite fe_page_list_app, fe_page_list_1, Z.mul_1_l by lia. done.
Qed.

(** ** Properties *)

(** While a pool has pages, the cache hands out its next one and leaves the
    physical memory manager alone; the pages still in the pool are exactly
    the others, so no page is handed out twice. *)
Theorem com_mm_pmm_cache_alloc_next c s :
  pc_pool c ≠ [] → pool_wf (pc_pool c) →
  ∃ a c', com_mm_pmm_cache_alloc c s 1 = Ok (ARCH_HHDM_TO_PHYS a, c', s) ∧ pool_wf (pc_pool c') ∧
    pool_pages (pc_pool c) = a :: pool_pages (pc_pool c') ∧
    pc_avail_pages c' = u64 (pc_avail_pages c - 1).
Proof.
  intros Hne Hwf. unfold com_mm_pmm_cache_alloc. mstep. destruct c as [ps mps pool avail flags].
  cbn [pc_pool pc_avail_pages pc_pool_size pc_max_pool_size pc_flags] in *. destruct pool as [|[a n] rest]; [done|]. mstep.
  pose proof Hwf as Hwf'. apply Forall_cons in Hwf' as [He Hrest].
  pose proof (fl_wf_bound _ He) as (Hn & Ha & _). destruct He as (H1 & H2 & H3 & H4).
  cbn [fe_addr fe_pages] in *. rewrite (wrap_small 64 (n - 1)) by lia.
  eexists a, _. split; [done|]. cbn [pc_pool pc_avail_pages].
  unfold pool_pages. cbn [map]. rewrite fl_page_list_cons, fe_page_list_S by done.
  destruct (Z.eqb_spec (n - 1) 0) as [Hz|Hz].
  - split; [done|]. split; [|done]. rewrite Hz. done.
  - rewrite wrap_small by (unfold ARCH_PAGE_SIZE, HHDM_BASE in *; lia). split; [|done].
    constructor; [|done]. unfold fe_wf, ARCH_PAGE_SIZE in *. cbn [fe_addr fe_pages].
    split_and!; [lia|lia|lia|]. replace (a + 4096) with (a + 1 * 4096) by lia.
    by rewrite Z.mod_add.
Qed.

Lemma com_mm_pmm_cache_alloc_next_witness :
  ∃ a c', com_mm_pmm_cache_alloc (mkCache 4 8 [(ARCH_PHYS_TO_HHDM 0x7000, 2)] 2 4) demo_pmm 1 =
      Ok (ARCH_HHDM_TO_PHYS a, c', demo_pmm) ∧ pool_wf (pc_pool c') ∧
    pool_pages [(ARCH_PHYS_TO_HHDM 0x7000, 2)] = a :: pool_pages (pc_pool c') ∧
    pc_avail_pages c' = u64 (2 - 1).
Proof.
  refine (com_mm_pmm_cache_alloc_next (mkCache 4 8 [(ARCH_PHYS_TO_HHDM 0x7000, 2)] 2 4) demo_pmm _ _); [done|].
  constructor; [|constructor]. split_and!; vm_compute; done.
Defined.

(** The loop that fills a pool asks for the whole size again on every turn,
    so with fragmented memory the pool holds more pages than [avail_pages]
    says. Here a cache is set up for four pages on a machine whose largest
    free blocks have three and two; it gets five, and the sixth allocation
    stops the kernel on [KASSERT(0 == avail_pages)], although the manager has
    pages left. *)
Definition fragmented_memmap : list arch_memmap_entry :=
  [mkMm 0x1000 0x1000 LIMINE_MEMMAP_USABLE; mkMm 0x5000 0x3000 LIMINE_MEMMAP_USABLE;
   mkMm 0x9000 0x2000 LIMINE_MEMMAP_USABLE; mkMm 0xc000 0x2000 LIMINE_MEMMAP_USABLE].

Fixpoint alloc_n (n : nat) (c : pmm_cache) (s : pmm) : res (pmm_cache * pmm) :=
  match n with
  | O => Ok (c, s)
  | S n => '(_, c, s) ← com_mm_pmm_cache_alloc c s 1; alloc_n n c s
  end.

Theorem new_pool_overallocates :
  ∃ s0 c s1 c5 s5,
    com_mm_pmm_init fragmented_memmap = Ok s0 ∧
    com_mm_pmm_cache_init s0 4 4 8 COM_MM_PMM_CACHE_FLAGS_AUTOALLOC = Ok (c, s1) ∧
    length (pool_pages (pc_pool c)) = 5%nat ∧ pc_avail_pages c = 4 ∧
    alloc_n 5 c s1 = Ok (c5, s5) ∧ MainFreeList s5 ≠ [] ∧
    com_mm_pmm_cache_alloc c5 s5 1 = Panic.
Proof.
  eexists _, _, _, _, _. split; [vm_compute; reflexivity|]. split; [vm_compute; reflexivity|].
  split; [vm_compute; reflexivity|]. split; [vm_compute; reflexivity|].
  split; [vm_compute; reflexivity|]. split; [vm_compute; discriminate|]. vm_compute; reflexivity.
Qed.
