(* ===== verification/Mmu.v ===== *)
(** * The x86-64 page tables of src/platform/x86-64/mmu.c

    Four-level tables in memory (a [pheap] of pages of 512 entries, see
    [PageTree.v]), their walks, mapping, unmapping and protection changes,
    duplication with copy-on-write and destruction, the boot-time root table,
    the choice of processors to interrupt for a TLB shootdown, and the range
    the page-fault handler passes on. A table is named by its physical
    address, as in the code. Loading cr3, [invlpg] and sending the interrupts
    are left out. *)
From S2P Require Import Prelude PageTree Pmm.

(** ** Constants *)
Definition ADDRMASK : Z := 0x7ffffffffffff000.
Definition PTMASK : Z := 0x1ff000.
Definition PDMASK : Z := 0x3fe00000.
Definition PDPTMASK : Z := 0x7fc0000000.
Definition PML4MASK : Z := 0xff8000000000.
Definition DEPTH_PDPT : Z := 1.
Definition DEPTH_PD : Z := 2.
Definition DEPTH_PT : Z := 3.

Definition ARCH_MMU_FLAGS_READ : Z := 1.
Definition ARCH_MMU_FLAGS_WRITE : Z := 2.
Definition ARCH_MMU_FLAGS_USER : Z := 4.
Definition ARCH_MMU_FLAGS_PRESENT : Z := 1.
Definition ARCH_MMU_FLAGS_NOEXEC : Z := Z.shiftl 1 63.
Definition ARCH_MMU_FLAGS_GLOBAL : Z := Z.shiftl 1 8.
Definition ARCH_MMU_FLAGS_WT : Z := Z.shiftl 1 3.
Definition ARCH_MMU_FLAGS_WC : Z := Z.lor (Z.shiftl 1 7) ARCH_MMU_FLAGS_WT.
Definition ARCH_MMU_EXTRA_FLAGS_SHARED : Z := Z.shiftl 1 10.
Definition ARCH_MMU_EXTRA_FLAGS_PRIVATE : Z := Z.shiftl 1 9.
Definition ARCH_MMU_EXTRA_FLAGS_NOCOPY : Z := Z.shiftl 1 11.

Definition ARCH_MMU_KERNELSPACE_START : Z := 0xffff800000000000.
Definition ARCH_MMU_USERSPACE_START : Z := 0.

(** A C condition [flag & entry]. *)
Definition has (flag entry : Z) : bool := negb (Z.land flag entry =? 0).
(** [entry & ~mask] on 64 bits. *)
Definition without (entry mask : Z) : Z := Z.ldiff entry mask.

(** ** What the tables need of the allocators

    Tables come from the per-CPU cache ([pa_alloc], [tb_free]); data pages
    are counted by the physical memory manager ([pg_hold], [pg_free]).
    Counting references changes neither which pages are handed out nor how
    many are left. *)
Class TableMem (A : Type) `{PageAlloc A} := {
  tb_free : A → Z → res A;
  pg_hold : A → Z → res A;
  pg_free : A → Z → res A;
  pg_hold_ok a p a' : pa_inv a → pg_hold a p = Ok a' →
    pa_inv a' ∧ (∀ q, pa_taken a' q ↔ pa_taken a q) ∧ pa_free a' = pa_free a
}.

(** ** Walking *)

(** [next]: the page an entry points to; 0 stands for [NULL]. *)
Definition next (entry : Z) : Z :=
  if entry =? 0 then 0 else ARCH_PHYS_TO_HHDM (Z.land entry ADDRMASK).

Definition ptoffset (vaddr : Z) : Z := Z.shiftr (Z.land vaddr PTMASK) 12.
Definition pdoffset (vaddr : Z) : Z := Z.shiftr (Z.land vaddr PDMASK) 21.
Definition pdptoffset (vaddr : Z) : Z := Z.shiftr (Z.land vaddr PDPTMASK) 30.
Definition pml4offset (vaddr : Z) : Z := Z.shiftr (Z.land vaddr PML4MASK) 39.

(** The pointer to the entry of a page: its table and index. *)
Definition get_page (h : pheap) (top vaddr : Z) : res (option (Z * Z)) :=
  let pml4 := ARCH_PHYS_TO_HHDM top in
  w ← rd h pml4 (pml4offset vaddr);
  let pdpt := next w in
  if pdpt =? 0 then Ok None
  else
    w ← rd h pdpt (pdptoffset vaddr);
    let pd := next w in
    if pd =? 0 then Ok None
    else
      w ← rd h pd (pdoffset vaddr);
      let pt := next w in
      if pt =? 0 then Ok None else Ok (Some (pt, ptoffset vaddr)).

Section mmu.
Context `{TableMem A}.

(** [next(table[i])], or a fresh table stored there; [None] when none can
    be had. *)
Definition next_or_alloc (h : pheap) (a : A) (table i : Z) : res (option Z * pheap * A) :=
  w ← rd h table i;
  if next w =? 0 then
    '(pg, a) ← pa_alloc a;
    if pg =? 0 then Ok (None, h, a)
    else
      h ← wr h table i (Z.lor (Z.lor (Z.lor pg ARCH_MMU_FLAGS_READ) ARCH_MMU_FLAGS_WRITE)
                          ARCH_MMU_FLAGS_USER);
      Ok (Some (ARCH_PHYS_TO_HHDM pg), <[ARCH_PHYS_TO_HHDM pg := ∅]> h, a)
  else Ok (Some (next w), h, a).

Definition add_page (h : pheap) (a : A) (top vaddr entry depth : Z) : res (bool * pheap * A) :=
  let pml4 := ARCH_PHYS_TO_HHDM top in
  if DEPTH_PDPT =? depth then
    h ← wr h pml4 (pml4offset vaddr) entry; Ok (true, h, a)
  else
    '(pdpt, h, a) ← next_or_alloc h a pml4 (pml4offset vaddr);
    match pdpt with
    | None => Ok (false, h, a)
    | Some pdpt =>
        if DEPTH_PD =? depth then
          h ← wr h pdpt (pdptoffset vaddr) entry; Ok (true, h, a)
        else
          '(pd, h, a) ← next_or_alloc h a pdpt (pdptoffset vaddr);
          match pd with
          | None => Ok (false, h, a)
          | Some pd =>
              if DEPTH_PT =? depth then
                h ← wr h pd (pdoffset vaddr) entry; Ok (true, h, a)
              else
                '(pt, h, a) ← next_or_alloc h a pd (pdoffset vaddr);
                match pt with
                | None => Ok (false, h, a)
                | Some pt => h ← wr h pt (ptoffset vaddr) entry; Ok (true, h, a)
                end
          end
    end.

(** ** Mapping *)
Definition arch_mmu_map (h : pheap) (a : A) (pt virt phys flags : Z) : res (bool * pheap * A) :=
  add_page h a pt virt (Z.lor (Z.land phys ADDRMASK) flags) 0.

Definition arch_mmu_chflags (h : pheap) (pt virt new_flags : Z) : res (bool * pheap) :=
  e ← get_page h pt virt;
  match e with
  | None => Ok (false, h)
  | Some (t, i) =>
      w ← rd h t i;
      h ← wr h t i (Z.lor (Z.land w ADDRMASK) new_flags);
      Ok (true, h)
  end.

(** Returns [*out_old_phys], when stored. *)
Definition arch_mmu_unmap (h : pheap) (pt virt : Z) : res (option Z * pheap) :=
  e ← get_page h pt virt;
  match e with
  | None => Ok (None, h)
  | Some (t, i) =>
      w ← rd h t i;
      h ← wr h t i 0;
      Ok (Some (Z.land w ADDRMASK), h)
  end.

(** [NULL] is [None]. *)
Definition arch_mmu_get_physical (h : pheap) (pt virt_addr : Z) : res (option Z) :=
  e ← get_page h pt virt_addr;
  match e with
  | None => Ok None
  | Some (t, i) =>
      w ← rd h t i;
      if Z.land w ADDRMASK =? 0 then Ok None
      else Ok (Some (u64 (Z.land w ADDRMASK + Z.land virt_addr (ARCH_PAGE_SIZE - 1))))
  end.

Definition arch_mmu_is_cow (h : pheap) (pt virt_addr : Z) : res bool :=
  e ← get_page h pt virt_addr;
  match e with
  | None => Ok false
  | Some (t, i) => w ← rd h t i; Ok (has ARCH_MMU_EXTRA_FLAGS_PRIVATE w)
  end.

Definition arch_mmu_is_executable (h : pheap) (pt virt_addr : Z) : res bool :=
  e ← get_page h pt virt_addr;
  match e with
  | None => Ok false
  | Some (t, i) => w ← rd h t i; Ok (negb (has ARCH_MMU_FLAGS_NOEXEC w))
  end.

(** ** Duplication

    The entry of a data page in both tables afterwards: shared pages keep
    their entry, others lose the write bit and remember it in bit 9. *)
Definition cow_entry (entry : Z) : Z :=
  if has ARCH_MMU_EXTRA_FLAGS_SHARED entry then entry
  else Z.lor (without entry ARCH_MMU_FLAGS_WRITE)
         (Z.shiftl (if has ARCH_MMU_FLAGS_WRITE entry then 1 else 0) 9).

(** The loop over the entries of a table, from entry [i] on; [dup] is the
    recursive call. *)
Fixpoint dup_loop (dup : pheap → A → Z → res (Z * pheap * A)) (level : nat) (virt nvirt : Z)
    (todo : nat) (i : Z) (h : pheap) (a : A) : res (pheap * A) :=
  match todo with
  | O => Ok (h, a)
  | S todo =>
      w ← rd h virt i;
      if has ARCH_MMU_FLAGS_PRESENT w then
        '(n, h, a) ← dup h a w;
        h ← wr h nvirt i n;
        h ← (if (level =? 1)%nat then wr h virt i n else Ok h);
        dup_loop dup level virt nvirt todo (i + 1) h a
      else dup_loop dup level virt nvirt todo (i + 1) h a
  end.

(** [addr], which the code only passes on, is left out. *)
Fixpoint duplicate_recursive (level : nat) (h : pheap) (a : A) (entry : Z) : res (Z * pheap * A) :=
  let virt := ARCH_PHYS_TO_HHDM (Z.land entry ADDRMASK) in
  if negb (has ARCH_MMU_FLAGS_PRESENT entry) then Ok (0, h, a)
  else match level with
  | O =>
      a ← pg_hold a (Z.land entry ADDRMASK);
      Ok (cow_entry entry, h, a)
  | S level' =>
      '(new, a) ← pa_alloc a;
      let nvirt := ARCH_PHYS_TO_HHDM new in
      '(h, a) ← dup_loop (duplicate_recursive level') level virt nvirt 512 0 (<[nvirt := ∅]> h) a;
      Ok (Z.lor new (without entry ADDRMASK), h, a)
  end.

(** [destroy_recursive]; a freed table is gone from the heap. *)
Fixpoint destroy_loop (destroy : pheap → A → Z → res (pheap * A)) (directory : Z)
    (todo : nat) (i : Z) (h : pheap) (a : A) : res (pheap * A) :=
  match todo with
  | O => Ok (h, a)
  | S todo =>
      w ← rd h directory i;
      if has ARCH_MMU_FLAGS_PRESENT w then
        '(h, a) ← destroy h a w; destroy_loop destroy directory todo (i + 1) h a
      else destroy_loop destroy directory todo (i + 1) h a
  end.

Fixpoint destroy_recursive (level : nat) (h : pheap) (a : A) (entry : Z) : res (pheap * A) :=
  let phys := Z.land entry ADDRMASK in
  let directory := ARCH_PHYS_TO_HHDM phys in
  match level with
  | S level' =>
      '(h, a) ← destroy_loop (destroy_recursive level') directory 512 0 h a;
      a ← tb_free a phys;
      Ok (delete directory h, a)
  | O => a ← pg_free a phys; Ok (h, a)
  end.

(** [RootTable] is the higher-half address of the kernel's table. *)
Definition arch_mmu_new_table (RootTable : Z) (h : pheap) (a : A) : res (option Z * pheap * A) :=
  '(table, a) ← pa_alloc a;
  if table =? 0 then Ok (None, h, a)
  else
    root ← deref (h !! RootTable);
    let half := filter (λ kv : Z * Z, 256 ≤ kv.1 < 512) root in
    Ok (Some table, <[ARCH_PHYS_TO_HHDM table := half]> h, a).

Definition arch_mmu_destroy_table (h : pheap) (a : A) (pt : Z) : res (pheap * A) :=
  let pt_virt := ARCH_PHYS_TO_HHDM pt in
  '(h, a) ← destroy_loop (destroy_recursive 3) pt_virt 256 0 h a;
  a ← tb_free a pt;
  Ok (delete pt_virt h, a).

Definition arch_mmu_duplicate_table (RootTable : Z) (h : pheap) (a : A) (pt : Z)
    : res (option Z * pheap * A) :=
  '(new_pt, h, a) ← arch_mmu_new_table RootTable h a;
  match new_pt with
  | None => Ok (None, h, a)
  | Some new_pt =>
      let new_virt := ARCH_PHYS_TO_HHDM new_pt in
      let pt_virt := ARCH_PHYS_TO_HHDM pt in
      '(h, a) ← dup_loop (duplicate_recursive 3) 4 pt_virt new_virt 256 0 h a;
      Ok (Some new_pt, h, a)
  end.

(** ** Boot *)

(** [for (i = start; i < end; i += ARCH_PAGE_SIZE)] around an [add_page]
    that must succeed. *)
Fixpoint map_loop (fuel : nat) (h : pheap) (a : A) (top i end_ : Z) (virt entry : Z → Z)
    : res (pheap * A) :=
  match fuel with
  | O => Fuel
  | S fuel =>
      if i <? end_ then
        '(ok, h, a) ← add_page h a top (virt i) (entry i) 0;
        KASSERT ok;;
        map_loop fuel h a top (u64 (i + ARCH_PAGE_SIZE)) end_ virt entry
      else Ok (h, a)
  end.

(** One turn per page is enough. *)
Definition map_range (h : pheap) (a : A) (top start end_ : Z) (virt entry : Z → Z)
    : res (pheap * A) :=
  map_loop (S (Z.to_nat ((end_ - start) / ARCH_PAGE_SIZE + 1))) h a top start end_ virt entry.

Definition ARCH_MEMMAP_IS_MAPPABLE (e : arch_memmap_entry) : bool :=
  bool_decide (mm_type e ≠ LIMINE_MEMMAP_OTHER).
Definition ARCH_MEMMAP_IS_FRAMEBUFFER (e : arch_memmap_entry) : bool :=
  bool_decide (mm_type e = LIMINE_MEMMAP_FRAMEBUFFER).

Fixpoint map_memmap (h : pheap) (a : A) (top : Z) (mm : list arch_memmap_entry) : res (pheap * A) :=
  match mm with
  | [] => Ok (h, a)
  | e :: mm =>
      '(h, a) ← (if ARCH_MEMMAP_IS_MAPPABLE e then
          let other_flags := if ARCH_MEMMAP_IS_FRAMEBUFFER e then ARCH_MMU_FLAGS_WC else 0 in
          map_range h a top 0 (mm_length e) (λ i, ARCH_PHYS_TO_HHDM (mm_base e + i))
            (λ i, Z.lor (Z.lor (Z.lor (Z.lor (Z.land (u64 (mm_base e + i)) ADDRMASK)
               ARCH_MMU_FLAGS_READ) ARCH_MMU_FLAGS_WRITE) ARCH_MMU_FLAGS_NOEXEC) other_flags)
        else Ok (h, a));
      map_memmap h a top mm
  end.

(** The linker's section bounds and the addresses the kernel is loaded at. *)
Record kernel_image : Type := mkImage {
  ki_text : Z * Z; ki_rodata : Z * Z; ki_data : Z * Z;
  ki_virtual_base : Z; ki_physical_base : Z
}.

Fixpoint init_kernel_half (todo : nat) (i : Z) (h : pheap) (a : A) (RootTable : Z) : res (pheap * A) :=
  match todo with
  | O => Ok (h, a)
  | S todo =>
      '(pg, a) ← pa_alloc a;
      KASSERT (negb (pg =? 0));;
      h ← wr h RootTable i (Z.lor (Z.lor (Z.lor pg ARCH_MMU_FLAGS_WRITE) ARCH_MMU_FLAGS_READ)
                              ARCH_MMU_FLAGS_GLOBAL);
      init_kernel_half todo (i + 1) (<[ARCH_PHYS_TO_HHDM pg := ∅]> h) a RootTable
  end.

(** Returns [RootTable]. *)
Definition arch_mmu_init (h : pheap) (a : A) (mm : list arch_memmap_entry) (k : kernel_image)
    : res (Z * pheap * A) :=
  '(top, a) ← pa_alloc a;
  KASSERT (negb (top =? 0));;
  let RootTable := ARCH_PHYS_TO_HHDM top in
  '(h, a) ← init_kernel_half 256 256 (<[RootTable := ∅]> h) a RootTable;
  '(h, a) ← map_memmap h a top mm;
  let vp_delta := u64 (ki_virtual_base k - ki_physical_base k) in
  let kentry (flags i : Z) := Z.lor (Z.lor (Z.land (u64 (i - vp_delta)) ADDRMASK) ARCH_MMU_FLAGS_READ) flags in
  '(h, a) ← map_range h a top (ki_text k).1 (ki_text k).2 id (kentry ARCH_MMU_FLAGS_GLOBAL);
  '(h, a) ← map_range h a top (ki_rodata k).1 (ki_rodata k).2 id
              (kentry (Z.lor ARCH_MMU_FLAGS_NOEXEC ARCH_MMU_FLAGS_GLOBAL));
  '(h, a) ← map_range h a top (ki_data k).1 (ki_data k).2 id
              (kentry (Z.lor (Z.lor ARCH_MMU_FLAGS_WRITE ARCH_MMU_FLAGS_NOEXEC) ARCH_MMU_FLAGS_GLOBAL));
  Ok (RootTable, h, a).
End mmu.

(** ** TLB shootdown

    [internal_invalidate]: the pages of the current address space it drops
    from the TLB, all of them ([None]) or a list. *)
Definition internal_invalidate (virt pages : Z) : option (list Z) :=
  if (virt =? 0) || (32 <? pages) then None
  else Some (map (λ i, u64 (virt + i * ARCH_PAGE_SIZE)) (seqZ 0 pages)).

(** A processor: its id and the page table of the process of its current
    thread, if it runs one. *)
Record cpu : Type := mkCpu { cpu_id : Z; cpu_pt : option Z }.

(** The decisions of [arch_mmu_invalidate]: the processors it interrupts and
    whether it invalidates locally. [curr_proc_threads] is the number of
    running threads of the current process, [None] without a current thread;
    [Some None] without a process. *)
Definition arch_mmu_invalidate (cpus : list cpu) (curr_id : Z) (curr_proc_threads : option (option Z))
    (curr_pt pt virt pages : Z) : list Z * option (option (list Z)) :=
  let is_user := (ARCH_MMU_USERSPACE_START <? virt) &&
                 (u64 (virt + pages * ARCH_PAGE_SIZE) <? ARCH_MMU_KERNELSPACE_START) in
  let do_shootdown := match curr_proc_threads with
    | None => false
    | Some proc =>
        (ARCH_MMU_KERNELSPACE_START <=? virt) ||
        (((virt =? 0) || is_user) && match proc with Some n => 1 <? n | None => false end)
    end in
  (if do_shootdown
   then map cpu_id (filter (λ c, cpu_id c ≠ curr_id ∧ cpu_pt c = Some pt) cpus) else [],
   if pt =? curr_pt then Some (internal_invalidate virt pages) else None).

(** ** Page faults *)
Definition COM_MM_VMM_FAULT_ATTR_COW : Z := 1.
Definition COM_MM_VMM_FAULT_ATTR_MAP : Z := 2.
Definition COM_MM_VMM_PREFAULT_SUPPORTED_ATTR : Z := COM_MM_VMM_FAULT_ATTR_MAP.
Definition CONFIG_VMM_PREFAULT_MAX : Z := 512.

(** The arguments of [com_mm_vmm_handle_fault]. *)
Record fault_args : Type := mkFault {
  fa_virt : Z; fa_phys : Z; fa_mmu_flags_hint : Z; fa_attr : Z; fa_num_pages : Z
}.

Definition read_entry (h : pheap) (pt virt : Z) : res (option Z) :=
  e ← get_page h pt virt;
  match e with
  | None => Ok None
  | Some (t, i) => w ← rd h t i; Ok (Some w)
  end.

(** The backward scan: pages below the fault with the same flags. *)
Fixpoint prefault_back (fuel : nat) (h : pheap) (pt fault_virt mmu_flags num_pages start_entry start_virt : Z)
    : res (Z * Z * Z) :=
  match fuel with
  | O => Fuel
  | S fuel =>
      if num_pages <? CONFIG_VMM_PREFAULT_MAX / 2 then
        e ← read_entry h pt (u64 (fault_virt - ARCH_PAGE_SIZE * num_pages));
        match e with
        | None => Ok (num_pages, start_entry, start_virt)
        | Some prev_entry =>
            if negb (mmu_flags =? without prev_entry ADDRMASK)
            then Ok (num_pages, start_entry, start_virt)
            else prefault_back fuel h pt fault_virt mmu_flags (num_pages + 1) prev_entry
                   (u64 (start_virt - ARCH_PAGE_SIZE))
        end
      else Ok (num_pages, start_entry, start_virt)
  end.

(** The forward scan, which goes on with the same counter. *)
Fixpoint prefault_fwd (fuel : nat) (h : pheap) (pt fault_virt mmu_flags num_pages : Z) : res Z :=
  match fuel with
  | O => Fuel
  | S fuel =>
      if num_pages <? CONFIG_VMM_PREFAULT_MAX then
        e ← read_entry h pt (u64 (fault_virt + ARCH_PAGE_SIZE * num_pages));
        match e with
        | None => Ok num_pages
        | Some next_entry =>
            if negb (mmu_flags =? without next_entry ADDRMASK) then Ok num_pages
            else prefault_fwd fuel h pt fault_virt mmu_flags (num_pages + 1)
        end
      else Ok num_pages
  end.

Definition x86_64_mmu_fault_isr (h : pheap) (curr_pt cr2 : Z) : res fault_args :=
  let fault_virt := cr2 in
  entry_ptr ← get_page h curr_pt fault_virt;
  '(t, i) ← deref entry_ptr;
  entry ← rd h t i;
  let mmu_flags := without entry ADDRMASK in
  let '(hint, attr) :=
    if has ARCH_MMU_EXTRA_FLAGS_PRIVATE entry
    then (Z.lor (without mmu_flags ARCH_MMU_EXTRA_FLAGS_PRIVATE) ARCH_MMU_FLAGS_WRITE,
          COM_MM_VMM_FAULT_ATTR_COW)
    else (mmu_flags, 0) in
  let '(hint, attr) :=
    if has ARCH_MMU_EXTRA_FLAGS_NOCOPY entry
    then (without hint ARCH_MMU_EXTRA_FLAGS_NOCOPY,
          Z.lor (without attr COM_MM_VMM_FAULT_ATTR_COW) COM_MM_VMM_FAULT_ATTR_MAP)
    else (hint, attr) in
  if negb (has COM_MM_VMM_PREFAULT_SUPPORTED_ATTR attr) then
    Ok (mkFault fault_virt (Z.land entry ADDRMASK) hint attr 1)
  else
    '(num_pages, start_entry, start_virt) ←
      prefault_back 512 h curr_pt fault_virt mmu_flags 1 entry fault_virt;
    num_pages ← prefault_fwd 512 h curr_pt fault_virt mmu_flags num_pages;
    Ok (mkFault start_virt (Z.land start_entry ADDRMASK) hint attr num_pages).

(** ** Lemmas *)

(** The address bits of an entry, and flags that stay clear of them. *)
Definition flags_ok (f : Z) : Prop := Z.land f ADDRMASK = 0.

Lemma ADDRMASK_shift : ADDRMASK = Z.shiftl (Z.ones 51) 12.
Proof. reflexivity. Qed.

Lemma land_addrmask p : 0 ≤ p < 2 ^ 63 → p mod ARCH_PAGE_SIZE = 0 → Z.land p ADDRMASK = p.
Proof.
  intros Hp Hm. rewrite ADDRMASK_shift.
  assert (p = Z.shiftl (p / 2 ^ 12) 12) as ->.
  { rewrite Z.shiftl_mul_pow2 by lia. unfold ARCH_PAGE_SIZE in Hm. change (2 ^ 12) with 4096.
    pose proof (Z.div_mod p 4096). lia. }
  rewrite <- Z.shiftl_land, Z.land_ones by lia. f_equal. apply Z.mod_small. split.
  - apply Z.div_pos; lia.
  - apply Z.div_lt_upper_bound; lia.
Qed.

Lemma land_entry p f :
  0 ≤ p < 2 ^ 63 → p mod ARCH_PAGE_SIZE = 0 → flags_ok f → Z.land (Z.lor p f) ADDRMASK = p.
Proof. intros Hp Hm Hf. by rewrite Z.land_lor_distr_l, Hf, Z.lor_0_r, land_addrmask. Qed.

(** The word [add_page] stores for a fresh table. *)
Definition table_entry (p : Z) : Z :=
  Z.lor (Z.lor (Z.lor p ARCH_MMU_FLAGS_READ) ARCH_MMU_FLAGS_WRITE) ARCH_MMU_FLAGS_USER.

Lemma next_0 : next 0 = 0.
Proof. reflexivity. Qed.

Lemma next_table_entry p : valid_phys p → next (table_entry p) = ARCH_PHYS_TO_HHDM p.
Proof.
  intros [Hp Hm]. unfold next, table_entry. rewrite <- !Z.lor_assoc.
  change (Z.lor ARCH_MMU_FLAGS_READ (Z.lor ARCH_MMU_FLAGS_WRITE ARCH_MMU_FLAGS_USER)) with 7.
  assert (Hl : Z.land (Z.lor p 7) ADDRMASK = p) by (apply land_entry; (done || lia)).
  destruct (Z.eqb_spec (Z.lor p 7) 0) as [He|]; [|by rewrite Hl].
  apply Z.lor_eq_0_iff in He. lia.
Qed.

(** The three table indices of an address. *)
Definition vpath (v : Z) : list Z := [pml4offset v; pdptoffset v; pdoffset v].
Abbreviation mwalk := (walk next).
Abbreviation mtree h pt := (ptree next h (ARCH_PHYS_TO_HHDM pt) 3).
(** The entry of the page an address lies in; 0 when a table is missing. *)
Definition pte (h : pheap) (pt v : Z) : Z := word_at next h (ARCH_PHYS_TO_HHDM pt) (vpath v) (ptoffset v).

(** [get_page] is a walk of the tree. *)
Lemma get_page_walk h pt v :
  get_page h pt v =
    p ← mwalk h (ARCH_PHYS_TO_HHDM pt) (vpath v);
    Ok (match p with Some p => Some (p, ptoffset v) | None => None end).
Proof.
  unfold get_page, vpath. cbn [walk].
  destruct (rd h _ (pml4offset v)) as [w1| | |]; mstep; [|done..]. destruct (next w1 =? 0); [done|].
  destruct (rd h _ (pdptoffset v)) as [w2| | |]; mstep; [|done..]. destruct (next w2 =? 0); [done|].
  destruct (rd h _ (pdoffset v)) as [w3| | |]; mstep; [|done..]. destruct (next w3 =? 0); done.
Qed.

Lemma mwalk_total h pt v : mtree h pt → ∃ o, mwalk h (ARCH_PHYS_TO_HHDM pt) (vpath v) = Ok o.
Proof. intros Ht. eapply walk_total; [done|]. simpl. lia. Qed.

Lemma get_page_some h pt v p i :
  mtree h pt → get_page h pt v = Ok (Some (p, i)) →
  mwalk h (ARCH_PHYS_TO_HHDM pt) (vpath v) = Ok (Some p) ∧ i = ptoffset v ∧ rd h p i = Ok (pte h pt v).
Proof.
  intros Ht Hg. rewrite get_page_walk in Hg. destruct (mwalk_total h pt v Ht) as [o Ho].
  rewrite Ho in Hg. simpl in Hg. destruct o as [q|]; simplify_eq. split; [done|]. split; [done|].
  unfold pte, word_at. rewrite Ho. destruct Ht as [Hdom _].
  destruct (rd_ok h p (ptoffset v)) as [w ->]; [|done]. apply (Hdom (vpath v)); [simpl; lia|done].
Qed.

Lemma get_page_none h pt v : mtree h pt → get_page h pt v = Ok None → pte h pt v = 0.
Proof.
  intros Ht Hg. rewrite get_page_walk in Hg. destruct (mwalk_total h pt v Ht) as [o Ho].
  rewrite Ho in Hg. unfold pte, word_at. rewrite Ho. by destruct o.
Qed.

Lemma get_page_cases h pt v :
  mtree h pt →
  (∃ p, get_page h pt v = Ok (Some (p, ptoffset v)) ∧ mwalk h (ARCH_PHYS_TO_HHDM pt) (vpath v) = Ok (Some p) ∧
        is_Some (h !! p) ∧ rd h p (ptoffset v) = Ok (pte h pt v)) ∨
  get_page h pt v = Ok None ∧ pte h pt v = 0.
Proof.
  intros Ht. destruct (mwalk_total h pt v Ht) as [[p|] Ho].
  - left. exists p. assert (Hg : get_page h pt v = Ok (Some (p, ptoffset v))) by by rewrite get_page_walk, Ho.
    split; [done|]. split; [done|]. split; [|by apply (get_page_some h pt v p)].
    destruct Ht as [Hdom _]. apply (Hdom (vpath v)); [simpl; lia|done].
  - right. assert (Hg : get_page h pt v = Ok None) by by rewrite get_page_walk, Ho.
    split; [done|by apply get_page_none].
Qed.

(** What an entry translates an address to. *)
Definition translate (w v : Z) : option Z :=
  if Z.land w ADDRMASK =? 0 then None
  else Some (u64 (Z.land w ADDRMASK + Z.land v (ARCH_PAGE_SIZE - 1))).

Lemma get_physical_pte h pt v :
  mtree h pt → arch_mmu_get_physical h pt v = Ok (translate (pte h pt v) v).
Proof.
  intros Ht. unfold arch_mmu_get_physical.
  destruct (get_page_cases h pt v Ht) as [(p & -> & _ & _ & Hrd)|[-> ->]]; mstep; [|done].
  rewrite Hrd. mstep. unfold translate. by destruct (Z.land (pte h pt v) ADDRMASK =? 0).
Qed.

(** Two addresses with the same indices lie in the same page. *)
Definition same_page (v v' : Z) : Prop := vpath v' = vpath v ∧ ptoffset v' = ptoffset v.

#[export] Instance same_page_dec v v' : Decision (same_page v v').
Proof. unfold same_page. apply _. Defined.

(** Changing one entry of the bottom level. *)
Lemma pte_write h pt v p w h' v' :
  mtree h pt → mwalk h (ARCH_PHYS_TO_HHDM pt) (vpath v) = Ok (Some p) →
  wr h p (ptoffset v) w = Ok h' →
  mtree h' pt ∧ pte h' pt v' = if decide (same_page v v') then w else pte h pt v'.
Proof.
  intros Ht Hw Hwr.
  split; [exact (ptree_wr_leaf next h _ 3 (vpath v) p (ptoffset v) w h' Ht eq_refl Hw Hwr)|]. unfold pte.
  rewrite (word_at_wr_leaf next h _ 3 (vpath v) p (ptoffset v) w h' (vpath v') (ptoffset v')
    Ht eq_refl Hw Hwr eq_refl). unfold same_page. repeat case_decide; done.
Qed.

Section alloc_lemmas.
Context `{TableMem A}.

(** [next_or_alloc] is one step of growing the tree. *)
Lemma next_or_alloc_ensure h a p i h' a' q :
  pa_inv a → ensure next table_entry h a p [i] = Ok (h', a', q) →
  next_or_alloc h a p i = Ok (Some q, h', a').
Proof.
  intros Hinv. unfold next_or_alloc. simpl. destruct (rd h p i) as [w| | |]; mstep; [|done..].
  destruct (next w =? 0); [|by intros [= -> -> ->]].
  destruct (pa_alloc a) as [[pg a1]| | |] eqn:Hal; mstep; [|done..].
  destruct (pa_alloc_ok a pg a1 Hinv Hal) as (_ & [Hpg _] & _).
  destruct (Z.eqb_spec pg 0); [lia|]. fold (table_entry pg).
  destruct (wr h p i (table_entry pg)) as [h1| | |]; mstep; [|done..]. by intros [= <- <- <-].
Qed.

Lemma ensure_step h a root σ p i :
  ptree next h root 3 → mwalk h root σ = Ok (Some p) → (length σ < 3)%nat →
  pa_inv a → heap_owned h a → (1 ≤ pa_free a)%nat →
  ∃ h' a' q, next_or_alloc h a p i = Ok (Some q, h', a') ∧ ptree next h' root 3 ∧
    mwalk h' root (σ ++ [i]) = Ok (Some q) ∧ pa_inv a' ∧ heap_owned h' a' ∧
    (pa_free a ≤ pa_free a' + 1)%nat ∧
    (∀ π j, length π = 3%nat → word_at next h' root π j = word_at next h root π j).
Proof.
  intros Ht Hw Hl Hinv Hown Hf.
  destruct (ensure_spec next table_entry next_0 next_table_entry h a root 3 σ p [i])
    as (h' & a' & q & He & Ht' & Hw' & Hinv' & Hown' & Hf' & Hwd); [(done || (simpl; lia))..|].
  exists h', a', q. split; [by apply next_or_alloc_ensure|]. done.
Qed.

(** Mapping a page stores its entry and changes no other. *)
Lemma add_page_spec h a pt v entry :
  mtree h pt → pa_inv a → heap_owned h a → (3 ≤ pa_free a)%nat →
  ∃ h' a', add_page h a pt v entry 0 = Ok (true, h', a') ∧ mtree h' pt ∧ pa_inv a' ∧
    heap_owned h' a' ∧ (pa_free a ≤ pa_free a' + 3)%nat ∧
    ∀ v', pte h' pt v' = if decide (same_page v v') then entry else pte h pt v'.
Proof.
  intros Ht Hinv Hown Hf. unfold add_page. cbn [Z.eqb DEPTH_PDPT DEPTH_PD DEPTH_PT].
  set (root := ARCH_PHYS_TO_HHDM pt) in *.
  destruct (ensure_step h a root [] root (pml4offset v)) as (h1 & a1 & p1 & -> & Ht1 & Hw1 & Hi1 & Ho1 & Hf1 & Hwd1);
    [done|done|simpl; lia|done|done|lia|]. mstep.
  destruct (ensure_step h1 a1 root _ p1 (pdptoffset v) Ht1 Hw1)
    as (h2 & a2 & p2 & -> & Ht2 & Hw2 & Hi2 & Ho2 & Hf2 & Hwd2); [simpl; lia|done|done|lia|]. mstep.
  destruct (ensure_step h2 a2 root _ p2 (pdoffset v) Ht2 Hw2)
    as (h3 & a3 & p3 & -> & Ht3 & Hw3 & Hi3 & Ho3 & Hf3 & Hwd3); [simpl; lia|done|done|lia|]. mstep.
  assert (Hp3 : is_Some (h3 !! p3)) by (destruct Ht3 as [Hdom _]; eapply Hdom; [|exact Hw3]; simpl; lia).
  destruct (wr_ok h3 p3 (ptoffset v) entry Hp3) as [h4 Hwr]. rewrite Hwr. mstep.
  exists h4, a3. split; [done|].
  split; [by apply (pte_write h3 pt v p3 entry h4 v)|]. split; [done|]. split.
  { intros q Hq Hs. apply Ho3; [done|]. by apply (wr_dom h3 p3 (ptoffset v) entry h4 _ Hwr). }
  split; [lia|]. intros v'. destruct (pte_write h3 pt v p3 entry h4 v' Ht3 Hw3 Hwr) as [_ ->].
  destruct (decide (same_page v v')); [done|]. unfold pte. fold root.
  by rewrite Hwd3, Hwd2, Hwd1.
Qed.
Lemma arch_mmu_map_spec h a pt virt phys flags :
  mtree h pt → pa_inv a → heap_owned h a → (3 ≤ pa_free a)%nat →
  valid_phys phys → flags_ok flags →
  ∃ h' a', arch_mmu_map h a pt virt phys flags = Ok (true, h', a') ∧
    mtree h' pt ∧ pa_inv a' ∧ heap_owned h' a' ∧ (pa_free a ≤ pa_free a' + 3)%nat ∧
    ∀ v, arch_mmu_get_physical h' pt v =
      if decide (same_page virt v) then Ok (Some (phys + Z.land v (ARCH_PAGE_SIZE - 1)))
      else arch_mmu_get_physical h pt v.
Proof.
  intros Ht Hinv Hown Hf [Hp Hm] Hfl. unfold arch_mmu_map. rewrite land_addrmask by (done || lia).
  destruct (add_page_spec h a pt virt (Z.lor phys flags) Ht Hinv Hown Hf)
    as (h' & a' & -> & Ht' & Hinv' & Hown' & Hf' & Hpte).
  exists h', a'. do 5 (split; [done|]). intros v. rewrite !get_physical_pte, Hpte by done.
  destruct (decide (same_page virt v)); [|done]. unfold translate.
  rewrite land_entry by (done || lia). destruct (Z.eqb_spec phys 0); [lia|]. do 2 f_equal.
  apply wrap_small. change (ARCH_PAGE_SIZE - 1) with (Z.ones 12). rewrite Z.land_ones by lia.
  pose proof (Z.mod_pos_bound v (2 ^ 12)). lia.
Qed.
(** What a change of one page table leaves alone: the pages in memory that
    are not tables of it, and the pages that were taken. *)
Definition mmu_frame (h : pheap) (a : A) (pt : Z) (h' : pheap) (a' : A) : Prop :=
  (∀ r, is_Some (h !! r) → ¬ tree_page next h (ARCH_PHYS_TO_HHDM pt) 3 r →
    h' !! r = h !! r ∧ ¬ tree_page next h' (ARCH_PHYS_TO_HHDM pt) 3 r) ∧
  (∀ r, pa_taken a r → pa_taken a' r).

Lemma mmu_frame_refl h a pt : mmu_frame h a pt h a.
Proof. done. Qed.

Lemma mmu_frame_trans h a pt h1 a1 h2 a2 :
  mmu_frame h a pt h1 a1 → mmu_frame h1 a1 pt h2 a2 → mmu_frame h a pt h2 a2.
Proof.
  intros [H1 T1] [H2 T2]. split; [|auto]. intros r Hr Hn. destruct (H1 r Hr Hn) as [He Hn1].
  destruct (H2 r) as [He2 Hn2]; [by rewrite He|done|]. split; [congruence|done].
Qed.

Lemma next_or_alloc_frame h a pt σ p i h' a' q :
  mtree h pt → mwalk h (ARCH_PHYS_TO_HHDM pt) σ = Ok (Some p) → (length σ < 3)%nat →
  pa_inv a → heap_owned h a → next_or_alloc h a p i = Ok (Some q, h', a') → mmu_frame h a pt h' a'.
Proof.
  intros Ht Hw Hl Hinv Hown Hn. assert (He : ensure next table_entry h a p [i] = Ok (h', a', q)).
  { revert Hn. unfold next_or_alloc. simpl. destruct (rd h p i) as [w| | |]; mstep; [|done..].
    destruct (next w =? 0); [|by intros [= -> -> ->]].
    destruct (pa_alloc a) as [[pg a1]| | |]; mstep; [|done..]. destruct (pg =? 0); [done|].
    fold (table_entry pg). destruct (wr h p i (table_entry pg)) as [h1| | |]; mstep; [|done..]. by intros [= <- <- <-]. }
  split.
  - intros r. eapply (ensure_frame next table_entry next_0 next_table_entry); try done. simpl. lia.
  - by eapply ensure_taken.
Qed.

Lemma arch_mmu_map_frame h a pt virt phys flags :
  mtree h pt → pa_inv a → heap_owned h a → (3 ≤ pa_free a)%nat →
  ∃ h' a', arch_mmu_map h a pt virt phys flags = Ok (true, h', a') ∧ mmu_frame h a pt h' a'.
Proof.
  intros Ht Hinv Hown Hf. unfold arch_mmu_map. set (entry := Z.lor _ _). unfold add_page.
  cbn [Z.eqb DEPTH_PDPT DEPTH_PD DEPTH_PT]. set (v := virt).
  destruct (ensure_step h a _ [] (ARCH_PHYS_TO_HHDM pt) (pml4offset v) Ht)
    as (h1 & a1 & p1 & E1 & Ht1 & Hw1 & Hi1 & Ho1 & Hf1 & _); [done|simpl; lia|done|done|lia|]. rewrite E1. mstep.
  destruct (ensure_step h1 a1 _ _ p1 (pdptoffset v) Ht1 Hw1)
    as (h2 & a2 & p2 & E2 & Ht2 & Hw2 & Hi2 & Ho2 & Hf2 & _); [simpl; lia|done|done|lia|]. rewrite E2. mstep.
  destruct (ensure_step h2 a2 _ _ p2 (pdoffset v) Ht2 Hw2)
    as (h3 & a3 & p3 & E3 & Ht3 & Hw3 & Hi3 & Ho3 & Hf3 & _); [simpl; lia|done|done|lia|]. rewrite E3. mstep.
  assert (Hp3 : is_Some (h3 !! p3)) by (destruct Ht3 as [Hdom _]; eapply Hdom; [|exact Hw3]; simpl; lia).
  destruct (wr_ok h3 p3 (ptoffset v) entry Hp3) as [h4 Hwr]. rewrite Hwr. mstep.
  exists h4, a3. split; [done|].
  apply (mmu_frame_trans h a pt h1 a1); [by eapply (next_or_alloc_frame h a pt []); [..|exact E1]; try done; simpl; lia|].
  apply (mmu_frame_trans h1 a1 pt h2 a2); [eapply (next_or_alloc_frame h1 a1 pt); [done|exact Hw1|simpl; lia|done|done|exact E2]|].
  apply (mmu_frame_trans h2 a2 pt h3 a3); [eapply (next_or_alloc_frame h2 a2 pt); [done|exact Hw2|simpl; lia|done|done|exact E3]|].
  split; [|done]. intros r Hr Hn.
  rewrite (tree_page_wr_leaf next h3 _ 3 (vpath v) p3 (ptoffset v) entry h4 r Ht3 eq_refl Hw3 Hwr). split; [|done].
  destruct (wr_inv _ _ _ _ _ Hwr) as (pg & _ & ->). rewrite lookup_insert_ne; [done|].
  intros ->. apply Hn. exists (vpath v). split; [simpl; lia|done].
Qed.
End alloc_lemmas.

(** ** Duplicating a page table *)

Lemma without_flags_ok e : flags_ok (without e ADDRMASK).
Proof. unfold flags_ok, without. apply Z.land_ldiff. Qed.

Section dup_lemmas.
Context `{TableMem A}.

Definition holdable (w : Z) : Prop :=
  ∀ a, pa_inv a → ∃ a', pg_hold a (Z.land w ADDRMASK) = Ok a'.

Lemma duplicate_recursive_S level h a e :
  has ARCH_MMU_FLAGS_PRESENT e = true →
  duplicate_recursive (S level) h a e =
    '(new, a) ← pa_alloc a;
    '(h, a) ← dup_loop (duplicate_recursive level) (S level) (ARCH_PHYS_TO_HHDM (Z.land e ADDRMASK))
      (ARCH_PHYS_TO_HHDM new) 512 0 (<[ARCH_PHYS_TO_HHDM new := ∅]> h) a;
    Ok (Z.lor new (without e ADDRMASK), h, a).
Proof. intros Hp. cbn [duplicate_recursive]. rewrite Hp. reflexivity. Qed.

(** What the loop leaves in the two tables, entry by entry. *)
Definition dup_child (w : Z) : Z := if has ARCH_MMU_FLAGS_PRESENT w then cow_entry w else 0.
Definition dup_parent (w : Z) : Z := if has ARCH_MMU_FLAGS_PRESENT w then cow_entry w else w.

Lemma dup_loop_level1 todo i virt nvirt h a pg npg :
  virt ≠ nvirt → h !! virt = Some pg → h !! nvirt = Some npg → pa_inv a → heap_owned h a →
  (∀ j, i ≤ j < i + Z.of_nat todo → holdable (rd_slot pg j)) →
  ∃ h' a' pg' npg', dup_loop (duplicate_recursive 0) 1 virt nvirt todo i h a = Ok (h', a') ∧
    h' = <[nvirt := npg']> (<[virt := pg']> h) ∧ pa_inv a' ∧ heap_owned h' a' ∧ pa_free a' = pa_free a ∧
    (∀ j, rd_slot pg' j = if decide (i ≤ j < i + Z.of_nat todo) then dup_parent (rd_slot pg j) else rd_slot pg j) ∧
    (∀ j, rd_slot npg' j =
      if decide (i ≤ j < i + Z.of_nat todo ∧ has ARCH_MMU_FLAGS_PRESENT (rd_slot pg j))
      then cow_entry (rd_slot pg j) else rd_slot npg j).
Proof.
  intros Hne. revert i h a pg npg. induction todo as [|todo IH]; intros i h a pg npg Hp Hn Hinv Hown Hh.
  { exists h, a, pg, npg. split; [done|]. split; [by rewrite insert_id by (by rewrite lookup_insert_ne); rewrite insert_id|].
    split_and!; try done; intros j; case_decide; (done || lia). }
  cbn [dup_loop]. rewrite (rd_lookup h virt i pg) by done. mstep. set (w := rd_slot pg i).
  destruct (has ARCH_MMU_FLAGS_PRESENT w) eqn:Hpr.
  - cbn [duplicate_recursive]. rewrite Hpr. cbn [negb].
    destruct (Hh i ltac:(lia) a Hinv) as [a1 Ha1]. fold w in Ha1. rewrite Ha1. mstep.
    destruct (pg_hold_ok _ _ _ Hinv Ha1) as (Hinv1 & Htk & Hfr).
    rewrite (wr_lookup h nvirt i (cow_entry w) npg) by done. mstep.
    change (Nat.eqb 1 1) with true.
    rewrite (wr_lookup _ virt i (cow_entry w) pg) by (by rewrite lookup_insert_ne). mstep.
    set (h1 := <[virt := _]> (<[nvirt := _]> h)).
    destruct (IH (i + 1) h1 a1 (<[i := cow_entry w]> pg) (<[i := cow_entry w]> npg))
      as (h' & a' & pg' & npg' & Hrun & -> & Hinv' & Hown' & Hfr' & Hpg' & Hnpg').
    + unfold h1. by rewrite lookup_insert_eq.
    + unfold h1. by rewrite lookup_insert_ne, lookup_insert_eq.
    + done.
    + intros q Hq Hs. apply Htk, Hown; [done|]. unfold h1 in Hs.
      destruct (decide (ARCH_PHYS_TO_HHDM q = virt)) as [->|]; [by rewrite Hp|].
      destruct (decide (ARCH_PHYS_TO_HHDM q = nvirt)) as [->|]; [by rewrite Hn|].
      by rewrite !lookup_insert_ne in Hs.
    + intros j Hj. rewrite rd_slot_insert, decide_False by lia. apply Hh. lia.
    + exists (<[nvirt := npg']> (<[virt := pg']> h1)), a', pg', npg'. split; [done|]. split.
      { unfold h1. rewrite insert_insert_eq, (insert_insert_ne _ virt nvirt) by done. by rewrite insert_insert_eq. }
      split; [done|]. split; [done|]. split; [congruence|]. split; intros j.
      * rewrite Hpg', rd_slot_insert. destruct (decide (i = j)) as [<-|].
        { rewrite decide_False, decide_True by lia. unfold dup_parent. fold w. by rewrite Hpr. }
        repeat case_decide; (done || lia).
      * destruct (decide (i = j)) as [<-|Hij].
        { rewrite Hnpg', decide_False by (intros [? _]; lia).
          rewrite rd_slot_insert, decide_True by done.
          rewrite decide_True; [done|]. split; [lia|]. fold w. by rewrite Hpr. }
        rewrite Hnpg', !rd_slot_insert, !(decide_False (P := i = j)) by done.
        repeat case_decide; (done || (exfalso; naive_solver lia)).
  - destruct (IH (i + 1) h a pg npg) as (h' & a' & pg' & npg' & Hrun & -> & Hinv' & Hown' & Hfr' & Hpg' & Hnpg');
      [done|done|done|done|intros; apply Hh; lia|].
    exists (<[nvirt := npg']> (<[virt := pg']> h)), a', pg', npg'. do 5 (split; [done|]). split; intros j.
    + rewrite Hpg'. destruct (decide (i = j)) as [<-|].
      { rewrite decide_False, decide_True by lia. unfold dup_parent. fold w. by rewrite Hpr. }
      repeat case_decide; (done || lia).
    + rewrite Hnpg'. destruct (decide (i = j)) as [<-|].
      { rewrite !decide_False; [done| |lia]. fold w. rewrite Hpr. intros [_ []]. }
      repeat case_decide; (done || (exfalso; naive_solver lia)).
Qed.
End dup_lemmas.

#[local] Opaque dup_loop duplicate_recursive.

(** ** Properties *)

Section properties.
Context `{TableMem A}.

(** C8: Mapping a page makes every address in it translate to the same offset
    in the frame, whichever tables were missing on the way, and leaves the
    translation of every other page as it was; the tables stay a tree. *)
Theorem arch_mmu_map_translates h a pt virt phys flags :
  mtree h pt → pa_inv a → heap_owned h a → (3 ≤ pa_free a)%nat →
  valid_phys phys → flags_ok flags →
  ∃ h' a', arch_mmu_map h a pt virt phys flags = Ok (true, h', a') ∧
    mtree h' pt ∧ pa_inv a' ∧ heap_owned h' a' ∧
    ∀ v, arch_mmu_get_physical h' pt v =
      if decide (same_page virt v) then Ok (Some (phys + Z.land v (ARCH_PAGE_SIZE - 1)))
      else arch_mmu_get_physical h pt v.
Proof.
  intros Ht Hinv Hown Hf Hp Hfl.
  destruct (arch_mmu_map_spec h a pt virt phys flags) as (h' & a' & ? & ? & ? & ? & _ & ?); [done..|].
  by exists h', a'.
Qed.

(** Unmapping returns the frame of the page when its table exists, after
    which no address in the page translates and all others do as before. *)
Theorem arch_mmu_unmap_forgets h pt virt :
  mtree h pt →
  ∃ o h', arch_mmu_unmap h pt virt = Ok (o, h') ∧ mtree h' pt ∧
    (∀ w, o = Some w → w = Z.land (pte h pt virt) ADDRMASK) ∧
    ∀ v, arch_mmu_get_physical h' pt v =
      if decide (same_page virt v) then Ok None else arch_mmu_get_physical h pt v.
Proof.
  intros Ht. unfold arch_mmu_unmap.
  destruct (get_page_cases h pt virt Ht) as [(p & -> & Hw & Hp & Hrd)|[-> Hz]]; mstep.
  - rewrite Hrd. mstep. destruct (wr_ok h p (ptoffset virt) 0 Hp) as [h' Hwr]. rewrite Hwr. mstep.
    pose proof (λ v, pte_write h pt virt p 0 h' v Ht Hw Hwr) as Hpte.
    destruct (Hpte virt) as [Ht' _]. eexists _, h'. split; [done|]. split; [done|].
    split; [by intros w [= <-]|]. intros v. rewrite !get_physical_pte by done.
    destruct (Hpte v) as [_ ->]. by destruct (decide (same_page virt v)).
  - exists None, h. split; [done|]. split; [done|]. split; [done|]. intros v.
    destruct (decide (same_page virt v)) as [[Hv1 Hv2]|]; [|done].
    rewrite get_physical_pte by done. unfold pte in *. by rewrite Hv1, Hv2, Hz.
Qed.

(** Duplicating a page table for fork: afterwards the copy and the original
    both hold, for every present entry, its copy-on-write form, which maps
    the same frame and, unless it is shared memory, grants no write; absent
    entries are absent in the copy and untouched in the original, and no
    other page changes. *)
Theorem duplicate_page_table_cow h a e pg :
  has ARCH_MMU_FLAGS_PRESENT e = true → pa_inv a → heap_owned h a → (0 < pa_free a)%nat →
  let virt := ARCH_PHYS_TO_HHDM (Z.land e ADDRMASK) in
  h !! virt = Some pg → (∀ i, 0 ≤ i < 512 → holdable (rd_slot pg i)) →
  ∃ n h' a', duplicate_recursive 1 h a e = Ok (n, h', a') ∧ pa_inv a' ∧ heap_owned h' a' ∧
    next n ≠ virt ∧ h !! next n = None ∧
    (∀ i, 0 ≤ i < 512 → rd h' (next n) i = Ok (dup_child (rd_slot pg i)) ∧
                        rd h' virt i = Ok (dup_parent (rd_slot pg i))) ∧
    (∀ q, q ≠ virt → q ≠ next n → h' !! q = h !! q).
Proof.
  intros Hpr Hinv Hown Hf virt Hp Hh. rewrite duplicate_recursive_S by done. fold virt.
  destruct (pa_alloc_total a Hinv Hf) as (new & a1 & Hal & _). rewrite Hal. mstep_rw.
  destruct (pa_alloc_ok a new a1 Hinv Hal) as (Hinv1 & Hv & Hnt & Htk).
  set (nvirt := ARCH_PHYS_TO_HHDM new) in *.
  assert (Hfresh : h !! nvirt = None).
  { apply eq_None_not_Some. intros Hs. by apply Hnt, Hown. }
  assert (Hne : virt ≠ nvirt) by (intros Heq; rewrite Heq, Hfresh in Hp; done).
  destruct (dup_loop_level1 512 0 virt nvirt (<[nvirt := ∅]> h) a1 pg ∅ Hne)
    as (h' & a' & pg' & npg' & -> & -> & Hinv' & Hown' & _ & Hpg' & Hnpg').
  { by rewrite lookup_insert_ne. }
  { by rewrite lookup_insert_eq. }
  { done. }
  { intros q Hq Hs. apply Htk. destruct (decide (q = new)) as [|Hqn]; [by left|right].
    apply Hown; [done|]. rewrite lookup_insert_ne in Hs; [done|].
    intros Heq. apply Hqn. symmetry. by apply hhdm_inj. }
  { intros j Hj. apply Hh. lia. }
  mstep_rw. assert (Hnext : next (Z.lor new (without e ADDRMASK)) = nvirt).
  { unfold next. destruct Hv as [Hv Hm].
    destruct (Z.eqb_spec (Z.lor new (without e ADDRMASK)) 0) as [Hz|].
    - apply Z.lor_eq_0_iff in Hz. lia.
    - rewrite land_entry; [done|lia|done|apply without_flags_ok]. }
  eexists _, _, a'. split; [done|]. rewrite Hnext. do 4 (split; [done|]). split.
  - intros i Hi. rewrite rd_insert_eq, rd_insert_ne, rd_insert_eq by done.
    split; [|rewrite Hpg', decide_True by lia; done]. rewrite Hnpg'. unfold dup_child.
    destruct (has ARCH_MMU_FLAGS_PRESENT (rd_slot pg i)).
    + rewrite decide_True by (split; [lia|done]). done.
    + rewrite decide_False, rd_slot_empty by (intros [_ []]). done.
  - intros q Hq1 Hq2. by rewrite !lookup_insert_ne.
Qed.
End properties.

(** The copy-on-write form of an entry: the same frame, no write permission
    unless shared, and bit 9 set when there was one. *)
Lemma cow_entry_frame e : 0 ≤ e → Z.land (cow_entry e) ADDRMASK = Z.land e ADDRMASK.
Proof.
  intros He. unfold cow_entry. destruct (has ARCH_MMU_EXTRA_FLAGS_SHARED e); [done|].
  rewrite Z.land_lor_distr_l.
  assert (Hs : Z.land (Z.shiftl (if has ARCH_MMU_FLAGS_WRITE e then 1 else 0) 9) ADDRMASK = 0)
    by (destruct (has ARCH_MMU_FLAGS_WRITE e); reflexivity).
  rewrite Hs, Z.lor_0_r. unfold without. apply Z.bits_inj'. intros n Hn.
  rewrite !Z.land_spec, Z.ldiff_spec.
  destruct (Z.testbit ADDRMASK n) eqn:Hb; [|by rewrite !andb_false_r].
  destruct (decide (n = 1)) as [->|]; [done|].
  assert (Z.testbit ARCH_MMU_FLAGS_WRITE n = false) as ->; [|by rewrite !andb_true_r].
  apply (Z.pow2_bits_false 1 n). lia.
Qed.

Lemma cow_entry_not_writable e :
  has ARCH_MMU_EXTRA_FLAGS_SHARED e = false → has ARCH_MMU_FLAGS_WRITE (cow_entry e) = false.
Proof.
  intros Hs. unfold cow_entry. rewrite Hs. unfold has at 1.
  assert (Hz : Z.land ARCH_MMU_FLAGS_WRITE
    (Z.lor (without e ARCH_MMU_FLAGS_WRITE) (Z.shiftl (if has ARCH_MMU_FLAGS_WRITE e then 1 else 0) 9)) = 0).
  { rewrite Z.land_lor_distr_r. unfold without. rewrite (Z.land_comm _ (Z.ldiff _ _)), Z.land_ldiff.
    by destruct (has ARCH_MMU_FLAGS_WRITE e). }
  by rewrite Hz.
Qed.

(** A page the scans stop at: no table, or other flags. *)
Definition other_flags (o : option Z) (e0 : Z) : Prop :=
  match o with None => True | Some e => without e ADDRMASK ≠ without e0 ADDRMASK end.

(** The range the fault handler passes on after scanning backwards contains
    pages that were never looked at: when the page below the fault has the
    same flags and the one above has not, but the second above has, the range
    of three pages starting below the fault includes the page above. *)
Theorem prefault_range_unchecked h pt f e0 e1 o2 e3 o4 ou :
  f mod ARCH_PAGE_SIZE = 0 → 3 * ARCH_PAGE_SIZE ≤ f < 2 ^ 47 →
  read_entry h pt f = Ok (Some e0) → has ARCH_MMU_EXTRA_FLAGS_NOCOPY e0 = true →
  read_entry h pt (f - ARCH_PAGE_SIZE) = Ok (Some e1) → without e1 ADDRMASK = without e0 ADDRMASK →
  read_entry h pt (f - 2 * ARCH_PAGE_SIZE) = Ok o2 → other_flags o2 e0 →
  read_entry h pt (f + 2 * ARCH_PAGE_SIZE) = Ok (Some e3) → without e3 ADDRMASK = without e0 ADDRMASK →
  read_entry h pt (f + 3 * ARCH_PAGE_SIZE) = Ok o4 → other_flags o4 e0 →
  read_entry h pt (f + ARCH_PAGE_SIZE) = Ok ou → other_flags ou e0 →
  ∃ fa, x86_64_mmu_fault_isr h pt f = Ok fa ∧ fa_attr fa = COM_MM_VMM_FAULT_ATTR_MAP ∧
    fa_virt fa = f - ARCH_PAGE_SIZE ∧ fa_num_pages fa = 3 ∧
    fa_virt fa ≤ f + ARCH_PAGE_SIZE < fa_virt fa + fa_num_pages fa * ARCH_PAGE_SIZE.
Proof.
  unfold ARCH_PAGE_SIZE. intros Hal Hf H0 Hnc H1 Hf1 H2 Hf2 H3 Hf3 H4 Hf4 _ _. unfold x86_64_mmu_fault_isr.
  assert (Hg : ∃ t i, get_page h pt f = Ok (Some (t, i)) ∧ rd h t i = Ok e0).
  { unfold read_entry in H0. apply bind_Ok in H0 as (e & He & H0).
    destruct e as [[t i]|]; [|done]. apply bind_Ok in H0 as (w & Hw & H0). exists t, i. by simplify_eq. }
  destruct Hg as (t & i & -> & Hrd). mstep. rewrite Hrd. mstep. rewrite Hnc.
  set (ha := if has ARCH_MMU_EXTRA_FLAGS_PRIVATE e0 then _ else _).
  assert (Hattr : Z.lor (without ha.2 COM_MM_VMM_FAULT_ATTR_COW) COM_MM_VMM_FAULT_ATTR_MAP
    = COM_MM_VMM_FAULT_ATTR_MAP) by (subst ha; by destruct (has ARCH_MMU_EXTRA_FLAGS_PRIVATE e0)).
  destruct ha as [hint attr]. cbn [snd] in Hattr. rewrite Hattr.
  change (negb (has COM_MM_VMM_PREFAULT_SUPPORTED_ATTR COM_MM_VMM_FAULT_ATTR_MAP)) with false.
  cbv iota. set (fl := without e0 ADDRMASK) in *.
  assert (Hback : ∀ n, prefault_back (S (S n)) h pt f fl 1 e0 f = Ok (2, e1, f - 4096)).
  { intros n. cbn [prefault_back]. unfold ARCH_PAGE_SIZE.
    change (1 <? CONFIG_VMM_PREFAULT_MAX / 2) with true. cbv iota.
    rewrite Z.mul_1_r, (wrap_small 64 (f - 4096)) by lia. rewrite H1. mstep. rewrite Hf1, Z.eqb_refl. cbn [negb].
    change (1 + 1 <? CONFIG_VMM_PREFAULT_MAX / 2) with true. cbv iota.
    rewrite (wrap_small 64 (f - 4096 * (1 + 1))) by lia.
    replace (f - 4096 * (1 + 1)) with (f - 2 * 4096) by lia.
    rewrite H2. mstep. destruct o2 as [e2|]; [|done]. unfold other_flags in Hf2. fold fl in Hf2.
    destruct (Z.eqb_spec fl (without e2 ADDRMASK)); [congruence|]. done. }
  assert (Hfwd : ∀ n, prefault_fwd (S (S n)) h pt f fl 2 = Ok 3).
  { intros n. cbn [prefault_fwd]. unfold ARCH_PAGE_SIZE.
    change (2 <? CONFIG_VMM_PREFAULT_MAX) with true. cbv iota.
    replace (f + 4096 * 2) with (f + 2 * 4096) by lia. rewrite (wrap_small 64 (f + 2 * 4096)) by lia.
    rewrite H3. mstep. rewrite Hf3, Z.eqb_refl. cbn [negb].
    change (2 + 1 <? CONFIG_VMM_PREFAULT_MAX) with true. cbv iota.
    replace (f + 4096 * (2 + 1)) with (f + 3 * 4096) by lia.
    rewrite (wrap_small 64 (f + 3 * 4096)) by lia. rewrite H4. mstep. destruct o4 as [e4|]; [|done]. unfold other_flags in Hf4. fold fl in Hf4.
    destruct (Z.eqb_spec fl (without e4 ADDRMASK)); [congruence|]. done. }
  rewrite (Hback 510%nat). mstep_rw. rewrite (Hfwd 510%nat). mstep_rw. eexists. split; [done|]. cbn. lia.
Qed.

(** ** Witnesses *)
#[export] Program Instance bump_TableMem : TableMem bump := {|
  tb_free b _ := Ok b;
  pg_hold b _ := Ok b;
  pg_free b _ := Ok b
|}.
Next Obligation. intros b p b' Hb [= <-]. done. Qed.

(** An empty table at physical page 1. *)
Definition demo_pt : Z := 0x1000.
Definition demo_tables : pheap := {[ARCH_PHYS_TO_HHDM demo_pt := ∅]}.

Lemma demo_tables_tree : mtree demo_tables demo_pt.
Proof. apply ptree_single; [done|]. unfold demo_tables. by rewrite lookup_singleton_eq. Qed.

Lemma demo_tables_owned : heap_owned demo_tables (Bump 2).
Proof.
  intros p Hp [pg Hs]. unfold demo_tables in Hs. apply lookup_singleton_Some in Hs as [Hs _].
  apply hhdm_inj in Hs; [|split; [unfold demo_pt; lia|done]|done]. subst p. split; [done|].
  unfold demo_pt. simpl. unfold ARCH_PAGE_SIZE. lia.
Qed.

Lemma arch_mmu_map_translates_witness :
  ∃ h' a', arch_mmu_map demo_tables (Bump 2) demo_pt 0x400000 0x9000 7 = Ok (true, h', a') ∧
    mtree h' demo_pt ∧ pa_inv a' ∧ heap_owned h' a' ∧
    ∀ v, arch_mmu_get_physical h' demo_pt v =
      if decide (same_page 0x400000 v) then Ok (Some (0x9000 + Z.land v (ARCH_PAGE_SIZE - 1)))
      else arch_mmu_get_physical demo_tables demo_pt v.
Proof.
  apply (arch_mmu_map_translates demo_tables (Bump 2) demo_pt 0x400000 0x9000 7);
    [apply demo_tables_tree|simpl; lia|apply demo_tables_owned|simpl; lia|split; [lia|done]|done].
Defined.

Lemma arch_mmu_unmap_forgets_witness :
  ∃ o h', arch_mmu_unmap demo_tables demo_pt 0x400000 = Ok (o, h') ∧ mtree h' demo_pt ∧
    (∀ w, o = Some w → w = Z.land (pte demo_tables demo_pt 0x400000) ADDRMASK) ∧
    ∀ v, arch_mmu_get_physical h' demo_pt v =
      if decide (same_page 0x400000 v) then Ok None else arch_mmu_get_physical demo_tables demo_pt v.
Proof. apply (arch_mmu_unmap_forgets demo_tables demo_pt 0x400000 demo_tables_tree). Defined.

(** A page table with one writable page. *)
Definition demo_leaf : page := {[5 := 0x9007]}.
Definition demo_leaf_heap : pheap := {[ARCH_PHYS_TO_HHDM demo_pt := demo_leaf]}.

Lemma duplicate_page_table_cow_witness :
  ∃ n h' a', duplicate_recursive 1 demo_leaf_heap (Bump 2) (table_entry demo_pt) = Ok (n, h', a') ∧
    pa_inv a' ∧ heap_owned h' a' ∧ next n ≠ ARCH_PHYS_TO_HHDM demo_pt ∧ demo_leaf_heap !! next n = None ∧
    (∀ i, 0 ≤ i < 512 → rd h' (next n) i = Ok (dup_child (rd_slot demo_leaf i)) ∧
                        rd h' (ARCH_PHYS_TO_HHDM demo_pt) i = Ok (dup_parent (rd_slot demo_leaf i))) ∧
    (∀ q, q ≠ ARCH_PHYS_TO_HHDM demo_pt → q ≠ next n → h' !! q = demo_leaf_heap !! q).
Proof.
  apply (duplicate_page_table_cow demo_leaf_heap (Bump 2) (table_entry demo_pt) demo_leaf);
    [reflexivity|simpl; lia| |simpl; lia|reflexivity|].
  - intros p Hp [pg Hs]. unfold demo_leaf_heap in Hs. apply lookup_singleton_Some in Hs as [Hs _].
    apply hhdm_inj in Hs; [|split; [unfold demo_pt; lia|done]|done]. subst p. split; [done|].
    unfold demo_pt. simpl. unfold ARCH_PAGE_SIZE. lia.
  - intros i Hi a Ha. by exists a.
Defined.

(** Tables in which 0x401000 was never touched (a zero page to be filled on
    demand), nor 0x402000 and 0x404000, while 0x403000 holds data; the walk
    finds nothing at 0x400000 and 0x405000. *)
Definition demo_lazy : Z := 0x8805.
Definition demo_lazy_heap : pheap :=
  {[ARCH_PHYS_TO_HHDM 0x1000 := {[0 := table_entry 0x2000]};
    ARCH_PHYS_TO_HHDM 0x2000 := {[0 := table_entry 0x3000]};
    ARCH_PHYS_TO_HHDM 0x3000 := {[1 := table_entry 0x4000; 2 := table_entry 0x5000]};
    ARCH_PHYS_TO_HHDM 0x4000 := {[0x1fe := demo_lazy; 0x1ff := demo_lazy]};
    ARCH_PHYS_TO_HHDM 0x5000 := {[0 := 0x9007; 1 := demo_lazy]}]}.

Lemma prefault_range_unchecked_witness :
  ∃ fa, x86_64_mmu_fault_isr demo_lazy_heap 0x1000 0x3ff000 = Ok fa ∧
    fa_attr fa = COM_MM_VMM_FAULT_ATTR_MAP ∧ fa_virt fa = 0x3fe000 ∧ fa_num_pages fa = 3 ∧
    fa_virt fa ≤ 0x400000 < fa_virt fa + fa_num_pages fa * ARCH_PAGE_SIZE.
Proof.
  apply (prefault_range_unchecked demo_lazy_heap 0x1000 0x3ff000 demo_lazy demo_lazy (Some 0) demo_lazy (Some 0)
    (Some 0x9007)).
  - reflexivity.
  - unfold ARCH_PAGE_SIZE. lia.
  - vm_compute. reflexivity.
  - reflexivity.
  - vm_compute. reflexivity.
  - reflexivity.
  - vm_compute. reflexivity.
  - done.
  - vm_compute. reflexivity.
  - reflexivity.
  - vm_compute. reflexivity.
  - done.
  - vm_compute. reflexivity.
  - done.
Defined.
