(* ===== verification/Vmm.v ===== *)
(** * The virtual memory manager of src/com/mm/vmm.c

    Contexts, mapping with its flag logic, unmapping, the allocation of
    anonymous address ranges and the page-fault handler, over the page tables
    of [Mmu.v]. The pages' contents are the memory of [Mem.v], reached through
    the higher-half map. TLB invalidation, locks and the profiler are left
    out. *)
From S2P Require Import Prelude Mem PageTree Pmm Mmu.

Definition COM_MM_VMM_FLAGS_NONE : Z := 0.
Definition COM_MM_VMM_FLAGS_ANONYMOUS : Z := 1.
Definition COM_MM_VMM_FLAGS_NOHINT : Z := 2.
Definition COM_MM_VMM_FLAGS_PHYSICAL : Z := 4.
Definition COM_MM_VMM_FLAGS_SHARED : Z := 32.
Definition COM_MM_VMM_FLAGS_ALLOCATE : Z := 128.
Definition COM_MM_VMM_FLAGS_PRIVATE : Z := 256.
Definition CONFIG_VMM_ANON_START : Z := 0x100000000.
Definition UNMAP_MAX_ARRAY_ON_STACK : Z := 64.

(** What the manager needs of the physical memory manager besides the page
    tables' part: single pages and blocks for data, and the reference count.
    An allocated data page was not handed out before; allocating one leaves
    the supply of tables alone. *)
Class VmMem (A : Type) `{TableMem A} := {
  vm_alloc : A → res (Z * A);
  vm_alloc_many : A → Z → res (Z * A);
  vm_is_shared : A → Z → res bool;
  vm_free_many : A → Z → Z → res A;
  vm_alloc_ok a p a' : pa_inv a → vm_alloc a = Ok (p, a') →
    pa_inv a' ∧ valid_phys p ∧ ¬ pa_taken a p ∧
    (∀ q, pa_taken a' q ↔ q = p ∨ pa_taken a q) ∧ (pa_free a ≤ S (pa_free a'))%nat
}.

(** [com_vmm_context_t] *)
Record com_vmm_context : Type := mkCtx { pagetable : Z; anon_pages : Z }.

(** A context argument: [NULL], the kernel's [RootContext], or another. *)
Inductive ctxarg : Type := CtxNull | CtxRoot | Ctx (c : com_vmm_context).

(** [RootContext.pagetable], the zero page, and the context of the current
    thread ([None]: the root context). *)
Record vmm_globals : Type := mkGlob {
  RootContext_pagetable : Z; ZeroPage : Z; current : option com_vmm_context
}.

Definition vmm_current_context (g : vmm_globals) : ctxarg :=
  match current g with None => CtxRoot | Some c => Ctx c end.

Definition vmm_ensure_context (g : vmm_globals) (c : ctxarg) : res ctxarg :=
  KASSERT (match c with CtxRoot => false | _ => true end);;
  Ok (match c with CtxNull => vmm_current_context g | _ => c end).

Definition ctx_pagetable (g : vmm_globals) (c : ctxarg) : Z :=
  match c with Ctx c => pagetable c | _ => RootContext_pagetable g end.

(** The page arithmetic that maps and unmaps share. *)
Definition page_floor (v : Z) : Z := Z.ldiff v (ARCH_PAGE_SIZE - 1).
Definition pages_spanned (off len : Z) : Z :=
  u64 (u64 (off + len) + ARCH_PAGE_SIZE - 1) / ARCH_PAGE_SIZE.

Section vmm.
Context `{VmMem A}.
Variable g : vmm_globals.

(** [RootTable] of [Mmu.v] is an argument where a table is created. *)
Definition com_mm_vmm_new_context (RootTable : Z) (h : pheap) (a : A) (pt : option Z)
    : res (com_vmm_context * pheap * A) :=
  match pt with
  | Some pt => Ok (mkCtx pt 0, h, a)
  | None =>
      '(pt, h, a) ← arch_mmu_new_table RootTable h a;
      Ok (mkCtx (default 0 pt) 0, h, a)
  end.

Definition com_mm_vmm_duplicate_context (RootTable : Z) (h : pheap) (a : A)
    (c : option com_vmm_context) : res (com_vmm_context * pheap * A) :=
  match c with
  | None => com_mm_vmm_new_context RootTable h a None
  | Some c =>
      '(new_pt, h, a) ← arch_mmu_duplicate_table RootTable h a (pagetable c);
      '(n, h, a) ← com_mm_vmm_new_context RootTable h a new_pt;
      Ok (mkCtx (pagetable n) (anon_pages c), h, a)
  end.

(** The flags [com_mm_vmm_map] works with. *)
Definition map_flags (vmm_flags mmu_flags : Z) : Z * Z :=
  let mmu_flags := if has COM_MM_VMM_FLAGS_SHARED vmm_flags
    then Z.lor mmu_flags ARCH_MMU_EXTRA_FLAGS_SHARED else mmu_flags in
  let '(vmm_flags, mmu_flags) := if has COM_MM_VMM_FLAGS_ALLOCATE vmm_flags
    then (Z.lor vmm_flags COM_MM_VMM_FLAGS_PRIVATE, Z.lor mmu_flags ARCH_MMU_EXTRA_FLAGS_NOCOPY)
    else (vmm_flags, mmu_flags) in
  let mmu_flags := if has COM_MM_VMM_FLAGS_PRIVATE vmm_flags && has ARCH_MMU_FLAGS_WRITE mmu_flags
    then Z.lor (without mmu_flags ARCH_MMU_FLAGS_WRITE) ARCH_MMU_EXTRA_FLAGS_PRIVATE
    else mmu_flags in
  (vmm_flags, mmu_flags).

Fixpoint map_pages (todo : nat) (i : Z) (h : pheap) (a : A) (pt virt page_paddr vmm_flags mmu_flags : Z)
    : res (pheap * A) :=
  match todo with
  | O => Ok (h, a)
  | S todo =>
      let offset := u64 (i * ARCH_PAGE_SIZE) in
      let vaddr := u64 (virt + offset) in
      '(paddr, a) ← (if has COM_MM_VMM_FLAGS_ALLOCATE vmm_flags
                     then a ← pg_hold a (ZeroPage g); Ok (ZeroPage g, a)
                     else Ok (u64 (page_paddr + offset), a));
      '(success, h, a) ← arch_mmu_map h a pt vaddr paddr mmu_flags;
      KASSERT success;;
      map_pages todo (i + 1) h a pt virt page_paddr vmm_flags mmu_flags
  end.

(** Returns the address, the context (whose range counter may have moved)
    and the tables. *)
Definition com_mm_vmm_map (h : pheap) (a : A) (context : ctxarg) (virt phys len vmm_flags mmu_flags : Z)
    : res (Z * ctxarg * pheap * A) :=
  let phys := if has COM_MM_VMM_FLAGS_ALLOCATE vmm_flags then 0 else phys in
  let '(vmm_flags, mmu_flags) := map_flags vmm_flags mmu_flags in
  let page_paddr := page_floor phys in
  let page_off := phys mod ARCH_PAGE_SIZE in
  let size_in_pages := pages_spanned page_off len in
  context ← vmm_ensure_context g context;
  '(virt, context, mmu_flags) ←
    (if has COM_MM_VMM_FLAGS_NOHINT vmm_flags then
       if has COM_MM_VMM_FLAGS_ANONYMOUS vmm_flags then
         match context with
         | Ctx c =>
             KASSERT (negb (RootContext_pagetable g =? pagetable c));;
             Ok (u64 (anon_pages c * ARCH_PAGE_SIZE + CONFIG_VMM_ANON_START),
                 Ctx (mkCtx (pagetable c) (u64 (anon_pages c + size_in_pages))), mmu_flags)
         | _ => Panic
         end
       else if has COM_MM_VMM_FLAGS_PHYSICAL vmm_flags then
         Ok (ARCH_PHYS_TO_HHDM page_paddr, context, Z.lor mmu_flags ARCH_MMU_FLAGS_GLOBAL)
       else Panic
     else Ok (page_floor virt, context, mmu_flags));
  '(h, a) ← map_pages (Z.to_nat size_in_pages) 0 h a (ctx_pagetable g context) virt page_paddr
              vmm_flags mmu_flags;
  Ok (u64 (virt + page_off), context, h, a).

Definition com_mm_vmm_get_physical (h : pheap) (context : ctxarg) (virt_addr : Z) : res (option Z) :=
  context ← vmm_ensure_context g context;
  arch_mmu_get_physical h (ctx_pagetable g context) virt_addr.

(** The first loop of [com_mm_vmm_unmap], up to its [break]. *)
Fixpoint unmap_pages (todo : nat) (i : Z) (h : pheap) (pt virt : Z) (buf : list Z)
    : res (list Z * pheap) :=
  match todo with
  | O => Ok (buf, h)
  | S todo =>
      '(old, h) ← arch_mmu_unmap h pt (u64 (virt + i * ARCH_PAGE_SIZE));
      match old with
      | None => Ok (buf, h)
      | Some p => unmap_pages todo (i + 1) h pt virt (buf ++ [p])
      end
  end.

Fixpoint free_pages (pages : list Z) (a : A) : res A :=
  match pages with
  | [] => Ok a
  | p :: pages => a ← pg_free a p; free_pages pages a
  end.

Definition com_mm_vmm_unmap (h : pheap) (a : A) (context : ctxarg) (virt len : Z) : res (pheap * A) :=
  context ← vmm_ensure_context g context;
  let page_off := virt mod ARCH_PAGE_SIZE in
  let size_in_pages := pages_spanned page_off len in
  let virt := page_floor virt in
  let tmp_phys_buf_pages := u64 (u64 (size_in_pages * 8) + ARCH_PAGE_SIZE - 1) / ARCH_PAGE_SIZE in
  '(tmp, a) ← (if UNMAP_MAX_ARRAY_ON_STACK <? size_in_pages
               then vm_alloc_many a tmp_phys_buf_pages else Ok (0, a));
  '(unmapped, h) ← unmap_pages (Z.to_nat size_in_pages) 0 h (ctx_pagetable g context) virt [];
  a ← free_pages unmapped a;
  a ← (if UNMAP_MAX_ARRAY_ON_STACK <? size_in_pages
       then vm_free_many a tmp tmp_phys_buf_pages else Ok a);
  Ok (h, a).

(** ** Page faults *)

(** What the handler ends in: the fault repaired, or a [SIGSEGV] for the
    process; [com_sys_panic] is [Panic]. *)
Inductive fault_end : Type := Repaired (h : pheap) (a : A) (m : mem) | SendSIGSEGV.

Fixpoint fault_map (todo : nat) (i : Z) (h : pheap) (a : A) (pt page new_phys flags : Z)
    : res (pheap * A) :=
  match todo with
  | O => Ok (h, a)
  | S todo =>
      '(_, h, a) ← arch_mmu_map h a pt (u64 (page + ARCH_PAGE_SIZE * i))
                     (u64 (new_phys + ARCH_PAGE_SIZE * i)) flags;
      fault_map todo (i + 1) h a pt page new_phys flags
  end.

(** [thread]: the current thread, if any, as (is it in user mode, the page
    table of its process if it has one); [fault_user]: was the faulting
    context in user mode? *)
Definition com_mm_vmm_handle_fault (h : pheap) (a : A) (m : mem) (thread : option (bool * option Z))
    (fault_user : bool) (f : fault_args) : res fault_end :=
  match thread with
  | None => Panic
  | Some (is_user, proc_pt) =>
      match is_user, proc_pt with
      | true, Some pt =>
          let fault_virt_page := page_floor (fa_virt f) in
          if has COM_MM_VMM_FAULT_ATTR_MAP (fa_attr f) then
            '(new_phys, a) ← vm_alloc_many a (fa_num_pages f);
            '(h, a) ← fault_map (Z.to_nat (fa_num_pages f)) 0 h a pt fault_virt_page new_phys
                        (fa_mmu_flags_hint f);
            Ok (Repaired h a m)
          else if has COM_MM_VMM_FAULT_ATTR_COW (fa_attr f) then
            let fault_phys_page := page_floor (fa_phys f) in
            shared ← vm_is_shared a fault_phys_page;
            if negb shared then
              '(_, h, a) ← arch_mmu_map h a pt fault_virt_page fault_phys_page (fa_mmu_flags_hint f);
              Ok (Repaired h a m)
            else
              '(new_phys, a) ← vm_alloc a;
              let m := (kmemcpy (ARCH_PHYS_TO_HHDM new_phys) (ARCH_PHYS_TO_HHDM fault_phys_page)
                          ARCH_PAGE_SIZE m).2 in
              '(_, h, a) ← arch_mmu_map h a pt fault_virt_page new_phys (fa_mmu_flags_hint f);
              a ← pg_free a fault_phys_page;
              Ok (Repaired h a m)
          else if fault_user then Ok SendSIGSEGV
          else Panic
      | _, _ => Panic
      end
  end.

(** ** Address ranges *)
Definition com_mm_vmm_prealloc_range (context : ctxarg) (len : Z) : res (Z * com_vmm_context) :=
  context ← vmm_ensure_context g context;
  match context with
  | Ctx c =>
      KASSERT (negb (RootContext_pagetable g =? pagetable c));;
      Ok (u64 (anon_pages c * ARCH_PAGE_SIZE + CONFIG_VMM_ANON_START),
          mkCtx (pagetable c)
            (u64 (anon_pages c + u64 (len + ARCH_PAGE_SIZE - 1) / ARCH_PAGE_SIZE)))
  | _ => Panic
  end.
End vmm.

(** [com_mm_vmm_init], given the table in cr3. *)
Definition com_mm_vmm_init `{VmMem A} (cr3 : Z) (a : A) : res (vmm_globals * A) :=
  '(z, a) ← vm_alloc a;
  Ok (mkGlob cr3 z None, a).

(** ** Lemmas *)

(** A table index is nine bits of the address. *)
Lemma offset_bits v k : 0 ≤ k → 
  Z.shiftr (Z.land v (Z.shiftl (Z.ones 9) k)) k = (v / 2 ^ k) mod 2 ^ 9.
Proof.
  intros Hk. rewrite Z.shiftr_land, Z.shiftr_shiftl_l, Z.sub_diag, Z.shiftl_0_r by lia.
  rewrite Z.land_ones by lia. by rewrite Z.shiftr_div_pow2 by lia.
Qed.

Lemma offsets_bits v :
  pml4offset v = (v / 2 ^ 39) mod 2 ^ 9 ∧ pdptoffset v = (v / 2 ^ 30) mod 2 ^ 9 ∧
  pdoffset v = (v / 2 ^ 21) mod 2 ^ 9 ∧ ptoffset v = (v / 2 ^ 12) mod 2 ^ 9.
Proof.
  split_and!; rewrite <- offset_bits by lia; reflexivity.
Qed.

(** Within the 48-bit address space the four indices determine the page. *)
Lemma same_page_iff v v' :
  0 ≤ v < 2 ^ 48 → 0 ≤ v' < 2 ^ 48 → (same_page v v' ↔ v / ARCH_PAGE_SIZE = v' / ARCH_PAGE_SIZE).
Proof.
  intros Hv Hv'. change ARCH_PAGE_SIZE with (2 ^ 12). unfold same_page, vpath.
  destruct (offsets_bits v) as (-> & -> & -> & ->), (offsets_bits v') as (-> & -> & -> & ->).
  assert (Hsplit : ∀ x, 0 ≤ x < 2 ^ 48 →
    x / 2 ^ 12 = (x / 2 ^ 12) mod 2 ^ 9 + 2 ^ 9 * ((x / 2 ^ 21) mod 2 ^ 9 +
      2 ^ 9 * ((x / 2 ^ 30) mod 2 ^ 9 + 2 ^ 9 * ((x / 2 ^ 39) mod 2 ^ 9)))).
  { intros x Hx. assert (Hstep : ∀ k, 0 ≤ k → x / 2 ^ k = (x / 2 ^ k) mod 2 ^ 9 + 2 ^ 9 * (x / 2 ^ (k + 9))).
    { intros k Hk. rewrite Z.pow_add_r, <- Z.div_div by lia.
      pose proof (Z.div_mod (x / 2 ^ k) (2 ^ 9)). lia. }
    pose proof (Hstep 12 ltac:(lia)) as H1. pose proof (Hstep 21 ltac:(lia)) as H2.
    pose proof (Hstep 30 ltac:(lia)) as H3. change (12 + 9) with 21 in H1.
    change (21 + 9) with 30 in H2. change (30 + 9) with 39 in H3.
    assert (H4 : (x / 2 ^ 39) mod 2 ^ 9 = x / 2 ^ 39).
    { apply Z.mod_small. split; [apply Z.div_pos; lia|]. apply Z.div_lt_upper_bound; lia. }
    lia. }
  split.
  - intros [[= Ha Hb Hc] Hd]. rewrite (Hsplit v), (Hsplit v') by done. lia.
  - intros Heq. assert (Hd : ∀ k, 0 ≤ k → v / 2 ^ (12 + k) = v' / 2 ^ (12 + k)).
    { intros k Hk. rewrite Z.pow_add_r, <- !Z.div_div by lia. by rewrite Heq. }
    pose proof (Hd 27 ltac:(lia)) as H1. pose proof (Hd 18 ltac:(lia)) as H2.
    pose proof (Hd 9 ltac:(lia)) as H3. change (12 + 27) with 39 in H1.
    change (12 + 18) with 30 in H2. change (12 + 9) with 21 in H3. by rewrite H1, H2, H3, Heq.
Qed.

Lemma page_floor_eq v : 0 ≤ v → page_floor v = v / ARCH_PAGE_SIZE * ARCH_PAGE_SIZE.
Proof.
  intros Hv. unfold page_floor. change (ARCH_PAGE_SIZE - 1) with (Z.ones 12).
  rewrite Z.ldiff_ones_r by lia. by rewrite Z.shiftl_mul_pow2, Z.shiftr_div_pow2 by lia.
Qed.

Section vmm_lemmas.
Context `{VmMem A}.
Variable g : vmm_globals.

Lemma same_page_range virt v :
  virt mod ARCH_PAGE_SIZE = 0 → 0 ≤ virt < 2 ^ 48 → 0 ≤ v < 2 ^ 48 →
  (same_page virt v ↔ virt ≤ v < virt + ARCH_PAGE_SIZE).
Proof.
  intros Hal Hv Hv'. rewrite same_page_iff by done. unfold ARCH_PAGE_SIZE in *.
  pose proof (Z.div_mod virt 4096). pose proof (Z.div_mod v 4096).
  pose proof (Z.mod_pos_bound v 4096). lia.
Qed.

(** Where the pages of a map come from: the zero page, or a run of frames. *)
Definition map_source (vmm_flags phys n : Z) : Prop :=
  if has COM_MM_VMM_FLAGS_ALLOCATE vmm_flags
  then valid_phys (ZeroPage g) ∧ ∀ a, pa_inv a → ∃ a', pg_hold a (ZeroPage g) = Ok a'
  else phys mod ARCH_PAGE_SIZE = 0 ∧ 0 < phys ∧ phys + n * ARCH_PAGE_SIZE ≤ 2 ^ 46.
Definition map_target (vmm_flags virt phys v : Z) : Z :=
  if has COM_MM_VMM_FLAGS_ALLOCATE vmm_flags then ZeroPage g + v mod ARCH_PAGE_SIZE else phys + (v - virt).

Lemma land_page v : Z.land v (ARCH_PAGE_SIZE - 1) = v mod ARCH_PAGE_SIZE.
Proof. change (ARCH_PAGE_SIZE - 1) with (Z.ones 12). by rewrite Z.land_ones by lia. Qed.

(** Mapping [todo] pages from the [i]-th on. *)
Lemma map_pages_spec todo i h a pt virt phys vf flags :
  mtree h pt → pa_inv a → heap_owned h a → (3 * todo ≤ pa_free a)%nat → flags_ok flags →
  virt mod ARCH_PAGE_SIZE = 0 → 0 ≤ i → 0 ≤ virt →
  virt + (i + Z.of_nat todo) * ARCH_PAGE_SIZE ≤ 2 ^ 47 → map_source vf phys (i + Z.of_nat todo) →
  ∃ h' a', map_pages g todo i h a pt virt phys vf flags = Ok (h', a') ∧
    mtree h' pt ∧ pa_inv a' ∧ heap_owned h' a' ∧ mmu_frame h a pt h' a' ∧
    (pa_free a ≤ pa_free a' + 3 * todo)%nat ∧
    ∀ v, 0 ≤ v < 2 ^ 48 → arch_mmu_get_physical h' pt v =
      if decide (virt + i * ARCH_PAGE_SIZE ≤ v < virt + (i + Z.of_nat todo) * ARCH_PAGE_SIZE)
      then Ok (Some (map_target vf virt phys v)) else arch_mmu_get_physical h pt v.
Proof.
  revert i h a. induction todo as [|todo IH]; intros i h a Ht Hinv Hown Hf Hfl Hva Hi Hv Hvm Hsrc.
  { exists h, a. do 5 (split; [done|]). split; [lia|]. intros v _. rewrite decide_False by lia. done. }
  cbn [map_pages]. unfold ARCH_PAGE_SIZE in *.
  rewrite (wrap_small 64 (i * 4096)), (wrap_small 64 (virt + i * 4096)) by lia.
  assert (Hpa : ∃ p a0, (if has COM_MM_VMM_FLAGS_ALLOCATE vf then a ← pg_hold a (ZeroPage g); Ok (ZeroPage g, a)
      else Ok (u64 (phys + i * 4096), a)) = Ok (p, a0) ∧ valid_phys p ∧ pa_inv a0 ∧ heap_owned h a0 ∧
      pa_free a0 = pa_free a ∧ mmu_frame h a pt h a0 ∧
      ∀ v, virt + i * 4096 ≤ v < virt + i * 4096 + 4096 → p + v mod 4096 = map_target vf virt phys v).
  { unfold map_source in Hsrc. unfold map_target. case_match.
    - destruct Hsrc as [Hz Hh]. destruct (Hh a Hinv) as [a0 Ha0]. rewrite Ha0. mstep.
      destruct (pg_hold_ok _ _ _ Hinv Ha0) as (Hi0 & Htk & Hf0). exists (ZeroPage g), a0.
      do 3 (split; [done|]). split; [intros q Hq Hs; by apply Htk, Hown|]. split; [done|].
      split; [split; [done|intros r; apply Htk]|done].
    - destruct Hsrc as (Hpm & Hp & Hpl). rewrite (wrap_small 64) by (unfold ARCH_PAGE_SIZE in *; lia).
      unfold ARCH_PAGE_SIZE in *. exists (phys + i * 4096), a. split; [done|].
      split; [split; [lia|unfold ARCH_PAGE_SIZE; by rewrite Z.mod_add]|].
      do 3 (split; [done|]). split; [done|]. intros v Hr.
      assert (v = virt + i * 4096 + (v - (virt + i * 4096))) as Hveq by lia.
      replace (v mod 4096) with (v - (virt + i * 4096)); [lia|]. 
      apply (Z.mod_unique_pos _ _ (virt / 4096 + i)); [lia|]. pose proof (Z.div_mod virt 4096). lia. }
  destruct Hpa as (p & a0 & -> & Hp & Hi0 & Ho0 & Hf0 & Hfr0 & Htgt). mstep.
  destruct (arch_mmu_map_spec h a0 pt (virt + i * 4096) p flags)
    as (h1 & a1 & E1 & Ht1 & Hinv1 & Hown1 & Hf1 & Hg1); [done|done|done|lia|done|done|].
  destruct (arch_mmu_map_frame h a0 pt (virt + i * 4096) p flags) as (h1' & a1' & E1' & Hfr1); [done|done|done|lia|].
  rewrite E1 in E1'. injection E1' as <- <-. rewrite E1. mstep. mstep.
  destruct (IH (i + 1) h1 a1) as (h' & a' & -> & Ht' & Hinv' & Hown' & Hfr' & Hf' & Hg'); try (done || lia).
  { by replace (i + 1 + Z.of_nat todo) with (i + Z.of_nat (S todo)) by lia. }
  exists h', a'. do 4 (split; [done|]).
  split; [exact (mmu_frame_trans _ _ _ _ _ _ _ Hfr0 (mmu_frame_trans _ _ _ _ _ _ _ Hfr1 Hfr'))|].
  split; [lia|]. intros v Hvr. rewrite Hg', Hg1 by done.
  assert (Hvi : (virt + i * 4096) mod ARCH_PAGE_SIZE = 0) by (unfold ARCH_PAGE_SIZE; by rewrite Z.mod_add).
  pose proof (same_page_range (virt + i * 4096) v Hvi ltac:(lia) Hvr) as Hsp. unfold ARCH_PAGE_SIZE in Hsp.
  destruct (decide (virt + (i + 1) * 4096 ≤ v < virt + (i + 1 + Z.of_nat todo) * 4096)).
  { rewrite decide_True by lia. done. }
  destruct (decide (same_page (virt + i * 4096) v)) as [Hs|Hs]; rewrite Hsp in Hs.
  - rewrite decide_True, land_page by lia. unfold ARCH_PAGE_SIZE. by rewrite Htgt by lia.
  - rewrite decide_False by lia. done.
Qed.

Lemma pages_spanned_eq len : 0 ≤ len < 2 ^ 63 → pages_spanned 0 len = (len + ARCH_PAGE_SIZE - 1) / ARCH_PAGE_SIZE.
Proof. intros. unfold pages_spanned, ARCH_PAGE_SIZE. by rewrite Z.add_0_l, !wrap_small by (rewrite ?wrap_small; lia). Qed.

Lemma page_floor_aligned x : 0 ≤ x → x mod ARCH_PAGE_SIZE = 0 → page_floor x = x.
Proof. intros Hx Hm. rewrite page_floor_eq by done. unfold ARCH_PAGE_SIZE in *. pose proof (Z.div_mod x 4096). lia. Qed.

(** [com_mm_vmm_map] at an address that is given. *)
Lemma com_mm_vmm_map_spec h a c virt phys len vf flags n :
  mtree h (pagetable c) → pa_inv a → heap_owned h a → flags_ok (map_flags vf flags).2 →
  has COM_MM_VMM_FLAGS_NOHINT (map_flags vf flags).1 = false →
  0 ≤ len < 2 ^ 63 → n = (len + ARCH_PAGE_SIZE - 1) / ARCH_PAGE_SIZE → (3 * Z.to_nat n ≤ pa_free a)%nat →
  virt mod ARCH_PAGE_SIZE = 0 → 0 ≤ virt → virt + n * ARCH_PAGE_SIZE ≤ 2 ^ 47 → map_source vf phys n →
  ∃ h' a', com_mm_vmm_map g h a (Ctx c) virt phys len vf flags = Ok (virt, Ctx c, h', a') ∧
    mtree h' (pagetable c) ∧ pa_inv a' ∧ heap_owned h' a' ∧ mmu_frame h a (pagetable c) h' a' ∧
    (pa_free a ≤ pa_free a' + 3 * Z.to_nat n)%nat ∧
    ∀ v, 0 ≤ v < 2 ^ 48 → arch_mmu_get_physical h' (pagetable c) v =
      if decide (virt ≤ v < virt + n * ARCH_PAGE_SIZE) then Ok (Some (map_target vf virt phys v))
      else arch_mmu_get_physical h (pagetable c) v.
Proof.
  intros Ht Hinv Hown Hfl Hnh Hlen Hn Hf Hva Hv Hvm Hsrc.
  assert (Hn0 : 0 ≤ n) by (rewrite Hn; apply Z.div_pos; unfold ARCH_PAGE_SIZE; lia).
  unfold com_mm_vmm_map. set (ph := if has COM_MM_VMM_FLAGS_ALLOCATE vf then 0 else phys).
  assert (Hph : ph mod ARCH_PAGE_SIZE = 0 ∧ page_floor ph = ph).
  { unfold ph, map_source in *. case_match; [done|]. destruct Hsrc as (? & ? & ?). split; [done|]. apply page_floor_aligned; [lia|done]. }
  destruct Hph as [-> ->]. rewrite pages_spanned_eq, <- Hn by done.
  assert (Hal : has COM_MM_VMM_FLAGS_ALLOCATE (map_flags vf flags).1 = has COM_MM_VMM_FLAGS_ALLOCATE vf).
  { unfold map_flags. destruct (has COM_MM_VMM_FLAGS_ALLOCATE vf) eqn:He; cbn [fst]; [|done].
    revert He. unfold has. rewrite !negb_true_iff, !Z.eqb_neq, Z.land_lor_distr_r. intros He Ho. apply Z.lor_eq_0_iff in Ho as [? ?]. done. }
  destruct (map_flags vf flags) as [vf' fl'] eqn:Hmf. cbn [fst snd] in *.
  unfold vmm_ensure_context. mstep. mstep. rewrite Hnh. mstep. cbn [ctx_pagetable].
  rewrite (page_floor_aligned virt) by done.
  destruct (map_pages_spec (Z.to_nat n) 0 h a (pagetable c) virt ph vf' fl')
    as (h' & a' & -> & Ht' & Hinv' & Hown' & Hfr & Hf' & Hg); try (done || lia).
  { rewrite Z.add_0_l, Z2Nat.id by done. done. }
  { rewrite Z.add_0_l, Z2Nat.id by done. unfold map_source, ph in *. rewrite Hal. by case_match. }
  mstep. rewrite Z.add_0_r, wrap_small by (unfold ARCH_PAGE_SIZE in *; lia).
  exists h', a'. do 6 (split; [done|]). intros v Hvr. rewrite Hg by done.
  rewrite Z2Nat.id, Z.mul_0_l, Z.add_0_r, Z.add_0_l by done. unfold map_target, ph. rewrite Hal. by destruct (has _ vf).
Qed.
End vmm_lemmas.

(** ** Properties *)

Section vmm_properties.
Context `{VmMem A}.
Variable g : vmm_globals.

(** C9: Mapping a range of frames at an address makes every address of the
    range translate to the frame byte at the same distance, and changes the
    translation of no other user address; the range counter does not
    move. *)
Theorem com_mm_vmm_map_range h a c virt phys n flags :
  mtree h (pagetable c) → pa_inv a → heap_owned h a → flags_ok flags → 0 ≤ n →
  (3 * Z.to_nat n ≤ pa_free a)%nat →
  virt mod ARCH_PAGE_SIZE = 0 → phys mod ARCH_PAGE_SIZE = 0 → 0 ≤ virt → 0 < phys →
  virt + n * ARCH_PAGE_SIZE ≤ 2 ^ 47 → phys + n * ARCH_PAGE_SIZE ≤ 2 ^ 46 →
  ∃ h' a', com_mm_vmm_map g h a (Ctx c) virt phys (n * ARCH_PAGE_SIZE) COM_MM_VMM_FLAGS_NONE flags
      = Ok (virt, Ctx c, h', a') ∧
    mtree h' (pagetable c) ∧ pa_inv a' ∧ heap_owned h' a' ∧
    ∀ v, 0 ≤ v < 2 ^ 48 → com_mm_vmm_get_physical g h' (Ctx c) v =
      if decide (virt ≤ v < virt + n * ARCH_PAGE_SIZE) then Ok (Some (phys + (v - virt)))
      else com_mm_vmm_get_physical g h (Ctx c) v.
Proof.
  intros Ht Hinv Hown Hfl Hn Hf Hva Hpa Hv Hp Hvm Hpm.
  assert (Hdiv : n = (n * ARCH_PAGE_SIZE + ARCH_PAGE_SIZE - 1) / ARCH_PAGE_SIZE).
  { unfold ARCH_PAGE_SIZE. replace (n * 4096 + 4096 - 1) with (4095 + n * 4096) by lia. by rewrite Z.div_add. }
  destruct (com_mm_vmm_map_spec g h a c virt phys (n * ARCH_PAGE_SIZE) COM_MM_VMM_FLAGS_NONE flags n)
    as (h' & a' & -> & Ht' & Hinv' & Hown' & _ & _ & Hg); try done; [unfold ARCH_PAGE_SIZE in *; lia|].
  exists h', a'. do 4 (split; [done|]). exact Hg.
Qed.

(** A write fault on a copy-on-write page gives the process a writable page
    with the same contents: the frame itself when nobody else holds it, a
    fresh copy otherwise. No other translation and no byte outside the new
    frame changes. *)
Theorem com_mm_vmm_handle_fault_cow h a m pt f shared fault_user :
  mtree h pt → pa_inv a → heap_owned h a → (4 ≤ pa_free a)%nat →
  has COM_MM_VMM_FAULT_ATTR_MAP (fa_attr f) = false →
  has COM_MM_VMM_FAULT_ATTR_COW (fa_attr f) = true → flags_ok (fa_mmu_flags_hint f) →
  valid_phys (fa_phys f) → pa_taken a (fa_phys f) →
  vm_is_shared a (fa_phys f) = Ok shared →
  (∀ a, pa_inv a → ∃ a', pg_free a (fa_phys f) = Ok a') →
  (∃ x, vm_alloc a = Ok x) →
  ∃ h' a' m' frame,
    com_mm_vmm_handle_fault h a m (Some (true, Some pt)) fault_user f = Ok (Repaired h' a' m') ∧
    (∀ v, arch_mmu_get_physical h' pt v =
      if decide (same_page (page_floor (fa_virt f)) v)
      then Ok (Some (frame + Z.land v (ARCH_PAGE_SIZE - 1))) else arch_mmu_get_physical h pt v) ∧
    if shared then
      valid_phys frame ∧ ¬ pa_taken a frame ∧
      ∀ x, m' x = if in_range x (ARCH_PHYS_TO_HHDM frame) ARCH_PAGE_SIZE
        then m (ARCH_PHYS_TO_HHDM (fa_phys f) + (x - ARCH_PHYS_TO_HHDM frame)) else m x
    else frame = fa_phys f ∧ m' = m.
Proof.
  intros Ht Hinv Hown Hf Hmap Hcow Hfl Hp Htk Hsh Hfree [[new a0] Hal].
  unfold com_mm_vmm_handle_fault. rewrite Hmap, Hcow. cbv zeta.
  assert (Hfloor : page_floor (fa_phys f) = fa_phys f).
  { destruct Hp as [Hp Hm]. rewrite page_floor_eq by lia. unfold ARCH_PAGE_SIZE in *.
    pose proof (Z.div_mod (fa_phys f) 4096). lia. }
  rewrite Hfloor, Hsh. mstep_rw. destruct shared; cbn [negb].
  - rewrite Hal. mstep_rw. destruct (vm_alloc_ok a new a0 Hinv Hal) as (Hinv0 & Hv & Hnt & Htk0 & Hf0).
    assert (Hown0 : heap_owned h a0) by (intros q Hq Hs; apply Htk0; right; by apply Hown).
    destruct (arch_mmu_map_spec h a0 pt (page_floor (fa_virt f)) new (fa_mmu_flags_hint f) Ht Hinv0 Hown0)
      as (h1 & a1 & -> & _ & Hinv1 & _ & _ & Hg); [lia|done|done|]. mstep_rw.
    destruct (Hfree a1 Hinv1) as [a2 ->]. mstep_rw.
    eexists _, _, _, new. split; [done|]. split; [done|]. split; [done|]. split; [done|].
    intros x. apply kmemcpy_lookup; [done|].
    assert (Hne : fa_phys f ≠ new) by (intros Heq; rewrite Heq in Htk; done).
    rewrite !valid_phys_hhdm by done. destruct Hp as [? Hpm], Hv as [? Hvm].
    unfold ARCH_PAGE_SIZE in *. pose proof (Z.div_mod (fa_phys f) 4096). pose proof (Z.div_mod new 4096). lia.
  - destruct (arch_mmu_map_spec h a pt (page_floor (fa_virt f)) (fa_phys f) (fa_mmu_flags_hint f) Ht Hinv Hown)
      as (h1 & a1 & -> & _ & _ & _ & _ & Hg); [lia|done|done|]. mstep_rw.
    by eexists _, _, _, (fa_phys f).
Qed.

(** Two address ranges taken one after the other from a context do not
    overlap. *)
Theorem com_mm_vmm_prealloc_range_disjoint c len1 len2 :
  RootContext_pagetable g ≠ pagetable c →
  0 ≤ len1 < 2 ^ 48 → 0 ≤ len2 < 2 ^ 48 → 0 ≤ anon_pages c < 2 ^ 40 →
  ∃ base1 c1 base2 c2,
    com_mm_vmm_prealloc_range g (Ctx c) len1 = Ok (base1, c1) ∧
    com_mm_vmm_prealloc_range g (Ctx c1) len2 = Ok (base2, c2) ∧
    base1 + len1 ≤ base2 ∧ CONFIG_VMM_ANON_START ≤ base1.
Proof.
  intros Hr Hl1 Hl2 Ha. unfold com_mm_vmm_prealloc_range, vmm_ensure_context. mstep_rw. mstep_rw.
  destruct (Z.eqb_spec (RootContext_pagetable g) (pagetable c)); [done|]. cbn [negb]. mstep_rw.
  eexists _, _, _, _. split; [done|]. mstep_rw. mstep_rw. cbn [pagetable anon_pages].
  destruct (Z.eqb_spec (RootContext_pagetable g) (pagetable c)); [done|]. cbn [negb]. mstep_rw.
  split; [done|]. unfold ARCH_PAGE_SIZE, CONFIG_VMM_ANON_START.
  rewrite (wrap_small 64 (len1 + 4096 - 1)) by lia.
  pose proof (Z.div_mod (len1 + 4096 - 1) 4096). pose proof (Z.mod_pos_bound (len1 + 4096 - 1) 4096).
  rewrite (wrap_small 64 (anon_pages c + _)) by lia.
  rewrite !wrap_small by lia. lia.
Qed.
End vmm_properties.

(** ** Witnesses *)
#[export] Program Instance bump_VmMem : VmMem bump := {|
  vm_alloc := bump_alloc;
  vm_alloc_many b n := Ok (bump_next b * ARCH_PAGE_SIZE, Bump (bump_next b + n));
  vm_is_shared _ _ := Ok true;
  vm_free_many b _ _ := Ok b
|}.
Next Obligation.
  intros b p b' Hb Hal. destruct (pa_alloc_ok b p b' Hb Hal) as (? & ? & ? & ?).
  do 4 (split; [done|]). unfold bump_alloc in Hal. cbn.
  destruct (bump_next b <? 2 ^ 34); [|done]. injection Hal as <- <-. cbn. lia.
Qed.

Definition demo_ctx : com_vmm_context := mkCtx demo_pt 0.
Definition demo_glob : vmm_globals := mkGlob 0 0 (Some demo_ctx).

Lemma com_mm_vmm_map_range_witness :
  ∃ h' a', com_mm_vmm_map demo_glob demo_tables (Bump 2) (Ctx demo_ctx) 0x400000 0x100000
      (3 * ARCH_PAGE_SIZE) COM_MM_VMM_FLAGS_NONE 7 = Ok (0x400000, Ctx demo_ctx, h', a') ∧
    mtree h' (pagetable demo_ctx) ∧ pa_inv a' ∧ heap_owned h' a' ∧
    ∀ v, 0 ≤ v < 2 ^ 48 → com_mm_vmm_get_physical demo_glob h' (Ctx demo_ctx) v =
      if decide (0x400000 ≤ v < 0x400000 + 3 * ARCH_PAGE_SIZE) then Ok (Some (0x100000 + (v - 0x400000)))
      else com_mm_vmm_get_physical demo_glob demo_tables (Ctx demo_ctx) v.
Proof.
  apply (com_mm_vmm_map_range demo_glob demo_tables (Bump 2) demo_ctx 0x400000 0x100000 3 7);
    [apply demo_tables_tree|simpl; lia|apply demo_tables_owned|done|lia|simpl; lia|done|done|lia|lia
    |unfold ARCH_PAGE_SIZE; lia|unfold ARCH_PAGE_SIZE; lia].
Defined.

Definition demo_fault : fault_args := mkFault 0x400123 0x1000 7 COM_MM_VMM_FAULT_ATTR_COW 1.

Lemma com_mm_vmm_handle_fault_cow_witness :
  ∃ h' a' m' frame,
    com_mm_vmm_handle_fault demo_tables (Bump 2) abc_mem (Some (true, Some demo_pt)) true demo_fault
      = Ok (Repaired h' a' m') ∧
    (∀ v, arch_mmu_get_physical h' demo_pt v =
      if decide (same_page (page_floor 0x400123) v)
      then Ok (Some (frame + Z.land v (ARCH_PAGE_SIZE - 1))) else arch_mmu_get_physical demo_tables demo_pt v) ∧
    valid_phys frame ∧ ¬ pa_taken (Bump 2) frame ∧
    ∀ x, m' x = if in_range x (ARCH_PHYS_TO_HHDM frame) ARCH_PAGE_SIZE
      then abc_mem (ARCH_PHYS_TO_HHDM 0x1000 + (x - ARCH_PHYS_TO_HHDM frame)) else abc_mem x.
Proof.
  apply (com_mm_vmm_handle_fault_cow demo_tables (Bump 2) abc_mem demo_pt demo_fault true true);
    [apply demo_tables_tree|simpl; lia|apply demo_tables_owned|simpl; lia|done|done|done
    |split; [cbn; lia|done]|split; [split; [cbn; lia|done]|done]|done|by intros b _; exists b|by eexists].
Defined.

Lemma com_mm_vmm_prealloc_range_disjoint_witness :
  ∃ base1 c1 base2 c2,
    com_mm_vmm_prealloc_range demo_glob (Ctx demo_ctx) 5000 = Ok (base1, c1) ∧
    com_mm_vmm_prealloc_range demo_glob (Ctx c1) 1 = Ok (base2, c2) ∧
    base1 + 5000 ≤ base2 ∧ CONFIG_VMM_ANON_START ≤ base1.
Proof. apply (com_mm_vmm_prealloc_range_disjoint demo_glob demo_ctx 5000 1); [done|lia|lia|cbn; lia]. Defined.

(** The consequence of the unchecked prefault range: handling the fault of
    [demo_lazy_heap] replaces the frame of the page at 0x400000, which holds
    data and was not lazy, by a fresh one. *)
Theorem prefault_loses_page :
  ∃ fa h' a' m',
    x86_64_mmu_fault_isr demo_lazy_heap 0x1000 0x3ff000 = Ok fa ∧
    com_mm_vmm_handle_fault demo_lazy_heap (Bump 100) abc_mem (Some (true, Some 0x1000)) true fa
      = Ok (Repaired h' a' m') ∧
    arch_mmu_get_physical demo_lazy_heap 0x1000 0x400000 = Ok (Some 0x9000) ∧
    arch_mmu_get_physical h' 0x1000 0x400000 = Ok (Some (102 * ARCH_PAGE_SIZE)).
Proof.
  eexists _, _, _, _. split; [vm_compute; reflexivity|]. split; [vm_compute; reflexivity|].
  split; vm_compute; reflexivity.
Qed.
