(* ===== verification/Slab.v ===== *)
(** * The slab allocator, src/com/mm/slab.c

    One free list of blocks per multiple of 16 bytes, threaded through the
    first word of each free block; a list that is empty is refilled with the
    blocks of one page. The blocks live in the words of the page heap
    ([PageTree.pheap]); the spinlock around the list operations is left out. *)
From S2P Require Import Prelude PageTree.

(** ** Words at an address *)
Definition page_of (a : Z) : Z := a - a mod ARCH_PAGE_SIZE.
Definition word_idx (a : Z) : Z := (a mod ARCH_PAGE_SIZE) / 8.

(** The word a pointer names, and an assignment to it. *)
Definition ldw (h : pheap) (a : Z) : res Z := rd h (page_of a) (word_idx a).
Definition stw (h : pheap) (a w : Z) : res pheap := wr h (page_of a) (word_idx a) w.

(** [kmemset(ptr, size, 0)] over words: the last [size mod 8] bytes are the
    low ones of their word. *)
Fixpoint clear_words (n : nat) (a : Z) (h : pheap) : res pheap :=
  match n with
  | O => Ok h
  | S n => h ← stw h a 0; clear_words n (a + 8) h
  end.
Definition clear_bytes (ptr size : Z) (h : pheap) : res pheap :=
  h ← clear_words (Z.to_nat (size / 8)) ptr h;
  if size mod 8 =? 0 then Ok h
  else
    let last := ptr + 8 * (size / 8) in
    w ← ldw h last;
    stw h last (Z.land w (Z.lnot (Z.ones (8 * (size mod 8))))).

(** ** State and operations *)
Definition NUM_SLABS : Z := ARCH_PAGE_SIZE / 16.

(** [Slabs] maps an index to its [next] pointer; an index never written is
    0, as the array is zero-initialised. *)
Record slab (A : Type) := Slab { Slabs : gmap Z Z; sheap : pheap; spages : A }.
Arguments Slab {A}.
Arguments Slabs {A}.
Arguments sheap {A}.
Arguments spages {A}.

Definition slab_next {A} (s : slab A) (i : Z) : Z := default 0 (Slabs s !! i).
Definition set_next {A} (s : slab A) (i p : Z) : slab A := Slab (<[i := p]> (Slabs s)) (sheap s) (spages s).
Definition set_sheap {A} (s : slab A) (h : pheap) : slab A := Slab (Slabs s) h (spages s).

(** The [for] loop of [init], [n] turns from [i] on. *)
Fixpoint init_loop (n : nat) (i list_arr off : Z) (h : pheap) : res pheap :=
  match n with
  | O => Ok h
  | S n =>
      h ← stw h (list_arr + 8 * (i * off)) (list_arr + 8 * ((i + 1) * off));
      init_loop n (i + 1) list_arr off h
  end.

Section slab.
Context `{PageAlloc A}.

(** [entry_size / sizeof(uintptr_t)] is exact, and dividing by an
    [entry_size] of 0 faults. *)
Definition init (s : slab A) (idx entry_size : Z) : res (slab A) :=
  let entry_size := Z.land (u64 (entry_size + 15)) (Z.lnot 15) in
  '(new_page, a) ← pa_alloc (spages s);
  let base := ARCH_PHYS_TO_HHDM new_page in
  let h := <[base := ∅]> (sheap s) in
  if entry_size =? 0 then Fault
  else
    let max := ARCH_PAGE_SIZE / entry_size - 1 in
    let off := entry_size / 8 in
    h ← init_loop (Z.to_nat max) 0 base off h;
    h ← stw h (base + 8 * (max * off)) 0;
    Ok (Slab (<[idx := base]> (Slabs s)) h a).

Definition com_mm_slab_alloc (size : Z) (s : slab A) : res (Z * slab A) :=
  let i := u64 (size + 15) / 16 in
  KASSERT (i <? NUM_SLABS) ;;
  s ← (if slab_next s i =? 0 then init s i size else Ok s);
  let old_next := slab_next s i in
  next ← ldw (sheap s) old_next;
  let s := set_next s i next in
  h ← stw (sheap s) old_next 0;
  Ok (old_next, set_sheap s h).

Definition com_mm_slab_free (ptr size : Z) (s : slab A) : res (slab A) :=
  if ptr =? 0 then Ok s
  else
    let i := u64 (size + 15) / 16 in
    KASSERT (i <? NUM_SLABS) ;;
    h ← clear_bytes ptr size (sheap s);
    h ← stw h ptr (slab_next s i);
    Ok (set_next (set_sheap s h) i ptr).

End slab.

(** ** Invariant *)

(** The word at an address, 0 where there is no page. *)
Definition word (h : pheap) (a : Z) : Z := rd_slot (default ∅ (h !! page_of a)) (word_idx a).

(** The blocks of a free list from its head on. *)
Fixpoint chain (h : pheap) (p : Z) (bs : list Z) : Prop :=
  match bs with
  | [] => p = 0
  | b :: bs => p = b ∧ b ≠ 0 ∧ chain h (word h b) bs
  end.

(** [b] is one of the blocks of class [i] that a page is cut into; [cls]
    says which class each slab page serves. *)
Definition block (cls : gmap Z Z) (i b : Z) : Prop :=
  ∃ base j, cls !! base = Some i ∧ 0 ≤ j ∧ b = base + 16 * i * j ∧ 16 * i * (j + 1) ≤ ARCH_PAGE_SIZE.

(** All words of a block from the [k]-th on are zero. *)
Definition zero_from (h : pheap) (b i k : Z) : Prop := ∀ j, k ≤ j < 2 * i → word h (b + 8 * j) = 0.

(** [live] are the blocks handed out, with their class. *)
Record slab_parts `{PageAlloc A} (s : slab A) (live cls : gmap Z Z) (free : Z → list Z) : Prop := {
  sp_pages : ∀ b i, cls !! b = Some i →
    1 ≤ i < NUM_SLABS ∧ 0 < b ∧ b mod ARCH_PAGE_SIZE = 0 ∧ is_Some (sheap s !! b);
  sp_chain : ∀ i, 1 ≤ i < NUM_SLABS → chain (sheap s) (slab_next s i) (free i);
  sp_free : ∀ i b, 1 ≤ i < NUM_SLABS → b ∈ free i → block cls i b ∧ zero_from (sheap s) b i 1;
  sp_nodup : ∀ i, 1 ≤ i < NUM_SLABS → NoDup (free i);
  sp_live : ∀ b i, live !! b = Some i → block cls i b ∧ b ∉ free i;
  sp_alloc : pa_inv (spages s);
  sp_owned : heap_owned (sheap s) (spages s) }.

Definition slab_wf `{PageAlloc A} (s : slab A) (live : gmap Z Z) : Prop :=
  ∃ cls free, slab_parts s live cls free.

(** ** Lemmas: words *)

Lemma word_addr a : a mod 8 = 0 → a = page_of a + 8 * word_idx a.
Proof.
  intros Ha. unfold page_of, word_idx, ARCH_PAGE_SIZE.
  assert (Hm : (a mod 4096) mod 8 = 0) by (rewrite Z.mod_mod_divide; [done|by exists 512]).
  pose proof (Z.div_mod (a mod 4096) 8 ltac:(done)). lia.
Qed.

Lemma ldw_ok h a : is_Some (h !! page_of a) → ldw h a = Ok (word h a).
Proof. intros [pg Hp]. unfold ldw, word. rewrite (rd_lookup _ _ _ pg) by done. by rewrite Hp. Qed.

Lemma stw_ok h a w : is_Some (h !! page_of a) → ∃ h', stw h a w = Ok h'.
Proof. apply wr_ok. Qed.

(** What one assignment does to the words of memory. *)
Lemma stw_word h a w h' b :
  stw h a w = Ok h' → a mod 8 = 0 → b mod 8 = 0 →
  word h' b = if decide (b = a) then w else word h b.
Proof.
  unfold stw. intros (pg & Hp & ->)%wr_inv Ha Hb. unfold word.
  destruct (decide (page_of b = page_of a)) as [He|Hne].
  - rewrite He, lookup_insert_eq, Hp. simpl. rewrite rd_slot_insert.
    pose proof (word_addr a Ha). pose proof (word_addr b Hb). repeat case_decide; try done; lia.
  - rewrite lookup_insert_ne by done. rewrite decide_False; [done|]. by intros ->.
Qed.

Lemma stw_dom h a w h' q : stw h a w = Ok h' → is_Some (h' !! q) ↔ is_Some (h !! q).
Proof. apply wr_dom. Qed.

Lemma page_of_base base k : base mod ARCH_PAGE_SIZE = 0 → 0 ≤ k < ARCH_PAGE_SIZE → page_of (base + k) = base.
Proof.
  unfold page_of, ARCH_PAGE_SIZE. intros Hb Hk. rewrite Z.add_mod, Hb by done.
  rewrite Z.add_0_l, Z.mod_mod, Z.mod_small by lia. lia.
Qed.

Lemma word_empty h base a : h !! base = Some ∅ → page_of a = base → word h a = 0.
Proof. intros Hb Ha. unfold word. by rewrite Ha, Hb, rd_slot_empty. Qed.

Lemma word_insert_ne h base pg a : page_of a ≠ base → word (<[base := pg]> h) a = word h a.
Proof. intros Ha. unfold word. by rewrite lookup_insert_ne. Qed.

(** ** Lemmas: blocks *)
Section blocks.
Context (cls : gmap Z Z).
Hypothesis Hcls : ∀ b i, cls !! b = Some i → 1 ≤ i < NUM_SLABS ∧ 0 < b ∧ b mod ARCH_PAGE_SIZE = 0.

Lemma block_range i b : block cls i b → 1 ≤ i < NUM_SLABS ∧ 0 < b ∧ b mod 16 = 0.
Proof.
  intros (base & j & Hc & Hj & -> & Hfit). destruct (Hcls _ _ Hc) as (Hi & Hb & Hm). split_and!; try done; [lia..|nia|].
  unfold ARCH_PAGE_SIZE in Hm. apply Z.mod_divide in Hm as [q ->]; [|done].
  replace (q * 4096 + 16 * i * j) with ((q * 256 + i * j) * 16) by lia. by apply Z.mod_mul.
Qed.

(** The addresses of a block are in its page. *)
Lemma block_page i b k : block cls i b → 0 ≤ k < 16 * i → ∃ base, cls !! base = Some i ∧ page_of (b + k) = base.
Proof.
  intros (base & j & Hc & Hj & -> & Hfit) Hk. exists base. split; [done|].
  destruct (Hcls _ _ Hc) as (Hi & Hb & Hm). rewrite <- Z.add_assoc. apply page_of_base; [done|]. nia.
Qed.

(** Blocks that start at different addresses do not overlap. *)
Lemma block_disjoint i b i' b' :
  block cls i b → block cls i' b' → b ≠ b' → b + 16 * i ≤ b' ∨ b' + 16 * i' ≤ b.
Proof.
  intros (base & j & Hc & Hj & -> & Hfit) (base' & j' & Hc' & Hj' & -> & Hfit') Hne.
  destruct (Hcls _ _ Hc) as (Hi & _ & Hm). destruct (Hcls _ _ Hc') as (Hi' & _ & Hm').
  destruct (decide (base = base')) as [->|Hb].
  - rewrite Hc in Hc'. injection Hc' as <-. destruct (Z.lt_total j j') as [?|[->|?]]; [left; nia|done|right; nia].
  - unfold ARCH_PAGE_SIZE in *. apply Z.mod_divide in Hm as [q ->]; [|done]. apply Z.mod_divide in Hm' as [q' ->]; [|done].
    destruct (Z.lt_total q q') as [?|[->|?]]; [left; nia|done|right; nia].
Qed.

Lemma block_class i i' b : block cls i b → block cls i' b → i = i'.
Proof.
  intros H1 H2. destruct (block_range _ _ H1) as (Hi & _). destruct (block_range _ _ H2) as (Hi' & _).
  destruct (block_page i b 0 H1) as (base & Hc & Hp); [lia|].
  destruct (block_page i' b 0 H2) as (base' & Hc' & Hp'); [lia|]. congruence.
Qed.
End blocks.

Lemma chain_ext h h' p bs : (∀ b, b ∈ bs → word h' b = word h b) → chain h p bs → chain h' p bs.
Proof.
  revert p. induction bs as [|b bs IH]; intros p Hw; [done|]. cbn [chain].
  intros (-> & Hb & Hc). split_and!; [done..|]. rewrite Hw by apply list_elem_of_here.
  apply IH; [|done]. intros. apply Hw. by apply list_elem_of_further.
Qed.

(** The size class a request falls into. *)
Definition size_class (size : Z) : Z := u64 (size + 15) / 16.

Lemma size_class_bounds size :
  0 < size ≤ 4080 → 1 ≤ size_class size < NUM_SLABS ∧ size ≤ 16 * size_class size < size + 16 ∧
  Z.land (u64 (size + 15)) (Z.lnot 15) = 16 * size_class size.
Proof.
  intros Hs. unfold size_class. rewrite wrap_small by lia. change NUM_SLABS with 256.
  pose proof (Z.div_mod (size + 15) 16 ltac:(done)). pose proof (Z.mod_pos_bound (size + 15) 16 ltac:(done)).
  split_and!; try lia. rewrite <- Z.ldiff_land. change 15 with (Z.ones 4) at 2. rewrite Z.ldiff_ones_r by lia.
  rewrite Z.shiftr_div_pow2, Z.shiftl_mul_pow2 by lia. change (2 ^ 4) with 16. lia.
Qed.

(** ** Lemmas: refilling a list *)

Lemma init_loop_spec base off n i h :
  base mod ARCH_PAGE_SIZE = 0 → 0 ≤ i → 1 ≤ off → 8 * ((i + Z.of_nat n) * off) ≤ ARCH_PAGE_SIZE →
  is_Some (h !! base) →
  ∃ h', init_loop n i base off h = Ok h' ∧
    (∀ a, a mod 8 = 0 → (∀ j, i ≤ j < i + Z.of_nat n → a ≠ base + 8 * (j * off)) → word h' a = word h a) ∧
    (∀ j, i ≤ j < i + Z.of_nat n → word h' (base + 8 * (j * off)) = base + 8 * ((j + 1) * off)) ∧
    ∀ q, is_Some (h' !! q) ↔ is_Some (h !! q).
Proof.
  intros Hb. revert i h. induction n as [|n IH]; intros i h Hi Ho Hfit Hs.
  { exists h. split_and!; [done|done|lia|done]. }
  cbn [init_loop]. assert (Hal : ∀ j, (base + 8 * j) mod 8 = 0).
  { intros j. unfold ARCH_PAGE_SIZE in Hb. apply Z.mod_divide in Hb as [q ->]; [|done].
    replace (q * 4096 + 8 * j) with ((q * 512 + j) * 8) by lia. by apply Z.mod_mul. }
  assert (Hpg : page_of (base + 8 * (i * off)) = base) by (apply page_of_base; [done|nia]).
  destruct (stw_ok h (base + 8 * (i * off)) (base + 8 * ((i + 1) * off))) as [h1 Hw]; [by rewrite Hpg|].
  rewrite Hw. mstep. destruct (IH (i + 1) h1) as (h' & -> & Hold & Hnew & Hdom); [lia|lia|nia|by apply (stw_dom _ _ _ _ _ Hw)|].
  exists h'. split_and!; [done|..].
  - intros a Ha Hne. rewrite Hold, (stw_word _ _ _ _ _ Hw) by (try done; intros; apply Hne; lia).
    rewrite decide_False; [done|]. apply Hne. lia.
  - intros j Hj. destruct (decide (j = i)) as [->|]; [|apply Hnew; lia].
    rewrite Hold, (stw_word _ _ _ _ _ Hw) by (try done; intros; nia). by rewrite decide_True.
  - intros q. rewrite Hdom. by apply (stw_dom _ _ _ _ _ Hw).
Qed.

(** The blocks a page at [base] is cut into, for class [i]. *)
Definition page_blocks (base i j n : Z) : list Z := (λ k, base + 16 * i * k) <$> seqZ j n.

Lemma chain_page h base i n j :
  0 < base → 0 ≤ i → 0 ≤ j →
  (∀ k, j ≤ k < j + Z.of_nat n → word h (base + 16 * i * k) = base + 16 * i * (k + 1)) →
  word h (base + 16 * i * (j + Z.of_nat n)) = 0 →
  chain h (base + 16 * i * j) (page_blocks base i j (Z.of_nat (S n))).
Proof.
  intros Hb Hi. revert j. induction n as [|n IH]; intros j Hj Hk Hlast; unfold page_blocks.
  - rewrite seqZ_cons by lia. simpl. rewrite Z.add_0_r in Hlast. split_and!; [done|nia|done].
  - rewrite seqZ_cons by lia. rewrite fmap_cons. cbn [chain]. split_and!; [done|nia|].
    rewrite Hk by lia. replace (Z.pred (Z.of_nat (S (S n)))) with (Z.of_nat (S n)) by lia.
    replace (Z.succ j) with (j + 1) by lia. apply IH; [lia| |].
    + intros k Hk'. apply Hk. lia.
    + rewrite <- Hlast. f_equal. lia.
Qed.

Lemma elem_of_page_blocks base i j n b :
  b ∈ page_blocks base i j n ↔ ∃ k, b = base + 16 * i * k ∧ j ≤ k < j + n.
Proof. unfold page_blocks. rewrite list_elem_of_fmap. setoid_rewrite elem_of_seqZ. done. Qed.

Lemma NoDup_page_blocks base i j n : 1 ≤ i → NoDup (page_blocks base i j n).
Proof. intros Hi. apply NoDup_fmap_2; [intros x y; nia|]. apply NoDup_seqZ. Qed.

Lemma hhdm_page p : valid_phys p → 0 < ARCH_PHYS_TO_HHDM p ∧ ARCH_PHYS_TO_HHDM p mod ARCH_PAGE_SIZE = 0.
Proof.
  intros Hp. rewrite valid_phys_hhdm by done. destruct Hp as [? Hm]. unfold HHDM_BASE, ARCH_PAGE_SIZE in *.
  split; [lia|]. rewrite Z.add_mod, Hm by done. done.
Qed.

Lemma off_not_mul i k j j' : 1 ≤ j < 2 * i → k * (2 * i) + j ≠ j' * (2 * i).
Proof. intros Hj Heq. destruct (Z.lt_ge_cases k j'); nia. Qed.

(** The words of a page that has just become a list of blocks. *)
Lemma init_heap (h : pheap) base i m :
  0 < base → base mod ARCH_PAGE_SIZE = 0 → 1 ≤ i → 0 ≤ m → 16 * i * (m + 1) ≤ ARCH_PAGE_SIZE →
  h !! base = Some ∅ →
  ∃ h1 h', init_loop (Z.to_nat m) 0 base (2 * i) h = Ok h1 ∧ stw h1 (base + 8 * (m * (2 * i))) 0 = Ok h' ∧
    chain h' base (page_blocks base i 0 (m + 1)) ∧
    (∀ b, b ∈ page_blocks base i 0 (m + 1) → zero_from h' b i 1) ∧
    (∀ a, a mod 8 = 0 → page_of a ≠ base → word h' a = word h a) ∧
    ∀ q, is_Some (h' !! q) ↔ is_Some (h !! q).
Proof.
  intros Hb0 Hb Hi Hm Hfit He.
  destruct (init_loop_spec base (2 * i) (Z.to_nat m) 0 h) as (h1 & Hl & Hold & Hnew & Hdom);
    [done|lia|lia|rewrite Z2Nat.id by done; lia|by rewrite He|]. rewrite Z2Nat.id in * by done.
  assert (Hal : ∀ j, (base + 8 * j) mod 8 = 0).
  { intros j. unfold ARCH_PAGE_SIZE in Hb. apply Z.mod_divide in Hb as [q ->]; [|done].
    replace (q * 4096 + 8 * j) with ((q * 512 + j) * 8) by lia. by apply Z.mod_mul. }
  assert (Hpg : ∀ k, 0 ≤ k < ARCH_PAGE_SIZE → page_of (base + k) = base) by (intros; by apply page_of_base).
  destruct (stw_ok h1 (base + 8 * (m * (2 * i))) 0) as [h' Hw].
  { rewrite Hpg by nia. apply Hdom. by rewrite He. }
  exists h1, h'. split; [done|]. split; [done|].
  assert (Hwd : ∀ a, a mod 8 = 0 → a ≠ base + 8 * (m * (2 * i)) → word h' a = word h1 a).
  { intros a Ha Hne. rewrite (stw_word _ _ _ _ _ Hw) by done. by rewrite decide_False. }
  split_and!.
  - replace (m + 1) with (Z.of_nat (S (Z.to_nat m))) by lia. rewrite <- (Z.add_0_r base) at 1.
    replace 0 with (16 * i * 0) at 1 by lia. apply chain_page; [done|lia|lia| |].
    + intros k Hk. rewrite Z2Nat.id in Hk by done. replace (base + 16 * i * k) with (base + 8 * (k * (2 * i))) by lia.
      rewrite Hwd by (done || nia). rewrite Hnew by lia. lia.
    + rewrite Z2Nat.id by done. replace (base + 16 * i * (0 + m)) with (base + 8 * (m * (2 * i))) by lia.
      rewrite (stw_word _ _ _ _ _ Hw) by done. by rewrite decide_True.
  - intros b (k & -> & Hk)%elem_of_page_blocks j Hj.
    replace (base + 16 * i * k + 8 * j) with (base + 8 * (k * (2 * i) + j)) by lia.
    pose proof (λ j', off_not_mul i k j j' Hj) as Hne.
    rewrite Hwd by (try done; specialize (Hne m); lia).
    rewrite Hold by (try done; intros j' _; specialize (Hne j'); lia). apply (word_empty h base); [done|]. apply Hpg. nia.
  - intros a Ha Hne. assert (∀ j, 0 ≤ j ≤ m → a ≠ base + 8 * (j * (2 * i))).
    { intros j Hj ->. apply Hne. apply Hpg. nia. }
    rewrite Hwd, Hold by (try done; intros; auto with lia). done.
  - intros q. rewrite <- Hdom. apply (stw_dom _ _ _ _ _ Hw).
Qed.

(** ** Lemmas: the operations *)
Section slab_lemmas.
Context `{PageAlloc A}.

Lemma sp_cls (s : slab A) live cls free :
  slab_parts s live cls free →
  ∀ b i, cls !! b = Some i → 1 ≤ i < NUM_SLABS ∧ 0 < b ∧ b mod ARCH_PAGE_SIZE = 0.
Proof. intros Hs b i Hb. by destruct (sp_pages _ _ _ _ Hs b i Hb) as (?&?&?&?). Qed.

Lemma block_heap (s : slab A) live cls free i b k :
  slab_parts s live cls free → block cls i b → 0 ≤ k < 16 * i → is_Some (sheap s !! page_of (b + k)).
Proof.
  intros Hs Hb Hk. destruct (block_page cls (sp_cls _ _ _ _ Hs) i b k Hb Hk) as (base & Hc & ->).
  by destruct (sp_pages _ _ _ _ Hs _ _ Hc) as (?&?&?&?).
Qed.

Lemma block_mono cls base i j b : cls !! base = None → block cls j b → block (<[base := i]> cls) j b.
Proof.
  intros Hn (base' & k & Hc & ?). exists base', k. split; [|done].
  rewrite lookup_insert_ne; [done|]. congruence.
Qed.

(** Refilling an empty list changes no word of the pages in use. *)
Lemma init_spec (s : slab A) live cls free size :
  slab_parts s live cls free → 0 < size ≤ 4080 → slab_next s (size_class size) = 0 →
  (0 < pa_free (spages s))%nat →
  ∃ s' cls' free', init s (size_class size) size = Ok s' ∧ slab_parts s' live cls' free' ∧
    slab_next s' (size_class size) ≠ 0 ∧
    ∀ a, a mod 8 = 0 → is_Some (sheap s !! page_of a) → word (sheap s') a = word (sheap s) a.
Proof.
  intros Hs Hsz Hnext Hfr. destruct (size_class_bounds size Hsz) as (Hi & _ & Hes).
  set (i := size_class size) in *. unfold init. rewrite Hes.
  destruct (pa_alloc_total (spages s) (sp_alloc _ _ _ _ Hs) Hfr) as (p & a & Hal & _). rewrite Hal. mstep.
  destruct (pa_alloc_ok _ _ _ (sp_alloc _ _ _ _ Hs) Hal) as (Hinv & Hp & Hnt & Htk).
  set (base := ARCH_PHYS_TO_HHDM p). destruct (hhdm_page p Hp) as [Hb0 Hb]. fold base in Hb0, Hb.
  assert (Hnone : sheap s !! base = None).
  { destruct (sheap s !! base) eqn:Hsb; [|done]. destruct Hnt. apply (sp_owned _ _ _ _ Hs); [done|]. by exists g. }
  destruct (Z.eqb_spec (16 * i) 0); [lia|].
  change NUM_SLABS with 256 in Hi. set (m := ARCH_PAGE_SIZE / (16 * i) - 1).
  assert (Hm : 0 ≤ m ∧ 16 * i * (m + 1) ≤ ARCH_PAGE_SIZE).
  { unfold m. pose proof (Z.mul_div_le ARCH_PAGE_SIZE (16 * i) ltac:(lia)).
    assert (1 ≤ ARCH_PAGE_SIZE / (16 * i)) by (apply Z.div_le_lower_bound; unfold ARCH_PAGE_SIZE; lia). lia. }
  replace (16 * i / 8) with (2 * i) by (apply (Z.div_unique_exact _ 8); lia).
  destruct (init_heap (<[base := ∅]> (sheap s)) base i m) as (h1 & h' & Hl & Hst & Hch & Hz & Hw & Hdom);
    [done..|lia|lia|lia|by rewrite lookup_insert_eq|].
  rewrite Hl. mstep. rewrite Hst. mstep.
  assert (Hw' : ∀ x, x mod 8 = 0 → is_Some (sheap s !! page_of x) → word h' x = word (sheap s) x).
  { intros x Hx Hsx. assert (page_of x ≠ base) by (intros Hpx; rewrite Hpx, Hnone in Hsx; by destruct Hsx).
    rewrite Hw by done. by apply word_insert_ne. }
  assert (Hcn : cls !! base = None).
  { destruct (cls !! base) eqn:Hc; [|done]. destruct (sp_pages _ _ _ _ Hs _ _ Hc) as (_&_&_&[? ?]). congruence. }
  assert (Hbw : ∀ j b k, block cls j b → 0 ≤ k < 2 * j → word h' (b + 8 * k) = word (sheap s) (b + 8 * k)).
  { intros j b k Hbl Hk. apply Hw'; [|apply (block_heap s live cls free j); [done..|lia]].
    destruct (block_range cls (sp_cls _ _ _ _ Hs) _ _ Hbl) as (_ & _ & [q ->]%Z.mod_divide); [|done].
    replace (q * 16 + 8 * k) with ((q * 2 + k) * 8) by lia. by apply Z.mod_mul. }
  exists (Slab (<[i := base]> (Slabs s)) h' a), (<[base := i]> cls),
    (λ k, if decide (k = i) then page_blocks base i 0 (m + 1) else free k).
  split; [done|]. split; [|split; [unfold slab_next; simpl; rewrite lookup_insert_eq; simpl; lia|done]].
  split; simpl.
  - intros b j. rewrite Hdom. destruct (decide (b = base)) as [->|Hne].
    + rewrite !lookup_insert_eq. intros [= <-]. change NUM_SLABS with 256. split_and!; try done; lia.
    + rewrite !lookup_insert_ne by done. apply (sp_pages _ _ _ _ Hs).
  - intros j Hj. unfold slab_next. simpl. destruct (decide (j = i)) as [->|Hne].
    + rewrite lookup_insert_eq. done.
    + rewrite lookup_insert_ne by done. apply (chain_ext (sheap s)); [|by apply (sp_chain _ _ _ _ Hs)].
      intros b Hbf. destruct (sp_free _ _ _ _ Hs j b Hj Hbf) as [Hbl _].
      rewrite <- (Z.add_0_r b). apply (Hbw j b 0 Hbl). lia.
  - intros j b Hj. destruct (decide (j = i)) as [->|Hne]; intros Hbf.
    + split; [|by apply Hz]. apply elem_of_page_blocks in Hbf as (k & -> & Hk).
      exists base, k. rewrite lookup_insert_eq. split_and!; [done|lia|done|nia].
    + destruct (sp_free _ _ _ _ Hs j b Hj Hbf) as [Hbl Hzf]. split; [by apply block_mono|].
      intros k Hk. rewrite (Hbw j) by (done || lia). by apply Hzf.
  - intros j Hj. destruct (decide (j = i)) as [->|]; [apply NoDup_page_blocks; lia|by apply (sp_nodup _ _ _ _ Hs)].
  - intros b j Hlv. destruct (sp_live _ _ _ _ Hs b j Hlv) as [Hbl Hnf]. split; [by apply block_mono|].
    destruct (decide (j = i)) as [->|]; [|done]. intros (k & -> & Hk)%elem_of_page_blocks.
    destruct (block_heap s live cls free i _ 0 Hs Hbl) as [pg Hpg]; [lia|].
    rewrite Z.add_0_r, (page_of_base base) in Hpg by (done || nia). congruence.
  - done.
  - intros q Hq. rewrite Hdom. intros [x Hx]. apply Htk. destruct (decide (q = p)) as [|Hne]; [by left|right].
    apply (sp_owned _ _ _ _ Hs); [done|]. rewrite lookup_insert_ne in Hx; [by exists x|].
    intros Heq. apply Hne. by apply hhdm_inj.
Qed.

(** The words of the blocks in use are the same in both heaps. *)
Definition same_blocks (h h' : pheap) (live : gmap Z Z) : Prop :=
  ∀ b j k, live !! b = Some j → 0 ≤ k < 2 * j → word h' (b + 8 * k) = word h (b + 8 * k).

Lemma block_word_aligned (s : slab A) live cls free i b k :
  slab_parts s live cls free → block cls i b → (b + 8 * k) mod 8 = 0.
Proof.
  intros Hs Hb. destruct (block_range cls (sp_cls _ _ _ _ Hs) _ _ Hb) as (_ & _ & [q ->]%Z.mod_divide); [|done].
  replace (q * 16 + 8 * k) with ((q * 2 + k) * 8) by lia. by apply Z.mod_mul.
Qed.

(** A word of one block is not a word of another. *)
Lemma block_words_apart (s : slab A) live cls free i b k i' b' k' :
  slab_parts s live cls free → block cls i b → block cls i' b' → b ≠ b' →
  0 ≤ k < 2 * i → 0 ≤ k' < 2 * i' → b + 8 * k ≠ b' + 8 * k'.
Proof. intros Hs Hb Hb' Hne Hk Hk'. destruct (block_disjoint cls (sp_cls _ _ _ _ Hs) i b i' b' Hb Hb' Hne); lia. Qed.

(** Changing the words of one block of class [i] and the list of that class,
    the other lists keep what they have. *)
Lemma parts_update (s : slab A) live cls free i p h' hd bs live' :
  slab_parts s live cls free → 1 ≤ i < NUM_SLABS → block cls i p →
  (∀ q, is_Some (h' !! q) ↔ is_Some (sheap s !! q)) →
  (∀ j b k, block cls j b → b ≠ p → 0 ≤ k < 2 * j → word h' (b + 8 * k) = word (sheap s) (b + 8 * k)) →
  chain h' hd bs → NoDup bs → (∀ b, b ∈ bs → block cls i b ∧ zero_from h' b i 1) →
  (∀ b j, live' !! b = Some j → block cls j b ∧ b ∉ (if decide (j = i) then bs else free j)) →
  slab_parts (set_sheap (set_next s i hd) h') live' cls (λ k, if decide (k = i) then bs else free k).
Proof.
  intros Hs Hi Hp Hdom Hoth Hch Hnd Hbs Hlv.
  assert (Hfj : ∀ j b, 1 ≤ j < NUM_SLABS → j ≠ i → b ∈ free j →
    block cls j b ∧ zero_from (sheap s) b j 1 ∧ b ≠ p).
  { intros j b Hj Hne Hb. destruct (sp_free _ _ _ _ Hs j b Hj Hb) as [Hbb Hz]. split_and!; [done..|].
    intros ->. apply Hne. by apply (block_class cls (sp_cls _ _ _ _ Hs) j i p). }
  split; simpl; try done.
  - intros b j Hb. rewrite Hdom. by apply (sp_pages _ _ _ _ Hs).
  - intros j Hj. unfold slab_next. simpl. destruct (decide (j = i)) as [->|Hne]; [by rewrite lookup_insert_eq|].
    rewrite lookup_insert_ne by done. apply (chain_ext (sheap s)); [|by apply (sp_chain _ _ _ _ Hs)].
    intros b Hb. destruct (Hfj j b Hj Hne Hb) as (Hbb & _ & Hbp). rewrite <- (Z.add_0_r b). apply (Hoth j b 0 Hbb Hbp). lia.
  - intros j b Hj. destruct (decide (j = i)) as [->|Hne]; [apply Hbs|]. intros Hb.
    destruct (Hfj j b Hj Hne Hb) as (Hbb & Hz & Hbp). split; [done|].
    intros k Hk. rewrite (Hoth j) by (done || lia). by apply Hz.
  - intros j Hj. destruct (decide (j = i)) as [->|]; [done|by apply (sp_nodup _ _ _ _ Hs)].
  - apply (sp_alloc _ _ _ _ Hs).
  - intros q Hq. rewrite Hdom. by apply (sp_owned _ _ _ _ Hs).
Qed.

(** The effect of an assignment to the first word of a block. *)
Lemma stw_block (s : slab A) live cls free i p w h h' :
  slab_parts s live cls free → block cls i p → stw h p w = Ok h' →
  (∀ j b k, block cls j b → b ≠ p → 0 ≤ k < 2 * j → word h' (b + 8 * k) = word h (b + 8 * k)) ∧
  (∀ k, 0 < k → word h' (p + 8 * k) = word h (p + 8 * k)) ∧ word h' p = w.
Proof.
  intros Hs Hbl Hw. pose proof (λ k, block_word_aligned s live cls free i p k Hs Hbl) as Hal.
  pose proof (Hal 0) as Hp8. rewrite Z.add_0_r in Hp8.
  destruct (block_range cls (sp_cls _ _ _ _ Hs) _ _ Hbl) as (Hi & _).
  split_and!.
  - intros j b k Hb Hbp Hk. rewrite (stw_word _ _ _ _ _ Hw) by (done || by eapply block_word_aligned).
    rewrite decide_False; [done|]. rewrite <- (Z.add_0_r p).
    apply (block_words_apart s live cls free j b k i p 0 Hs Hb Hbl Hbp Hk). lia.
  - intros k Hk. rewrite (stw_word _ _ _ _ _ Hw) by done. rewrite decide_False; [done|lia].
  - rewrite (stw_word _ _ _ _ _ Hw) by done. by rewrite decide_True.
Qed.

(** Taking the first block of a list that has one. *)
Lemma pop_spec (s : slab A) live cls free i :
  slab_parts s live cls free → 1 ≤ i < NUM_SLABS → slab_next s i ≠ 0 →
  let p := slab_next s i in
  ∃ h', ldw (sheap s) p = Ok (word (sheap s) p) ∧ stw (sheap s) p 0 = Ok h' ∧
    slab_wf (set_sheap (set_next s i (word (sheap s) p)) h') (<[p := i]> live) ∧
    live !! p = None ∧ block cls i p ∧ zero_from h' p i 0 ∧ same_blocks (sheap s) h' live.
Proof.
  intros Hs Hi Hne p. pose proof (sp_chain _ _ _ _ Hs i Hi) as Hc. fold p in Hc, Hne.
  destruct (free i) as [|b bs] eqn:Hf; [done|]. cbn [chain] in Hc. destruct Hc as (Hpb & _ & Hc). subst b.
  destruct (sp_free _ _ _ _ Hs i p Hi) as [Hbl Hz]; [rewrite Hf; apply list_elem_of_here|].
  pose proof (sp_nodup _ _ _ _ Hs i Hi) as Hnd. rewrite Hf in Hnd. apply NoDup_cons in Hnd as [Hpn Hnd].
  assert (Hpg : is_Some (sheap s !! page_of p)).
  { rewrite <- (Z.add_0_r p). apply (block_heap s live cls free i); [done..|lia]. }
  destruct (stw_ok (sheap s) p 0 Hpg) as [h' Hw]. exists h'.
  destruct (stw_block s live cls free i p 0 _ h' Hs Hbl Hw) as (Hoth & Hrest & H0).
  assert (Hlp : live !! p = None).
  { destruct (live !! p) as [j|] eqn:Hl; [|done]. destruct (sp_live _ _ _ _ Hs p j Hl) as [Hbj Hnf].
    rewrite (block_class cls (sp_cls _ _ _ _ Hs) j i p Hbj Hbl), Hf in Hnf. destruct Hnf. apply list_elem_of_here. }
  assert (Hbs : ∀ b, b ∈ bs → block cls i b ∧ zero_from (sheap s) b i 1 ∧ b ≠ p).
  { intros b Hb. destruct (sp_free _ _ _ _ Hs i b Hi) as [Hbb Hzb]; [rewrite Hf; by apply list_elem_of_further|].
    split_and!; [done..|by intros ->]. }
  split; [by apply ldw_ok|]. split; [done|]. split_and!; [|done|done| |].
  - exists cls, (λ k, if decide (k = i) then bs else free k).
    apply (parts_update s live cls free i p); try done.
    + intros q. apply (stw_dom _ _ _ _ _ Hw).
    + apply (chain_ext (sheap s)); [|done]. intros b Hb. destruct (Hbs b Hb) as (Hbb & _ & Hbp).
      rewrite <- (Z.add_0_r b). apply (Hoth i b 0 Hbb Hbp). lia.
    + intros b Hb. destruct (Hbs b Hb) as (Hbb & Hzb & Hbp). split; [done|].
      intros k Hk. rewrite (Hoth i) by (done || lia). by apply Hzb.
    + intros b j. destruct (decide (b = p)) as [->|Hbp].
      * rewrite lookup_insert_eq. intros [= <-]. by rewrite decide_True.
      * rewrite lookup_insert_ne by done. intros Hl. destruct (sp_live _ _ _ _ Hs b j Hl) as [Hbb Hnf].
        split; [done|]. destruct (decide (j = i)) as [->|]; [|done]. rewrite Hf in Hnf.
        intros Hin. apply Hnf. by apply list_elem_of_further.
  - intros k Hk. destruct (decide (k = 0)) as [->|]; [by rewrite Z.add_0_r|].
    rewrite Hrest by lia. apply Hz. lia.
  - intros b j k Hl Hk. destruct (sp_live _ _ _ _ Hs b j Hl) as [Hbb _]. apply (Hoth j); [done| |done].
    intros ->. congruence.
Qed.

(** ** Lemmas: freeing *)

Lemma clear_words_spec n a (h : pheap) :
  a mod 8 = 0 → (∀ k, 0 ≤ k < Z.of_nat n → is_Some (h !! page_of (a + 8 * k))) →
  ∃ h', clear_words n a h = Ok h' ∧ (∀ q, is_Some (h' !! q) ↔ is_Some (h !! q)) ∧
    ∀ b, b mod 8 = 0 → word h' b = if decide (a ≤ b < a + 8 * Z.of_nat n) then 0 else word h b.
Proof.
  revert a h. induction n as [|n IH]; intros a h Ha Hpg.
  { exists h. split_and!; [done..|]. intros b Hb. rewrite decide_False; [done|lia]. }
  cbn [clear_words]. destruct (stw_ok h a 0) as [h1 Hw]; [rewrite <- (Z.add_0_r a); apply (Hpg 0); lia|].
  rewrite Hw. mstep. assert (Ha8 : (a + 8) mod 8 = 0) by (rewrite Z.add_mod, Ha; done).
  destruct (IH (a + 8) h1) as (h' & -> & Hdom & Hwd); [done| |].
  { intros k Hk. rewrite (stw_dom _ _ _ _ _ Hw). replace (a + 8 + 8 * k) with (a + 8 * (k + 1)) by lia. apply Hpg. lia. }
  exists h'. split_and!; [done| |].
  - intros q. rewrite Hdom. apply (stw_dom _ _ _ _ _ Hw).
  - intros b Hb. rewrite Hwd, (stw_word _ _ _ _ _ Hw) by done.
    assert (b ≤ a ∨ a + 8 ≤ b) by (apply Z.mod_divide in Hb as [? ->], Ha as [? ->]; lia).
    repeat case_decide; try done; lia.
Qed.

(** What lies past the requested size of a block is zero. *)
Definition tail_clear (h : pheap) (p size i : Z) : Prop :=
  (∀ k, size ≤ 8 * k < 16 * i → word h (p + 8 * k) = 0) ∧
  (size mod 8 ≠ 0 → 0 ≤ word h (p + 8 * (size / 8)) < 2 ^ (8 * (size mod 8))).

Lemma clear_low w r : 0 ≤ w < 2 ^ r → Z.land w (Z.lnot (Z.ones r)) = 0.
Proof.
  intros Hw. assert (0 ≤ r) by (destruct (Z.lt_ge_cases r 0); [rewrite Z.pow_neg_r in Hw; lia|done]).
  rewrite <- Z.ldiff_land, Z.ldiff_ones_r by done. rewrite Z.shiftr_div_pow2, Z.div_small by done. apply Z.shiftl_0_l.
Qed.

(** Clearing [size] bytes of a block whose tail is clear clears the block. *)
Lemma clear_bytes_spec (s : slab A) live cls free p size i :
  slab_parts s live cls free → block cls i p → 0 < size ≤ 16 * i → tail_clear (sheap s) p size i →
  ∃ h', clear_bytes p size (sheap s) = Ok h' ∧ (∀ q, is_Some (h' !! q) ↔ is_Some (sheap s !! q)) ∧
    zero_from h' p i 0 ∧
    (∀ j b k, block cls j b → b ≠ p → 0 ≤ k < 2 * j → word h' (b + 8 * k) = word (sheap s) (b + 8 * k)).
Proof.
  intros Hs Hbl Hsz [Ht1 Ht2]. unfold clear_bytes.
  pose proof (λ k, block_word_aligned s live cls free i p k Hs Hbl) as Hal.
  pose proof (Hal 0) as Hp8. rewrite Z.add_0_r in Hp8.
  pose proof (Z.div_mod size 8 ltac:(done)) as Hdm. pose proof (Z.mod_pos_bound size 8 ltac:(done)) as Hmb.
  set (n := size / 8) in *.
  destruct (clear_words_spec (Z.to_nat n) p (sheap s)) as (h1 & -> & Hdom & Hwd); [done| |].
  { intros k Hk. apply (block_heap s live cls free i); [done..|lia]. }
  mstep. rewrite Z2Nat.id in Hwd by lia.
  assert (Hoth : ∀ j b k, block cls j b → b ≠ p → 0 ≤ k < 2 * j → word h1 (b + 8 * k) = word (sheap s) (b + 8 * k)).
  { intros j b k Hb Hbp Hk. rewrite Hwd by by eapply block_word_aligned. rewrite decide_False; [done|].
    destruct (block_disjoint cls (sp_cls _ _ _ _ Hs) j b i p Hb Hbl Hbp); lia. }
  destruct (Z.eqb_spec (size mod 8) 0) as [Hr|Hr].
  - exists h1. split_and!; try done. intros k Hk. rewrite Hwd by done. case_decide; [done|]. apply Ht1. lia.
  - rewrite ldw_ok by (rewrite Hdom; apply (block_heap s live cls free i); [done..|lia]). mstep.
    rewrite Hwd by done. rewrite decide_False by lia. rewrite clear_low by by apply Ht2.
    destruct (stw_ok h1 (p + 8 * n) 0) as [h2 Hw]; [rewrite Hdom; apply (block_heap s live cls free i); [done..|lia]|].
    rewrite Hw. exists h2. split_and!; [done|..].
    + intros q. rewrite <- Hdom. apply (stw_dom _ _ _ _ _ Hw).
    + intros k Hk. rewrite (stw_word _ _ _ _ _ Hw), Hwd by done. repeat case_decide; try done. apply Ht1. lia.
    + intros j b k Hb Hbp Hk. rewrite (stw_word _ _ _ _ _ Hw) by (done || by eapply block_word_aligned).
      rewrite decide_False, (Hoth j); try done. apply (block_words_apart s live cls free j b k i p n); try done. lia.
Qed.

(** A refill takes one page. *)
Lemma init_room (s : slab A) idx size s' :
  pa_inv (spages s) → (0 < pa_free (spages s))%nat → init s idx size = Ok s' →
  (pa_free (spages s) ≤ S (pa_free (spages s')))%nat.
Proof.
  intros Hi Hf. unfold init. destruct (pa_alloc_total (spages s) Hi Hf) as (p & a & -> & Hfr). mstep.
  destruct (_ =? 0); [done|]. intros Hr. inv_res. simpl. lia.
Qed.

Lemma slab_alloc_spec (s : slab A) live size :
  slab_wf s live → 0 < size ≤ 4080 → (0 < pa_free (spages s))%nat →
  ∃ p s', com_mm_slab_alloc size s = Ok (p, s') ∧
    let i := size_class size in
    slab_wf s' (<[p := i]> live) ∧ live !! p = None ∧ 0 < p ∧ p mod 16 = 0 ∧ size ≤ 16 * i ∧
    zero_from (sheap s') p i 0 ∧ same_blocks (sheap s) (sheap s') live ∧
    (∀ b j, live !! b = Some j → b + 16 * j ≤ p ∨ p + 16 * i ≤ b) ∧
    (pa_free (spages s) ≤ S (pa_free (spages s')))%nat.
Proof.
  intros (cls & free & Hs) Hsz Hfr. destruct (size_class_bounds size Hsz) as (Hi & Hfit & _).
  unfold com_mm_slab_alloc. fold (size_class size). set (i := size_class size) in *.
  destruct (Z.ltb_spec i NUM_SLABS); [|lia]. rewrite KASSERT_true.
  assert (∃ s1 cls1 free1, (if slab_next s i =? 0 then init s i size else Ok s) = Ok s1 ∧
    slab_parts s1 live cls1 free1 ∧ slab_next s1 i ≠ 0 ∧ same_blocks (sheap s) (sheap s1) live ∧
    (pa_free (spages s) ≤ S (pa_free (spages s1)))%nat) as
    (s1 & cls1 & free1 & -> & Hs1 & Hn1 & Hsame & Hroom).
  { destruct (Z.eqb_spec (slab_next s i) 0) as [Hz0|Hn0]; [|exists s, cls, free; split_and!; try done; lia].
    destruct (init_spec s live cls free size Hs Hsz Hz0 Hfr) as (s1 & cls1 & free1 & Hin & Hs1 & Hn1 & Hw).
    exists s1, cls1, free1. split_and!; try done; [|exact (init_room s i size s1 (sp_alloc _ _ _ _ Hs) Hfr Hin)]. intros b j k Hl Hk.
    destruct (sp_live _ _ _ _ Hs b j Hl) as [Hb _]. apply Hw; [by apply (block_word_aligned s live cls free j)|].
    apply (block_heap s live cls free j); [done..|lia]. }
  destruct (pop_spec s1 live cls1 free1 i Hs1 Hi Hn1) as (h' & Hld & Hst & Hwf & Hlp & Hbl & Hz & Hsame').
  rewrite res_bind_Ok. cbv zeta. rewrite Hld, res_bind_Ok. cbn [sheap set_next]. rewrite Hst, res_bind_Ok.
  eexists _, _. split; [done|]. cbv zeta. cbn [sheap set_sheap].
  destruct (block_range cls1 (sp_cls _ _ _ _ Hs1) i _ Hbl) as (_ & Hp0 & Hp16).
  split_and!; try done; [lia|..].
  - intros b j k Hl Hk. by rewrite (Hsame' b j k), (Hsame b j k).
  - intros b j Hl. destruct (sp_live _ _ _ _ Hs1 b j Hl) as [Hb _].
    apply (block_disjoint cls1 (sp_cls _ _ _ _ Hs1)); [done..|]. intros ->. congruence.
Qed.

(** ** Properties *)

(** C7: Allocating a block: it succeeds while pages are left; the block is 16-byte
    aligned, all zero, large enough, and overlaps no block in use; the blocks
    in use keep their contents. *)
Theorem com_mm_slab_alloc_fresh (s : slab A) live size :
  slab_wf s live → 0 < size ≤ 4080 → (0 < pa_free (spages s))%nat →
  ∃ p s', com_mm_slab_alloc size s = Ok (p, s') ∧
    let i := size_class size in
    slab_wf s' (<[p := i]> live) ∧ live !! p = None ∧ 0 < p ∧ p mod 16 = 0 ∧ size ≤ 16 * i ∧
    zero_from (sheap s') p i 0 ∧ same_blocks (sheap s) (sheap s') live ∧
    ∀ b j, live !! b = Some j → b + 16 * j ≤ p ∨ p + 16 * i ≤ b.
Proof.
  intros Hs Hsz Hfr. destruct (slab_alloc_spec s live size Hs Hsz Hfr) as (p & s' & Hr & Hall).
  exists p, s'. split; [done|]. cbv zeta in *. intuition.
Qed.

(** Freeing a block in use, of which nothing past the requested size was
    written: the block leaves the blocks in use, whose contents are kept, and
    the next request of that size gets it back, all zero. *)
Theorem com_mm_slab_free_reuse (s : slab A) live p size :
  slab_wf s live → 0 < size ≤ 4080 → live !! p = Some (size_class size) →
  tail_clear (sheap s) p size (size_class size) →
  ∃ s', com_mm_slab_free p size s = Ok s' ∧ slab_wf s' (delete p live) ∧
    same_blocks (sheap s) (sheap s') (delete p live) ∧
    ∃ s'', com_mm_slab_alloc size s' = Ok (p, s'') ∧ slab_wf s'' live ∧
      zero_from (sheap s'') p (size_class size) 0.
Proof.
  intros (cls & free & Hs) Hsz Hlp Ht. destruct (size_class_bounds size Hsz) as (Hi & Hfit & _).
  destruct (sp_live _ _ _ _ Hs p _ Hlp) as [Hbl Hnf].
  unfold com_mm_slab_free. fold (size_class size). set (i := size_class size) in *.
  destruct (block_range cls (sp_cls _ _ _ _ Hs) i p Hbl) as (_ & Hp0 & Hp16).
  destruct (Z.eqb_spec p 0); [lia|]. destruct (Z.ltb_spec i NUM_SLABS); [|lia]. rewrite KASSERT_true.
  destruct (clear_bytes_spec s live cls free p size i Hs Hbl) as (h1 & -> & Hd1 & Hz1 & Ho1); [lia|done|].
  mstep. destruct (stw_ok h1 p (slab_next s i)) as [h2 Hw].
  { rewrite Hd1, <- (Z.add_0_r p). apply (block_heap s live cls free i); [done..|lia]. }
  rewrite Hw. mstep. destruct (stw_block s live cls free i p _ _ h2 Hs Hbl Hw) as (Ho2 & Hr2 & Hp2).
  assert (Hoth : ∀ j b k, block cls j b → b ≠ p → 0 ≤ k < 2 * j → word h2 (b + 8 * k) = word (sheap s) (b + 8 * k)).
  { intros. by rewrite (Ho2 j), (Ho1 j). }
  assert (Hs2 : slab_parts (set_sheap (set_next s i p) h2) (delete p live) cls
    (λ k, if decide (k = i) then p :: free i else free k)).
  { apply (parts_update s live cls free i p); try done.
    - intros q. rewrite <- Hd1. apply (stw_dom _ _ _ _ _ Hw).
    - cbn [chain]. split_and!; [done|lia|]. rewrite Hp2. apply (chain_ext (sheap s)); [|by apply (sp_chain _ _ _ _ Hs)].
      intros b Hb. destruct (sp_free _ _ _ _ Hs i b Hi Hb) as [Hbb _]. rewrite <- (Z.add_0_r b).
      apply (Hoth i b 0 Hbb); [by intros ->|lia].
    - apply NoDup_cons. split; [done|by apply (sp_nodup _ _ _ _ Hs)].
    - intros b [->|Hb]%elem_of_cons; [split; [done|intros k Hk; rewrite Hr2 by lia; apply Hz1; lia]|].
      destruct (sp_free _ _ _ _ Hs i b Hi Hb) as [Hbb Hzb]. split; [done|]. intros k Hk.
      rewrite (Hoth i) by (try done; try lia; by intros ->). by apply Hzb.
    - intros b j [Hbp Hl]%lookup_delete_Some. destruct (sp_live _ _ _ _ Hs b j Hl) as [Hbb Hnb]. split; [done|].
      destruct (decide (j = i)) as [->|]; [|done]. rewrite not_elem_of_cons. done. }
  exists (set_sheap (set_next s i p) h2). split; [done|]. split; [by eexists _, _|]. split.
  { intros b j k [Hbp Hl]%lookup_delete_Some Hk. destruct (sp_live _ _ _ _ Hs b j Hl) as [Hbb _]. by apply (Hoth j). }
  assert (Hnx : slab_next (set_sheap (set_next s i p) h2) i = p) by (unfold slab_next; simpl; by rewrite lookup_insert_eq).
  pose proof (pop_spec _ _ _ _ i Hs2 Hi) as Hpop. rewrite Hnx in Hpop.
  destruct Hpop as (h3 & Hld & Hst & Hwf & _ & _ & Hz3 & _); [done|].
  unfold com_mm_slab_alloc. fold (size_class size). fold i. destruct (Z.ltb_spec i NUM_SLABS); [|lia].
  rewrite KASSERT_true, Hnx. destruct (Z.eqb_spec p 0); [done|]. rewrite res_bind_Ok. cbv zeta.
  rewrite Hnx, Hld, res_bind_Ok. cbn [sheap set_next]. rewrite Hst, res_bind_Ok.
  eexists. split; [done|]. cbn [sheap set_sheap]. split; [|done].
  by rewrite insert_delete_id in Hwf.
Qed.
End slab_lemmas.

(** ** What an object allocator promises its clients

    [sa_inv s live] says that the objects at the addresses [live] are in use.
    The objects of the file systems are records at the addresses handed out. *)
Class SlabAlloc (S : Type) := {
  sa_alloc : Z → S → res (Z * S);
  sa_inv : S → gset Z → Prop;
  sa_room : S → nat;
  sa_alloc_ok s live size :
    sa_inv s live → 0 < size ≤ 4080 → (0 < sa_room s)%nat →
    ∃ p s', sa_alloc size s = Ok (p, s') ∧ p ≠ 0 ∧ (p ∉ live) ∧ sa_inv s' ({[p]} ∪ live) ∧
      (sa_room s ≤ Datatypes.S (sa_room s'))%nat
}.

#[export] Program Instance slab_SlabAlloc `{PageAlloc A} : SlabAlloc (slab A) := {
  sa_alloc := com_mm_slab_alloc;
  sa_inv s L := ∃ live, slab_wf s live ∧ dom live = L;
  sa_room s := pa_free (spages s) }.
Next Obligation.
  intros A HA s L size (live & Hwf & <-) Hsz Hf.
  destruct (slab_alloc_spec s live size Hwf Hsz Hf) as (p & s' & Hr & Hwf' & Hn & Hp & _ & _ & _ & _ & _ & Hroom).
  exists p, s'. split_and!; [done|lia|by apply not_elem_of_dom|exists (<[p := size_class size]> live)|done].
  split; [done|]. by rewrite dom_insert_L.
Qed.

(** The allocator before its first request. *)
Definition slab_init {A} (a : A) : slab A := Slab ∅ ∅ a.

Lemma slab_init_wf `{PageAlloc A} (a : A) : pa_inv a → slab_wf (slab_init a) ∅.
Proof.
  intros Ha. exists ∅, (λ _, []). split; simpl; try done.
  - intros i b _ Hb. by apply elem_of_nil in Hb.
  - intros. constructor.
  - intros p _ [? Hx]. by rewrite lookup_empty in Hx.
Qed.

(** ** Witnesses *)

Lemma com_mm_slab_alloc_fresh_witness :
  ∃ p s', com_mm_slab_alloc 100 (slab_init (Bump 1)) = Ok (p, s') ∧
    let i := size_class 100 in
    slab_wf s' (<[p := i]> ∅) ∧ (∅ : gmap Z Z) !! p = None ∧ 0 < p ∧ p mod 16 = 0 ∧ 100 ≤ 16 * i ∧
    zero_from (sheap s') p i 0 ∧ same_blocks (sheap (slab_init (Bump 1))) (sheap s') ∅ ∧
    ∀ b j, (∅ : gmap Z Z) !! b = Some j → b + 16 * j ≤ p ∨ p + 16 * i ≤ b.
Proof.
  apply (com_mm_slab_alloc_fresh (slab_init (Bump 1)) ∅ 100);
    [apply slab_init_wf; simpl; lia|lia|simpl; lia].
Defined.

(** The allocator after one request of 100 bytes. *)
Definition demo_slab : slab bump :=
  match com_mm_slab_alloc 100 (slab_init (Bump 1)) with Ok (_, s) => s | _ => slab_init (Bump 1) end.
Definition demo_block : Z := ARCH_PHYS_TO_HHDM 4096.

Lemma demo_slab_wf : slab_wf demo_slab {[demo_block := 7]} ∧ zero_from (sheap demo_slab) demo_block 7 0.
Proof.
  destruct (slab_alloc_spec (slab_init (Bump 1)) ∅ 100) as (p & s & Hr & Hwf & _ & _ & _ & _ & Hz & _);
    [apply slab_init_wf; simpl; lia|lia|simpl; lia|].
  unfold demo_slab. rewrite Hr. vm_compute in Hr. injection Hr as <- <-. done.
Qed.

Lemma com_mm_slab_free_reuse_witness :
  ∃ s', com_mm_slab_free demo_block 100 demo_slab = Ok s' ∧
    slab_wf s' (delete demo_block {[demo_block := 7]}) ∧
    same_blocks (sheap demo_slab) (sheap s') (delete demo_block {[demo_block := 7]}) ∧
    ∃ s'', com_mm_slab_alloc 100 s' = Ok (demo_block, s'') ∧ slab_wf s'' {[demo_block := 7]} ∧
      zero_from (sheap s'') demo_block (size_class 100) 0.
Proof.
  destruct demo_slab_wf as [Hwf Hz].
  apply (com_mm_slab_free_reuse demo_slab {[demo_block := 7]} demo_block 100); [done|lia|done|].
  split.
  - intros k Hk. apply Hz. change (size_class 100) with 7 in Hk. lia.
  - intros _. split; vm_compute; done.
Defined.
