(* ===== verification/Vfs.v ===== *)
(** * The virtual file system, src/com/fs/vfs.c

    Vnodes, mounted file systems, path lookup with mount points and symbolic
    links, reference counts, and the dispatch to the operations of the file
    system a vnode belongs to. Vnodes and file systems are records in a shared
    store, named by their address; [None] is the NULL pointer. A path or a
    name is the list of its bytes. What a file system keeps for itself
    ([fsdata]) and the operation tables it registers are parameters. *)
From stdpp Require Import gmultiset.
From S2P Require Import Prelude Mem Str Vmm Ioviter Slab.

(** ** Data *)
Inductive com_vnode_type : Type :=
  | E_COM_VNODE_TYPE_FILE | E_COM_VNODE_TYPE_DIR | E_COM_VNODE_TYPE_LINK
  | E_COM_VNODE_TYPE_CHARDEV | E_COM_VNODE_TYPE_FIFO | E_COM_VNODE_TYPE_SOCKET
  | E_COM_VNODE_TYPE_BLOCKDEV.
#[export] Instance com_vnode_type_eq_dec : EqDecision com_vnode_type.
Proof. solve_decision. Defined.

Record com_vfs : Type := mkVfs { mountpoint : option Z; vfs_root : Z }.

(** [ops] is the address of the operation table. *)
Record com_vnode : Type := Vnode {
  mountpointof : option Z;
  vfs : option Z;
  ops : Z;
  type : com_vnode_type;
  num_ref : Z;
  isroot : bool;
  extra : Z }.

Definition set_num_ref (v : com_vnode) (n : Z) : com_vnode :=
  Vnode (mountpointof v) (vfs v) (ops v) (type v) n (isroot v) (extra v).

Record world (S F : Type) : Type := World {
  vnodes : gmap Z com_vnode;
  vfss : gmap Z com_vfs;
  umem : mem;
  objs : S;
  fsdata : F }.
Arguments World {S F}.
Arguments vnodes {S F}.
Arguments vfss {S F}.
Arguments umem {S F}.
Arguments objs {S F}.
Arguments fsdata {S F}.

Definition set_vnodes {S F} (w : world S F) (m : gmap Z com_vnode) : world S F :=
  World m (vfss w) (umem w) (objs w) (fsdata w).
Definition set_objs {S F} (w : world S F) (s : S) : world S F :=
  World (vnodes w) (vfss w) (umem w) s (fsdata w).

(** The fields of [struct stat] a file system fills in. *)
Record stat : Type := mkStat {
  st_blksize : Z; st_ino : Z; st_mode : Z; st_size : Z; st_blocks : Z; st_nlink : Z }.
Definition stat_zero : stat := mkStat 0 0 0 0 0 0.

(** ** Operation tables

    An operation returns its error, what it stored through its output
    pointers ([None] where it stored nothing) and the new world; [op_mmap]
    also the context it maps into, whose range counter may have moved. *)
Record com_vnode_ops (S F : Type) : Type := VnodeOps {
  op_close : option (Z → world S F → res (errno * world S F));
  op_lookup : option (Z → list Z → world S F → res (errno * option Z * world S F));
  op_create : option (Z → list Z → Z → Z → world S F → res (errno * option Z * world S F));
  op_mkdir : option (Z → list Z → Z → Z → world S F → res (errno * option Z * world S F));
  op_link : option (Z → list Z → Z → world S F → res (errno * world S F));
  op_unlink : option (Z → Z → world S F → res (errno * world S F));
  op_read : option (Z → Z → Z → Z → Z → world S F → res (errno * option Z * world S F));
  op_write : option (Z → Z → Z → Z → Z → world S F → res (errno * option Z * world S F));
  op_readv : option (kioviter → Z → Z → Z → world S F → res (errno * option Z * kioviter * world S F));
  op_writev : option (Z → kioviter → Z → Z → world S F → res (errno * option Z * kioviter * world S F));
  op_symlink : option (Z → list Z → list Z → world S F → res (errno * world S F));
  op_readlink : option (Z → world S F → res (errno * option (list Z) * world S F));
  op_readdir : option (Z → Z → Z → Z → world S F → res (errno * option Z * world S F));
  op_ioctl : option (Z → Z → Z → world S F → res (errno * world S F));
  op_isatty : option (Z → world S F → res (errno * world S F));
  op_stat : option (stat → Z → world S F → res (errno * stat * world S F));
  op_truncate : option (Z → Z → world S F → res (errno * world S F));
  op_vnctl : option (Z → Z → world S F → res (errno * option (list Z) * world S F));
  op_poll_head : option (Z → world S F → res (errno * option Z * world S F));
  op_poll : option (Z → Z → world S F → res (errno * option Z * world S F));
  op_open : option (Z → world S F → res (errno * option Z * world S F));
  op_mksocket : option (Z → list Z → Z → Z → world S F → res (errno * option Z * world S F));
  op_mmap : option (Z → ctxarg → Z → Z → Z → Z → Z → world S F → res (errno * option Z * ctxarg * world S F)) }.
Arguments op_close {S F}. Arguments op_lookup {S F}. Arguments op_create {S F}.
Arguments op_mkdir {S F}. Arguments op_link {S F}. Arguments op_unlink {S F}.
Arguments op_read {S F}. Arguments op_write {S F}. Arguments op_readv {S F}.
Arguments op_writev {S F}. Arguments op_symlink {S F}. Arguments op_readlink {S F}.
Arguments op_readdir {S F}. Arguments op_ioctl {S F}. Arguments op_isatty {S F}.
Arguments op_stat {S F}. Arguments op_truncate {S F}. Arguments op_vnctl {S F}.
Arguments op_poll_head {S F}. Arguments op_poll {S F}. Arguments op_open {S F}.
Arguments op_mksocket {S F}. Arguments op_mmap {S F}.

(** The operation tables of the running kernel, by address. *)
Class VnodeTables (S F : Type) := optab : Z → com_vnode_ops S F.

Definition CONFIG_SYMLINK_MAX : nat := 32.
Definition AT_slash : Z := 47.

(** ** Path text *)

(** [SKIP_SEPARATORS] *)
Fixpoint SKIP_SEPARATORS (path : list Z) : list Z :=
  match path with
  | c :: p => if c =? AT_slash then SKIP_SEPARATORS p else path
  | [] => []
  end.

(** The component up to [kmemchr(path, '/', ...)] and the path from that
    slash on, [None] when there is no slash. *)
Fixpoint section (path : list Z) : list Z * option (list Z) :=
  match path with
  | [] => ([], None)
  | c :: p =>
      if c =? AT_slash then ([], Some path)
      else let '(s, e) := section p in (c :: s, e)
  end.

Definition is_dot (s : list Z) : bool := bool_decide (s = [46]).
Definition is_dotdot (s : list Z) : bool := bool_decide (s = [46; 46]).

Section vfs.
Context {S F : Type} `{!VnodeTables S F}.
Implicit Types (w : world S F).

Definition vnode_ops w (node : Z) : res (com_vnode_ops S F) :=
  v ← deref (vnodes w !! node); Ok (optab (ops v)).

(** ** Reference counts *)

Definition com_fs_vfs_close (node : Z) w : res (errno * world S F) :=
  t ← vnode_ops w node;
  match op_close t with None => Ok (ENOSYS, w) | Some f => f node w end.

Definition COM_FS_VFS_VNODE_HOLD (node : Z) w : res (world S F) :=
  v ← deref (vnodes w !! node);
  Ok (set_vnodes w (<[node := set_num_ref v (u64 (num_ref v + 1))]> (vnodes w))).

Definition COM_FS_VFS_VNODE_RELEASE (node : option Z) w : res (world S F) :=
  match node with
  | None => Ok w
  | Some node =>
      v ← deref (vnodes w !! node);
      let n := u64 (num_ref v - 1) in
      let w := set_vnodes w (<[node := set_num_ref v n]> (vnodes w)) in
      if n =? 0 then '(_, w) ← com_fs_vfs_close node w; Ok w else Ok w
  end.

(** ** Path lookup *)

(** Chains of mounts are followed with this fuel, enough for chains that
    visit no vnode twice. *)
Definition mount_fuel w : nat := Datatypes.S (size (vnodes w)).

(** The loop that leaves mounted file systems on "..". *)
Fixpoint leave_mounts (fuel : nat) (ret_vn : Z) w : res (Z * world S F) :=
  match fuel with
  | O => Fuel
  | Datatypes.S fuel =>
      v ← deref (vnodes w !! ret_vn);
      if isroot v then
        f ← deref (vfs v ≫= λ f, vfss w !! f);
        match mountpoint f with
        | None => Ok (ret_vn, w)
        | Some mp =>
            w ← COM_FS_VFS_VNODE_RELEASE (Some ret_vn) w;
            w ← COM_FS_VFS_VNODE_HOLD mp w;
            leave_mounts fuel mp w
        end
      else Ok (ret_vn, w)
  end.

(** The loop that enters what is mounted on the vnode found. *)
Fixpoint enter_mounts (fuel : nat) (dir ret_vn : Z) w : res (Z * Z * world S F) :=
  match fuel with
  | O => Fuel
  | Datatypes.S fuel =>
      v ← deref (vnodes w !! ret_vn);
      match mountpointof v with
      | None => Ok (dir, ret_vn, w)
      | Some f =>
          w ← (if dir =? ret_vn then Ok w else COM_FS_VFS_VNODE_RELEASE (Some dir) w);
          fs ← deref (vfss w !! f);
          w ← COM_FS_VFS_VNODE_HOLD (vfs_root fs) w;
          enter_mounts fuel ret_vn (vfs_root fs) w
      end
  end.

(** What [vfs_lookup1] returns: [*out], [*out_dir] (stored for a symbolic
    link only) and [*out_subpath]. *)
Definition lookup_out : Type := errno * option Z * option Z * option (list Z).

(** The loop over the components of the path. *)
Fixpoint lookup1_loop (fuel : nat) (path : list Z) (ret_vn : Z) w : res (lookup_out * world S F) :=
  match fuel with
  | O => Fuel
  | Datatypes.S fuel =>
      let path := SKIP_SEPARATORS path in
      if bool_decide (path = []) then Ok ((E0, Some ret_vn, None, None), w)
      else
        let '(sec, section_end) := section path in
        let next ret_vn w :=
          match section_end with
          | None => Ok ((E0, Some ret_vn, None, None), w)
          | Some p => lookup1_loop fuel (tail p) ret_vn w
          end in
        '(ret_vn, w) ← (if is_dotdot sec then leave_mounts (mount_fuel w) ret_vn w else Ok (ret_vn, w));
        if is_dot sec then next ret_vn w
        else
          v ← deref (vnodes w !! ret_vn);
          if negb (bool_decide (type v = E_COM_VNODE_TYPE_DIR)) then
            w ← COM_FS_VFS_VNODE_RELEASE (Some ret_vn) w;
            Ok ((ENOTDIR, None, None, None), w)
          else
            let dir := ret_vn in
            lookup ← deref (op_lookup (optab (ops v)));
            '(ret, out, w) ← lookup dir sec w;
            if negb (bool_decide (ret = E0)) then
              w ← COM_FS_VFS_VNODE_RELEASE (Some dir) w;
              Ok ((ret, None, None, None), w)
            else
              ret_vn ← deref out;
              '(dir, ret_vn, w) ← enter_mounts (mount_fuel w) dir ret_vn w;
              v ← deref (vnodes w !! ret_vn);
              if bool_decide (type v = E_COM_VNODE_TYPE_LINK)
              then Ok ((E0, Some ret_vn, Some dir, section_end), w)
              else next ret_vn w
  end.

(** [pathlen > 0 && '/' == path[0]] *)
Definition is_absolute (path : list Z) : bool :=
  match path with c :: _ => c =? AT_slash | [] => false end.

(** One turn per byte is enough: each turn but the last one takes a slash. *)
Definition vfs_lookup1 (path : list Z) (root : Z) (cwd : option Z) w : res (lookup_out * world S F) :=
  let '(path, ret_vn) := if is_absolute path then (tail path, Some root) else (path, cwd) in
  match ret_vn with
  | None => Ok ((EINVAL, None, None, None), w)
  | Some ret_vn =>
      w ← COM_FS_VFS_VNODE_HOLD ret_vn w;
      lookup1_loop (Datatypes.S (length path)) path ret_vn w
  end.

Definition com_fs_vfs_readlink (link : Z) w : res (errno * option (list Z) * world S F) :=
  t ← vnode_ops w link;
  match op_readlink t with None => Ok (ENOSYS, None, w) | Some f => f link w end.

(** The [for] loop of [vfs_lookup2], [i] turns left. *)
Fixpoint lookup2_loop (i : nat) (root : Z) (cwd : option Z) (link : Z) (path : list Z) w
    : res (errno * option Z * world S F) :=
  match i with
  | O => w ← COM_FS_VFS_VNODE_RELEASE (Some link) w; Ok (ELOOP, None, w)
  | Datatypes.S i =>
      v ← deref (vnodes w !! link);
      if negb (bool_decide (type v = E_COM_VNODE_TYPE_LINK)) then Ok (E0, Some link, w)
      else
        '(ret, p, w) ← com_fs_vfs_readlink link w;
        let path := default path p in
        w ← COM_FS_VFS_VNODE_RELEASE (Some link) w;
        if negb (bool_decide (ret = E0)) then Ok (ret, None, w)
        else
          '(out, w) ← vfs_lookup1 path root cwd w;
          let '(ret, out, out_dir, _) := out in
          if negb (bool_decide (ret = E0)) then Ok (ret, None, w)
          else
            link ← deref out;
            lookup2_loop i root (match out_dir with Some d => Some d | None => cwd end) link path w
  end.

Definition vfs_lookup2 (root : Z) (cwd : option Z) (link : Z) w : res (errno * option Z * world S F) :=
  lookup2_loop CONFIG_SYMLINK_MAX root cwd link [] w.

(** The [do ... while] of [com_fs_vfs_lookup]. [symlink_dir] is read only
    after [vfs_lookup1] stored it. *)
Fixpoint lookup_loop (fuel : nat) (path : list Z) (root : Z) (cwd : option Z) (follow_symlinks : bool) w
    : res (errno * option Z * world S F) :=
  match fuel with
  | O => Fuel
  | Datatypes.S fuel =>
      '(out, w) ← vfs_lookup1 path root cwd w;
      let '(ret, tmp_out, symlink_dir, path) := out in
      if negb (bool_decide (ret = E0)) then Ok (ret, None, w)
      else
        tmp_out ← deref tmp_out;
        v ← deref (vnodes w !! tmp_out);
        let next root cwd tmp_out w :=
          match path with
          | None => Ok (E0, Some tmp_out, w)
          | Some path => if (0 <? Z.of_nat (length path)) then lookup_loop fuel path root cwd follow_symlinks w
                         else Ok (E0, Some tmp_out, w)
          end in
        if bool_decide (is_Some path) || (bool_decide (type v = E_COM_VNODE_TYPE_LINK) && follow_symlinks)
        then
          d ← deref symlink_dir;
          '(ret, tmp_out, w) ← vfs_lookup2 root (Some d) tmp_out w;
          if negb (bool_decide (ret = E0)) then Ok (ret, None, w)
          else
            tmp_out ← deref tmp_out;
            next tmp_out (Some tmp_out) tmp_out w
        else next root cwd tmp_out w
  end.

(** Each turn leaves a strictly shorter path. *)
Definition com_fs_vfs_lookup (path : list Z) (root : Z) (cwd : option Z) (follow_symlinks : bool) w
    : res (errno * option Z * world S F) :=
  lookup_loop (Datatypes.S (length path)) path root cwd follow_symlinks w.

(** ** Dispatch

    A NULL entry of the table gives ENOSYS. *)
Definition com_fs_vfs_create (dir : Z) (name : list Z) (attr : Z) w : res (errno * option Z * world S F) :=
  t ← vnode_ops w dir;
  match op_create t with None => Ok (ENOSYS, None, w) | Some f => f dir name attr 0 w end.

Definition com_fs_vfs_mkdir (parent : Z) (name : list Z) (attr : Z) w : res (errno * option Z * world S F) :=
  t ← vnode_ops w parent;
  match op_mkdir t with None => Ok (ENOSYS, None, w) | Some f => f parent name attr 0 w end.

Definition com_fs_vfs_link (dir : Z) (dstname : list Z) (src : Z) w : res (errno * world S F) :=
  t ← vnode_ops w src;
  match op_link t with None => Ok (ENOSYS, w) | Some f => f dir dstname src w end.

Definition com_fs_vfs_unlink (node flags : Z) w : res (errno * world S F) :=
  t ← vnode_ops w node;
  match op_unlink t with None => Ok (ENOSYS, w) | Some f => f node flags w end.

Definition com_fs_vfs_symlink (dir : Z) (linkname path : list Z) w : res (errno * world S F) :=
  t ← vnode_ops w dir;
  match op_symlink t with None => Ok (ENOSYS, w) | Some f => f dir linkname path w end.

Definition com_fs_vfs_readdir (buf buflen dir off : Z) w : res (errno * option Z * world S F) :=
  t ← vnode_ops w dir;
  match op_readdir t with None => Ok (ENOSYS, None, w) | Some f => f buf buflen dir off w end.

Definition com_fs_vfs_ioctl (node op buf : Z) w : res (errno * world S F) :=
  t ← vnode_ops w node;
  match op_ioctl t with None => Ok (ENOSYS, w) | Some f => f node op buf w end.

Definition com_fs_vfs_isatty (node : Z) w : res (errno * world S F) :=
  t ← vnode_ops w node;
  match op_isatty t with None => Ok (ENOSYS, w) | Some f => f node w end.

(** The [struct stat] is cleared before the file system fills it in. *)
Definition com_fs_vfs_stat (node : Z) (out : stat) w : res (errno * stat * world S F) :=
  t ← vnode_ops w node;
  match op_stat t with None => Ok (ENOSYS, out, w) | Some f => f stat_zero node w end.

Definition com_fs_vfs_truncate (node size : Z) w : res (errno * world S F) :=
  t ← vnode_ops w node;
  match op_truncate t with None => Ok (ENOSYS, w) | Some f => f node size w end.

Definition com_fs_vfs_vnctl (node op : Z) w : res (errno * option (list Z) * world S F) :=
  t ← vnode_ops w node;
  match op_vnctl t with None => Ok (ENOSYS, None, w) | Some f => f node op w end.

Definition com_fs_vfs_poll_head (node : Z) w : res (errno * option Z * world S F) :=
  t ← vnode_ops w node;
  match op_poll_head t with None => Ok (ENOSYS, None, w) | Some f => f node w end.

Definition com_fs_vfs_poll (node events : Z) w : res (errno * option Z * world S F) :=
  t ← vnode_ops w node;
  match op_poll t with None => Ok (ENOSYS, None, w) | Some f => f node events w end.

(** Without an [open] operation the vnode opens as itself. *)
Definition com_fs_vfs_open (node : Z) w : res (errno * option Z * world S F) :=
  t ← vnode_ops w node;
  match op_open t with None => Ok (E0, Some node, w) | Some f => f node w end.

Definition com_fs_vfs_mksocket (dir : Z) (name : list Z) (attr : Z) w : res (errno * option Z * world S F) :=
  t ← vnode_ops w dir;
  match op_mksocket t with None => Ok (ENOSYS, None, w) | Some f => f dir name attr 0 w end.

Definition com_fs_vfs_mmap (node : Z) (vmm_context : ctxarg) (hint size vmm_flags mmu_flags off : Z) w
    : res (errno * option Z * ctxarg * world S F) :=
  t ← vnode_ops w node;
  match op_mmap t with
  | None => Ok (ENOSYS, None, vmm_context, w)
  | Some f => f node vmm_context hint size vmm_flags mmu_flags off w
  end.

(** ** Reading and writing *)

(** [*bytes_read] is set to 0 before the file system's [read], and left as it
    is on the other paths. *)
Definition com_fs_vfs_read (buf buflen node off flags : Z) w : res (errno * option Z * world S F) :=
  t ← vnode_ops w node;
  match op_read t with
  | None =>
      match op_readv t with
      | Some f =>
          '(ret, n, _, w) ← f (kioviter_init [mkIov buf buflen]) node off flags w;
          Ok (ret, n, w)
      | None => Ok (ENOSYS, None, w)
      end
  | Some f =>
      '(ret, n, w) ← f buf buflen node off flags w;
      Ok (ret, Some (default 0 n), w)
  end.

Definition com_fs_vfs_write (node buf buflen off flags : Z) w : res (errno * option Z * world S F) :=
  t ← vnode_ops w node;
  match op_write t with
  | None =>
      match op_writev t with
      | Some f =>
          '(ret, n, _, w) ← f node (kioviter_init [mkIov buf buflen]) off flags w;
          Ok (ret, n, w)
      | None => Ok (ENOSYS, None, w)
      end
  | Some f =>
      '(ret, n, w) ← f node buf buflen off flags w;
      Ok (ret, Some (default 0 n), w)
  end.

(** The loop of [com_fs_vfs_readv] and [com_fs_vfs_writev] over the iovecs:
    [io base len off] transfers one of them. The iterator moves before the
    error of the previous transfer is looked at. *)
Fixpoint iov_loop (io : Z → Z → Z → world S F → res (errno * option Z * world S F))
    (fuel : nat) (ioviter : kioviter) (ret : errno) (iov_off tot : Z) w
    : res (errno * Z * kioviter * world S F) :=
  match fuel with
  | O => Fuel
  | Datatypes.S fuel =>
      '(iov, ioviter) ← kioviter_next ioviter;
      match iov with
      | None => Ok (ret, tot, ioviter, w)
      | Some v =>
          if negb (bool_decide (ret = E0)) then Ok (ret, tot, ioviter, w)
          else
            '(ret, n, w) ← io (iov_base v) (iov_len v) iov_off w;
            iov_loop io fuel ioviter ret (u64 (iov_off + default 0 n)) (u64 (tot + default 0 n)) w
      end
  end.

(** One turn per iovec and one more to see the end are enough fuel. *)
Definition com_fs_vfs_readv (ioviter : kioviter) (node off flags : Z) w
    : res (errno * option Z * kioviter * world S F) :=
  t ← vnode_ops w node;
  match op_readv t with
  | Some f => f ioviter node off flags w
  | None =>
      match op_read t with
      | None => Ok (ENOSYS, None, ioviter, w)
      | Some read =>
          '(ret, tot_read, ioviter, w) ←
            iov_loop (λ base len iov_off w, read base len node iov_off flags w)
              (Datatypes.S (length (first_iov ioviter))) ioviter E0 off 0 w;
          Ok (ret, Some tot_read, ioviter, w)
      end
  end.

Definition com_fs_vfs_writev (node : Z) (ioviter : kioviter) (off flags : Z) w
    : res (errno * option Z * kioviter * world S F) :=
  t ← vnode_ops w node;
  match op_writev t with
  | Some f => f node ioviter off flags w
  | None =>
      match op_write t with
      | None => Ok (ENOSYS, None, ioviter, w)
      | Some write =>
          '(ret, tot_write, ioviter, w) ←
            iov_loop (λ base len iov_off w, write node base len iov_off flags w)
              (Datatypes.S (length (first_iov ioviter))) ioviter E0 off 0 w;
          Ok (ret, Some tot_write, ioviter, w)
      end
  end.

(** ** Creating nodes *)

(** The path is read by [kstrpathpenult] where it is stored; here, at
    address 0 of a memory of its own. *)
Definition path_split (path : list Z) : list Z * list Z :=
  let '(penult_len, end_idx, end_len) :=
    kstrpathpenult 0 (Z.of_nat (length path)) (wr_bytes (λ _, 0) 0 path) in
  (take (Z.to_nat penult_len) path, take (Z.to_nat end_len) (drop (Z.to_nat end_idx) path)).

Definition com_fs_vfs_create_any (path : list Z) (root : Z) (cwd : option Z) (attr : Z)
    (err_if_present follow_symlinks : bool)
    (create_handler : Z → list Z → Z → world S F → res (errno * option Z * world S F)) w
    : res (errno * option Z * world S F) :=
  '(lookup_err, vnode, w) ← com_fs_vfs_lookup path root cwd follow_symlinks w;
  if bool_decide (lookup_err = E0) then
    if err_if_present then
      w ← COM_FS_VFS_VNODE_RELEASE vnode w; Ok (EEXIST, None, w)
    else Ok (E0, vnode, w)
  else
    let '(penult, name) := path_split path in
    '(ret, dir, w) ← com_fs_vfs_lookup penult root cwd true w;
    if negb (bool_decide (ret = E0)) then Ok (ret, vnode, w)
    else
      d ← (match dir with Some d => Ok d | None => Panic end);
      '(ret, vnode, w) ← create_handler d name attr w;
      w ← COM_FS_VFS_VNODE_RELEASE dir w;
      Ok (ret, vnode, w).

(** The object sizes are those of the x86-64 ABI. *)
Context `{!SlabAlloc S}.
Definition sizeof_com_vnode : Z := 64.
Definition sizeof_com_socket_vnode : Z := 72.

(** Operation tables are named by numbers; this is the one of sockfs. *)
Definition SockfsNodeOps : Z := 1.

(** Memory of the slab allocator is zero, so the pointers not assigned are
    NULL and [isroot] is false. *)
Definition com_fs_sockfs_new w : res (Z * world S F) :=
  '(p, s) ← sa_alloc sizeof_com_socket_vnode (objs w);
  let v := Vnode None None SockfsNodeOps E_COM_VNODE_TYPE_SOCKET 1 false 0 in
  Ok (p, set_vnodes (set_objs w s) (<[p := v]> (vnodes w))).

Definition com_fs_vfs_alloc_vnode (vf : option Z) (ty : com_vnode_type) (tab ext : Z) w
    : res (errno * option Z * world S F) :=
  if bool_decide (ty = E_COM_VNODE_TYPE_FIFO) then Ok (ENOSYS, None, w)
  else
    '(p, w) ← (if bool_decide (ty = E_COM_VNODE_TYPE_SOCKET) then com_fs_sockfs_new w
               else
                 '(p, s) ← sa_alloc sizeof_com_vnode (objs w);
                 let zero := Vnode None None 0 E_COM_VNODE_TYPE_FILE 0 false 0 in
                 Ok (p, set_vnodes (set_objs w s) (<[p := zero]> (vnodes w))));
    v ← deref (vnodes w !! p);
    let v := Vnode (mountpointof v) vf tab ty 1 (isroot v) ext in
    Ok (E0, Some p, set_vnodes w (<[p := v]> (vnodes w))).
End vfs.
#[global] Arguments COM_FS_VFS_VNODE_RELEASE : simpl never.
#[global] Arguments COM_FS_VFS_VNODE_HOLD : simpl never.

(** ** Lemmas: components of a path *)

(** The text up to the first slash and the texts between the later ones. *)
Fixpoint split_slash (path : list Z) : list Z * list (list Z) :=
  match path with
  | [] => ([], [])
  | c :: p =>
      let '(s, r) := split_slash p in
      if c =? AT_slash then ([], s :: r) else (c :: s, r)
  end.

(** The components of a path: the texts between slashes, empty ones dropped. *)
Definition comps (path : list Z) : list (list Z) :=
  let '(s, r) := split_slash path in filter (λ c, c ≠ []) (s :: r).

Lemma comps_slash path : comps (AT_slash :: path) = comps path.
Proof.
  unfold comps. cbn [split_slash]. destruct (split_slash path) as [s r].
  rewrite Z.eqb_refl. by rewrite filter_cons_False by (intros ?; done).
Qed.

Lemma comps_skip path : comps (SKIP_SEPARATORS path) = comps path.
Proof.
  induction path as [|c p IH]; [done|]. cbn [SKIP_SEPARATORS].
  destruct (Z.eqb_spec c AT_slash) as [->|]; [|done]. by rewrite comps_slash.
Qed.

Lemma skip_head path c p : SKIP_SEPARATORS path = c :: p → c ≠ AT_slash.
Proof.
  induction path as [|a q IH]; [done|]. cbn [SKIP_SEPARATORS].
  destruct (Z.eqb_spec a AT_slash); [done|]. by intros [= -> ->].
Qed.

Lemma skip_length path : (length (SKIP_SEPARATORS path) ≤ length path)%nat.
Proof. induction path as [|a q IH]; [done|]. cbn [SKIP_SEPARATORS]. destruct (_ =? _); simpl; lia. Qed.

Lemma section_split path :
  let '(sec, e) := section path in
  split_slash path = (sec, match e with None => [] | Some p => let '(s, r) := split_slash (tail p) in s :: r end) ∧
  match e with None => True | Some p => (length sec + length p ≤ length path)%nat ∧ ∃ q, p = AT_slash :: q end.
Proof.
  induction path as [|c p IH]; [done|]. cbn [section].
  destruct (Z.eqb_spec c AT_slash) as [->|Hc].
  - cbn [split_slash tail]. destruct (split_slash p). rewrite Z.eqb_refl. split; [done|]. split; [simpl; lia|by eexists].
  - destruct (section p) as [sec e]. destruct IH as [IH Hl]. cbn [split_slash]. rewrite IH.
    destruct (Z.eqb_spec c AT_slash); [done|]. split; [done|]. destruct e; [|done]. simpl. split; [lia|apply Hl].
Qed.

(** The first component of a path that starts with none of the separators. *)
Lemma comps_section path sec e :
  path ≠ [] → (∀ c p, path = c :: p → c ≠ AT_slash) → section path = (sec, e) →
  comps path = sec :: match e with None => [] | Some p => comps p end ∧
  (∀ p, e = Some p → comps p = comps (tail p) ∧ (length (tail p) < length p < length path)%nat).
Proof.
  intros Hne Hc Hs. pose proof (section_split path) as Hsp. rewrite Hs in Hsp. destruct Hsp as [Hsp He].
  assert (Hsec : sec ≠ []).
  { destruct path as [|c p]; [done|]. cbn [section] in Hs. pose proof (Hc c p eq_refl).
    destruct (Z.eqb_spec c AT_slash); [done|]. destruct (section p). by injection Hs as <- <-. }
  assert (Ht : ∀ p, e = Some p → comps p = comps (tail p) ∧ (length (tail p) < length p < length path)%nat).
  { intros p ->. destruct He as (Hl & q & ->). split; [apply comps_slash|]. destruct sec; [done|simpl in *; lia]. }
  split; [|done]. unfold comps at 1. rewrite Hsp. rewrite filter_cons_True by done. f_equal.
  destruct e as [p|]; [|done]. destruct (Ht p eq_refl) as [-> _]. unfold comps. by destruct (split_slash (tail p)).
Qed.

(** ** Worlds that differ in reference counts only *)
Definition forget_refs {S F} (w : world S F) : world S F :=
  set_vnodes w ((λ v, set_num_ref v 0) <$> vnodes w).
Definition sim {S F} (w w' : world S F) : Prop := forget_refs w = forget_refs w'.

#[export] Instance sim_equiv {S F} : Equivalence (@sim S F).
Proof. unfold sim. split; [by intros ?|by intros ???|by intros ??? -> ->]. Qed.

Lemma sim_fields {S F} (w w' : world S F) :
  sim w w' → vfss w = vfss w' ∧ umem w = umem w' ∧ objs w = objs w' ∧ fsdata w = fsdata w' ∧
  ((λ v, set_num_ref v 0) <$> vnodes w) = ((λ v, set_num_ref v 0) <$> vnodes w').
Proof. intros Hs. unfold sim, forget_refs, set_vnodes in Hs. by injection Hs as -> -> -> -> ->. Qed.

Lemma sim_lookup {S F} (w w' : world S F) n v :
  sim w w' → vnodes w !! n = Some v → ∃ r, vnodes w' !! n = Some (set_num_ref v r).
Proof.
  intros (_ & _ & _ & _ & Hs)%sim_fields Hv. apply (f_equal (lookup n)) in Hs.
  rewrite !lookup_fmap, Hv in Hs. simpl in Hs. destruct (vnodes w' !! n) as [v'|] eqn:Hv'; [|done].
  simpl in Hs. injection Hs as Hs. exists (num_ref v'). destruct v, v'; simpl in *. by simplify_eq.
Qed.

Lemma sim_set {S F} (w : world S F) n v r :
  vnodes w !! n = Some v → sim w (set_vnodes w (<[n := set_num_ref v r]> (vnodes w))).
Proof.
  intros Hv. unfold sim, forget_refs, set_vnodes. simpl. f_equal.
  rewrite fmap_insert. rewrite insert_id; [done|]. rewrite lookup_fmap, Hv. by destruct v.
Qed.

Lemma sim_size {S F} (w w' : world S F) : sim w w' → mount_fuel w = mount_fuel w'.
Proof.
  intros (_ & _ & _ & _ & Hs)%sim_fields. unfold mount_fuel.
  apply (f_equal size) in Hs. by rewrite !map_size_fmap in Hs; rewrite Hs.
Qed.

(** ** References held *)

(** [w] is [w0] with the references in [H] added. *)
Definition held {S F} (w0 : world S F) (H : gmultiset Z) (w : world S F) : Prop :=
  sim w0 w ∧ (∀ n v0 v, vnodes w0 !! n = Some v0 → vnodes w !! n = Some v →
    num_ref v = num_ref v0 + Z.of_nat (multiplicity n H)) ∧
  ∀ n, n ∈ H → is_Some (vnodes w0 !! n).

(** Every vnode is referenced and has room for [k] references more. *)
Definition refs_ok {S F} (w : world S F) (k : nat) : Prop :=
  ∀ n v, vnodes w !! n = Some v → 1 ≤ num_ref v ∧ num_ref v + Z.of_nat k < 2 ^ 64.

Lemma held_nil {S F} (w : world S F) : held w ∅ w.
Proof.
  split; [done|]. split.
  - intros n v0 v H1 H2. rewrite multiplicity_empty. simplify_eq. lia.
  - intros n Hn. by apply gmultiset_not_elem_of_empty in Hn.
Qed.

Lemma held_dom {S F} (w0 : world S F) H w n : held w0 H w → n ∈ H → is_Some (vnodes w0 !! n).
Proof. intros (_ & _ & Hd). apply Hd. Qed.

Lemma multiplicity_size (n : Z) (H : gmultiset Z) : (multiplicity n H ≤ size H)%nat.
Proof.
  destruct (decide (n ∈ H)) as [Hn|Hn].
  - assert (Hle : ∀ k X, multiplicity n X = k → (k ≤ size X)%nat); [|by apply Hle].
    clear. intros k. induction k as [|k IH]; intros X HX; [lia|].
    assert (n ∈ X) by (apply elem_of_multiplicity; lia).
    rewrite (gmultiset_disj_union_difference' n X) by done.
    rewrite gmultiset_size_disj_union, gmultiset_size_singleton.
    assert (k ≤ size (X ∖ {[+ n +]}))%nat by (apply IH; rewrite multiplicity_difference, multiplicity_singleton_eq; lia). lia.
  - apply not_elem_of_multiplicity in Hn. lia.
Qed.

Section refs.
Context {S F : Type} `{!VnodeTables S F}.
Implicit Types (w : world S F) (H : gmultiset Z).

Lemma held_lookup w0 H w n v0 :
  held w0 H w → vnodes w0 !! n = Some v0 →
  vnodes w !! n = Some (set_num_ref v0 (num_ref v0 + Z.of_nat (multiplicity n H))).
Proof.
  intros (Hs & Hr & _) Hv0. destruct (sim_lookup w0 w n v0 Hs Hv0) as [r Hv]. rewrite Hv.
  pose proof (Hr n v0 _ Hv0 Hv) as Hn. simpl in Hn. by rewrite Hn.
Qed.

Lemma hold_spec w0 H w n v0 k :
  held w0 H w → vnodes w0 !! n = Some v0 → refs_ok w0 k → (size H < k)%nat →
  ∃ w', COM_FS_VFS_VNODE_HOLD n w = Ok w' ∧ held w0 ({[+ n +]} ⊎ H) w'.
Proof.
  intros Hh Hv0 Hk Hsz. pose proof (held_lookup _ _ _ _ _ Hh Hv0) as Hv.
  unfold COM_FS_VFS_VNODE_HOLD. rewrite Hv. mstep. eexists. split; [done|]. destruct Hh as (Hs & Hr & Hdm).
  destruct (Hk n v0 Hv0) as [H1 H2]. pose proof (multiplicity_size n H).
  split; [by rewrite <- (sim_set w n _ _ Hv)|]. split.
  2:{ intros m [->%gmultiset_elem_of_singleton|Hm]%gmultiset_elem_of_disj_union; [by eexists|by apply Hdm]. }
  intros m v0' v Hm. simpl. destruct (decide (m = n)) as [->|Hne].
  - rewrite lookup_insert_eq. intros [= <-]. simplify_eq. simpl.
    rewrite multiplicity_disj_union, multiplicity_singleton_eq, wrap_small by lia. lia.
  - rewrite lookup_insert_ne by done. rewrite multiplicity_disj_union, multiplicity_singleton_ne by done. by apply Hr.
Qed.

Lemma release_spec w0 H w n v0 k :
  held w0 H w → vnodes w0 !! n = Some v0 → refs_ok w0 k → (size H ≤ k)%nat → n ∈ H →
  ∃ w', COM_FS_VFS_VNODE_RELEASE (Some n) w = Ok w' ∧ held w0 (H ∖ {[+ n +]}) w'.
Proof.
  intros Hh Hv0 Hk Hsz Hin. pose proof (held_lookup _ _ _ _ _ Hh Hv0) as Hv.
  unfold COM_FS_VFS_VNODE_RELEASE. rewrite Hv. mstep. destruct Hh as (Hs & Hr & Hdm).
  destruct (Hk n v0 Hv0) as [H1 H2]. pose proof (multiplicity_size n H).
  rewrite elem_of_multiplicity in Hin. cbn [num_ref set_num_ref].
  rewrite wrap_small by lia. destruct (Z.eqb_spec (num_ref v0 + Z.of_nat (multiplicity n H) - 1) 0); [lia|].
  eexists. split; [done|]. split; [by rewrite <- (sim_set w n _ _ Hv)|]. split.
  2:{ intros m Hm. apply Hdm. rewrite elem_of_multiplicity, multiplicity_difference in *. lia. }
  intros m v0' v Hm. simpl. destruct (decide (m = n)) as [->|Hne].
  - rewrite lookup_insert_eq. intros [= <-]. simplify_eq. simpl.
    rewrite multiplicity_difference, multiplicity_singleton_eq. lia.
  - rewrite lookup_insert_ne by done. rewrite multiplicity_difference, multiplicity_singleton_ne by done.
    intros Hv'. rewrite (Hr m v0' v Hm Hv'). lia.
Qed.

(** The lookup of a file system may return a vnode it has taken a reference
    to, as an operation of its own. *)
Lemma hold_held w0 H w n v0 k w' :
  held w0 H w → vnodes w0 !! n = Some v0 → refs_ok w0 k → (size H < k)%nat →
  COM_FS_VFS_VNODE_HOLD n w = Ok w' → held w0 ({[+ n +]} ⊎ H) w'.
Proof.
  intros Hh Hv Hk Hsz Hr. destruct (hold_spec w0 H w n v0 k Hh Hv Hk Hsz) as (w'' & Hr' & ?).
  rewrite Hr in Hr'. by injection Hr' as ->.
Qed.
End refs.

(** ** Mount chains *)

(** The vnode [".."] moves to from the root of a mounted file system, and the
    root of what is mounted on a vnode. *)
Definition up_step {S F} (w : world S F) (n : Z) : option Z :=
  v ← vnodes w !! n; if isroot v then f ← vfs v; fs ← vfss w !! f; mountpoint fs else None.
Definition down_step {S F} (w : world S F) (n : Z) : option Z :=
  v ← vnodes w !! n; f ← mountpointof v; fs ← vfss w !! f; Some (vfs_root fs).

(** Iterating a step until there is none. *)
Fixpoint follow (step : Z → option Z) (fuel : nat) (n : Z) : option Z :=
  match fuel with
  | O => None
  | Datatypes.S fuel => match step n with None => Some n | Some m => follow step fuel m end
  end.

(** An acyclic chain through the vnodes of a finite set ends within its size. *)
Lemma follow_total (step : Z → option Z) (rank : Z → nat) (X : gset Z) fuel n (seen : list Z) :
  (∀ a b, step a = Some b → a ∈ X ∧ (rank b < rank a)%nat) →
  NoDup seen → (∀ a, a ∈ seen → a ∈ X ∧ (rank n < rank a)%nat) → (size X < fuel + length seen)%nat →
  is_Some (follow step fuel n).
Proof.
  intros Hstep. revert n seen. induction fuel as [|fuel IH]; intros n seen Hnd Hseen Hf.
  - assert (list_to_set seen ⊆ X) as Hsub by (intros a Ha; apply Hseen; by apply elem_of_list_to_set in Ha).
    apply subseteq_size in Hsub. rewrite size_list_to_set in Hsub by done. simpl in Hf. lia.
  - cbn [follow]. destruct (step n) as [m|] eqn:Hs; [|by eexists]. destruct (Hstep n m Hs) as [HnX Hr].
    apply (IH m (n :: seen)).
    + apply NoDup_cons. split; [|done]. intros Hin. destruct (Hseen n Hin). lia.
    + intros a [->|Ha]%elem_of_cons; [done|]. destruct (Hseen a Ha). split; [done|lia].
    + simpl. lia.
Qed.

(** The mount tables name existing file systems and vnodes, mounted roots are
    directories, and no chain of mounts is circular. *)
Record ns_ok {S F} (w : world S F) : Prop := {
  ns_root : ∀ n v, vnodes w !! n = Some v → isroot v = true →
    ∃ f fs, vfs v = Some f ∧ vfss w !! f = Some fs ∧
      (∀ m, mountpoint fs = Some m → is_Some (vnodes w !! m));
  ns_mount : ∀ n v f, vnodes w !! n = Some v → mountpointof v = Some f →
    ∃ fs r, vfss w !! f = Some fs ∧ vnodes w !! vfs_root fs = Some r ∧ type r = E_COM_VNODE_TYPE_DIR;
  ns_acyclic : ∃ up down : Z → nat,
    (∀ a b, up_step w a = Some b → (up b < up a)%nat) ∧
    (∀ a b, down_step w a = Some b → (down b < down a)%nat) }.

Definition mount_up {S F} (w : world S F) (n : Z) : Z := default n (follow (up_step w) (mount_fuel w) n).
Definition mount_down {S F} (w : world S F) (n : Z) : Z := default n (follow (down_step w) (mount_fuel w) n).

Section mounts.
Context {S F : Type} `{!VnodeTables S F}.
Implicit Types (w : world S F) (H : gmultiset Z).

Lemma step_dom w (step : Z → option Z) :
  step = up_step w ∨ step = down_step w → ∀ a b, step a = Some b → a ∈ dom (vnodes w).
Proof.
  intros [-> | ->] a b; unfold up_step, down_step; destruct (vnodes w !! a) eqn:Hv; try done;
    intros _; by apply elem_of_dom.
Qed.

Lemma mount_up_follow w n : ns_ok w → follow (up_step w) (mount_fuel w) n = Some (mount_up w n).
Proof.
  intros Hns. destruct (ns_acyclic w Hns) as (up & _ & Hup & _). unfold mount_up.
  destruct (follow_total (up_step w) up (dom (vnodes w)) (mount_fuel w) n []) as [m Hm].
  - intros a b Hs. split; [by eapply step_dom; [left|]|by apply Hup].
  - constructor.
  - intros a Ha. by apply elem_of_nil in Ha.
  - unfold mount_fuel. rewrite size_dom. simpl. lia.
  - by rewrite Hm.
Qed.

Lemma mount_down_follow w n : ns_ok w → follow (down_step w) (mount_fuel w) n = Some (mount_down w n).
Proof.
  intros Hns. destruct (ns_acyclic w Hns) as (_ & down & _ & Hdown). unfold mount_down.
  destruct (follow_total (down_step w) down (dom (vnodes w)) (mount_fuel w) n []) as [m Hm].
  - intros a b Hs. split; [by eapply step_dom; [right|]|by apply Hdown].
  - constructor.
  - intros a Ha. by apply elem_of_nil in Ha.
  - unfold mount_fuel. rewrite size_dom. simpl. lia.
  - by rewrite Hm.
Qed.

Lemma elem_of_drop_other (a b : Z) H : a ≠ b → a ∈ H → a ∈ H ∖ {[+ b +]}.
Proof.
  intros Hne. rewrite !elem_of_multiplicity, multiplicity_difference, multiplicity_singleton_ne by done. lia.
Qed.

Lemma size_drop (a : Z) H : a ∈ H → Datatypes.S (size (H ∖ {[+ a +]})) = size H.
Proof.
  intros Ha. rewrite (gmultiset_disj_union_difference' a H) at 2 by done.
  by rewrite gmultiset_size_disj_union, gmultiset_size_singleton.
Qed.

Lemma size_add (a : Z) H : size ({[+ a +]} ⊎ H) = Datatypes.S (size H).
Proof. by rewrite gmultiset_size_disj_union, gmultiset_size_singleton. Qed.

Lemma elem_of_add (a b : Z) H : a = b ∨ a ∈ H → a ∈ {[+ b +]} ⊎ H.
Proof. intros Ha. apply gmultiset_elem_of_disj_union. rewrite gmultiset_elem_of_singleton. done. Qed.

(** Leaving mounted file systems moves the reference along. *)
Lemma leave_mounts_spec w0 k fuel H w n m :
  ns_ok w0 → refs_ok w0 k → held w0 H w → (size H ≤ k)%nat → n ∈ H → is_Some (vnodes w0 !! n) →
  follow (up_step w0) fuel n = Some m →
  ∃ w' H', leave_mounts fuel n w = Ok (m, w') ∧ held w0 H' w' ∧ m ∈ H' ∧ size H' = size H ∧
    is_Some (vnodes w0 !! m).
Proof.
  intros Hns Hk. revert H w n. induction fuel as [|fuel IH]; intros H w n Hh Hsz Hin [v Hv]; [done|].
  cbn [follow leave_mounts]. rewrite (held_lookup _ _ _ _ _ Hh Hv). mstep.
  unfold up_step at 1. rewrite Hv. cbn [mbind option_bind isroot set_num_ref vfs].
  destruct (isroot v) eqn:Hroot; [|intros [= <-]; exists w, H; split_and!; try done; by eexists].
  destruct (ns_root w0 Hns n v Hv Hroot) as (f & fs & Hf & Hfs & Hmp).
  pose proof Hh as [(Hvf & _)%sim_fields _]. rewrite Hf. simpl. rewrite <- Hvf, Hfs. simpl. mstep.
  destruct (mountpoint fs) as [mp|] eqn:Hm; [|intros [= <-]; exists w, H; split_and!; try done; by eexists].
  destruct (Hmp mp eq_refl) as [vm Hvm]. intros Hfol.
  destruct (release_spec w0 H w n v k Hh Hv Hk Hsz Hin) as (w1 & -> & Hh1). mstep.
  pose proof (size_drop n H Hin).
  destruct (hold_spec w0 _ w1 mp vm k Hh1 Hvm Hk) as (w2 & -> & Hh2); [lia|]. mstep.
  destruct (IH _ w2 mp Hh2) as (w' & H' & Hl & Hh' & Hin' & Hsz' & He); try done.
  - rewrite size_add. lia.
  - apply elem_of_add. by left.
  - exists w', H'. split_and!; try done. rewrite Hsz', size_add. lia.
Qed.

(** Entering mounted file systems: the last vnode and the one before it stay
    referenced. *)
Lemma enter_mounts_spec w0 k fuel H w dir n m :
  ns_ok w0 → refs_ok w0 k → held w0 H w → (size H + (if decide (dir = n) then 1 else 0) ≤ k)%nat →
  n ∈ H → dir ∈ H →
  is_Some (vnodes w0 !! n) → is_Some (vnodes w0 !! dir) → follow (down_step w0) fuel n = Some m →
  ∃ dir' w' H', enter_mounts fuel dir n w = Ok (dir', m, w') ∧ held w0 H' w' ∧ m ∈ H' ∧ dir' ∈ H' ∧
    (size H' ≤ size H + if decide (dir = n) then 1 else 0)%nat ∧
    (m = n ∧ dir' = dir ∨ ∃ v, vnodes w0 !! m = Some v ∧ type v = E_COM_VNODE_TYPE_DIR).
Proof.
  intros Hns Hk. destruct (ns_acyclic w0 Hns) as (_ & down & _ & Hdown).
  revert H w dir n. induction fuel as [|fuel IH]; intros H w dir n Hh Hsz Hn Hd [v Hv] [vd Hvd]; [done|].
  cbn [follow enter_mounts]. rewrite (held_lookup _ _ _ _ _ Hh Hv). mstep. cbn [mountpointof set_num_ref].
  destruct (down_step w0 n) as [r|] eqn:Hds; unfold down_step in Hds; rewrite Hv in Hds; cbn [mbind option_bind] in Hds.
  2:{ destruct (mountpointof v) as [f|] eqn:Hmo.
      - destruct (ns_mount w0 Hns n v f Hv Hmo) as (fs & rv & Hfs & _).
        cbn [mbind option_bind] in Hds. by rewrite Hfs in Hds.
      - intros [= <-]. exists dir, w, H. split_and!; try done; [lia|by left]. }
  destruct (mountpointof v) as [f|] eqn:Hmo; [|done]. cbn [mbind option_bind] in Hds.
  destruct (ns_mount w0 Hns n v f Hv Hmo) as (fs & rv & Hfs & Hrv & Hty). rewrite Hfs in Hds. injection Hds as <-.
  assert (Hrk : (down (vfs_root fs) < down n)%nat).
  { apply Hdown. unfold down_step. rewrite Hv. simpl. rewrite Hmo. simpl. by rewrite Hfs. }
  intros Hfol.
  assert (∃ w1 H1, (if dir =? n then Ok w else COM_FS_VFS_VNODE_RELEASE (Some dir) w) = Ok w1 ∧ held w0 H1 w1 ∧
    n ∈ H1 ∧ Datatypes.S (size H1) = (size H + if decide (dir = n) then 1 else 0)%nat) as (w1 & H1 & -> & Hh1 & Hn1 & Hs1).
  { destruct (Z.eqb_spec dir n) as [->|Hne].
    - exists w, H. rewrite decide_True by done. split_and!; try done. lia.
    - destruct (release_spec w0 H w dir vd k Hh Hvd Hk) as (w1 & Hr & Hh1); [lia|done|].
      exists w1, (H ∖ {[+ dir +]}). rewrite decide_False by done. pose proof (size_drop dir H Hd).
      split_and!; try done; [|lia]. by apply elem_of_drop_other. }
  mstep. pose proof Hh1 as [(Hvf & _)%sim_fields _]. rewrite <- Hvf, Hfs. mstep.
  destruct (hold_spec w0 H1 w1 (vfs_root fs) rv k Hh1 Hrv Hk) as (w2 & -> & Hh2); [destruct (decide (dir = n)); lia|]. mstep.
  assert (Hnr : n ≠ vfs_root fs) by (intros ->; lia).
  destruct (IH _ w2 n (vfs_root fs) Hh2) as (dir' & w' & H' & Hl & Hh' & Hin' & Hd' & Hsz' & Hcase); try done.
  - rewrite size_add, Hs1, (decide_False (P := n = vfs_root fs)) by done. lia.
  - apply elem_of_add. by left.
  - apply elem_of_add. by right.
  - exists dir', w', H'. split_and!; try done.
    + rewrite size_add, (decide_False (P := n = vfs_root fs)) in Hsz' by done. lia.
    + right. destruct Hcase as [[-> _]|]; [|done]. by exists rv.
Qed.
End mounts.

(** ** What a file system promises about its directories

    [fs_entry w d name] is what a lookup of [name] in the directory [d] gives:
    a vnode, to which the lookup takes a reference (it may leave that out when
    it returns the directory itself), or an error; [fs_target w n] is the
    text of the symbolic link [n]. Nothing depends on reference counts. *)
Class FsLookup (S F : Type) `{!VnodeTables S F} := {
  fs_ok : world S F → Prop;
  fs_entry : world S F → Z → list Z → Z + errno;
  fs_ok_sim w w' : sim w w' → fs_ok w → fs_ok w';
  fs_entry_sim w w' d name : sim w w' → fs_entry w d name = fs_entry w' d name;
  fs_lookup_ok w d v name :
    fs_ok w → vnodes w !! d = Some v → type v = E_COM_VNODE_TYPE_DIR →
    ∃ f, op_lookup (optab (ops v)) = Some f ∧
      match fs_entry w d name with
      | inr e => e ≠ E0 ∧ f d name w = Ok (e, None, w)
      | inl n => is_Some (vnodes w !! n) ∧
          ∃ w', f d name w = Ok (E0, Some n, w') ∧ (COM_FS_VFS_VNODE_HOLD n w = Ok w' ∨ n = d ∧ w' = w)
      end;
  fs_target : world S F → Z → list Z;
  fs_target_sim w w' n : sim w w' → fs_target w n = fs_target w' n;
  fs_readlink_ok w n v :
    fs_ok w → vnodes w !! n = Some v → type v = E_COM_VNODE_TYPE_LINK →
    ∃ f, op_readlink (optab (ops v)) = Some f ∧ f n w = Ok (E0, Some (fs_target w n), w)
}.

(** ** The specification of a lookup

    Over components, without text, reference counts or fuel: the walk ends at
    a vnode, stops at a symbolic link in a directory with components left, or
    fails. *)
Inductive outcome : Type :=
  | Found (n : Z)
  | AtLink (dir n : Z) (rest : list (list Z))
  | Failed (e : errno).

Section resolve.
Context {S F : Type} `{!VnodeTables S F} `{!FsLookup S F}.
Implicit Types (w : world S F).

Definition type_at w (n : Z) : option com_vnode_type := type <$> vnodes w !! n.

Fixpoint resolve w (n : Z) (cs : list (list Z)) : outcome :=
  match cs with
  | [] => Found n
  | c :: cs =>
      if is_dot c then resolve w n cs
      else
        let n := if is_dotdot c then mount_up w n else n in
        if bool_decide (type_at w n = Some E_COM_VNODE_TYPE_DIR) then
          match fs_entry w n c with
          | inr e => Failed e
          | inl m =>
              let m := mount_down w m in
              if bool_decide (type_at w m = Some E_COM_VNODE_TYPE_LINK) then AtLink n m cs
              else resolve w m cs
          end
        else Failed ENOTDIR
  end.

(** The outputs of [vfs_lookup1] that stand for an outcome, with the vnodes
    it returns referenced. *)
Definition outcome_ok (r : outcome) (o : lookup_out) (refs : gmultiset Z) : Prop :=
  match r with
  | Found n => o = (E0, Some n, None, None) ∧ n ∈ refs
  | AtLink d n rest =>
      ∃ sub, o = (E0, Some n, Some d, sub) ∧ n ∈ refs ∧ d ∈ refs ∧
        match sub with None => rest = [] | Some p => comps p = rest end
  | Failed e => o = (e, None, None, None) ∧ e ≠ E0
  end.

Lemma type_at_Some w n t : type_at w n = Some t ↔ ∃ v, vnodes w !! n = Some v ∧ type v = t.
Proof. unfold type_at. destruct (vnodes w !! n) as [v|]; naive_solver. Qed.

Lemma held_type w0 H1 w n v t :
  held w0 H1 w → vnodes w !! n = Some v → bool_decide (type v = t) = bool_decide (type_at w0 n = Some t).
Proof.
  intros [Hs _] Hv. symmetry in Hs. destruct (sim_lookup w w0 n v Hs Hv) as [r Hv0].
  unfold type_at. rewrite Hv0. simpl. apply bool_decide_ext. naive_solver.
Qed.

(** One file-system lookup, in a world that has gained references. *)
Lemma fs_lookup_held w0 k refs w d v name :
  fs_ok w0 → refs_ok w0 k → held w0 refs w → (size refs < k)%nat → d ∈ refs →
  vnodes w !! d = Some v → type v = E_COM_VNODE_TYPE_DIR →
  ∃ f, op_lookup (optab (ops v)) = Some f ∧
    match fs_entry w0 d name with
    | inr e => e ≠ E0 ∧ f d name w = Ok (e, None, w)
    | inl n => is_Some (vnodes w0 !! n) ∧
        ∃ w' refs', f d name w = Ok (E0, Some n, w') ∧ held w0 refs' w' ∧ n ∈ refs' ∧ d ∈ refs' ∧
          (size refs' + (if decide (d = n) then 1 else 0) ≤ size refs + 2)%nat ∧
          (size refs' ≤ size refs + 1)%nat
    end.
Proof.
  intros Hok Hk Hh Hsz Hd Hv Hty. pose proof Hh as [Hsim _].
  destruct (fs_lookup_ok w d v name (fs_ok_sim _ _ Hsim Hok) Hv Hty) as (f & Hf & Hspec).
  exists f. split; [done|]. rewrite (fs_entry_sim w0 w) by done.
  destruct (fs_entry w d name) as [n|e]; [|done]. destruct Hspec as (Hn & w' & Hr & Hcase).
  assert (Hn0 : is_Some (vnodes w0 !! n)).
  { destruct Hn as [vn Hn]. symmetry in Hsim. destruct (sim_lookup w w0 n vn Hsim Hn) as [r ->]. by eexists. }
  split; [done|]. exists w'. destruct Hcase as [Hhold|[-> ->]].
  - destruct Hn0 as [vn Hvn]. exists ({[+ n +]} ⊎ refs). rewrite size_add.
    split_and!; [done|by eapply hold_held|apply elem_of_add; by left|apply elem_of_add; by right| |]; [case_decide|]; lia.
  - exists refs. split_and!; try done; [case_decide|]; lia.
Qed.

Lemma lookup1_loop_spec w0 k fuel path n refs w :
  fs_ok w0 → ns_ok w0 → refs_ok w0 k → (length path < fuel)%nat → held w0 refs w → n ∈ refs →
  is_Some (vnodes w0 !! n) → (size refs + 2 * length (comps path) ≤ k)%nat →
  ∃ o w' refs', lookup1_loop fuel path n w = Ok (o, w') ∧ held w0 refs' w' ∧
    (size refs' ≤ size refs + 2 * length (comps path))%nat ∧ outcome_ok (resolve w0 n (comps path)) o refs' ∧
    (∀ sub, o.2 = Some sub → (0 < length sub < length path)%nat).
Proof.
  intros Hok Hns Hk. revert path n refs w. induction fuel as [|fuel IH]; [lia|].
  intros path n refs w Hf Hh Hn Hsn Hsz. cbn [lookup1_loop]. pose proof (skip_length path) as Hsl.
  rewrite <- (comps_skip path) in *. pose proof (skip_head path) as Hhd.
  set (p := SKIP_SEPARATORS path) in *. clearbody p. case_bool_decide as Hp.
  { subst p. cbn [comps split_slash resolve]. eexists _, _, refs. split_and!; [done|done|simpl; lia|done|done]. }
  destruct (section p) as [sec e] eqn:Hsec. destruct (comps_section p sec e Hp Hhd Hsec) as [Hcs Htl].
  rewrite Hcs in *. set (cs := match e with None => [] | Some p => comps p end) in *. cbn [length] in Hsz.
  (* the rest of the path *)
  assert (Hnext : ∀ n refs1 w1, held w0 refs1 w1 → n ∈ refs1 → is_Some (vnodes w0 !! n) →
    (size refs1 ≤ size refs + 2)%nat →
    ∃ o w' refs', match e with None => Ok ((E0, Some n, None, None), w1)
                  | Some p => lookup1_loop fuel (tail p) n w1 end = Ok (o, w') ∧ held w0 refs' w' ∧
      (size refs' ≤ size refs + 2 * Datatypes.S (length cs))%nat ∧ outcome_ok (resolve w0 n cs) o refs' ∧
      (∀ sub, o.2 = Some sub → (0 < length sub < length path)%nat)).
  { intros n1 refs1 w1 Hh1 Hn1 Hsn1 Hsz1. unfold cs in *. destruct e as [q|].
    - destruct (Htl q eq_refl) as [Hcq Hlq]. rewrite Hcq in *.
      destruct (IH (tail q) n1 refs1 w1) as (o & w' & refs' & Hr & Hh' & Hs' & Ho & Hsub); try done; [lia..|].
      exists o, w', refs'. split_and!; try done; [lia|]. intros sub Hsb. specialize (Hsub sub Hsb). lia.
    - eexists _, _, refs1. split_and!; [done|done|simpl; lia|done|done]. }
  clear IH. cbn [length resolve].
  (* the directory the component is looked up in *)
  set (d := if is_dotdot sec then mount_up w0 n else n).
  assert (∃ w1 refs1, (if is_dotdot sec then leave_mounts (mount_fuel w) n w else Ok (n, w)) = Ok (d, w1) ∧
    held w0 refs1 w1 ∧ d ∈ refs1 ∧ size refs1 = size refs ∧ is_Some (vnodes w0 !! d)) as
    (w1 & refs1 & -> & Hh1 & Hd1 & Hs1 & Hsd).
  { unfold d. destruct (is_dotdot sec); [|by exists w, refs].
    rewrite <- (sim_size w0 w) by apply Hh.
    destruct (leave_mounts_spec w0 k (mount_fuel w0) refs w n (mount_up w0 n)) as (w1 & refs1 & ?); try done; [lia|by apply mount_up_follow|].
    by exists w1, refs1. }
  mstep. destruct (is_dot sec) eqn:Hdot.
  { assert (is_dotdot sec = false) as Hdd.
    { unfold is_dot, is_dotdot in *. apply bool_decide_eq_true in Hdot. by rewrite Hdot. }
    unfold d in *. rewrite Hdd in *. apply (Hnext n refs1 w1); try done. lia. }
  destruct Hsd as [vd Hvd]. pose proof (held_lookup _ _ _ _ _ Hh1 Hvd) as Hvd1. rewrite Hvd1. mstep.
  rewrite (held_type w0 refs1 w1 d _ _ Hh1 Hvd1). case_bool_decide as Hty; simpl negb; cbv iota.
  2:{ destruct (release_spec w0 refs1 w1 d vd k Hh1 Hvd Hk) as (w2 & -> & Hh2); [lia|done|]. mstep.
      pose proof (size_drop d refs1 Hd1). eexists _, w2, _. split_and!; [done|done|lia|done|done]. }
  apply type_at_Some in Hty as (? & ? & Hty). simplify_eq.
  destruct (fs_lookup_held w0 k refs1 w1 d (set_num_ref vd (num_ref vd + Z.of_nat (multiplicity d refs1))) sec Hok Hk Hh1) as (f & Hop & Hspec); [lia|done|exact Hvd1|done|].
  rewrite Hop. mstep. destruct (fs_entry w0 d sec) as [m|er].
  2:{ destruct Hspec as [Her Hr]. rewrite Hr. mstep. rewrite bool_decide_false by done. cbn [negb].
      destruct (release_spec w0 refs1 w1 d vd k Hh1 Hvd Hk) as (w2 & -> & Hh2); [lia|done|]. mstep.
      pose proof (size_drop d refs1 Hd1). eexists _, w2, _. split_and!; [done|done|lia|done|done]. }
  destruct Hspec as (Hsm & w2 & refs2 & Hr & Hh2 & Hm2 & Hd2 & Hs2 & Hs2'). rewrite Hr. mstep.
  cbn [negb bool_decide decide decide_rel]. rewrite bool_decide_true by done. cbn [negb]. mstep.
  rewrite <- (sim_size w0 w2) by apply Hh2.
  destruct (enter_mounts_spec w0 k (mount_fuel w0) refs2 w2 d m (mount_down w0 m)) as
    (dir' & w3 & refs3 & -> & Hh3 & Hm3 & Hd3 & Hs3 & Hcase); try done; [lia|by apply mount_down_follow|].
  mstep. assert (is_Some (vnodes w0 !! mount_down w0 m)) as [vm Hvm].
  { destruct Hcase as [[-> _]|(v & -> & _)]; [done|by eexists]. }
  pose proof (held_lookup _ _ _ _ _ Hh3 Hvm) as Hvm3. rewrite Hvm3. mstep.
  rewrite (held_type w0 refs3 w3 _ _ _ Hh3 Hvm3). case_bool_decide as Hlk.
  - apply type_at_Some in Hlk as (? & ? & Hlk). simplify_eq.
    assert (dir' = d) as -> by (destruct Hcase as [[_ ->]|(v & Hv & Hvt)]; [done|congruence]).
    eexists _, w3, refs3. split_and!; [done|done|lia| |].
    + exists e. split_and!; try done. by destruct e.
    + intros sub [= ->]. destruct (Htl sub eq_refl) as [_ ?]. lia.
  - apply (Hnext _ refs3 w3); try done. lia.
Qed.

(** Where a walk starts. *)
Definition start_of (path : list Z) (root cwd : Z) : Z := if is_absolute path then root else cwd.

Lemma comps_tail path : is_absolute path = true → comps (tail path) = comps path ∧ (length (tail path) ≤ length path)%nat.
Proof.
  destruct path as [|c p]; [done|]. cbn [is_absolute tail]. destruct (Z.eqb_spec c AT_slash) as [->|]; [|done].
  intros _. split; [by rewrite comps_slash|simpl; lia].
Qed.

Lemma vfs_lookup1_spec w0 k refs w path root cwd :
  fs_ok w0 → ns_ok w0 → refs_ok w0 k → held w0 refs w →
  is_Some (vnodes w0 !! root) → is_Some (vnodes w0 !! cwd) →
  (size refs + 1 + 2 * length (comps path) ≤ k)%nat →
  ∃ o w' refs', vfs_lookup1 path root (Some cwd) w = Ok (o, w') ∧ held w0 refs' w' ∧
    (size refs' ≤ size refs + 1 + 2 * length (comps path))%nat ∧
    outcome_ok (resolve w0 (start_of path root cwd) (comps path)) o refs' ∧
    (∀ sub, o.2 = Some sub → (0 < length sub < length path)%nat).
Proof.
  intros Hok Hns Hk Hh Hr Hc Hsz.
  assert (Hgo : ∀ n p, is_Some (vnodes w0 !! n) → comps p = comps path → (length p ≤ length path)%nat →
    ∃ o w' refs', (w ← COM_FS_VFS_VNODE_HOLD n w; lookup1_loop (Datatypes.S (length p)) p n w) = Ok (o, w') ∧
      held w0 refs' w' ∧ (size refs' ≤ size refs + 1 + 2 * length (comps path))%nat ∧
      outcome_ok (resolve w0 n (comps path)) o refs' ∧
      (∀ sub, o.2 = Some sub → (0 < length sub < length path)%nat)).
  { intros n p [v Hv] Hcp Hl. destruct (hold_spec w0 refs w n v k Hh Hv Hk) as (w1 & -> & Hh1); [lia|].
    rewrite res_bind_Ok. pose proof (size_add n refs).
    destruct (lookup1_loop_spec w0 k (Datatypes.S (length p)) p n _ w1 Hok Hns Hk ltac:(lia) Hh1)
      as (o & w' & refs' & Hlp & Hh' & Hs' & Ho & Hsub);
      [apply elem_of_add; by left|by eexists|rewrite Hcp; lia|].
    rewrite Hcp in *. exists o, w', refs'. split_and!; try done; [lia|].
    intros sub Hsb. specialize (Hsub sub Hsb). lia. }
  unfold vfs_lookup1, start_of. destruct (is_absolute path) eqn:Ha; [|by apply Hgo].
  destruct (comps_tail path Ha). by apply Hgo.
Qed.

(** The text of every symbolic link has at most [L] components. *)
Definition links_short w (L : nat) : Prop :=
  ∀ n, type_at w n = Some E_COM_VNODE_TYPE_LINK → (length (comps (fs_target w n)) ≤ L)%nat.

Lemma lookup2_loop_spec w0 k L i refs w root cwd link path :
  fs_ok w0 → ns_ok w0 → refs_ok w0 k → links_short w0 L → held w0 refs w → link ∈ refs →
  is_Some (vnodes w0 !! root) → is_Some (vnodes w0 !! cwd) → is_Some (vnodes w0 !! link) →
  (size refs + i * (1 + 2 * L) ≤ k)%nat →
  ∃ ret out w' refs', lookup2_loop i root (Some cwd) link path w = Ok (ret, out, w') ∧ held w0 refs' w' ∧
    (size refs' ≤ size refs + i * (1 + 2 * L))%nat ∧
    match out with
    | Some n => ret = E0 ∧ n ∈ refs' ∧ ∃ t, type_at w0 n = Some t ∧ t ≠ E_COM_VNODE_TYPE_LINK
    | None => ret ≠ E0
    end.
Proof.
  intros Hok Hns Hk HL. revert refs w cwd link path.
  induction i as [|i IH]; intros refs w cwd link path Hh Hlk Hr Hc [v Hv] Hsz; cbn [lookup2_loop].
  - destruct (release_spec w0 refs w link v k Hh Hv Hk) as (w1 & -> & Hh1); [lia|done|]. mstep.
    pose proof (size_drop link refs Hlk). eexists _, None, w1, _. split_and!; [done|done|lia|done].
  - pose proof (held_lookup _ _ _ _ _ Hh Hv) as Hv1. rewrite Hv1. mstep.
    rewrite (held_type w0 refs w link _ _ Hh Hv1). case_bool_decide as Hty; cbn [negb].
    2:{ eexists _, (Some link), w, refs. split_and!; [done|done|lia|done|done|]. exists (type v).
        unfold type_at in *. rewrite Hv in *. simpl in *. split; [done|]. congruence. }
    pose proof (HL link Hty) as Hlen. apply type_at_Some in Hty as (? & ? & Hty). simplify_eq.
    pose proof Hh as [Hsim _].
    destruct (fs_readlink_ok w link _ (fs_ok_sim _ _ Hsim Hok) Hv1 Hty) as (f & Hop & Hf).
    unfold com_fs_vfs_readlink, vnode_ops. rewrite Hv1. mstep. rewrite Hop, Hf. mstep.
    rewrite <- (fs_target_sim w0 w) by done. cbn [from_option id].
    destruct (release_spec w0 refs w link v k Hh Hv Hk) as (w1 & -> & Hh1); [lia|done|]. mstep.
    rewrite bool_decide_true by done. cbn [negb]. pose proof (size_drop link refs Hlk).
    destruct (vfs_lookup1_spec w0 k _ w1 (fs_target w0 link) root cwd Hok Hns Hk Hh1)
      as ([[[ret out] od] sub] & w2 & refs2 & -> & Hh2 & Hs2 & Ho & _); [done|done|lia|]. mstep.
    unfold outcome_ok in Ho. destruct (resolve w0 _ _) as [n|d n rest|er] eqn:Hres.
    + destruct Ho as [[= -> -> -> ->] Hn]. rewrite bool_decide_true by done. cbn [negb]. mstep.
      destruct (IH refs2 w2 cwd n (fs_target w0 link)) as (ret & out & w' & refs' & -> & Hh' & Hs' & Hcase); try done; [|lia|].
      { by apply (held_dom w0 refs2 w2). }
      exists ret, out, w', refs'. split_and!; try done. lia.
    + destruct Ho as (sub' & [= -> -> -> ->] & Hn & Hd & _). rewrite bool_decide_true by done. cbn [negb]. mstep.
      destruct (IH refs2 w2 d n (fs_target w0 link)) as (ret & out & w' & refs' & -> & Hh' & Hs' & Hcase); try done; [..|lia|].
      { by apply (held_dom w0 refs2 w2). } { by apply (held_dom w0 refs2 w2). }
      exists ret, out, w', refs'. split_and!; try done. lia.
    + destruct Ho as [[= -> -> -> ->] Her]. rewrite bool_decide_false by done. cbn [negb].
      eexists _, None, w2, refs2. split_and!; [done|done|lia|done].
Qed.

Lemma comps_length path : (length (comps path) ≤ length path)%nat.
Proof.
  assert (Hs : ∀ p, (length (filter (λ c, c ≠ []) ((split_slash p).2)) + (if decide ((split_slash p).1 = []) then 0 else 1) ≤ length p)%nat).
  { induction p as [|c p IH]; [done|]. cbn [split_slash]. destruct (split_slash p) as [s r]. cbn [fst snd] in IH.
    destruct (c =? AT_slash); cbn [fst snd length]; [|repeat case_decide; simplify_eq; lia].
    rewrite filter_cons. repeat case_decide; simplify_eq; simpl; lia. }
  specialize (Hs path). unfold comps. destruct (split_slash path) as [s r]. cbn [fst snd] in Hs.
  rewrite filter_cons. repeat case_decide; simplify_eq; simpl; lia.
Qed.

Definition not_link w (n : Z) : Prop := ∃ t, type_at w n = Some t ∧ t ≠ E_COM_VNODE_TYPE_LINK.

Lemma resolve_found w n cs m :
  type_at w n ≠ Some E_COM_VNODE_TYPE_LINK → resolve w n cs = Found m → type_at w m ≠ Some E_COM_VNODE_TYPE_LINK.
Proof.
  revert n. induction cs as [|c cs IH]; intros n Hn; cbn [resolve]; [by intros [= <-]|].
  destruct (is_dot c); [by apply IH|]. case_bool_decide; [|done]. destruct (fs_entry w _ c); [|done].
  case_bool_decide as Hl; [done|]. by apply IH.
Qed.

Lemma not_link_intro w n : is_Some (vnodes w !! n) → type_at w n ≠ Some E_COM_VNODE_TYPE_LINK → not_link w n.
Proof. intros [v Hv] Hn. exists (type v). unfold type_at in *. rewrite Hv in *. simpl in *. split; [done|congruence]. Qed.

Lemma not_link_elim w n : not_link w n → is_Some (vnodes w !! n) ∧ type_at w n ≠ Some E_COM_VNODE_TYPE_LINK.
Proof. intros (t & Ht & Hne). split; [|congruence]. apply type_at_Some in Ht as (v & Hv & _). by eexists. Qed.

(** The references one turn of [com_fs_vfs_lookup] may add. *)
Definition turn_refs (len L : nat) : nat := 1 + 2 * len + CONFIG_SYMLINK_MAX * (1 + 2 * L).

(** The vnode a lookup returns is referenced, and is a symbolic link only if
    links are not followed; there is none exactly when it fails. *)
Definition lookup_result w0 (follow_symlinks : bool) (ret : errno) (out : option Z) (refs : gmultiset Z) : Prop :=
  match out with
  | Some n => ret = E0 ∧ n ∈ refs ∧ (follow_symlinks = true → not_link w0 n)
  | None => ret ≠ E0
  end.

Lemma lookup_loop_spec w0 k L len fuel refs w path root cwd fl :
  fs_ok w0 → ns_ok w0 → refs_ok w0 k → links_short w0 L → held w0 refs w →
  not_link w0 root → not_link w0 cwd → (length path < fuel)%nat → (length path ≤ len)%nat →
  (size refs + fuel * turn_refs len L ≤ k)%nat →
  ∃ ret out w' refs', lookup_loop fuel path root (Some cwd) fl w = Ok (ret, out, w') ∧ held w0 refs' w' ∧
    lookup_result w0 fl ret out refs'.
Proof.
  intros Hok Hns Hk HL. revert refs w path root cwd.
  induction fuel as [|fuel IH]; intros refs w path root cwd Hh Hr Hc Hf Hlen Hsz; [lia|].
  cbn [lookup_loop]. destruct (not_link_elim _ _ Hr) as [Hsr Hlr]. destruct (not_link_elim _ _ Hc) as [Hsc Hlc].
  pose proof (comps_length path) as Hcl. unfold turn_refs in Hsz at 1.
  destruct (vfs_lookup1_spec w0 k refs w path root cwd Hok Hns Hk Hh Hsr Hsc)
    as ([[[ret out] od] sub] & w1 & refs1 & -> & Hh1 & Hs1 & Ho & Hsub); [lia|]. mstep. cbn [snd] in Hsub.
  assert (Hst : type_at w0 (start_of path root cwd) ≠ Some E_COM_VNODE_TYPE_LINK).
  { unfold start_of. by destruct (is_absolute path). }
  (* a symbolic link, with or without more path *)
  assert (Hlink : ∀ d n sub, n ∈ refs1 → d ∈ refs1 → (∀ p, sub = Some p → (0 < length p < length path)%nat) →
    ∃ ret out w' refs', ('(ret, out, w) ← vfs_lookup2 root (Some d) n w1;
        if negb (bool_decide (ret = E0)) then Ok (ret, None, w)
        else m ← deref out;
          match sub with
          | None => Ok (E0, Some m, w)
          | Some p => if 0 <? Z.of_nat (length p) then lookup_loop fuel p m (Some m) fl w else Ok (E0, Some m, w)
          end) = Ok (ret, out, w') ∧ held w0 refs' w' ∧ lookup_result w0 fl ret out refs').
  { intros d n sb Hn Hd Hsb.
    destruct (lookup2_loop_spec w0 k L CONFIG_SYMLINK_MAX refs1 w1 root d n [] Hok Hns Hk HL Hh1 Hn)
      as (ret2 & out2 & w2 & refs2 & Hl2 & Hh2 & Hs2 & Hcase);
      [done|by apply (held_dom w0 refs1 w1)..|lia|].
    unfold vfs_lookup2. rewrite Hl2. mstep. destruct out2 as [m|].
    - destruct Hcase as (-> & Hm & Hnl). rewrite bool_decide_true by done. cbn [negb]. mstep.
      destruct sb as [p|]; [|by exists E0, (Some m), w2, refs2].
      destruct (Hsb p eq_refl) as [Hp0 Hpl]. destruct (Z.ltb_spec 0 (Z.of_nat (length p))); [|lia].
      apply (IH refs2 w2 p m m); try done; [lia..|]. unfold turn_refs. lia.
    - rewrite bool_decide_false by done. cbn [negb]. by exists ret2, None, w2, refs2. }
  unfold outcome_ok in Ho. destruct (resolve w0 _ _) as [n|d n rest|er] eqn:Hres.
  - destruct Ho as [[= -> -> -> ->] Hn]. rewrite bool_decide_true by done. cbn [negb]. mstep.
    destruct (held_dom w0 refs1 w1 n Hh1 Hn) as [vn Hvn]. pose proof (held_lookup _ _ _ _ _ Hh1 Hvn) as Hvn1.
    rewrite Hvn1. mstep. pose proof (resolve_found _ _ _ _ Hst Hres) as Hnl.
    rewrite (held_type w0 refs1 w1 n _ _ Hh1 Hvn1), (bool_decide_false _ Hnl).
    rewrite bool_decide_false by (by intros [? ?]). cbn [orb andb].
    eexists _, (Some n), w1, refs1. unfold lookup_result. split_and!; try done. intros _. apply not_link_intro; [by eexists|done].
  - destruct Ho as (sub' & [= -> -> -> ->] & Hn & Hd & Hrest). rewrite bool_decide_true by done. cbn [negb]. mstep.
    destruct (held_dom w0 refs1 w1 n Hh1 Hn) as [vn Hvn]. pose proof (held_lookup _ _ _ _ _ Hh1 Hvn) as Hvn1.
    rewrite Hvn1. mstep. destruct (orb _ _) eqn:Hcond; [by apply (Hlink d n sub')|].
    apply orb_false_iff in Hcond as [Hsome Hfl]. apply bool_decide_eq_false in Hsome.
    destruct sub' as [p|]; [destruct Hsome; by eexists|].
    eexists _, (Some n), w1, refs1. unfold lookup_result. split_and!; try done. intros ->. rewrite andb_true_r in Hfl.
    apply bool_decide_eq_false in Hfl. apply not_link_intro; [by eexists|].
    unfold type_at. rewrite Hvn. simpl in *. congruence.
  - destruct Ho as [[= -> -> -> ->] Her]. rewrite bool_decide_false by done. cbn [negb].
    by exists er, None, w1, refs1.
Qed.

(** Splitting the path of an entry of the root directory leaves no directory
    part, not even the slash. *)
Lemma path_split_root name :
  name ≠ [] → Forall (λ c, c ≠ AT_slash) name → path_split (AT_slash :: name) = ([], name).
Proof.
  intros Hne Hns. unfold path_split. set (path := AT_slash :: name).
  set (m := wr_bytes (λ _, 0) 0 path). set (len := length name).
  assert (Hm : ∀ i, (i < len)%nat → m (Z.of_nat (Datatypes.S i)) ≠ 47).
  { intros i Hi. unfold m. rewrite wr_bytes_lookup. destruct (in_range_spec (Z.of_nat (Datatypes.S i)) 0 (Z.of_nat (length path))) as [_|Hr].
    - replace (Z.to_nat (Z.of_nat (Datatypes.S i) - 0)) with (Datatypes.S i) by lia. cbn [nth path].
      destruct (nth_lookup_or_length name i 0) as [Hl|Hl]; [|unfold len in Hi; lia].
      by apply (Forall_lookup_1 _ _ _ _ Hns Hl).
    - exfalso. apply Hr. unfold path. simpl. unfold len in Hi. lia. }
  assert (Hm0 : m 0 = 47) by (unfold m; rewrite wr_bytes_lookup; by destruct (in_range_spec 0 0 (Z.of_nat (length path))) as [_|[]]; [|unfold path; simpl; lia]).
  assert (Hlen : (0 < len)%nat) by (unfold len; destruct name; [done|simpl; lia]).
  unfold kstrpathpenult. replace (Z.to_nat (Z.of_nat (length path))) with (Datatypes.S len) by (unfold path, len; simpl; lia).
  destruct (strip_slashes_spec 0 (Datatypes.S len) m) as (Hle & Hst & _). 
  assert (strip_slashes 0 (Datatypes.S len) m = Datatypes.S len) as ->.
  { destruct (decide (strip_slashes 0 (Datatypes.S len) m = Datatypes.S len)) as [|Hlt]; [done|].
    exfalso. apply (Hm (len - 1)%nat); [lia|]. replace (Datatypes.S (len - 1)) with len by lia.
    apply (Hst len). lia. }
  unfold kmemrchr. rewrite Nat2Z.id, wrap_small by lia.
  assert (kmemrchr_loop (Datatypes.S len) 0 47 m = Some 0) as ->.
  { apply kmemrchr_loop_Some. exists 0. split_and!; [lia|lia|done|done|]. intros j Hj. rewrite Z.add_0_l.
    replace j with (Z.of_nat (Datatypes.S (Z.to_nat (j - 1)))) by lia. apply Hm. lia. }
  cbv beta iota zeta. change (0 - 0) with 0. f_equal.
  replace (Z.to_nat (0 + 1)) with 1%nat by lia. cbn [drop path]. apply take_ge. unfold len. lia.
Qed.

(** ** Properties *)

(** C1: In a well-formed name space a lookup always returns, whatever the path and
    the symbolic links on it: circular links, missing components and
    components below a file end in an error, no operation is called on a vnode
    that does not exist, and no reference the caller did not hand over is
    dropped. The vnode returned is referenced, and is no symbolic link when
    links are followed. *)
Theorem com_fs_vfs_lookup_total w L path root cwd follow_symlinks :
  fs_ok w → ns_ok w → links_short w L →
  refs_ok w (Datatypes.S (length path) * turn_refs (length path) L) →
  not_link w root → not_link w cwd →
  ∃ ret out w' refs, com_fs_vfs_lookup path root (Some cwd) follow_symlinks w = Ok (ret, out, w') ∧
    held w refs w' ∧ lookup_result w follow_symlinks ret out refs.
Proof.
  intros Hok Hns HL Hk Hr Hc. unfold com_fs_vfs_lookup.
  apply (lookup_loop_spec w _ L (length path) _ ∅ w path root cwd follow_symlinks Hok Hns Hk HL (held_nil w) Hr Hc); try lia.
  rewrite gmultiset_size_empty. lia.
Qed.

(** C2: A lookup that meets no symbolic link returns what the walk over the
    components of the path gives, from the root for a path that starts with a
    slash and from the working directory for any other: "." and repeated
    slashes change nothing, ".." leaves a mounted file system, a directory
    something is mounted on is replaced by the root mounted there. *)
Theorem com_fs_vfs_lookup_resolves w path root cwd follow_symlinks :
  fs_ok w → ns_ok w → refs_ok w (1 + 2 * length (comps path)) → not_link w root → not_link w cwd →
  let walk := resolve w (start_of path root cwd) (comps path) in
  (∀ n, walk = Found n → ∃ w' refs,
     com_fs_vfs_lookup path root (Some cwd) follow_symlinks w = Ok (E0, Some n, w') ∧ held w refs w' ∧ n ∈ refs) ∧
  (∀ e, walk = Failed e → ∃ w' refs,
     com_fs_vfs_lookup path root (Some cwd) follow_symlinks w = Ok (e, None, w') ∧ held w refs w').
Proof.
  intros Hok Hns Hk Hr Hc walk. destruct (not_link_elim _ _ Hr) as [Hsr Hlr]. destruct (not_link_elim _ _ Hc) as [Hsc Hlc].
  destruct (vfs_lookup1_spec w _ ∅ w path root cwd Hok Hns Hk (held_nil w) Hsr Hsc)
    as (o & w1 & refs1 & Hl & Hh1 & _ & Ho & _); [rewrite gmultiset_size_empty; lia|].
  unfold com_fs_vfs_lookup. cbn [lookup_loop]. rewrite Hl. mstep. fold walk in Ho.
  assert (Hst : type_at w (start_of path root cwd) ≠ Some E_COM_VNODE_TYPE_LINK).
  { unfold start_of. by destruct (is_absolute path). }
  split.
  - intros n Hw. rewrite Hw in Ho. destruct Ho as [-> Hn]. rewrite bool_decide_true by done. cbn [negb]. mstep.
    destruct (held_dom w refs1 w1 n Hh1 Hn) as [vn Hvn]. pose proof (held_lookup _ _ _ _ _ Hh1 Hvn) as Hvn1.
    rewrite Hvn1. mstep. rewrite (held_type w refs1 w1 n _ _ Hh1 Hvn1), (bool_decide_false _ (resolve_found _ _ _ _ Hst Hw)).
    rewrite bool_decide_false by (by intros [? ?]). cbn [orb andb]. by exists w1, refs1.
  - intros e Hw. rewrite Hw in Ho. destruct Ho as [-> He]. rewrite bool_decide_false by done. cbn [negb].
    by exists w1, refs1.
Qed.

(** A lookup of a name in a directory leaves a reference to the directory
    behind: only the vnode found is returned, but both counts have grown, so
    a directory once passed is never released. *)
Theorem lookup_leaks_directory w root d name n vn follow_symlinks :
  fs_ok w → refs_ok w 2 → type_at w d = Some E_COM_VNODE_TYPE_DIR →
  name ≠ [] → Forall (λ c, c ≠ AT_slash) name → is_dot name = false → is_dotdot name = false →
  fs_entry w d name = inl n → n ≠ d → vnodes w !! n = Some vn → mountpointof vn = None →
  type vn ≠ E_COM_VNODE_TYPE_LINK →
  ∃ w', com_fs_vfs_lookup name root (Some d) follow_symlinks w = Ok (E0, Some n, w') ∧
    ∀ m v, vnodes w !! m = Some v →
      vnodes w' !! m = Some (set_num_ref v (num_ref v + if decide (m = n ∨ m = d) then 1 else 0)).
Proof.
  intros Hok Hk (vd & Hvd & Hty)%type_at_Some Hne Hns Hdot Hdd Hent Hnd Hvn Hmp Hlk.
  assert (Hsec : section name = (name, None)).
  { clear -Hns. induction Hns as [|c p Hc _ IH]; [done|]. cbn [section]. rewrite IH.
    by destruct (Z.eqb_spec c AT_slash). }
  assert (Hskip : SKIP_SEPARATORS name = name).
  { destruct Hns as [|c p Hc _]; [done|]. cbn [SKIP_SEPARATORS]. by destruct (Z.eqb_spec c AT_slash). }
  destruct (hold_spec w ∅ w d vd 2 (held_nil w) Hvd Hk) as (w1 & Hho & Hh1); [rewrite gmultiset_size_empty; lia|].
  pose proof (held_lookup _ _ _ _ _ Hh1 Hvd) as Hvd1. pose proof Hh1 as (Hsim & _).
  destruct (fs_lookup_ok w1 d _ name (fs_ok_sim _ _ Hsim Hok) Hvd1 Hty) as (f & Hop & Hspec).
  rewrite <- (fs_entry_sim w w1), Hent in Hspec by done. destruct Hspec as (_ & w2 & Hf & [Hho2|[? _]]); [|done].
  pose proof (hold_held w _ w1 n vn 2 w2 Hh1 Hvn Hk ltac:(rewrite size_add, gmultiset_size_empty; lia) Hho2) as Hh2.
  pose proof (held_lookup _ _ _ _ _ Hh2 Hvn) as Hvn2.
  exists w2. split.
  - assert (Hl1 : vfs_lookup1 name root (Some d) w = Ok ((E0, Some n, None, None), w2)).
    { unfold vfs_lookup1. assert (is_absolute name = false) as ->.
      { destruct name as [|c p]; [done|]. apply Forall_cons in Hns as [Hc _]. cbn. by destruct (Z.eqb_spec c AT_slash). }
      rewrite Hho. mstep. cbn [lookup1_loop]. rewrite Hskip, bool_decide_false, Hsec by done.
      rewrite Hdd. mstep. rewrite Hdot, Hvd1. mstep. cbn [type set_num_ref]. rewrite bool_decide_true by done. cbn [negb].
      rewrite Hop. mstep. rewrite Hf. mstep. rewrite bool_decide_true by done. cbn [negb]. mstep.
      unfold mount_fuel. cbn [enter_mounts]. rewrite Hvn2. mstep. cbn [mountpointof set_num_ref]. rewrite Hmp. mstep.
      rewrite Hvn2. mstep. cbn [type set_num_ref]. by rewrite bool_decide_false. }
    unfold com_fs_vfs_lookup. cbn [lookup_loop]. rewrite Hl1. mstep. rewrite bool_decide_true by done. cbn [negb]. mstep.
    rewrite Hvn2. mstep. cbn [type set_num_ref]. rewrite (bool_decide_false (type vn = _)) by done.
    rewrite bool_decide_false by (by intros [? ?]). done.
  - intros m v Hv. rewrite (held_lookup _ _ _ _ _ Hh2 Hv). do 2 f_equal.
    rewrite !multiplicity_disj_union, multiplicity_empty.
    destruct (decide (m = n)) as [->|Hmn]; [|destruct (decide (m = d)) as [->|Hmd]].
    + rewrite multiplicity_singleton_eq, multiplicity_singleton_ne by done. rewrite decide_True by (by left). lia.
    + rewrite multiplicity_singleton_eq, multiplicity_singleton_ne by done. rewrite decide_True by (by right). lia.
    + rewrite !multiplicity_singleton_ne by done. rewrite decide_False by naive_solver. lia.
Qed.

(** Creating an entry of the root directory, such as "/name", when it is not
    there yet: the directory part of the path is empty, so the new node is
    created in the working directory of the caller. *)
Theorem create_any_root_in_cwd w root cwd v attr err_if_present follow_symlinks create_handler name e w1 :
  name ≠ [] → Forall (λ c, c ≠ AT_slash) name → e ≠ E0 →
  com_fs_vfs_lookup (AT_slash :: name) root (Some cwd) follow_symlinks w = Ok (e, None, w1) →
  vnodes w1 !! cwd = Some v → type v ≠ E_COM_VNODE_TYPE_LINK →
  ∃ w2, COM_FS_VFS_VNODE_HOLD cwd w1 = Ok w2 ∧
    com_fs_vfs_create_any (AT_slash :: name) root (Some cwd) attr err_if_present follow_symlinks create_handler w =
      '(ret, vnode, w3) ← create_handler cwd name attr w2;
      w4 ← COM_FS_VFS_VNODE_RELEASE (Some cwd) w3; Ok (ret, vnode, w4).
Proof.
  intros Hne Hns He Hl Hv Hty.
  unfold com_fs_vfs_create_any. rewrite Hl, res_bind_Ok. rewrite bool_decide_false by done.
  rewrite (path_split_root name Hne Hns). unfold com_fs_vfs_lookup at 1. cbn [lookup_loop length].
  unfold vfs_lookup1. cbn [is_absolute]. destruct (COM_FS_VFS_VNODE_HOLD cwd w1) as [w2| | |] eqn:Hh;
    unfold COM_FS_VFS_VNODE_HOLD in Hh; rewrite Hv in Hh; simpl in Hh; try done.
  injection Hh as <-. eexists. split; [done|]. cbn [lookup1_loop length SKIP_SEPARATORS]. mstep.
  rewrite !bool_decide_true by done. cbn [negb]. mstep. cbn [set_vnodes vnodes]. rewrite lookup_insert_eq. mstep.
  cbn [type set_num_ref]. rewrite (bool_decide_false (type v = _)) by done.
  rewrite (bool_decide_false (is_Some None)) by (by intros [? ?]). cbn [orb andb]. mstep.
  by rewrite bool_decide_true.
Qed.
End resolve.
