(* ===== verification/Tmpfs.v ===== *)
(** * The memory file system, src/com/fs/tmpfs.c

    Nodes and directory entries are records in a store, named by the address
    the slab allocator gave them; a directory is the list of its entries, in
    order; a file is its size and a page cache from page numbers to pages,
    whose bytes are in the kernel's memory ([umem]). The reader-writer lock of
    a node is left out. *)
From S2P Require Import Prelude Mem Str Ioviter PageTree Radixtree Slab Vfs.

(** ** Constants of the C library, whose headers are not part of the kernel *)
Class LibcConsts := {
  S_IFREG : Z; S_IFDIR : Z; S_IFLNK : Z; S_IFSOCK : Z;
  AT_REMOVEDIR : Z;
  DT_UNKNOWN : Z; DT_DIR : Z; DT_REG : Z; DT_LNK : Z; DT_CHR : Z; DT_FIFO : Z; DT_SOCK : Z; DT_BLK : Z }.

Definition COM_FS_TMPFS_ATTR_GHOST : Z := 1.
Definition COM_FS_TMPFS_ATTR_NO_DIRENT : Z := 2.
Definition COM_FS_VFS_VNCTL_GETNAME : Z := 1.

(** The bits of [mask] that are set in [flags]. *)
Definition attr_set (mask flags : Z) : bool := negb (Z.land mask flags =? 0).

(** ** Data *)
Record tmpfs_dir_entry : Type := Dirent { tnode : Z; ent_name : list Z }.

(** The union of [struct tmpfs_node]. [TZero] is memory as the slab allocator
    hands it out. *)
Inductive tmpfs_data : Type :=
  | TZero
  | TDir (entries : list Z)
  | TFile (size : Z) (data : kradixtree)
  | TLink (path : list Z)
  | TOther (ptr : Z).

Record tmpfs_node : Type := Tnode {
  tn_vnode : option Z;
  num_links : Z;
  tn_dirent : option Z;
  tn_parent : option Z;
  tn_data : tmpfs_data }.

Record tmpfs (A : Type) : Type := Tmpfs {
  tnodes : gmap Z tmpfs_node;
  dirents : gmap Z tmpfs_dir_entry;
  cache : pheap;
  tpages : A }.
Arguments Tmpfs {A}.
Arguments tnodes {A}.
Arguments dirents {A}.
Arguments cache {A}.
Arguments tpages {A}.

(** Objects of the x86-64 ABI. *)
Definition sizeof_tmpfs_node : Z := 128.
Definition sizeof_tmpfs_dir_entry : Z := 32.
Definition sizeof_com_vfs : Z := 32.
Definition sizeof_com_dirent : Z := 24.

(** Operation tables by number; see [Vfs.SockfsNodeOps]. *)
Definition TmpfsNodeOps : Z := 2.

(** Reading the union through one of its members. The members overlap: with
    another one stored the read gives what is not of that type. *)
Definition as_dir (d : tmpfs_data) : res (list Z) :=
  match d with TDir es => Ok es | _ => Fault end.
Definition as_file (d : tmpfs_data) : res (Z * option kradixtree) :=
  match d with TFile s c => Ok (s, Some c) | TZero => Ok (0, None) | TOther p => Ok (p, None) | _ => Fault end.
Definition as_link (d : tmpfs_data) : res (list Z) :=
  match d with TLink p => Ok p | _ => Fault end.

Definition set_data (n : tmpfs_node) (d : tmpfs_data) : tmpfs_node :=
  Tnode (tn_vnode n) (num_links n) (tn_dirent n) (tn_parent n) d.
Definition set_parent (n : tmpfs_node) (p : option Z) : tmpfs_node :=
  Tnode (tn_vnode n) (num_links n) (tn_dirent n) p (tn_data n).

(** The page [cur] lies in, as [cur & ~(ARCH_PAGE_SIZE - 1)]. *)
Definition file_page_base (cur : Z) : Z := Z.land cur (Z.lnot (ARCH_PAGE_SIZE - 1)).

Section tmpfs.
Context {S A : Type} `{!SlabAlloc S} `{!PageAlloc A} `{!LibcConsts}.
Implicit Types (w : world S (tmpfs A)).

Definition set_tnode w (n : Z) (t : tmpfs_node) : world S (tmpfs A) :=
  World (vnodes w) (vfss w) (umem w) (objs w)
    (Tmpfs (<[n := t]> (tnodes (fsdata w))) (dirents (fsdata w)) (cache (fsdata w)) (tpages (fsdata w))).
Definition set_dirent w (n : Z) (e : tmpfs_dir_entry) : world S (tmpfs A) :=
  World (vnodes w) (vfss w) (umem w) (objs w)
    (Tmpfs (tnodes (fsdata w)) (<[n := e]> (dirents (fsdata w))) (cache (fsdata w)) (tpages (fsdata w))).
Definition set_cache w (h : pheap) (a : A) : world S (tmpfs A) :=
  World (vnodes w) (vfss w) (umem w) (objs w) (Tmpfs (tnodes (fsdata w)) (dirents (fsdata w)) h a).
Definition set_umem w (m : mem) : world S (tmpfs A) :=
  World (vnodes w) (vfss w) m (objs w) (fsdata w).

(** [vnode->extra] as a [struct tmpfs_node], and its address. *)
Definition tnode_of (node : Z) w : res (com_vnode * tmpfs_node) :=
  v ← deref (vnodes w !! node);
  t ← deref (tnodes (fsdata w) !! extra v);
  Ok (v, t).

Definition obj_alloc (size : Z) w : res (Z * world S (tmpfs A)) :=
  '(p, s) ← sa_alloc size (objs w); Ok (p, set_objs w s).

(** ** Creating nodes *)

(** Returns [*outent] and [*out]. *)
Definition create_common (dir : Z) (name : list Z) (fsattr : Z) (ty : com_vnode_type) w
    : res (option Z * option Z * world S (tmpfs A)) :=
  v ← deref (vnodes w !! dir);
  KASSERT (bool_decide (type v = E_COM_VNODE_TYPE_DIR)) ;;
  '(tn_new, w) ← obj_alloc sizeof_tmpfs_node w;
  let w := set_tnode w tn_new (Tnode None 1 None None TZero) in
  '(dirent, w) ←
    (if attr_set COM_FS_TMPFS_ATTR_NO_DIRENT fsattr then Ok (None, w)
     else
       '(d, w) ← obj_alloc (sizeof_tmpfs_dir_entry + Z.of_nat (length name)) w;
       Ok (Some d, set_dirent w d (Dirent tn_new name)));
  '(_, out, w) ← com_fs_vfs_alloc_vnode (vfs v) ty TmpfsNodeOps tn_new w;
  let w := set_tnode w tn_new (Tnode out 1 dirent None TZero) in
  Ok (dirent, out, w).

(** [TAILQ_INSERT_TAIL(&parent->dir.entries, dirent, entries)] *)
Definition insert_tail (parent dirent : Z) w : res (world S (tmpfs A)) :=
  t ← deref (tnodes (fsdata w) !! parent);
  es ← as_dir (tn_data t);
  Ok (set_tnode w parent (set_data t (TDir (es ++ [dirent])))).

(** The tail of [com_fs_tmpfs_create] and [com_fs_tmpfs_mksocket]: with an
    entry, the node goes into its directory. *)
Definition link_node (dir tn : Z) (dirent : option Z) w : res (world S (tmpfs A)) :=
  match dirent with
  | None => Ok w
  | Some dirent =>
      v ← deref (vnodes w !! dir);
      let parent := extra v in
      w ← insert_tail parent dirent w;
      t ← deref (tnodes (fsdata w) !! tn);
      Ok (set_tnode w tn (set_parent t (Some parent)))
  end.

Definition com_fs_tmpfs_create (dir : Z) (name : list Z) (attr fsattr : Z) w
    : res (errno * option Z * world S (tmpfs A)) :=
  '(dirent, out, w) ← create_common dir name fsattr E_COM_VNODE_TYPE_FILE w;
  o ← deref out;
  '(v, t) ← tnode_of o w;
  w ← (if attr_set COM_FS_TMPFS_ATTR_GHOST fsattr then Ok w
       else
         '(c, h, a) ← com_fs_pagecache_new (cache (fsdata w)) (tpages (fsdata w));
         Ok (set_tnode (set_cache w h a) (extra v) (set_data t (TFile 0 c))));
  w ← link_node dir (extra v) dirent w;
  Ok (E0, out, w).

(** The entry goes into the parent even when there is none. *)
Definition com_fs_tmpfs_mkdir (parent : Z) (name : list Z) (attr fsattr : Z) w
    : res (errno * option Z * world S (tmpfs A)) :=
  '(dirent, out, w) ← create_common parent name fsattr E_COM_VNODE_TYPE_DIR w;
  o ← deref out;
  '(v, t) ← tnode_of o w;
  pv ← deref (vnodes w !! parent);
  let w := set_tnode w (extra v) (set_data (set_parent t (Some (extra pv))) (TDir [])) in
  d ← deref dirent;
  w ← insert_tail (extra pv) d w;
  Ok (E0, out, w).

Definition com_fs_tmpfs_symlink (dir : Z) (linkname path : list Z) w : res (errno * world S (tmpfs A)) :=
  '(dirent, vn, w) ← create_common dir linkname 0 E_COM_VNODE_TYPE_LINK w;
  n ← deref vn;
  '(v, t) ← tnode_of n w;
  '(_, w) ← obj_alloc (Z.of_nat (length path)) w;
  let w := set_tnode w (extra v) (set_data t (TLink path)) in
  d ← deref dirent;
  w ← link_node dir (extra v) (Some d) w;
  Ok (E0, w).

Definition com_fs_tmpfs_mksocket (dir : Z) (name : list Z) (attr fsattr : Z) w
    : res (errno * option Z * world S (tmpfs A)) :=
  '(dirent, out, w) ← create_common dir name fsattr E_COM_VNODE_TYPE_SOCKET w;
  o ← deref out;
  '(v, _) ← tnode_of o w;
  w ← link_node dir (extra v) dirent w;
  Ok (E0, out, w).

Definition com_fs_tmpfs_mount (mp : option Z) w : res (errno * option Z * world S (tmpfs A)) :=
  '(fs, w) ← obj_alloc sizeof_com_vfs w;
  '(tn_root, w) ← obj_alloc sizeof_tmpfs_node w;
  '(_, vn_root, w) ← com_fs_vfs_alloc_vnode (Some fs) E_COM_VNODE_TYPE_DIR TmpfsNodeOps tn_root w;
  r ← deref vn_root;
  v ← deref (vnodes w !! r);
  let w := set_tnode w tn_root (Tnode (Some r) 0 None None (TDir [])) in
  let w := set_vnodes w (<[r := Vnode (mountpointof v) (vfs v) (ops v) (type v) (num_ref v) true (extra v)]> (vnodes w)) in
  let w := World (vnodes w) (<[fs := mkVfs mp r]> (vfss w)) (umem w) (objs w) (fsdata w) in
  w ← match mp with
      | None => Ok w
      | Some mp =>
          m ← deref (vnodes w !! mp);
          KASSERT (bool_decide (type m = E_COM_VNODE_TYPE_DIR)) ;;
          Ok (set_vnodes w (<[mp := Vnode (Some fs) (vfs m) (ops m) (type m) (num_ref m) (isroot m) (extra m)]> (vnodes w)))
      end;
  Ok (E0, Some fs, w).

Definition com_fs_tmpfs_vget (inode : Z) w : res (errno * option Z * world S (tmpfs A)) :=
  t ← deref (tnodes (fsdata w) !! inode);
  match tn_vnode t with
  | None => Ok (ENOENT, None, w)
  | Some v => w ← COM_FS_VFS_VNODE_HOLD v w; Ok (E0, Some v, w)
  end.

(** ** Names *)

(** The loop over the entries of a directory. *)
Fixpoint find_entry (es : list Z) (name : list Z) (ds : gmap Z tmpfs_dir_entry) : res (option Z) :=
  match es with
  | [] => Ok None
  | e :: es =>
      d ← deref (ds !! e);
      if bool_decide (ent_name d = name) then Ok (Some (tnode d)) else find_entry es name ds
  end.

Definition com_fs_tmpfs_lookup (dir : Z) (name : list Z) w : res (errno * option Z * world S (tmpfs A)) :=
  v ← deref (vnodes w !! dir);
  KASSERT (bool_decide (type v = E_COM_VNODE_TYPE_DIR)) ;;
  dir_data ← deref (tnodes (fsdata w) !! extra v);
  if is_dotdot name then
    match tn_parent dir_data with
    | Some p =>
        t ← deref (tnodes (fsdata w) !! p);
        o ← deref (tn_vnode t);
        w ← COM_FS_VFS_VNODE_HOLD o w;
        Ok (E0, Some o, w)
    | None => Ok (E0, Some dir, w)
    end
  else
    es ← as_dir (tn_data dir_data);
    found ← find_entry es name (dirents (fsdata w));
    match found with
    | Some tn =>
        t ← deref (tnodes (fsdata w) !! tn);
        o ← deref (tn_vnode t);
        w ← COM_FS_VFS_VNODE_HOLD o w;
        Ok (E0, Some o, w)
    | None => Ok (ENOENT, None, w)
    end.

Definition com_fs_tmpfs_readlink (link : Z) w : res (errno * option (list Z) * world S (tmpfs A)) :=
  '(v, t) ← tnode_of link w;
  KASSERT (bool_decide (type v = E_COM_VNODE_TYPE_LINK)) ;;
  p ← as_link (tn_data t);
  Ok (E0, Some p, w).

(** [TAILQ_REMOVE]: an entry that is not in the list corrupts it. *)
Fixpoint tailq_remove (es : list Z) (d : Z) : res (list Z) :=
  match es with
  | [] => Fault
  | e :: es => if e =? d then Ok es else es' ← tailq_remove es d; Ok (e :: es')
  end.

Definition com_fs_tmpfs_unlink `{!VnodeTables S (tmpfs A)} (node flags : Z) w : res (errno * world S (tmpfs A)) :=
  '(v, to_unlink_tn) ← tnode_of node w;
  ret ← (if bool_decide (type v = E_COM_VNODE_TYPE_DIR) then
           if negb (attr_set AT_REMOVEDIR flags) then Ok EISDIR
           else
             es ← as_dir (tn_data to_unlink_tn);
             if negb (bool_decide (es = [])) then Ok ENOTEMPTY else Ok E0
         else Ok E0);
  if negb (bool_decide (ret = E0)) then Ok (ret, w)
  else
    match tn_parent to_unlink_tn with
    | None => Ok (E0, w)
    | Some parent_tn =>
        p ← deref (tnodes (fsdata w) !! parent_tn);
        es ← as_dir (tn_data p);
        d ← deref (tn_dirent to_unlink_tn);
        es ← tailq_remove es d;
        let w := set_tnode w parent_tn (set_data p (TDir es)) in
        w ← COM_FS_VFS_VNODE_RELEASE (Some node) w;
        Ok (E0, w)
    end.

(** Returns the name the caller's buffer is made to point to. *)
Definition com_fs_tmpfs_vnctl (node op : Z) w : res (errno * option (list Z) * world S (tmpfs A)) :=
  '(_, t) ← tnode_of node w;
  if op =? COM_FS_VFS_VNCTL_GETNAME then
    match tn_dirent t with
    | Some d => e ← deref (dirents (fsdata w) !! d); Ok (E0, Some (ent_name e), w)
    | None => Ok (E0, Some [], w)
    end
  else Ok (ENOTSUP, None, w).

(** ** File contents *)

(** [com_fs_pagecache_default]: a page it allocates is zero. *)
Definition cache_page (data : kradixtree) (index : Z) w : res (Z * world S (tmpfs A)) :=
  present ← com_fs_pagecache_get data index (cache (fsdata w));
  '(page, h, a) ← com_fs_pagecache_default data index (cache (fsdata w)) (tpages (fsdata w));
  let w := set_cache w h a in
  match present with
  | Some _ => Ok (page, w)
  | None => Ok (page, set_umem w (kmemset page ARCH_PAGE_SIZE 0 (umem w)).2)
  end.

(** The end of the part of a transfer that lies in the page of [cur]. *)
Definition chunk_end (cur limit : Z) : Z :=
  let e := u64 (file_page_base cur + ARCH_PAGE_SIZE) in
  if limit <? e then limit else e.

Fixpoint read_loop (fuel : nat) (buf off limit : Z) (data : option kradixtree) (cur read_count : Z) w
    : res (Z * world S (tmpfs A)) :=
  match fuel with
  | O => Fuel
  | Datatypes.S fuel =>
      if cur <? limit then
        c ← deref data;
        page ← com_fs_pagecache_get c (cur / ARCH_PAGE_SIZE) (cache (fsdata w));
        let e := chunk_end cur limit in
        let m := match page with
                 | Some page => (kmemcpy (buf + (cur - off)) (page + cur mod ARCH_PAGE_SIZE) (e - cur) (umem w)).2
                 | None => (kmemset (buf + (cur - off)) (e - cur) 0 (umem w)).2
                 end in
        read_loop fuel buf off limit data e (u64 (read_count + (e - cur))) (set_umem w m)
      else Ok (read_count, w)
  end.

(** One turn per page, the first and the last one possibly in part. *)
Definition io_fuel (buflen : Z) : nat := Z.to_nat (buflen / ARCH_PAGE_SIZE + 3).

Definition com_fs_tmpfs_read (buf buflen node off flags : Z) w : res (errno * option Z * world S (tmpfs A)) :=
  v ← deref (vnodes w !! node);
  if bool_decide (type v = E_COM_VNODE_TYPE_DIR) then Ok (EISDIR, None, w)
  else
    file ← deref (tnodes (fsdata w) !! extra v);
    '(size, data) ← as_file (tn_data file);
    if size <=? off then Ok (E0, Some 0, w)
    else
      let buflen := if size <=? u64 (off + buflen) then (if off <? size then size - off else 0) else buflen in
      if buflen =? 0 then Ok (E0, Some 0, w)
      else
        '(n, w) ← read_loop (io_fuel buflen) buf off (u64 (off + buflen)) data off 0 w;
        Ok (E0, Some n, w).

Fixpoint write_loop (fuel : nat) (buf off limit : Z) (data : option kradixtree) (cur write_count : Z) w
    : res (Z * world S (tmpfs A)) :=
  match fuel with
  | O => Fuel
  | Datatypes.S fuel =>
      if cur <? limit then
        c ← deref data;
        '(page, w) ← cache_page c (cur / ARCH_PAGE_SIZE) w;
        let e := chunk_end cur limit in
        let m := (kmemcpy (page + cur mod ARCH_PAGE_SIZE) (buf + (cur - off)) (e - cur) (umem w)).2 in
        write_loop fuel buf off limit data e (u64 (write_count + (e - cur))) (set_umem w m)
      else Ok (write_count, w)
  end.

Definition com_fs_tmpfs_write (node buf buflen off flags : Z) w : res (errno * option Z * world S (tmpfs A)) :=
  v ← deref (vnodes w !! node);
  if bool_decide (type v = E_COM_VNODE_TYPE_DIR) then Ok (EISDIR, None, w)
  else if buflen =? 0 then Ok (E0, None, w)
  else
    file ← deref (tnodes (fsdata w) !! extra v);
    '(size, data) ← as_file (tn_data file);
    let limit := u64 (off + buflen) in
    let w := if size <? limit
             then set_tnode w (extra v) (set_data file (match data with Some c => TFile limit c | None => TOther limit end))
             else w in
    '(n, w) ← write_loop (io_fuel buflen) buf off limit data off 0 w;
    Ok (E0, Some n, w).

Definition com_fs_tmpfs_truncate (node size : Z) w : res (errno * world S (tmpfs A)) :=
  v ← deref (vnodes w !! node);
  if bool_decide (type v = E_COM_VNODE_TYPE_DIR) then Ok (EISDIR, w)
  else
    file ← deref (tnodes (fsdata w) !! extra v);
    '(_, data) ← as_file (tn_data file);
    Ok (E0, set_tnode w (extra v) (set_data file (match data with Some c => TFile size c | None => TOther size end))).

(** ** Status and listing *)

(** The last branch's [KASSERT] is of a string constant, which is true. *)
Definition com_fs_tmpfs_stat (out : stat) (node : Z) w : res (errno * stat * world S (tmpfs A)) :=
  '(v, file) ← tnode_of node w;
  let mode := 448 in
  out ← (match type v with
         | E_COM_VNODE_TYPE_FILE =>
             '(size, _) ← as_file (tn_data file);
             Ok (mkStat 512 (extra v) (Z.lor mode S_IFREG) size ((size + 511) / 512) (st_nlink out))
         | E_COM_VNODE_TYPE_DIR =>
             Ok (mkStat 512 (extra v) (Z.lor mode S_IFDIR) (st_size out) (st_blocks out) (st_nlink out))
         | E_COM_VNODE_TYPE_LINK =>
             Ok (mkStat 512 (extra v) (Z.lor mode S_IFLNK) (st_size out) (st_blocks out) (st_nlink out))
         | E_COM_VNODE_TYPE_SOCKET =>
             Ok (mkStat 512 (extra v) (Z.lor mode S_IFSOCK) (st_size out) (st_blocks out) (st_nlink out))
         | _ => Ok (mkStat 512 (extra v) mode (st_size out) (st_blocks out) (st_nlink out))
         end);
  Ok (E0, mkStat (st_blksize out) (st_ino out) (st_mode out) (st_size out) (st_blocks out) 1, w).

(** A [com_dirent_t] with its name and a terminating zero. *)
Definition put_dirent (buf ino off reclen ty : Z) (name : list Z) (m : mem) : mem :=
  wr_bytes m buf (le_bytes 8 ino ++ le_bytes 8 off ++ le_bytes 2 reclen ++ le_bytes 1 ty ++ name ++ [0]).

Definition dirent_type (t : tmpfs_node) w : res Z :=
  match tn_vnode t with
  | None => Ok DT_UNKNOWN
  | Some n =>
      v ← deref (vnodes w !! n);
      Ok (match type v with
          | E_COM_VNODE_TYPE_DIR => DT_DIR
          | E_COM_VNODE_TYPE_FILE => DT_REG
          | E_COM_VNODE_TYPE_LINK => DT_LNK
          | E_COM_VNODE_TYPE_CHARDEV => DT_CHR
          | E_COM_VNODE_TYPE_FIFO => DT_FIFO
          | E_COM_VNODE_TYPE_SOCKET => DT_SOCK
          | E_COM_VNODE_TYPE_BLOCKDEV => DT_BLK
          end)
  end.

Definition com_fs_tmpfs_readdir (buf buflen dir off : Z) w : res (errno * option Z * world S (tmpfs A)) :=
  v ← deref (vnodes w !! dir);
  if negb (bool_decide (type v = E_COM_VNODE_TYPE_DIR)) then Ok (ENOTDIR, None, w)
  else if buflen =? 0 then Ok (E0, None, w)
  else
    node ← deref (tnodes (fsdata w) !! extra v);
    if off =? 0 then
      if buflen <? sizeof_com_dirent + 2 then Ok (EOVERFLOW, None, w)
      else
        let reclen := sizeof_com_dirent + 2 in
        Ok (E0, Some reclen, set_umem w (put_dirent buf (extra v) 0 reclen DT_DIR [46] (umem w)))
    else if off =? 1 then
      if buflen <? sizeof_com_dirent + 3 then Ok (EOVERFLOW, None, w)
      else
        let reclen := sizeof_com_dirent + 3 in
        Ok (E0, Some reclen,
            set_umem w (put_dirent buf (default 0 (tn_parent node)) 1 reclen DT_DIR [46; 46] (umem w)))
    else
      es ← as_dir (tn_data node);
      match es !! Z.to_nat (off - 2) with
      | None => Ok (E0, Some 0, w)
      | Some cur =>
          d ← deref (dirents (fsdata w) !! cur);
          let req_size := sizeof_com_dirent + Z.of_nat (length (ent_name d)) + 1 in
          if buflen <? req_size then Ok (EOVERFLOW, None, w)
          else
            t ← deref (tnodes (fsdata w) !! tnode d);
            ty ← dirent_type t w;
            Ok (E0, Some req_size, set_umem w (put_dirent buf (tnode d) off req_size ty (ent_name d) (umem w)))
      end.

(** ** Nodes that carry another object

    The pointer shares its word with the size of a file. *)
Definition com_fs_tmpfs_set_other (vnode data : Z) w : res (world S (tmpfs A)) :=
  '(v, t) ← tnode_of vnode w;
  d ← (match tn_data t with
       | TZero | TOther _ => Ok (TOther data)
       | TFile _ c => Ok (TFile data c)
       | _ => Fault
       end);
  Ok (set_tnode w (extra v) (set_data t d)).

Definition com_fs_tmpfs_get_other (vnode : Z) w : res Z :=
  '(_, t) ← tnode_of vnode w;
  '(p, _) ← as_file (tn_data t);
  Ok p.

(** ** The operation table

    Releasing the last reference looks up the [close] entry only, which tmpfs
    leaves NULL. The [mmap] entry is not modelled. *)
Definition no_ops : com_vnode_ops S (tmpfs A) :=
  VnodeOps _ _ None None None None None None None None None None None None None None None None None None
    None None None None None.
Definition close_tables : VnodeTables S (tmpfs A) := λ _, no_ops.

Definition tmpfs_node_ops : com_vnode_ops S (tmpfs A) :=
  VnodeOps _ _ None (Some com_fs_tmpfs_lookup) (Some com_fs_tmpfs_create) (Some com_fs_tmpfs_mkdir) None
    (Some (com_fs_tmpfs_unlink (VnodeTables0 := close_tables))) (Some com_fs_tmpfs_read) (Some com_fs_tmpfs_write) None None
    (Some com_fs_tmpfs_symlink) (Some com_fs_tmpfs_readlink) (Some com_fs_tmpfs_readdir) None None
    (Some com_fs_tmpfs_stat) (Some com_fs_tmpfs_truncate) (Some com_fs_tmpfs_vnctl) None None None
    (Some com_fs_tmpfs_mksocket) None.

(** A kernel whose only file system is tmpfs. *)
#[export] Instance tmpfs_tables : VnodeTables S (tmpfs A) :=
  λ tab, if tab =? TmpfsNodeOps then tmpfs_node_ops else no_ops.
End tmpfs.

(** ** The name space of tmpfs *)

(** Every vnode is a tmpfs node's, which names it back; directories and links
    have the operations of tmpfs, other nodes may have those of a device;
    directories hold entries of existing nodes, links hold a path. *)
Record tmpfs_ns {S A} (w : world S (tmpfs A)) : Prop := {
  tn_of : ∀ n v, vnodes w !! n = Some v →
    (type v = E_COM_VNODE_TYPE_DIR ∨ type v = E_COM_VNODE_TYPE_LINK → ops v = TmpfsNodeOps) ∧
    ∃ t, tnodes (fsdata w) !! extra v = Some t ∧ tn_vnode t = Some n ∧
      (type v = E_COM_VNODE_TYPE_DIR → ∃ es, tn_data t = TDir es) ∧
      (type v = E_COM_VNODE_TYPE_LINK → ∃ p, tn_data t = TLink p);
  tn_ents : ∀ x t es e, tnodes (fsdata w) !! x = Some t → tn_data t = TDir es → e ∈ es →
    ∃ d c o, dirents (fsdata w) !! e = Some d ∧ tnodes (fsdata w) !! tnode d = Some c ∧
      tn_vnode c = Some o ∧ is_Some (vnodes w !! o);
  tn_par : ∀ x t p, tnodes (fsdata w) !! x = Some t → tn_parent t = Some p →
    ∃ c o, tnodes (fsdata w) !! p = Some c ∧ tn_vnode c = Some o ∧ is_Some (vnodes w !! o) }.

(** The vnode a name of a directory stands for. *)
Definition tmpfs_entry {S A} (w : world S (tmpfs A)) (d : Z) (name : list Z) : Z + errno :=
  let tn := v ← vnodes w !! d; tnodes (fsdata w) !! extra v in
  let found :=
    if is_dotdot name then
      match tn ≫= tn_parent with
      | Some p => tnodes (fsdata w) !! p ≫= tn_vnode
      | None => Some d
      end
    else
      t ← tn;
      match tn_data t with
      | TDir es =>
          match find_entry es name (dirents (fsdata w)) with
          | Ok (Some c) => tnodes (fsdata w) !! c ≫= tn_vnode
          | _ => None
          end
      | _ => None
      end in
  match found with Some n => inl n | None => inr ENOENT end.

Definition tmpfs_target {S A} (w : world S (tmpfs A)) (n : Z) : list Z :=
  match v ← vnodes w !! n; tnodes (fsdata w) !! extra v with
  | Some t => match tn_data t with TLink p => p | _ => [] end
  | None => []
  end.

Section tmpfs_ns_lemmas.
Context {S A : Type} `{!SlabAlloc S} `{!PageAlloc A} `{!LibcConsts}.
Implicit Types (w : world S (tmpfs A)).

Lemma sim_tnode w w' n : sim w w' →
  (v ← vnodes w !! n; tnodes (fsdata w) !! extra v) = (v ← vnodes w' !! n; tnodes (fsdata w') !! extra v).
Proof.
  intros Hs. pose proof (sim_fields w w' Hs) as (_ & _ & _ & Hf & _). rewrite Hf.
  destruct (vnodes w !! n) as [v|] eqn:Hv.
  - destruct (sim_lookup w w' n v Hs Hv) as [r ->]. done.
  - destruct (vnodes w' !! n) as [v'|] eqn:Hv'; [|done]. symmetry in Hs.
    destruct (sim_lookup w' w n v' Hs Hv') as [r Hr]. congruence.
Qed.

Lemma tmpfs_ns_sim w w' : sim w w' → tmpfs_ns w → tmpfs_ns w'.
Proof.
  intros Hs [Hof Hen Hpa]. pose proof (sim_fields w w' Hs) as (_ & _ & _ & Hf & _).
  assert (Hvn : ∀ o, is_Some (vnodes w !! o) → is_Some (vnodes w' !! o)).
  { intros o [v Hv]. destruct (sim_lookup w w' o v Hs Hv) as [r ->]. by eexists. }
  split; rewrite <- Hf.
  - intros n v' Hv'. symmetry in Hs. destruct (sim_lookup w' w n v' Hs Hv') as [r Hr]. exact (Hof n _ Hr).
  - intros x t es e Ht Hd He. destruct (Hen x t es e Ht Hd He) as (d & c & o & ?&?&?&?). exists d, c, o. auto.
  - intros x t p Ht Hp. destruct (Hpa x t p Ht Hp) as (c & o & ?&?&?). exists c, o. auto.
Qed.

Lemma tmpfs_entry_sim w w' d name : sim w w' → tmpfs_entry w d name = tmpfs_entry w' d name.
Proof.
  intros Hs. unfold tmpfs_entry. rewrite (sim_tnode w w' d Hs).
  pose proof (sim_fields w w' Hs) as (_ & _ & _ & -> & _). done.
Qed.

Lemma tmpfs_target_sim w w' n : sim w w' → tmpfs_target w n = tmpfs_target w' n.
Proof. intros Hs. unfold tmpfs_target. by rewrite (sim_tnode w w' n Hs). Qed.

(** A search of well-formed entries ends at an entry of the list or finds none. *)
Lemma find_entry_ok (ds : gmap Z tmpfs_dir_entry) es name :
  (∀ e, e ∈ es → is_Some (ds !! e)) →
  ∃ r, find_entry es name ds = Ok r ∧
    match r with
    | Some c => ∃ e d, e ∈ es ∧ ds !! e = Some d ∧ ent_name d = name ∧ tnode d = c
    | None => ∀ e d, e ∈ es → ds !! e = Some d → ent_name d ≠ name
    end.
Proof.
  induction es as [|e es IH]; intros Hes; cbn [find_entry].
  { exists None. split; [done|]. intros e d He. by apply elem_of_nil in He. }
  destruct (Hes e) as [d Hd]; [apply list_elem_of_here|]. rewrite Hd. mstep. case_bool_decide as Hn.
  - exists (Some (tnode d)). split; [done|]. exists e, d. split_and!; [apply list_elem_of_here|done..].
  - destruct IH as (r & -> & Hr); [intros; apply Hes; by apply list_elem_of_further|]. exists r. split; [done|].
    destruct r as [c|].
    + destruct Hr as (e' & d' & ? & ?). exists e', d'. split; [by apply list_elem_of_further|done].
    + intros e' d' [->|He]%elem_of_cons Hd'; [by simplify_eq|by eapply Hr].
Qed.

Lemma hold_ok w o : is_Some (vnodes w !! o) → ∃ w', COM_FS_VFS_VNODE_HOLD o w = Ok w'.
Proof. intros [v Hv]. unfold COM_FS_VFS_VNODE_HOLD. rewrite Hv. by eexists. Qed.

Lemma tmpfs_lookup_ok w d v name :
  tmpfs_ns w → vnodes w !! d = Some v → type v = E_COM_VNODE_TYPE_DIR →
  match tmpfs_entry w d name with
  | inr e => e ≠ E0 ∧ com_fs_tmpfs_lookup d name w = Ok (e, None, w)
  | inl n => is_Some (vnodes w !! n) ∧ ∃ w', com_fs_tmpfs_lookup d name w = Ok (E0, Some n, w') ∧
      (COM_FS_VFS_VNODE_HOLD n w = Ok w' ∨ n = d ∧ w' = w)
  end.
Proof.
  intros Hns Hv Hty. destruct (tn_of w Hns d v Hv) as (_ & t & Ht & Htv & Hdir & _).
  destruct (Hdir Hty) as [es Hes]. unfold tmpfs_entry, com_fs_tmpfs_lookup. rewrite Hv. mstep. cbn [option_bind].
  rewrite bool_decide_true by done. mstep. rewrite Ht. mstep. cbn [option_bind]. destruct (is_dotdot name).
  - destruct (tn_parent t) as [p|] eqn:Hp; cbn [mbind option_bind].
    + destruct (tn_par w Hns _ t p Ht Hp) as (c & o & Hc & Hco & Ho). rewrite Hc. cbn [mbind option_bind]. rewrite Hco. mstep.
      destruct (hold_ok w o Ho) as [w' Hw']. split; [done|]. exists w'. rewrite ?Hc. mstep. rewrite ?Hco. mstep. rewrite Hw'. mstep. auto.
    + split; [by eexists|]. exists w. auto.
  - rewrite Hes. mstep. cbn [as_dir]. mstep.
    destruct (find_entry_ok (dirents (fsdata w)) es name) as (r & Hf & Hr).
    { intros e He. destruct (tn_ents w Hns _ t es e Ht Hes He) as (? & ? & ? & -> & _). by eexists. }
    rewrite Hf. mstep. destruct r as [c|]; [|done]. destruct Hr as (e & dd & He & Hdd & _ & <-).
    destruct (tn_ents w Hns _ t es e Ht Hes He) as (d' & c & o & Hd' & Hc & Hco & Ho). simplify_eq.
    rewrite Hc. cbn [mbind option_bind]. rewrite Hco. split; [done|].
    destruct (hold_ok w o Ho) as [w' Hw']. exists w'. rewrite ?Hc. mstep. rewrite ?Hco. mstep. rewrite Hw'. mstep. auto.
Qed.

Lemma tmpfs_readlink_ok w n v :
  tmpfs_ns w → vnodes w !! n = Some v → type v = E_COM_VNODE_TYPE_LINK →
  com_fs_tmpfs_readlink n w = Ok (E0, Some (tmpfs_target w n), w).
Proof.
  intros Hns Hv Hty. destruct (tn_of w Hns n v Hv) as (_ & t & Ht & _ & _ & Hlk). destruct (Hlk Hty) as [p Hp].
  unfold com_fs_tmpfs_readlink, tmpfs_target, tnode_of. rewrite Hv. mstep. cbn [option_bind]. rewrite Ht. mstep.
  rewrite bool_decide_true by done. mstep. by rewrite Hp.
Qed.

#[export] Program Instance tmpfs_FsLookup : FsLookup S (tmpfs A) := {
  fs_ok := tmpfs_ns;
  fs_entry := tmpfs_entry;
  fs_target := tmpfs_target;
  fs_ok_sim := tmpfs_ns_sim;
  fs_entry_sim := tmpfs_entry_sim;
  fs_target_sim := tmpfs_target_sim }.
Next Obligation.
  intros w d v name Hns Hv Hty. destruct (tn_of w Hns d v Hv) as (Hops & _).
  exists com_fs_tmpfs_lookup. split; [|by eapply tmpfs_lookup_ok].
  by rewrite Hops by auto.
Qed.
Next Obligation.
  intros w n v Hns Hv Hty. destruct (tn_of w Hns n v Hv) as (Hops & _).
  exists com_fs_tmpfs_readlink. split; [|by eapply tmpfs_readlink_ok].
  by rewrite Hops by auto.
Qed.
End tmpfs_ns_lemmas.

(** ** File contents as a sequence of bytes *)

(** The byte of a file at an offset: a page that was never written is zero. *)
Definition byte_at (m : mem) (h : pheap) (c : kradixtree) (o : Z) : Z :=
  match rx_lookup c h (o / ARCH_PAGE_SIZE) with
  | Some p => m (p + o mod ARCH_PAGE_SIZE)
  | None => 0
  end.
Definition file_byte {S A} (w : world S (tmpfs A)) (c : kradixtree) (o : Z) : Z :=
  byte_at (umem w) (cache (fsdata w)) c o.

(** The offsets a page cache of four layers tells apart. *)
Definition FILE_SPAN : Z := 2 ^ 48.

(** The page cache is well formed, its pages were allocated and are distinct. *)
Record file_ok {S A} `{!PageAlloc A} (w : world S (tmpfs A)) (c : kradixtree) : Prop := {
  fo_wf : rx_wf c (cache (fsdata w)) (tpages (fsdata w));
  fo_layers : num_layers c = 4%nat;
  fo_pages : ∀ i p, rx_lookup c (cache (fsdata w)) i = Some p →
    ∃ q, valid_phys q ∧ p = ARCH_PHYS_TO_HHDM q ∧ pa_taken (tpages (fsdata w)) q;
  fo_inj : ∀ i j p, 0 ≤ i < 2 ^ 36 → 0 ≤ j < 2 ^ 36 → rx_lookup c (cache (fsdata w)) i = Some p →
    rx_lookup c (cache (fsdata w)) j = Some p → i = j }.

(** The node pages of a page cache's tree. *)
Definition cache_node {S A} (w : world S (tmpfs A)) (c : kradixtree) (r : Z) : Prop :=
  tree_page rx_next (cache (fsdata w)) (back c) (num_layers c - 1) r.

(** Two page caches share neither nodes nor pages. *)
Record files_apart {S A} (w : world S (tmpfs A)) (c d : kradixtree) : Prop := {
  fa_nodes : ∀ r, cache_node w c r → ¬ cache_node w d r;
  fa_pages : ∀ i j p, rx_lookup c (cache (fsdata w)) i = Some p → rx_lookup d (cache (fsdata w)) j ≠ Some p }.

(** What changes to the file of [c] leave alone: the pages of the heap that
    are no nodes of its tree, and the memory of the pages in use that are not
    in its cache; the pages its cache gains were not in use. *)
Record file_frame {S A} `{!PageAlloc A} (w : world S (tmpfs A)) (c : kradixtree) (w' : world S (tmpfs A)) : Prop := {
  ff_heap : ∀ r, is_Some (cache (fsdata w) !! r) → ¬ cache_node w c r →
    cache (fsdata w') !! r = cache (fsdata w) !! r ∧ ¬ cache_node w' c r;
  ff_taken : ∀ q, pa_taken (tpages (fsdata w)) q → pa_taken (tpages (fsdata w')) q;
  ff_gained : ∀ i p, rx_lookup c (cache (fsdata w')) i = Some p → rx_lookup c (cache (fsdata w)) i = Some p ∨
    ∃ q, valid_phys q ∧ p = ARCH_PHYS_TO_HHDM q ∧ ¬ pa_taken (tpages (fsdata w)) q;
  ff_mem : ∀ q x, valid_phys q → pa_taken (tpages (fsdata w)) q → 0 ≤ x < ARCH_PAGE_SIZE →
    (∀ i, rx_lookup c (cache (fsdata w)) i ≠ Some (ARCH_PHYS_TO_HHDM q)) →
    umem w' (ARCH_PHYS_TO_HHDM q + x) = umem w (ARCH_PHYS_TO_HHDM q + x);
  ff_low : ∀ a, a < HHDM_BASE → umem w' a = umem w a }.

(** The same world but for memory and page cache. *)
Definition data_only {S A} (w w' : world S (tmpfs A)) : Prop :=
  vnodes w' = vnodes w ∧ vfss w' = vfss w ∧ objs w' = objs w ∧
  tnodes (fsdata w') = tnodes (fsdata w) ∧ dirents (fsdata w') = dirents (fsdata w).

#[export] Instance data_only_preorder {S A} : PreOrder (@data_only S A).
Proof. split; [done|]. intros w1 w2 w3 (?&?&?&?&?) (?&?&?&?&?). split_and!; congruence. Qed.

Lemma page_offsets o : 0 ≤ o → o = ARCH_PAGE_SIZE * (o / ARCH_PAGE_SIZE) + o mod ARCH_PAGE_SIZE ∧ 0 ≤ o mod ARCH_PAGE_SIZE < ARCH_PAGE_SIZE.
Proof. intros. unfold ARCH_PAGE_SIZE. pose proof (Z.div_mod o 4096 ltac:(done)). pose proof (Z.mod_pos_bound o 4096 ltac:(done)). lia. Qed.

(** Moving inside the page of [cur]. *)
Lemma page_inside cur k :
  0 ≤ cur → 0 ≤ k → cur mod ARCH_PAGE_SIZE + k < ARCH_PAGE_SIZE →
  (cur + k) / ARCH_PAGE_SIZE = cur / ARCH_PAGE_SIZE ∧ (cur + k) mod ARCH_PAGE_SIZE = cur mod ARCH_PAGE_SIZE + k.
Proof.
  intros Hc Hk Hlt. destruct (page_offsets cur Hc) as [Hd Hm]. split; symmetry.
  - apply (Z.div_unique_pos _ _ _ (cur mod ARCH_PAGE_SIZE + k)); lia.
  - apply (Z.mod_unique_pos _ _ (cur / ARCH_PAGE_SIZE)); lia.
Qed.

Lemma chunk_end_eq cur limit :
  0 ≤ cur → cur < 2 ^ 63 → chunk_end cur limit = Z.min limit (ARCH_PAGE_SIZE * (cur / ARCH_PAGE_SIZE + 1)).
Proof.
  intros Hc Hlt. unfold chunk_end, file_page_base. destruct (page_offsets cur Hc) as [Hd Hm].
  assert (Z.land cur (Z.lnot (ARCH_PAGE_SIZE - 1)) = ARCH_PAGE_SIZE * (cur / ARCH_PAGE_SIZE)) as ->.
  { rewrite <- Z.ldiff_land. change (ARCH_PAGE_SIZE - 1) with (Z.ones 12). rewrite Z.ldiff_ones_r by lia.
    rewrite Z.shiftr_div_pow2, Z.shiftl_mul_pow2 by lia. change (2 ^ 12) with ARCH_PAGE_SIZE. lia. }
  unfold ARCH_PAGE_SIZE in *. rewrite wrap_small by lia. destruct (Z.ltb_spec limit (4096 * (cur / 4096) + 4096)); lia.
Qed.

(** The bounds of one part of a transfer. *)
Lemma chunk_bounds cur limit :
  0 ≤ cur < limit → limit < 2 ^ 63 →
  let e := chunk_end cur limit in
  cur < e ≤ limit ∧ cur mod ARCH_PAGE_SIZE + (e - cur) ≤ ARCH_PAGE_SIZE ∧
  (e < limit → e / ARCH_PAGE_SIZE = cur / ARCH_PAGE_SIZE + 1).
Proof.
  intros Hc Hl e. unfold e. rewrite chunk_end_eq by lia. destruct (page_offsets cur) as [Hd Hm]; [lia|].
  split_and!; [lia|lia|lia|]. intros He. rewrite Z.min_r in * by lia.
  rewrite Z.mul_comm. by apply Z.div_mul.
Qed.

Lemma hhdm_base_le q : valid_phys q → HHDM_BASE ≤ ARCH_PHYS_TO_HHDM q.
Proof. intros Hq. rewrite valid_phys_hhdm by done. destruct Hq. lia. Qed.

(** Distinct pages do not overlap. *)
Lemma pages_apart q r x : valid_phys q → valid_phys r → q ≠ r → 0 ≤ x < ARCH_PAGE_SIZE →
  ¬ (ARCH_PHYS_TO_HHDM r ≤ ARCH_PHYS_TO_HHDM q + x < ARCH_PHYS_TO_HHDM r + ARCH_PAGE_SIZE).
Proof.
  intros Hq Hr Hne Hx. rewrite !valid_phys_hhdm by done. destruct Hq as [_ Hq], Hr as [_ Hr].
  unfold ARCH_PAGE_SIZE in *. apply Z.mod_divide in Hq as [a ->]; [|done]. apply Z.mod_divide in Hr as [b ->]; [|done]. lia.
Qed.

Section data_lemmas.
Context {S A : Type} `{!SlabAlloc S} `{!PageAlloc A} `{!LibcConsts}.
Implicit Types (w : world S (tmpfs A)).

Lemma file_index o : 0 ≤ o < FILE_SPAN → 0 ≤ o / ARCH_PAGE_SIZE < 2 ^ 36.
Proof. unfold FILE_SPAN, ARCH_PAGE_SIZE. intros. split; [apply Z.div_pos; lia|apply Z.div_lt_upper_bound; lia]. Qed.

Lemma file_span w c : file_ok w c → rx_span c = 2 ^ 36.
Proof. intros Hc. unfold rx_span. by rewrite (fo_layers w c Hc). Qed.

(** What [com_fs_tmpfs_read] has stored after [n] bytes. *)
Definition stored w0 c (buf off n : Z) (m : mem) : Prop :=
  ∀ a, m a = if in_range a buf n then file_byte w0 c (off + (a - buf)) else umem w0 a.

(** A buffer clear of the pages of a file. *)
Definition clear_of_pages w c (buf n : Z) : Prop :=
  ∀ i p, rx_lookup c (cache (fsdata w)) i = Some p → p + ARCH_PAGE_SIZE ≤ buf ∨ buf + n ≤ p.

Lemma low_clear w c buf n : file_ok w c → buf + n ≤ HHDM_BASE → clear_of_pages w c buf n.
Proof.
  intros Hf Hb i p Hp. right. destruct (fo_pages w c Hf _ _ Hp) as (q & Hq & -> & _). pose proof (hhdm_base_le q Hq). lia.
Qed.

(** One part of a read. *)
Lemma read_step w0 c buf off cur limit m page :
  file_ok w0 c → 0 ≤ off ≤ cur → cur < limit → limit ≤ FILE_SPAN → clear_of_pages w0 c buf (limit - off) →
  stored w0 c buf off (cur - off) m → rx_lookup c (cache (fsdata w0)) (cur / ARCH_PAGE_SIZE) = page →
  let e := chunk_end cur limit in
  stored w0 c buf off (e - off)
    match page with
    | Some page => (kmemcpy (buf + (cur - off)) (page + cur mod ARCH_PAGE_SIZE) (e - cur) m).2
    | None => (kmemset (buf + (cur - off)) (e - cur) 0 m).2
    end.
Proof.
  intros Hf Hc Hl Hs Hb Hst Hpg e. unfold FILE_SPAN in Hs.
  destruct (chunk_bounds cur limit) as (He & Hin & _); [lia..|]. fold e in He, Hin.
  assert (Hfb : ∀ k, 0 ≤ k < e - cur → file_byte w0 c (cur + k) =
    match page with Some p => umem w0 (p + cur mod ARCH_PAGE_SIZE + k) | None => 0 end).
  { intros k Hk. unfold file_byte, byte_at. destruct (page_inside cur k) as [-> ->]; [lia..|]. rewrite Hpg.
    destruct page; [|done]. f_equal. lia. }
  intros a. destruct page as [p|].
  - destruct (fo_pages w0 c Hf _ _ Hpg) as (q & Hq & -> & _). pose proof (Hb _ _ Hpg) as Hclr.
    destruct (page_offsets cur) as [_ Hm]; [lia|].
    rewrite kmemcpy_lookup by (unfold ARCH_PAGE_SIZE in *; lia). destruct (in_range_spec a (buf + (cur - off)) (e - cur)) as [Hr|Hr].
    + destruct (in_range_spec a buf (e - off)); [|lia]. rewrite Hst.
      destruct (in_range_spec (ARCH_PHYS_TO_HHDM q + cur mod ARCH_PAGE_SIZE + (a - (buf + (cur - off)))) buf (cur - off)); [lia|].
      replace (off + (a - buf)) with (cur + (a - (buf + (cur - off)))) by lia. rewrite Hfb by lia. done.
    + rewrite Hst. destruct (in_range_spec a buf (cur - off)), (in_range_spec a buf (e - off)); try done; lia.
  - rewrite kmemset_lookup by lia. destruct (in_range_spec a (buf + (cur - off)) (e - cur)) as [Hr|Hr].
    + destruct (in_range_spec a buf (e - off)); [|lia].
      replace (off + (a - buf)) with (cur + (a - (buf + (cur - off)))) by lia. by rewrite Hfb by lia.
    + rewrite Hst. destruct (in_range_spec a buf (cur - off)), (in_range_spec a buf (e - off)); try done; lia.
Qed.

(** Turns enough for what is left of a transfer. *)
Definition turns_ok (fuel : nat) (cur limit : Z) : Prop :=
  1 ≤ Z.of_nat fuel ∧ (cur < limit → limit ≤ ARCH_PAGE_SIZE * (cur / ARCH_PAGE_SIZE + Z.of_nat fuel - 1)).

Lemma turns_ok_step fuel cur limit :
  turns_ok (Datatypes.S fuel) cur limit → 0 ≤ cur < limit → limit < 2 ^ 63 → turns_ok fuel (chunk_end cur limit) limit.
Proof.
  intros [H1 H2] Hc Hl. specialize (H2 ltac:(lia)). destruct (chunk_bounds cur limit) as (He & _ & Hnext); [lia..|].
  destruct (page_offsets cur) as [Hd Hm]; [lia|]. unfold turns_ok, ARCH_PAGE_SIZE in *. split; [nia|].
  intros Hlt. rewrite Hnext by done. lia.
Qed.

Lemma turns_ok_start off buflen : 0 ≤ off → 0 ≤ buflen → turns_ok (io_fuel buflen) off (off + buflen).
Proof.
  intros Ho Hb. unfold turns_ok, io_fuel. destruct (page_offsets off Ho) as [Hd Hm].
  destruct (page_offsets buflen Hb) as [Hd' Hm']. unfold ARCH_PAGE_SIZE in *.
  assert (0 ≤ buflen / 4096) by (apply Z.div_pos; lia). rewrite Z2Nat.id by lia. lia.
Qed.

Lemma read_loop_ok w0 c buf off limit fuel cur m :
  file_ok w0 c → 0 ≤ off ≤ cur → cur ≤ limit → limit ≤ FILE_SPAN → clear_of_pages w0 c buf (limit - off) →
  turns_ok fuel cur limit → stored w0 c buf off (cur - off) m →
  ∃ m', read_loop fuel buf off limit (Some c) cur (cur - off) (set_umem w0 m) = Ok (limit - off, set_umem w0 m') ∧
    stored w0 c buf off (limit - off) m'.
Proof.
  intros Hf Hoc Hcl Hs Hb. revert cur m Hoc Hcl. induction fuel as [|fuel IH]; intros cur m Hoc Hcl Ht Hst.
  { destruct Ht. lia. }
  cbn [read_loop]. destruct (Z.ltb_spec cur limit) as [Hlt|Hge].
  - mstep. cbn [set_umem fsdata umem]. rewrite (pagecache_get_spec _ _ _ _ (fo_wf _ _ Hf)). mstep.
    unfold FILE_SPAN in Hs. destruct (chunk_bounds cur limit) as (He & _ & _); [lia..|].
    rewrite wrap_small by lia. replace (cur - off + (chunk_end cur limit - cur)) with (chunk_end cur limit - off) by lia.
    apply IH; [lia|lia|apply turns_ok_step; [done|lia..]|].
    by apply (read_step w0 c buf off cur limit).
  - assert (cur = limit) as -> by lia. by exists m.
Qed.

Lemma file_frame_refl w c : file_frame w c w.
Proof. split; auto. Qed.

Lemma file_frame_trans w1 w2 w3 c : file_frame w1 c w2 → file_frame w2 c w3 → file_frame w1 c w3.
Proof.
  intros [H1 T1 G1 M1 L1] [H2 T2 G2 M2 L2]. split.
  - intros r Hr Hn. destruct (H1 r Hr Hn) as [He Hn1]. destruct (H2 r) as [He2 Hn2]; [by rewrite He|done|]. split; [congruence|done].
  - intros q Hq. by apply T2, T1.
  - intros i p Hp. destruct (G2 i p Hp) as [Hp1|(q & Hq & -> & Hnt)]; [by apply G1|]. right. exists q. split_and!; try done. by intros ?%T1.
  - intros q x Hq Ht Hx Hn. rewrite M2, M1; auto. intros i Hi. destruct (G1 i _ Hi) as [Hi0|(q' & Hq' & He & Hnt)]; [by apply (Hn i)|].
    apply hhdm_inj in He as ->; done.
  - intros a Ha. by rewrite L2, L1.
Qed.

(** Another file keeps its contents and stays apart. *)
Lemma file_frame_other w c w' d :
  file_frame w c w' → file_ok w c → file_ok w' c → file_ok w d → files_apart w c d →
  file_ok w' d ∧ files_apart w' c d ∧ ∀ o, 0 ≤ o → file_byte w' d o = file_byte w d o.
Proof.
  intros [Hh Ht Hg Hm _] Hc Hc' Hd [Hno Hpg]. pose proof (fo_wf _ _ Hd) as (Hn & Hrt & _). pose proof (fo_wf _ _ Hc') as (_ & _ & Hi & Ho).
  destruct (tree_unchanged rx_next (cache (fsdata w)) (cache (fsdata w')) (back d) (num_layers d - 1) Hrt) as (_ & Hrt' & Htp & Hwd).
  { intros r Hr. destruct Hr as (π & Hle & Hr). apply Hh; [destruct Hrt as [Hdom _]; by apply (Hdom π)|]. intros Hcn. apply (Hno r Hcn). by exists π. }
  assert (Hlk : ∀ i, rx_lookup d (cache (fsdata w')) i = rx_lookup d (cache (fsdata w)) i).
  { intros i. rewrite !rx_lookup_word, Hwd; [done|]. apply length_rx_path. }
  split; [|split].
  - split.
    + split; [done|]. split; [done|]. by split.
    + apply (fo_layers _ _ Hd).
    + intros i p. rewrite Hlk. intros Hp. destruct (fo_pages _ _ Hd i p Hp) as (q & ? & ? & ?). exists q. auto.
    + intros i j p Hri Hrj. rewrite !Hlk. by apply (fo_inj _ _ Hd).
  - split.
    + intros r Hcr Hdr. unfold cache_node in Hdr. rewrite Htp in Hdr. destruct (Hh r) as [_ Hncr]; [|intros Hr; by apply (Hno r)|done].
      destruct Hdr as (π & Hle & Hr). destruct Hrt as [Hdom _]. by apply (Hdom π).
    + intros i j p Hcp. rewrite Hlk. intros Hdp. destruct (Hg i p Hcp) as [Hcp0|(q & Hq & -> & Hnt)]; [by apply (Hpg i j p)|].
      destruct (fo_pages _ _ Hd j _ Hdp) as (q' & Hq' & He & Htq). apply hhdm_inj in He as ->; done.
  - intros o Hop. unfold file_byte, byte_at. rewrite Hlk. destruct (rx_lookup d (cache (fsdata w)) (o / ARCH_PAGE_SIZE)) as [p|] eqn:Hp; [|done].
    destruct (fo_pages _ _ Hd _ _ Hp) as (q & Hq & -> & Htq). apply Hm; [done|done|by apply page_offsets|]. intros i Hci. by apply (Hpg i (o / ARCH_PAGE_SIZE) (ARCH_PHYS_TO_HHDM q)).
Qed.

(** The page of an index, allocated and zeroed when missing: the contents of
    the file do not change. *)
Lemma cache_page_spec w c i :
  file_ok w c → 0 ≤ i < 2 ^ 36 → (4 ≤ pa_free (tpages (fsdata w)))%nat →
  ∃ p w', cache_page c i w = Ok (p, w') ∧ file_ok w' c ∧ rx_lookup c (cache (fsdata w')) i = Some p ∧
    (∀ o, 0 ≤ o < FILE_SPAN → file_byte w' c o = file_byte w c o) ∧
    (∀ a, a < HHDM_BASE → umem w' a = umem w a) ∧ file_frame w c w' ∧ data_only w w' ∧
    (pa_free (tpages (fsdata w)) ≤ pa_free (tpages (fsdata w')) + 4)%nat.
Proof.
  intros Hf Hi Hfr. pose proof (file_span w c Hf) as Hspan. pose proof (fo_layers w c Hf) as Hly.
  assert (Hmod : ∀ j, 0 ≤ j < 2 ^ 36 → j mod rx_span c = j) by (intros j Hj; rewrite Hspan; by apply Z.mod_small).
  unfold cache_page. rewrite (pagecache_get_spec _ _ _ _ (fo_wf _ _ Hf)). mstep.
  destruct (pagecache_default_spec c _ _ i (fo_wf _ _ Hf)) as (p & h' & a' & Hdef & Hwf' & _ & Hlk & Hcase & Htk & Hroom); [lia|].
  pose proof (λ r, pagecache_default_frame c _ _ i p h' a' r (fo_wf _ _ Hf) ltac:(lia) Hdef) as Hframe.
  rewrite Hdef. mstep. rewrite Hly in Hroom. destruct (rx_lookup c (cache (fsdata w)) i) as [q|] eqn:Hq.
  - destruct Hcase as (-> & -> & ->). exists q, w. destruct w as [? ? ? ? []]. split_and!; try done.
    apply file_frame_refl.
  - destruct Hcase as (q & -> & Hvq & Hnt & Htq).
    set (w' := set_umem (set_cache w h' a') (kmemset (ARCH_PHYS_TO_HHDM q) ARCH_PAGE_SIZE 0 (umem (set_cache w h' a'))).2).
    assert (Hold : ∀ j r, 0 ≤ j < 2 ^ 36 → j ≠ i → rx_lookup c h' j = Some r ↔ rx_lookup c (cache (fsdata w)) j = Some r).
    { intros j r Hj Hne. rewrite Hlk, !Hmod by done. by rewrite decide_False. }
    assert (Hnew : rx_lookup c h' i = Some (ARCH_PHYS_TO_HHDM q)) by (rewrite Hlk; by rewrite decide_True).
    assert (Hap : ∀ j r, rx_lookup c (cache (fsdata w)) j = Some r → ∃ q', valid_phys q' ∧ r = ARCH_PHYS_TO_HHDM q' ∧ q' ≠ q ∧ pa_taken (tpages (fsdata w)) q').
    { intros j r Hr. destruct (fo_pages _ _ Hf j r Hr) as (q' & ? & -> & ?). exists q'. split_and!; try done. congruence. }
    exists (ARCH_PHYS_TO_HHDM q), w'. split; [done|]. split_and!; try done.
    + split; try done; simpl.
      * intros j r. rewrite Hlk. case_decide; [intros [= <-]; by exists q|].
        intros Hr. destruct (Hap j r Hr) as (q' & ? & -> & _ & ?). exists q'. auto.
      * intros j k r Hj Hk. destruct (decide (j = i)) as [->|Hji], (decide (k = i)) as [->|Hki]; [done|..].
        -- rewrite Hnew, Hold by done. intros [= <-] Hr. destruct (Hap k _ Hr) as (q' & Hv' & He & Hne & _). by apply hhdm_inj in He.
        -- rewrite Hnew, Hold by done. intros Hr [= <-]. destruct (Hap j _ Hr) as (q' & Hv' & He & Hne & _). by apply hhdm_inj in He.
        -- rewrite !Hold by done. by apply (fo_inj _ _ Hf).
    + intros o Ho. pose proof (file_index o Ho) as Hoi. destruct (page_offsets o) as [_ Hom]; [lia|].
      unfold file_byte, byte_at. cbn [w' set_umem set_cache umem fsdata cache].
      destruct (decide (o / ARCH_PAGE_SIZE = i)) as [->|Hne].
      * rewrite Hnew, Hq, kmemset_lookup by done. destruct (in_range_spec (ARCH_PHYS_TO_HHDM q + o mod ARCH_PAGE_SIZE) (ARCH_PHYS_TO_HHDM q) ARCH_PAGE_SIZE); [done|lia].
      * assert (rx_lookup c h' (o / ARCH_PAGE_SIZE) = rx_lookup c (cache (fsdata w)) (o / ARCH_PAGE_SIZE)) as ->.
        { rewrite Hlk, !Hmod by done. by rewrite decide_False. }
        destruct (rx_lookup c (cache (fsdata w)) (o / ARCH_PAGE_SIZE)) as [r|] eqn:Hr; [|done].
        destruct (Hap _ _ Hr) as (q' & Hv' & -> & Hne' & _). rewrite kmemset_lookup by done.
        destruct (in_range_spec (ARCH_PHYS_TO_HHDM q' + o mod ARCH_PAGE_SIZE) (ARCH_PHYS_TO_HHDM q) ARCH_PAGE_SIZE) as [Hbad|]; [|done].
        by apply (pages_apart q' q) in Hbad.
    + intros a Ha. cbn [w' set_umem set_cache umem]. rewrite kmemset_lookup by done. pose proof (hhdm_base_le q Hvq).
      destruct (in_range_spec a (ARCH_PHYS_TO_HHDM q) ARCH_PAGE_SIZE); [lia|done].
    + split; cbn [w' set_umem set_cache umem fsdata cache tpages].
      * exact Hframe.
      * exact Htk.
      * intros j r. rewrite Hlk. case_decide; [|by left]. intros [= <-]. right. by exists q.
      * intros q' x Hq' Htq' Hx _. rewrite kmemset_lookup by done.
        destruct (in_range_spec (ARCH_PHYS_TO_HHDM q' + x) (ARCH_PHYS_TO_HHDM q) ARCH_PAGE_SIZE) as [Hbad|]; [|done].
        apply (pages_apart q' q x) in Hbad as []; try done. intros ->. done.
      * intros a Ha. rewrite kmemset_lookup by done. pose proof (hhdm_base_le q Hvq).
        destruct (in_range_spec a (ARCH_PHYS_TO_HHDM q) ARCH_PAGE_SIZE); [lia|done].
Qed.

(** One part of a write, once its page is there. *)
Lemma write_step w c buf cur n p :
  file_ok w c → 0 ≤ cur → 0 < n → cur mod ARCH_PAGE_SIZE + n ≤ ARCH_PAGE_SIZE → cur + n ≤ FILE_SPAN →
  buf + n ≤ HHDM_BASE → rx_lookup c (cache (fsdata w)) (cur / ARCH_PAGE_SIZE) = Some p →
  let w' := set_umem w (kmemcpy (p + cur mod ARCH_PAGE_SIZE) buf n (umem w)).2 in
  file_ok w' c ∧ (∀ a, a < HHDM_BASE → umem w' a = umem w a) ∧ file_frame w c w' ∧
  ∀ o, 0 ≤ o < FILE_SPAN →
    file_byte w' c o = if decide (cur ≤ o < cur + n) then umem w (buf + (o - cur)) else file_byte w c o.
Proof.
  intros Hf Hc Hn Hin Hs Hb Hp w'. destruct (fo_pages _ _ Hf _ _ Hp) as (q & Hq & -> & _).
  pose proof (hhdm_base_le q Hq). destruct (page_offsets cur) as [_ Hm]; [lia|].
  assert (Hlow : ∀ a, a < HHDM_BASE → umem w' a = umem w a).
  { intros a Ha. cbn [w' set_umem umem]. rewrite kmemcpy_lookup by lia.
    destruct (in_range_spec a (ARCH_PHYS_TO_HHDM q + cur mod ARCH_PAGE_SIZE) n); [lia|done]. }
  split_and!; [by destruct Hf; split|done| |].
  - split; cbn [w' set_umem fsdata]; [done|done|by left| |exact Hlow].
    intros q' x Hq' _ Hx Hnc. cbn [w' set_umem umem]. rewrite kmemcpy_lookup by lia.
    destruct (in_range_spec (ARCH_PHYS_TO_HHDM q' + x) (ARCH_PHYS_TO_HHDM q + cur mod ARCH_PAGE_SIZE) n) as [Hbad|]; [|done].
    exfalso. apply (pages_apart q' q x); [done|done|intros ->; by apply (Hnc (cur / ARCH_PAGE_SIZE))|done|lia].
  - intros o Ho. unfold file_byte, byte_at. cbn [w' set_umem umem fsdata cache]. destruct (page_offsets o) as [Ho1 Ho2]; [lia|].
    case_decide as Hr.
    + destruct (page_inside cur (o - cur)) as [H1 H2]; [lia..|]. replace (cur + (o - cur)) with o in H1, H2 by lia.
      rewrite H1, H2, Hp, kmemcpy_lookup by lia.
      destruct (in_range_spec (ARCH_PHYS_TO_HHDM q + (cur mod ARCH_PAGE_SIZE + (o - cur))) (ARCH_PHYS_TO_HHDM q + cur mod ARCH_PAGE_SIZE) n); [|lia].
      f_equal. lia.
    + destruct (rx_lookup c (cache (fsdata w)) (o / ARCH_PAGE_SIZE)) as [r|] eqn:Hrl; [|done].
      destruct (fo_pages _ _ Hf _ _ Hrl) as (q' & Hq' & -> & _). rewrite kmemcpy_lookup by lia.
      destruct (in_range_spec (ARCH_PHYS_TO_HHDM q' + o mod ARCH_PAGE_SIZE) (ARCH_PHYS_TO_HHDM q + cur mod ARCH_PAGE_SIZE) n) as [Hbad|]; [|done].
      exfalso. destruct (decide (q' = q)) as [->|Hne].
      * assert (o / ARCH_PAGE_SIZE = cur / ARCH_PAGE_SIZE) as Heq.
        { apply (fo_inj _ _ Hf _ _ (ARCH_PHYS_TO_HHDM q)); [by apply file_index|apply file_index; lia|done..]. }
        destruct (page_offsets cur) as [Hc1 _]; [lia|]. rewrite <- Heq in Hc1. lia.
      * apply (pages_apart q' q (o mod ARCH_PAGE_SIZE)); try done. lia.
Qed.

(** What a write of the bytes at [buf] to [off] has done once [cur] is reached. *)
Definition written w0 c (buf off cur : Z) w : Prop :=
  (∀ o, 0 ≤ o < FILE_SPAN →
     file_byte w c o = if decide (off ≤ o < cur) then umem w0 (buf + (o - off)) else file_byte w0 c o) ∧
  (∀ a, a < HHDM_BASE → umem w a = umem w0 a) ∧ file_frame w0 c w ∧ data_only w0 w.

Lemma write_loop_ok w0 c buf off limit fuel cur w :
  0 ≤ off ≤ cur → cur ≤ limit → limit ≤ FILE_SPAN → buf + (limit - off) ≤ HHDM_BASE →
  turns_ok fuel cur limit → (4 * fuel ≤ pa_free (tpages (fsdata w)))%nat → file_ok w c → written w0 c buf off cur w →
  ∃ w', write_loop fuel buf off limit (Some c) cur (cur - off) w = Ok (limit - off, w') ∧
    file_ok w' c ∧ written w0 c buf off limit w'.
Proof.
  intros Hoc Hcl Hs Hb. revert cur w Hoc Hcl. induction fuel as [|fuel IH]; intros cur w Hoc Hcl Ht Hfr Hf Hwr.
  { destruct Ht. lia. }
  cbn [write_loop]. destruct (Z.ltb_spec cur limit) as [Hlt|Hge].
  - mstep. pose proof Hs as Hs'. unfold FILE_SPAN in Hs'. destruct (chunk_bounds cur limit) as (He & Hin & _); [lia..|].
    destruct (cache_page_spec w c (cur / ARCH_PAGE_SIZE) Hf) as (p & w1 & -> & Hf1 & Hp & Hb1 & Hm1 & Hfr1 & Hd1 & Hr1);
      [apply file_index; lia|lia|]. mstep.
    set (e := chunk_end cur limit) in *.
    destruct (write_step w1 c (buf + (cur - off)) cur (e - cur) p Hf1) as (Hf2 & Hm2 & Hfr2 & Hb2); [lia..|done|].
    set (w2 := set_umem w1 _) in *.
    rewrite wrap_small by lia. replace (cur - off + (e - cur)) with (e - off) by lia.
    apply IH; [lia|lia|by apply turns_ok_step; [|lia..]|simpl; lia|done|].
    destruct Hwr as (Hwb & Hwm & Hwf & Hwd). split_and!.
    + intros o Ho. rewrite Hb2 by done. rewrite Hb1, Hwb by done.
      destruct (decide (cur ≤ o < cur + (e - cur))), (decide (off ≤ o < e)), (decide (off ≤ o < cur)); try lia; try done.
      rewrite Hm1, Hwm by lia. f_equal. lia.
    + intros a Ha. by rewrite Hm2, Hm1, Hwm by done.
    + apply (file_frame_trans _ w); [done|]. by apply (file_frame_trans _ w1).
    + by trans w; [|trans w1].
  - assert (cur = limit) as -> by lia. by exists w.
Qed.

(** ** Properties: file contents *)

Lemma tmpfs_read_spec w node v t size c buf buflen off flags :
  vnodes w !! node = Some v → type v ≠ E_COM_VNODE_TYPE_DIR → tnodes (fsdata w) !! extra v = Some t →
  tn_data t = TFile size c → file_ok w c →
  0 ≤ size ≤ FILE_SPAN → 0 ≤ off → 0 ≤ buflen → off + buflen < 2 ^ 64 → clear_of_pages w c buf (Z.max 0 (Z.min buflen (size - off))) →
  let n := Z.max 0 (Z.min buflen (size - off)) in
  ∃ m', com_fs_tmpfs_read buf buflen node off flags w = Ok (E0, Some n, set_umem w m') ∧
    ∀ a, m' a = if in_range a buf n then file_byte w c (off + (a - buf)) else umem w a.
Proof.
  intros Hv Hty Ht Hd Hf Hsz Ho Hbl Hof Hb n. unfold com_fs_tmpfs_read. rewrite Hv. mstep.
  rewrite bool_decide_false by done. rewrite Ht. mstep. rewrite Hd. cbn [as_file]. mstep.
  assert (Hself : set_umem w (umem w) = w) by by destruct w.
  assert (Hz : n = 0 → ∃ m', Ok (E0, Some 0, w) = Ok (E0, Some n, set_umem w m') ∧
    ∀ a, m' a = if in_range a buf n then file_byte w c (off + (a - buf)) else umem w a).
  { intros ->. exists (umem w). rewrite Hself. split; [done|]. intros a. by destruct (in_range_spec a buf 0); [lia|]. }
  destruct (Z.leb_spec size off); [apply Hz; lia|]. rewrite (wrap_small 64 (off + buflen)) by lia.
  set (l := if size <=? off + buflen then _ else buflen).
  assert (l = n) as -> by (unfold l, n; destruct (Z.leb_spec size (off + buflen)), (Z.ltb_spec off size); lia).
  destruct (Z.eqb_spec n 0); [by apply Hz|].
  assert (0 < n ∧ n ≤ buflen ∧ off + n ≤ size) as (Hn0 & Hnb & Hns) by lia. unfold FILE_SPAN in Hsz.
  rewrite wrap_small by lia.
  destruct (read_loop_ok w c buf off (off + n) (io_fuel n) off (umem w) Hf) as (m' & Hr & Hst);
    [lia|lia|unfold FILE_SPAN; lia| |apply turns_ok_start; lia| |].
  { by replace (off + n - off) with n by lia. }
  { intros a. rewrite Z.sub_diag. by destruct (in_range_spec a buf 0); [lia|]. }
  rewrite Hself, Z.sub_diag in Hr. rewrite Hr. mstep. replace (off + n - off) with n in * by lia. by exists m'.
Qed.

(** C5: Reading a file returns the bytes of the file from [off] on, as many as
    the buffer takes and the file has; a page never written reads as zeros;
    nothing but the buffer changes. *)
Theorem com_fs_tmpfs_read_contents w node v t size c buf buflen off flags :
  vnodes w !! node = Some v → type v ≠ E_COM_VNODE_TYPE_DIR → tnodes (fsdata w) !! extra v = Some t →
  tn_data t = TFile size c → file_ok w c →
  0 ≤ size ≤ FILE_SPAN → 0 ≤ off → 0 ≤ buflen → off + buflen < 2 ^ 64 → buf + buflen ≤ HHDM_BASE →
  let n := Z.max 0 (Z.min buflen (size - off)) in
  ∃ m', com_fs_tmpfs_read buf buflen node off flags w = Ok (E0, Some n, set_umem w m') ∧
    ∀ a, m' a = if in_range a buf n then file_byte w c (off + (a - buf)) else umem w a.
Proof.
  intros Hv Hty Ht Hd Hf Hsz Ho Hbl Hof Hb n. apply (tmpfs_read_spec w node v t size c buf buflen off flags); try done.
  apply low_clear; [done|lia].
Qed.

(** C4: Writing a buffer to a file stores exactly its bytes at [off], keeps every
    other byte of the file and makes the file at least as long as the end of
    the write; it succeeds while pages are left. Of the rest of the world, the
    vnodes, the mounts, the directory entries and the other nodes are the
    same; so are the memory below the kernel's page map, the memory of the
    pages in use that are not in the file's cache and the pages of the heap
    that are no nodes of its cache. So any other file that shares nothing with
    this one stays well formed and apart from it and keeps its bytes. *)
Theorem com_fs_tmpfs_write_contents w node v t size c buf buflen off flags :
  vnodes w !! node = Some v → type v ≠ E_COM_VNODE_TYPE_DIR → tnodes (fsdata w) !! extra v = Some t →
  tn_data t = TFile size c → file_ok w c →
  0 ≤ off → 0 < buflen → off + buflen ≤ FILE_SPAN → buf + buflen ≤ HHDM_BASE →
  (4 * io_fuel buflen ≤ pa_free (tpages (fsdata w)))%nat →
  ∃ w', com_fs_tmpfs_write node buf buflen off flags w = Ok (E0, Some buflen, w') ∧ file_ok w' c ∧
    (∀ o, 0 ≤ o < FILE_SPAN → file_byte w' c o =
       if decide (off ≤ o < off + buflen) then umem w (buf + (o - off)) else file_byte w c o) ∧
    (∀ a, a < HHDM_BASE → umem w' a = umem w a) ∧ file_frame w c w' ∧
    (∀ d, file_ok w d → files_apart w c d →
       file_ok w' d ∧ files_apart w' c d ∧ ∀ o, 0 ≤ o → file_byte w' d o = file_byte w d o) ∧
    vnodes w' = vnodes w ∧ vfss w' = vfss w ∧ dirents (fsdata w') = dirents (fsdata w) ∧
    ∃ t', tn_data t' = TFile (Z.max size (off + buflen)) c ∧ tn_parent t' = tn_parent t ∧ tn_dirent t' = tn_dirent t ∧
      tn_vnode t' = tn_vnode t ∧ num_links t' = num_links t ∧ tnodes (fsdata w') = <[extra v := t']> (tnodes (fsdata w)).
Proof.
  intros Hv Hty Ht Hd Hf Ho Hbl Hs Hb Hfr. unfold com_fs_tmpfs_write. rewrite Hv. mstep.
  rewrite bool_decide_false by done. destruct (Z.eqb_spec buflen 0); [lia|]. rewrite Ht. mstep. rewrite Hd. cbn [as_file]. mstep.
  pose proof Hs as Hs'. unfold FILE_SPAN in Hs'. rewrite wrap_small by lia.
  set (w1 := if size <? off + buflen then _ else w).
  assert (∃ t', tn_data t' = TFile (Z.max size (off + buflen)) c ∧ tn_parent t' = tn_parent t ∧ tn_dirent t' = tn_dirent t ∧
      tn_vnode t' = tn_vnode t ∧ num_links t' = num_links t ∧ w1 = set_tnode w (extra v) t') as (t' & Hd' & Hp' & He' & Hv' & Hl' & Hw1).
  { unfold w1. destruct (Z.ltb_spec size (off + buflen)).
    - eexists (set_data t (TFile (off + buflen) c)). split_and!; try done. simpl. f_equal. lia.
    - exists t. split_and!; try done; [rewrite Hd; f_equal; lia|].
      unfold set_tnode. rewrite insert_id by done. by destruct w as [? ? ? ? []]. }
  assert (Hf1 : file_ok w1 c) by (rewrite Hw1; by destruct Hf; split).
  destruct (write_loop_ok w1 c buf off (off + buflen) (io_fuel buflen) off w1) as (w' & Hr & Hf' & Hb' & Hm' & Hff & Hdo);
    [lia|lia|done|lia|apply turns_ok_start; lia|rewrite Hw1; done|done| |].
  { split_and!; [|done|apply file_frame_refl|done]. intros o Hoo. rewrite decide_False by lia. done. }
  rewrite Z.sub_diag in Hr. rewrite Hr. mstep. replace (off + buflen - off) with buflen by lia.
  assert (Hff0 : file_frame w c w') by (rewrite Hw1 in Hff; by destruct Hff; split).
  rewrite Hw1 in *. exists w'. destruct Hdo as (Hvn & Hvf & _ & Htn & Hde). split_and!; try done; [|by exists t'].
  intros d Hfd Had. by apply (file_frame_other w c w' d).
Qed.
End data_lemmas.

(** ** Adding a node to a directory *)

(** [w'] is [w] with a node for the vnode [n], of type [ty], entered under
    [name] in the directory [d]. *)
Record added {S A} (w : world S (tmpfs A)) (d : Z) (name : list Z) (ty : com_vnode_type) (n : Z)
    (w' : world S (tmpfs A)) : Prop := {
  ad_parts : ∃ v t es e tn data,
    vnodes w !! d = Some v ∧ tnodes (fsdata w) !! extra v = Some t ∧ tn_data t = TDir es ∧
    vnodes w !! n = None ∧ tnodes (fsdata w) !! tn = None ∧ dirents (fsdata w) !! e = None ∧
    vnodes w' = <[n := Vnode None (vfs v) TmpfsNodeOps ty 1 false tn]> (vnodes w) ∧
    vfss w' = vfss w ∧
    tnodes (fsdata w') = <[extra v := set_data t (TDir (es ++ [e]))]>
      (<[tn := Tnode (Some n) 1 (Some e) (Some (extra v)) data]> (tnodes (fsdata w))) ∧
    dirents (fsdata w') = <[e := Dirent tn name]> (dirents (fsdata w)) ∧
    (ty = E_COM_VNODE_TYPE_DIR → data = TDir []) ∧ (ty = E_COM_VNODE_TYPE_LINK → ∃ p, data = TLink p) ∧
    (data = TZero ∨ (∃ c, data = TFile 0 c) ∨ data = TDir [] ∨ ∃ p, data = TLink p) }.

Section added_lemmas.
Context {S A : Type} `{!SlabAlloc S} `{!PageAlloc A} `{!LibcConsts}.
Implicit Types (w : world S (tmpfs A)).

Lemma added_ns w d name ty n w' :
  tmpfs_ns w → added w d name ty n w' → tmpfs_ns w'.
Proof.
  intros Hns [(v & t & es & e & tn & data & Hv & Ht & Hd & Hn & Htn & He & Hvn & Hvf & Hts & Hds & HDIR & HLINK & Hdata)].
  assert (Hx : extra v ≠ tn) by congruence.
  assert (Hvold : ∀ o, is_Some (vnodes w !! o) → is_Some (vnodes w' !! o)).
  { intros o [x Hx']. rewrite Hvn. destruct (decide (o = n)) as [->|]; [congruence|]. rewrite lookup_insert_ne by done. by eexists. }
  assert (Htold : ∀ x y, tnodes (fsdata w) !! x = Some y → ∃ y', tnodes (fsdata w') !! x = Some y' ∧
    tn_vnode y' = tn_vnode y ∧ tn_parent y' = tn_parent y ∧ (x ≠ extra v → y' = y) ∧ (x = extra v → tn_data y' = TDir (es ++ [e]))).
  { intros x y Hy. rewrite Hts. destruct (decide (x = extra v)) as [->|].
    - rewrite lookup_insert_eq. simplify_eq. eexists. split_and!; try done.
    - rewrite lookup_insert_ne, lookup_insert_ne by congruence. exists y. split_and!; try done. }
  assert (Htnew : ∀ x y, tnodes (fsdata w') !! x = Some y → x = tn ∧ y = Tnode (Some n) 1 (Some e) (Some (extra v)) data ∨
    (∃ y0, tnodes (fsdata w) !! x = Some y0 ∧ tn_vnode y = tn_vnode y0 ∧ tn_parent y = tn_parent y0 ∧
      (x ≠ extra v ∧ y = y0 ∨ x = extra v ∧ tn_data y = TDir (es ++ [e])))).
  { intros x y. rewrite Hts. destruct (decide (x = extra v)) as [->|].
    - rewrite lookup_insert_eq. intros [= <-]. right. exists t. split_and!; try done. by right.
    - rewrite lookup_insert_ne by done. destruct (decide (x = tn)) as [->|].
      + rewrite lookup_insert_eq. intros [= <-]. by left.
      + rewrite lookup_insert_ne by done. intros Hy. right. exists y. split_and!; try done. by left. }
  split.
  - intros m u. rewrite Hvn. destruct (decide (m = n)) as [->|Hmn].
    + rewrite lookup_insert_eq. intros [= <-]. simpl. split; [done|]. rewrite Hts.
      rewrite lookup_insert_ne, lookup_insert_eq by done. eexists. split_and!; [done|done|..]; simpl.
      * intros ->. rewrite HDIR by done. by eexists.
      * intros ->. by apply HLINK.
    + rewrite lookup_insert_ne by done. intros Hu. destruct (tn_of w Hns m u Hu) as (Ho & t0 & Ht0 & Htv & Hdr & Hlk).
      split; [done|]. destruct (Htold _ _ Ht0) as (t1 & Ht1 & Hv1 & _ & Hne & Heq). exists t1. split_and!; [done|by rewrite Hv1|..].
      * intros Hty. destruct (decide (extra u = extra v)) as [Hex|Hex]; [rewrite (Heq Hex); by eexists|]. rewrite (Hne Hex). auto.
      * intros Hty. destruct (decide (extra u = extra v)) as [Hex|Hex]; [|rewrite (Hne Hex); auto].
        rewrite Hex in Ht0. simplify_eq. destruct (Hlk Hty). congruence.
  - assert (Hent : ∀ x y es0 e0, tnodes (fsdata w) !! x = Some y → tn_data y = TDir es0 → e0 ∈ es0 →
      ∃ d0 c o, dirents (fsdata w') !! e0 = Some d0 ∧ tnodes (fsdata w') !! tnode d0 = Some c ∧ tn_vnode c = Some o ∧ is_Some (vnodes w' !! o)).
    { intros x y es0 e0 Hy Hd0 He0. destruct (tn_ents w Hns x y es0 e0 Hy Hd0 He0) as (d0 & c & o & Hd1 & Hc & Hco & Ho).
      destruct (Htold _ _ Hc) as (c' & Hc' & Hcv & _). exists d0, c', o. rewrite Hds, lookup_insert_ne by congruence.
      split_and!; try done; [congruence|auto]. }
    intros x y es0 e0 Hy Hd0 He0. destruct (Htnew x y Hy) as [[-> ->]|(y0 & Hy0 & _ & _ & [[Hne ->]|[-> Hd1]])].
    + simpl in Hd0. destruct Hdata as [->|[[? ->]|[->|[? ->]]]]; simplify_eq. by apply elem_of_nil in He0.
    + by eapply Hent.
    + rewrite Hd1 in Hd0. injection Hd0 as <-. simplify_eq. apply elem_of_app in He0 as [He0| ->%list_elem_of_singleton]; [by eapply Hent|].
      exists (Dirent tn name). rewrite Hds, lookup_insert_eq. simpl. rewrite Hts, lookup_insert_ne, lookup_insert_eq by done.
      eexists _, n. split_and!; try done. rewrite Hvn, lookup_insert_eq. by eexists.
  - intros x y p Hy Hp. assert (Hpo : ∀ p0 c o, tnodes (fsdata w) !! p0 = Some c → tn_vnode c = Some o → is_Some (vnodes w !! o) →
      ∃ c o, tnodes (fsdata w') !! p0 = Some c ∧ tn_vnode c = Some o ∧ is_Some (vnodes w' !! o)).
    { intros p0 c o Hc Hco Ho. destruct (Htold _ _ Hc) as (c' & Hc' & Hcv & _). exists c', o. split_and!; try done; [congruence|auto]. }
    destruct (Htnew x y Hy) as [[-> ->]|(y0 & Hy0 & _ & Hpp & _)].
    + simpl in Hp. injection Hp as <-. destruct (tn_of w Hns d v Hv) as (_ & t0 & Ht0 & Htv & _). simplify_eq.
      apply (Hpo _ t d); try done.
    + rewrite Hpp in Hp. destruct (tn_par w Hns x y0 p Hy0 Hp) as (c & o & ?&?&?). by eapply Hpo.
Qed.

Lemma find_entry_app ds es es' name :
  find_entry es name ds = Ok None → find_entry (es ++ es') name ds = find_entry es' name ds.
Proof.
  induction es as [|e es IH]; [done|]. cbn [find_entry app]. destruct (ds !! e) as [dd|]; [|done]. simpl.
  case_bool_decide; [done|]. apply IH.
Qed.

Lemma find_entry_app_some ds es es' name c :
  find_entry es name ds = Ok (Some c) → find_entry (es ++ es') name ds = Ok (Some c).
Proof.
  induction es as [|e es IH]; [done|]. cbn [find_entry app]. destruct (ds !! e) as [dd|]; [|done]. simpl.
  case_bool_decide; [done|]. apply IH.
Qed.

Lemma find_entry_ext ds ds' es name :
  (∀ e, e ∈ es → ds' !! e = ds !! e) → find_entry es name ds' = find_entry es name ds.
Proof.
  induction es as [|e es IH]; intros He; [done|]. cbn [find_entry]. rewrite He by apply list_elem_of_here.
  rewrite IH; [done|]. intros. apply He. by apply list_elem_of_further.
Qed.

Lemma tmpfs_entry_dir w d v t es name :
  vnodes w !! d = Some v → tnodes (fsdata w) !! extra v = Some t → tn_data t = TDir es → is_dotdot name = false →
  tmpfs_entry w d name = match (match find_entry es name (dirents (fsdata w)) with
    | Ok (Some c) => tnodes (fsdata w) !! c ≫= tn_vnode | _ => None end) with Some n => inl n | None => inr ENOENT end.
Proof.
  intros Hv Ht Hd Hdd. unfold tmpfs_entry. rewrite Hdd, Hv. cbn [mbind option_bind]. rewrite Ht. cbn [mbind option_bind].
  by rewrite Hd.
Qed.

(** Looking names up after a node was added: the new name is found, every
    other lookup gives what it gave. *)
Lemma added_entry w d name ty n w' :
  tmpfs_ns w → added w d name ty n w' → is_dotdot name = false → tmpfs_entry w d name = inr ENOENT →
  ∀ d' nm, (∃ v, vnodes w !! d' = Some v ∧ type v = E_COM_VNODE_TYPE_DIR) →
    tmpfs_entry w' d' nm = if decide (d' = d ∧ nm = name) then inl n else tmpfs_entry w d' nm.
Proof.
  intros Hns [(v & t & es & e & tn & data & Hv & Ht & Hd & Hn & Htn & He & Hvn & Hvf & Hts & Hds & _)] Hdd Hent d' nm (v' & Hv' & Hty').
  assert (Hx : extra v ≠ tn) by congruence.
  assert (Hv'1 : vnodes w' !! d' = Some v') by (rewrite Hvn; by rewrite lookup_insert_ne by congruence).
  destruct (tn_of w Hns d' v' Hv') as (_ & t' & Ht' & Htv' & Hdir' & _). destruct (Hdir' Hty') as [es' Hes'].
  destruct (tn_of w Hns d v Hv) as (_ & t0 & Ht0 & Htv & _). simplify_eq.
  assert (Hold : ∀ x, tnodes (fsdata w) !! x ≫= tn_vnode = (if decide (x = tn) then None else tnodes (fsdata w') !! x ≫= tn_vnode)).
  { intros x. rewrite Hts. case_decide as Hxt; [subst; by rewrite Htn|]. destruct (decide (x = extra v)) as [->|].
    - by rewrite lookup_insert_eq, Ht.
    - by rewrite !lookup_insert_ne by done. }
  destruct (is_dotdot nm) eqn:Hdd'.
  { rewrite decide_False by (intros [_ ->]; congruence). unfold tmpfs_entry. rewrite Hdd', Hv', Hv'1. cbn [mbind option_bind].
    rewrite Ht'. assert (∃ t'', tnodes (fsdata w') !! extra v' = Some t'' ∧ tn_parent t'' = tn_parent t') as (t'' & -> & Hpar).
    { rewrite Hts. destruct (decide (extra v' = extra v)) as [Hex|].
      - rewrite Hex, lookup_insert_eq in *. simplify_eq. by eexists.
      - rewrite !lookup_insert_ne by congruence. by eexists. }
    cbn [mbind option_bind]. rewrite Hpar. destruct (tn_parent t') as [p|] eqn:Hp; [|done].
    destruct (tn_par w Hns _ _ p Ht' Hp) as (c & o & Hc & _). pose proof (Hold p) as Hop.
    rewrite decide_False, Hc in Hop by congruence. rewrite Hc. simpl in *. rewrite Hop.
    by destruct (tnodes (fsdata w') !! p). }
  assert (Hes_in : ∀ x y es0 e0, tnodes (fsdata w) !! x = Some y → tn_data y = TDir es0 → e0 ∈ es0 →
    dirents (fsdata w') !! e0 = dirents (fsdata w) !! e0).
  { intros x y es0 e0 Hy Hdy He0. destruct (tn_ents w Hns x y es0 e0 Hy Hdy He0) as (d0 & _ & _ & Hd0 & _).
    rewrite Hds, lookup_insert_ne; [done|congruence]. }
  (* a search of old entries finds the same vnode in both worlds *)
  assert (Hsame : ∀ x y es0 r, tnodes (fsdata w) !! x = Some y → tn_data y = TDir es0 →
    find_entry es0 nm (dirents (fsdata w)) = Ok (Some r) → tnodes (fsdata w') !! r ≫= tn_vnode = tnodes (fsdata w) !! r ≫= tn_vnode).
  { intros x y es0 r Hy Hdy Hf. rewrite Hold, decide_False; [done|]. intros ->.
    destruct (find_entry_ok (dirents (fsdata w)) es0 nm) as (r' & Hf' & Hr').
    { intros e0 He0. destruct (tn_ents w Hns x y es0 e0 Hy Hdy He0) as (? & ? & ? & -> & _). by eexists. }
    rewrite Hf in Hf'. injection Hf' as <-. destruct Hr' as (e0 & d0 & He0 & Hd0 & _ & Htd).
    destruct (tn_ents w Hns x y es0 e0 Hy Hdy He0) as (? & ? & ? & ? & ? & _). congruence. }
  rewrite (tmpfs_entry_dir w d' v' t' es' nm Hv' Ht' Hes' Hdd').
  destruct (decide (d' = d)) as [->|Hdne].
  - assert (v' = v) as -> by congruence. assert (t' = t) as -> by congruence. assert (es' = es) as -> by congruence.
    rewrite (tmpfs_entry_dir w' d v (set_data t (TDir (es ++ [e]))) (es ++ [e]) nm Hv'1); [|by rewrite Hts, lookup_insert_eq|done|done].
    assert (Hfe : find_entry es nm (dirents (fsdata w')) = find_entry es nm (dirents (fsdata w))).
    { apply find_entry_ext. intros e0 He0. by eapply Hes_in. }
    destruct (find_entry_ok (dirents (fsdata w)) es nm) as (r & Hf & Hr).
    { intros e0 He0. destruct (tn_ents w Hns _ _ es e0 Ht Hd He0) as (? & ? & ? & -> & _). by eexists. }
    rewrite Hf. destruct r as [c|].
    + rewrite (find_entry_app_some _ _ _ _ c) by (by rewrite Hfe). rewrite (Hsame _ _ _ c Ht Hd Hf).
      rewrite decide_False; [done|]. intros [_ ->]. rewrite (tmpfs_entry_dir w d v t es name Hv Ht Hd Hdd), Hf in Hent.
      destruct Hr as (e0 & d0 & He0 & Hd0 & _ & Htd). destruct (tn_ents w Hns _ _ es e0 Ht Hd He0) as (d1 & c1 & o & ? & Hc1 & Hco & _).
      simplify_eq. rewrite Hc1 in Hent. simpl in Hent. by rewrite Hco in Hent.
    + rewrite find_entry_app by (by rewrite Hfe). cbn [find_entry]. rewrite Hds, lookup_insert_eq. mstep. cbn [ent_name tnode].
      case_bool_decide as Hnm.
      * subst nm. rewrite decide_True by done. rewrite Hts, lookup_insert_ne, lookup_insert_eq by done. done.
      * rewrite decide_False by naive_solver. done.
  - rewrite decide_False by naive_solver. assert (Hexne : extra v' ≠ extra v) by (intros Hex; rewrite Hex in Ht'; congruence).
    rewrite (tmpfs_entry_dir w' d' v' t' es' nm Hv'1); [|rewrite Hts; by rewrite !lookup_insert_ne by congruence|done|done].
    rewrite (find_entry_ext (dirents (fsdata w)) (dirents (fsdata w'))) by (intros e0 He0; by eapply Hes_in).
    destruct (find_entry es' nm (dirents (fsdata w))) as [[c|]| | |] eqn:Hf; try done.
    by rewrite (Hsame _ _ _ c Ht' Hes' Hf).
Qed.

(** ** Creating *)

(** The objects of the world are among those the allocator has in use. *)
Definition live_objs w (L : gset Z) : Prop :=
  sa_inv (objs w) L ∧ dom (vnodes w) ⊆ L ∧ dom (tnodes (fsdata w)) ⊆ L ∧ dom (dirents (fsdata w)) ⊆ L.

Definition tmpfs_ok w : Prop := tmpfs_ns w ∧ ∃ L, live_objs w L.

Lemma obj_alloc_spec w L size :
  live_objs w L → 0 < size ≤ 4080 → (0 < sa_room (objs w))%nat →
  ∃ p s, obj_alloc size w = Ok (p, set_objs w s) ∧ (p ∉ L) ∧ live_objs (set_objs w s) ({[p]} ∪ L) ∧
    (sa_room (objs w) ≤ Datatypes.S (sa_room s))%nat.
Proof.
  intros (Hi & H1 & H2 & H3) Hsz Hr. destruct (sa_alloc_ok _ L size Hi Hsz Hr) as (p & s & Hal & _ & Hp & Hi' & Hroom).
  exists p, s. unfold obj_alloc. rewrite Hal. split_and!; try done. split_and!; simpl; try done; set_solver.
Qed.

(** The world after [create_common]: a node that is in no directory yet. *)
Lemma create_common_spec w L d v name ty :
  live_objs w L → vnodes w !! d = Some v → type v = E_COM_VNODE_TYPE_DIR → (Z.of_nat (length name) ≤ 4048) →
  ty ≠ E_COM_VNODE_TYPE_FIFO → (3 ≤ sa_room (objs w))%nat →
  ∃ e n tn w1 L1, create_common d name 0 ty w = Ok (Some e, Some n, w1) ∧
    vnodes w !! n = None ∧ tnodes (fsdata w) !! tn = None ∧ dirents (fsdata w) !! e = None ∧
    vnodes w1 = <[n := Vnode None (vfs v) TmpfsNodeOps ty 1 false tn]> (vnodes w) ∧ vfss w1 = vfss w ∧
    tnodes (fsdata w1) = <[tn := Tnode (Some n) 1 (Some e) None TZero]> (tnodes (fsdata w)) ∧
    dirents (fsdata w1) = <[e := Dirent tn name]> (dirents (fsdata w)) ∧
    cache (fsdata w1) = cache (fsdata w) ∧ tpages (fsdata w1) = tpages (fsdata w) ∧
    live_objs w1 L1 ∧ (sa_room (objs w) ≤ sa_room (objs w1) + 3)%nat.
Proof.
  intros HL Hv Hty Hlen Hff Hroom. unfold create_common. rewrite Hv. mstep. rewrite bool_decide_true by done. mstep.
  destruct (obj_alloc_spec w L sizeof_tmpfs_node HL) as (tn & s1 & -> & Htn & HL1 & Hr1); [done|lia|]. mstep.
  change (attr_set COM_FS_TMPFS_ATTR_NO_DIRENT 0) with false. cbv iota.
  set (w1 := set_tnode (set_objs w s1) tn _).
  assert (HL1' : live_objs w1 ({[tn]} ∪ L)).
  { destruct HL1 as (?&?&?&?). split_and!; simpl in *; try done. rewrite dom_insert_L. set_solver. }
  destruct (obj_alloc_spec w1 _ (sizeof_tmpfs_dir_entry + Z.of_nat (length name)) HL1') as (e & s2 & -> & He & HL2 & Hr2);
    [unfold sizeof_tmpfs_dir_entry; lia|simpl; lia|]. mstep.
  set (w2 := set_dirent (set_objs w1 s2) e _).
  assert (HL2' : live_objs w2 ({[e]} ∪ ({[tn]} ∪ L))).
  { destruct HL2 as (?&?&?&?). split_and!; simpl in *; try done. rewrite dom_insert_L. set_solver. }
  destruct (sa_alloc_ok s2 ({[e]} ∪ ({[tn]} ∪ L)) (if bool_decide (ty = E_COM_VNODE_TYPE_SOCKET) then sizeof_com_socket_vnode else sizeof_com_vnode))
    as (n & s3 & Hal & _ & Hn & Hi3 & Hr3); [apply HL2'|by case_bool_decide|simpl in *; lia|].
  unfold com_fs_vfs_alloc_vnode. rewrite (bool_decide_false (ty = E_COM_VNODE_TYPE_FIFO)) by done.
  destruct HL as (_ & Hd1 & Hd2 & Hd3).
  assert (Hfv : vnodes w !! n = None) by (apply not_elem_of_dom; set_solver).
  assert (Hft : tnodes (fsdata w) !! tn = None) by (apply not_elem_of_dom; set_solver).
  assert (Hfe : dirents (fsdata w) !! e = None) by (apply not_elem_of_dom; set_solver).
  exists e, n, tn.
  case_bool_decide as Hsock; unfold com_fs_sockfs_new; cbn [objs w2 set_dirent set_objs]; rewrite Hal; mstep;
    cbn [set_vnodes set_objs vnodes]; rewrite lookup_insert_eq; mstep; eexists _, ({[n]} ∪ ({[e]} ∪ ({[tn]} ∪ L)));
    (split; [done|]); cbn; rewrite ?insert_insert_eq;
    repeat (split; [try done; try lia|]); try done; try (simpl in *; lia);
    simpl; rewrite ?dom_insert_L; set_solver.
Qed.

(** A node that [create_common] made and that was given its data, entered into
    the directory. *)
Lemma link_node_added w d v t es name ty e n tn data w2 L :
  vnodes w !! d = Some v → tnodes (fsdata w) !! extra v = Some t → tn_data t = TDir es →
  vnodes w !! n = None → tnodes (fsdata w) !! tn = None → dirents (fsdata w) !! e = None →
  vnodes w2 = <[n := Vnode None (vfs v) TmpfsNodeOps ty 1 false tn]> (vnodes w) → vfss w2 = vfss w →
  tnodes (fsdata w2) = <[tn := Tnode (Some n) 1 (Some e) None data]> (tnodes (fsdata w)) →
  dirents (fsdata w2) = <[e := Dirent tn name]> (dirents (fsdata w)) → live_objs w2 L →
  (ty = E_COM_VNODE_TYPE_DIR → data = TDir []) → (ty = E_COM_VNODE_TYPE_LINK → ∃ p, data = TLink p) →
  (data = TZero ∨ (∃ c, data = TFile 0 c) ∨ data = TDir [] ∨ ∃ p, data = TLink p) →
  ∃ w', link_node d tn (Some e) w2 = Ok w' ∧ added w d name ty n w' ∧ live_objs w' L ∧
    vnodes w' = vnodes w2 ∧ tnodes (fsdata w') !! tn = Some (Tnode (Some n) 1 (Some e) (Some (extra v)) data) ∧
    cache (fsdata w') = cache (fsdata w2) ∧ tpages (fsdata w') = tpages (fsdata w2).
Proof.
  intros Hv Ht Hd Hn Htn He Hvn Hvf Hts Hds HL HD HK Hdata. assert (extra v ≠ tn) by congruence.
  unfold link_node, insert_tail. rewrite Hvn, lookup_insert_ne by congruence. rewrite Hv. mstep.
  rewrite Hts, lookup_insert_ne by done. rewrite Ht. mstep. rewrite Hd. cbn [as_dir]. mstep.
  cbn [set_tnode fsdata tnodes]. rewrite Hts, lookup_insert_ne, lookup_insert_eq by done. mstep.
  eexists. split; [done|]. split; [|split; [|split_and!; try done; simpl; by rewrite lookup_insert_eq]].
  - split. exists v, t, es, e, tn, data. split_and!; try done; simpl; try congruence.
    rewrite Hts, (insert_insert_ne _ tn (extra v)) by done. by rewrite insert_insert_eq.
  - destruct HL as (H1 & H2 & H3 & H4). split_and!; simpl; try done. rewrite !dom_insert_L. rewrite Hts, dom_insert_L in *.
    assert (extra v ∈ dom (tnodes (fsdata w))) by by apply elem_of_dom_2 in Ht. set_solver.
Qed.

Lemma added_ok w d name ty n w' L : tmpfs_ns w → added w d name ty n w' → live_objs w' L → tmpfs_ok w'.
Proof. intros Hns Ha HL. split; [by eapply added_ns|by exists L]. Qed.

Lemma added_type w d name ty n w' : added w d name ty n w' → vnodes w !! n = None ∧ type_at w' n = Some ty.
Proof.
  intros [(v & t & es & e & tn & data & _ & _ & _ & Hn & _ & _ & Hvn & _)]. split; [done|].
  unfold type_at. by rewrite Hvn, lookup_insert_eq.
Qed.
End added_lemmas.

Section create_properties.
Context {S A : Type} `{!SlabAlloc S} `{!PageAlloc A} `{!LibcConsts}.
Implicit Types (w : world S (tmpfs A)).

Lemma create_added w L d v name attr :
  tmpfs_ns w → live_objs w L → pa_inv (tpages (fsdata w)) → heap_owned (cache (fsdata w)) (tpages (fsdata w)) →
  vnodes w !! d = Some v → type v = E_COM_VNODE_TYPE_DIR →
  Z.of_nat (length name) ≤ 4048 → (3 ≤ sa_room (objs w))%nat → (0 < pa_free (tpages (fsdata w)))%nat →
  ∃ n w' L', com_fs_tmpfs_create d name attr 0 w = Ok (E0, Some n, w') ∧
    added w d name E_COM_VNODE_TYPE_FILE n w' ∧ live_objs w' L' ∧
    ∃ u t c, vnodes w' !! n = Some u ∧ tnodes (fsdata w') !! extra u = Some t ∧ tn_data t = TFile 0 c ∧ file_ok w' c.
Proof.
  intros Hns HL Hi Ho Hv Hty Hlen Hroom Hfr. destruct (tn_of w Hns d v Hv) as (_ & t & Ht & _ & Hdir & _). destruct (Hdir Hty) as [es Hes].
  destruct (create_common_spec w L d v name E_COM_VNODE_TYPE_FILE HL Hv Hty Hlen) as
    (e & n & tn & w1 & L1 & Hcc & Hn & Htn & He & Hvn & Hvf & Hts & Hds & Hca & Hpa & HL1 & _); [done|done|].
  unfold com_fs_tmpfs_create. rewrite Hcc. mstep. unfold tnode_of. rewrite Hvn, lookup_insert_eq. mstep. cbn [extra].
  rewrite Hts, lookup_insert_eq. mstep. change (attr_set COM_FS_TMPFS_ATTR_GHOST 0) with false. cbv iota.
  destruct (rx_new_spec 4 (cache (fsdata w1)) (tpages (fsdata w1))) as (c & h & a & Hnew & Hwf & Hly & Hlk);
    [lia|by rewrite Hpa|by rewrite Hca, Hpa|by rewrite Hpa|].
  unfold com_fs_pagecache_new. rewrite Hnew. mstep. cbn [extra].
  destruct (link_node_added w d v t es name E_COM_VNODE_TYPE_FILE e n tn (TFile 0 c)
    (set_tnode (set_cache w1 h a) tn (set_data (Tnode (Some n) 1 (Some e) None TZero) (TFile 0 c))) L1) as (w' & -> & Had & HL' & Hv' & Ht' & Hc' & Hp');
    try done; simpl.
  - rewrite Hts. apply insert_insert_eq.
  - destruct HL1 as (?&?&Hdt&?). split_and!; simpl; try done. rewrite Hts, !dom_insert_L in *. set_solver.
  - right. left. by eexists.
  - mstep. exists n, w', L1. split_and!; try done. rewrite Hv'. simpl. rewrite Hvn, lookup_insert_eq. eexists _, _, c.
    split_and!; [done|exact Ht'|done|]. split; rewrite ?Hc', ?Hp'; simpl; try done.
    + intros i q. by rewrite Hlk.
    + intros i j q _ _. by rewrite Hlk.
Qed.

Lemma mkdir_added w L d v name attr :
  tmpfs_ns w → live_objs w L → vnodes w !! d = Some v → type v = E_COM_VNODE_TYPE_DIR →
  Z.of_nat (length name) ≤ 4048 → (3 ≤ sa_room (objs w))%nat →
  ∃ n w' L', com_fs_tmpfs_mkdir d name attr 0 w = Ok (E0, Some n, w') ∧
    added w d name E_COM_VNODE_TYPE_DIR n w' ∧ live_objs w' L'.
Proof.
  intros Hns HL Hv Hty Hlen Hroom. destruct (tn_of w Hns d v Hv) as (_ & t & Ht & _ & Hdir & _). destruct (Hdir Hty) as [es Hes].
  destruct (create_common_spec w L d v name E_COM_VNODE_TYPE_DIR HL Hv Hty Hlen) as
    (e & n & tn & w1 & L1 & Hcc & Hn & Htn & He & Hvn & Hvf & Hts & Hds & Hca & Hpa & HL1 & _); [done|done|].
  assert (Hx : extra v ≠ tn) by congruence.
  unfold com_fs_tmpfs_mkdir. rewrite Hcc. mstep. unfold tnode_of. rewrite Hvn, lookup_insert_eq. mstep. cbn [extra].
  rewrite Hts, lookup_insert_eq. mstep. rewrite lookup_insert_ne by congruence. rewrite Hv. mstep.
  unfold insert_tail. cbn [set_tnode fsdata tnodes]. rewrite Hts, !lookup_insert_ne by done. rewrite Ht. mstep. rewrite Hes. cbn [as_dir]. mstep.
  eexists n, _, L1. split; [done|]. split.
  - split. exists v, t, es, e, tn, (TDir []). split_and!; try done; simpl; try (right; right; by left).
    by rewrite Hts, insert_insert_eq.
  - destruct HL1 as (?&?&Hdt&?). split_and!; simpl; try done. rewrite Hts, !dom_insert_L in *.
    apply elem_of_dom_2 in Ht. destruct HL as (_&_&?&_). set_solver.
Qed.

(** A directory just added is empty and knows its parent. *)
Lemma added_dir_empty w d name n w' nm :
  tmpfs_ns w → added w d name E_COM_VNODE_TYPE_DIR n w' →
  tmpfs_entry w' n nm = if is_dotdot nm then inl d else inr ENOENT.
Proof.
  intros Hns [(v & t & es & e & tn & data & Hv & Ht & Hd & Hn & Htn & He & Hvn & Hvf & Hts & Hds & HD & _)].
  assert (Hx : extra v ≠ tn) by congruence. destruct (tn_of w Hns d v Hv) as (_ & t0 & Ht0 & Htv & _). simplify_eq.
  unfold tmpfs_entry. rewrite Hvn, lookup_insert_eq. cbn [mbind option_bind extra]. rewrite Hts, lookup_insert_ne, lookup_insert_eq by done.
  cbn [mbind option_bind tn_parent tn_data]. destruct (is_dotdot nm).
  - rewrite lookup_insert_eq. simpl. by rewrite Htv.
  - by rewrite HD.
Qed.

(** C3: Creating a file in a directory: it succeeds, the new vnode is an empty
    regular file, looking the name up in that directory gives it, and every other
    lookup in every directory gives what it gave before; the file system stays
    well formed. *)
Theorem com_fs_tmpfs_create_lookup w d v name attr :
  tmpfs_ok w → pa_inv (tpages (fsdata w)) → heap_owned (cache (fsdata w)) (tpages (fsdata w)) →
  vnodes w !! d = Some v → type v = E_COM_VNODE_TYPE_DIR → is_dotdot name = false →
  tmpfs_entry w d name = inr ENOENT → Z.of_nat (length name) ≤ 4048 →
  (3 ≤ sa_room (objs w))%nat → (0 < pa_free (tpages (fsdata w)))%nat →
  ∃ n w', com_fs_tmpfs_create d name attr 0 w = Ok (E0, Some n, w') ∧ tmpfs_ok w' ∧
    vnodes w !! n = None ∧ type_at w' n = Some E_COM_VNODE_TYPE_FILE ∧
    (∃ w'', com_fs_tmpfs_lookup d name w' = Ok (E0, Some n, w'')) ∧
    (∃ u t c, vnodes w' !! n = Some u ∧ tnodes (fsdata w') !! extra u = Some t ∧ tn_data t = TFile 0 c ∧ file_ok w' c) ∧
    ∀ d' nm, type_at w d' = Some E_COM_VNODE_TYPE_DIR →
      tmpfs_entry w' d' nm = if decide (d' = d ∧ nm = name) then inl n else tmpfs_entry w d' nm.
Proof.
  intros [Hns [L HL]] Hi Ho Hv Hty Hdd Hent Hlen Hroom Hfr.
  destruct (create_added w L d v name attr Hns HL Hi Ho Hv Hty Hlen Hroom Hfr) as (n & w' & L' & Hr & Had & HL' & Hfile).
  exists n, w'. pose proof (added_type _ _ _ _ _ _ Had) as [Hn Ht]. pose proof (added_ns _ _ _ _ _ _ Hns Had) as Hns'.
  assert (Hent' : ∀ d' nm, type_at w d' = Some E_COM_VNODE_TYPE_DIR →
      tmpfs_entry w' d' nm = if decide (d' = d ∧ nm = name) then inl n else tmpfs_entry w d' nm).
  { intros d' nm Hd'%type_at_Some. by eapply added_entry. }
  split_and!; [done|by split; [|exists L']|done|done| |done|done].
  destruct Had as [(v0 & t & es & e & tn & data & Hv0 & _ & _ & _ & _ & _ & Hvn & _)]. simplify_eq.
  assert (Hv' : vnodes w' !! d = Some v) by (rewrite Hvn, lookup_insert_ne by congruence; done).
  pose proof (tmpfs_lookup_ok w' d v name Hns' Hv' Hty) as Hlk.
  rewrite Hent', decide_True in Hlk by (done || apply type_at_Some; by exists v).
  destruct Hlk as (_ & w'' & Hlk & _). by exists w''.
Qed.

(** Creating a directory: as for a file; the new directory has no entry, and
    ".." in it leads back to the directory it was created in. *)
Theorem com_fs_tmpfs_mkdir_lookup w d v name attr :
  tmpfs_ok w → vnodes w !! d = Some v → type v = E_COM_VNODE_TYPE_DIR → is_dotdot name = false →
  tmpfs_entry w d name = inr ENOENT → Z.of_nat (length name) ≤ 4048 → (3 ≤ sa_room (objs w))%nat →
  ∃ n w', com_fs_tmpfs_mkdir d name attr 0 w = Ok (E0, Some n, w') ∧ tmpfs_ok w' ∧
    vnodes w !! n = None ∧ type_at w' n = Some E_COM_VNODE_TYPE_DIR ∧
    (∀ d' nm, type_at w d' = Some E_COM_VNODE_TYPE_DIR →
      tmpfs_entry w' d' nm = if decide (d' = d ∧ nm = name) then inl n else tmpfs_entry w d' nm) ∧
    ∀ nm, tmpfs_entry w' n nm = if is_dotdot nm then inl d else inr ENOENT.
Proof.
  intros [Hns [L HL]] Hv Hty Hdd Hent Hlen Hroom.
  destruct (mkdir_added w L d v name attr Hns HL Hv Hty Hlen Hroom) as (n & w' & L' & Hr & Had & HL').
  exists n, w'. pose proof (added_type _ _ _ _ _ _ Had) as [Hn Ht].
  split_and!; try done; [by split; [eapply added_ns|exists L']| |by intros; eapply added_dir_empty].
  intros d' nm Hd'%type_at_Some. by eapply added_entry.
Qed.
End create_properties.

(** ** Removing a name *)
Section unlink.
Context {S A : Type} `{!SlabAlloc S} `{!PageAlloc A} `{!LibcConsts}.
Implicit Types (w : world S (tmpfs A)).

Lemma tailq_remove_app es1 e es2 : e ∉ es1 → tailq_remove (es1 ++ e :: es2) e = Ok (es1 ++ es2).
Proof.
  induction es1 as [|x es1 IH]; intros He; cbn [tailq_remove app]; [by rewrite Z.eqb_refl|].
  apply not_elem_of_cons in He as [Hx He]. destruct (Z.eqb_spec x e); [congruence|]. by rewrite IH.
Qed.

(** The entries of a directory have distinct names. *)
Definition names_distinct (ds : gmap Z tmpfs_dir_entry) (es : list Z) : Prop :=
  NoDup es ∧ ∀ e1 e2 d1 d2, e1 ∈ es → e2 ∈ es → ds !! e1 = Some d1 → ds !! e2 = Some d2 →
    ent_name d1 = ent_name d2 → e1 = e2.

Lemma find_entry_remove ds es1 e es2 d nm :
  names_distinct ds (es1 ++ e :: es2) → (∀ x, x ∈ es1 ++ e :: es2 → is_Some (ds !! x)) → ds !! e = Some d →
  find_entry (es1 ++ es2) nm ds = if decide (nm = ent_name d) then Ok None else find_entry (es1 ++ e :: es2) nm ds.
Proof.
  intros [Hnd Hinj] Hdom Hd. case_decide as Hn.
  - destruct (find_entry_ok ds (es1 ++ es2) nm) as (r & -> & Hr); [intros x Hx; apply Hdom; set_solver|].
    destruct r as [c|]; [|done]. exfalso. destruct Hr as (x & dx & Hx & Hdx & Hnx & _).
    assert (x = e) as -> by (apply (Hinj x e dx d); try done; [set_solver..|congruence]).
    apply NoDup_app in Hnd as (_ & Hn1 & Hn2%NoDup_cons). apply elem_of_app in Hx as [Hx|Hx]; [|naive_solver].
    apply (Hn1 e Hx). apply list_elem_of_here.
  - assert (∀ x, x ∈ es1 → is_Some (ds !! x)) as Hd1 by (intros; apply Hdom; set_solver).
    destruct (find_entry_ok ds es1 nm Hd1) as (r & Hf & _). destruct r as [c|].
    + by rewrite !(find_entry_app_some _ _ _ _ c) by done.
    + rewrite !find_entry_app by done. cbn [find_entry]. rewrite Hd. mstep. by rewrite bool_decide_false by congruence.
Qed.

(** Removing a file from its directory: the name is no longer found there and
    every other lookup in every directory gives what it gave before; the vnode
    loses one reference, and the file system stays well formed. *)
Theorem com_fs_tmpfs_unlink_removes `{!VnodeTables S (tmpfs A)} w n v t p pt d es e name flags :
  tmpfs_ns w → vnodes w !! n = Some v → type v ≠ E_COM_VNODE_TYPE_DIR → op_close (optab (ops v)) = None →
  tnodes (fsdata w) !! extra v = Some t → tn_parent t = Some p → tn_dirent t = Some e →
  tnodes (fsdata w) !! p = Some pt → tn_data pt = TDir es → tn_vnode pt = Some d → type_at w d = Some E_COM_VNODE_TYPE_DIR →
  (∀ u, vnodes w !! d = Some u → extra u = p) →
  e ∈ es → dirents (fsdata w) !! e = Some (Dirent (extra v) name) → names_distinct (dirents (fsdata w)) es →
  is_dotdot name = false →
  ∃ w', com_fs_tmpfs_unlink n flags w = Ok (E0, w') ∧ tmpfs_ns w' ∧
    vnodes w' !! n = Some (set_num_ref v (u64 (num_ref v - 1))) ∧
    ∀ d' nm, type_at w d' = Some E_COM_VNODE_TYPE_DIR →
      tmpfs_entry w' d' nm = if decide (d' = d ∧ nm = name) then inr ENOENT else tmpfs_entry w d' nm.
Proof.
  intros Hns Hv Hty Hcl Ht Hp He Hpt Hes Hpv Hd Hdx Hin Hde Hdist Hdd.
  destruct (list_elem_of_split es e Hin) as (es1 & es2 & ->).
  assert (He1 : e ∉ es1) by (destruct Hdist as [(_ & H1 & _)%NoDup_app _]; intros H2; apply (H1 e H2), list_elem_of_here).
  set (w1 := set_tnode w p (set_data pt (TDir (es1 ++ es2)))).
  set (w' := set_vnodes w1 (<[n := set_num_ref v (u64 (num_ref v - 1))]> (vnodes w1))).
  assert (Hr : com_fs_tmpfs_unlink n flags w = Ok (E0, w')).
  { unfold com_fs_tmpfs_unlink, tnode_of. rewrite Hv. mstep. rewrite Ht. mstep. rewrite bool_decide_false by done. mstep.
    rewrite bool_decide_true by done. cbn [negb]. rewrite Hp, Hpt. mstep. rewrite Hes. cbn [as_dir]. mstep. rewrite He. mstep.
    rewrite tailq_remove_app by done. mstep. unfold COM_FS_VFS_VNODE_RELEASE. cbn [set_tnode vnodes]. rewrite Hv. mstep. fold w1.
    change (vnodes w) with (vnodes w1). fold w'. destruct (_ =? 0); [|done].
    unfold com_fs_vfs_close, vnode_ops. cbn [w' set_vnodes vnodes]. rewrite lookup_insert_eq. mstep. cbn [ops set_num_ref]. by rewrite Hcl. }
  assert (Hsim : sim w1 w') by (apply sim_set; done).
  assert (Hold : ∀ x y, tnodes (fsdata w1) !! x = Some y → ∃ y0, tnodes (fsdata w) !! x = Some y0 ∧ tn_vnode y = tn_vnode y0 ∧
    tn_parent y = tn_parent y0 ∧ (y = y0 ∨ x = p ∧ tn_data y = TDir (es1 ++ es2))).
  { intros x y. cbn [w1 set_tnode fsdata tnodes]. destruct (decide (x = p)) as [->|].
    - rewrite lookup_insert_eq. intros [= <-]. exists pt. split_and!; try done. by right.
    - rewrite lookup_insert_ne by done. intros Hy. exists y. split_and!; try done. by left. }
  assert (Hnew : ∀ x y, tnodes (fsdata w) !! x = Some y → ∃ y', tnodes (fsdata w1) !! x = Some y' ∧ tn_vnode y' = tn_vnode y ∧
    tn_parent y' = tn_parent y ∧ (y' = y ∨ x = p ∧ tn_data y' = TDir (es1 ++ es2))).
  { intros x y Hy. cbn [w1 set_tnode fsdata tnodes]. destruct (decide (x = p)) as [->|].
    - rewrite lookup_insert_eq. eexists. split_and!; [done|by simplify_eq..|by right].
    - rewrite lookup_insert_ne by done. exists y. split_and!; try done. by left. }
  assert (Hns1 : tmpfs_ns w1).
  { split.
    - intros m u Hu. destruct (tn_of w Hns m u Hu) as (Ho & t0 & Ht0 & Htv & HD & HK). split; [done|].
      destruct (Hnew _ _ Ht0) as (t1 & Ht1 & Hv1 & _ & [->|[Hxp Hd1]]); [by exists t0|]. exists t1. split_and!; [done|congruence|by eexists|].
      intros [q Hq]%HK. exfalso. rewrite Hxp in Ht0. congruence.
    - intros x y es0 e0 Hy Hdy He0. destruct (Hold x y Hy) as (y0 & Hy0 & _ & _ & Hcase).
      assert (∃ es', tn_data y0 = TDir es' ∧ e0 ∈ es') as (es' & Hdy0 & He0').
      { destruct Hcase as [->|[-> Hd1]]; [by eexists|]. exists (es1 ++ e :: es2). split; [congruence|]. rewrite Hd1 in Hdy. injection Hdy as <-. set_solver. }
      destruct (tn_ents w Hns x y0 es' e0 Hy0 Hdy0 He0') as (d0 & c & o & Hd0 & Hc & Hco & Ho).
      destruct (Hnew _ _ Hc) as (c' & Hc' & Hcv & _). exists d0, c', o. split_and!; try done. congruence.
    - intros x y q Hy Hq. destruct (Hold x y Hy) as (y0 & Hy0 & _ & Hpar & _). rewrite Hpar in Hq.
      destruct (tn_par w Hns x y0 q Hy0 Hq) as (c & o & Hc & Hco & Ho). destruct (Hnew _ _ Hc) as (c' & Hc' & Hcv & _).
      exists c', o. split_and!; try done. congruence. }
  exists w'. split_and!; [done|by eapply tmpfs_ns_sim|by cbn [w' set_vnodes vnodes]; rewrite lookup_insert_eq|].
  intros d' nm (v' & Hv' & Hty')%type_at_Some. rewrite <- (tmpfs_entry_sim w1 w') by done.
  destruct (tn_of w Hns d' v' Hv') as (_ & t' & Ht' & Htv' & HD & _). destruct (HD Hty') as [es' Hes'].
  assert (Hvn : ∀ x, tnodes (fsdata w1) !! x ≫= tn_vnode = tnodes (fsdata w) !! x ≫= tn_vnode).
  { intros x. cbn [w1 set_tnode fsdata tnodes]. destruct (decide (x = p)) as [->|]; [by rewrite lookup_insert_eq, Hpt|by rewrite lookup_insert_ne]. }
  destruct (is_dotdot nm) eqn:Hdn.
  { rewrite decide_False by (intros [_ ->]; congruence). unfold tmpfs_entry. rewrite Hdn. change (vnodes w1) with (vnodes w).
    rewrite Hv'. cbn [mbind option_bind]. destruct (Hnew _ _ Ht') as (t1 & -> & _ & Hpar & _). rewrite Ht'. cbn [mbind option_bind].
    rewrite Hpar. destruct (tn_parent t') as [q|]; [|done]. by rewrite (Hvn q). }
  rewrite (tmpfs_entry_dir w d' v' t' es' nm Hv' Ht' Hes' Hdn).
  destruct (decide (extra v' = p)) as [Hxp|Hxp].
  - assert (d' = d) as -> by (rewrite Hxp in Ht'; congruence).
    assert (t' = pt) as -> by (rewrite Hxp in Ht'; congruence). assert (es' = es1 ++ e :: es2) as -> by congruence.
    rewrite (tmpfs_entry_dir w1 d v' (set_data pt (TDir (es1 ++ es2))) (es1 ++ es2) nm Hv'); [|cbn [w1 set_tnode fsdata tnodes]; by rewrite Hxp, lookup_insert_eq|done|done].
    change (dirents (fsdata w1)) with (dirents (fsdata w)). rewrite (find_entry_remove _ es1 e es2 (Dirent (extra v) name) nm Hdist); [|..|done].
    2:{ intros x Hx. destruct (tn_ents w Hns p pt _ x Hpt Hes Hx) as (? & ? & ? & -> & _). by eexists. }
    cbn [ent_name]. case_decide as Hnm; [by rewrite decide_True|]. rewrite decide_False by naive_solver.
    destruct (find_entry _ nm _) as [[c|]| | |]; try done. by rewrite Hvn.
  - rewrite decide_False.
    2:{ intros [-> _]. by apply Hxp, Hdx. }
    rewrite (tmpfs_entry_dir w1 d' v' t' es' nm Hv'); [|cbn [w1 set_tnode fsdata tnodes]; by rewrite lookup_insert_ne by congruence|done|done].
    change (dirents (fsdata w1)) with (dirents (fsdata w)).
    destruct (find_entry _ nm _) as [[c|]| | |]; try done. by rewrite Hvn.
Qed.

(** A directory that still has entries is not removed, with or without
    AT_REMOVEDIR, and an empty one only with it. *)
Theorem com_fs_tmpfs_unlink_directory `{!VnodeTables S (tmpfs A)} w n v t es flags :
  vnodes w !! n = Some v → type v = E_COM_VNODE_TYPE_DIR → tnodes (fsdata w) !! extra v = Some t → tn_data t = TDir es →
  (attr_set AT_REMOVEDIR flags = false → com_fs_tmpfs_unlink n flags w = Ok (EISDIR, w)) ∧
  (attr_set AT_REMOVEDIR flags = true → es ≠ [] → com_fs_tmpfs_unlink n flags w = Ok (ENOTEMPTY, w)).
Proof.
  intros Hv Hty Ht Hes. unfold com_fs_tmpfs_unlink, tnode_of. rewrite Hv. mstep. rewrite Ht. mstep.
  rewrite bool_decide_true by done. split.
  - intros ->. cbn [negb]. mstep. by rewrite bool_decide_false.
  - intros -> Hne. cbn [negb]. rewrite Hes. cbn [as_dir]. mstep. rewrite bool_decide_false by done. cbn [negb]. mstep. by rewrite bool_decide_false.
Qed.

(** Truncating sets the size alone. *)
Lemma truncate_spec w n v t size c size' :
  vnodes w !! n = Some v → type v ≠ E_COM_VNODE_TYPE_DIR → tnodes (fsdata w) !! extra v = Some t →
  tn_data t = TFile size c → file_ok w c →
  ∃ w', com_fs_tmpfs_truncate n size' w = Ok (E0, w') ∧ vnodes w' = vnodes w ∧
    tnodes (fsdata w') !! extra v = Some (set_data t (TFile size' c)) ∧ file_ok w' c.
Proof.
  intros Hv Hty Ht Hd Hf. exists (set_tnode w (extra v) (set_data t (TFile size' c))). split.
  - unfold com_fs_tmpfs_truncate. rewrite Hv. mstep. rewrite bool_decide_false by done. rewrite Ht. mstep. by rewrite Hd.
  - split; [done|]. split; [apply lookup_insert_eq|]. by destruct Hf.
Qed.

(** Cutting a file to nothing and growing it back changes nothing: what it
    held before is there again. *)
Theorem com_fs_tmpfs_truncate_keeps_data w n v t size c :
  vnodes w !! n = Some v → type v ≠ E_COM_VNODE_TYPE_DIR → tnodes (fsdata w) !! extra v = Some t → tn_data t = TFile size c →
  ∃ w1, com_fs_tmpfs_truncate n 0 w = Ok (E0, w1) ∧ com_fs_tmpfs_truncate n size w1 = Ok (E0, w).
Proof.
  intros Hv Hty Ht Hd. unfold com_fs_tmpfs_truncate. rewrite Hv. mstep. rewrite bool_decide_false by done. rewrite Ht. mstep.
  rewrite Hd. cbn [as_file]. mstep. eexists. split; [done|]. cbn [set_tnode vnodes fsdata tnodes]. rewrite Hv. mstep.
  rewrite bool_decide_false by done. rewrite lookup_insert_eq. mstep. do 2 f_equal. unfold set_tnode, set_data. simpl.
  rewrite insert_insert_eq. destruct w as [? ? ? ? []], t; simpl in *; subst. by rewrite insert_id.
Qed.
End unlink.



(** ** Mounting *)
Section mount.
Context {S A : Type} `{!SlabAlloc S} `{!PageAlloc A} `{!LibcConsts}.
Implicit Types (w : world S (tmpfs A)).

(** Mounting nowhere adds an empty root directory that is its own parent, and
    changes no lookup of what was there. *)
Lemma com_fs_tmpfs_mount_root w L :
  tmpfs_ns w → live_objs w L → (3 ≤ sa_room (objs w))%nat →
  ∃ fs r tn w' L', com_fs_tmpfs_mount None w = Ok (E0, Some fs, w') ∧ tmpfs_ns w' ∧ live_objs w' L' ∧
    vfss w' = <[fs := mkVfs None r]> (vfss w) ∧ vnodes w !! r = None ∧
    vnodes w' = <[r := Vnode None (Some fs) TmpfsNodeOps E_COM_VNODE_TYPE_DIR 1 true tn]> (vnodes w) ∧
    tnodes (fsdata w') = <[tn := Tnode (Some r) 0 None None (TDir [])]> (tnodes (fsdata w)) ∧
    dirents (fsdata w') = dirents (fsdata w) ∧ cache (fsdata w') = cache (fsdata w) ∧
    tpages (fsdata w') = tpages (fsdata w) ∧ (sa_room (objs w) ≤ sa_room (objs w') + 3)%nat.
Proof.
  intros Hns HL Hroom. unfold com_fs_tmpfs_mount.
  destruct (obj_alloc_spec w L sizeof_com_vfs HL) as (fs & s1 & -> & _ & HL1 & Hr1); [done|lia|]. mstep.
  destruct (obj_alloc_spec _ _ sizeof_tmpfs_node HL1) as (tn & s2 & -> & Htn & HL2 & Hr2); [done|simpl; lia|]. mstep.
  destruct HL2 as (Hi2 & Hv2 & Ht2 & Hd2). simpl in Hi2, Hv2, Ht2, Hd2, Hr2.
  destruct (sa_alloc_ok s2 _ sizeof_com_vnode Hi2) as (r & s3 & Hal & _ & Hr & Hi3 & Hr3); [done|lia|].
  unfold com_fs_vfs_alloc_vnode. rewrite !bool_decide_false by done. cbn [objs set_objs]. rewrite Hal. mstep.
  cbn [set_vnodes set_objs vnodes]. rewrite lookup_insert_eq. mstep.
  cbn [set_vnodes set_objs vnodes]. rewrite lookup_insert_eq. mstep.
  assert (Htf : tnodes (fsdata w) !! tn = None) by (apply not_elem_of_dom; destruct HL as (_&_&?&_); set_solver).
  assert (Hrf : vnodes w !! r = None) by (apply not_elem_of_dom; set_solver).
  eexists fs, r, tn, _, _. split; [done|]. simpl. rewrite ?insert_insert_eq.
  split; [|split; [split_and!; [exact Hi3|simpl; rewrite ?insert_insert_eq, dom_insert_L; set_solver..|simpl; set_solver]|split_and!; try done; lia]].
  split; simpl.
  - intros m u. rewrite ?insert_insert_eq. destruct (decide (m = r)) as [->|].
    + rewrite lookup_insert_eq. intros [= <-]. simpl. split; [done|]. rewrite lookup_insert_eq. eexists. split_and!; try done. by eexists.
    + rewrite lookup_insert_ne by done. intros Hu. destruct (tn_of w Hns m u Hu) as (Ho & t0 & Ht0 & Hrest). split; [done|].
      exists t0. rewrite lookup_insert_ne by congruence. done.
  - intros x y es e. destruct (decide (x = tn)) as [->|].
    + rewrite lookup_insert_eq. intros [= <-]. simpl. intros [= <-] He. by apply elem_of_nil in He.
    + rewrite lookup_insert_ne by done. intros Hy Hdy He. destruct (tn_ents w Hns x y es e Hy Hdy He) as (d & c & o & ? & ? & ? & [u Hu]).
      exists d, c, o. rewrite lookup_insert_ne by congruence. split_and!; try done. rewrite ?insert_insert_eq, lookup_insert_ne by congruence. by eexists.
  - intros x y p. destruct (decide (x = tn)) as [->|].
    + rewrite lookup_insert_eq. by intros [= <-].
    + rewrite lookup_insert_ne by done. intros Hy Hp. destruct (tn_par w Hns x y p Hy Hp) as (c & o & ? & ? & [u Hu]).
      exists c, o. rewrite lookup_insert_ne by congruence. split_and!; try done. rewrite ?insert_insert_eq, lookup_insert_ne by congruence. by eexists.
Qed.
End mount.

(** ** A concrete kernel

    The constants of the C library as Linux has them. *)
#[local] Instance demo_libc : LibcConsts := {
  S_IFREG := 32768; S_IFDIR := 16384; S_IFLNK := 40960; S_IFSOCK := 49152; AT_REMOVEDIR := 512;
  DT_UNKNOWN := 0; DT_DIR := 4; DT_REG := 8; DT_LNK := 10; DT_CHR := 2; DT_FIFO := 1; DT_SOCK := 12; DT_BLK := 6 }.

Abbreviation demo_world := (world (slab bump) (tmpfs bump)).

Definition empty_world : demo_world :=
  World ∅ ∅ (λ _, 0) (slab_init (Bump 1)) (Tmpfs ∅ ∅ ∅ (Bump 1000)).

(** The root of a file system just mounted. *)
Definition mounted_root (fs : option Z) (w : demo_world) : res Z :=
  f ← deref fs; v ← deref (vfss w !! f); Ok (vfs_root v).

(** *** A root directory with one file, /a *)
Definition demo_w1 : demo_world :=
  match com_fs_tmpfs_mount None empty_world with Ok (_, _, w) => w | _ => empty_world end.
Definition demo_root : Z :=
  match com_fs_tmpfs_mount None empty_world with
  | Ok (_, fs, w) => match mounted_root fs w with Ok r => r | _ => 0 end
  | _ => 0
  end.
Definition demo_w2 : demo_world :=
  match com_fs_tmpfs_create demo_root [97] 0 0 demo_w1 with Ok (_, _, w) => w | _ => demo_w1 end.
Definition demo_file : Z :=
  match com_fs_tmpfs_create demo_root [97] 0 0 demo_w1 with Ok (_, Some n, _) => n | _ => 0 end.

Lemma demo_room (b : Z) : 0 ≤ b ≤ 100000 → (200 ≤ pa_free (Bump b))%nat.
Proof. intros. simpl. lia. Qed.

Lemma empty_world_ok : tmpfs_ns empty_world ∧ live_objs empty_world ∅.
Proof.
  split; [split; done|]. split_and!; try done. exists ∅. split; [apply slab_init_wf; simpl; lia|done].
Qed.

Lemma demo_w1_ok : ∃ L fs tn,
  tmpfs_ns demo_w1 ∧ live_objs demo_w1 L ∧ (100 ≤ sa_room (objs demo_w1))%nat ∧
  vnodes demo_w1 = {[demo_root := Vnode None (Some fs) TmpfsNodeOps E_COM_VNODE_TYPE_DIR 1 true tn]} ∧
  vfss demo_w1 = {[fs := mkVfs None demo_root]} ∧ cache (fsdata demo_w1) = ∅ ∧ tpages (fsdata demo_w1) = Bump 1000.
Proof.
  destruct empty_world_ok as [Hns HL].
  destruct (com_fs_tmpfs_mount_root empty_world ∅ Hns HL) as (fs & r & tn & w' & L' & Hr & Hns' & HL' & Hvf & _ & Hvn & _ & _ & Hca & Hpa & Hroom);
    [simpl; lia|].
  assert (Hw : demo_w1 = w') by (unfold demo_w1; by rewrite Hr).
  assert (Hroot : demo_root = r).
  { unfold demo_root, mounted_root. rewrite Hr. mstep. by rewrite Hvf, lookup_insert_eq. }
  rewrite Hw, Hroot. exists L', fs, tn. rewrite Hvn, Hvf, Hca, Hpa. split_and!; [exact Hns'|exact HL'| |reflexivity..].
  pose proof (demo_room 1 ltac:(lia)) as Hd. change (sa_room (objs empty_world)) with (pa_free (Bump 1)) in Hroom.
  generalize dependent (pa_free (Bump 1)). intros. lia.
Qed.

Lemma demo_w2_ok : ∃ L fs tn tn' t c,
  tmpfs_ns demo_w2 ∧ live_objs demo_w2 L ∧ demo_file ≠ demo_root ∧
  vnodes demo_w2 = <[demo_file := Vnode None (Some fs) TmpfsNodeOps E_COM_VNODE_TYPE_FILE 1 false tn']>
    {[demo_root := Vnode None (Some fs) TmpfsNodeOps E_COM_VNODE_TYPE_DIR 1 true tn]} ∧
  vfss demo_w2 = {[fs := mkVfs None demo_root]} ∧
  tnodes (fsdata demo_w2) !! tn' = Some t ∧ tn_data t = TFile 0 c ∧ file_ok demo_w2 c.
Proof.
  destruct demo_w1_ok as (L & fs & tn & Hns & HL & Hroom & Hvn & Hvf & Hca & Hpa).
  assert (Hv : vnodes demo_w1 !! demo_root = Some (Vnode None (Some fs) TmpfsNodeOps E_COM_VNODE_TYPE_DIR 1 true tn)) by (rewrite Hvn; by rewrite lookup_singleton_eq).
  destruct (create_added demo_w1 L demo_root (Vnode None (Some fs) TmpfsNodeOps E_COM_VNODE_TYPE_DIR 1 true tn) [97] 0 Hns HL) as (n & w' & L' & Hr & Had & HL' & u & t & c & Hu & Ht & Hd & Hf).
  - rewrite Hpa. simpl. lia.
  - rewrite Hca. intros x _ [y Hx]. by rewrite lookup_empty in Hx.
  - exact Hv.
  - reflexivity.
  - simpl. lia.
  - eapply Nat.le_trans; [|exact Hroom]. lia.
  - rewrite Hpa. eapply Nat.lt_le_trans; [|apply demo_room]; lia.
  - assert (Hw : demo_w2 = w') by (unfold demo_w2; by rewrite Hr).
    assert (Hn : demo_file = n) by (unfold demo_file; by rewrite Hr). rewrite Hw, Hn.
    pose proof (added_ns _ _ _ _ _ _ Hns Had) as Hns'.
    destruct Had as [(v & t0 & es & e & tn' & data & Hv' & _ & _ & Hnew & _ & _ & Hvn' & Hvf' & _)].
    assert (Hu' := Hu). rewrite Hvn', lookup_insert_eq in Hu'. injection Hu' as <-. simpl in Ht.
    exists L', fs, tn, tn', t, c. rewrite Hvn', Hvf', Hvn. rewrite Hv in Hv'. injection Hv' as <-.
    split_and!; [exact Hns'|exact HL'|intros ->; congruence|reflexivity|exact Hvf|exact Ht|exact Hd|exact Hf].
Qed.

(** A tree with the directories /a, /a/c and /c and the symbolic links
    /s -> /a, /l -> /s/c and /a/x -> /c. Returns the root. *)
Definition demo_tree : res (Z * demo_world) :=
  '(_, fs, w) ← com_fs_tmpfs_mount None empty_world;
  r ← mounted_root fs w;
  '(_, a, w) ← com_fs_tmpfs_mkdir r [97] 0 0 w;
  a ← deref a;
  '(_, _, w) ← com_fs_tmpfs_mkdir a [99] 0 0 w;
  '(_, _, w) ← com_fs_tmpfs_mkdir r [99] 0 0 w;
  '(_, w) ← com_fs_tmpfs_symlink r [115] [47; 97] w;
  '(_, w) ← com_fs_tmpfs_symlink r [108] [47; 115; 47; 99] w;
  '(_, w) ← com_fs_tmpfs_symlink a [120] [47; 99] w;
  Ok (r, w).

(** The vnode a path names in [demo_tree], links followed. *)
Definition demo_lookup (path : list Z) : res (errno * option Z) :=
  '(r, w) ← demo_tree;
  '(ret, out, _) ← com_fs_vfs_lookup path r (Some r) true w;
  Ok (ret, out).

(** A symbolic link whose text goes through another symbolic link: what
    follows the inner link is dropped. /l names /s/c, and /s is /a, but /l
    gives the vnode of /a and not that of /a/c. *)
Theorem symlink_text_truncated :
  ∃ a c, a ≠ c ∧ demo_lookup [47; 97] = Ok (E0, Some a) ∧ demo_lookup [47; 97; 47; 99] = Ok (E0, Some c) ∧
    demo_lookup [47; 115; 47; 99] = Ok (E0, Some c) ∧ demo_lookup [47; 108] = Ok (E0, Some a).
Proof. eexists _, _. split_and!; [|vm_compute; reflexivity..]. done. Qed.

(** A link to an absolute path met after another link: the path is walked
    from where the first link led, not from the root. /a/x names /c, and /s is
    /a, but /s/x gives the vnode of /a/c. *)
Theorem symlink_root_replaced :
  ∃ c ac, c ≠ ac ∧ demo_lookup [47; 99] = Ok (E0, Some c) ∧ demo_lookup [47; 97; 47; 99] = Ok (E0, Some ac) ∧
    demo_lookup [47; 97; 47; 120] = Ok (E0, Some c) ∧ demo_lookup [47; 115; 47; 120] = Ok (E0, Some ac).
Proof. eexists _, _. split_and!; [|vm_compute; reflexivity..]. done. Qed.

(** *** What the theorems ask of a world, for the demo worlds *)
#[local] Opaque demo_w1 demo_w2 demo_root demo_file.

Lemma demo_w1_root : ∃ fs tn, vnodes demo_w1 !! demo_root = Some (Vnode None (Some fs) TmpfsNodeOps E_COM_VNODE_TYPE_DIR 1 true tn).
Proof. destruct demo_w1_ok as (_ & fs & tn & _ & _ & _ & -> & _). exists fs, tn. by rewrite lookup_singleton_eq. Qed.

Lemma demo_w2_vnodes n v : vnodes demo_w2 !! n = Some v →
  mountpointof v = None ∧ num_ref v = 1 ∧ type v ≠ E_COM_VNODE_TYPE_LINK ∧
  ∃ f, vfs v = Some f ∧ vfss demo_w2 !! f = Some (mkVfs None demo_root).
Proof.
  destruct demo_w2_ok as (_ & fs & tn & tn' & t & c & _ & _ & _ & -> & -> & _).
  intros [[<- <-]|[_ [<- <-]%lookup_singleton_Some]]%lookup_insert_Some; simpl; split_and!; try done; exists fs; by rewrite lookup_singleton_eq.
Qed.

Lemma demo_w2_ns_ok : ns_ok demo_w2.
Proof.
  split.
  - intros n v (_ & _ & _ & f & Hf & Hfs)%demo_w2_vnodes _. exists f, (mkVfs None demo_root). split; [exact Hf|]. split; [exact Hfs|intros m [=]].
  - intros n v f (Hm & _)%demo_w2_vnodes. congruence.
  - exists (λ _, 0%nat), (λ _, 0%nat). unfold up_step, down_step. split; intros a b.
    + destruct (vnodes demo_w2 !! a) as [v|] eqn:Hv; [|done]. cbn [mbind option_bind].
      destruct (demo_w2_vnodes _ _ Hv) as (_ & _ & _ & f & -> & Hfs). cbn [mbind option_bind]. rewrite Hfs. by destruct (isroot v).
    + destruct (vnodes demo_w2 !! a) as [v|] eqn:Hv; [|done]. cbn [mbind option_bind].
      by destruct (demo_w2_vnodes _ _ Hv) as (-> & _).
Qed.

Lemma demo_w2_refs k : Z.of_nat k ≤ 100000 → refs_ok demo_w2 k.
Proof.
  intros Hk n v Hv. destruct (demo_w2_vnodes n v Hv) as (_ & Hr & _). rewrite Hr. split; [done|].
  apply Z.le_lt_trans with (1 + 100000); [lia|done].
Qed.

Lemma demo_w2_links L : links_short demo_w2 L.
Proof. intros n (v & Hv & Hty)%type_at_Some. destruct (demo_w2_vnodes n v Hv) as (_ & _ & Hn & _). destruct (Hn Hty). Qed.

Lemma demo_w2_fs_ok : fs_ok demo_w2.
Proof. destruct demo_w2_ok as (_ & _ & _ & _ & _ & _ & Hns & _). exact Hns. Qed.

Lemma demo_w2_not_link : not_link demo_w2 demo_root.
Proof. exists E_COM_VNODE_TYPE_DIR. split; [by vm_compute|done]. Qed.

Lemma com_fs_vfs_lookup_total_witness :
  ∃ ret out w' refs, com_fs_vfs_lookup [47; 97] demo_root (Some demo_root) true demo_w2 = Ok (ret, out, w') ∧
    held demo_w2 refs w' ∧ lookup_result demo_w2 true ret out refs.
Proof.
  apply (com_fs_vfs_lookup_total demo_w2 0 [47; 97] demo_root demo_root true demo_w2_fs_ok demo_w2_ns_ok (demo_w2_links 0));
    [apply demo_w2_refs; vm_compute; discriminate|apply demo_w2_not_link..].
Defined.

Lemma com_fs_vfs_lookup_resolves_witness :
  ∃ w' refs, com_fs_vfs_lookup [47; 46; 47; 97] demo_root (Some demo_root) true demo_w2 = Ok (E0, Some demo_file, w') ∧
    held demo_w2 refs w' ∧ demo_file ∈ refs.
Proof.
  apply (com_fs_vfs_lookup_resolves demo_w2 [47; 46; 47; 97] demo_root demo_root true demo_w2_fs_ok demo_w2_ns_ok);
    [apply demo_w2_refs; vm_compute; discriminate|apply demo_w2_not_link..|vm_compute; reflexivity].
Defined.

Lemma lookup_leaks_directory_witness :
  ∃ w' v, com_fs_vfs_lookup [97] demo_root (Some demo_root) true demo_w2 = Ok (E0, Some demo_file, w') ∧
    vnodes demo_w2 !! demo_root = Some v ∧ num_ref v = 1 ∧ vnodes w' !! demo_root = Some (set_num_ref v 2).
Proof.
  destruct demo_w2_ok as (_ & fs & tn & tn' & t & c & Hns & _ & Hne & Hvn & _).
  destruct (lookup_leaks_directory demo_w2 demo_root demo_root [97] demo_file
    (Vnode None (Some fs) TmpfsNodeOps E_COM_VNODE_TYPE_FILE 1 false tn') true demo_w2_fs_ok) as (w' & Hl & Hr).
  - apply demo_w2_refs. done.
  - vm_compute. reflexivity.
  - discriminate.
  - by constructor.
  - reflexivity.
  - reflexivity.
  - vm_compute. reflexivity.
  - exact Hne.
  - by rewrite Hvn, lookup_insert_eq.
  - reflexivity.
  - discriminate.
  - eexists w', _. split; [exact Hl|]. rewrite Hvn, lookup_insert_ne, lookup_singleton_eq by done. split; [done|]. split; [done|].
    rewrite (Hr demo_root (Vnode None (Some fs) TmpfsNodeOps E_COM_VNODE_TYPE_DIR 1 true tn)).
    + rewrite decide_True by (by right). done.
    + by rewrite Hvn, lookup_insert_ne, lookup_singleton_eq.
Defined.

(** The error and the result of a lookup, and the type of the root after it. *)
Definition demo_outcome (r : res (errno * option Z * demo_world)) : option (errno * option Z * option com_vnode_type) :=
  match r with Ok (e, o, w) => Some (e, o, type_at w demo_root) | _ => None end.

(** Creating /b from the directory of the file system made by [demo_w2]. *)
Lemma create_any_root_in_cwd_witness :
  ∃ w1 w2, com_fs_vfs_lookup [47; 98] demo_root (Some demo_root) true demo_w2 = Ok (ENOENT, None, w1) ∧
    com_fs_vfs_create_any [47; 98] demo_root (Some demo_root) 0 true true com_fs_vfs_create demo_w2 =
      '(ret, vnode, w3) ← com_fs_vfs_create demo_root [98] 0 w2;
      w4 ← COM_FS_VFS_VNODE_RELEASE (Some demo_root) w3; Ok (ret, vnode, w4).
Proof.
  assert (Ho : demo_outcome (com_fs_vfs_lookup [47; 98] demo_root (Some demo_root) true demo_w2) =
    Some (ENOENT, None, Some E_COM_VNODE_TYPE_DIR)) by (vm_compute; reflexivity).
  destruct (com_fs_vfs_lookup [47; 98] demo_root (Some demo_root) true demo_w2) as [[[e o] w1]| | |] eqn:Hl;
    [|discriminate Ho..].
  cbn [demo_outcome] in Ho. injection Ho as -> -> Hv. apply type_at_Some in Hv as (v & Hv & Hty).
  destruct (create_any_root_in_cwd demo_w2 demo_root demo_root v 0 true true com_fs_vfs_create [98] ENOENT w1)
    as (w2 & _ & Hc); [done|by constructor|done|exact Hl|exact Hv|congruence|].
  exists w1, w2. split; [reflexivity|exact Hc].
Defined.

Lemma com_fs_tmpfs_create_lookup_witness : ∃ n w', com_fs_tmpfs_create demo_root [97] 0 0 demo_w1 = Ok (E0, Some n, w') ∧ tmpfs_ok w'.
Proof.
  destruct demo_w1_ok as (L & fs & tn & Hns & HL & Hroom & Hvn & _ & Hca & Hpa).
  destruct (com_fs_tmpfs_create_lookup demo_w1 demo_root (Vnode None (Some fs) TmpfsNodeOps E_COM_VNODE_TYPE_DIR 1 true tn) [97] 0)
    as (n & w' & Hc & Hok & _).
  - split; [exact Hns|exists L; exact HL].
  - rewrite Hpa. simpl. lia.
  - rewrite Hca. intros x _ [y Hx]. by rewrite lookup_empty in Hx.
  - by rewrite Hvn, lookup_singleton_eq.
  - reflexivity.
  - reflexivity.
  - vm_compute. reflexivity.
  - simpl. lia.
  - eapply Nat.le_trans; [|exact Hroom]. lia.
  - rewrite Hpa. eapply Nat.lt_le_trans; [|apply demo_room]; lia.
  - exists n, w'. split; [exact Hc|exact Hok].
Defined.

Lemma com_fs_tmpfs_mkdir_lookup_witness : ∃ n w', com_fs_tmpfs_mkdir demo_root [97] 0 0 demo_w1 = Ok (E0, Some n, w') ∧ tmpfs_ok w'.
Proof.
  destruct demo_w1_ok as (L & fs & tn & Hns & HL & Hroom & Hvn & _).
  destruct (com_fs_tmpfs_mkdir_lookup demo_w1 demo_root (Vnode None (Some fs) TmpfsNodeOps E_COM_VNODE_TYPE_DIR 1 true tn) [97] 0)
    as (n & w' & Hc & Hok & _).
  - split; [exact Hns|exists L; exact HL].
  - by rewrite Hvn, lookup_singleton_eq.
  - reflexivity.
  - reflexivity.
  - vm_compute. reflexivity.
  - simpl. lia.
  - eapply Nat.le_trans; [|exact Hroom]. lia.
  - exists n, w'. split; [exact Hc|exact Hok].
Defined.

(** A file of [demo_w2], its tmpfs node and its page cache. *)
Lemma demo_w2_file : ∃ fs tn' t c,
  vnodes demo_w2 !! demo_file = Some (Vnode None (Some fs) TmpfsNodeOps E_COM_VNODE_TYPE_FILE 1 false tn') ∧
  tnodes (fsdata demo_w2) !! tn' = Some t ∧ tn_data t = TFile 0 c ∧ file_ok demo_w2 c.
Proof.
  destruct demo_w2_ok as (_ & fs & tn & tn' & t & c & _ & _ & _ & Hvn & _ & Ht & Hd & Hf).
  exists fs, tn', t, c. split; [by rewrite Hvn, lookup_insert_eq|]. split; [exact Ht|]. split; [exact Hd|exact Hf].
Qed.

Lemma demo_w2_pages : (4 * io_fuel 10 ≤ pa_free (tpages (fsdata demo_w2)))%nat.
Proof.
  assert (tpages (fsdata demo_w2) = Bump 1001) as -> by (vm_compute; reflexivity).
  eapply Nat.le_trans; [|apply demo_room]; [|lia]. change (io_fuel 10) with 3%nat. lia.
Qed.

(** The file grown to ten bytes, which read as zero. *)
Lemma com_fs_tmpfs_read_contents_witness :
  ∃ w c m', com_fs_tmpfs_truncate demo_file 10 demo_w2 = Ok (E0, w) ∧
    com_fs_tmpfs_read 4096 20 demo_file 3 0 w = Ok (E0, Some 7, set_umem w m') ∧ m' 4098 = file_byte w c 5 ∧
    m' 4103 = umem w 4103.
Proof.
  destruct demo_w2_file as (fs & tn' & t & c & Hv & Ht & Hd & Hf).
  destruct (truncate_spec demo_w2 demo_file _ t 0 c 10 Hv) as (w & Hw & Hvw & Htw & Hfw);
    [discriminate|exact Ht|exact Hd|exact Hf|]. rewrite <- Hvw in Hv.
  destruct (com_fs_tmpfs_read_contents w demo_file _ (set_data t (TFile 10 c)) 10 c 4096 20 3 0 Hv) as (m' & Hr & Hm);
    [discriminate|exact Htw|reflexivity|exact Hfw|split; vm_compute; discriminate
    |vm_compute; discriminate..|reflexivity|vm_compute; discriminate|].
  exists w, c, m'. split; [exact Hw|]. split; [exact Hr|]. rewrite !Hm. split; reflexivity.
Defined.

Lemma com_fs_tmpfs_write_contents_witness :
  ∃ w' c, com_fs_tmpfs_write demo_file 4096 10 8190 0 demo_w2 = Ok (E0, Some 10, w') ∧ file_ok w' c ∧
    file_byte w' c 8192 = umem demo_w2 4098.
Proof.
  destruct demo_w2_file as (fs & tn' & t & c & Hv & Ht & Hd & Hf).
  destruct (com_fs_tmpfs_write_contents demo_w2 demo_file _ t 0 c 4096 10 8190 0 Hv) as (w' & Hr & Hf' & Hb & _);
    [discriminate|exact Ht|exact Hd|exact Hf|vm_compute; discriminate|reflexivity|vm_compute; discriminate..|apply demo_w2_pages|].
  exists w', c. split; [exact Hr|]. split; [exact Hf'|]. rewrite Hb by (split; reflexivity || discriminate). reflexivity.
Defined.

Lemma com_fs_tmpfs_truncate_keeps_data_witness :
  ∃ w1, com_fs_tmpfs_truncate demo_file 0 demo_w2 = Ok (E0, w1) ∧ com_fs_tmpfs_truncate demo_file 0 w1 = Ok (E0, demo_w2).
Proof.
  destruct demo_w2_file as (fs & tn' & t & c & Hv & Ht & Hd & Hf).
  apply (com_fs_tmpfs_truncate_keeps_data demo_w2 demo_file _ t 0 c Hv); [discriminate|exact Ht|exact Hd].
Defined.

Lemma com_fs_tmpfs_unlink_removes_witness :
  ∃ w', com_fs_tmpfs_unlink demo_file 0 demo_w2 = Ok (E0, w') ∧ tmpfs_entry demo_w2 demo_root [97] = inl demo_file ∧
    tmpfs_entry w' demo_root [97] = inr ENOENT.
Proof.
  edestruct (com_fs_tmpfs_unlink_removes demo_w2 demo_file) as (w' & Hr & _ & _ & He).
  - exact demo_w2_fs_ok.
  - vm_compute. reflexivity.
  - discriminate.
  - reflexivity.
  - vm_compute. reflexivity.
  - reflexivity.
  - reflexivity.
  - vm_compute. reflexivity.
  - reflexivity.
  - reflexivity.
  - vm_compute. reflexivity.
  - intros u Hu. vm_compute in Hu. injection Hu as <-. reflexivity.
  - apply list_elem_of_here.
  - vm_compute. reflexivity.
  - split; [apply NoDup_singleton|]. intros e1 e2 d1 d2 ->%list_elem_of_singleton ->%list_elem_of_singleton _ _ _. reflexivity.
  - reflexivity.
  - exists w'. split; [exact Hr|]. split; [vm_compute; reflexivity|].
    rewrite He by (vm_compute; reflexivity). apply decide_True. split; vm_compute; reflexivity.
Defined.

Lemma com_fs_tmpfs_unlink_directory_witness :
  com_fs_tmpfs_unlink demo_root 0 demo_w2 = Ok (EISDIR, demo_w2) ∧
  com_fs_tmpfs_unlink demo_root AT_REMOVEDIR demo_w2 = Ok (ENOTEMPTY, demo_w2).
Proof.
  split.
  - eapply (com_fs_tmpfs_unlink_directory demo_w2 demo_root);
      [vm_compute; reflexivity|reflexivity|vm_compute; reflexivity|reflexivity|reflexivity].
  - eapply (com_fs_tmpfs_unlink_directory demo_w2 demo_root);
      [vm_compute; reflexivity|reflexivity|vm_compute; reflexivity|reflexivity|reflexivity|discriminate].
Defined.
