(* ===== verification/Locks.v ===== *)
(** * Locks: src/com/lib/spinlock.c and src/com/lib/rwlock.c

    A lock is shared by threads that run in any order. Each thread is at a
    point of the function it is in; what it does from there up to the next
    point where another thread can come in between is one step, a function of
    the lock and the thread. The reachable states are those that the steps of
    the threads, in every order, lead to.

    - Spinlock: one step per access to the lock word, together with the
      interrupt flag and the lock depth of the thread.
    - Mutex and reader-writer lock: one step per section between taking the
      inner spinlock and releasing it (or falling asleep, which releases it);
      another thread never sees the fields inside such a section, by
      [spin_mutual_exclusion]. A sleeping thread is woken by a notification,
      by a signal, or by its timer. *)
From Stdlib Require Import Relations.
From S2P Require Import Prelude.

(** ** Counting threads *)
Definition cnt {A} (P : A → bool) (m : gmap Z A) : nat := size (filter (λ kv, P kv.2 = true) m).

Lemma cnt_insert {A} (P : A → bool) (m : gmap Z A) i x y :
  m !! i = Some x →
  (cnt P (<[i := y]> m) + (if P x then 1 else 0) = cnt P m + (if P y then 1 else 0))%nat.
Proof.
  intros Hi. unfold cnt.
  assert (Hd : filter (λ kv, P kv.2 = true) (delete i m) !! i = None).
  { apply map_lookup_filter_None. left. apply lookup_delete_eq. }
  assert (Hm : ∀ z, size (filter (λ kv, P kv.2 = true) (<[i := z]> (delete i m))) =
    (size (filter (λ kv, P kv.2 = true) (delete i m)) + (if P z then 1 else 0))%nat).
  { intros z. destruct (P z) eqn:Hz.
    - rewrite map_filter_insert_True by done. rewrite map_size_insert_None by done. lia.
    - rewrite map_filter_insert_False by (simpl; congruence). rewrite delete_delete_eq. lia. }
  rewrite <- (insert_delete_id m i x Hi) at 2. rewrite <- (insert_delete_eq m i y). rewrite !Hm. lia.
Qed.

Lemma cnt_pos {A} (P : A → bool) (m : gmap Z A) : (0 < cnt P m)%nat → ∃ i x, m !! i = Some x ∧ P x = true.
Proof.
  unfold cnt. intros Hs. destruct (map_choose (filter (λ kv, P kv.2 = true) m)) as (i & x & [Hi Hx]%map_lookup_filter_Some).
  - intros He. rewrite He, map_size_empty in Hs. lia.
  - by exists i, x.
Qed.

Lemma cnt_le {A} (P : A → bool) (m : gmap Z A) : (cnt P m ≤ size m)%nat.
Proof. unfold cnt. apply map_subseteq_size. apply map_filter_subseteq. Qed.

Lemma cnt_at {A} (P : A → bool) (m : gmap Z A) i x : m !! i = Some x → P x = true → (1 ≤ cnt P m)%nat.
Proof.
  intros Hi Hx. unfold cnt. destruct (decide (size (filter (λ kv, P kv.2 = true) m) = 0%nat)) as [H0|]; [|lia].
  apply map_size_empty_inv in H0. assert (He : filter (λ kv, P kv.2 = true) m !! i = Some x) by (by apply map_lookup_filter_Some).
  by rewrite H0, lookup_empty in He.
Qed.

(** Two threads counted by [P] are the same one when there is only one. *)
Lemma cnt_unique {A} (P : A → bool) (m : gmap Z A) i j x y :
  (cnt P m ≤ 1)%nat → m !! i = Some x → P x = true → m !! j = Some y → P y = true → i = j.
Proof.
  intros Hc Hi Hx Hj Hy. destruct (decide (i = j)) as [|Hne]; [done|]. exfalso.
  unfold cnt in Hc. set (f := filter _ m) in Hc.
  assert (Hfi : f !! i = Some x) by (by apply map_lookup_filter_Some).
  assert (Hfj : delete i f !! j = Some y) by (rewrite lookup_delete_ne by done; by apply map_lookup_filter_Some).
  rewrite <- (insert_delete_id f i x Hfi), map_size_insert_None in Hc by apply lookup_delete_eq.
  rewrite <- (insert_delete_id _ j y Hfj), map_size_insert_None in Hc by apply lookup_delete_eq. lia.
Qed.

(** ** Spinlock *)
Definition KSPINLOCK_HELD_VALUE : Z := 1.
Definition KSPINLOCK_FREE_VALUE : Z := 0.

(** The processor a thread runs on: whether it takes interrupts, and the lock
    depth of the thread ([None] where there is no current thread). *)
Record cpu_thread : Type := CpuThread { interrupts : bool; lock_depth : option Z }.

Definition ARCH_CPU_DISABLE_INTERRUPTS (c : cpu_thread) : cpu_thread := CpuThread false (lock_depth c).
Definition ARCH_CPU_ENABLE_INTERRUPTS (c : cpu_thread) : cpu_thread := CpuThread true (lock_depth c).
Definition INCREMENT_LOCK_DEPTH (c : cpu_thread) : cpu_thread :=
  CpuThread (interrupts c) ((λ d, d + 1) <$> lock_depth c).
Definition DECREMENT_LOCK_DEPTH (c : cpu_thread) : cpu_thread :=
  CpuThread (interrupts c) ((λ d, d - 1) <$> lock_depth c).

Definition decrement_lock_depth_tested (c : cpu_thread) : cpu_thread :=
  match lock_depth c with
  | None => c
  | Some old_depth =>
      let c := CpuThread (interrupts c) (Some (old_depth - 1)) in
      if 1 =? old_depth then ARCH_CPU_ENABLE_INTERRUPTS c else c
  end.

Definition kspinlock_fake_acquire (c : cpu_thread) : cpu_thread :=
  INCREMENT_LOCK_DEPTH (ARCH_CPU_DISABLE_INTERRUPTS c).
Definition kspinlock_fake_release (c : cpu_thread) : cpu_thread := decrement_lock_depth_tested c.

(** Where a thread is with respect to the lock: before [__atomic_exchange_n],
    in the inner loop that reads the word, or past the acquisition. The
    deadline is that of [kspinlock_acquire_timeout]. *)
Inductive spin_pc : Type :=
  | SpinOut
  | SpinTry (end_ns : option Z)
  | SpinWait (end_ns : option Z)
  | SpinIn.

Record spin_state : Type := SpinState { spin_word : Z; spin_threads : gmap Z (cpu_thread * spin_pc) }.

(** The entry of [kspinlock_acquire] and of [kspinlock_acquire_timeout]. *)
Definition spin_enter (end_ns : option Z) (c : cpu_thread) : cpu_thread * spin_pc :=
  (INCREMENT_LOCK_DEPTH (ARCH_CPU_DISABLE_INTERRUPTS c), SpinTry end_ns).

(** One access to the lock word by a thread that wants the lock. *)
Definition spin_access (word now : Z) (c : cpu_thread) (pc : spin_pc) : option (Z * (cpu_thread * spin_pc)) :=
  match pc with
  | SpinTry e =>
      if KSPINLOCK_FREE_VALUE =? word then Some (KSPINLOCK_HELD_VALUE, (c, SpinIn))
      else Some (KSPINLOCK_HELD_VALUE, (c, SpinWait e))
  | SpinWait e =>
      if KSPINLOCK_HELD_VALUE =? word then
        match e with
        | Some e => if e <=? now then Some (word, (DECREMENT_LOCK_DEPTH c, SpinOut)) else Some (word, (c, pc))
        | None => Some (word, (c, pc))
        end
      else Some (word, (c, SpinTry e))
  | _ => None
  end.

Definition kspinlock_release (c : cpu_thread) : Z * (cpu_thread * spin_pc) :=
  (KSPINLOCK_FREE_VALUE, (decrement_lock_depth_tested c, SpinOut)).

Inductive spin_step : spin_state → spin_state → Prop :=
  | spin_step_enter s t c e :
      spin_threads s !! t = Some (c, SpinOut) →
      spin_step s (SpinState (spin_word s) (<[t := spin_enter e c]> (spin_threads s)))
  | spin_step_access s t c pc now word' x :
      spin_threads s !! t = Some (c, pc) → spin_access (spin_word s) now c pc = Some (word', x) →
      spin_step s (SpinState word' (<[t := x]> (spin_threads s)))
  | spin_step_release s t c :
      spin_threads s !! t = Some (c, SpinIn) →
      spin_step s (SpinState (kspinlock_release c).1 (<[t := (kspinlock_release c).2]> (spin_threads s))).

Definition spin_reachable : spin_state → spin_state → Prop := clos_refl_trans_1n _ spin_step.

Definition spin_in (x : cpu_thread * spin_pc) : bool := match x.2 with SpinIn => true | _ => false end.

(** A lock nobody has taken yet. *)
Definition spin_fresh (s : spin_state) : Prop :=
  spin_word s = KSPINLOCK_FREE_VALUE ∧ ∀ t x, spin_threads s !! t = Some x → x.2 = SpinOut.

(** A thread takes interrupts exactly when it holds no lock. *)
Definition depth_ok (c : cpu_thread) : Prop :=
  match lock_depth c with Some d => 0 ≤ d ∧ interrupts c = (d =? 0) | None => True end.

Definition spin_inv (s : spin_state) : Prop :=
  (spin_word s = 0 ∨ spin_word s = 1) ∧ Z.of_nat (cnt spin_in (spin_threads s)) = spin_word s.

Lemma spin_step_inv s s' : spin_step s s' → spin_inv s → spin_inv s'.
Proof.
  intros Hs [Hw Hc]. destruct Hs as [s t c e Ht|s t c pc now word' x Ht Hx|s t c Ht]; unfold spin_inv; cbn [spin_word spin_threads].
  - pose proof (cnt_insert spin_in (spin_threads s) t _ (spin_enter e c) Ht) as Hn. simpl in Hn. split; [done|lia].
  - pose proof (cnt_insert spin_in (spin_threads s) t _ x Ht) as Hn. unfold spin_access in Hx.
    destruct pc as [|e|e|]; try done.
    + destruct (Z.eqb_spec KSPINLOCK_FREE_VALUE (spin_word s)) as [He|He]; injection Hx as <- <-; simpl in Hn;
        unfold KSPINLOCK_FREE_VALUE, KSPINLOCK_HELD_VALUE in *; split; try lia; by right.
    + destruct (_ =? _); [destruct e as [e|]; [destruct (_ <=? _)|]|]; injection Hx as <- <-; simpl in Hn; split; try done; lia.
  - pose proof (cnt_insert spin_in (spin_threads s) t _ (kspinlock_release c).2 Ht) as Hn. simpl in Hn.
    pose proof (cnt_at spin_in _ _ _ Ht eq_refl). unfold kspinlock_release, KSPINLOCK_FREE_VALUE. simpl. lia.
Qed.

Lemma spin_fresh_inv s : spin_fresh s → spin_inv s.
Proof.
  intros [Hw Hf]. split; [by left|]. rewrite Hw. destruct (decide (cnt spin_in (spin_threads s) = 0%nat)) as [->|Hn]; [done|].
  destruct (cnt_pos spin_in (spin_threads s)) as (i & x & Hi & Hx); [lia|]. unfold spin_in in Hx. by rewrite (Hf i x Hi) in Hx.
Qed.

Lemma reach_inv {S} (step : S → S → Prop) (I : S → Prop) s s' :
  (∀ a b, step a b → I a → I b) → clos_refl_trans_1n _ step s s' → I s → I s'.
Proof. intros Hstep. induction 1 as [|a b c Hab _ IH]; [done|]. intros Ha. apply IH. by eapply Hstep. Qed.

(** The depth of a thread and its interrupts, over steps that do not time out. *)
Lemma spin_depth_step (now : Z) word c pc word' c' pc' :
  spin_access word now c pc = Some (word', (c', pc')) → pc' ≠ SpinOut → c' = c.
Proof.
  unfold spin_access. destruct pc as [|e|e|]; try done.
  - destruct (_ =? _); intros [= <- <- <-]; done.
  - destruct (_ =? _); [destruct e as [e|]; [destruct (_ <=? _)|]|]; intros [= <- <- <-]; done.
Qed.

(** ** Reader-writer lock *)
Record krwlock : Type := Krwlock {
  rw_lock : option Z;           (* who holds the inner spinlock *)
  active_readers : Z;
  waiting_writers : Z;
  writer_active : bool;
  readers_waitlist : list Z;
  writers_waitlist : list Z }.

Definition KRWLOCK_INIT : krwlock := Krwlock None 0 0 false [] [].

(** Where a thread is: outside; spinning at the start of a function; inside
    its section, with the spinlock; asleep; or between acquiring and
    releasing. [WrWoken] and [WrRetry] are the points of a writer that has
    been counted in [waiting_writers] already. *)
Inductive rw_pc : Type :=
  | RwOut
  | RdSpin | RdSection | RdAsleep | Reading | RdDoneSpin | RdDoneSection
  | WrSpin | WrSection | WrAsleep | WrWoken | WrRetry | Writing | WrDoneSpin | WrDoneSection.

(** [com_sys_sched_notify]: the threads taken off the queue and the rest. The
    code lets go of the queue's lock before it takes the thread's and makes it
    ready; here the two are one step. What comes in between can only concern
    the thread and its queue ([Sched.notify_timeout_race]), not the fields of
    the lock, which are under its spinlock. *)
Definition notify (q : list Z) : list Z * list Z := (take 1 q, drop 1 q).
Definition notify_all (q : list Z) : list Z * list Z := (q, []).

(** The sections of the four functions, from the spinlock to its release.
    They return the lock, the point reached, and the threads made ready. *)
Definition krwlock_acquire_read (rw : krwlock) (t : Z) : krwlock * rw_pc * list Z :=
  if writer_active rw || (0 <? waiting_writers rw)
  then (Krwlock None (active_readers rw) (waiting_writers rw) (writer_active rw)
          (readers_waitlist rw ++ [t]) (writers_waitlist rw), RdAsleep, [])
  else (Krwlock None (u64 (active_readers rw + 1)) (waiting_writers rw) (writer_active rw)
          (readers_waitlist rw) (writers_waitlist rw), Reading, []).

Definition krwlock_release_read (rw : krwlock) : krwlock * rw_pc * list Z :=
  let readers := u64 (active_readers rw - 1) in
  let '(woken, q) :=
    if (readers =? 0) && (0 <? waiting_writers rw) then notify (writers_waitlist rw) else ([], writers_waitlist rw) in
  (Krwlock None readers (waiting_writers rw) (writer_active rw) (readers_waitlist rw) q, RwOut, woken).

(** The loop of [krwlock_acquire_write], entered with the writer counted. *)
Definition acquire_write_loop (rw : krwlock) (t : Z) : krwlock * rw_pc * list Z :=
  if writer_active rw || (0 <? active_readers rw)
  then (Krwlock None (active_readers rw) (waiting_writers rw) (writer_active rw)
          (readers_waitlist rw) (writers_waitlist rw ++ [t]), WrAsleep, [])
  else (Krwlock None (active_readers rw) (u64 (waiting_writers rw - 1)) true
          (readers_waitlist rw) (writers_waitlist rw), Writing, []).

Definition krwlock_acquire_write (rw : krwlock) (t : Z) : krwlock * rw_pc * list Z :=
  acquire_write_loop (Krwlock (rw_lock rw) (active_readers rw) (u64 (waiting_writers rw + 1)) (writer_active rw)
    (readers_waitlist rw) (writers_waitlist rw)) t.

Definition krwlock_release_write (rw : krwlock) : krwlock * rw_pc * list Z :=
  if waiting_writers rw =? 0
  then let '(woken, q) := notify_all (readers_waitlist rw) in
    (Krwlock None (active_readers rw) (waiting_writers rw) false q (writers_waitlist rw), RwOut, woken)
  else let '(woken, q) := notify (writers_waitlist rw) in
    (Krwlock None (active_readers rw) (waiting_writers rw) false (readers_waitlist rw) q, RwOut, woken).

Definition rw_take_lock (rw : krwlock) (t : Z) (pc : rw_pc) : option (krwlock * rw_pc * list Z) :=
  match rw_lock rw with
  | Some _ => None
  | None => Some (Krwlock (Some t) (active_readers rw) (waiting_writers rw) (writer_active rw)
                    (readers_waitlist rw) (writers_waitlist rw), pc, [])
  end.

(** What a thread does next by itself; [None] while it spins, sleeps or is
    outside the functions. *)
Definition rw_run (rw : krwlock) (t : Z) (pc : rw_pc) : option (krwlock * rw_pc * list Z) :=
  match pc with
  | RdSpin => rw_take_lock rw t RdSection
  | RdSection => Some (krwlock_acquire_read rw t)
  | RdDoneSpin => rw_take_lock rw t RdDoneSection
  | RdDoneSection => Some (krwlock_release_read rw)
  | WrSpin => rw_take_lock rw t WrSection
  | WrSection => Some (krwlock_acquire_write rw t)
  | WrWoken => rw_take_lock rw t WrRetry
  | WrRetry => Some (acquire_write_loop rw t)
  | WrDoneSpin => rw_take_lock rw t WrDoneSection
  | WrDoneSection => Some (krwlock_release_write rw)
  | _ => None
  end.

(** The calls a thread makes. *)
Definition rw_call (pc : rw_pc) (write : bool) : option rw_pc :=
  match pc with
  | RwOut => Some (if write then WrSpin else RdSpin)
  | Reading => Some RdDoneSpin
  | Writing => Some WrDoneSpin
  | _ => None
  end.

(** A thread woken up takes the spinlock again and goes back to its loop. *)
Definition rw_wake (pc : rw_pc) : rw_pc :=
  match pc with RdAsleep => RdSpin | WrAsleep => WrWoken | _ => pc end.

Record rw_state : Type := RwState { rw : krwlock; rw_pcs : gmap Z rw_pc }.

Fixpoint wake_all (ts : list Z) (m : gmap Z rw_pc) : gmap Z rw_pc :=
  match ts with
  | [] => m
  | t :: ts =>
      let m := wake_all ts m in
      match m !! t with Some pc => <[t := rw_wake pc]> m | None => m end
  end.

(** A signal or a timer takes a sleeping thread off its queue. *)
Definition rw_unqueue (r : krwlock) (t : Z) : krwlock :=
  Krwlock (rw_lock r) (active_readers r) (waiting_writers r) (writer_active r)
    (filter (λ x, x ≠ t) (readers_waitlist r)) (filter (λ x, x ≠ t) (writers_waitlist r)).

Inductive rw_step : rw_state → rw_state → Prop :=
  | rw_step_call s t pc write pc' :
      rw_pcs s !! t = Some pc → rw_call pc write = Some pc' →
      rw_step s (RwState (rw s) (<[t := pc']> (rw_pcs s)))
  | rw_step_run s t pc r pc' woken :
      rw_pcs s !! t = Some pc → rw_run (rw s) t pc = Some (r, pc', woken) →
      rw_step s (RwState r (wake_all woken (<[t := pc']> (rw_pcs s))))
  | rw_step_signal s t pc :
      rw_pcs s !! t = Some pc → (pc = RdAsleep ∨ pc = WrAsleep) →
      rw_step s (RwState (rw_unqueue (rw s) t) (<[t := rw_wake pc]> (rw_pcs s))).

Definition rw_reachable : rw_state → rw_state → Prop := clos_refl_trans_1n _ rw_step.
Definition rw_fresh (s : rw_state) : Prop :=
  rw s = KRWLOCK_INIT ∧ (∀ t pc, rw_pcs s !! t = Some pc → pc = RwOut) ∧ Z.of_nat (size (rw_pcs s)) < 2 ^ 64.

(** *** Invariant *)
Definition is_reading (pc : rw_pc) : bool := match pc with Reading | RdDoneSpin | RdDoneSection => true | _ => false end.
Definition is_writing (pc : rw_pc) : bool := match pc with Writing | WrDoneSpin | WrDoneSection => true | _ => false end.
Definition is_waiting_writer (pc : rw_pc) : bool := match pc with WrAsleep | WrWoken | WrRetry => true | _ => false end.
Definition in_section (pc : rw_pc) : bool :=
  match pc with RdSection | RdDoneSection | WrSection | WrRetry | WrDoneSection => true | _ => false end.
Definition is_retrying (pc : rw_pc) : bool := match pc with WrWoken | WrRetry => true | _ => false end.

(** The fields count the threads, with a writer excluding everybody else; the
    queues hold exactly the threads asleep; and who sleeps is waited for by
    someone who will wake them. *)
Record rw_inv (s : rw_state) : Prop := {
  ri_size : Z.of_nat (size (rw_pcs s)) < 2 ^ 64;
  ri_lock : ∀ t pc, rw_pcs s !! t = Some pc → in_section pc = true → rw_lock (rw s) = Some t;
  ri_readers : active_readers (rw s) = Z.of_nat (cnt is_reading (rw_pcs s));
  ri_waiting : waiting_writers (rw s) = Z.of_nat (cnt is_waiting_writer (rw_pcs s));
  ri_writer : cnt is_writing (rw_pcs s) = if writer_active (rw s) then 1%nat else 0%nat;
  ri_excl : writer_active (rw s) = true → active_readers (rw s) = 0;
  ri_rq : ∀ t, t ∈ readers_waitlist (rw s) ↔ rw_pcs s !! t = Some RdAsleep;
  ri_wq : ∀ t, t ∈ writers_waitlist (rw s) ↔ rw_pcs s !! t = Some WrAsleep;
  ri_nodup : NoDup (writers_waitlist (rw s));
  ri_rwait : readers_waitlist (rw s) ≠ [] → writer_active (rw s) = true ∨ 0 < waiting_writers (rw s);
  ri_wwait : writers_waitlist (rw s) ≠ [] →
    writer_active (rw s) = true ∨ 0 < active_readers (rw s) ∨ (0 < cnt is_retrying (rw_pcs s))%nat }.

(** *** The invariant is kept *)
Lemma rw_wake_idem pc : rw_wake (rw_wake pc) = rw_wake pc.
Proof. by destruct pc. Qed.

Lemma lookup_wake_all ts m t :
  wake_all ts m !! t = if bool_decide (t ∈ ts) then rw_wake <$> m !! t else m !! t.
Proof.
  induction ts as [|u ts IH]; cbn [wake_all]; [done|]. cbv zeta. destruct (decide (u = t)) as [->|Hne].
  - rewrite (bool_decide_true (t ∈ t :: ts)) by apply list_elem_of_here. rewrite IH.
    destruct (m !! t) as [pc|] eqn:Hm; case_bool_decide; simpl; rewrite ?lookup_insert_eq, ?rw_wake_idem, ?IH, ?Hm; try done;
      by rewrite bool_decide_true.
  - assert (bool_decide (t ∈ u :: ts) = bool_decide (t ∈ ts)) as -> by (apply bool_decide_ext; rewrite elem_of_cons; naive_solver).
    destruct (wake_all ts m !! u); [by rewrite lookup_insert_ne|done].
Qed.

Lemma cnt_wake_all P ts m : (∀ pc, P (rw_wake pc) = P pc) → cnt P (wake_all ts m) = cnt P m.
Proof.
  intros HP. induction ts as [|u ts IH]; cbn [wake_all]; [done|]. cbv zeta.
  destruct (wake_all ts m !! u) as [pc|] eqn:Hu; [|done].
  pose proof (cnt_insert P _ u pc (rw_wake pc) Hu) as Hc. rewrite HP in Hc. lia.
Qed.

Lemma size_wake_all ts m : size (wake_all ts m) = size m.
Proof.
  induction ts as [|u ts IH]; cbn [wake_all]; [done|]. cbv zeta.
  destruct (wake_all ts m !! u) as [pc|] eqn:Hu; [|done]. by rewrite map_size_insert_Some.
Qed.

Definition b2n (b : bool) : nat := if b then 1%nat else 0%nat.

Lemma rw_counts P s t pc pc' woken :
  (∀ pc, P (rw_wake pc) = P pc) → rw_pcs s !! t = Some pc →
  (cnt P (wake_all woken (<[t := pc']> (rw_pcs s))) + b2n (P pc) = cnt P (rw_pcs s) + b2n (P pc'))%nat.
Proof. intros HP Ht. rewrite cnt_wake_all by done. by apply cnt_insert. Qed.

Lemma rw_counts_all s t pc pc' woken m :
  m = wake_all woken (<[t := pc']> (rw_pcs s)) → rw_pcs s !! t = Some pc →
  (cnt is_reading m + b2n (is_reading pc) = cnt is_reading (rw_pcs s) + b2n (is_reading pc') ∧
   cnt is_writing m + b2n (is_writing pc) = cnt is_writing (rw_pcs s) + b2n (is_writing pc') ∧
   cnt is_waiting_writer m + b2n (is_waiting_writer pc) = cnt is_waiting_writer (rw_pcs s) + b2n (is_waiting_writer pc') ∧
   size m = size (rw_pcs s))%nat.
Proof.
  intros -> Ht. rewrite !(rw_counts _ s t pc pc') by (done || by intros []).
  split_and!; try done. rewrite size_wake_all. by apply map_size_insert_Some; rewrite Ht.
Qed.

Lemma wake_section ts m u p : wake_all ts m !! u = Some p → ∃ q, m !! u = Some q ∧ in_section q = in_section p.
Proof.
  rewrite lookup_wake_all. destruct (m !! u) as [q|]; [|by case_bool_decide]. intros Hp. exists q. split; [done|].
  case_bool_decide; injection Hp as <-; [by destruct q|done].
Qed.

(** When a thread leaves its section nobody is in one. *)
Lemma section_left s t pc pc' woken u p :
  rw_inv s → rw_pcs s !! t = Some pc → in_section pc = true → in_section pc' = false →
  wake_all woken (<[t := pc']> (rw_pcs s)) !! u = Some p → in_section p = true → False.
Proof.
  intros I Ht Hpc Hpc' (q & Hq & Hs)%wake_section Hp. rewrite Hp in Hs. pose proof (ri_lock s I t pc Ht Hpc) as Hl.
  destruct (decide (u = t)) as [->|Hne].
  - rewrite lookup_insert_eq in Hq. congruence.
  - rewrite lookup_insert_ne in Hq by done. rewrite (ri_lock s I u q Hq Hs) in Hl. congruence.
Qed.

Lemma counts_bounded s : rw_inv s →
  active_readers (rw s) < 2 ^ 64 ∧ waiting_writers (rw s) < 2 ^ 64 ∧ 0 ≤ active_readers (rw s) ∧ 0 ≤ waiting_writers (rw s).
Proof.
  intros I. rewrite (ri_readers s I), (ri_waiting s I). pose proof (ri_size s I).
  pose proof (cnt_le is_reading (rw_pcs s)). pose proof (cnt_le is_waiting_writer (rw_pcs s)). lia.
Qed.

(** A waitlist holds the threads asleep, after thread [t] went to [pc'] and
    none was woken. *)
Lemma queue_same (q : list Z) s t pc pc' sl :
  (∀ u, u ∈ q ↔ rw_pcs s !! u = Some sl) → rw_pcs s !! t = Some pc → pc ≠ sl → pc' ≠ sl →
  ∀ u, u ∈ q ↔ <[t := pc']> (rw_pcs s) !! u = Some sl.
Proof.
  intros Hq Ht Hpc Hpc' u. rewrite Hq. destruct (decide (u = t)) as [->|]; [|by rewrite lookup_insert_ne].
  rewrite lookup_insert_eq, Ht. naive_solver.
Qed.

Lemma queue_push (q : list Z) s t pc sl :
  (∀ u, u ∈ q ↔ rw_pcs s !! u = Some sl) → rw_pcs s !! t = Some pc → pc ≠ sl →
  ∀ u, u ∈ q ++ [t] ↔ <[t := sl]> (rw_pcs s) !! u = Some sl.
Proof.
  intros Hq Ht Hpc u. rewrite elem_of_app, list_elem_of_singleton, Hq.
  destruct (decide (u = t)) as [->|]; [rewrite lookup_insert_eq; naive_solver|rewrite lookup_insert_ne by done; naive_solver].
Qed.

Lemma rw_take_lock_inv s t pc pc' r woken :
  rw_inv s → rw_pcs s !! t = Some pc → rw_take_lock (rw s) t pc' = Some (r, pc', woken) →
  (is_reading pc' = is_reading pc ∧ is_writing pc' = is_writing pc ∧ is_waiting_writer pc' = is_waiting_writer pc ∧
   is_retrying pc' = is_retrying pc) → pc ≠ RdAsleep ∧ pc ≠ WrAsleep → pc' ≠ RdAsleep ∧ pc' ≠ WrAsleep →
  rw_inv (RwState r (wake_all woken (<[t := pc']> (rw_pcs s)))).
Proof.
  intros I Ht Hr (H1 & H2 & H3 & H4) [Hn1 Hn2] [Hn3 Hn4]. unfold rw_take_lock in Hr. destruct (rw_lock (rw s)) eqn:Hl; [done|].
  injection Hr as <- <-. cbn [wake_all].
  destruct (rw_counts_all s t pc pc' [] _ eq_refl Ht) as (C1 & C2 & C3 & Cs). cbn [wake_all] in *.
  pose proof (cnt_insert is_retrying (rw_pcs s) t pc pc' Ht) as C4. rewrite H1, H2, H3, H4 in *.
  destruct I. split; simpl; try rewrite Cs; try done; try lia.
  - intros u p Hu Hp. destruct (decide (u = t)) as [->|]; [done|]. rewrite lookup_insert_ne in Hu by done.
    rewrite (ri_lock0 u p Hu Hp) in Hl. done.
  - by apply (queue_same _ s t pc pc' RdAsleep).
  - by apply (queue_same _ s t pc pc' WrAsleep).
  - intros Hw. destruct (ri_wwait0 Hw) as [|[]]; [by left|right; by left|right; right; lia].
Qed.

Lemma acquire_read_inv s t r pc' woken :
  rw_inv s → rw_pcs s !! t = Some RdSection → krwlock_acquire_read (rw s) t = (r, pc', woken) →
  rw_inv (RwState r (wake_all woken (<[t := pc']> (rw_pcs s)))).
Proof.
  intros I Ht Hr. pose proof (counts_bounded s I) as Hb. unfold krwlock_acquire_read in Hr.
  assert (Hsec : pc' ≠ RdSection → in_section pc' = false → ∀ u p, wake_all woken (<[t := pc']> (rw_pcs s)) !! u = Some p → in_section p = true → None = Some u).
  { intros _ Hp u p Hu Hp'. by destruct (section_left s t RdSection pc' woken u p I Ht eq_refl Hp Hu Hp'). }
  destruct (rw_counts_all s t RdSection pc' woken _ eq_refl Ht) as (C1 & C2 & C3 & Cs).
  pose proof (cnt_insert is_retrying (rw_pcs s) t RdSection pc' Ht) as C4.
  pose proof (cnt_le is_reading (wake_all woken (<[t := pc']> (rw_pcs s)))) as Hle.
  destruct (writer_active (rw s) || (0 <? waiting_writers (rw s))) eqn:Hc; injection Hr as <- <- <-; cbn [wake_all b2n is_reading is_writing is_waiting_writer is_retrying] in *;
    destruct I; (split; simpl; [lia|by apply Hsec|try lia|lia|lia|try done|try (by eapply queue_same)|by eapply queue_same|done|try done|]).
  - by apply (queue_push _ s t RdSection).
  - intros _. apply orb_true_iff in Hc as [?|?%Z.ltb_lt]; auto.
  - intros Hw. destruct (ri_wwait0 Hw) as [|[]]; [by left|right; by left|right; right; lia].
  - rewrite wrap_small; lia.
  - apply orb_false_iff in Hc as [Hc _]. congruence.
  - intros Hw. right. left. rewrite wrap_small by lia. lia.
Qed.

(** Waking the head of the writers' queue. *)
Lemma notify_writer s t pc pc' woken q :
  rw_inv s → rw_pcs s !! t = Some pc → pc ≠ RdAsleep ∧ pc ≠ WrAsleep → pc' ≠ RdAsleep ∧ pc' ≠ WrAsleep →
  notify (writers_waitlist (rw s)) = (woken, q) →
  let m := wake_all woken (<[t := pc']> (rw_pcs s)) in
  (∀ u, u ∈ readers_waitlist (rw s) ↔ m !! u = Some RdAsleep) ∧ (∀ u, u ∈ q ↔ m !! u = Some WrAsleep) ∧ NoDup q ∧
  (q ≠ [] → (0 < cnt is_retrying m)%nat).
Proof.
  intros I Ht [Hp1 Hp2] [Hp3 Hp4] Hn m. pose proof (ri_nodup s I) as Hnd.
  pose proof (queue_same _ s t pc pc' RdAsleep (ri_rq s I) Ht Hp1 Hp3) as Hrq.
  pose proof (queue_same _ s t pc pc' WrAsleep (ri_wq s I) Ht Hp2 Hp4) as Hwq.
  unfold notify in Hn. destruct (writers_waitlist (rw s)) as [|u q'] eqn:Hq; simpl in Hn; injection Hn as <- <-.
  { split_and!; [exact Hrq|exact Hwq|done|done]. }
  apply NoDup_cons in Hnd as [Hnu Hnd]. subst m.
  assert (Hu : <[t := pc']> (rw_pcs s) !! u = Some WrAsleep) by (apply Hwq, list_elem_of_here).
  cbn [wake_all]. rewrite take_0. cbn [wake_all]. rewrite Hu. cbn [rw_wake]. rewrite drop_0. split_and!.
  - intros x. rewrite Hrq. destruct (decide (x = u)) as [->|]; [|by rewrite (lookup_insert_ne _ u x)].
    rewrite Hu, lookup_insert_eq. split; discriminate.
  - intros x. destruct (decide (x = u)) as [->|].
    { rewrite lookup_insert_eq. split; [done|discriminate]. }
    rewrite (lookup_insert_ne _ u x) by done. rewrite <- Hwq, elem_of_cons. naive_solver.
  - done.
  - intros _. eapply cnt_at; [apply lookup_insert_eq|done].
Qed.

Lemma release_read_inv s t r pc' woken :
  rw_inv s → rw_pcs s !! t = Some RdDoneSection → krwlock_release_read (rw s) = (r, pc', woken) →
  rw_inv (RwState r (wake_all woken (<[t := pc']> (rw_pcs s)))).
Proof.
  intros I Ht Hr. pose proof (counts_bounded s I) as Hb. pose proof (cnt_at is_reading _ _ _ Ht eq_refl) as H1.
  unfold krwlock_release_read in Hr. set (readers := u64 _) in Hr.
  assert (Hrd : readers = active_readers (rw s) - 1) by (apply wrap_small; rewrite (ri_readers s I) in *; lia).
  assert (Hwa : writer_active (rw s) = false).
  { destruct (writer_active (rw s)) eqn:Hw; [|done]. pose proof (ri_excl s I Hw). rewrite (ri_readers s I) in *. lia. }
  destruct (if (readers =? 0) && (0 <? waiting_writers (rw s)) then _ else _) as [wk q] eqn:Hn. injection Hr as <- <- <-.
  destruct (rw_counts_all s t RdDoneSection RwOut wk _ eq_refl Ht) as (C1 & C2 & C3 & Cs).
  assert (Hq : let m := wake_all wk (<[t := RwOut]> (rw_pcs s)) in
    (∀ u, u ∈ readers_waitlist (rw s) ↔ m !! u = Some RdAsleep) ∧ (∀ u, u ∈ q ↔ m !! u = Some WrAsleep) ∧ NoDup q ∧
    (q ≠ [] → 0 < readers ∨ (0 < cnt is_retrying m)%nat)).
  { destruct ((readers =? 0) && (0 <? waiting_writers (rw s))) eqn:Hc.
    - destruct (notify_writer s t RdDoneSection RwOut wk q I Ht) as (Q1 & Q2 & Q3 & Q4); try done. split_and!; try done. intros. right. by apply Q4.
    - injection Hn as <- <-. cbn [wake_all] in *. split_and!; [by apply (queue_same _ s t RdDoneSection _ _ (ri_rq s I))
        |by apply (queue_same _ s t RdDoneSection _ _ (ri_wq s I))|apply I|].
      intros Hne. apply andb_false_iff in Hc as [Hc%Z.eqb_neq|Hc%Z.ltb_ge]; [left; rewrite (ri_readers s I) in *; lia|].
      exfalso. destruct (writers_waitlist (rw s)) as [|u q'] eqn:Hq; [done|].
      assert (Hu : rw_pcs s !! u = Some WrAsleep) by (apply (ri_wq s I); rewrite Hq; apply list_elem_of_here).
      pose proof (cnt_at is_waiting_writer _ _ _ Hu eq_refl). rewrite (ri_waiting s I) in Hc. lia. }
  destruct Hq as (Q1 & Q2 & Q3 & Q4). cbn [b2n is_reading is_writing is_waiting_writer] in *.
  pose proof (ri_readers s I) as Hri. split; simpl; try done.
  - rewrite Cs. apply I.
  - intros u p Hu Hp. by destruct (section_left s t RdDoneSection RwOut wk u p I Ht eq_refl eq_refl Hu Hp).
  - lia.
  - rewrite (ri_waiting s I). lia.
  - pose proof (ri_writer s I). lia.
  - congruence.
  - apply (ri_rwait s I).
  - intros Hne. right. by apply Q4.
Qed.

Lemma acquire_write_loop_inv s t pc waiting r pc' woken :
  rw_inv s → rw_pcs s !! t = Some pc → in_section pc = true → is_reading pc = false → is_writing pc = false →
  waiting + Z.of_nat (b2n (is_waiting_writer pc)) = waiting_writers (rw s) + 1 →
  acquire_write_loop (Krwlock (rw_lock (rw s)) (active_readers (rw s)) waiting (writer_active (rw s))
    (readers_waitlist (rw s)) (writers_waitlist (rw s))) t = (r, pc', woken) →
  rw_inv (RwState r (wake_all woken (<[t := pc']> (rw_pcs s)))).
Proof.
  intros I Ht Hsec Hnr Hnw Hwt Hr. pose proof (counts_bounded s I) as Hb. unfold acquire_write_loop in Hr. simpl in Hr.
  pose proof (ri_readers s I) as Hri. pose proof (ri_waiting s I) as Hwi. pose proof (ri_writer s I) as Hwr.
  assert (pc ≠ RdAsleep ∧ pc ≠ WrAsleep) as [Hpr Hpw] by (by destruct pc).
  assert (Hw1 : waiting ≤ waiting_writers (rw s) + 1 ∧ 0 < waiting).
  { destruct (is_waiting_writer pc) eqn:Hw; simpl in Hwt; [|lia]. pose proof (cnt_at is_waiting_writer _ _ _ Ht Hw). lia. }
  destruct (rw_counts_all s t pc pc' woken _ eq_refl Ht) as (C1 & C2 & C3 & Cs).
  assert (Hleft : in_section pc' = false → ∀ u p, wake_all woken (<[t := pc']> (rw_pcs s)) !! u = Some p → in_section p = true → None = Some u).
  { intros Hp u p Hu Hp'. by destruct (section_left s t pc pc' woken u p I Ht Hsec Hp Hu Hp'). }
  rewrite Hnr, Hnw in *. pose proof (cnt_le is_waiting_writer (wake_all woken (<[t := pc']> (rw_pcs s)))) as Hle. pose proof (ri_size s I).
  destruct (writer_active (rw s) || (0 <? active_readers (rw s))) eqn:Hc; injection Hr as <- <- <-; cbn [wake_all b2n is_reading is_writing is_waiting_writer] in *.
  - split; simpl; try (rewrite Cs); try done; try lia.
    + by apply Hleft.
    + apply I.
    + by apply (queue_same _ s t pc WrAsleep _ (ri_rq s I)).
    + by apply (queue_push _ s t pc _ (ri_wq s I)).
    + apply NoDup_app. split; [apply I|]. split; [|apply NoDup_singleton]. intros u Hu ->%list_elem_of_singleton.
      apply (ri_wq s I) in Hu. naive_solver.
    + intros _. apply orb_true_iff in Hc as [?|?%Z.ltb_lt]; [by left|right; by left].
  - apply orb_false_iff in Hc as [Hwa Hrd%Z.ltb_ge]. rewrite Hwa in *. assert (u64 (waiting - 1) = waiting - 1) as -> by (apply wrap_small; lia).
    split; simpl; try (rewrite Cs); try done; try lia.
    + by apply Hleft.
    + by apply (queue_same _ s t pc Writing _ (ri_rq s I)).
    + by apply (queue_same _ s t pc Writing _ (ri_wq s I)).
    + apply I.
Qed.

Lemma release_write_inv s t r pc' woken :
  rw_inv s → rw_pcs s !! t = Some WrDoneSection → krwlock_release_write (rw s) = (r, pc', woken) →
  rw_inv (RwState r (wake_all woken (<[t := pc']> (rw_pcs s)))).
Proof.
  intros I Ht Hr. pose proof (counts_bounded s I) as Hb. unfold krwlock_release_write in Hr.
  pose proof (ri_readers s I) as Hri. pose proof (ri_waiting s I) as Hwi. pose proof (ri_writer s I) as Hwr.
  pose proof (cnt_at is_writing _ _ _ Ht eq_refl) as H1.
  destruct (rw_counts_all s t WrDoneSection pc' woken _ eq_refl Ht) as (C1 & C2 & C3 & Cs).
  assert (Hleft : in_section pc' = false → ∀ u p, wake_all woken (<[t := pc']> (rw_pcs s)) !! u = Some p → in_section p = true → None = Some u).
  { intros Hp u p Hu Hp'. by destruct (section_left s t WrDoneSection pc' woken u p I Ht eq_refl Hp Hu Hp'). }
  pose proof (ri_size s I). destruct (writer_active (rw s)) eqn:Hwa; [|lia]. pose proof (ri_excl s I Hwa) as Hex.
  destruct (Z.eqb_spec (waiting_writers (rw s)) 0) as [H0|H0].
  - unfold notify_all in Hr. injection Hr as <- <- <-. cbn [b2n is_reading is_writing is_waiting_writer] in *.
    assert (Hlk : ∀ u sl, wake_all (readers_waitlist (rw s)) (<[t := RwOut]> (rw_pcs s)) !! u = Some sl → sl = RdAsleep ∨ sl = WrAsleep →
      sl = WrAsleep ∧ rw_pcs s !! u = Some WrAsleep).
    { intros u sl. rewrite lookup_wake_all. destruct (decide (u = t)) as [->|Hne].
      - rewrite lookup_insert_eq. case_bool_decide; intros [= <-]; naive_solver.
      - rewrite lookup_insert_ne by done. destruct (rw_pcs s !! u) as [p|] eqn:Hp; [|by case_bool_decide].
        case_bool_decide as Hin; simpl; intros [= <-] Hs.
        + apply (ri_rq s I) in Hin. assert (p = RdAsleep) as -> by congruence. naive_solver.
        + destruct Hs as [->| ->]; [|done]. exfalso. by apply Hin, (ri_rq s I). }
    assert (Hnw : writers_waitlist (rw s) = []).
    { destruct (writers_waitlist (rw s)) as [|u q] eqn:Hq; [done|]. exfalso.
      assert (Hu : rw_pcs s !! u = Some WrAsleep) by (apply (ri_wq s I); rewrite Hq; apply list_elem_of_here).
      pose proof (cnt_at is_waiting_writer _ _ _ Hu eq_refl). lia. }
    split; simpl; try (rewrite Cs); try done; try lia.
    + by apply Hleft.
    + intros u. split; [by intros ?%elem_of_nil|]. intros Hu. destruct (Hlk u _ Hu) as [? _]; [by left|done].
    + rewrite Hnw. intros u. split; [by intros ?%elem_of_nil|]. intros Hu. destruct (Hlk u _ Hu) as [_ Hu']; [by right|].
      apply (ri_wq s I) in Hu'. rewrite Hnw in Hu'. by apply elem_of_nil in Hu'.
    + apply I.
  - destruct (notify (writers_waitlist (rw s))) as [wk q] eqn:Hn. injection Hr as <- <- <-.
    destruct (notify_writer s t WrDoneSection RwOut wk q I Ht) as (Q1 & Q2 & Q3 & Q4); try done.
    cbn [b2n is_reading is_writing is_waiting_writer] in *. split; simpl; try (rewrite Cs); try done; try lia.
    + by apply Hleft.
    + intros Hne. right. right. by apply Q4.
Qed.

Lemma rw_call_inv s t pc write pc' :
  rw_inv s → rw_pcs s !! t = Some pc → rw_call pc write = Some pc' →
  rw_inv (RwState (rw s) (<[t := pc']> (rw_pcs s))).
Proof.
  intros I Ht Hc. destruct (rw_counts_all s t pc pc' [] _ eq_refl Ht) as (C1 & C2 & C3 & Cs). cbn [wake_all] in *.
  pose proof (cnt_insert is_retrying (rw_pcs s) t pc pc' Ht) as C4.
  assert (Hcl : is_reading pc' = is_reading pc ∧ is_writing pc' = is_writing pc ∧ is_waiting_writer pc' = is_waiting_writer pc ∧
    is_retrying pc' = is_retrying pc ∧ in_section pc' = false ∧ pc ≠ RdAsleep ∧ pc ≠ WrAsleep ∧ pc' ≠ RdAsleep ∧ pc' ≠ WrAsleep).
  { destruct pc; try done; injection Hc as <-; try destruct write; done. }
  destruct Hcl as (H1 & H2 & H3 & H4 & H5 & ?&?&?&?). rewrite H1, H2, H3, H4 in *. destruct I. split; simpl; try rewrite Cs; try done; try lia.
  - intros u p Hu Hp. destruct (decide (u = t)) as [->|]; [rewrite lookup_insert_eq in Hu; congruence|].
    rewrite lookup_insert_ne in Hu by done. by apply (ri_lock0 u p).
  - by apply (queue_same _ s t pc).
  - by apply (queue_same _ s t pc).
  - intros Hw. destruct (ri_wwait0 Hw) as [|[]]; [by left|right; by left|right; right; lia].
Qed.

Lemma queue_drop (q : list Z) s t sl pc' :
  (∀ u, u ∈ q ↔ rw_pcs s !! u = Some sl) → pc' ≠ sl →
  ∀ u, u ∈ filter (λ x, x ≠ t) q ↔ <[t := pc']> (rw_pcs s) !! u = Some sl.
Proof.
  intros Hq Hp u. rewrite list_elem_of_filter, Hq.
  destruct (decide (u = t)) as [->|]; [rewrite lookup_insert_eq; naive_solver|rewrite lookup_insert_ne by done; naive_solver].
Qed.

Lemma rw_signal_inv s t pc :
  rw_inv s → rw_pcs s !! t = Some pc → pc = RdAsleep ∨ pc = WrAsleep →
  rw_inv (RwState (rw_unqueue (rw s) t) (<[t := rw_wake pc]> (rw_pcs s))).
Proof.
  intros I Ht Hpc. destruct (rw_counts_all s t pc (rw_wake pc) [] _ eq_refl Ht) as (C1 & C2 & C3 & Cs). cbn [wake_all] in *.
  pose proof (cnt_insert is_retrying (rw_pcs s) t pc (rw_wake pc) Ht) as C4.
  assert (Hne : ∀ q : list Z, filter (λ x, x ≠ t) q ≠ [] → q ≠ []) by (by intros q Hq ->).
  assert (Hw : is_reading (rw_wake pc) = is_reading pc ∧ is_writing (rw_wake pc) = is_writing pc ∧
    is_waiting_writer (rw_wake pc) = is_waiting_writer pc ∧ in_section (rw_wake pc) = false ∧
    rw_wake pc ≠ RdAsleep ∧ rw_wake pc ≠ WrAsleep ∧ (is_retrying pc = false)) by (destruct Hpc as [-> | ->]; done).
  destruct Hw as (H1 & H2 & H3 & H5 & H6 & H7 & H8). rewrite H1, H2, H3, H8 in *. destruct I. split; simpl; try rewrite Cs; try done; try lia.
  - intros u p Hu Hp. destruct (decide (u = t)) as [->|]; [rewrite lookup_insert_eq in Hu; congruence|].
    rewrite lookup_insert_ne in Hu by done. by apply (ri_lock0 u p).
  - by apply queue_drop.
  - by apply queue_drop.
  - by apply NoDup_filter.
  - intros Hq. apply ri_rwait0. by eapply Hne.
  - intros Hq. destruct (ri_wwait0 (Hne _ Hq)) as [|[]]; [by left|right; by left|right; right; lia].
Qed.

Lemma rw_step_inv s s' : rw_step s s' → rw_inv s → rw_inv s'.
Proof.
  intros Hs I. destruct Hs as [s t pc write pc' Ht Hc|s t pc r pc' woken Ht Hr|s t pc Ht Hpc].
  - by eapply rw_call_inv.
  - destruct pc; simpl in Hr; try discriminate Hr;
      try (assert (Hpc' := Hr); unfold rw_take_lock in Hpc'; destruct (rw_lock (rw s)); [discriminate Hpc'|]; injection Hpc' as _ Hpc' _; subst pc';
           by eapply rw_take_lock_inv);
      injection Hr as Hr.
    + by eapply acquire_read_inv.
    + by eapply release_read_inv.
    + unfold krwlock_acquire_write in Hr. eapply (acquire_write_loop_inv s t WrSection); try done.
      pose proof (counts_bounded s I). pose proof (cnt_insert is_waiting_writer _ _ _ WrAsleep Ht) as Hn. simpl in Hn.
      pose proof (cnt_le is_waiting_writer (<[t := WrAsleep]> (rw_pcs s))) as Hle. rewrite map_size_insert_Some in Hle by (by rewrite Ht).
      pose proof (ri_size s I). rewrite (ri_waiting s I). simpl. rewrite wrap_small by lia. lia.
    + apply (acquire_write_loop_inv s t WrRetry (waiting_writers (rw s)) r pc' woken I Ht); [done..|by destruct (rw s)].
    + by eapply release_write_inv.
  - by apply rw_signal_inv.
Qed.

Lemma rw_fresh_inv s : rw_fresh s → rw_inv s.
Proof.
  intros (Hr & Hf & Hsz).
  assert (Hc : ∀ P, P RwOut = false → cnt P (rw_pcs s) = 0%nat).
  { intros P HP. destruct (decide (cnt P (rw_pcs s) = 0%nat)); [done|]. destruct (cnt_pos P (rw_pcs s)) as (i & x & Hi & Hx); [lia|].
    rewrite (Hf i x Hi) in Hx. congruence. }
  split; rewrite ?Hr; simpl; rewrite ?Hc by done; try done.
  - intros t pc Ht Hp. by rewrite (Hf t pc Ht) in Hp.
  - intros t. split; [by intros ?%elem_of_nil|]. intros Ht. discriminate (Hf t _ Ht).
  - intros t. split; [by intros ?%elem_of_nil|]. intros Ht. discriminate (Hf t _ Ht).
  - apply NoDup_nil_2.
Qed.

(** *** Runs *)
Inductive rw_event : Type := RwCall (t : Z) (write : bool) | RwRun (t : Z) | RwSignal (t : Z).

Definition rw_do (e : rw_event) (s : rw_state) : option rw_state :=
  match e with
  | RwCall t write =>
      pc ← rw_pcs s !! t; pc' ← rw_call pc write; Some (RwState (rw s) (<[t := pc']> (rw_pcs s)))
  | RwRun t =>
      pc ← rw_pcs s !! t;
      '(r, pc', woken) ← rw_run (rw s) t pc;
      Some (RwState r (wake_all woken (<[t := pc']> (rw_pcs s))))
  | RwSignal t =>
      pc ← rw_pcs s !! t;
      match pc with
      | RdAsleep | WrAsleep => Some (RwState (rw_unqueue (rw s) t) (<[t := rw_wake pc]> (rw_pcs s)))
      | _ => None
      end
  end.

Fixpoint rw_exec (es : list rw_event) (s : rw_state) : option rw_state :=
  match es with [] => Some s | e :: es => s ← rw_do e s; rw_exec es s end.

Lemma rw_do_step e s s' : rw_do e s = Some s' → rw_step s s'.
Proof.
  destruct e as [t write|t|t]; simpl; destruct (rw_pcs s !! t) as [pc|] eqn:Ht; simpl; try done.
  - destruct (rw_call pc write) as [pc'|] eqn:Hc; [|done]. intros [= <-]. by eapply rw_step_call.
  - destruct (rw_run (rw s) t pc) as [[[r pc'] woken]|] eqn:Hr; [|done]. intros [= <-]. by eapply rw_step_run.
  - destruct pc; try done; intros [= <-]; [apply (rw_step_signal s t RdAsleep)|apply (rw_step_signal s t WrAsleep)]; auto.
Qed.

Lemma rw_exec_reachable es s s' : rw_exec es s = Some s' → rw_reachable s s'.
Proof.
  revert s. induction es as [|e es IH]; simpl; intros s; [intros [= <-]; constructor|].
  destruct (rw_do e s) as [s1|] eqn:He; [|done]. simpl. intros Hx. eapply Relation_Operators.rt1n_trans; [by eapply rw_do_step|by apply IH].
Qed.

Definition rw_start (ts : list Z) : rw_state := RwState KRWLOCK_INIT (list_to_map ((λ t, (t, RwOut)) <$> ts)).

Definition rw_asleep (pc : rw_pc) : bool := match pc with RdAsleep | WrAsleep => true | _ => false end.

(** *** Properties *)

(** C39: Whatever the order in which threads run, are woken and are interrupted by
    signals, a thread that holds the lock for writing excludes every other
    writer and every reader. *)
Theorem krwlock_mutual_exclusion s s' t u pc :
  rw_fresh s → rw_reachable s s' → rw_pcs s' !! t = Some Writing → rw_pcs s' !! u = Some pc → u ≠ t →
  pc ≠ Writing ∧ pc ≠ Reading.
Proof.
  intros Hf Hr Ht Hu Hne. pose proof (reach_inv _ _ _ _ rw_step_inv Hr (rw_fresh_inv s Hf)) as I.
  pose proof (ri_writer s' I) as Hw. pose proof (cnt_at is_writing _ _ _ Ht eq_refl) as H1.
  destruct (writer_active (rw s')) eqn:Hwa; [|lia]. split; intros ->.
  - apply Hne. eapply (cnt_unique is_writing (rw_pcs s') u t); [lia|done..].
  - pose proof (ri_excl s' I Hwa) as H0. rewrite (ri_readers s' I) in H0. pose proof (cnt_at is_reading _ _ _ Hu eq_refl). lia.
Qed.

(** No wake-up is lost: as long as a thread is asleep waiting for the lock,
    some thread is awake inside the functions or holds the lock, so the
    sleepers are never left to themselves. *)
Theorem krwlock_no_lost_wakeup s s' t pc :
  rw_fresh s → rw_reachable s s' → rw_pcs s' !! t = Some pc → rw_asleep pc = true →
  ∃ u pc', rw_pcs s' !! u = Some pc' ∧ pc' ≠ RwOut ∧ rw_asleep pc' = false.
Proof.
  intros Hf Hr Ht Hs. pose proof (reach_inv _ _ _ _ rw_step_inv Hr (rw_fresh_inv s Hf)) as I.
  assert (Hq : readers_waitlist (rw s') ≠ [] ∨ writers_waitlist (rw s') ≠ []).
  { destruct pc; try done; [left|right]; intros Hq.
    - apply (ri_rq s' I) in Ht. rewrite Hq in Ht. by apply elem_of_nil in Ht.
    - apply (ri_wq s' I) in Ht. rewrite Hq in Ht. by apply elem_of_nil in Ht. }
  assert (Hget : ∀ P, (0 < cnt P (rw_pcs s'))%nat → (∀ x, P x = true → x ≠ RwOut ∧ rw_asleep x = false) →
    ∃ u pc', rw_pcs s' !! u = Some pc' ∧ pc' ≠ RwOut ∧ rw_asleep pc' = false).
  { intros P HP Hx. destruct (cnt_pos P (rw_pcs s') HP) as (u & x & Hu & HPx). exists u, x. split; [done|by apply Hx]. }
  assert (Hwr : writer_active (rw s') = true → (0 < cnt is_writing (rw_pcs s'))%nat).
  { intros Hw. pose proof (ri_writer s' I) as Hi. rewrite Hw in Hi. lia. }
  assert (Hcase : writer_active (rw s') = true ∨ 0 < active_readers (rw s') ∨ (0 < cnt is_retrying (rw_pcs s'))%nat).
  { destruct Hq as [Hq|Hq]; [|by apply (ri_wwait s' I)]. destruct (ri_rwait s' I Hq) as [|Hwt]; [by left|].
    rewrite (ri_waiting s' I) in Hwt. destruct (cnt_pos is_waiting_writer (rw_pcs s')) as (u & x & Hu & Hx); [lia|].
    destruct x; try done.
    - apply (ri_wwait s' I). intros Hn. apply (ri_wq s' I) in Hu. rewrite Hn in Hu. by apply elem_of_nil in Hu.
    - right. right. by eapply cnt_at.
    - right. right. by eapply cnt_at. }
  destruct Hcase as [Hw|[Hrd|Hrt]].
  - apply (Hget is_writing); [by apply Hwr|by intros []].
  - apply (Hget is_reading); [rewrite (ri_readers s' I) in Hrd; lia|by intros []].
  - apply (Hget is_retrying); [done|by intros []].
Qed.

(** However the accesses of the threads to the lock word interleave, at most
    one of them is past the acquisition. *)
Theorem spin_mutual_exclusion s s' t u c d :
  spin_fresh s → spin_reachable s s' →
  spin_threads s' !! t = Some (c, SpinIn) → spin_threads s' !! u = Some (d, SpinIn) → t = u.
Proof.
  intros Hf Hr Ht Hu. destruct (reach_inv _ _ _ _ spin_step_inv Hr (spin_fresh_inv s Hf)) as [Hw Hc].
  eapply (cnt_unique spin_in (spin_threads s') t u); [|done..]. lia.
Qed.

(** A thread that gives up waiting for a spinlock holds no lock any more but
    goes on with interrupts off. *)
Theorem kspinlock_timeout_interrupts now e :
  e ≤ now →
  let c := CpuThread true (Some 0) in
  spin_access KSPINLOCK_HELD_VALUE now (spin_enter (Some e) c).1 (SpinWait (Some e)) =
    Some (KSPINLOCK_HELD_VALUE, (CpuThread false (Some 0), SpinOut)) ∧
  (kspinlock_release (spin_enter (Some e) c).1).2.1 = c.
Proof.
  intros He c. split; [|done]. unfold spin_access. simpl. by rewrite (proj2 (Z.leb_le e now) He).
Qed.

(** *** Witnesses: two writers and a reader *)
Lemma krwlock_mutual_exclusion_witness :
  ∃ s', rw_exec [RwCall 1 true; RwRun 1; RwRun 1; RwCall 2 false; RwRun 2; RwRun 2] (rw_start [1; 2; 3]) = Some s' ∧
    rw_pcs s' !! 1 = Some Writing ∧ rw_pcs s' !! 2 = Some RdAsleep ∧ (RdAsleep ≠ Writing ∧ RdAsleep ≠ Reading).
Proof.
  assert (Hf : rw_fresh (rw_start [1; 2; 3])).
  { split; [done|]. split; [|done]. intros t pc Ht. apply elem_of_list_to_map_2 in Ht. apply list_elem_of_fmap in Ht as (? & [= -> ->] & _). done. }
  eexists. split; [vm_compute; reflexivity|]. split; [reflexivity|]. split; [reflexivity|].
  eapply (krwlock_mutual_exclusion (rw_start [1; 2; 3]) _ 1 2 RdAsleep Hf);
    [apply (rw_exec_reachable [RwCall 1 true; RwRun 1; RwRun 1; RwCall 2 false; RwRun 2; RwRun 2]); vm_compute; reflexivity
    |reflexivity..|done].
Defined.

Lemma krwlock_no_lost_wakeup_witness :
  ∃ s', rw_exec [RwCall 1 false; RwRun 1; RwRun 1; RwCall 2 true; RwRun 2; RwRun 2; RwCall 3 false; RwRun 3; RwRun 3] (rw_start [1; 2; 3]) = Some s' ∧
    rw_pcs s' !! 3 = Some RdAsleep ∧ ∃ u pc', rw_pcs s' !! u = Some pc' ∧ pc' ≠ RwOut ∧ rw_asleep pc' = false.
Proof.
  assert (Hf : rw_fresh (rw_start [1; 2; 3])).
  { split; [done|]. split; [|done]. intros t pc Ht. apply elem_of_list_to_map_2 in Ht. apply list_elem_of_fmap in Ht as (? & [= -> ->] & _). done. }
  eexists. split; [vm_compute; reflexivity|]. split; [reflexivity|].
  eapply (krwlock_no_lost_wakeup (rw_start [1; 2; 3]) _ 3 RdAsleep Hf);
    [apply (rw_exec_reachable [RwCall 1 false; RwRun 1; RwRun 1; RwCall 2 true; RwRun 2; RwRun 2; RwCall 3 false; RwRun 3; RwRun 3]);
     vm_compute; reflexivity|reflexivity..].
Defined.

Lemma spin_mutual_exclusion_witness :
  let s := SpinState 0 {[1 := (CpuThread true (Some 0), SpinOut)]} in
  ∃ s' c, spin_reachable s s' ∧ spin_threads s' !! 1 = Some (c, SpinIn) ∧ interrupts c = false ∧ 1 = 1.
Proof.
  intros s. set (c := CpuThread false (Some 1)).
  assert (Hr : spin_reachable s (SpinState 1 (<[1 := (c, SpinIn)]> (<[1 := (c, SpinTry None)]> (spin_threads s))))).
  { apply Relation_Operators.rt1n_trans with (SpinState 0 (<[1 := (c, SpinTry None)]> (spin_threads s)));
      [exact (spin_step_enter s 1 (CpuThread true (Some 0)) None eq_refl)|].
    eapply Relation_Operators.rt1n_trans; [|constructor].
    exact (spin_step_access (SpinState 0 (<[1 := (c, SpinTry None)]> (spin_threads s))) 1 c (SpinTry None) 0 1 (c, SpinIn) eq_refl eq_refl). }
  eexists _, c. split; [exact Hr|]. split; [reflexivity|]. split; [reflexivity|].
  apply (spin_mutual_exclusion s (SpinState 1 (<[1 := (c, SpinIn)]> (<[1 := (c, SpinTry None)]> (spin_threads s)))) 1 1 c c); [|exact Hr|reflexivity..].
  split; [reflexivity|]. intros t x Hx. unfold s in Hx. simpl in Hx. apply lookup_singleton_Some in Hx as [_ <-]. reflexivity.
Defined.

Lemma kspinlock_timeout_interrupts_witness :
  spin_access KSPINLOCK_HELD_VALUE 7 (spin_enter (Some 5) (CpuThread true (Some 0))).1 (SpinWait (Some 5)) =
    Some (KSPINLOCK_HELD_VALUE, (CpuThread false (Some 0), SpinOut)).
Proof. apply (kspinlock_timeout_interrupts 7 5). lia. Defined.
