(* ===== verification/Mutex.v ===== *)
(** * The mutex, src/com/lib/mutex.c

    The threads and their steps are modelled as in [Locks]: one step per
    section between taking the inner spinlock and releasing it. A thread that
    waits with a timeout has a timer, which may expire at any time between
    falling asleep and the moment the thread, awake again, cancels it
    (com_sys_sched_wait_spinlock_timeout and sched_handle_timeout in
    src/com/sys/sched.c). *)
From S2P Require Import Prelude Locks.

(** ** Data *)
Record kmutex : Type := Kmutex {
  mx_lock : option Z;           (* who holds the inner spinlock *)
  locked : bool;
  owner : option Z;
  waiters : list Z }.

Definition KMUTEX_INIT : kmutex := Kmutex None false None [].
Definition CONFIG_MUTEX_RETRIES : nat := 60.

(** Where a thread is. [timed] says that it waits with a timeout,
    [retries] counts the turns left in [try_acquire_internal], [expired] is
    [timed_wait_expired] and [timed_out] the result of the wait. *)
Inductive mx_pc : Type :=
  | MxOut
  | TryOnceSpin | TryOnceSection
  | TrySpin (retries : nat) (timed : bool) | TrySection (retries : nat) (timed : bool)
  | SlowSpin (timed : bool) | LoopSection (timed : bool)
  | MxAsleep (timed : bool)
  | MxWoken (timed expired : bool)
  | WokenSpin (timed timed_out : bool) | WokenSection (timed timed_out : bool)
  | MxHeld
  | MxDoneSpin | MxDoneSection
  | MxPanic.

(** ** The sections *)
Definition mx_result : Type := kmutex * mx_pc * list Z.

(** The assignments at [take], with the release of the spinlock. *)
Definition mx_take (mx : kmutex) (t : Z) : mx_result := (Kmutex None true (Some t) (waiters mx), MxHeld, []).
Definition mx_leave (mx : kmutex) (pc : mx_pc) : mx_result := (Kmutex None (locked mx) (owner mx) (waiters mx), pc, []).

(** One turn of [try_acquire_internal]; [same_cpu] says that the owner ran
    last on the processor of the caller. *)
Definition try_acquire_internal (mx : kmutex) (t : Z) (same_cpu : bool) (again failed : mx_pc) : mx_result :=
  if negb (locked mx) then mx_take mx t
  else match owner mx with
       | None => mx_leave mx MxPanic
       | Some _ => mx_leave mx (if same_cpu then failed else again)
       end.

(** The loop of [kmutex_acquire_timeout]. *)
Definition acquire_loop (mx : kmutex) (t : Z) (timed : bool) : mx_result :=
  if locked mx then (Kmutex None (locked mx) (owner mx) (waiters mx ++ [t]), MxAsleep timed, [])
  else mx_take mx t.

Definition kmutex_release (mx : kmutex) : mx_result :=
  if locked mx
  then let '(woken, q) := notify (waiters mx) in (Kmutex None false None q, MxOut, woken)
  else mx_leave mx MxPanic.

Definition mx_take_lock (mx : kmutex) (t : Z) (pc : mx_pc) : option mx_result :=
  match mx_lock mx with
  | Some _ => None
  | None => Some (Kmutex (Some t) (locked mx) (owner mx) (waiters mx), pc, [])
  end.

Definition mx_run (mx : kmutex) (t : Z) (same_cpu : bool) (pc : mx_pc) : option mx_result :=
  match pc with
  | TryOnceSpin => mx_take_lock mx t TryOnceSection
  | TryOnceSection => Some (try_acquire_internal mx t same_cpu MxOut MxOut)
  | TrySpin r timed => mx_take_lock mx t (TrySection r timed)
  | TrySection r timed =>
      Some (try_acquire_internal mx t same_cpu
              (match r with S (S r) => TrySpin (S r) timed | _ => SlowSpin timed end) (SlowSpin timed))
  | SlowSpin timed => mx_take_lock mx t (LoopSection timed)
  | LoopSection timed => Some (acquire_loop mx t timed)
  | MxWoken timed expired => Some (mx, WokenSpin timed (timed && expired), [])
  | WokenSpin timed timed_out => mx_take_lock mx t (WokenSection timed timed_out)
  | WokenSection timed timed_out => Some (if timed_out then mx_leave mx MxOut else acquire_loop mx t timed)
  | MxDoneSpin => mx_take_lock mx t MxDoneSection
  | MxDoneSection => Some (kmutex_release mx)
  | MxOut | MxAsleep _ | MxHeld | MxPanic => None
  end.

(** The functions a thread may call. *)
Inductive mx_call : Type := Kmutex_try_acquire | Kmutex_acquire_timeout (timed : bool) | Kmutex_release.
Definition mx_enter (pc : mx_pc) (c : mx_call) : option mx_pc :=
  match pc, c with
  | MxOut, Kmutex_try_acquire => Some TryOnceSpin
  | MxOut, Kmutex_acquire_timeout timed => Some (TrySpin CONFIG_MUTEX_RETRIES timed)
  | MxHeld, Kmutex_release => Some MxDoneSpin
  | _, _ => None
  end.

(** ** Steps *)
Record mx_state : Type := MxState { mx : kmutex; mx_pcs : gmap Z mx_pc }.

Definition mx_wake (pc : mx_pc) : mx_pc := match pc with MxAsleep timed => MxWoken timed false | _ => pc end.

Definition mx_wake_all (ts : list Z) (m : gmap Z mx_pc) : gmap Z mx_pc :=
  match ts with
  | t :: _ => match m !! t with Some pc => <[t := mx_wake pc]> m | None => m end
  | [] => m
  end.

Definition mx_unqueue (m : kmutex) (t : Z) : kmutex :=
  Kmutex (mx_lock m) (locked m) (owner m) (filter (λ x, x ≠ t) (waiters m)).

(** [com_sys_sched_notify_thread] for a signal, and [sched_handle_timeout]:
    the flag is set whether the thread still waits or not. *)
Inductive mx_event : Type := MxCall (t : Z) (c : mx_call) | MxRun (t : Z) (same_cpu : bool) | MxSignal (t : Z) | MxTimer (t : Z).

Definition mx_do (e : mx_event) (s : mx_state) : option mx_state :=
  match e with
  | MxCall t c => pc ← mx_pcs s !! t; pc' ← mx_enter pc c; Some (MxState (mx s) (<[t := pc']> (mx_pcs s)))
  | MxRun t same_cpu =>
      pc ← mx_pcs s !! t;
      '(m, pc', woken) ← mx_run (mx s) t same_cpu pc;
      Some (MxState m (mx_wake_all woken (<[t := pc']> (mx_pcs s))))
  | MxSignal t =>
      pc ← mx_pcs s !! t;
      match pc with
      | MxAsleep timed => Some (MxState (mx_unqueue (mx s) t) (<[t := MxWoken timed false]> (mx_pcs s)))
      | _ => None
      end
  | MxTimer t =>
      pc ← mx_pcs s !! t;
      match pc with
      | MxAsleep true => Some (MxState (mx_unqueue (mx s) t) (<[t := MxWoken true true]> (mx_pcs s)))
      | MxWoken true _ => Some (MxState (mx s) (<[t := MxWoken true true]> (mx_pcs s)))
      | _ => None
      end
  end.

Fixpoint mx_exec (es : list mx_event) (s : mx_state) : option mx_state :=
  match es with [] => Some s | e :: es => s ← mx_do e s; mx_exec es s end.

Definition mx_fresh (s : mx_state) : Prop := mx s = KMUTEX_INIT ∧ ∀ t pc, mx_pcs s !! t = Some pc → pc = MxOut.
Definition mx_start (ts : list Z) : mx_state := MxState KMUTEX_INIT (list_to_map ((λ t, (t, MxOut)) <$> ts)).

(** No thread asks for a timeout. *)
Definition untimed (e : mx_event) : Prop := match e with MxCall _ (Kmutex_acquire_timeout true) => False | _ => True end.

(** ** Invariant *)
Definition mx_holding (pc : mx_pc) : bool := match pc with MxHeld | MxDoneSpin | MxDoneSection => true | _ => false end.
Definition mx_in_section (pc : mx_pc) : bool :=
  match pc with
  | TryOnceSection | TrySection _ _ | LoopSection _ | WokenSection _ _ | MxDoneSection => true
  | _ => false
  end.
Definition mx_asleep (pc : mx_pc) : bool := match pc with MxAsleep _ => true | _ => false end.
(** Awake and on its way back to the loop that takes the mutex. *)
Definition mx_returning (pc : mx_pc) : bool :=
  match pc with MxWoken false _ | WokenSpin false _ | WokenSection false _ => true | _ => false end.
Definition pc_untimed (pc : mx_pc) : bool :=
  match pc with
  | TrySpin _ true | TrySection _ true | SlowSpin true | LoopSection true | MxAsleep true | MxWoken true _
  | WokenSpin true _ | WokenSection true _ | WokenSpin _ true | WokenSection _ true => false
  | _ => true
  end.

Record mx_inv (s : mx_state) : Prop := {
  mi_lock : ∀ t pc, mx_pcs s !! t = Some pc → mx_in_section pc = true → mx_lock (mx s) = Some t;
  mi_held : ∀ t pc, mx_pcs s !! t = Some pc → mx_holding pc = true → locked (mx s) = true ∧ owner (mx s) = Some t;
  mi_owner : locked (mx s) = true → ∃ t pc, owner (mx s) = Some t ∧ mx_pcs s !! t = Some pc ∧ mx_holding pc = true;
  mi_queue : ∀ t, t ∈ waiters (mx s) ↔ mx_asleep <$> mx_pcs s !! t = Some true;
  mi_nodup : NoDup (waiters (mx s));
  mi_panic : ∀ t, mx_pcs s !! t ≠ Some MxPanic }.

(** What holds besides when nobody asks for a timeout. *)
Record mx_inv_untimed (s : mx_state) : Prop := {
  mu_inv : mx_inv s;
  mu_pcs : ∀ t pc, mx_pcs s !! t = Some pc → pc_untimed pc = true;
  mu_wait : waiters (mx s) ≠ [] → locked (mx s) = true ∨ ∃ t pc, mx_pcs s !! t = Some pc ∧ mx_returning pc = true }.

(** *** The invariant is kept *)
Lemma mx_lookup (m : gmap Z mx_pc) t pc' u p :
  <[t := pc']> m !! u = Some p → u = t ∧ p = pc' ∨ u ≠ t ∧ m !! u = Some p.
Proof.
  destruct (decide (u = t)) as [->|]; [rewrite lookup_insert_eq; intros [= <-]; by left|rewrite lookup_insert_ne by done; by right].
Qed.

(** A step that moves one thread and at most the spinlock. *)
Lemma mx_move s t pc pc' l :
  mx_inv s → mx_pcs s !! t = Some pc → mx_asleep pc = false → mx_asleep pc' = false → mx_holding pc' = mx_holding pc →
  pc' ≠ MxPanic → (∀ u p, <[t := pc']> (mx_pcs s) !! u = Some p → mx_in_section p = true → l = Some u) →
  mx_inv (MxState (Kmutex l (locked (mx s)) (owner (mx s)) (waiters (mx s))) (<[t := pc']> (mx_pcs s))).
Proof.
  intros I Ht Ha Ha' Hh Hp Hl. destruct I. split; simpl; try done.
  - intros u p [[-> ->]|[_ Hu]]%mx_lookup Hup; [rewrite Hh in Hup; by apply (mi_held0 t pc)|by apply (mi_held0 u p)].
  - intros Hlk. destruct (mi_owner0 Hlk) as (u & p & Ho & Hu & Hup). exists u.
    destruct (decide (u = t)) as [->|].
    + exists pc'. rewrite lookup_insert_eq. split_and!; try done. congruence.
    + exists p. by rewrite lookup_insert_ne.
  - intros u. rewrite mi_queue0. destruct (decide (u = t)) as [->|]; [|by rewrite lookup_insert_ne].
    rewrite lookup_insert_eq, Ht. simpl. by rewrite Ha, Ha'.
  - intros u [[_ ?]|[_ Hu]]%mx_lookup; [done|by apply (mi_panic0 u)].
Qed.

(** A thread that leaves its section leaves nobody in one. *)
Lemma mx_section_left s t pc pc' :
  mx_inv s → mx_pcs s !! t = Some pc → mx_in_section pc = true → mx_in_section pc' = false →
  ∀ u p, <[t := pc']> (mx_pcs s) !! u = Some p → mx_in_section p = true → None = Some u.
Proof.
  intros I Ht Hs Hs' u p [[-> ->]|[Hne Hu]]%mx_lookup Hp; [congruence|].
  pose proof (mi_lock s I t pc Ht Hs). pose proof (mi_lock s I u p Hu Hp). congruence.
Qed.

Lemma mx_take_inv s t pc :
  mx_inv s → mx_pcs s !! t = Some pc → mx_in_section pc = true → mx_asleep pc = false → locked (mx s) = false →
  mx_inv (MxState (Kmutex None true (Some t) (waiters (mx s))) (<[t := MxHeld]> (mx_pcs s))).
Proof.
  intros I Ht Hs Ha Hl. pose proof (mx_section_left s t pc MxHeld I Ht Hs eq_refl) as Hleft. destruct I. split; simpl; try done.
  - intros u p [[-> ->]|[_ Hu]]%mx_lookup Hup; [done|]. destruct (mi_held0 u p Hu Hup). congruence.
  - intros _. exists t, MxHeld. by rewrite lookup_insert_eq.
  - intros u. rewrite mi_queue0. destruct (decide (u = t)) as [->|]; [|by rewrite lookup_insert_ne].
    rewrite lookup_insert_eq, Ht. simpl. by rewrite Ha.
  - intros u [[_ ?]|[_ Hu]]%mx_lookup; [done|by apply (mi_panic0 u)].
Qed.

Lemma mx_sleep_inv s t pc timed :
  mx_inv s → mx_pcs s !! t = Some pc → mx_in_section pc = true → mx_asleep pc = false → mx_holding pc = false →
  mx_inv (MxState (Kmutex None (locked (mx s)) (owner (mx s)) (waiters (mx s) ++ [t])) (<[t := MxAsleep timed]> (mx_pcs s))).
Proof.
  intros I Ht Hs Ha Hh. pose proof (mx_section_left s t pc (MxAsleep timed) I Ht Hs eq_refl) as Hleft. destruct I. split; simpl; try done.
  - intros u p [[-> ->]|[_ Hu]]%mx_lookup Hup; [done|by apply (mi_held0 u p)].
  - intros Hlk. destruct (mi_owner0 Hlk) as (u & p & Ho & Hu & Hup). exists u, p.
    rewrite lookup_insert_ne by (intros ->; congruence). done.
  - intros u. rewrite elem_of_app, list_elem_of_singleton, mi_queue0. destruct (decide (u = t)) as [->|].
    + rewrite lookup_insert_eq. simpl. naive_solver.
    + rewrite lookup_insert_ne by done. naive_solver.
  - apply NoDup_app. split; [done|]. split; [|apply NoDup_singleton]. intros u Hu ->%list_elem_of_singleton.
    apply mi_queue0 in Hu. rewrite Ht in Hu. simpl in Hu. congruence.
  - intros u [[_ ?]|[_ Hu]]%mx_lookup; [done|by apply (mi_panic0 u)].
Qed.

(** Waking a thread that sleeps takes it off the queue. *)
Lemma mx_wake_inv s t timed expired l :
  mx_inv s → mx_pcs s !! t = Some (MxAsleep timed) →
  (∀ u p, <[t := MxWoken timed expired]> (mx_pcs s) !! u = Some p → mx_in_section p = true → l = Some u) →
  mx_inv (MxState (Kmutex l (locked (mx s)) (owner (mx s)) (filter (λ x, x ≠ t) (waiters (mx s))))
    (<[t := MxWoken timed expired]> (mx_pcs s))).
Proof.
  intros I Ht Hl. destruct I. split; simpl; try done.
  - intros u p [[-> ->]|[_ Hu]]%mx_lookup Hup; [done|by apply (mi_held0 u p)].
  - intros Hlk. destruct (mi_owner0 Hlk) as (u & p & Ho & Hu & Hup). exists u, p.
    rewrite lookup_insert_ne; [done|]. intros ->. rewrite Ht in Hu. by injection Hu as <-.
  - intros u. rewrite list_elem_of_filter, mi_queue0. destruct (decide (u = t)) as [->|].
    + rewrite lookup_insert_eq. simpl. naive_solver.
    + rewrite lookup_insert_ne by done. naive_solver.
  - by apply NoDup_filter.
  - intros u [[_ ?]|[_ Hu]]%mx_lookup; [done|by apply (mi_panic0 u)].
Qed.

Lemma mx_release_inv s t m pc' woken :
  mx_inv s → mx_pcs s !! t = Some MxDoneSection → kmutex_release (mx s) = (m, pc', woken) →
  mx_inv (MxState m (mx_wake_all woken (<[t := pc']> (mx_pcs s)))) ∧
  pc' = MxOut ∧ m = Kmutex None false None (drop 1 (waiters (mx s))) ∧ woken = take 1 (waiters (mx s)).
Proof.
  intros I Ht Hr. unfold kmutex_release in Hr. destruct (mi_held s I t _ Ht eq_refl) as [Hl Ho]. rewrite Hl in Hr.
  unfold notify in Hr. injection Hr as <- <- <-. split; [|done].
  assert (I1 : mx_inv (MxState (Kmutex None false None (waiters (mx s))) (<[t := MxOut]> (mx_pcs s)))).
  { pose proof (mx_section_left s t _ MxOut I Ht eq_refl eq_refl) as Hleft. destruct I. split; simpl; try done.
    - intros u p [[-> ->]|[Hne Hu]]%mx_lookup Hup; [done|]. destruct (mi_held0 u p Hu Hup). congruence.
    - intros u. rewrite mi_queue0. destruct (decide (u = t)) as [->|]; [|by rewrite lookup_insert_ne].
      rewrite lookup_insert_eq, Ht. done.
    - intros u [[_ ?]|[_ Hu]]%mx_lookup; [done|by apply (mi_panic0 u)]. }
  destruct (waiters (mx s)) as [|u q] eqn:Hq; [exact I1|]. cbn [take drop mx_wake_all].
  assert (Hu : ∃ timed, <[t := MxOut]> (mx_pcs s) !! u = Some (MxAsleep timed)).
  { pose proof (proj1 (mi_queue _ I1 u) (list_elem_of_here _ _)) as Hu. simpl in Hu.
    destruct (<[t := MxOut]> (mx_pcs s) !! u) as [[]|]; simpl in Hu; try discriminate Hu. by eexists. }
  destruct Hu as [timed Hu]. rewrite Hu. cbn [mx_wake].
  pose proof (mi_nodup _ I1) as [Hnu _]%NoDup_cons.
  assert (Hf : filter (λ x, x ≠ u) (u :: q) = q).
  { rewrite filter_cons_False by naive_solver. apply filter_all, Forall_forall. intros x Hx ->. done. }
  rewrite <- Hf. apply (mx_wake_inv _ u timed false None I1 Hu). simpl.
  intros v p [[-> ->]|[_ Hv]]%mx_lookup Hp; [done|]. by apply (mi_lock _ I1 v p).
Qed.

Lemma mx_take_lock_inv s t pc pc' r :
  mx_inv s → mx_pcs s !! t = Some pc → mx_take_lock (mx s) t pc' = Some r →
  mx_asleep pc = false → mx_asleep pc' = false → mx_holding pc' = mx_holding pc → pc' ≠ MxPanic →
  mx_inv (MxState r.1.1 (mx_wake_all r.2 (<[t := r.1.2]> (mx_pcs s)))) ∧
  locked r.1.1 = locked (mx s) ∧ waiters r.1.1 = waiters (mx s) ∧ r.1.2 = pc' ∧ r.2 = [].
Proof.
  intros I Ht Hr ????. unfold mx_take_lock in Hr. destruct (mx_lock (mx s)) eqn:Hl; [done|]. injection Hr as <-. simpl.
  split; [|done]. apply (mx_move s t pc pc'); try done.
  intros u p [[-> ->]|[_ Hu]]%mx_lookup Hp; [done|]. pose proof (mi_lock s I u p Hu Hp). congruence.
Qed.

Lemma mx_leave_inv s t pc pc' :
  mx_inv s → mx_pcs s !! t = Some pc → mx_in_section pc = true → mx_in_section pc' = false →
  mx_asleep pc = false → mx_asleep pc' = false → mx_holding pc' = mx_holding pc → pc' ≠ MxPanic →
  mx_inv (MxState (mx_leave (mx s) pc').1.1 (<[t := pc']> (mx_pcs s))).
Proof. intros I Ht Hs Hs' ????. by apply (mx_move s t pc pc'), (mx_section_left s t pc pc'). Qed.

(** How one step by a thread itself can end. *)
Inductive mx_change (s : mx_state) (t : Z) (pc : mx_pc) : mx_result → Prop :=
  | ch_move m pc' : waiters m = waiters (mx s) → locked m = locked (mx s) →
      (pc_untimed pc = true → pc_untimed pc' = true ∧ (mx_returning pc = true → mx_returning pc' = true)) →
      mx_change s t pc (m, pc', [])
  | ch_take m : locked m = true → waiters m = waiters (mx s) → mx_change s t pc (m, MxHeld, [])
  | ch_sleep m timed : locked m = true → waiters m = waiters (mx s) ++ [t] → (pc_untimed pc = true → timed = false) →
      mx_change s t pc (m, MxAsleep timed, [])
  | ch_release m : pc = MxDoneSection → waiters m = drop 1 (waiters (mx s)) → mx_change s t pc (m, MxOut, take 1 (waiters (mx s))).

Lemma acquire_loop_inv s t pc timed r :
  mx_inv s → mx_pcs s !! t = Some pc → mx_in_section pc = true → mx_asleep pc = false → mx_holding pc = false →
  (pc_untimed pc = true → timed = false) → acquire_loop (mx s) t timed = r →
  mx_inv (MxState r.1.1 (mx_wake_all r.2 (<[t := r.1.2]> (mx_pcs s)))) ∧ mx_change s t pc r.
Proof.
  intros I Ht Hs Ha Hh Htm <-. unfold acquire_loop. destruct (locked (mx s)) eqn:Hl; simpl.
  - split; [rewrite <- Hl; by apply (mx_sleep_inv s t pc)|]. by apply ch_sleep.
  - split; [by apply (mx_take_inv s t pc)|]. by apply ch_take.
Qed.

Lemma try_acquire_inv s t pc same_cpu again failed r :
  mx_inv s → mx_pcs s !! t = Some pc → mx_in_section pc = true → mx_asleep pc = false → mx_holding pc = false →
  (∀ p, p = again ∨ p = failed → mx_in_section p = false ∧ mx_asleep p = false ∧ mx_holding p = false ∧ p ≠ MxPanic ∧
     (pc_untimed pc = true → pc_untimed p = true)) → mx_returning pc = false →
  try_acquire_internal (mx s) t same_cpu again failed = r →
  mx_inv (MxState r.1.1 (mx_wake_all r.2 (<[t := r.1.2]> (mx_pcs s)))) ∧ mx_change s t pc r.
Proof.
  intros I Ht Hs Ha Hh Hp Hret <-. unfold try_acquire_internal. destruct (locked (mx s)) eqn:Hl; simpl.
  - destruct (mi_owner s I Hl) as (o & q & Ho & _). rewrite Ho. simpl.
    set (p := if same_cpu then failed else again). destruct (Hp p) as (H1 & H2 & H3 & H4 & H5); [unfold p; destruct same_cpu; auto|].
    split; [apply (mx_leave_inv s t pc p); try done; congruence|]. apply ch_move; [done..|]. intros Hu. split; [by apply H5|congruence].
  - split; [by apply (mx_take_inv s t pc)|]. by apply ch_take.
Qed.

Lemma mx_run_inv s t pc same_cpu r :
  mx_inv s → mx_pcs s !! t = Some pc → mx_run (mx s) t same_cpu pc = Some r →
  mx_inv (MxState r.1.1 (mx_wake_all r.2 (<[t := r.1.2]> (mx_pcs s)))) ∧ mx_change s t pc r.
Proof.
  intros I Ht Hr.
  assert (Hlk : ∀ pc', mx_take_lock (mx s) t pc' = Some r → mx_asleep pc = false → mx_asleep pc' = false → mx_holding pc' = mx_holding pc →
    pc' ≠ MxPanic → (pc_untimed pc = true → pc_untimed pc' = true ∧ (mx_returning pc = true → mx_returning pc' = true)) →
    mx_inv (MxState r.1.1 (mx_wake_all r.2 (<[t := r.1.2]> (mx_pcs s)))) ∧ mx_change s t pc r).
  { intros pc' Hk ???? Hu. destruct (mx_take_lock_inv s t pc pc' r I Ht Hk) as (Hi & R1 & R2 & R3 & R4); try done. split; [done|].
    destruct r as [[m p] w]; simpl in *. subst p w. by apply ch_move. }
  destruct pc as [| | |n timed|n timed|timed|timed|timed|timed expired|timed to|timed to| | | |]; simpl in Hr; try discriminate Hr.
  - by apply (Hlk TryOnceSection).
  - injection Hr as Hr. apply (try_acquire_inv s t _ same_cpu MxOut MxOut r I Ht); try done. by intros p [-> | ->].
  - apply (Hlk (TrySection n timed)); try done; by destruct timed.
  - injection Hr as Hr. eapply (try_acquire_inv s t _ same_cpu _ _ r I Ht); [..|exact Hr]; try done.
    intros p [-> | ->]; [destruct n as [|[]]|]; split_and!; done || by destruct timed.
  - apply (Hlk (LoopSection timed)); try done; by destruct timed.
  - injection Hr as Hr. apply (acquire_loop_inv s t _ timed r I Ht); try done; by destruct timed.
  - injection Hr as <-. simpl. split.
    + destruct (mx s) as [l lk o ws] eqn:Hm. pose proof (mx_move s t _ (WokenSpin timed (timed && expired)) l I Ht) as Hmv. rewrite Hm in Hmv.
      simpl in Hmv. apply Hmv; try done. intros u p [[-> ->]|[_ Hu]]%mx_lookup Hp; [done|].
      pose proof (mi_lock s I u p Hu Hp) as Hx. by rewrite Hm in Hx.
    + apply ch_move; [done..|]. destruct timed; done.
  - apply (Hlk (WokenSection timed to)); try done; by destruct timed, to.
  - injection Hr as Hr. destruct to.
    + subst r. simpl. split; [by apply (mx_leave_inv s t (WokenSection timed true) MxOut)|]. apply ch_move; [done..|]. by destruct timed.
    + apply (acquire_loop_inv s t _ timed r I Ht); try done; by destruct timed.
  - by apply (Hlk MxDoneSection).
  - injection Hr as Hr. destruct r as [[m p] w]. destruct (mx_release_inv s t m p w I Ht Hr) as (Hi & -> & -> & ->).
    split; [exact Hi|]. by apply ch_release.
Qed.

Lemma mx_do_inv e s s' : mx_do e s = Some s' → mx_inv s → mx_inv s'.
Proof.
  intros Hd I. destruct e as [t c|t same|t|t]; simpl in Hd; destruct (mx_pcs s !! t) as [pc|] eqn:Ht; simpl in Hd; try discriminate Hd.
  - destruct (mx_enter pc c) as [pc'|] eqn:Hc; [|discriminate Hd]. injection Hd as <-.
    destruct (mx s) as [l lk o ws] eqn:Hm. pose proof (mx_move s t pc pc' l I Ht) as Hmv. rewrite Hm in Hmv. simpl in Hmv.
    assert (Hp : mx_asleep pc = false ∧ mx_asleep pc' = false ∧ mx_holding pc' = mx_holding pc ∧ pc' ≠ MxPanic ∧ mx_in_section pc' = false).
    { destruct pc, c; simpl in Hc; try discriminate Hc; by injection Hc as <-. }
    destruct Hp as (?&?&?&?&Hns). apply Hmv; try done.
    intros u p [[-> ->]|[_ Hu]]%mx_lookup Hup; [congruence|]. pose proof (mi_lock s I u p Hu Hup) as Hx. by rewrite Hm in Hx.
  - destruct (mx_run (mx s) t same pc) as [[[m p] w]|] eqn:Hr; [|discriminate Hd]. injection Hd as <-.
    by destruct (mx_run_inv s t pc same _ I Ht Hr) as [Hi _].
  - destruct pc; try discriminate Hd. injection Hd as <-. apply mx_wake_inv; [done..|].
    intros u p [[-> ->]|[_ Hu]]%mx_lookup Hup; [done|by apply (mi_lock s I u p)].
  - destruct pc as [| | |? ?|? ?|?|?|[]|[] ?|? ?|? ?| | | |]; try discriminate Hd; injection Hd as <-.
    + apply mx_wake_inv; [done..|]. intros u p [[-> ->]|[_ Hu]]%mx_lookup Hup; [done|by apply (mi_lock s I u p)].
    + destruct (mx s) as [l lk o ws] eqn:Hm. pose proof (mx_move s t _ (MxWoken true true) l I Ht) as Hmv. rewrite Hm in Hmv.
      simpl in Hmv. apply Hmv; try done. intros u p [[-> ->]|[_ Hu]]%mx_lookup Hup; [done|].
      pose proof (mi_lock s I u p Hu Hup) as Hx. by rewrite Hm in Hx.
Qed.

Lemma mx_exec_inv es s s' : mx_exec es s = Some s' → mx_inv s → mx_inv s'.
Proof.
  revert s. induction es as [|e es IH]; simpl; intros s; [by intros [= <-]|].
  destruct (mx_do e s) as [s1|] eqn:He; [|done]. simpl. intros Hx I. eapply IH; [done|]. by eapply mx_do_inv.
Qed.

Lemma mx_fresh_inv s : mx_fresh s → mx_inv s.
Proof.
  intros [Hm Hf]. split; rewrite ?Hm; simpl; try done.
  - intros t pc Ht Hp. by rewrite (Hf t pc Ht) in Hp.
  - intros t pc Ht Hp. by rewrite (Hf t pc Ht) in Hp.
  - intros t. split; [by intros ?%elem_of_nil|]. destruct (mx_pcs s !! t) as [pc|] eqn:Ht; [|done]. rewrite (Hf t pc Ht). done.
  - apply NoDup_nil_2.
  - intros t Ht. discriminate (Hf t _ Ht).
Qed.

(** ** Without timeouts *)
Lemma mx_fresh_untimed s : mx_fresh s → mx_inv_untimed s.
Proof.
  intros Hf. split; [by apply mx_fresh_inv| |].
  - intros t pc Ht. destruct Hf as [_ Hf]. by rewrite (Hf t pc Ht).
  - destruct Hf as [Hm _]. by rewrite Hm.
Qed.

Lemma mx_run_untimed s t same m pc' w :
  mx_inv_untimed s → (∃ pc, mx_pcs s !! t = Some pc ∧ mx_run (mx s) t same pc = Some (m, pc', w)) →
  mx_inv_untimed (MxState m (mx_wake_all w (<[t := pc']> (mx_pcs s)))).
Proof.
  intros [I Hpcs Hwait] (pc & Ht & Hr). destruct (mx_run_inv s t pc same _ I Ht Hr) as [Hi Hch]. simpl in Hi.
  pose proof (Hpcs t pc Ht) as Hpc.
  inversion Hch as [m0 p0 Hw Hl Hu E|m0 Hl Hw E|m0 timed Hl Hw Hu E|m0 Hp Hw E]; subst; cbn [mx_wake_all] in *; split; simpl; try done.
  - intros u p [[-> ->]|[_ Hu']]%mx_lookup; [by apply Hu|by apply (Hpcs u)].
  - rewrite Hw, Hl. intros Hne. destruct (Hwait Hne) as [|(u & p & Hup & Hret)]; [by left|right].
    destruct (decide (u = t)) as [->|].
    + exists t, pc'. rewrite lookup_insert_eq. split; [done|]. rewrite Ht in Hup. injection Hup as <-. by apply Hu.
    + exists u, p. by rewrite lookup_insert_ne.
  - intros u p [[-> ->]|[_ Hu']]%mx_lookup; [done|by apply (Hpcs u)].
  - intros _. by left.
  - intros u p [[-> ->]|[_ Hu']]%mx_lookup; [by rewrite (Hu Hpc)|by apply (Hpcs u)].
  - intros _. by left.
  - destruct (waiters (mx s)) as [|x q] eqn:Hq; cbn [take mx_wake_all].
    + intros u p [[-> ->]|[_ Hu']]%mx_lookup; [done|by apply (Hpcs u)].
    + destruct (_ !! x) as [px|] eqn:Hx; [|intros u p [[-> ->]|[_ Hu']]%mx_lookup; [done|by apply (Hpcs u)]].
      assert (Hpx : pc_untimed px = true) by (apply mx_lookup in Hx as [[-> ->]|[_ Hx]]; [done|by apply (Hpcs x)]).
      intros u p [[-> ->]|[_ [[-> ->]|[_ Hu']]%mx_lookup]]%mx_lookup; [|done|by apply (Hpcs u)].
      by destruct px.
  - rewrite Hw. destruct (waiters (mx s)) as [|x q] eqn:Hq; [done|]. intros _. right. cbn [take mx_wake_all].
    pose proof (proj1 (mi_queue s I x)) as Hx. rewrite Hq in Hx. specialize (Hx (list_elem_of_here _ _)).
    destruct (mx_pcs s !! x) as [px|] eqn:Hpx; [|done]. simpl in Hx.
    assert (x ≠ t) by (intros ->; rewrite Ht in Hpx; by injection Hpx as <-).
    rewrite lookup_insert_ne, Hpx by done. exists x, (mx_wake px). rewrite lookup_insert_eq. split; [done|].
    pose proof (Hpcs x px Hpx) as Hup. destruct px as [| | |? ?|? ?|?|?|[]|[] ?|? ?|? ?| | | |]; done.
Qed.

Lemma mx_do_untimed e s s' : mx_do e s = Some s' → untimed e → mx_inv_untimed s → mx_inv_untimed s'.
Proof.
  intros Hd Hun I. pose proof (mx_do_inv e s s' Hd (mu_inv s I)) as I'.
  destruct e as [t c|t same|t|t]; simpl in Hd; destruct (mx_pcs s !! t) as [pc|] eqn:Ht; simpl in Hd; try discriminate Hd.
  - destruct (mx_enter pc c) as [pc'|] eqn:Hc; [|discriminate Hd]. injection Hd as <-.
    assert (Hp : pc_untimed pc' = true ∧ mx_returning pc = false).
    { destruct pc, c as [|[]|]; simpl in Hc; try discriminate Hc; try done; by injection Hc as <-. }
    split; simpl; [done| |].
    + intros u p [[-> ->]|[_ Hu]]%mx_lookup; [apply Hp|by apply (mu_pcs s I u)].
    + intros Hne. destruct (mu_wait s I Hne) as [|(u & p & Hu & Hr)]; [by left|right]. exists u, p.
      rewrite lookup_insert_ne; [done|]. intros ->. rewrite Ht in Hu. injection Hu as <-. destruct Hp. congruence.
  - destruct (mx_run (mx s) t same pc) as [[[m p] w]|] eqn:Hr; [|discriminate Hd]. injection Hd as <-.
    apply (mx_run_untimed s t same); [done|]. by exists pc.
  - destruct pc as [| | |? ?|? ?|?|?|timed|? ?|? ?|? ?| | | |]; try discriminate Hd. injection Hd as <-.
    pose proof (mu_pcs s I t _ Ht) as Hp. destruct timed; [done|]. split; simpl; [done| |].
    + intros u p [[-> ->]|[_ Hu]]%mx_lookup; [done|by apply (mu_pcs s I u)].
    + intros _. right. exists t, (MxWoken false false). by rewrite lookup_insert_eq.
  - pose proof (mu_pcs s I t _ Ht) as Hp. destruct pc as [| | |? ?|? ?|?|?|[]|[] ?|? ?|? ?| | | |]; done.
Qed.

Lemma mx_exec_untimed es s s' : mx_exec es s = Some s' → Forall untimed es → mx_inv_untimed s → mx_inv_untimed s'.
Proof.
  intros Hx Hu. revert s Hx. induction Hu as [|e es He _ IH]; simpl; intros s; [by intros [= <-]|].
  destruct (mx_do e s) as [s1|] eqn:Hd; [|done]. simpl. intros Hx I. apply (IH s1 Hx). by eapply mx_do_untimed.
Qed.

(** ** Properties *)

(** C40: Whatever the threads do and in whatever order, timers and signals
    included, at most one of them holds the mutex, the mutex names that one
    as its owner, and no assertion of the functions fails. *)
Theorem kmutex_mutual_exclusion es s s' t u :
  mx_fresh s → mx_exec es s = Some s' → mx_pcs s' !! t = Some MxHeld →
  owner (mx s') = Some t ∧ (mx_pcs s' !! u = Some MxHeld → u = t) ∧ mx_pcs s' !! u ≠ Some MxPanic.
Proof.
  intros Hf Hx Ht. pose proof (mx_exec_inv es s s' Hx (mx_fresh_inv s Hf)) as I.
  destruct (mi_held s' I t _ Ht eq_refl) as [_ Ho]. split; [done|]. split; [|apply (mi_panic s' I)].
  intros Hu. destruct (mi_held s' I u _ Hu eq_refl) as [_ Ho']. congruence.
Qed.

(** As long as nobody asks for a timeout, no wake-up is lost: when a thread
    sleeps waiting for the mutex, some thread holds it or is awake and about
    to try and take it. *)
Theorem kmutex_no_lost_wakeup es s s' t pc :
  mx_fresh s → mx_exec es s = Some s' → Forall untimed es → mx_pcs s' !! t = Some pc → mx_asleep pc = true →
  ∃ u pc', mx_pcs s' !! u = Some pc' ∧ (mx_holding pc' = true ∨ mx_returning pc' = true).
Proof.
  intros Hf Hx Hun Ht Ha. pose proof (mx_exec_untimed es s s' Hx Hun (mx_fresh_untimed s Hf)) as I.
  pose proof (mu_inv s' I) as I0. destruct (mu_wait s' I) as [Hl|(u & p & Hu & Hr)].
  - intros Hq. assert (Hin : t ∈ waiters (mx s')) by (apply (mi_queue s' I0); rewrite Ht; simpl; by rewrite Ha).
    rewrite Hq in Hin. by apply elem_of_nil in Hin.
  - destruct (mi_owner s' I0 Hl) as (u & p & _ & Hu & Hp). exists u, p. auto.
  - exists u, p. auto.
Qed.

(** With a timeout a wake-up is lost: thread 1 releases the mutex and wakes
    thread 2, whose timer expires before it runs; thread 2 reports a timeout
    and leaves, and thread 3 stays asleep although the mutex is free and
    nobody is left to wake it. *)
Theorem kmutex_timeout_loses_wakeup :
  ∃ es s', mx_exec es (mx_start [1; 2; 3]) = Some s' ∧ locked (mx s') = false ∧
    mx_pcs s' !! 1 = Some MxOut ∧ mx_pcs s' !! 2 = Some MxOut ∧ mx_pcs s' !! 3 = Some (MxAsleep false).
Proof.
  exists ([MxCall 1 (Kmutex_acquire_timeout false); MxRun 1 false; MxRun 1 false;
    MxCall 2 (Kmutex_acquire_timeout true); MxRun 2 true; MxRun 2 true; MxRun 2 true; MxRun 2 true;
    MxCall 3 (Kmutex_acquire_timeout false); MxRun 3 true; MxRun 3 true; MxRun 3 true; MxRun 3 true;
    MxCall 1 Kmutex_release; MxRun 1 false; MxRun 1 false;
    MxTimer 2; MxRun 2 false; MxRun 2 false; MxRun 2 false]).
  eexists. split; [vm_compute; reflexivity|]. split_and!; reflexivity.
Qed.

(** *** Witnesses *)
Lemma mx_start_fresh ts : mx_fresh (mx_start ts).
Proof. split; [done|]. intros t pc Ht. apply elem_of_list_to_map_2 in Ht. by apply list_elem_of_fmap in Ht as (? & [= -> ->] & _). Qed.

(** Thread 1 holds the mutex and thread 2 sleeps. *)
Definition mx_demo : list mx_event :=
  [MxCall 1 (Kmutex_acquire_timeout false); MxRun 1 false; MxRun 1 false;
   MxCall 2 (Kmutex_acquire_timeout false); MxRun 2 true; MxRun 2 true; MxRun 2 true; MxRun 2 true].

Lemma kmutex_mutual_exclusion_witness :
  ∃ s', mx_exec mx_demo (mx_start [1; 2]) = Some s' ∧ mx_pcs s' !! 1 = Some MxHeld ∧ owner (mx s') = Some 1.
Proof.
  eexists. split; [vm_compute; reflexivity|]. split; [reflexivity|].
  eapply (kmutex_mutual_exclusion mx_demo (mx_start [1; 2]) _ 1 2 (mx_start_fresh _)); [vm_compute; reflexivity|reflexivity].
Defined.

Lemma kmutex_no_lost_wakeup_witness :
  ∃ s', mx_exec mx_demo (mx_start [1; 2]) = Some s' ∧ mx_pcs s' !! 2 = Some (MxAsleep false) ∧
    ∃ u pc', mx_pcs s' !! u = Some pc' ∧ (mx_holding pc' = true ∨ mx_returning pc' = true).
Proof.
  eexists. split; [vm_compute; reflexivity|]. split; [reflexivity|].
  eapply (kmutex_no_lost_wakeup mx_demo (mx_start [1; 2]) _ 2 (MxAsleep false) (mx_start_fresh _));
    [vm_compute; reflexivity|repeat constructor|reflexivity..].
Defined.
