(* ===== verification/Sched.v ===== *)
(** * Threads and the scheduler: src/com/sys/thread.c and src/com/sys/sched.c

    Threads, wait lists and processors are records in stores, named by their
    address. The functions are modelled as they run with the locks they take
    held to the end, which is what the locks are for; [com_sys_sched_notify]
    is split where it has released the wait list and not yet taken the lock
    of the thread, since another processor can come in between there. A
    thread is linked into its queue through one field, so inserting it where
    it is linked already, or removing it where it is not, destroys the lists:
    the model stops with [Fault].

    Left out: the registers and stacks exchanged by the context switch, the
    lock depths asserted on the way, the interprocessor interrupts that make
    another processor look at its queue, and the profiler. *)
From S2P Require Import Prelude.

(** ** Data *)
Inductive com_thread_state : Type :=
  | E_COM_THREAD_STATE_NEW | E_COM_THREAD_STATE_WAITING | E_COM_THREAD_STATE_READY
  | E_COM_THREAD_STATE_RUNNING | E_COM_THREAD_STATE_EXITED.
#[export] Instance com_thread_state_eq_dec : EqDecision com_thread_state.
Proof. solve_decision. Defined.

Record com_thread : Type := Thread {
  proc : option Z;
  cpu : option Z;
  last_cpu : option Z;
  state : com_thread_state;
  waiting_on : option Z;
  timed_wait_expired : bool;
  isuser : bool }.

Record arch_cpu : Type := Cpu {
  sched_queue : list Z;
  cur_thread : option Z;
  idle_thread : Z;
  vmm_context : option Z }.

Record sched : Type := Sched {
  threads : gmap Z com_thread;
  waitlists : gmap Z (list Z);
  cpus : gmap Z arch_cpu;
  num_running_threads : gmap Z Z;
  contexts : gmap Z Z }.

Definition set_thread (s : sched) (t : Z) (th : com_thread) : sched :=
  Sched (<[t := th]> (threads s)) (waitlists s) (cpus s) (num_running_threads s) (contexts s).
Definition set_waitlist (s : sched) (w : Z) (q : list Z) : sched :=
  Sched (threads s) (<[w := q]> (waitlists s)) (cpus s) (num_running_threads s) (contexts s).
Definition set_cpu (s : sched) (c : Z) (x : arch_cpu) : sched :=
  Sched (threads s) (waitlists s) (<[c := x]> (cpus s)) (num_running_threads s) (contexts s).
Definition set_running (s : sched) (m : gmap Z Z) : sched :=
  Sched (threads s) (waitlists s) (cpus s) m (contexts s).

Definition with_state (th : com_thread) (st : com_thread_state) : com_thread :=
  Thread (proc th) (cpu th) (last_cpu th) st (waiting_on th) (timed_wait_expired th) (isuser th).
Definition with_waiting_on (th : com_thread) (w : option Z) : com_thread :=
  Thread (proc th) (cpu th) (last_cpu th) (state th) w (timed_wait_expired th) (isuser th).
Definition with_cpu (th : com_thread) (c last : option Z) : com_thread :=
  Thread (proc th) c last (state th) (waiting_on th) (timed_wait_expired th) (isuser th).
Definition with_expired (th : com_thread) (b : bool) : com_thread :=
  Thread (proc th) (cpu th) (last_cpu th) (state th) (waiting_on th) b (isuser th).

Definition with_queue (x : arch_cpu) (q : list Z) : arch_cpu := Cpu q (cur_thread x) (idle_thread x) (vmm_context x).

(** ** Queues *)
Definition linked (s : sched) (t : Z) : bool :=
  existsb (λ kx, existsb (Z.eqb t) (sched_queue kx.2)) (map_to_list (cpus s)) ||
  existsb (λ kq, existsb (Z.eqb t) kq.2) (map_to_list (waitlists s)).

Definition insert_tail (s : sched) (q : list Z) (t : Z) : res (list Z) := if linked s t then Fault else Ok (q ++ [t]).

(** ** src/com/sys/thread.c *)
Definition com_sys_thread_transition_nolock (s : sched) (t : Z) (st : com_thread_state) : res sched :=
  th ← deref (threads s !! t);
  KASSERT (negb (bool_decide (state th = E_COM_THREAD_STATE_EXITED))) ;;
  (match st with
   | E_COM_THREAD_STATE_NEW => Panic
   | E_COM_THREAD_STATE_READY => KASSERT (bool_decide (waiting_on th = None))
   | E_COM_THREAD_STATE_WAITING => KASSERT (negb (bool_decide (waiting_on th = None)))
   | E_COM_THREAD_STATE_RUNNING =>
       KASSERT (negb (bool_decide (cpu th = None))) ;; KASSERT (bool_decide (waiting_on th = None))
   | E_COM_THREAD_STATE_EXITED => Ok tt
   end) ;;
  Ok (set_thread s t (with_state th st)).

(** [random] is the processor [x86_64_smp_get_random] gives. *)
Definition com_sys_thread_ready_nolock (random : Z) (s : sched) (t : Z) : res sched :=
  th ← deref (threads s !! t);
  let ready_cpu := default random (last_cpu th) in
  s ← com_sys_thread_transition_nolock (set_thread s t (with_waiting_on th None)) t E_COM_THREAD_STATE_READY;
  x ← deref (cpus s !! ready_cpu);
  q ← insert_tail s (sched_queue x) t;
  Ok (set_cpu s ready_cpu (with_queue x q)).

(** ** src/com/sys/sched.c *)
Definition sched_switch_vmm_context (s : sched) (c : Z) (curr next : com_thread) : res sched :=
  let bump m p d := <[p := u64 (default 0 (m !! p) + d)]> m in
  let m := match proc next with Some p => bump (num_running_threads s) p 1 | None => num_running_threads s end in
  let m := match proc curr with Some p => bump m p (-1) | None => m end in
  let next_vmm_ctx := proc next ≫= λ p, contexts s !! p in
  let prev_vmm_ctx := proc curr ≫= λ p, contexts s !! p in
  x ← deref (cpus s !! c);
  let ctx :=
    if negb (isuser next) then None
    else if negb (bool_decide (next_vmm_ctx = None)) && negb (bool_decide (next_vmm_ctx = prev_vmm_ctx)) then next_vmm_ctx
    else vmm_context x in
  Ok (set_cpu (set_running s m) c (Cpu (sched_queue x) (cur_thread x) (idle_thread x) ctx)).

Definition sched_waitlist_insert (s : sched) (w t : Z) : res sched :=
  th ← deref (threads s !! t);
  s ← com_sys_thread_transition_nolock (set_thread s t (with_waiting_on th (Some w))) t E_COM_THREAD_STATE_WAITING;
  q ← deref (waitlists s !! w);
  q ← insert_tail s q t;
  Ok (set_waitlist s w q).

(** The switch of processor [c] from [curr] to [next], once [next] is chosen
    and off the run queue. *)
Definition switch_to (s : sched) (c curr next : Z) : res sched :=
  x ← deref (cpus s !! c);
  KASSERT (negb (curr =? next)) ;;
  ct ← deref (threads s !! curr);
  s ← (if bool_decide (state ct = E_COM_THREAD_STATE_RUNNING) then
         s ← com_sys_thread_transition_nolock s curr E_COM_THREAD_STATE_READY;
         if curr =? idle_thread x then Ok s
         else q ← insert_tail s (sched_queue x) curr; Ok (set_cpu s c (with_queue x q))
       else Ok s);
  ct ← deref (threads s !! curr);
  let s := set_thread s curr (with_cpu ct None (Some c)) in
  nt ← deref (threads s !! next);
  s ← sched_switch_vmm_context s c ct nt;
  x ← deref (cpus s !! c);
  let s := set_cpu s c (Cpu (sched_queue x) (Some next) (idle_thread x) (vmm_context x)) in
  let s := set_thread s next (with_cpu nt (Some c) (last_cpu nt)) in
  com_sys_thread_transition_nolock s next E_COM_THREAD_STATE_RUNNING.

Definition com_sys_sched_yield_nolock (s : sched) (c : Z) : res sched :=
  x ← deref (cpus s !! c);
  match cur_thread x with
  | None => Ok s
  | Some curr =>
      ct ← deref (threads s !! curr);
      match sched_queue x with
      | [] =>
          if bool_decide (state ct = E_COM_THREAD_STATE_RUNNING) then Ok s
          else switch_to s c curr (idle_thread x)
      | next :: rest =>
          KASSERT (negb (next =? idle_thread x)) ;;
          switch_to (set_cpu s c (with_queue x rest)) c curr next
      end
  end.

Definition com_sys_sched_yield : sched → Z → res sched := com_sys_sched_yield_nolock.

(** [com_sys_sched_wait_nodrop] and the waits that release a lock in between:
    the current thread of processor [c] falls asleep on [w]. *)
Definition com_sys_sched_wait_nodrop (s : sched) (c w : Z) : res sched :=
  x ← deref (cpus s !! c);
  curr ← deref (cur_thread x);
  s ← sched_waitlist_insert s w curr;
  com_sys_sched_yield_nolock s c.

Definition com_sys_sched_notify_thread_nolock (random : Z) (s : sched) (t : Z) : res sched :=
  th ← deref (threads s !! t);
  match waiting_on th with
  | None => Ok s
  | Some w =>
      KASSERT (bool_decide (cpu th = None)) ;;
      q ← deref (waitlists s !! w);
      q ← TAILQ_REMOVE q t;
      com_sys_thread_ready_nolock random (set_waitlist s w q) t
  end.

Definition sched_handle_timeout (random : Z) (s : sched) (t : Z) : res sched :=
  th ← deref (threads s !! t);
  com_sys_sched_notify_thread_nolock random (set_thread s t (with_expired th true)) t.

(** The part of [com_sys_sched_notify] under the lock of the wait list. *)
Definition notify_pop (s : sched) (w : Z) : res (option Z * sched) :=
  q ← deref (waitlists s !! w);
  match q with
  | [] => Ok (None, s)
  | next :: q => Ok (Some next, set_waitlist s w q)
  end.

Definition com_sys_sched_notify (random : Z) (s : sched) (w : Z) : res sched :=
  '(next, s) ← notify_pop s w;
  match next with
  | None => Ok s
  | Some next => com_sys_thread_ready_nolock random s next
  end.

Fixpoint ready_all (random : Z) (s : sched) (ts : list Z) : res sched :=
  match ts with
  | [] => Ok s
  | t :: ts => s ← com_sys_thread_ready_nolock random s t; ready_all random s ts
  end.

Definition com_sys_sched_notify_n (random : Z) (s : sched) (w : Z) (num_waiters : nat) : res sched :=
  q ← deref (waitlists s !! w);
  ready_all random (set_waitlist s w (drop num_waiters q)) (take num_waiters q).

Definition com_sys_sched_notify_all (random : Z) (s : sched) (w : Z) : res sched :=
  q ← deref (waitlists s !! w);
  ready_all random (set_waitlist s w []) q.

(** [com_sys_thread_exit_nolock] called on processor [c]. *)
Definition com_sys_thread_exit_nolock (s : sched) (c t : Z) : res sched :=
  s ← com_sys_thread_transition_nolock s t E_COM_THREAD_STATE_EXITED;
  th ← deref (threads s !! t);
  match cpu th with
  | None => Ok s
  | Some c' => if c' =? c then com_sys_sched_yield_nolock s c else Ok s
  end.

(** ** Examples *)
Definition plain (st : com_thread_state) (c : option Z) : com_thread := Thread None c None st None false false.

(** One processor with its idle thread 100, thread 1 running and threads 2
    and 3 ready, and a wait list 50. *)
Definition demo_sched : sched :=
  Sched (<[1 := plain E_COM_THREAD_STATE_RUNNING (Some 0)]> (<[2 := plain E_COM_THREAD_STATE_READY None]>
    (<[3 := plain E_COM_THREAD_STATE_READY None]> {[100 := plain E_COM_THREAD_STATE_READY None]})))
    {[50 := []]} {[0 := Cpu [2; 3] (Some 1) 100 None]} ∅ ∅.

(** Killing a thread that is ready to run leaves it in its run queue; the
    processor stops the kernel when its turn comes. *)
Theorem exit_ready_thread_panics :
  ∃ s, com_sys_thread_exit_nolock demo_sched 0 2 = Ok s ∧ com_sys_sched_yield s 0 = Panic.
Proof. eexists. split; [vm_compute; reflexivity|vm_compute; reflexivity]. Qed.

(** The same for a thread that sleeps: the next notification of what it waits
    for stops the kernel. *)
Theorem exit_waiting_thread_panics :
  ∃ s1 s2, com_sys_sched_wait_nodrop demo_sched 0 50 = Ok s1 ∧ com_sys_thread_exit_nolock s1 0 1 = Ok s2 ∧
    com_sys_sched_notify 0 s2 50 = Panic.
Proof. eexists _, _. split; [vm_compute; reflexivity|]. split; [vm_compute; reflexivity|]. vm_compute. reflexivity. Qed.

(** A notification takes a thread off its wait list; before it makes the
    thread ready, the timer of the thread expires and takes it off again. *)
Theorem notify_timeout_race :
  ∃ s1 s2, com_sys_sched_wait_nodrop demo_sched 0 50 = Ok s1 ∧ notify_pop s1 50 = Ok (Some 1, s2) ∧
    sched_handle_timeout 0 s2 1 = Fault.
Proof. eexists _, _. split; [vm_compute; reflexivity|]. split; [vm_compute; reflexivity|]. vm_compute. reflexivity. Qed.

(** ** Well-formed states *)
Definition is_idle (C : gmap Z arch_cpu) (t : Z) : Prop := ∃ c x, C !! c = Some x ∧ idle_thread x = t.

(** [pops] are threads taken off a wait list and not made ready yet. *)
Record wf (pops : list Z) (T : gmap Z com_thread) (W : gmap Z (list Z)) (C : gmap Z arch_cpu) : Prop := {
  wf_cur c x t : C !! c = Some x → cur_thread x = Some t → ∃ th, T !! t = Some th ∧ cpu th = Some c ∧
    state th = E_COM_THREAD_STATE_RUNNING ∧ waiting_on th = None;
  wf_cpu t th c : T !! t = Some th → cpu th = Some c → ∃ x, C !! c = Some x ∧ (cur_thread x = Some t ∨ idle_thread x = t);
  wf_running t th : T !! t = Some th → state th = E_COM_THREAD_STATE_RUNNING → ∃ c x, C !! c = Some x ∧ cur_thread x = Some t;
  wf_run c x t : C !! c = Some x → t ∈ sched_queue x → ∃ th, T !! t = Some th ∧
    state th = E_COM_THREAD_STATE_READY ∧ cpu th = None ∧ waiting_on th = None ∧ ¬ is_idle C t;
  wf_wait w q t : W !! w = Some q → t ∈ q → ∃ th, T !! t = Some th ∧
    state th = E_COM_THREAD_STATE_WAITING ∧ waiting_on th = Some w ∧ cpu th = None ∧ ¬ is_idle C t ∧ t ∉ pops;
  wf_waiting t th w : T !! t = Some th → waiting_on th = Some w → t ∉ pops → ∃ q, W !! w = Some q ∧ t ∈ q;
  wf_run_nodup c x : C !! c = Some x → NoDup (sched_queue x);
  wf_wait_nodup w q : W !! w = Some q → NoDup q;
  wf_run_disj c1 c2 x1 x2 t : C !! c1 = Some x1 → C !! c2 = Some x2 → t ∈ sched_queue x1 → t ∈ sched_queue x2 → c1 = c2;
  wf_idle c x : C !! c = Some x → ∃ th, T !! idle_thread x = Some th ∧
    (state th = E_COM_THREAD_STATE_READY ∨ state th = E_COM_THREAD_STATE_RUNNING) ∧ waiting_on th = None ∧
    (cpu th = None ∨ cpu th = Some c);
  wf_idle_inj c1 c2 x1 x2 : C !! c1 = Some x1 → C !! c2 = Some x2 → idle_thread x1 = idle_thread x2 → c1 = c2;
  wf_ready t th : T !! t = Some th → state th = E_COM_THREAD_STATE_READY → ¬ is_idle C t →
    ∃ c x, C !! c = Some x ∧ t ∈ sched_queue x;
  wf_last t th c : T !! t = Some th → last_cpu th = Some c → is_Some (C !! c);
  wf_pops t : t ∈ pops → ∃ th, T !! t = Some th ∧ state th = E_COM_THREAD_STATE_WAITING ∧ cpu th = None ∧ ¬ is_idle C t;
  wf_pops_nodup : NoDup pops }.

Definition sched_wf (s : sched) : Prop := wf [] (threads s) (waitlists s) (cpus s).

Lemma existsb_eqb (t : Z) l : existsb (Z.eqb t) l = true ↔ t ∈ l.
Proof. rewrite existsb_exists. setoid_rewrite Z.eqb_eq. rewrite list_elem_of_In. naive_solver. Qed.

Lemma linked_false s t :
  (∀ c x, cpus s !! c = Some x → t ∉ sched_queue x) → (∀ w q, waitlists s !! w = Some q → t ∉ q) → linked s t = false.
Proof.
  intros Hc Hw. unfold linked. apply orb_false_iff. split; apply not_true_iff_false; rewrite existsb_exists.
  - intros ([c x] & Hin%list_elem_of_In%elem_of_map_to_list & Ht%existsb_eqb). by apply (Hc c x).
  - intros ([w q] & Hin%list_elem_of_In%elem_of_map_to_list & Ht%existsb_eqb). by apply (Hw w q).
Qed.

(** A processor whose record is replaced keeps its idle thread. *)
Lemma is_idle_insert C c x x' t : C !! c = Some x → idle_thread x' = idle_thread x →
  is_idle (<[c := x']> C) t ↔ is_idle C t.
Proof.
  intros Hx Hi. split.
  - intros (d & y & [[<- <-]|[_ Hy]]%lookup_insert_Some & <-); [exists c, x; auto|exists d, y; auto].
  - intros (d & y & Hy & <-). destruct (decide (d = c)) as [->|Hne].
    + assert (y = x) as -> by congruence. exists c, x'. by rewrite lookup_insert_eq.
    + exists d, y. by rewrite lookup_insert_ne.
Qed.

(** A thread off the processors is nowhere a current thread. *)
Lemma not_current pops T W C t th c x : wf pops T W C → T !! t = Some th → cpu th = None → C !! c = Some x → cur_thread x ≠ Some t.
Proof. intros H Ht Hc Hx Hcur. destruct (wf_cur _ _ _ _ H c x t Hx Hcur) as (a & Ha & ? & _). congruence. Qed.

(** A thread that is neither ready nor asleep is in no queue. *)
Lemma not_queued pops T W C t th : wf pops T W C → T !! t = Some th →
  state th ≠ E_COM_THREAD_STATE_READY → state th ≠ E_COM_THREAD_STATE_WAITING ∨ t ∈ pops →
  (∀ c y, C !! c = Some y → t ∉ sched_queue y) ∧ (∀ w q, W !! w = Some q → t ∉ q).
Proof.
  intros H Ht Hr Hw. split.
  - intros c y Hy Hin. destruct (wf_run _ _ _ _ H c y t Hy Hin) as (a & Ha & ? & _). congruence.
  - intros w q Hq Hin. destruct (wf_wait _ _ _ _ H w q t Hq Hin) as (a & Ha & ? & _ & _ & _ & ?). destruct Hw; [congruence|done].
Qed.

Ltac upd H := apply lookup_insert_Some in H as [[<- <-]|[? H]].

(** The current thread [t] of processor [c] leaves it. *)
Lemma wf_leave pops T W C c x t th th' ctx :
  wf pops T W C → C !! c = Some x → cur_thread x = Some t → T !! t = Some th →
  (state th' = E_COM_THREAD_STATE_READY ∧ idle_thread x = t ∨
   (state th' = E_COM_THREAD_STATE_NEW ∨ state th' = E_COM_THREAD_STATE_EXITED) ∧ idle_thread x ≠ t) →
  cpu th' = None → waiting_on th' = None → last_cpu th' = Some c →
  wf pops (<[t := th']> T) W (<[c := Cpu (sched_queue x) None (idle_thread x) ctx]> C).
Proof.
  intros H Hx Hcur Ht Hst Hcpu Hwo Hl. pose proof (λ u, is_idle_insert C c x (Cpu (sched_queue x) None (idle_thread x) ctx) u Hx eq_refl) as Hid.
  destruct (wf_cur _ _ _ _ H c x t Hx Hcur) as (th0 & Ht0 & Hc0 & Hs0 & Hw0). assert (th0 = th) as -> by congruence. clear Ht0.
  destruct (not_queued _ _ _ _ t th H Ht) as [Hnr Hnw]; [congruence|left; congruence|].
  assert (Hni : is_idle C t → idle_thread x = t).
  { intros (d & y & Hy & Hyt). destruct (wf_idle _ _ _ _ H d y Hy) as (a & Ha & _ & _ & Hca). rewrite Hyt in Ha.
    assert (d = c) as -> by (destruct Hca; congruence). congruence. }
  assert (Hcp : ∀ d y, <[c := Cpu (sched_queue x) None (idle_thread x) ctx]> C !! d = Some y → ∃ y0, C !! d = Some y0 ∧
    sched_queue y = sched_queue y0 ∧ idle_thread y = idle_thread y0).
  { intros d y Hy. upd Hy; [exists x; auto|exists y; auto]. }
  split.
  - intros d y u Hy Hu. upd Hy; [done|]. destruct (wf_cur _ _ _ _ H d y u Hy Hu) as (a & Ha & Hac & ?). exists a.
    rewrite lookup_insert_ne by congruence. done.
  - intros u a d Ha Hac. upd Ha; [congruence|]. destruct (wf_cpu _ _ _ _ H u a d Ha Hac) as (y & Hy & Hyu).
    destruct (decide (d = c)) as [->|]; [|exists y; by rewrite lookup_insert_ne]. eexists. rewrite lookup_insert_eq. split; [done|].
    simpl. assert (y = x) as -> by congruence. destruct Hyu; [congruence|by right].
  - intros u a Ha Hs. upd Ha; [destruct Hst as [[? _]|[[?|?] _]]; congruence|]. destruct (wf_running _ _ _ _ H u a Ha Hs) as (d & y & Hy & Hyu).
    exists d, y. rewrite lookup_insert_ne; [done|]. congruence.
  - intros d y u (y0 & Hy0 & Hq & _)%Hcp Hu. rewrite Hq in Hu. destruct (wf_run _ _ _ _ H d y0 u Hy0 Hu) as (a & Ha & ? & ? & ? & ?).
    exists a. rewrite lookup_insert_ne by (intros ->; by destruct (Hnr d y0 Hy0)). rewrite Hid. done.
  - intros w q u Hq Hu. destruct (wf_wait _ _ _ _ H w q u Hq Hu) as (a & Ha & ? & ? & ? & ? & ?).
    exists a. rewrite lookup_insert_ne by (intros ->; by destruct (Hnw w q Hq)). rewrite Hid. done.
  - intros u a w Ha Hw Hp. upd Ha; [congruence|]. by apply (wf_waiting _ _ _ _ H u a w).
  - intros d y (y0 & Hy0 & -> & _)%Hcp. by apply (wf_run_nodup _ _ _ _ H d).
  - apply (wf_wait_nodup _ _ _ _ H).
  - intros c1 c2 y1 y2 u (z1 & Hz1 & -> & _)%Hcp (z2 & Hz2 & -> & _)%Hcp. by apply (wf_run_disj _ _ _ _ H).
  - intros d y (y0 & Hy0 & _ & ->)%Hcp. destruct (wf_idle _ _ _ _ H d y0 Hy0) as (a & Ha & ?). destruct (decide (idle_thread y0 = t)) as [<-|].
    + exists th'. rewrite lookup_insert_eq. split_and!; try done; [|by left]. left. destruct Hst as [[? _]|[_ Hne]]; [done|]. destruct Hne. apply Hni. by exists d, y0.
    + exists a. rewrite lookup_insert_ne by done. done.
  - intros c1 c2 y1 y2 (z1 & Hz1 & _ & ->)%Hcp (z2 & Hz2 & _ & ->)%Hcp. by apply (wf_idle_inj _ _ _ _ H).
  - intros u a Ha Hs Hn. rewrite Hid in Hn. upd Ha.
    + destruct Hn. destruct Hst as [[_ Hi]|[[?|?] _]]; [|congruence..]. by exists c, x.
    + destruct (wf_ready _ _ _ _ H u a Ha Hs Hn) as (d & y & Hy & Hin). destruct (decide (d = c)) as [->|].
      * eexists c, _. rewrite lookup_insert_eq. split; [done|]. by assert (y = x) as -> by congruence.
      * exists d, y. by rewrite lookup_insert_ne.
  - intros u a d Ha Hla. destruct (decide (d = c)) as [->|]; [rewrite lookup_insert_eq; by eexists|]. rewrite lookup_insert_ne by done.
    upd Ha; [congruence|]. by apply (wf_last _ _ _ _ H u a).
  - intros u Hu. destruct (wf_pops _ _ _ _ H u Hu) as (a & Ha & ? & ? & ?). exists a. rewrite Hid. rewrite lookup_insert_ne; [done|]. congruence.
  - apply (wf_pops_nodup _ _ _ _ H).
Qed.

(** A thread in no queue is made ready on processor [r]. *)
Lemma wf_enqueue pops ts T W C t th th' r x :
  wf pops T W C → T !! t = Some th → cpu th = None → ¬ is_idle C t →
  (∀ c y, C !! c = Some y → t ∉ sched_queue y) → (∀ w q, W !! w = Some q → t ∉ q) →
  (∀ u, u ∈ ts ↔ u ∈ pops ∧ u ≠ t) → NoDup ts → C !! r = Some x →
  state th' = E_COM_THREAD_STATE_READY → waiting_on th' = None → cpu th' = None → last_cpu th' = last_cpu th →
  wf ts (<[t := th']> T) W (<[r := with_queue x (sched_queue x ++ [t])]> C).
Proof.
  intros H Ht Hcpu Hni Hnr Hnw Hts Hnd Hx Hst Hwo Hc' Hl.
  pose proof (λ u, is_idle_insert C r x (with_queue x (sched_queue x ++ [t])) u Hx eq_refl) as Hid.
  assert (Hcp : ∀ c y, <[r := with_queue x (sched_queue x ++ [t])]> C !! c = Some y → ∃ y0, C !! c = Some y0 ∧
    cur_thread y = cur_thread y0 ∧ idle_thread y = idle_thread y0 ∧ (sched_queue y = sched_queue y0 ∨ c = r ∧ sched_queue y = sched_queue y0 ++ [t])).
  { intros c y Hy. upd Hy; [exists x; split_and!; [done..|by right]|exists y; split_and!; [done..|by left]]. }
  assert (Hpc : ∀ c y, C !! c = Some y → ∃ y', <[r := with_queue x (sched_queue x ++ [t])]> C !! c = Some y' ∧
    cur_thread y' = cur_thread y ∧ idle_thread y' = idle_thread y ∧ (∀ u, u ∈ sched_queue y → u ∈ sched_queue y')).
  { intros c y Hy. destruct (decide (c = r)) as [->|]; [|exists y; by rewrite lookup_insert_ne].
    eexists. rewrite lookup_insert_eq. split; [done|]. assert (y = x) as -> by congruence. simpl. split_and!; try done. intros u Hu. apply elem_of_app. by left. }
  split.
  - intros c y u (y0 & Hy & -> & _)%Hcp Hu. destruct (wf_cur _ _ _ _ H c y0 u Hy Hu) as (a & Ha & Hac & ?). exists a. rewrite lookup_insert_ne by congruence. done.
  - intros u a c Ha Hac. upd Ha; [congruence|]. destruct (wf_cpu _ _ _ _ H u a c Ha Hac) as (y & Hy & Hyu).
    destruct (Hpc c y Hy) as (y' & Hy' & ? & ? & _). exists y'. split; [done|].
    destruct Hyu; [left|right]; congruence.
  - intros u a Ha Hac. upd Ha; [congruence|]. destruct (wf_running _ _ _ _ H u a Ha Hac) as (c & y & Hy & Hyu).
    destruct (Hpc c y Hy) as (y' & Hy' & ? & _). exists c, y'. split; [done|congruence].
  - intros c y u Hy Hu. setoid_rewrite Hid. destruct (decide (u = t)) as [->|Hut]; [exists th'; by rewrite lookup_insert_eq|].
    destruct (Hcp c y Hy) as (y0 & Hy0 & _ & _ & Hq). assert (Hu0 : u ∈ sched_queue y0) by (destruct Hq as [<-|[_ Hq]]; [done|rewrite Hq in Hu; by apply elem_of_app in Hu as [? | ->%list_elem_of_singleton]]).
    destruct (wf_run _ _ _ _ H c y0 u Hy0 Hu0) as (a & Ha & ?). exists a. by rewrite lookup_insert_ne.
  - intros w q u Hq Hu. destruct (wf_wait _ _ _ _ H w q u Hq Hu) as (a & Ha & ? & ? & ? & Hi & Hnp). exists a. rewrite Hid.
    rewrite lookup_insert_ne by (intros ->; by apply (Hnw w q)). split_and!; try done. by intros [? _]%Hts.
  - intros u a w Ha Hw Hp. upd Ha; [congruence|]. apply (wf_waiting _ _ _ _ H u a w Ha Hw). intros Hin. by apply Hp, Hts.
  - intros c y Hy. destruct (Hcp c y Hy) as (y0 & Hy0 & _ & _ & [->|[_ ->]]); [by apply (wf_run_nodup _ _ _ _ H c)|].
    apply NoDup_app. split; [by apply (wf_run_nodup _ _ _ _ H c)|]. split; [|apply NoDup_singleton]. intros u Hu ->%list_elem_of_singleton. by apply (Hnr c y0).
  - apply (wf_wait_nodup _ _ _ _ H).
  - intros c1 c2 y1 y2 u H1 H2 Hu1 Hu2. destruct (Hcp c1 y1 H1) as (z1 & Hz1 & _ & _ & Q1). destruct (Hcp c2 y2 H2) as (z2 & Hz2 & _ & _ & Q2).
    destruct (decide (u = t)) as [->|Hut].
    + assert (Hr : ∀ c y z, C !! c = Some z → t ∈ sched_queue y → (sched_queue y = sched_queue z ∨ c = r ∧ sched_queue y = sched_queue z ++ [t]) → c = r).
      { intros c y z Hz Hin [Heq|[-> _]]; [|done]. rewrite Heq in Hin. by destruct (Hnr c z Hz). }
      rewrite (Hr c1 y1 z1), (Hr c2 y2 z2) by done. done.
    + assert (Hr : ∀ c y z, u ∈ sched_queue y → (sched_queue y = sched_queue z ∨ c = r ∧ sched_queue y = sched_queue z ++ [t]) → u ∈ sched_queue z).
      { intros c y z Hin [<-|[_ Heq]]; [done|]. rewrite Heq in Hin. by apply elem_of_app in Hin as [? | ->%list_elem_of_singleton]. }
      apply (wf_run_disj _ _ _ _ H c1 c2 z1 z2 u Hz1 Hz2); [by apply (Hr c1 y1)|by apply (Hr c2 y2)].
  - intros c y Hy. destruct (Hcp c y Hy) as (y0 & Hy0 & _ & -> & _). destruct (wf_idle _ _ _ _ H c y0 Hy0) as (a & Ha & ?). exists a.
    rewrite lookup_insert_ne; [done|]. intros Heq. apply Hni. by exists c, y0.
  - intros c1 c2 y1 y2 (z1 & Hz1 & _ & -> & _)%Hcp (z2 & Hz2 & _ & -> & _)%Hcp. by apply (wf_idle_inj _ _ _ _ H).
  - intros u a Ha Hs Hn. rewrite Hid in Hn. upd Ha.
    + exists r, (with_queue x (sched_queue x ++ [t])). rewrite lookup_insert_eq. split; [done|]. simpl. apply elem_of_app. right. by apply list_elem_of_singleton.
    + destruct (wf_ready _ _ _ _ H u a Ha Hs Hn) as (c & y & Hy & Hu). destruct (Hpc c y Hy) as (y' & Hy' & _ & _ & Hin). exists c, y'. auto.
  - intros u a c Ha Hla. assert (Hs : is_Some (C !! c)) by (upd Ha; [apply (wf_last _ _ _ _ H t th); congruence|by apply (wf_last _ _ _ _ H u a)]).
    destruct Hs as [y Hy]. destruct (Hpc c y Hy) as (y' & -> & _). by eexists.
  - intros u [Hu Hut]%Hts. destruct (wf_pops _ _ _ _ H u Hu) as (a & Ha & ?). exists a. rewrite Hid. by rewrite lookup_insert_ne.
  - done.
Qed.

(** A thread in no queue falls asleep on [w]. *)
Lemma wf_sleep T W C t th th' w q :
  wf [] T W C → T !! t = Some th → cpu th = None → ¬ is_idle C t →
  (∀ c y, C !! c = Some y → t ∉ sched_queue y) → (∀ w q, W !! w = Some q → t ∉ q) → W !! w = Some q →
  waiting_on th = None →
  state th' = E_COM_THREAD_STATE_WAITING → waiting_on th' = Some w → cpu th' = None → last_cpu th' = last_cpu th →
  wf [] (<[t := th']> T) (<[w := q ++ [t]]> W) C.
Proof.
  intros H Ht Hcpu Hni Hnr Hnw Hq Hw0 Hst Hwo Hc' Hl.
  assert (Hr : ∀ c x u, C !! c = Some x → cur_thread x = Some u → u ≠ t) by (intros c x u Hx Hu ->; by apply (not_current _ _ _ _ t th c x H)).
  split.
  - intros c x u Hx Hu. destruct (wf_cur _ _ _ _ H c x u Hx Hu) as (a & Ha & ?). exists a. by rewrite lookup_insert_ne by (apply not_eq_sym; eauto).
  - intros u a c Ha Hac. upd Ha; [congruence|]. by apply (wf_cpu _ _ _ _ H u a).
  - intros u a Ha Hs. upd Ha; [congruence|]. by apply (wf_running _ _ _ _ H u a).
  - intros c x u Hx Hu. destruct (wf_run _ _ _ _ H c x u Hx Hu) as (a & Ha & ?). exists a. rewrite lookup_insert_ne; [done|]. intros ->. by apply (Hnr c x).
  - intros v p u Hv Hu. assert (Hcase : u = t ∧ v = w ∨ ∃ p, W !! v = Some p ∧ u ∈ p).
    { upd Hv; [|right; eauto]. apply elem_of_app in Hu as [? | ->%list_elem_of_singleton]; [right; eauto|by left]. }
    destruct Hcase as [[-> ->]|(p' & Hp & Hu')]; [exists th'; rewrite lookup_insert_eq; split_and!; try done; apply not_elem_of_nil|].
    destruct (wf_wait _ _ _ _ H v p' u Hp Hu') as (a & Ha & ?). exists a. rewrite lookup_insert_ne; [done|]. intros ->. by apply (Hnw v p').
  - intros u a v Ha Hv Hp. upd Ha.
    + exists (q ++ [t]). assert (v = w) as -> by congruence. rewrite lookup_insert_eq. split; [done|]. apply elem_of_app. right. by apply list_elem_of_singleton.
    + destruct (wf_waiting _ _ _ _ H u a v Ha Hv Hp) as (p & Hp' & Hu). destruct (decide (v = w)) as [->|]; [|exists p; by rewrite lookup_insert_ne].
      exists (q ++ [t]). rewrite lookup_insert_eq. split; [done|]. apply elem_of_app. left. congruence.
  - apply (wf_run_nodup _ _ _ _ H).
  - intros v p Hv. upd Hv; [|by apply (wf_wait_nodup _ _ _ _ H v)]. apply NoDup_app. split; [by apply (wf_wait_nodup _ _ _ _ H w)|].
    split; [|apply NoDup_singleton]. intros u Hu ->%list_elem_of_singleton. by apply (Hnw w q).
  - apply (wf_run_disj _ _ _ _ H).
  - intros c x Hx. destruct (wf_idle _ _ _ _ H c x Hx) as (a & Ha & ?). exists a. rewrite lookup_insert_ne; [done|]. intros Heq. apply Hni. by exists c, x.
  - apply (wf_idle_inj _ _ _ _ H).
  - intros u a Ha Hs Hn. upd Ha; [congruence|]. by apply (wf_ready _ _ _ _ H u a).
  - intros u a c Ha Hla. upd Ha; [apply (wf_last _ _ _ _ H t th); congruence|]. by apply (wf_last _ _ _ _ H u a).
  - intros u Hu. by apply not_elem_of_nil in Hu.
  - constructor.
Qed.

(** A processor without a current thread takes its next one: the head of its
    run queue or its idle thread. *)
Lemma wf_take T W C c x t th th' rest ctx :
  wf [] T W C → C !! c = Some x → cur_thread x = None → T !! t = Some th →
  sched_queue x = t :: rest ∨ idle_thread x = t ∧ rest = sched_queue x →
  state th' = E_COM_THREAD_STATE_RUNNING → waiting_on th' = None → cpu th' = Some c → last_cpu th' = last_cpu th →
  wf [] (<[t := th']> T) W (<[c := Cpu rest (Some t) (idle_thread x) ctx]> C).
Proof.
  intros H Hx Hcur Ht Hnext Hst Hwo Hc' Hl.
  pose proof (λ u, is_idle_insert C c x (Cpu rest (Some t) (idle_thread x) ctx) u Hx eq_refl) as Hid.
  assert (Hrun : cpu th = None ∨ cpu th = Some c).
  { destruct Hnext as [Hq|[<- _]]; [left|]. - destruct (wf_run _ _ _ _ H c x t Hx) as (a & Ha & _ & ? & _); [rewrite Hq; by left|congruence].
    - destruct (wf_idle _ _ _ _ H c x Hx) as (a & Ha & _ & _ & ?). congruence. }
  assert (Hr : ∀ d y u, C !! d = Some y → cur_thread y = Some u → u ≠ t ∧ d ≠ c).
  { intros d y u Hy Hu. assert (d ≠ c) by congruence. split; [|done]. intros ->. destruct (wf_cur _ _ _ _ H d y t Hy Hu) as (a & Ha & ? & _). destruct Hrun; congruence. }
  assert (Hsub : ∀ u, u ∈ rest → u ∈ sched_queue x) by (intros u Hu; destruct Hnext as [->|[_ <-]]; [by right|done]).
  assert (Hcp : ∀ d y, <[c := Cpu rest (Some t) (idle_thread x) ctx]> C !! d = Some y → ∃ y0, C !! d = Some y0 ∧
    idle_thread y = idle_thread y0 ∧ (∀ u, u ∈ sched_queue y → u ∈ sched_queue y0)).
  { intros d y Hy. upd Hy; [exists x; auto|exists y; auto]. }
  assert (Hnw : ∀ w q, W !! w = Some q → t ∉ q).
  { intros w q Hq Hin. destruct (wf_wait _ _ _ _ H w q t Hq Hin) as (a & Ha & Hs & _ & _ & Hn & _). destruct Hnext as [Hqx|[Hi _]].
    - destruct (wf_run _ _ _ _ H c x t Hx) as (b & Hb & ? & _); [rewrite Hqx; by left|congruence]. - apply Hn. by exists c, x. }
  assert (Hnr : ∀ d y, <[c := Cpu rest (Some t) (idle_thread x) ctx]> C !! d = Some y → t ∉ sched_queue y).
  { intros d y Hy Hin. destruct Hnext as [Hqx|[Hi _]].
    - assert (d = c) as ->. { destruct (Hcp d y Hy) as (y0 & Hy0 & _ & Hs). apply (wf_run_disj _ _ _ _ H d c y0 x t Hy0 Hx); [by apply Hs|rewrite Hqx; by left]. }
      rewrite lookup_insert_eq in Hy. injection Hy as <-. pose proof (wf_run_nodup _ _ _ _ H c x Hx) as Hnd. rewrite Hqx in Hnd. by apply NoDup_cons in Hnd as [? _].
    - destruct (Hcp d y Hy) as (y0 & Hy0 & _ & Hs). destruct (wf_run _ _ _ _ H d y0 t Hy0 (Hs t Hin)) as (a & _ & _ & _ & _ & Hn). apply Hn. by exists c, x. }
  split.
  - intros d y u Hy Hu. upd Hy; simpl in *; [injection Hu as <-; exists th'; by rewrite lookup_insert_eq|].
    destruct (wf_cur _ _ _ _ H d y u Hy Hu) as (a & Ha & ?). exists a. rewrite lookup_insert_ne by (destruct (Hr d y u); auto). done.
  - intros u a d Ha Hac. upd Ha.
    + assert (d = c) as -> by congruence. eexists. rewrite lookup_insert_eq. split; [done|by left].
    + destruct (wf_cpu _ _ _ _ H u a d Ha Hac) as (y & Hy & Hyu). destruct (decide (d = c)) as [->|]; [|exists y; by rewrite lookup_insert_ne].
      eexists. rewrite lookup_insert_eq. split; [done|]. assert (y = x) as -> by congruence. simpl. destruct Hyu; [congruence|by right].
  - intros u a Ha Hs. upd Ha; [eexists c, _; rewrite lookup_insert_eq; by split|]. destruct (wf_running _ _ _ _ H u a Ha Hs) as (d & y & Hy & Hyu).
    exists d, y. rewrite lookup_insert_ne; [done|]. destruct (Hr d y u); auto.
  - intros d y u Hy Hu. destruct (Hcp d y Hy) as (y0 & Hy0 & _ & Hs). destruct (wf_run _ _ _ _ H d y0 u Hy0 (Hs u Hu)) as (a & Ha & ?).
    exists a. rewrite Hid, lookup_insert_ne; [done|]. intros ->. by apply (Hnr d y).
  - intros w q u Hq Hu. destruct (wf_wait _ _ _ _ H w q u Hq Hu) as (a & Ha & ?). exists a. rewrite Hid, lookup_insert_ne; [done|]. intros ->. by apply (Hnw w q).
  - intros u a w Ha Hw Hp. upd Ha; [congruence|]. by apply (wf_waiting _ _ _ _ H u a w).
  - intros d y Hy. upd Hy; [|by apply (wf_run_nodup _ _ _ _ H d)]. simpl. pose proof (wf_run_nodup _ _ _ _ H c x Hx) as Hnd.
    destruct Hnext as [Hq|[_ ->]]; [|done]. rewrite Hq in Hnd. by apply NoDup_cons in Hnd as [_ ?].
  - apply (wf_wait_nodup _ _ _ _ H).
  - intros c1 c2 y1 y2 u (z1 & Hz1 & _ & S1)%Hcp (z2 & Hz2 & _ & S2)%Hcp U1 U2. apply (wf_run_disj _ _ _ _ H c1 c2 z1 z2 u); auto.
  - intros d y (y0 & Hy0 & -> & _)%Hcp. destruct (wf_idle _ _ _ _ H d y0 Hy0) as (a & Ha & ? & ? & Hca).
    destruct (decide (idle_thread y0 = t)) as [Hi|]; [|exists a; by rewrite lookup_insert_ne]. exists th'. rewrite Hi, lookup_insert_eq.
    split_and!; try done; [by right|]. right. destruct Hnext as [Hqx|[Hit _]].
    + destruct (wf_run _ _ _ _ H c x t Hx) as (b & _ & _ & _ & _ & Hn); [rewrite Hqx; by left|]. destruct Hn. by exists d, y0.
    + by rewrite (wf_idle_inj _ _ _ _ H d c y0 x) by congruence.
  - intros c1 c2 y1 y2 (z1 & Hz1 & -> & _)%Hcp (z2 & Hz2 & -> & _)%Hcp. by apply (wf_idle_inj _ _ _ _ H).
  - intros u a Ha Hs Hn. rewrite Hid in Hn. upd Ha; [congruence|]. destruct (wf_ready _ _ _ _ H u a Ha Hs Hn) as (d & y & Hy & Hin).
    destruct (decide (d = c)) as [->|]; [|exists d, y; by rewrite lookup_insert_ne]. eexists c, _. rewrite lookup_insert_eq. split; [done|]. simpl.
    assert (y = x) as -> by congruence. destruct Hnext as [Hq|[_ ->]]; [|done]. rewrite Hq in Hin. by apply elem_of_cons in Hin as [->|?].
  - intros u a d Ha Hla. destruct (decide (d = c)) as [->|]; [rewrite lookup_insert_eq; by eexists|]. rewrite lookup_insert_ne by done.
    upd Ha; [apply (wf_last _ _ _ _ H t th); congruence|]. by apply (wf_last _ _ _ _ H u a).
  - intros u Hu. by apply not_elem_of_nil in Hu.
  - constructor.
Qed.

(** Threads [ts] are taken off a wait list. *)
Lemma wf_pop T W C w q q' ts :
  wf [] T W C → W !! w = Some q → NoDup q' → NoDup ts → (∀ u, u ∈ q ↔ u ∈ q' ∨ u ∈ ts) → (∀ u, u ∈ q' → u ∉ ts) →
  wf ts T (<[w := q']> W) C.
Proof.
  intros H Hq Hnq Hnt Hqs Hdis. split; try apply H.
  - intros v p u Hv Hu. assert (Hp : ∃ p, W !! v = Some p ∧ u ∈ p) by (upd Hv; [exists q; rewrite Hqs; auto|eauto]). destruct Hp as (p' & Hp & Hu').
    destruct (wf_wait _ _ _ _ H v p' u Hp Hu') as (a & Ha & ? & ? & ? & ? & ?). exists a. split_and!; try done.
    upd Hv; [by apply Hdis|]. intros Hin. destruct (wf_wait _ _ _ _ H w q u Hq) as (b & Hb & _ & ? & _); [rewrite Hqs; auto|]. congruence.
  - intros u a v Ha Hv Hp. destruct (wf_waiting _ _ _ _ H u a v Ha Hv) as (p & Hp' & Hu); [apply not_elem_of_nil|].
    destruct (decide (v = w)) as [->|]; [|exists p; by rewrite lookup_insert_ne]. exists q'. rewrite lookup_insert_eq. split; [done|].
    assert (p = q) as -> by congruence. apply Hqs in Hu as [?|?]; [done|contradiction].
  - intros v p Hv. upd Hv; [done|]. by apply (wf_wait_nodup _ _ _ _ H v).
  - intros u Hu. destruct (wf_wait _ _ _ _ H w q u Hq) as (a & Ha & ? & ? & ? & ? & _); [rewrite Hqs; auto|]. by exists a.
  - done.
Qed.

(** The current thread leaves and the head of the queue takes its place. *)
Lemma wf_leave_take T W C c x curr ct L next nt N rest ctx :
  wf [] T W C → C !! c = Some x → cur_thread x = Some curr → sched_queue x = next :: rest → T !! curr = Some ct → T !! next = Some nt →
  (state L = E_COM_THREAD_STATE_READY ∧ idle_thread x = curr ∨
   (state L = E_COM_THREAD_STATE_NEW ∨ state L = E_COM_THREAD_STATE_EXITED) ∧ idle_thread x ≠ curr) →
  cpu L = None → waiting_on L = None → last_cpu L = Some c → next ≠ curr →
  state N = E_COM_THREAD_STATE_RUNNING → waiting_on N = None → cpu N = Some c → last_cpu N = last_cpu nt →
  wf [] (<[next := N]> (<[curr := L]> T)) W (<[c := Cpu rest (Some next) (idle_thread x) ctx]> C).
Proof.
  intros H Hx Hcur Hq Hct Hnt HL ? ? ? ? ? ? ? ?. set (x0 := Cpu (sched_queue x) None (idle_thread x) ctx).
  assert (G : wf [] (<[curr := L]> T) W (<[c := x0]> C)) by (by eapply wf_leave).
  rewrite <- (insert_insert_eq C c _ x0). apply (wf_take _ _ _ c x0 next nt); try done; [by rewrite lookup_insert_eq|by rewrite lookup_insert_ne|by left].
Qed.

(** ** The operations *)
Definition sched_eqv (s : sched) T W C : Prop := threads s = T ∧ waitlists s = W ∧ cpus s = C.

Lemma ready_spec r s t th rc x :
  threads s !! t = Some th → state th ≠ E_COM_THREAD_STATE_EXITED → default r (last_cpu th) = rc → cpus s !! rc = Some x →
  linked s t = false →
  com_sys_thread_ready_nolock r s t = Ok (set_cpu
    (set_thread s t (with_state (with_waiting_on th None) E_COM_THREAD_STATE_READY)) rc (with_queue x (sched_queue x ++ [t]))).
Proof.
  intros Ht Hst Hrc Hx Hl. unfold com_sys_thread_ready_nolock. rewrite Ht. simpl. unfold com_sys_thread_transition_nolock. simpl.
  rewrite lookup_insert_eq. simpl. rewrite bool_decide_eq_false_2 by done. simpl. rewrite Hrc, Hx. simpl. unfold insert_tail.
  match goal with |- context [linked ?a t] => change (linked a t) with (linked s t) end. rewrite Hl. simpl.
  unfold set_cpu, set_thread. simpl. by rewrite insert_insert_eq.
Qed.

(** A thread in no queue is started or woken up. *)
Lemma ready_wf pops ts r s t th :
  wf pops (threads s) (waitlists s) (cpus s) → threads s !! t = Some th → cpu th = None → ¬ is_idle (cpus s) t →
  state th ≠ E_COM_THREAD_STATE_EXITED → state th ≠ E_COM_THREAD_STATE_READY → state th ≠ E_COM_THREAD_STATE_WAITING ∨ t ∈ pops →
  (∀ u, u ∈ ts ↔ u ∈ pops ∧ u ≠ t) → NoDup ts → is_Some (cpus s !! r) →
  ∃ s', com_sys_thread_ready_nolock r s t = Ok s' ∧ wf ts (threads s') (waitlists s') (cpus s') ∧
    (∀ c, is_Some (cpus s' !! c) ↔ is_Some (cpus s !! c)).
Proof.
  intros H Ht Hc Hni He Hrd Hw Hts Hnd Hr. destruct (not_queued _ _ _ _ t th H Ht Hrd Hw) as [Hnr Hnw].
  assert (Hx : is_Some (cpus s !! default r (last_cpu th))).
  { destruct (last_cpu th) as [l|] eqn:Hl; [|done]. by apply (wf_last _ _ _ _ H t th). }
  destruct Hx as [x Hx]. eexists. split; [apply (ready_spec r s t th _ x Ht He eq_refl Hx); by apply linked_false|]. simpl. split.
  - by apply (wf_enqueue pops ts _ _ _ t th).
  - intros c. destruct (decide (c = default r (last_cpu th))) as [->|]; [|by rewrite lookup_insert_ne].
    rewrite lookup_insert_eq, Hx. split; intros _; eauto.
Qed.

Lemma ready_all_wf r ts s : wf ts (threads s) (waitlists s) (cpus s) → is_Some (cpus s !! r) →
  ∃ s', ready_all r s ts = Ok s' ∧ sched_wf s'.
Proof.
  revert s. induction ts as [|t ts IH]; intros s H Hr; simpl; [by exists s|].
  destruct (wf_pops _ _ _ _ H t) as (th & Ht & Hst & Hc & Hni); [by left|]. pose proof (wf_pops_nodup _ _ _ _ H) as [Hnin Hnd]%NoDup_cons.
  destruct (ready_wf (t :: ts) ts r s t th) as (s1 & -> & H1 & Hcs); try done; try congruence; [right; by left| |simpl; apply IH; [done|by apply Hcs]].
  intros u. rewrite elem_of_cons. split; [intros Hu; split; [by right|intros ->; done]|intros [[?|?] ?]; done].
Qed.

(** What the switch of a processor does. *)
Lemma switch_to_spec s c curr next x ct nt :
  cpus s !! c = Some x → threads s !! curr = Some ct → threads s !! next = Some nt → curr ≠ next →
  (state ct = E_COM_THREAD_STATE_RUNNING → waiting_on ct = None ∧ linked s curr = false) →
  state nt ≠ E_COM_THREAD_STATE_EXITED → waiting_on nt = None →
  let runs := bool_decide (state ct = E_COM_THREAD_STATE_RUNNING) in
  let ct' := with_cpu (if runs then with_state ct E_COM_THREAD_STATE_READY else ct) None (Some c) in
  let q := if runs && negb (curr =? idle_thread x) then sched_queue x ++ [curr] else sched_queue x in
  ∃ s' ctx, switch_to s c curr next = Ok s' ∧
    sched_eqv s' (<[next := with_state (with_cpu nt (Some c) (last_cpu nt)) E_COM_THREAD_STATE_RUNNING]> (<[curr := ct']> (threads s)))
      (waitlists s) (<[c := Cpu q (Some next) (idle_thread x) ctx]> (cpus s)).
Proof.
  intros Hx Hc Hn Hne Hrun Hex Hwo runs ct' q. unfold switch_to. rewrite Hx, Hc. simpl. apply Z.eqb_neq in Hne as Hne'. rewrite Hne'. simpl.
  assert (Hput : (if bool_decide (state ct = E_COM_THREAD_STATE_RUNNING) then
         s ← com_sys_thread_transition_nolock s curr E_COM_THREAD_STATE_READY;
         if curr =? idle_thread x then Ok s
         else q ← insert_tail s (sched_queue x) curr; Ok (set_cpu s c (with_queue x q))
       else Ok s) = Ok (Sched (<[curr := if runs then with_state ct E_COM_THREAD_STATE_READY else ct]> (threads s)) (waitlists s)
         (<[c := with_queue x q]> (cpus s)) (num_running_threads s) (contexts s))).
  { subst runs q. clear ct'. destruct (bool_decide_reflect (state ct = E_COM_THREAD_STATE_RUNNING)) as [Hr|Hr]; simpl.
    - destruct (Hrun Hr) as [Hw Hl]. unfold com_sys_thread_transition_nolock. rewrite Hc. simpl. rewrite Hr, Hw. simpl.
      destruct (curr =? idle_thread x); simpl.
      + unfold set_thread. rewrite (insert_id (cpus s)); [done|]. rewrite Hx. by destruct x.
      + unfold insert_tail. change (linked (set_thread s curr _) curr) with (linked s curr). by rewrite Hl.
    - rewrite (insert_id (cpus s)) by (rewrite Hx; by destruct x). rewrite (insert_id (threads s)) by done. by destruct s. }
  rewrite Hput. simpl. clear Hput. rewrite lookup_insert_eq. simpl. rewrite lookup_insert_ne by done. rewrite lookup_insert_ne by done. rewrite Hn. simpl.
  unfold sched_switch_vmm_context. simpl. rewrite lookup_insert_eq. simpl. rewrite lookup_insert_eq. simpl.
  unfold com_sys_thread_transition_nolock. simpl. rewrite lookup_insert_eq. simpl. rewrite (bool_decide_eq_false_2 (state nt = _)) by done. rewrite Hwo. simpl.
  eexists _, _. split; [reflexivity|]. unfold sched_eqv. simpl. rewrite !insert_insert_eq. split_and!; try done.
Qed.

(** The current thread has stopped running: the processor goes on with the
    head of its queue, or with its idle thread. [G] is the state without it. *)
Lemma yield_put s c x curr ct W :
  cpus s !! c = Some x → cur_thread x = Some curr → threads s !! curr = Some ct → state ct ≠ E_COM_THREAD_STATE_RUNNING →
  state ct ≠ E_COM_THREAD_STATE_READY → curr ≠ idle_thread x → W = waitlists s →
  wf [] (<[curr := with_cpu ct None (Some c)]> (threads s)) W (<[c := Cpu (sched_queue x) None (idle_thread x) (vmm_context x)]> (cpus s)) →
  ∃ s', com_sys_sched_yield_nolock s c = Ok s' ∧ sched_wf s'.
Proof.
  intros Hx Hcur Hct Hnr Hnrd Hni -> G. set (x0 := Cpu (sched_queue x) None (idle_thread x) (vmm_context x)) in *.
  assert (Hx0 : <[c := x0]> (cpus s) !! c = Some x0) by apply lookup_insert_eq.
  unfold com_sys_sched_yield_nolock. rewrite Hx. simpl. rewrite Hcur, Hct. simpl.
  set (next := match sched_queue x with [] => idle_thread x | n :: _ => n end). set (rest := match sched_queue x with [] => [] | _ :: r => r end).
  assert (Hne : curr ≠ next).
  { subst next. destruct (sched_queue x) as [|n r] eqn:Hq; [done|]. intros <-. destruct (wf_run _ _ _ _ G c x0 curr Hx0) as (a & Ha & Hs & _);
      [unfold x0; simpl; by left|]. rewrite lookup_insert_eq in Ha. injection Ha as <-. by simpl in Hs. }
  assert (Hn : ∃ nt, threads s !! next = Some nt ∧ state nt ≠ E_COM_THREAD_STATE_EXITED ∧ waiting_on nt = None ∧ (sched_queue x ≠ [] → ¬ is_idle (cpus s) next)).
  { subst next. destruct (sched_queue x) as [|n r] eqn:Hq.
    - destruct (wf_idle _ _ _ _ G c x0 Hx0) as (a & Ha & Hs & Hw & _). simpl in Ha. rewrite lookup_insert_ne in Ha by done. exists a. split_and!; try done. destruct Hs; congruence.
    - destruct (wf_run _ _ _ _ G c x0 n Hx0) as (a & Ha & Hs & _ & Hw & Hid); [unfold x0; simpl; by left|]. rewrite lookup_insert_ne in Ha by done. exists a. split_and!; try done; [congruence|].
      intros _ Hi. apply Hid. by apply (is_idle_insert _ _ x). }
  destruct Hn as (nt & Hnt & Hex & Hw & Hidl).
  assert (Hgoal : ∃ s', switch_to (set_cpu s c (with_queue x rest)) c curr next = Ok s' ∧ sched_wf s').
  { destruct (switch_to_spec (set_cpu s c (with_queue x rest)) c curr next (with_queue x rest) ct nt) as (s' & ctx & -> & HT & HW & HC); simpl; try done; [by rewrite lookup_insert_eq|].
    exists s'. split; [done|]. unfold sched_wf. rewrite HT, HW, HC. simpl. rewrite bool_decide_eq_false_2 by done. simpl. rewrite insert_insert_eq.
    rewrite <- (insert_insert_eq (cpus s) c _ x0). apply (wf_take _ _ _ c x0 next nt); try done; [by rewrite lookup_insert_ne|].
    subst next rest. simpl. destruct (sched_queue x); [by right|by left]. }
  subst next rest. destruct (sched_queue x) as [|n r] eqn:Hq.
  - rewrite bool_decide_eq_false_2 by done. destruct Hgoal as (s' & Hs' & ?). exists s'. split; [|done]. rewrite <- Hs'. f_equal.
    unfold set_cpu. rewrite insert_id; [by destruct s|]. rewrite Hx, <- Hq. by destruct x.
  - assert (n ≠ idle_thread x) as ->%Z.eqb_neq by (intros Heq; apply Hidl; [done|]; by exists c, x). simpl. exact Hgoal.
Qed.

(** A processor that gives up a running thread goes round its queue. *)
Lemma yield_turn s c x curr next rest :
  sched_wf s → cpus s !! c = Some x → cur_thread x = Some curr → sched_queue x = next :: rest →
  ∃ s' x', com_sys_sched_yield_nolock s c = Ok s' ∧ sched_wf s' ∧ cpus s' !! c = Some x' ∧ cur_thread x' = Some next ∧
    idle_thread x' = idle_thread x ∧ sched_queue x' = rest ++ (if curr =? idle_thread x then [] else [curr]).
Proof.
  intros H Hx Hcur Hq. destruct (wf_cur _ _ _ _ H c x curr Hx Hcur) as (ct & Hct & Hcc & Hcs & Hcw).
  destruct (wf_run _ _ _ _ H c x next Hx) as (nt & Hnt & Hns & Hnc & Hnw & Hni); [rewrite Hq; by left|].
  destruct (not_queued _ _ _ _ curr ct H Hct) as [Hnr Hnwl]; [congruence|left; congruence|].
  assert (Hne : curr ≠ next) by (intros ->; congruence).
  unfold com_sys_sched_yield_nolock. rewrite Hx. simpl. rewrite Hcur, Hct. simpl. rewrite Hq.
  assert (next ≠ idle_thread x) as ->%Z.eqb_neq by (intros Heq; apply Hni; by exists c, x). simpl.
  destruct (switch_to_spec (set_cpu s c (with_queue x rest)) c curr next (with_queue x rest) ct nt) as (s' & ctx & -> & HT & HW & HC); simpl; try done;
    [by rewrite lookup_insert_eq| |congruence|].
  { intros _. split; [done|]. apply linked_false; simpl; [|done]. intros d y Hy Hin. upd Hy; [apply (Hnr c x Hx); rewrite Hq; by right|by apply (Hnr d y)]. }
  rewrite Hcs, bool_decide_eq_true_2 in HT, HC by done. simpl in HT, HW, HC. rewrite insert_insert_eq in HC. eexists s', _. split; [done|].
  rewrite HC, lookup_insert_eq. split; [|split; [done|]; simpl; by destruct (curr =? idle_thread x); rewrite ?app_nil_r].
  unfold sched_wf. rewrite HT, HW, HC. clear HT HW HC. destruct (Z.eqb_spec curr (idle_thread x)) as [Hi|Hi]; simpl.
  - eapply wf_leave_take; try done; simpl; by left.
  - set (L := with_cpu (with_state ct E_COM_THREAD_STATE_NEW) None (Some c)).
    set (N := with_state (with_cpu nt (Some c) (last_cpu nt)) E_COM_THREAD_STATE_RUNNING).
    assert (G : wf [] (<[next := N]> (<[curr := L]> (threads s))) (waitlists s) (<[c := Cpu rest (Some next) (idle_thread x) ctx]> (cpus s))).
    { eapply wf_leave_take; try done; simpl; right; split; [by left|done]. }
    rewrite insert_insert_ne by done.
    replace (<[curr := with_cpu (with_state ct E_COM_THREAD_STATE_READY) None (Some c)]> (<[next := N]> (threads s)))
      with (<[curr := with_cpu (with_state ct E_COM_THREAD_STATE_READY) None (Some c)]> (<[next := N]> (<[curr := L]> (threads s))))
      by (apply map_eq; intros i; destruct (decide (i = curr)) as [->|]; [by rewrite !lookup_insert_eq|]; rewrite !(lookup_insert_ne _ curr) by done;
          by destruct (decide (i = next)) as [->|]; [rewrite !lookup_insert_eq|rewrite !(lookup_insert_ne _ next), ?(lookup_insert_ne _ curr) by done]).
    rewrite <- (insert_insert_eq (cpus s) c _ (Cpu rest (Some next) (idle_thread x) ctx)).
    assert (HL : <[next := N]> (<[curr := L]> (threads s)) !! curr = Some L) by (rewrite lookup_insert_ne by done; by rewrite lookup_insert_eq).
    destruct (not_queued _ _ _ _ curr L G HL) as [A B]; [done|by left|].
    eapply (wf_enqueue [] [] _ _ _ curr L _ c (Cpu rest (Some next) (idle_thread x) ctx)); try done; [|set_solver|constructor|by rewrite lookup_insert_eq].
    intros (d & y & Hy & Hyt). upd Hy; [done|]. destruct (wf_idle _ _ _ _ H d y Hy) as (a & Ha & _ & _ & Hca). rewrite Hyt in Ha. destruct Hca; congruence.
Qed.

(** ** The scheduler as a machine *)
Inductive sched_op : Type :=
  | SYield (c : Z)
  | SWait (c w : Z)
  | SNotify (r w : Z)
  | SNotifyN (r w : Z) (n : nat)
  | SNotifyAll (r w : Z)
  | STimeout (r t : Z)
  | SStart (r t : Z)
  | SExit (c t : Z).

Definition sched_run (s : sched) (o : sched_op) : res sched :=
  match o with
  | SYield c => com_sys_sched_yield s c
  | SWait c w => com_sys_sched_wait_nodrop s c w
  | SNotify r w => com_sys_sched_notify r s w
  | SNotifyN r w n => com_sys_sched_notify_n r s w n
  | SNotifyAll r w => com_sys_sched_notify_all r s w
  | STimeout r t => sched_handle_timeout r s t
  | SStart r t => com_sys_thread_ready_nolock r s t
  | SExit c t => com_sys_thread_exit_nolock s c t
  end.

(** Thread [t] is what processor [c] runs, and not its idle loop. *)
Definition runs_on (s : sched) (c t : Z) : Prop := ∃ x, cpus s !! c = Some x ∧ cur_thread x = Some t ∧ idle_thread x ≠ t.

(** The processors, wait lists and threads exist, a thread that waits or exits
    is the one its processor runs, and one that is started is new. *)
Definition sched_op_ok (s : sched) (o : sched_op) : Prop :=
  match o with
  | SYield c => is_Some (cpus s !! c)
  | SWait c w => (∃ t, runs_on s c t) ∧ is_Some (waitlists s !! w)
  | SNotify r w | SNotifyN r w _ | SNotifyAll r w => is_Some (cpus s !! r) ∧ is_Some (waitlists s !! w)
  | STimeout r t => is_Some (cpus s !! r) ∧ is_Some (threads s !! t)
  | SStart r t => is_Some (cpus s !! r) ∧ ∃ th, threads s !! t = Some th ∧ state th = E_COM_THREAD_STATE_NEW ∧ cpu th = None ∧ ¬ is_idle (cpus s) t
  | SExit c t => runs_on s c t
  end.

Lemma yield_wf s c : sched_wf s → is_Some (cpus s !! c) → ∃ s', com_sys_sched_yield s c = Ok s' ∧ sched_wf s'.
Proof.
  intros H [x Hx]. unfold com_sys_sched_yield. destruct (cur_thread x) as [curr|] eqn:Hcur.
  - destruct (sched_queue x) as [|next rest] eqn:Hq.
    + destruct (wf_cur _ _ _ _ H c x curr Hx Hcur) as (ct & Hct & _ & Hst & _). exists s. split; [|done]. unfold com_sys_sched_yield_nolock.
      rewrite Hx. simpl. rewrite Hcur, Hct. simpl. by rewrite Hq, Hst.
    + destruct (yield_turn s c x curr next rest H Hx Hcur Hq) as (s' & _ & ? & ? & _). by exists s'.
  - exists s. split; [|done]. unfold com_sys_sched_yield_nolock. rewrite Hx. simpl. by rewrite Hcur.
Qed.

(** The threads [take n] of a wait list are woken up. *)
Lemma notify_n_wf s r w n : sched_wf s → is_Some (cpus s !! r) → is_Some (waitlists s !! w) →
  ∃ s', com_sys_sched_notify_n r s w n = Ok s' ∧ sched_wf s'.
Proof.
  intros H Hr [q Hq]. unfold com_sys_sched_notify_n. rewrite Hq. simpl. apply ready_all_wf; [|done]. simpl.
  pose proof (wf_wait_nodup _ _ _ _ H w q Hq) as Hnd. rewrite <- (take_drop n q) in Hnd. apply NoDup_app in Hnd as (H1 & H2 & H3).
  apply (wf_pop _ _ _ w q); try done.
  - intros u. rewrite <- (take_drop n q) at 1. rewrite elem_of_app. tauto.
  - intros u Hu Hin. by apply (H2 u).
Qed.

Lemma wait_wf s c w t : sched_wf s → runs_on s c t → is_Some (waitlists s !! w) →
  ∃ s', com_sys_sched_wait_nodrop s c w = Ok s' ∧ sched_wf s'.
Proof.
  intros H (x & Hx & Hcur & Hi) [q Hq]. destruct (wf_cur _ _ _ _ H c x t Hx Hcur) as (th & Ht & Hc & Hst & Hw).
  destruct (not_queued _ _ _ _ t th H Ht) as [Hnr Hnw]; [congruence|left; congruence|].
  unfold com_sys_sched_wait_nodrop, sched_waitlist_insert. rewrite Hx. simpl. rewrite Hcur. simpl. rewrite Ht. simpl. unfold com_sys_thread_transition_nolock. simpl.
  rewrite lookup_insert_eq. simpl. rewrite Hst. simpl. rewrite Hq. simpl. unfold insert_tail.
  match goal with |- context [linked ?a t] => change (linked a t) with (linked s t) end. rewrite linked_false by done. simpl.
  set (th' := with_state (with_waiting_on th (Some w)) E_COM_THREAD_STATE_WAITING).
  apply (yield_put _ c x t th' (<[w := q ++ [t]]> (waitlists s))); simpl; try done; [by rewrite lookup_insert_eq|]. rewrite !insert_insert_eq.
  set (L := with_cpu (with_state th E_COM_THREAD_STATE_NEW) None (Some c)). set (T' := <[t := L]> (threads s)).
  replace (<[t := with_cpu th' None (Some c)]> (threads s)) with (<[t := with_cpu th' None (Some c)]> T') by apply insert_insert_eq.
  assert (G : wf [] T' (waitlists s) (<[c := Cpu (sched_queue x) None (idle_thread x) (vmm_context x)]> (cpus s))).
  { eapply wf_leave; try done. right. split; [by left|done]. }
  assert (HL : T' !! t = Some L) by apply lookup_insert_eq. destruct (not_queued _ _ _ _ t L G HL) as [A B]; [done|by left|].
  apply (wf_sleep _ _ _ t L); try done.
  intros (d & y & Hy & Hyt). upd Hy; [done|]. destruct (wf_idle _ _ _ _ H d y Hy) as (a & Ha & _ & _ & Hca). rewrite Hyt in Ha.
  assert (d = c) as -> by (destruct Hca; congruence). congruence.
Qed.

(** A thread changes in what queues and processors do not look at. *)
Lemma wf_upd pops T W C t th th' : wf pops T W C → T !! t = Some th → cpu th' = cpu th → last_cpu th' = last_cpu th → state th' = state th →
  waiting_on th' = waiting_on th → wf pops (<[t := th']> T) W C.
Proof.
  intros H Ht Hc Hl Hs Hw.
  assert (Hf : ∀ u a, T !! u = Some a → ∃ a', <[t := th']> T !! u = Some a' ∧ cpu a' = cpu a ∧ last_cpu a' = last_cpu a ∧ state a' = state a ∧ waiting_on a' = waiting_on a).
  { intros u a Ha. destruct (decide (u = t)) as [->|]; [exists th'; rewrite lookup_insert_eq; assert (a = th) as -> by congruence; done|exists a; by rewrite lookup_insert_ne]. }
  assert (Hb : ∀ u a', <[t := th']> T !! u = Some a' → ∃ a, T !! u = Some a ∧ cpu a' = cpu a ∧ last_cpu a' = last_cpu a ∧ state a' = state a ∧ waiting_on a' = waiting_on a).
  { intros u a' Ha. upd Ha; [by exists th|by exists a']. }
  split; try apply H.
  - intros c x u Hx Hu. destruct (wf_cur _ _ _ _ H c x u Hx Hu) as (a & (a' & ? & Ec & _ & Es & Ew)%Hf & ?). exists a'. by rewrite ?Ec, ?Es, ?Ew.
  - intros u a c (a0 & Ha & -> & _)%Hb Hac. by apply (wf_cpu _ _ _ _ H u a0).
  - intros u a (a0 & Ha & _ & _ & -> & _)%Hb Hac. by apply (wf_running _ _ _ _ H u a0).
  - intros c x u Hx Hu. destruct (wf_run _ _ _ _ H c x u Hx Hu) as (a & (a' & ? & Ec & _ & Es & Ew)%Hf & ?). exists a'. by rewrite ?Ec, ?Es, ?Ew.
  - intros w q u Hq Hu. destruct (wf_wait _ _ _ _ H w q u Hq Hu) as (a & (a' & ? & Ec & _ & Es & Ew)%Hf & ?). exists a'. by rewrite ?Ec, ?Es, ?Ew.
  - intros u a w (a0 & Ha & _ & _ & _ & ->)%Hb Hac. by apply (wf_waiting _ _ _ _ H u a0).
  - intros c x Hx. destruct (wf_idle _ _ _ _ H c x Hx) as (a & (a' & ? & Ec & _ & Es & Ew)%Hf & ?). exists a'. by rewrite ?Ec, ?Es, ?Ew.
  - intros u a (a0 & Ha & _ & _ & -> & _)%Hb Hac. by apply (wf_ready _ _ _ _ H u a0).
  - intros u a c (a0 & Ha & _ & -> & _)%Hb Hac. by apply (wf_last _ _ _ _ H u a0).
  - intros u Hu. destruct (wf_pops _ _ _ _ H u Hu) as (a & (a' & ? & Ec & _ & Es & Ew)%Hf & ?). exists a'. by rewrite ?Ec, ?Es, ?Ew.
Qed.

Lemma tailq_remove_spec q t : NoDup q → t ∈ q → ∃ q', TAILQ_REMOVE q t = Ok q' ∧ NoDup q' ∧ t ∉ q' ∧ (∀ u, u ∈ q ↔ u ∈ q' ∨ u = t).
Proof.
  intros Hnd Ht. exists (filter (λ d, d ≠ t) q). split; [by apply TAILQ_REMOVE_filter|]. split; [by apply NoDup_filter|]. split.
  - intros [? _]%list_elem_of_filter. done.
  - intros u. rewrite list_elem_of_filter. destruct (decide (u = t)) as [->|]; tauto.
Qed.

(** A thread that sleeps on a list is taken off it and made ready; another is
    left alone. *)
Lemma notify_thread_ok s r t th : sched_wf s → is_Some (cpus s !! r) → threads s !! t = Some th →
  ∃ s', com_sys_sched_notify_thread_nolock r s t = Ok s' ∧ sched_wf s' ∧
    threads s' = (match waiting_on th with
                  | Some _ => <[t := with_state (with_waiting_on th None) E_COM_THREAD_STATE_READY]> (threads s)
                  | None => threads s
                  end) ∧
    (∀ c, is_Some (cpus s' !! c) ↔ is_Some (cpus s !! c)) ∧ (∀ w, is_Some (waitlists s' !! w) ↔ is_Some (waitlists s !! w)) ∧
    num_running_threads s' = num_running_threads s.
Proof.
  intros H Hr Ht. unfold com_sys_sched_notify_thread_nolock. rewrite Ht. mstep. destruct (waiting_on th) as [w|] eqn:Hw; [|eauto 10].
  destruct (wf_waiting _ _ _ _ H t th w Ht Hw) as (q & Hq & Hin); [apply not_elem_of_nil|].
  destruct (wf_wait _ _ _ _ H w q t Hq Hin) as (a & Ha & Hst & _ & Hc & Hni & _). assert (a = th) as -> by congruence.
  rewrite Hc, bool_decide_eq_true_2 by done. mstep. rewrite Hq. mstep.
  destruct (tailq_remove_spec q t (wf_wait_nodup _ _ _ _ H w q Hq) Hin) as (q' & -> & Hnd & Hnt & Hqs). mstep.
  assert (Hp : wf [t] (threads s) (<[w := q']> (waitlists s)) (cpus s)).
  { apply (wf_pop _ _ _ w q q' [t]); try done; [apply NoDup_singleton|intros u; rewrite Hqs; by rewrite list_elem_of_singleton|].
    intros u Hu ->%list_elem_of_singleton. done. }
  destruct (ready_wf [t] [] r (set_waitlist s w q') t th) as (s' & Hs' & Hwf & Hcs); try done; try congruence; try (right; by left).
  - intros u. rewrite list_elem_of_singleton. split; [by intros ?%not_elem_of_nil|intros [-> ?]; done].
  - constructor.
  - exists s'. split; [done|]. split; [done|].
    destruct (not_queued _ _ _ _ t th Hp Ht) as [Hnr Hnw]; [congruence|right; by left|].
    assert (is_Some (cpus s !! default r (last_cpu th))) as [x Hx].
    { destruct (last_cpu th) as [l|] eqn:Hl; [|done]. by apply (wf_last _ _ _ _ H t th). }
    rewrite (ready_spec r (set_waitlist s w q') t th (default r (last_cpu th)) x) in Hs'; try done; [|congruence|by apply linked_false].
    injection Hs' as <-. cbn [set_cpu set_thread set_waitlist threads waitlists num_running_threads]. split_and!; [done..| |done].
    intros v. destruct (decide (v = w)) as [->|]; [rewrite lookup_insert_eq, Hq; split; eauto|by rewrite lookup_insert_ne].
Qed.

Lemma timeout_wf s r t : sched_wf s → is_Some (cpus s !! r) → is_Some (threads s !! t) →
  ∃ s', sched_handle_timeout r s t = Ok s' ∧ sched_wf s'.
Proof.
  intros H Hr [th Ht]. unfold sched_handle_timeout. rewrite Ht. mstep. set (th' := with_expired th true).
  assert (H' : sched_wf (set_thread s t th')) by (by apply (wf_upd _ _ _ _ t th)).
  destruct (notify_thread_ok (set_thread s t th') r t th' H' Hr) as (s' & ? & ? & _); [cbn; by rewrite lookup_insert_eq|eauto].
Qed.

Lemma exit_wf s c t : sched_wf s → runs_on s c t → ∃ s', com_sys_thread_exit_nolock s c t = Ok s' ∧ sched_wf s'.
Proof.
  intros H (x & Hx & Hcur & Hi). destruct (wf_cur _ _ _ _ H c x t Hx Hcur) as (th & Ht & Hc & Hst & Hw).
  unfold com_sys_thread_exit_nolock, com_sys_thread_transition_nolock. rewrite Ht. simpl. rewrite Hst. simpl. rewrite lookup_insert_eq. simpl. rewrite Hc, Z.eqb_refl.
  set (th' := with_state th E_COM_THREAD_STATE_EXITED).
  apply (yield_put _ c x t th' (waitlists s)); simpl; try done; [by rewrite lookup_insert_eq|]. rewrite insert_insert_eq.
  eapply wf_leave; try done. right. split; [by right|done].
Qed.

Lemma notify_is_notify_n r s w : com_sys_sched_notify r s w = com_sys_sched_notify_n r s w 1.
Proof.
  unfold com_sys_sched_notify, com_sys_sched_notify_n, notify_pop. destruct (waitlists s !! w) as [[|t q]|] eqn:Hq; simpl; [|by destruct (com_sys_thread_ready_nolock _ _ _)|done].
  unfold set_waitlist. rewrite insert_id by done. by destruct s.
Qed.

Lemma notify_all_is_notify_n r s w q : waitlists s !! w = Some q → com_sys_sched_notify_all r s w = com_sys_sched_notify_n r s w (length q).
Proof. intros Hq. unfold com_sys_sched_notify_all, com_sys_sched_notify_n. rewrite Hq. simpl. by rewrite drop_all, take_ge by done. Qed.

(** C18: The scheduler stays well formed: its run queues and wait lists hold
    exactly the ready and the sleeping threads, each once, and a thread runs
    where its processor says. From such a state each of these operations, on
    processors, wait lists and threads that exist, returns without a panic or
    a corrupted list and leaves such a state: a yield; a wait by the running
    thread of a processor, other than its idle loop; a notification of one,
    of some or of all the threads of a wait list, carried out to its end; the
    expiry of a thread's timer; the start of a new thread; and the exit of the
    thread a processor is running. The exit of any other thread is not one of
    them, see [exit_ready_thread_panics] and [exit_waiting_thread_panics],
    nor is a timer that expires in the middle of a notification, see
    [notify_timeout_race]. *)
Theorem sched_ops_keep_wf s o : sched_wf s → sched_op_ok s o → ∃ s', sched_run s o = Ok s' ∧ sched_wf s'.
Proof.
  intros H Ho. destruct o as [c|c w|r w|r w n|r w|r t|r t|c t]; simpl in *.
  - by apply yield_wf.
  - destruct Ho as [[t Ht] Hw]. by apply (wait_wf s c w t).
  - destruct Ho as [Hr Hw]. rewrite notify_is_notify_n. by apply notify_n_wf.
  - destruct Ho as [Hr Hw]. by apply notify_n_wf.
  - destruct Ho as [Hr [q Hw]]. rewrite (notify_all_is_notify_n r s w q) by done. apply notify_n_wf; eauto.
  - destruct Ho as [Hr Ht]. by apply timeout_wf.
  - destruct Ho as (Hr & th & Ht & Hst & Hc & Hni).
    destruct (ready_wf [] [] r s t th) as (s' & ? & ? & _); try done; try congruence; [left; congruence| |constructor|by exists s'].
    intros u. split; [by intros ?%not_elem_of_nil|by intros [? _]].
  - by apply (exit_wf s c t).
Qed.

Fixpoint yields (n : nat) (s : sched) (c : Z) : res sched :=
  match n with O => Ok s | S n => s ← com_sys_sched_yield s c; yields n s c end.

(** round robin: a thread with [length q1] others before it in the run queue of a processor runs after that many yields of it and one. *)
Theorem sched_round_robin q1 t q2 s c x a :
  sched_wf s → cpus s !! c = Some x → cur_thread x = Some a → sched_queue x = q1 ++ t :: q2 →
  ∃ s', yields (S (length q1)) s c = Ok s' ∧ sched_wf s' ∧ cur_thread <$> cpus s' !! c = Some (Some t) ∧
    (∃ th, threads s' !! t = Some th ∧ state th = E_COM_THREAD_STATE_RUNNING ∧ cpu th = Some c).
Proof.
  revert s x a q2. induction q1 as [|b q1 IH]; intros s x a q2 H Hx Hcur Hq.
  - destruct (yield_turn s c x a t q2 H Hx Hcur Hq) as (s' & x' & Hy & H' & Hx' & Hcur' & _). exists s'. simpl. unfold com_sys_sched_yield. rewrite Hy.
    split_and!; try done; [rewrite Hx'; simpl; by rewrite Hcur'|]. destruct (wf_cur _ _ _ _ H' c x' t Hx' Hcur') as (th & ? & ? & ? & _). by exists th.
  - destruct (yield_turn s c x a b (q1 ++ t :: q2) H Hx Hcur Hq) as (s' & x' & Hy & H' & Hx' & Hcur' & _ & Hq').
    rewrite <- app_assoc in Hq'. destruct (IH s' x' b _ H' Hx' Hcur' Hq') as (s2 & Hs2 & ?). exists s2. split; [|done].
    change (yields (S (length (b :: q1))) s c) with (s ← com_sys_sched_yield s c; yields (S (length q1)) s c). unfold com_sys_sched_yield. by rewrite Hy.
Qed.

(** ** The invariant as a computation *)
Definition idles (C : gmap Z arch_cpu) : list Z := (λ cx, idle_thread cx.2) <$> map_to_list C.

Definition thread_check (s : sched) (t : Z) (th : com_thread) : Prop :=
  from_option (λ c, from_option (λ x, cur_thread x = Some t ∨ idle_thread x = t) False (cpus s !! c)) True (cpu th) ∧
  (state th = E_COM_THREAD_STATE_RUNNING → from_option (λ c, (cpus s !! c ≫= cur_thread) = Some t) False (cpu th)) ∧
  from_option (λ w, from_option (λ q, t ∈ q) False (waitlists s !! w)) True (waiting_on th) ∧
  (state th = E_COM_THREAD_STATE_READY ∧ t ∉ idles (cpus s) → Exists (λ cx, t ∈ sched_queue cx.2) (map_to_list (cpus s))) ∧
  from_option (λ c, is_Some (cpus s !! c)) True (last_cpu th).
#[export] Instance thread_check_dec s t th : Decision (thread_check s t th).
Proof.
  unfold thread_check. repeat apply and_dec; try apply _.
  - destruct (cpu th) as [c|]; cbn; [|apply _]. destruct (cpus s !! c); cbn; apply _.
  - apply impl_dec; try apply _. destruct (cpu th); cbn; apply _.
  - destruct (waiting_on th) as [w|]; cbn; [|apply _]. destruct (waitlists s !! w); cbn; apply _.
  - destruct (last_cpu th); cbn; apply _.
Defined.

Definition cpu_check (s : sched) (c : Z) (x : arch_cpu) : Prop :=
  from_option (λ t, from_option (λ th, cpu th = Some c ∧ state th = E_COM_THREAD_STATE_RUNNING ∧ waiting_on th = None) False (threads s !! t)) True
    (cur_thread x) ∧
  NoDup (sched_queue x) ∧
  Forall (λ t, from_option (λ th, state th = E_COM_THREAD_STATE_READY ∧ cpu th = None ∧ waiting_on th = None ∧ t ∉ idles (cpus s)) False
    (threads s !! t)) (sched_queue x) ∧
  from_option (λ th, (state th = E_COM_THREAD_STATE_READY ∨ state th = E_COM_THREAD_STATE_RUNNING) ∧ waiting_on th = None ∧
    (cpu th = None ∨ cpu th = Some c)) False (threads s !! idle_thread x) ∧
  map_Forall (λ d y, d = c ∨ idle_thread y ≠ idle_thread x ∧ Forall (λ t, t ∉ sched_queue y) (sched_queue x)) (cpus s).
#[export] Instance cpu_check_dec s c x : Decision (cpu_check s c x).
Proof.
  unfold cpu_check. repeat apply and_dec; try apply _.
  - destruct (cur_thread x) as [t|]; cbn; [|apply _]. destruct (threads s !! t); cbn; apply _.
  - apply Forall_dec. intros t. destruct (threads s !! t); cbn; apply _.
  - destruct (threads s !! idle_thread x); cbn; apply _.
Defined.

Definition wait_check (s : sched) (w : Z) (q : list Z) : Prop :=
  NoDup q ∧ Forall (λ t, from_option (λ th, state th = E_COM_THREAD_STATE_WAITING ∧ waiting_on th = Some w ∧ cpu th = None ∧ t ∉ idles (cpus s)) False
    (threads s !! t)) q.
#[export] Instance wait_check_dec s w q : Decision (wait_check s w q).
Proof. unfold wait_check. apply and_dec; [apply _|]. apply Forall_dec. intros t. destruct (threads s !! t); cbn; apply _. Defined.

Definition sched_check (s : sched) : Prop :=
  map_Forall (thread_check s) (threads s) ∧ map_Forall (cpu_check s) (cpus s) ∧ map_Forall (wait_check s) (waitlists s).
#[export] Instance sched_check_dec s : Decision (sched_check s).
Proof. unfold sched_check. apply _. Defined.

Lemma elem_of_idles C t : t ∈ idles C ↔ is_idle C t.
Proof.
  unfold idles. rewrite list_elem_of_fmap. split.
  - intros ([c x] & -> & Hc%elem_of_map_to_list). by exists c, x.
  - intros (c & x & Hc & <-). exists (c, x). by rewrite elem_of_map_to_list.
Qed.

Lemma from_option_False {A} (P : A → Prop) o : from_option P False o → ∃ a, o = Some a ∧ P a.
Proof. destruct o; cbn; [eauto|done]. Qed.

Lemma sched_check_wf s : sched_check s → sched_wf s.
Proof.
  intros (HT & HC & HW).
  assert (Hrun : ∀ c x t, cpus s !! c = Some x → t ∈ sched_queue x → ∃ th, threads s !! t = Some th ∧
    state th = E_COM_THREAD_STATE_READY ∧ cpu th = None ∧ waiting_on th = None ∧ ¬ is_idle (cpus s) t).
  { intros c x t Hx Ht. destruct (HC c x Hx) as (_ & _ & Hf & _). rewrite Forall_forall in Hf.
    apply Hf in Ht. apply from_option_False in Ht as (th & ? & ? & ? & ? & ?). exists th. by rewrite <- elem_of_idles. }
  split.
  - intros c x t Hx Ht. destruct (HC c x Hx) as (Hc & _). rewrite Ht in Hc. apply from_option_False in Hc as (th & ? & ? & ? & ?). eauto.
  - intros t th c Ht Hc. destruct (HT t th Ht) as (H & _). rewrite Hc in H. apply from_option_False in H as (x & ? & ?). eauto.
  - intros t th Ht Hs. destruct (HT t th Ht) as (_ & H & _). specialize (H Hs). apply from_option_False in H as (c & _ & H).
    destruct (cpus s !! c) as [x|] eqn:Hx; [|done]. eauto.
  - exact Hrun.
  - intros w q t Hq Ht. destruct (HW w q Hq) as [_ Hf]. rewrite Forall_forall in Hf. apply Hf in Ht.
    apply from_option_False in Ht as (th & ? & ? & ? & ? & ?). exists th. rewrite <- elem_of_idles. split_and!; try done. apply not_elem_of_nil.
  - intros t th w Ht Hw _. destruct (HT t th Ht) as (_ & _ & H & _). rewrite Hw in H. by apply from_option_False in H.
  - intros c x Hx. by destruct (HC c x Hx) as (_ & ? & _).
  - intros w q Hq. by destruct (HW w q Hq).
  - intros c1 c2 x1 x2 t H1 H2 Ht1 Ht2. destruct (HC c1 x1 H1) as (_ & _ & _ & _ & Hf). destruct (Hf c2 x2 H2) as [?|[_ H]]; [done|].
    rewrite Forall_forall in H. by destruct (H t Ht1).
  - intros c x Hx. destruct (HC c x Hx) as (_ & _ & _ & H & _). by apply from_option_False in H.
  - intros c1 c2 x1 x2 H1 H2 E. destruct (HC c1 x1 H1) as (_ & _ & _ & _ & Hf). destruct (Hf c2 x2 H2) as [?|[? _]]; [done|congruence].
  - intros t th Ht Hs Hn. destruct (HT t th Ht) as (_ & _ & _ & H & _). rewrite elem_of_idles in H. specialize (H (conj Hs Hn)).
    apply Exists_exists in H as ([c x] & Hc%elem_of_map_to_list & ?). eauto.
  - intros t th c Ht Hl. destruct (HT t th Ht) as (_ & _ & _ & _ & H). by rewrite Hl in H.
  - by intros t ?%not_elem_of_nil.
  - constructor.
Qed.

Lemma demo_sched_wf : sched_wf demo_sched.
Proof. apply sched_check_wf, (bool_decide_eq_true_1 _). vm_compute. reflexivity. Qed.

Theorem sched_ops_keep_wf_witness : ∃ s', sched_run demo_sched (SWait 0 50) = Ok s' ∧ sched_wf s'.
Proof.
  apply (sched_ops_keep_wf demo_sched (SWait 0 50) demo_sched_wf). split; [|by eexists].
  exists 1, (Cpu [2; 3] (Some 1) 100 None). done.
Defined.

Theorem sched_round_robin_witness : ∃ s', yields 2 demo_sched 0 = Ok s' ∧ sched_wf s' ∧ cur_thread <$> cpus s' !! 0 = Some (Some 3) ∧
    (∃ th, threads s' !! 3 = Some th ∧ state th = E_COM_THREAD_STATE_RUNNING ∧ cpu th = Some 0).
Proof.
  exact (sched_round_robin [2] 3 [] demo_sched 0 (Cpu [2; 3] (Some 1) 100 None) 1 demo_sched_wf eq_refl eq_refl eq_refl).
Defined.
