(* ===== verification/Callout.v ===== *)
(** * Timed callbacks: src/com/sys/callout.c

    A callout is an allocated record; a processor has a queue of them ordered
    by their time. With the configuration of config/config.h
    ([CONST_CALLOUT_ONLY_BSP]) all callouts are put on the queue of the boot
    processor. The handlers are function pointers, so what a handler does is a
    parameter ([Callout.call]), as is the address the allocator returns. *)
From stdpp Require Import sorting.
From S2P Require Import Prelude.

Definition ARCH_TIMER_NS : Z := 1000000.
Definition ARCH_SCHED_NS : Z := 16000000.

(** ** Data *)
Record com_callout : Type := CalloutEntry {
  ns : Z;
  handler : Z;
  arg : Z;
  reuse : bool;
  permanent : bool;
  cpu_callout : option Z }.

Record com_callout_queue : Type := CalloutQueue {
  queue_ns : Z;
  next_preempt : Z;
  queue : list Z }.

(** [outside] is whatever the handlers work on. *)
Record callouts (X : Type) : Type := Callouts {
  entries : gmap Z com_callout;
  queues : gmap Z com_callout_queue;
  BspCallout : Z;
  outside : X }.
Arguments Callouts {X} _ _ _ _.
Arguments entries {X} _.
Arguments queues {X} _.
Arguments BspCallout {X} _.
Arguments outside {X} _.

Section setters.
Context {X : Type}.
Definition set_entry (s : callouts X) (c : Z) (e : com_callout) : callouts X := Callouts (<[c := e]> (entries s)) (queues s) (BspCallout s) (outside s).
Definition set_queue (s : callouts X) (q : Z) (x : com_callout_queue) : callouts X := Callouts (entries s) (<[q := x]> (queues s)) (BspCallout s) (outside s).
Definition set_outside (s : callouts X) (o : X) : callouts X := Callouts (entries s) (queues s) (BspCallout s) o.
Definition free_entry (s : callouts X) (c : Z) : callouts X := Callouts (delete c (entries s)) (queues s) (BspCallout s) (outside s).
End setters.

Definition with_list (x : com_callout_queue) (q : list Z) : com_callout_queue := CalloutQueue (queue_ns x) (next_preempt x) q.
Definition with_owner (e : com_callout) (q : option Z) : com_callout := CalloutEntry (ns e) (handler e) (arg e) (reuse e) (permanent e) q.
Definition with_reuse (e : com_callout) (b : bool) : com_callout := CalloutEntry (ns e) (handler e) (arg e) b (permanent e) (cpu_callout e).
Definition with_ns (e : com_callout) (n : Z) : com_callout := CalloutEntry n (handler e) (arg e) (reuse e) (permanent e) (cpu_callout e).
Definition with_handler (e : com_callout) (h : Z) : com_callout := CalloutEntry (ns e) h (arg e) (reuse e) (permanent e) (cpu_callout e).

(** ** Queue operations *)
Section ops.
Context {X : Type}.

(** A callout has one set of links: it may be on one queue only. *)
Definition linked (s : callouts X) (c : Z) : bool := existsb (λ kx, existsb (Z.eqb c) (queue kx.2)) (map_to_list (queues s)).

(** The loop of [enqueue_callout] with the insertion it ends in. *)
Fixpoint insert_by_time (E : gmap Z com_callout) (n : Z) (c : Z) (q : list Z) : res (list Z) :=
  match q with
  | [] => Ok [c]
  | curr :: rest =>
      e ← deref (E !! curr);
      if n <? ns e then Ok (c :: curr :: rest) else q ← insert_by_time E n c rest; Ok (curr :: q)
  end.

Definition enqueue_callout (s : callouts X) (q c : Z) : res (callouts X) :=
  e ← deref (entries s !! c);
  x ← deref (queues s !! q);
  if linked s c then Fault
  else
    l ← insert_by_time (entries s) (ns e) c (queue x);
    Ok (set_entry (set_queue s q (with_list x l)) c (with_owner e (Some q))).

(** [a] is the address [com_mm_slab_alloc] returns; the memory is cleared. *)
Definition callout_add_at (s : callouts X) (q a h ar n : Z) : res (callouts X) :=
  enqueue_callout (set_entry s a (CalloutEntry n h ar false false None)) q a.

Definition callout_add (s : callouts X) (q a h ar delay : Z) : res (callouts X) :=
  x ← deref (queues s !! q);
  enqueue_callout (set_entry s a (CalloutEntry (u64 (queue_ns x + delay)) h ar false false None)) q a.

Definition com_sys_callout_get_time (s : callouts X) : res Z :=
  x ← deref (queues s !! BspCallout s); Ok (queue_ns x).

Definition com_sys_callout_reschedule_at (s : callouts X) (c n : Z) : res (callouts X) :=
  e ← deref (entries s !! c);
  enqueue_callout (set_entry s c (with_ns (with_reuse e true) n)) (BspCallout s) c.

Definition com_sys_callout_reschedule (s : callouts X) (c delay : Z) : res (callouts X) :=
  x ← deref (queues s !! BspCallout s);
  e ← deref (entries s !! c);
  enqueue_callout (set_entry s c (with_ns (with_reuse e true) (u64 (queue_ns x + delay)))) (BspCallout s) c.

Definition com_sys_callout_add_at (s : callouts X) (a h ar n : Z) : res (callouts X) := callout_add_at s (BspCallout s) a h ar n.
Definition com_sys_callout_add (s : callouts X) (a h ar delay : Z) : res (callouts X) := callout_add s (BspCallout s) a h ar delay.

Definition com_sys_callout_new (s : callouts X) (a h ar n : Z) : callouts X := set_entry s a (CalloutEntry n h ar false false None).

Definition com_sys_callout_enqueue (s : callouts X) (c : Z) : res (callouts X) := enqueue_callout s (BspCallout s) c.

Definition com_sys_callout_set_and_enqueue (s : callouts X) (c h delay : Z) : res (callouts X) :=
  e ← deref (entries s !! c);
  x ← deref (queues s !! BspCallout s);
  enqueue_callout (set_entry s c (with_ns (with_handler e h) (u64 (queue_ns x + delay)))) (BspCallout s) c.

(** [com_sys_callout_cancel] up to the release of the entry lock, which gives
    the queue to remove the callout from, and what follows. *)
Definition cancel_claim (s : callouts X) (c : Z) : res (option Z * callouts X) :=
  e ← deref (entries s !! c);
  match cpu_callout e with
  | Some q => Ok (Some q, set_entry s c (with_owner e None))
  | None => Ok (None, s)
  end.

Definition cancel_remove (s : callouts X) (q c : Z) : res (callouts X) :=
  x ← deref (queues s !! q);
  l ← TAILQ_REMOVE (queue x) c;
  Ok (set_queue s q (with_list x l)).

Definition com_sys_callout_cancel (s : callouts X) (c : Z) : res (callouts X) :=
  '(o, s) ← cancel_claim s c;
  match o with Some q => cancel_remove s q c | None => Ok s end.

Definition com_sys_callout_destroy (s : callouts X) (c : Z) : res (callouts X) :=
  s ← com_sys_callout_cancel s c; Ok (free_entry s c).

(** ** The timer interrupt *)
Context (call : Z → Z → callouts X → res (callouts X)).

Fixpoint run_loop (fuel : nat) (s : callouts X) (q : Z) : res (callouts X) :=
  match fuel with
  | O => Fuel
  | S fuel =>
      if negb (q =? BspCallout s) then Ok s
      else
        x ← deref (queues s !! q);
        match queue x with
        | [] => Ok s
        | c :: rest =>
            e ← deref (entries s !! c);
            if queue_ns x <? ns e then Ok s
            else
              let s := set_entry (set_queue s q (with_list x rest)) c (with_owner (with_reuse e false) None) in
              s ← call (handler e) c s;
              e ← deref (entries s !! c);
              run_loop fuel (if negb (reuse e) && negb (permanent e) then free_entry s c else s) q
        end
  end.

(** The flag says that [com_sys_sched_yield] is called next. *)
Definition com_sys_callout_run (fuel : nat) (s : callouts X) (q : Z) : res (bool * callouts X) :=
  x ← deref (queues s !! q);
  s ← run_loop fuel (set_queue s q (CalloutQueue (u64 (queue_ns x + ARCH_TIMER_NS)) (next_preempt x) (queue x))) q;
  x ← deref (queues s !! q);
  if next_preempt x <=? queue_ns x
  then Ok (true, set_queue s q (CalloutQueue (queue_ns x) (u64 (next_preempt x + ARCH_SCHED_NS)) (queue x)))
  else Ok (false, s).

(** ** Well-formed callouts *)
Definition ns_of (E : gmap Z com_callout) (c : Z) : Z := match E !! c with Some e => ns e | None => 0 end.

Record callouts_wf (s : callouts X) : Prop := {
  co_queued q x c : queues s !! q = Some x → c ∈ queue x → ∃ e, entries s !! c = Some e ∧ cpu_callout e = Some q;
  co_owner c e q : entries s !! c = Some e → cpu_callout e = Some q → ∃ x, queues s !! q = Some x ∧ c ∈ queue x;
  co_nodup q x : queues s !! q = Some x → NoDup (queue x);
  co_sorted q x : queues s !! q = Some x → StronglySorted (λ a b, ns_of (entries s) a ≤ ns_of (entries s) b) (queue x);
  co_bsp : is_Some (queues s !! BspCallout s) }.

Definition idle (s : callouts X) (c : Z) : Prop := ∃ e, entries s !! c = Some e ∧ cpu_callout e = None.
End ops.

Section proofs.
Context {X : Type}.
Implicit Types (s : callouts X).

Lemma ns_of_insert E c e d : d ≠ c → ns_of (<[c := e]> E) d = ns_of E d.
Proof. intros. unfold ns_of. by rewrite lookup_insert_ne. Qed.

Lemma sorted_ext (E E' : gmap Z com_callout) q : (∀ c, c ∈ q → ns_of E' c = ns_of E c) →
  StronglySorted (λ a b, ns_of E a ≤ ns_of E b) q → StronglySorted (λ a b, ns_of E' a ≤ ns_of E' b) q.
Proof.
  intros He. induction 1 as [|a q Hq IH Ha]; constructor.
  - apply IH. intros c Hc. apply He. by right.
  - apply Forall_forall. intros b Hb. rewrite !He by (by left || by right). rewrite Forall_forall in Ha. by apply Ha.
Qed.

(** The members of a queue are not idle. *)
Lemma idle_not_queued s c : callouts_wf s → idle s c ∨ entries s !! c = None → ∀ q x, queues s !! q = Some x → c ∉ queue x.
Proof.
  intros H Hc q x Hx Hin. destruct (co_queued _ H q x c Hx Hin) as (e & He & Hq). destruct Hc as [(e' & He' & ?)|?]; congruence.
Qed.

Lemma unlinked s c : (∀ q x, queues s !! q = Some x → c ∉ queue x) → linked s c = false.
Proof.
  intros Hc. unfold linked. apply not_true_iff_false. rewrite existsb_exists.
  intros ([q x] & Hin%list_elem_of_In%elem_of_map_to_list & (d & Hd%list_elem_of_In & ->%Z.eqb_eq)%existsb_exists). by apply (Hc q x).
Qed.

(** A record that is on no queue may change. *)
Lemma wf_set_idle s c e : callouts_wf s → idle s c ∨ entries s !! c = None → cpu_callout e = None → callouts_wf (set_entry s c e).
Proof.
  intros H Hc He. pose proof (idle_not_queued s c H Hc) as Hn. assert (Hne : ∀ q x d, queues s !! q = Some x → d ∈ queue x → d ≠ c) by (intros q x d Hx Hd ->; by apply (Hn q x)).
  split; simpl; try apply H.
  - intros q x d Hx Hd. rewrite lookup_insert_ne by (apply not_eq_sym; eauto). by apply (co_queued _ H q x).
  - intros d f q [[<- <-]|[_ Hf]]%lookup_insert_Some Hq; [congruence|]. by apply (co_owner _ H d f).
  - intros q x Hx. apply (sorted_ext (entries s)); [|by apply (co_sorted _ H q)]. intros d Hd. apply ns_of_insert. eauto.
Qed.

Lemma insert_by_time_spec E n c q :
  (∀ d, d ∈ q → is_Some (E !! d)) → StronglySorted (λ a b, ns_of E a ≤ ns_of E b) q →
  insert_by_time E n c q = Ok (filter (λ d, ns_of E d ≤ n) q ++ c :: filter (λ d, ¬ ns_of E d ≤ n) q).
Proof.
  intros Hd. induction 1 as [|a q Hq IH Ha]; [done|]. simpl. destruct (Hd a) as [e He]; [by left|]. rewrite He. simpl.
  assert (Hae : ns_of E a = ns e) by (unfold ns_of; by rewrite He). destruct (Z.ltb_spec n (ns e)).
  - rewrite filter_cons_False by lia. rewrite filter_cons_True by lia.
    assert (Hall : Forall (λ d, ¬ ns_of E d ≤ n) q) by (eapply Forall_impl; [exact Ha|]; simpl; lia).
    rewrite (filter_all _ q Hall). by rewrite (filter_none _ q Hall).
  - rewrite filter_cons_True by lia. rewrite filter_cons_False by lia. rewrite IH; [done|]. intros d Hd'. apply Hd. by right.
Qed.

Lemma sorted_insert E n c q :
  StronglySorted (λ a b, ns_of E a ≤ ns_of E b) q → ns_of E c = n →
  StronglySorted (λ a b, ns_of E a ≤ ns_of E b) (filter (λ d, ns_of E d ≤ n) q ++ c :: filter (λ d, ¬ ns_of E d ≤ n) q).
Proof.
  intros Hs Hc. assert (Hf : ∀ P `{!∀ d, Decision (P d)}, StronglySorted (λ a b, ns_of E a ≤ ns_of E b) (filter P q)).
  { intros P HP. induction Hs as [|a q Hq IH Ha]; [constructor|]. rewrite filter_cons. destruct (decide (P a)); [|done]. constructor; [done|].
    apply Forall_forall. intros b [_ Hb]%list_elem_of_filter. rewrite Forall_forall in Ha. by apply Ha. }
  assert (Hlo : Forall (λ d, ns_of E d ≤ n) (filter (λ d, ns_of E d ≤ n) q)) by (apply Forall_forall; by intros d [? _]%list_elem_of_filter).
  assert (Hhi : Forall (λ d, n < ns_of E d) (filter (λ d, ¬ ns_of E d ≤ n) q)) by (apply Forall_forall; intros d [? _]%list_elem_of_filter; lia).
  generalize (Hf (λ d, ns_of E d ≤ n) _) (Hf (λ d, ¬ ns_of E d ≤ n) _).
  induction (filter (λ d, ns_of E d ≤ n) q) as [|a l IH]; intros H1 H2; simpl.
  - constructor; [done|]. eapply Forall_impl; [exact Hhi|]. simpl. lia.
  - inversion H1; subst. apply Forall_cons in Hlo as [Ha Hlo]. constructor; [by apply IH|]. apply Forall_app. split; [done|]. apply Forall_cons. split; [lia|].
    eapply Forall_impl; [exact Hhi|]. simpl. lia.
Qed.

(** A callout is put behind every callout of its queue that is due no later
    and before the others. *)
Lemma enqueue_spec s q c e x :
  callouts_wf s → entries s !! c = Some e → cpu_callout e = None → queues s !! q = Some x →
  let due d := ns_of (entries s) d ≤ ns e in
  let s' := set_entry (set_queue s q (with_list x (filter due (queue x) ++ c :: filter (λ d, ¬ due d) (queue x)))) c (with_owner e (Some q)) in
  enqueue_callout s q c = Ok s' ∧ callouts_wf s'.
Proof.
  intros H He Hc Hx due s'. pose proof (idle_not_queued s c H (or_introl (ex_intro _ e (conj He Hc)))) as Hn. split.
  - unfold enqueue_callout. rewrite He. simpl. rewrite Hx. simpl. rewrite unlinked by done.
    rewrite insert_by_time_spec; [done| |by apply (co_sorted _ H q)]. intros d Hd. destruct (co_queued _ H q x d Hx Hd) as (f & -> & _). by eexists.
  - set (l := filter due (queue x) ++ c :: filter (λ d, ¬ due d) (queue x)) in *. subst s'.
    assert (Hl : ∀ d, d ∈ l ↔ d = c ∨ d ∈ queue x).
    { intros d. unfold l. rewrite elem_of_app, elem_of_cons, !list_elem_of_filter. destruct (decide (due d)); tauto. }
    assert (Hns : ∀ d, ns_of (<[c := with_owner e (Some q)]> (entries s)) d = ns_of (entries s) d).
    { intros d. destruct (decide (d = c)) as [->|]; [unfold ns_of; by rewrite lookup_insert_eq, He|by apply ns_of_insert]. }
    assert (Hqs : ∀ q' y d, <[q := with_list x l]> (queues s) !! q' = Some y → d ∈ queue y → d = c ∧ q' = q ∨ d ≠ c ∧ ∃ y0, queues s !! q' = Some y0 ∧ d ∈ queue y0).
    { intros q' y d [[<- <-]|[Hne Hy]]%lookup_insert_Some Hd.
      - simpl in Hd. apply Hl in Hd as [->|Hd]; [by left|right]. split; [intros ->; by apply (Hn q x)|by exists x].
      - right. split; [intros ->; by apply (Hn q' y)|by exists y]. }
    split; simpl.
    + intros q' y d Hy Hd. destruct (Hqs q' y d Hy Hd) as [[-> ->]|(Hne & y0 & Hy0 & Hd0)]; [exists (with_owner e (Some q)); by rewrite lookup_insert_eq|].
      rewrite lookup_insert_ne by done. by apply (co_queued _ H q' y0).
    + intros d f q' Hd Hf. apply lookup_insert_Some in Hd as [[<- <-]|[Hne Hd]].
      * injection Hf as <-. exists (with_list x l). rewrite lookup_insert_eq. split; [done|]. simpl. apply Hl. by left.
      * destruct (co_owner _ H d f q' Hd Hf) as (y & Hy & Hin). destruct (decide (q' = q)) as [->|]; [|exists y; by rewrite lookup_insert_ne].
        exists (with_list x l). rewrite lookup_insert_eq. split; [done|]. simpl. apply Hl. right. congruence.
    + intros q' y [[<- <-]|[_ Hy]]%lookup_insert_Some; [|by apply (co_nodup _ H q')]. simpl. unfold l.
      assert (Hnd : NoDup (queue x)) by (by apply (co_nodup _ H q)). apply NoDup_app. split; [by apply NoDup_filter|]. split.
      * intros d [Hd Hin]%list_elem_of_filter. rewrite elem_of_cons, list_elem_of_filter. intros [->|[? _]]; [by apply (Hn q x)|done].
      * apply NoDup_cons. split; [intros [_ ?]%list_elem_of_filter; by apply (Hn q x)|by apply NoDup_filter].
    + intros q' y Hy. apply (sorted_ext (entries s)); [intros d _; apply Hns|]. apply lookup_insert_Some in Hy as [[<- <-]|[_ Hy]]; [|by apply (co_sorted _ H q')].
      apply sorted_insert; [by apply (co_sorted _ H q)|]. unfold ns_of. by rewrite He.
    + destruct (co_bsp _ H) as [y Hy]. destruct (decide (BspCallout s = q)) as [->|]; [rewrite lookup_insert_eq; by eexists|by rewrite lookup_insert_ne].
Qed.

(** The clock of a processor goes on. *)
Lemma wf_clock s q x now np : callouts_wf s → queues s !! q = Some x → callouts_wf (set_queue s q (CalloutQueue now np (queue x))).
Proof.
  intros H Hx.
  assert (Hb : ∀ q' y, <[q := CalloutQueue now np (queue x)]> (queues s) !! q' = Some y → ∃ z, queues s !! q' = Some z ∧ queue y = queue z).
  { intros q' y [[<- <-]|[_ Hy]]%lookup_insert_Some; [by exists x|by exists y]. }
  split; simpl.
  - intros q' y c (z & Hz & ->)%Hb. by apply (co_queued _ H q' z).
  - intros c e q' He Hq. destruct (co_owner _ H c e q' He Hq) as (y & Hy & Hin). destruct (decide (q' = q)) as [->|]; [|exists y; by rewrite lookup_insert_ne].
    eexists. rewrite lookup_insert_eq. split; [done|]. simpl. congruence.
  - intros q' y (z & Hz & ->)%Hb. by apply (co_nodup _ H q').
  - intros q' y (z & Hz & ->)%Hb. by apply (co_sorted _ H q').
  - destruct (co_bsp _ H) as [y Hy]. destruct (decide (BspCallout s = q)) as [->|]; [rewrite lookup_insert_eq; by eexists|by rewrite lookup_insert_ne].
Qed.

(** ** Taking callouts off *)
Lemma sorted_filter E P `{!∀ d, Decision (P d)} q : StronglySorted (λ a b, ns_of E a ≤ ns_of E b) q → StronglySorted (λ a b, ns_of E a ≤ ns_of E b) (filter P q).
Proof.
  induction 1 as [|a q Hq IH Ha]; [constructor|]. rewrite filter_cons. destruct (decide (P a)); [|done]. constructor; [done|].
  apply Forall_forall. intros b [_ Hb]%list_elem_of_filter. rewrite Forall_forall in Ha. by apply Ha.
Qed.

(** A callout leaves its queue. *)
Lemma wf_unqueue s q x c e e' : callouts_wf s → queues s !! q = Some x → c ∈ queue x → entries s !! c = Some e → cpu_callout e' = None → ns e' = ns e →
  callouts_wf (set_entry (set_queue s q (with_list x (filter (λ d, d ≠ c) (queue x)))) c e').
Proof.
  intros H Hx Hin He Hc Hns. destruct (co_queued _ H q x c Hx Hin) as (e0 & He0 & Hq). assert (e0 = e) as -> by congruence. clear He0.
  assert (Hn : ∀ d, ns_of (<[c := e']> (entries s)) d = ns_of (entries s) d).
  { intros d. destruct (decide (d = c)) as [->|]; [unfold ns_of; by rewrite lookup_insert_eq, He|by apply ns_of_insert]. }
  assert (Hqs : ∀ q' y d, <[q := with_list x (filter (λ d, d ≠ c) (queue x))]> (queues s) !! q' = Some y → d ∈ queue y → d ≠ c ∧ ∃ y0, queues s !! q' = Some y0 ∧ d ∈ queue y0).
  { intros q' y d [[<- <-]|[Hne Hy]]%lookup_insert_Some Hd.
    - simpl in Hd. apply list_elem_of_filter in Hd as [? ?]. split; [done|]. by exists x.
    - split; [|by exists y]. intros ->. destruct (co_queued _ H q' y c Hy Hd) as (f & Hf & ?). congruence. }
  split; simpl.
  - intros q' y d Hy Hd. destruct (Hqs q' y d Hy Hd) as (Hne & y0 & Hy0 & Hd0). rewrite lookup_insert_ne by done. by apply (co_queued _ H q' y0).
  - intros d f q' [[<- <-]|[Hne Hd]]%lookup_insert_Some Hf; [congruence|]. destruct (co_owner _ H d f q' Hd Hf) as (y & Hy & Hd').
    destruct (decide (q' = q)) as [->|]; [|exists y; by rewrite lookup_insert_ne]. eexists. rewrite lookup_insert_eq. split; [done|]. simpl.
    apply list_elem_of_filter. split; [done|congruence].
  - intros q' y [[<- <-]|[_ Hy]]%lookup_insert_Some; [simpl; apply NoDup_filter; by apply (co_nodup _ H q)|by apply (co_nodup _ H q')].
  - intros q' y Hy. apply (sorted_ext (entries s)); [intros d _; apply Hn|]. apply lookup_insert_Some in Hy as [[<- <-]|[_ Hy]]; [|by apply (co_sorted _ H q')].
    apply sorted_filter; by apply (co_sorted _ H q).
  - destruct (co_bsp _ H) as [y Hy]. destruct (decide (BspCallout s = q)) as [->|]; [rewrite lookup_insert_eq; by eexists|by rewrite lookup_insert_ne].
Qed.

(** Cancelling takes a queued callout off its queue and leaves others alone. *)
Lemma cancel_spec s c e : callouts_wf s → entries s !! c = Some e →
  ∃ s', com_sys_callout_cancel s c = Ok s' ∧ callouts_wf s' ∧ idle s' c ∧ BspCallout s' = BspCallout s ∧ outside s' = outside s ∧
    (∀ d, d ≠ c → entries s' !! d = entries s !! d) ∧
    (∀ q, (λ x, (queue_ns x, queue x)) <$> queues s' !! q = (λ x, (queue_ns x, filter (λ d, d ≠ c) (queue x))) <$> queues s !! q).
Proof.
  intros H He. unfold com_sys_callout_cancel, cancel_claim. rewrite He. simpl. destruct (cpu_callout e) as [q|] eqn:Hc; simpl.
  - destruct (co_owner _ H c e q He Hc) as (x & Hx & Hin). unfold cancel_remove. simpl. rewrite Hx. simpl.
    rewrite TAILQ_REMOVE_filter by (done || by apply (co_nodup _ H q)). simpl. eexists. split; [reflexivity|].
    split; [by apply (wf_unqueue s q x c e)|]. simpl. split_and!; try done.
    + exists (with_owner e None). simpl. by rewrite lookup_insert_eq.
    + intros d Hd. by rewrite lookup_insert_ne.
    + intros q'. destruct (decide (q' = q)) as [->|Hne]; [by rewrite lookup_insert_eq, Hx|]. rewrite lookup_insert_ne by done.
      destruct (queues s !! q') as [y|] eqn:Hy; [|done]. simpl. do 2 f_equal. symmetry. apply filter_all. apply Forall_forall. intros d Hd ->.
      destruct (co_queued _ H q' y c Hy Hd) as (f & Hf & ?). congruence.
  - exists s. split; [done|]. split; [done|]. assert (Hid : idle s c) by (by exists e). split_and!; try done.
    intros q. destruct (queues s !! q) as [y|] eqn:Hy; [|done]. simpl. do 2 f_equal. symmetry. apply filter_all. apply Forall_forall. intros d Hd ->.
    by apply (idle_not_queued s c H (or_introl Hid) q y).
Qed.

(** A record that is on no queue may be freed. *)
Lemma wf_free_idle s c : callouts_wf s → idle s c → callouts_wf (free_entry s c).
Proof.
  intros H Hc. pose proof (idle_not_queued s c H (or_introl Hc)) as Hn.
  assert (Hne : ∀ q x d, queues s !! q = Some x → d ∈ queue x → c ≠ d) by (intros q x d Hx Hd <-; by apply (Hn q x)).
  split; simpl; try apply H.
  - intros q x d Hx Hd. rewrite lookup_delete_ne by eauto. by apply (co_queued _ H q x).
  - intros d f q [_ Hf]%lookup_delete_Some Hq. by apply (co_owner _ H d f).
  - intros q x Hx. apply (sorted_ext (entries s)); [|by apply (co_sorted _ H q)]. intros d Hd. unfold ns_of. rewrite lookup_delete_ne by eauto. done.
Qed.
End proofs.

(** ** The timer interrupt *)
Section run.
Context {X : Type} (call : Z → Z → callouts X → res (callouts X)).
Implicit Types (s : callouts X).

(** How many callouts of the boot processor's queue have come. *)
Definition due s : nat :=
  match queues s !! BspCallout s with
  | Some x => length (filter (λ d, ns_of (entries s) d ≤ queue_ns x) (queue x))
  | None => 0
  end.

(** What a handler may do: anything that keeps the callouts in order and puts
    none on the queue that has come already. If it puts its own callout on a
    queue again it says so in [reuse]. *)
Definition handlers_ok : Prop := ∀ h c s, callouts_wf s → idle s c → ∃ s' e, call h c s = Ok s' ∧ callouts_wf s' ∧
  BspCallout s' = BspCallout s ∧ entries s' !! c = Some e ∧ (reuse e = false → cpu_callout e = None) ∧ (due s' ≤ due s)%nat.

(** The head of the queue is taken off. *)
Lemma wf_take_off s q x c rest : callouts_wf s → queues s !! q = Some x → queue x = c :: rest → ∃ e, entries s !! c = Some e ∧
  let s1 := set_entry (set_queue s q (with_list x rest)) c (with_owner (with_reuse e false) None) in
  callouts_wf s1 ∧ idle s1 c ∧ (q = BspCallout s → ns e ≤ queue_ns x → due s = S (due s1)).
Proof.
  intros H Hx Hq. destruct (co_queued _ H q x c Hx) as (e & He & _); [rewrite Hq; by left|]. exists e. split; [done|].
  pose proof (co_nodup _ H q x Hx) as Hnd. rewrite Hq in Hnd. apply NoDup_cons in Hnd as [Hc Hnd].
  assert (Hr : filter (λ d, d ≠ c) (queue x) = rest).
  { rewrite Hq, filter_cons_False by tauto. apply filter_all. apply Forall_forall. intros d Hd ->. done. }
  intros s1. split_and!.
  - unfold s1. rewrite <- Hr. apply (wf_unqueue s q x c e); try done. rewrite Hq. by left.
  - eexists. unfold s1. simpl. by rewrite lookup_insert_eq.
  - intros -> Hn. unfold due, s1. simpl. rewrite Hx, lookup_insert_eq, Hq. simpl. rewrite filter_cons_True by (unfold ns_of; by rewrite He). simpl. f_equal. f_equal.
    apply filter_ext_in. intros d Hd. unfold ns_of. rewrite lookup_insert_ne by (intros ->; done). done.
Qed.

Lemma run_loop_returns fuel s : handlers_ok → callouts_wf s → (due s < fuel)%nat →
  ∃ s', run_loop call fuel s (BspCallout s) = Ok s' ∧ callouts_wf s' ∧ BspCallout s' = BspCallout s ∧ due s' = 0%nat.
Proof.
  intros Hcall. revert s. induction fuel as [|fuel IH]; intros s H Hf; [lia|]. simpl. rewrite Z.eqb_refl. simpl.
  destruct (co_bsp _ H) as [x Hx]. rewrite Hx. simpl. destruct (queue x) as [|c rest] eqn:Hq.
  { exists s. split_and!; try done. unfold due. by rewrite Hx, Hq. }
  destruct (wf_take_off s _ x c rest H Hx Hq) as (e & He & H1 & Hid & Hdue). rewrite He. simpl. destruct (Z.ltb_spec (queue_ns x) (ns e)).
  { exists s. split_and!; try done. unfold due. rewrite Hx, Hq. pose proof (co_sorted _ H _ x Hx) as Hs. rewrite Hq in Hs. inversion Hs as [|? ? _ Hall]; subst.
    assert (Hc : ns_of (entries s) c = ns e) by (unfold ns_of; by rewrite He). rewrite filter_cons_False by lia.
    assert (Hn : Forall (λ d, ¬ ns_of (entries s) d ≤ queue_ns x) rest) by (eapply Forall_impl; [exact Hall|]; simpl; lia).
    by rewrite (filter_none _ rest Hn). }
  destruct (Hcall (handler e) c _ H1 Hid) as (s2 & e2 & -> & H2 & Hb2 & He2 & Hre & Hd2). simpl. rewrite He2. simpl. simpl in Hb2.
  specialize (Hdue eq_refl ltac:(lia)). set (s3 := if negb (reuse e2) && negb (permanent e2) then free_entry s2 c else s2).
  assert (H3 : callouts_wf s3 ∧ BspCallout s3 = BspCallout s ∧ due s3 = due s2).
  { subst s3. destruct (reuse e2) eqn:Hr; [done|]. destruct (permanent e2); [done|]. assert (Hi2 : idle s2 c) by (exists e2; auto).
    split; [by apply wf_free_idle|]. split; [done|]. unfold due. simpl. destruct (co_bsp _ H2) as [y Hy]. rewrite Hy. f_equal. apply filter_ext_in. intros d Hd.
    unfold ns_of. rewrite lookup_delete_ne; [done|]. intros <-. by apply (idle_not_queued s2 c H2 (or_introl Hi2) (BspCallout s2) y). }
  destruct H3 as (H3 & Hb3 & Hd3). rewrite <- Hb3. destruct (IH s3 H3) as (s' & ? & ? & ? & ?); [lia|]. exists s'. split_and!; try done.
Qed.

(** whatever well-behaved handlers do, one more turn than there are callouts that have come is enough for the timer interrupt to return;
    the queues stay well-formed and nothing that has come is left. *)
Theorem com_sys_callout_run_returns fuel s x :
  handlers_ok → callouts_wf s → queues s !! BspCallout s = Some x →
  (length (filter (λ d, (ns_of (entries s) d ≤ u64 (queue_ns x + ARCH_TIMER_NS))%Z) (queue x)) < fuel)%nat →
  ∃ resched s', com_sys_callout_run call fuel s (BspCallout s) = Ok (resched, s') ∧ callouts_wf s' ∧ due s' = 0%nat.
Proof.
  intros Hcall H Hx Hf. unfold com_sys_callout_run. rewrite Hx. simpl. set (s1 := set_queue s _ _).
  assert (H1 : callouts_wf s1) by (by apply (wf_clock s _ x)).
  destruct (run_loop_returns fuel s1 Hcall H1) as (s2 & Hs2 & H2 & Hb & Hd); [unfold due, s1; simpl; by rewrite lookup_insert_eq|].
  change (BspCallout s1) with (BspCallout s) in Hs2, Hb. rewrite Hs2. simpl. destruct (co_bsp _ H2) as [y Hy]. rewrite Hb in Hy. rewrite Hy. simpl. destruct (_ <=? _); [|by exists false, s2].
  eexists true, _. split; [reflexivity|]. split; [by apply (wf_clock s2 _ y)|]. unfold due. simpl. rewrite Hb, lookup_insert_eq. simpl.
  unfold due in Hd. by rewrite Hb, Hy in Hd.
Qed.

(** ** Handlers that work on what is outside and may put their callout back

    [act] is what a handler does, [again] the delay it then reschedules its
    own callout with, if it does. *)
Section own.
Context (act : Z → Z → X → X) (again : Z → Z → X → option Z).
Hypothesis call_own : ∀ h c s, call h c s =
  let s := set_outside s (act h c (outside s)) in
  match again h c (outside s) with Some delay => com_sys_callout_reschedule s c delay | None => Ok s end.

(** A queue with a callout put behind those due no later. *)
Definition placed (M : gmap Z com_callout) (n c : Z) (l : list Z) : list Z :=
  filter (λ d, ns_of M d ≤ n) l ++ c :: filter (λ d, ¬ ns_of M d ≤ n) l.

(** The reference: one callout of the processor [b] fires at the time [now].
    It goes to its new place when it was rescheduled; otherwise it is kept, on
    no queue, when it is permanent, and freed when it is not. *)
Definition fire (b now : Z) (st : gmap Z com_callout * list Z * X) (c : Z) : gmap Z com_callout * list Z * X :=
  let '(M, l, o) := st in
  match M !! c with
  | None => st
  | Some e =>
      let o := act (handler e) c o in
      match again (handler e) c o with
      | Some delay =>
          let n := u64 (now + delay) in
          (<[c := CalloutEntry n (handler e) (arg e) true (permanent e) (Some b)]> M, placed M n c l, o)
      | None => (if permanent e then <[c := with_owner (with_reuse e false) None]> M else delete c M, l, o)
      end
  end.

Lemma fire_others b now M l o c d : d ≠ c → (fire b now (M, l, o) c).1.1 !! d = M !! d.
Proof.
  intros Hd. cbn [fire]. destruct (M !! c) as [e|]; [|done]. destruct (again _ _ _); simpl; [by rewrite lookup_insert_ne|].
  destruct (permanent e); [by rewrite lookup_insert_ne|by rewrite lookup_delete_ne].
Qed.

Lemma fire_all_others b now dq st d : d ∉ dq → (foldl (fire b now) st dq).1.1 !! d = st.1.1 !! d.
Proof.
  revert st. induction dq as [|c dq IH]; intros [[M l] o] Hd; [done|]. apply not_elem_of_cons in Hd as [Hc Hd].
  cbn [foldl]. rewrite IH by done. by rewrite fire_others.
Qed.

(** The callouts in front of the place of a late one stay in front. *)
Lemma placed_front (M M' : gmap Z com_callout) n c dq l :
  (∀ d, d ∈ dq ++ l → ns_of M' d = ns_of M d) → Forall (λ d, ns_of M d ≤ n) dq →
  filter (λ d, ns_of M' d ≤ n) (dq ++ l) ++ c :: filter (λ d, ¬ ns_of M' d ≤ n) (dq ++ l) = dq ++ placed M n c l.
Proof.
  intros He Hd. unfold placed.
  rewrite (filter_ext_in (λ d, ns_of M' d ≤ n) (λ d, ns_of M d ≤ n)) by (intros d Hin; by rewrite He).
  rewrite (filter_ext_in (λ d, ¬ ns_of M' d ≤ n) (λ d, ¬ ns_of M d ≤ n)) by (intros d Hin; by rewrite He).
  rewrite !filter_app, (filter_all _ dq Hd).
  rewrite (filter_none (λ d, ¬ ns_of M d ≤ n) dq) by (eapply Forall_impl; [exact Hd|]; simpl; tauto). by rewrite <- app_assoc.
Qed.

(** What one turn of the loop does to the callout at the head. *)
Lemma turn_fires s x c dq l :
  callouts_wf s → queues s !! BspCallout s = Some x → queue x = c :: dq ++ l →
  Forall (λ d, ns_of (entries s) d ≤ queue_ns x) dq →
  (∀ h c o delay, again h c o = Some delay → queue_ns x < u64 (queue_ns x + delay)) →
  ∃ e s2 e2, entries s !! c = Some e ∧
    call (handler e) c (set_entry (set_queue s (BspCallout s) (with_list x (dq ++ l))) c (with_owner (with_reuse e false) None)) = Ok s2 ∧
    entries s2 !! c = Some e2 ∧
    let s3 := if negb (reuse e2) && negb (permanent e2) then free_entry s2 c else s2 in
    let '(M, l', o) := fire (BspCallout s) (queue_ns x) (entries s, l, outside s) c in
    callouts_wf s3 ∧ BspCallout s3 = BspCallout s ∧ entries s3 = M ∧ outside s3 = o ∧
    queues s3 = <[BspCallout s := with_list x (dq ++ l')]> (queues s).
Proof.
  intros H Hx Hq Hdue Hlate. destruct (wf_take_off s _ x c (dq ++ l) H Hx Hq) as (e & He & H1 & Hid & _). exists e.
  set (s1 := set_entry _ c _) in *. set (s2 := set_outside s1 (act (handler e) c (outside s))).
  assert (H2 : callouts_wf s2) by (by destruct H1; split). assert (Hid2 : idle s2 c) by exact Hid.
  assert (Hx2 : queues s2 !! BspCallout s2 = Some (with_list x (dq ++ l))) by (simpl; by rewrite lookup_insert_eq).
  assert (He2 : entries s2 !! c = Some (with_owner (with_reuse e false) None)) by (simpl; by rewrite lookup_insert_eq).
  pose proof (idle_not_queued s2 c H2 (or_introl Hid2) _ _ Hx2) as Hcn. simpl in Hcn.
  cbn [fire]. rewrite He, call_own. cbv zeta. change (set_outside s1 (act (handler e) c (outside s1))) with s2.
  change (act (handler e) c (outside s)) with (outside s2). change (outside s2) with (act (handler e) c (outside s)).
  destruct (again (handler e) c (act (handler e) c (outside s))) as [delay|] eqn:Hag.
  - specialize (Hlate _ _ _ _ Hag). set (n := u64 (queue_ns x + delay)) in *.
    unfold com_sys_callout_reschedule. rewrite Hx2. cbn [deref mbind res_bind]. rewrite He2. cbn [deref mbind res_bind with_list queue_ns]. fold n.
    set (e3 := with_ns _ n). pose proof (wf_set_idle s2 c e3 H2 (or_introl Hid2) eq_refl) as H3.
    destruct (enqueue_spec (set_entry s2 c e3) (BspCallout s2) c e3 (with_list x (dq ++ l)) H3) as [-> Hwf]; [by apply lookup_insert_eq|done|exact Hx2|].
    eexists _, _. split; [done|]. split; [reflexivity|]. split; [cbn; by rewrite lookup_insert_eq|]. cbn [reuse with_owner e3 with_ns with_reuse negb andb].
    split; [exact Hwf|]. split; [done|]. cbn. rewrite !insert_insert_eq. split; [done|]. split; [done|]. do 2 f_equal.
    apply placed_front.
    + intros d Hd. rewrite !ns_of_insert by (intros ->; done). done.
    + eapply Forall_impl; [exact Hdue|]. simpl. lia.
  - eexists s2, _. split; [done|]. split; [done|]. split; [exact He2|]. cbn [reuse with_owner with_reuse permanent negb andb].
    destruct (permanent e); cbn [negb].
    + split; [exact H2|]. split; [done|]. split; [done|]. split; done.
    + split; [by apply wf_free_idle|]. split; [done|]. split; [|split; done]. cbn. by rewrite delete_insert_eq.
Qed.

(** The time of a callout that has not fired yet does not change. *)
Lemma run_loop_fires dq l s x :
  callouts_wf s → queues s !! BspCallout s = Some x → queue x = dq ++ l →
  Forall (λ d, ns_of (entries s) d ≤ queue_ns x) dq → Forall (λ d, ¬ ns_of (entries s) d ≤ queue_ns x) l →
  (∀ h c o delay, again h c o = Some delay → queue_ns x < u64 (queue_ns x + delay)) →
  ∃ s', run_loop call (S (length dq)) s (BspCallout s) = Ok s' ∧ callouts_wf s' ∧ BspCallout s' = BspCallout s ∧
    let '(M, l', o) := foldl (fire (BspCallout s) (queue_ns x)) (entries s, l, outside s) dq in
    entries s' = M ∧ outside s' = o ∧ queues s' = <[BspCallout s := with_list x l']> (queues s).
Proof.
  revert s x l. induction dq as [|c dq IH]; intros s x l H Hx Hq Hdue Hrest Hlate; simpl in Hq.
  - exists s. cbn [length run_loop foldl]. rewrite Z.eqb_refl. cbn [negb]. rewrite Hx. cbn [deref mbind res_bind].
    assert (Hid : <[BspCallout s := with_list x l]> (queues s) = queues s) by (rewrite <- Hq, insert_id; [done|by destruct x]).
    rewrite Hid, Hq. destruct l as [|c l]; [done|]. destruct (co_queued _ H _ x c Hx) as (e & He & _); [rewrite Hq; by left|].
    rewrite He. cbn [deref mbind res_bind]. apply Forall_cons in Hrest as [Hc _]. unfold ns_of in Hc. rewrite He in Hc.
    destruct (Z.ltb_spec (queue_ns x) (ns e)); [done|lia].
  - apply Forall_cons in Hdue as [Hc Hdue]. destruct (turn_fires s x c dq l H Hx Hq Hdue Hlate) as (e & s2 & e2 & He & Hcall & He2 & Hturn).
    cbn [length foldl]. remember (S (length dq)) as fuel eqn:Hfuel. cbn [run_loop]. rewrite Z.eqb_refl. cbn [negb]. rewrite Hx. cbn [deref mbind res_bind].
    rewrite Hq, He. cbn [deref mbind res_bind]. unfold ns_of in Hc. rewrite He in Hc. destruct (Z.ltb_spec (queue_ns x) (ns e)); [lia|].
    rewrite Hcall. cbn [mbind res_bind]. rewrite He2. cbn [deref mbind res_bind]. cbv zeta in Hturn. set (s3 := if _ && _ then _ else s2) in *. clearbody s3.
    assert (Hnd : NoDup (c :: dq ++ l)) by (rewrite <- Hq; by apply (co_nodup _ H _ x Hx)). apply NoDup_cons in Hnd as [Hcn _].
    assert (Hns : ∀ d, d ∈ dq ++ l → ns_of (fire (BspCallout s) (queue_ns x) (entries s, l, outside s) c).1.1 d = ns_of (entries s) d).
    { intros d Hd. unfold ns_of. rewrite fire_others; [done|]. intros ->. done. }
    assert (Hl' : Forall (λ d, ¬ ns_of (fire (BspCallout s) (queue_ns x) (entries s, l, outside s) c).1.1 d ≤ queue_ns x) (fire (BspCallout s) (queue_ns x) (entries s, l, outside s) c).1.2).
    { assert (Hl0 : Forall (λ d, ¬ ns_of (fire (BspCallout s) (queue_ns x) (entries s, l, outside s) c).1.1 d ≤ queue_ns x) l).
      { apply Forall_forall. intros d Hd. rewrite Hns by (apply elem_of_app; by right). rewrite Forall_forall in Hrest. by apply Hrest. }
      revert Hl0. cbn [fire]. rewrite He. destruct (again _ _ _) as [delay|] eqn:Hag; [|done]. intros Hl0. cbn [fst snd] in *. unfold placed.
      rewrite Forall_forall in Hl0. apply Forall_forall. intros d. rewrite elem_of_app, elem_of_cons, !list_elem_of_filter. intros [[_ Hd]|[->|[_ Hd]]]; [by apply Hl0| |by apply Hl0].
      unfold ns_of. rewrite lookup_insert_eq. cbn. specialize (Hlate _ _ _ _ Hag). lia. }
    destruct (fire (BspCallout s) (queue_ns x) (entries s, l, outside s) c) as [[M l'] o]. cbn [fst snd] in *.
    destruct Hturn as (H3 & Hb3 & HM & Ho & Hqs). rewrite <- Hb3.
    destruct (IH s3 (with_list x (dq ++ l')) l') as (s' & Hs' & H' & Hb' & Hfold); try done.
    + by rewrite Hqs, Hb3, lookup_insert_eq.
    + apply Forall_forall. intros d Hd. rewrite HM, Hns by (apply elem_of_app; by left). rewrite Forall_forall in Hdue. by apply Hdue.
    + by rewrite HM.
    + exists s'. subst fuel. split; [done|]. split; [done|]. split; [congruence|]. rewrite HM, Ho in Hfold. cbn [with_list queue_ns] in Hfold.
      destruct (foldl _ _ dq) as [[M2 l2] o2]. destruct Hfold as (-> & -> & ->). rewrite Hqs, Hb3, insert_insert_eq. done.
Qed.

Lemma sorted_split E n q : StronglySorted (λ a b, ns_of E a ≤ ns_of E b) q → q = filter (λ d, ns_of E d ≤ n) q ++ filter (λ d, ¬ ns_of E d ≤ n) q.
Proof.
  induction 1 as [|a q Hq IH Ha]; [done|]. rewrite !filter_cons. destruct (decide (ns_of E a ≤ n)) as [Hn|Hn].
  - rewrite decide_False by tauto. simpl. by rewrite <- IH.
  - rewrite decide_True by done. rewrite filter_none; [simpl; f_equal|]. { symmetry. apply filter_all. eapply Forall_impl; [exact Ha|]. simpl. lia. }
    eapply Forall_impl; [exact Ha|]. simpl. lia.
Qed.

(** C20: a timer interrupt on the boot processor fires exactly the callouts
    that have come, in the order of their times, and asks for a reschedule
    when the time slice is over. Each handler works on its own data and may
    put its callout back with a delay that ends after the present time (by
    hypothesis). A callout that was put back is kept and goes behind those due
    no later; of the others, the permanent ones are kept, on no queue, and the
    rest is freed. The callouts that have not come stay as they are. *)
Theorem com_sys_callout_run_fires s x :
  callouts_wf s → queues s !! BspCallout s = Some x →
  let now := u64 (queue_ns x + ARCH_TIMER_NS) in
  let dq := filter (λ d, (ns_of (entries s) d ≤ now)%Z) (queue x) in
  let waiting := filter (λ d, ¬ (ns_of (entries s) d ≤ now)%Z) (queue x) in
  (∀ h c o delay, again h c o = Some delay → now < u64 (now + delay)) →
  ∃ s', com_sys_callout_run call (S (length dq)) s (BspCallout s) = Ok (next_preempt x <=? now, s') ∧ callouts_wf s' ∧
    (∃ x', queues s' !! BspCallout s = Some x' ∧
      (entries s', queue x', outside s') = foldl (fire (BspCallout s) now) (entries s, waiting, outside s) dq) ∧
    (∀ d, d ∉ dq → entries s' !! d = entries s !! d) ∧
    (∀ q, q ≠ BspCallout s → queues s' !! q = queues s !! q).
Proof.
  intros H Hx now dq waiting Hlate. unfold com_sys_callout_run. rewrite Hx. cbn [deref mbind res_bind]. fold now. set (s1 := set_queue s _ _).
  assert (H1 : callouts_wf s1) by (by apply (wf_clock s _ x)).
  destruct (run_loop_fires dq waiting s1 (CalloutQueue now (next_preempt x) (queue x)) H1) as (s2 & Hs2 & H2 & Hb & Hfold).
  - unfold s1. simpl. by rewrite lookup_insert_eq.
  - simpl. apply sorted_split. by apply (co_sorted _ H (BspCallout s)).
  - apply Forall_forall. by intros d [? _]%list_elem_of_filter.
  - apply Forall_forall. by intros d [? _]%list_elem_of_filter.
  - exact Hlate.
  - change (BspCallout s1) with (BspCallout s) in *. change (entries s1) with (entries s) in *. change (outside s1) with (outside s) in *. cbn [queue_ns] in Hfold.
    pose proof (fire_all_others (BspCallout s) now dq (entries s, waiting, outside s)) as Hrest. cbn [fst] in Hrest.
    destruct (foldl _ _ dq) as [[M l] o]. destruct Hfold as (HM & Ho & Hq). unfold s1 in Hq. simpl in Hq. rewrite insert_insert_eq in Hq. rewrite Hs2. cbn [mbind res_bind].
    rewrite Hq, lookup_insert_eq. cbn [deref mbind res_bind with_list queue_ns next_preempt queue]. cbn [fst] in Hrest.
    set (x2 := CalloutQueue now (next_preempt x) l) in *. assert (Hx2 : queues s2 !! BspCallout s = Some x2) by (by rewrite Hq, lookup_insert_eq).
    destruct (next_preempt x <=? now).
    + eexists. split; [reflexivity|]. split; [by apply (wf_clock s2 _ x2)|]. split.
      * eexists. split; [simpl; by rewrite lookup_insert_eq|]. simpl. by rewrite HM, Ho.
      * simpl. rewrite HM, Hq. split; [done|]. intros q Hne. by rewrite !lookup_insert_ne by done.
    + exists s2. split; [done|]. split; [done|]. split; [exists x2; split; [done|]; by rewrite HM, Ho|].
      rewrite HM, Hq. split; [done|]. intros q Hne. by rewrite lookup_insert_ne by done.
Qed.
End own.
End run.

(** ** The callouts as a machine *)
Inductive callout_op : Type :=
  | CNew (a h ar n : Z)
  | CAdd (a h ar delay : Z)
  | CAddAt (a h ar n : Z)
  | CEnqueue (c : Z)
  | CSetAndEnqueue (c h delay : Z)
  | CReschedule (c delay : Z)
  | CRescheduleAt (c n : Z)
  | CCancel (c : Z)
  | CDestroy (c : Z).

Section machine.
Context {X : Type}.
Implicit Types (s : callouts X).

Definition callout_do s (o : callout_op) : res (callouts X) :=
  match o with
  | CNew a h ar n => Ok (com_sys_callout_new s a h ar n)
  | CAdd a h ar delay => com_sys_callout_add s a h ar delay
  | CAddAt a h ar n => com_sys_callout_add_at s a h ar n
  | CEnqueue c => com_sys_callout_enqueue s c
  | CSetAndEnqueue c h delay => com_sys_callout_set_and_enqueue s c h delay
  | CReschedule c delay => com_sys_callout_reschedule s c delay
  | CRescheduleAt c n => com_sys_callout_reschedule_at s c n
  | CCancel c => com_sys_callout_cancel s c
  | CDestroy c => com_sys_callout_destroy s c
  end.

(** New callouts come from the allocator, and what is put on a queue is on
    none. *)
Definition callout_op_ok s (o : callout_op) : Prop :=
  match o with
  | CNew a _ _ _ | CAdd a _ _ _ | CAddAt a _ _ _ => entries s !! a = None
  | CEnqueue c | CSetAndEnqueue c _ _ | CReschedule c _ | CRescheduleAt c _ => idle s c
  | CCancel c | CDestroy c => is_Some (entries s !! c)
  end.

Lemma enqueue_wf s q c e : callouts_wf s → cpu_callout e = None → idle s c ∨ entries s !! c = None → is_Some (queues s !! q) →
  ∃ s', enqueue_callout (set_entry s c e) q c = Ok s' ∧ callouts_wf s'.
Proof.
  intros H He Hc [x Hx]. pose proof (wf_set_idle s c e H Hc He) as H1.
  destruct (enqueue_spec (set_entry s c e) q c e x H1) as [-> ?]; try done; [simpl; by rewrite lookup_insert_eq|]. by eexists.
Qed.

(** every operation on callouts succeeds and leaves each queue ordered by time, without repetitions, holding exactly the callouts that
    name it as their queue. *)
Theorem callout_ops_keep_wf s o : callouts_wf s → callout_op_ok s o → ∃ s', callout_do s o = Ok s' ∧ callouts_wf s'.
Proof.
  intros H Ho. pose proof (co_bsp _ H) as Hb. destruct Hb as [x Hx]. pose proof (ex_intro _ x Hx : is_Some _) as Hb.
  destruct o as [a h ar n|a h ar n|a h ar n|c|c h n|c n|c n|c|c]; simpl in *.
  - eexists. split; [reflexivity|]. apply wf_set_idle; auto.
  - unfold com_sys_callout_add, callout_add. rewrite Hx. simpl. apply enqueue_wf; auto.
  - apply enqueue_wf; auto.
  - destruct Ho as (e & He & Hc). unfold com_sys_callout_enqueue. destruct (enqueue_spec s (BspCallout s) c e x H He Hc Hx) as [-> ?]. by eexists.
  - destruct Ho as (e & He & Hc). unfold com_sys_callout_set_and_enqueue. rewrite He. simpl. rewrite Hx. simpl. apply enqueue_wf; try done. left. by exists e.
  - destruct Ho as (e & He & Hc). unfold com_sys_callout_reschedule. rewrite Hx. simpl. rewrite He. simpl. apply enqueue_wf; try done. left. by exists e.
  - destruct Ho as (e & He & Hc). unfold com_sys_callout_reschedule_at. rewrite He. simpl. apply enqueue_wf; try done. left. by exists e.
  - destruct Ho as [e He]. destruct (cancel_spec s c e H He) as (s' & ? & ? & _). by exists s'.
  - destruct Ho as [e He]. unfold com_sys_callout_destroy. destruct (cancel_spec s c e H He) as (s' & -> & ? & ? & _). simpl. eexists. split; [reflexivity|]. by apply wf_free_idle.
Qed.

(** the place a new callout takes: behind those that are due no later, before the others. *)
Theorem com_sys_callout_add_order s a h ar delay x :
  callouts_wf s → entries s !! a = None → queues s !! BspCallout s = Some x →
  let n := u64 (queue_ns x + delay) in
  ∃ s', com_sys_callout_add s a h ar delay = Ok s' ∧ callouts_wf s' ∧
    queues s' = <[BspCallout s := with_list x (filter (λ d, ns_of (entries s) d ≤ n) (queue x) ++ a :: filter (λ d, ¬ ns_of (entries s) d ≤ n) (queue x))]> (queues s) ∧
    entries s' = <[a := CalloutEntry n h ar false false (Some (BspCallout s))]> (entries s).
Proof.
  intros H Ha Hx n. unfold com_sys_callout_add, callout_add. rewrite Hx. simpl. fold n. set (e := CalloutEntry n h ar false false None).
  pose proof (wf_set_idle s a e H (or_intror Ha) eq_refl) as H1. pose proof (idle_not_queued s a H (or_intror Ha) (BspCallout s) x Hx) as Hn.
  destruct (enqueue_spec (set_entry s a e) (BspCallout s) a e x H1) as [-> ?]; try done; [simpl; by rewrite lookup_insert_eq|].
  eexists. split; [reflexivity|]. split; [done|]. simpl. rewrite insert_insert_eq. split; [|done]. f_equal. f_equal.
  assert (He : ∀ d, d ∈ queue x → ns_of (<[a := e]> (entries s)) d = ns_of (entries s) d) by (intros d Hd; apply ns_of_insert; intros ->; done).
  f_equal; [|f_equal]; apply filter_ext_in; intros d Hd; by rewrite He.
Qed.
End machine.

(** ** Examples *)
Definition demo_callouts : callouts (list Z) :=
  Callouts (<[10 := CalloutEntry 500000 7 0 false false (Some 1)]> (<[11 := CalloutEntry 1000000 8 0 false true (Some 1)]>
    {[12 := CalloutEntry 9000000 9 0 false false (Some 1)]}))
    {[1 := CalloutQueue 0 16000000 [10; 11; 12]]} 1 [].

Definition demo_call (h c : Z) (s : callouts (list Z)) : res (callouts (list Z)) := Ok (set_outside s (outside s ++ [h])).

(** One processor claims a callout in order to cancel it; before it removes
    it from the queue, the timer interrupt of the boot processor fires it. *)
Theorem cancel_race :
  ∃ s1 s2, cancel_claim demo_callouts 10 = Ok (Some 1, s1) ∧ com_sys_callout_run demo_call 10 s1 1 = Ok (false, s2) ∧
    outside s2 = [7; 8] ∧ cancel_remove s2 1 10 = Fault.
Proof. eexists _, _. split; [vm_compute; reflexivity|]. split; [vm_compute; reflexivity|]. split; vm_compute; reflexivity. Qed.

(** A delay near the top of the range wraps around: the callout fires with the
    next interrupt. *)
Theorem callout_delay_wraps :
  ∃ s1 s2, com_sys_callout_run demo_call 10 demo_callouts 1 = Ok (false, s1) ∧
    com_sys_callout_add s1 13 5 0 (2 ^ 64 - 1) = Ok s2 ∧ (λ x, hd 0 (queue x)) <$> queues s2 !! 1 = Some 13 ∧
    (outside ∘ snd) <$> (match com_sys_callout_run demo_call 10 s2 1 with Ok r => Some r | _ => None end) = Some [7; 8; 5].
Proof. eexists _, _. split; [vm_compute; reflexivity|]. split; [vm_compute; reflexivity|]. split; vm_compute; reflexivity. Qed.

Ltac demo_case H := repeat (apply lookup_insert_Some in H as [[<- <-]|[? H]] || apply lookup_singleton_Some in H as [<- <-] || (by rewrite lookup_empty in H)).

Lemma demo_callouts_wf : callouts_wf demo_callouts.
Proof.
  split; intros *.
  - intros Hx Hc. simpl in *. demo_case Hx. simpl in Hc. repeat (apply elem_of_cons in Hc as [->|Hc]; [by eexists|]). by apply not_elem_of_nil in Hc.
  - intros He Hc. simpl in *. demo_case He; injection Hc as <-; eexists; (split; [reflexivity|]); simpl; rewrite !elem_of_cons; auto.
  - intros Hx. simpl in Hx. demo_case Hx. simpl. repeat (apply NoDup_cons; split; [rewrite ?not_elem_of_cons; split_and?; try done; apply not_elem_of_nil|]). constructor.
  - intros Hx. simpl in Hx. demo_case Hx. repeat constructor; vm_compute; discriminate.
  - by eexists.
Qed.

(** A handler that puts its callout back every two milliseconds, among others
    that do not. *)
Definition demo_again (h c : Z) (o : list Z) : option Z := if h =? 7 then Some 2000000 else None.
Definition demo_periodic (h c : Z) (s : callouts (list Z)) : res (callouts (list Z)) :=
  let s := set_outside s (outside s ++ [h]) in
  if h =? 7 then com_sys_callout_reschedule s c 2000000 else Ok s.

Lemma demo_periodic_own h c (s : callouts (list Z)) : demo_periodic h c s =
  let s := set_outside s (outside s ++ [h]) in
  match demo_again h c (outside s) with Some delay => com_sys_callout_reschedule s c delay | None => Ok s end.
Proof. unfold demo_periodic, demo_again. by destruct (h =? 7). Qed.

Lemma demo_call_ok : handlers_ok demo_call.
Proof.
  intros h c s H (e & He & Hc). eexists _, e. split; [reflexivity|]. split_and!; try done. by destruct H; split.
Qed.

Theorem com_sys_callout_run_fires_witness :
  ∃ s', com_sys_callout_run demo_periodic 3 demo_callouts 1 = Ok (false, s') ∧ outside s' = [7; 8] ∧
    queue <$> queues s' !! 1 = Some [10; 12] ∧ entries s' !! 10 = Some (CalloutEntry 3000000 7 0 true false (Some 1)).
Proof.
  destruct (com_sys_callout_run_fires demo_periodic (λ h _ o, o ++ [h]) demo_again demo_periodic_own demo_callouts (CalloutQueue 0 16000000 [10; 11; 12]) demo_callouts_wf eq_refl)
    as (s' & Hs' & _ & (x' & Hx' & Hf) & _).
  - intros h c o delay. unfold demo_again. destruct (h =? 7); [|done]. intros [= <-]. vm_compute. reflexivity.
  - exists s'. split; [exact Hs'|]. change (BspCallout demo_callouts) with 1 in *. rewrite Hx'. injection Hf as He Hq Ho. cbn [fmap option_fmap option_map]. rewrite He, Hq, Ho. vm_compute. done.
Defined.

Theorem com_sys_callout_run_returns_witness :
  ∃ resched s', com_sys_callout_run demo_call 4 demo_callouts 1 = Ok (resched, s') ∧ callouts_wf s' ∧ due s' = 0%nat.
Proof.
  apply (com_sys_callout_run_returns demo_call 4 demo_callouts (CalloutQueue 0 16000000 [10; 11; 12]) demo_call_ok demo_callouts_wf eq_refl).
  vm_compute. repeat constructor.
Defined.

Theorem callout_ops_keep_wf_witness : ∃ s', callout_do demo_callouts (CCancel 11) = Ok s' ∧ callouts_wf s'.
Proof. apply (callout_ops_keep_wf demo_callouts (CCancel 11) demo_callouts_wf). by eexists. Defined.

Theorem com_sys_callout_add_order_witness :
  ∃ s', com_sys_callout_add demo_callouts 13 5 0 1000000 = Ok s' ∧ queue <$> queues s' !! 1 = Some [10; 11; 13; 12].
Proof.
  destruct (com_sys_callout_add_order demo_callouts 13 5 0 1000000 (CalloutQueue 0 16000000 [10; 11; 12]) demo_callouts_wf eq_refl eq_refl)
    as (s' & Hs' & _ & Hq & _). exists s'. split; [exact Hs'|]. rewrite Hq. reflexivity.
Defined.
