(* ===== verification/Fdtable.v ===== *)
(** * Open files: the descriptor tables of src/com/sys/proc.c, the files of
    src/include/kernel/com/fs/file.h and the system calls on descriptors

    A process has a table of CONFIG_OPEN_MAX descriptors; files are counted
    objects shared by descriptors of several processes. The functions here run
    under the lock of the table. A vnode given up is recorded in [released];
    what that does is in [Vfs]. The entry behind the last of a table belongs
    to another field, so the model stops there with [Fault]. *)
From S2P Require Import Prelude.

Definition CONFIG_OPEN_MAX : Z := 96.

(** ** Data *)
Record com_file : Type := File {
  off : Z;
  file_flags : Z;
  num_ref : Z;
  vnode : option Z }.

Record com_filedesc : Type := Filedesc {
  file : option Z;
  flags : Z }.

(** The part of [com_proc_t] that concerns files. *)
Record fdtable : Type := Fdtable {
  next_fd : Z;
  max_fd : Z;
  fds : list com_filedesc }.

Record fdstate : Type := Fdstate {
  files : gmap Z com_file;
  tables : list fdtable;
  released : list Z }.

Definition free_fd : com_filedesc := Filedesc None 0.
Definition fd_at (t : fdtable) (fd : Z) : option com_filedesc := fds t !! Z.to_nat fd.
Definition set_fd (t : fdtable) (fd : Z) (d : com_filedesc) : fdtable := Fdtable (next_fd t) (max_fd t) (<[Z.to_nat fd := d]> (fds t)).
Definition set_hint (t : fdtable) (n : Z) : fdtable := Fdtable n (max_fd t) (fds t).
Definition set_file (s : fdstate) (f : Z) (x : com_file) : fdstate := Fdstate (<[f := x]> (files s)) (tables s) (released s).
Definition set_table (s : fdstate) (p : nat) (t : fdtable) : fdstate := Fdstate (files s) (<[p := t]> (tables s)) (released s).
Definition with_ref (x : com_file) (n : Z) : com_file := File (off x) (file_flags x) n (vnode x).

(** ** src/include/kernel/com/fs/file.h *)
Definition COM_FS_FILE_HOLD (s : fdstate) (f : option Z) : res fdstate :=
  match f with
  | None => Ok s
  | Some f => x ← deref (files s !! f); Ok (set_file s f (with_ref x (u64 (num_ref x + 1))))
  end.

Definition COM_FS_FILE_RELEASE (s : fdstate) (f : option Z) : res fdstate :=
  match f with
  | None => Ok s
  | Some f =>
      x ← deref (files s !! f);
      match vnode x with
      | None => Ok s
      | Some v =>
          let n := u64 (num_ref x - 1) in
          if n =? 0 then Ok (Fdstate (delete f (files s)) (tables s) (released s ++ [v]))
          else Ok (set_file s f (with_ref x n))
      end
  end.

(** ** src/com/sys/proc.c *)
(** The loops of [proc_update_fd_hint]: the first free descriptor from [i] on,
    or the end of the table. *)
Fixpoint find_free (n : nat) (t : fdtable) (i : Z) : Z :=
  match n with
  | O => i
  | S n =>
      if i <? CONFIG_OPEN_MAX then
        match fd_at t i with
        | Some d => if bool_decide (file d = None) then i else find_free n t (i + 1)
        | None => i
        end
      else i
  end.

Definition proc_update_fd_hint (t : fdtable) : fdtable :=
  let n := find_free (Z.to_nat CONFIG_OPEN_MAX) t (next_fd t) in
  let n := if n <? CONFIG_OPEN_MAX then n else find_free (Z.to_nat CONFIG_OPEN_MAX) t 0 in
  Fdtable n (KMAX (max_fd t) n) (fds t).

Definition com_sys_proc_next_fd (t : fdtable) : Z * fdtable :=
  let ret := next_fd t in
  let t := proc_update_fd_hint (set_hint t (next_fd t + 1)) in
  (if CONFIG_OPEN_MAX <=? ret then -1 else ret, t).

(** The bounds test of the functions that take a descriptor. *)
Definition fd_valid (fd : Z) : bool := negb ((CONFIG_OPEN_MAX <? fd) || (fd <? 0)).

(** [None] is the null pointer; otherwise the descriptor is there to change. *)
Definition com_sys_proc_get_fildesc_nolock (t : fdtable) (fd : Z) : res (option com_filedesc) :=
  if fd_valid fd then d ← deref (fd_at t fd); Ok (Some d) else Ok None.

Definition com_sys_proc_get_file_nolock (s : fdstate) (p : nat) (fd : Z) : res (option Z * fdstate) :=
  t ← deref (tables s !! p);
  if fd_valid fd then
    d ← deref (fd_at t fd);
    s ← COM_FS_FILE_HOLD s (file d);
    Ok (file d, s)
  else Ok (None, s).

(** The loop of [com_sys_proc_duplicate_file_nolock]; [None] is [EMFILE]. *)
Fixpoint dup_slot (n : nat) (t : fdtable) (new_fd : Z) : res (option Z) :=
  match n with
  | O => Fuel
  | S n =>
      d ← deref (fd_at t new_fd);
      if bool_decide (file d = None) then Ok (Some new_fd)
      else if CONFIG_OPEN_MAX <=? new_fd then Ok None
      else dup_slot n t (new_fd + 1)
  end.

Definition com_sys_proc_duplicate_file_nolock (s : fdstate) (p : nat) (new_fd old_fd : Z) : res ((errno + Z) * fdstate) :=
  t ← deref (tables s !! p);
  if negb (fd_valid old_fd && fd_valid new_fd) then Ok (inl EINVAL, s)
  else
    slot ← dup_slot 98 t new_fd;
    match slot with
    | None => Ok (inl EMFILE, s)
    | Some new_fd =>
        d ← deref (fd_at t old_fd);
        let t := proc_update_fd_hint (set_fd t new_fd (Filedesc (file d) 0)) in
        s ← COM_FS_FILE_HOLD (set_table s p t) (file d);
        Ok (inr new_fd, s)
    end.

(** The file is returned for the caller to release. *)
Definition com_sys_proc_close_file_nolock (t : fdtable) (fd : Z) : res (errno * option Z * fdtable) :=
  if negb (fd_valid fd) then Ok (EBADF, None, t)
  else
    d ← deref (fd_at t fd);
    match file d with
    | None => Ok (EBADF, None, t)
    | Some f =>
        let t := set_fd t fd free_fd in
        Ok (E0, Some f, if fd <? next_fd t then set_hint t fd else t)
    end.

Definition com_sys_proc_close_file (s : fdstate) (p : nat) (fd : Z) : res (errno * fdstate) :=
  t ← deref (tables s !! p);
  '(ret, f, t) ← com_sys_proc_close_file_nolock t fd;
  s ← COM_FS_FILE_RELEASE (set_table s p t) f;
  Ok (ret, s).

(** The loop of [com_sys_proc_exit], over the descriptors below [max_fd]. *)
Fixpoint close_all (s : fdstate) (l : list com_filedesc) : res fdstate :=
  match l with
  | [] => Ok s
  | d :: l => s ← COM_FS_FILE_RELEASE s (file d); close_all s l
  end.

Definition com_sys_proc_exit_files (s : fdstate) (p : nat) : res fdstate :=
  t ← deref (tables s !! p);
  close_all s (take (Z.to_nat (max_fd t)) (fds t)).

(** ** The system calls, src/com/sys/syscall/ *)
Record com_syscall_ret : Type := Ret { value : Z; err : errno }.
Definition COM_SYS_SYSCALL_OK (v : Z) : com_syscall_ret := Ret v E0.
Definition COM_SYS_SYSCALL_ERR (e : errno) : com_syscall_ret := Ret (-1) e.

Definition com_sys_syscall_close (s : fdstate) (p : nat) (fd : Z) : res (com_syscall_ret * fdstate) :=
  '(e, s) ← com_sys_proc_close_file s p fd;
  Ok (if bool_decide (e = E0) then COM_SYS_SYSCALL_OK 0 else COM_SYS_SYSCALL_ERR e, s).

Definition com_sys_syscall_dup3 (s : fdstate) (p : nat) (old_fd new_fd : Z) : res (com_syscall_ret * fdstate) :=
  t ← deref (tables s !! p);
  '(_, f, t) ← com_sys_proc_close_file_nolock t new_fd;
  '(dup_ret, s) ← com_sys_proc_duplicate_file_nolock (set_table s p t) p new_fd old_fd;
  s ← COM_FS_FILE_RELEASE s f;
  Ok (match dup_ret with inl e => COM_SYS_SYSCALL_ERR e | inr _ => Ret 0 E0 end, s).

Inductive fcntl_op : Type :=
  | F_GETFL | F_GETFD | F_SETFL | F_SETFD | F_DUPFD | F_DUPFD_CLOEXEC | F_GETPIPE_SZ | F_OTHER.
#[export] Instance fcntl_op_eq_dec : EqDecision fcntl_op.
Proof. solve_decision. Defined.

(** [cloexec] is FD_CLOEXEC. *)
Definition fcntl_dup (cloexec : Z) (s : fdstate) (p : nat) (fd : Z) (op : fcntl_op) (arg1 : Z) : res (com_syscall_ret * fdstate) :=
  '(new_fd, s) ← com_sys_proc_duplicate_file_nolock s p arg1 fd;
  match new_fd with
  | inl e => Ok (COM_SYS_SYSCALL_ERR e, s)
  | inr new_fd =>
      s ← (if bool_decide (op = F_DUPFD_CLOEXEC) then
             t ← deref (tables s !! p);
             d ← com_sys_proc_get_fildesc_nolock t new_fd;
             d ← deref d;
             Ok (set_table s p (set_fd t new_fd (Filedesc (file d) (Z.lor (flags d) cloexec))))
           else Ok s);
      Ok (COM_SYS_SYSCALL_OK new_fd, s)
  end.

Definition com_sys_syscall_fcntl (cloexec : Z) (s : fdstate) (p : nat) (fd : Z) (op : fcntl_op) (arg1 : Z) : res (com_syscall_ret * fdstate) :=
  t ← deref (tables s !! p);
  fildes ← com_sys_proc_get_fildesc_nolock t fd;
  '(f, s) ← com_sys_proc_get_file_nolock s p fd;
  '(ret, s) ← match f, fildes with
              | Some fl, Some d =>
                  match op with
                  | F_GETFL => x ← deref (files s !! fl); Ok (Ret (file_flags x) E0, s)
                  | F_GETFD => Ok (Ret (flags d) E0, s)
                  | F_SETFL => x ← deref (files s !! fl); Ok (Ret 0 E0, set_file s fl (File (off x) (u64 arg1) (num_ref x) (vnode x)))
                  | F_SETFD => Ok (Ret 0 E0, set_table s p (set_fd t fd (Filedesc (file d) (u64 arg1))))
                  | F_DUPFD | F_DUPFD_CLOEXEC => fcntl_dup cloexec s p fd op arg1
                  | F_GETPIPE_SZ => Ok (COM_SYS_SYSCALL_OK ARCH_PAGE_SIZE, s)
                  | F_OTHER => Ok (COM_SYS_SYSCALL_ERR ENOSYS, s)
                  end
              | _, _ => Ok (COM_SYS_SYSCALL_ERR EBADF, s)
              end;
  s ← COM_FS_FILE_RELEASE s f;
  Ok (ret, s).

(** [openat] from the point where the vnode has been opened; [a] is the
    address the allocator gives the file. *)
Definition openat_install (s : fdstate) (p : nat) (a vn fl : Z) : res (com_syscall_ret * fdstate) :=
  t ← deref (tables s !! p);
  let '(fd, t) := com_sys_proc_next_fd t in
  if fd =? -1 then Ok (Ret (-1) EMFILE, set_table s p t)
  else
    d ← deref (fd_at t fd);
    let t := set_fd t fd (Filedesc (Some a) (flags d)) in
    Ok (Ret fd E0, set_file (set_table s p t) a (File 0 fl 1 (Some vn))).

(** [com_fs_pipefs_new] gives the vnodes [rv] and [wv], the allocator [ra] and
    [wa]. *)
Definition com_sys_syscall_pipe (s : fdstate) (p : nat) (ra wa rv wv : Z) : res (com_syscall_ret * (Z * Z) * fdstate) :=
  t ← deref (tables s !! p);
  let '(rfd, t) := com_sys_proc_next_fd t in
  let '(wfd, t) := com_sys_proc_next_fd t in
  if (rfd =? -1) || (wfd =? -1) then Ok (COM_SYS_SYSCALL_ERR EMFILE, (0, 0), set_table s p t)
  else
    r ← deref (fd_at t rfd);
    let t := set_fd t rfd (Filedesc (Some ra) (flags r)) in
    w ← deref (fd_at t wfd);
    let t := set_fd t wfd (Filedesc (Some wa) (flags w)) in
    let s := set_file (set_file s ra (File 0 0 1 (Some rv))) wa (File 0 0 1 (Some wv)) in
    Ok (COM_SYS_SYSCALL_OK 0, (rfd, wfd), set_table s p t).

(** [lseek]; [size] is what [com_fs_vfs_stat] says of the vnode. *)
Inductive seek_whence : Type := SEEK_SET | SEEK_CUR | SEEK_END | SEEK_OTHER.

Definition com_sys_syscall_seek (size : Z → errno + Z) (s : fdstate) (p : nat) (fd offset : Z) (whence : seek_whence) : res (com_syscall_ret * fdstate) :=
  '(f, s) ← com_sys_proc_get_file_nolock s p fd;
  match f with
  | None => Ok (COM_SYS_SYSCALL_ERR EBADF, s)
  | Some fl =>
      x ← deref (files s !! fl);
      new_off ← match whence with
                | SEEK_SET => Ok (inr offset)
                | SEEK_CUR => Ok (inr (off x + offset))
                | SEEK_END =>
                    v ← deref (vnode x);
                    Ok (match size v with inl e => inl e | inr n => inr (n + offset) end)
                | SEEK_OTHER => Ok (inr (off x))
                end;
      let '(ret, s) := match new_off with
                       | inl e => (Ret 0 e, s)
                       | inr n => (Ret (u64 n) E0, set_file s fl (File (u64 n) (file_flags x) (num_ref x) (vnode x)))
                       end in
      s ← COM_FS_FILE_RELEASE s f;
      Ok (ret, s)
  end.

(** The loop of [fork] over the descriptors below [max_fd] of the parent. *)
Fixpoint fork_loop (s : fdstate) (src dst : list com_filedesc) : res (fdstate * list com_filedesc) :=
  match src, dst with
  | d :: src, c :: dst =>
      match file d with
      | Some f =>
          s ← COM_FS_FILE_HOLD s (Some f);
          '(s, dst) ← fork_loop s src dst;
          Ok (s, Filedesc (Some f) (flags d) :: dst)
      | None => '(s, dst) ← fork_loop s src dst; Ok (s, c :: dst)
      end
  | [], dst => Ok (s, dst)
  | _ :: _, [] => Fault
  end.

(** The new process starts with an empty table ([com_sys_proc_new]). *)
Definition empty_table : fdtable := Fdtable 0 0 (replicate (Z.to_nat CONFIG_OPEN_MAX) free_fd).

Definition com_sys_syscall_fork (s : fdstate) (p : nat) : res fdstate :=
  t ← deref (tables s !! p);
  '(s, l) ← fork_loop s (take (Z.to_nat (max_fd t)) (fds t)) (fds empty_table);
  Ok (Fdstate (files s) (tables s ++ [Fdtable (next_fd t) (max_fd empty_table) l]) (released s)).

(** The part of [execve] that concerns files: [cl_fd] is FD_CLOEXEC and
    [cl_file] O_CLOEXEC. *)
Fixpoint execve_loop (cl_fd cl_file : Z) (s : fdstate) (n : nat) (l : list com_filedesc) : res (fdstate * list com_filedesc) :=
  match n, l with
  | O, _ => Ok (s, l)
  | S _, [] => Fault
  | S n, d :: l =>
      close ← match file d with
              | None => Ok false
              | Some f =>
                  if negb (Z.land cl_fd (flags d) =? 0) then Ok true
                  else x ← deref (files s !! f); Ok (negb (Z.land cl_file (file_flags x) =? 0))
              end;
      s ← (if close : bool then COM_FS_FILE_RELEASE s (file d) else Ok s);
      '(s, l) ← execve_loop cl_fd cl_file s n l;
      Ok (s, (if close : bool then free_fd else d) :: l)
  end.

Definition execve_files (cl_fd cl_file : Z) (s : fdstate) (p : nat) : res fdstate :=
  t ← deref (tables s !! p);
  '(s, l) ← execve_loop cl_fd cl_file s (Z.to_nat (max_fd t)) (fds t);
  Ok (set_table s p (Fdtable (next_fd t) (max_fd t) l)).

(** ** References *)
Definition nrefs (f : Z) (l : list com_filedesc) : nat := length (filter (λ d, file d = Some f) l).
Definition total (f : Z) (ts : list fdtable) : nat := sum_list ((λ t, nrefs f (fds t)) <$> ts).
Definition held (f : Z) (ex : list Z) : nat := length (filter (λ g, g = f) ex).
Definition olist (o : option Z) : list Z := match o with Some f => [f] | None => [] end.

(** Every file is counted exactly: once for each descriptor that names it, and
    once for each pointer of [ex], held by a function that is running. *)
Record refs_ok (ex : list Z) (s : fdstate) : Prop := {
  ro_len t : t ∈ tables s → length (fds t) = Z.to_nat CONFIG_OPEN_MAX;
  ro_file f x : files s !! f = Some x → num_ref x = Z.of_nat (total f (tables s) + held f ex) ∧ 0 < num_ref x ∧ is_Some (vnode x);
  ro_named t d f : t ∈ tables s → d ∈ fds t → file d = Some f → is_Some (files s !! f);
  ro_held f : f ∈ ex → is_Some (files s !! f);
  ro_bound : Z.of_nat (96 * length (tables s) + length ex) < 2 ^ 64 - 1 }.

Lemma nrefs_cons f d l : nrefs f (d :: l) = ((if bool_decide (file d = Some f) then 1 else 0) + nrefs f l)%nat.
Proof. unfold nrefs. rewrite filter_cons. case_decide; [by rewrite bool_decide_eq_true_2|by rewrite bool_decide_eq_false_2]. Qed.

Lemma held_cons f g ex : held f (g :: ex) = ((if bool_decide (g = f) then 1 else 0) + held f ex)%nat.
Proof. unfold held. rewrite filter_cons. case_decide; [by rewrite bool_decide_eq_true_2|by rewrite bool_decide_eq_false_2]. Qed.

Lemma held_olist f o ex : held f (olist o ++ ex) = ((if bool_decide (o = Some f) then 1 else 0) + held f ex)%nat.
Proof.
  destruct o as [g|]; simpl; [|done]. rewrite held_cons. f_equal. destruct (decide (g = f)) as [->|Hne].
  - by rewrite !bool_decide_eq_true_2. - rewrite !bool_decide_eq_false_2; congruence.
Qed.

Lemma nrefs_insert f l i d d' : l !! i = Some d →
  (nrefs f (<[i := d']> l) + (if bool_decide (file d = Some f) then 1 else 0) = nrefs f l + (if bool_decide (file d' = Some f) then 1 else 0))%nat.
Proof.
  revert i. induction l as [|c l IH]; intros [|i] Hi; simpl in *; try done.
  - injection Hi as ->. rewrite !nrefs_cons. lia.
  - rewrite !nrefs_cons. specialize (IH i Hi). lia.
Qed.

Lemma total_cons f t ts : total f (t :: ts) = (nrefs f (fds t) + total f ts)%nat.
Proof. done. Qed.

Lemma total_insert f ts p t t' : ts !! p = Some t → (total f (<[p := t']> ts) + nrefs f (fds t) = total f ts + nrefs f (fds t'))%nat.
Proof.
  revert p. induction ts as [|c ts IH]; intros [|p] Hp; simpl in *; try done.
  - injection Hp as ->. rewrite !total_cons. lia.
  - specialize (IH p Hp). rewrite !total_cons. lia.
Qed.

Lemma nrefs_le f l : (nrefs f l ≤ length l)%nat.
Proof. apply length_filter. Qed.

Lemma total_le f ts : (∀ t, t ∈ ts → length (fds t) = Z.to_nat CONFIG_OPEN_MAX) → (total f ts ≤ 96 * length ts)%nat.
Proof.
  induction ts as [|t ts IH]; intros Hl; [done|]. rewrite total_cons. simpl length. pose proof (nrefs_le f (fds t)) as Hn.
  rewrite (Hl t) in Hn by (by left). specialize (IH (λ u Hu, Hl u (list_elem_of_further _ _ _ Hu))). change (Z.to_nat CONFIG_OPEN_MAX) with 96%nat in Hn. lia.
Qed.

Lemma held_le f ex : (held f ex ≤ length ex)%nat.
Proof. apply length_filter. Qed.

Lemma held_0 f ex : f ∉ ex → held f ex = 0%nat.
Proof. intros Hf. unfold held. rewrite filter_none; [done|]. apply Forall_forall. intros g Hg ->. done. Qed.

Lemma nrefs_pos f l : (0 < nrefs f l)%nat ↔ ∃ d, d ∈ l ∧ file d = Some f.
Proof.
  unfold nrefs. split.
  - intros Hn. destruct (filter _ l) as [|d k] eqn:Hf; [simpl in Hn; lia|]. assert (Hd : d ∈ filter (λ d, file d = Some f) l) by (rewrite Hf; by left).
    apply list_elem_of_filter in Hd as [? ?]. by exists d.
  - intros (d & Hd & Hf). assert (Hin : d ∈ filter (λ d, file d = Some f) l) by (by apply list_elem_of_filter). destruct (filter _ l); [by apply not_elem_of_nil in Hin|simpl; lia].
Qed.

Lemma total_pos f ts : (0 < total f ts)%nat ↔ ∃ t d, t ∈ ts ∧ d ∈ fds t ∧ file d = Some f.
Proof.
  induction ts as [|t ts IH]; [split; [unfold total; simpl; lia|by intros (? & ? & ?%not_elem_of_nil & _)]|]. rewrite total_cons. split.
  - intros Hn. destruct (decide (0 < nrefs f (fds t))%nat) as [Hp|Hp].
    + apply nrefs_pos in Hp as (d & Hd & Hf). exists t, d. split; [by left|done].
    + destruct (proj1 IH) as (u & d & Hu & Hd); [lia|]. exists u, d. split; [by right|done].
  - intros (u & d & [->|Hu]%elem_of_cons & Hd & Hf).
    + assert (0 < nrefs f (fds t))%nat by (apply nrefs_pos; by exists d). lia.
    + assert (0 < total f ts)%nat by (apply IH; by exists u, d). lia.
Qed.

(** What a change of one file does to the invariant. *)
Lemma file_hold_ok ex s f : refs_ok ex s → is_Some (files s !! f) → Z.of_nat (96 * length (tables s) + length ex + 1) < 2 ^ 64 - 1 →
  ∃ x, files s !! f = Some x ∧ COM_FS_FILE_HOLD s (Some f) = Ok (set_file s f (with_ref x (num_ref x + 1))) ∧
  refs_ok (f :: ex) (set_file s f (with_ref x (num_ref x + 1))).
Proof.
  intros H [x Hx] Hb. exists x. split; [done|]. destruct (ro_file _ _ H f x Hx) as (Hn & Hp & Hv).
  pose proof (total_le f (tables s) (ro_len _ _ H)) as Ht. pose proof (held_le f ex) as Hh. split.
  - simpl. rewrite Hx. simpl. do 3 f_equal. apply wrap_small. lia.
  - split; simpl; try apply H.
    + intros g y Hy. rewrite held_cons. apply lookup_insert_Some in Hy as [[<- <-]|[Hne Hy]].
      * rewrite bool_decide_eq_true_2 by done. simpl. split; [lia|]. split; [lia|done].
      * rewrite bool_decide_eq_false_2 by done. by apply (ro_file _ _ H).
    + intros t d g Ht' Hd Hg. destruct (decide (g = f)) as [->|]; [rewrite lookup_insert_eq; by eexists|]. rewrite lookup_insert_ne by done. by apply (ro_named _ _ H t d).
    + intros g Hg. destruct (decide (g = f)) as [->|]; [rewrite lookup_insert_eq; by eexists|]. rewrite lookup_insert_ne by done.
      apply (ro_held _ _ H). by apply elem_of_cons in Hg as [?|?].
    + lia.
Qed.

Lemma release_ok ex s f : refs_ok (f :: ex) s → ∃ s', COM_FS_FILE_RELEASE s (Some f) = Ok s' ∧ refs_ok ex s' ∧ tables s' = tables s ∧
  (∀ g x, g ≠ f → files s' !! g = Some x ↔ files s !! g = Some x) ∧
  (files s' !! f = None ↔ total f (tables s) = 0%nat ∧ held f ex = 0%nat) ∧
  (∀ v, vnode <$> files s !! f = Some (Some v) → released s' = released s ++ (if bool_decide (total f (tables s) = 0 ∧ held f ex = 0)%nat then [v] else [])).
Proof.
  intros H. destruct (ro_held _ _ H f) as [x Hx]; [by left|]. destruct (ro_file _ _ H f x Hx) as (Hn & Hp & [v Hv]).
  rewrite held_cons, bool_decide_eq_true_2 in Hn by done. pose proof (total_le f (tables s) (ro_len _ _ H)) as Ht.
  pose proof (held_le f ex) as Hh. pose proof (ro_bound _ _ H) as Hb. simpl length in Hb.
  simpl. rewrite Hx. simpl. rewrite Hv. assert (Hu : u64 (num_ref x - 1) = Z.of_nat (total f (tables s) + held f ex)) by (rewrite wrap_small; lia). rewrite Hu.
  destruct (Z.eqb_spec (Z.of_nat (total f (tables s) + held f ex)) 0) as [Hz|Hz].
  - eexists. split; [reflexivity|]. split; [split; simpl; try apply H|split_and!; simpl].
    + intros g y [Hne Hy]%lookup_delete_Some. destruct (ro_file _ _ H g y Hy) as (Hg & ? & ?). by rewrite held_cons, bool_decide_eq_false_2 in Hg.
    + intros t d g Ht' Hd Hg. assert (g ≠ f). { intros ->. assert (0 < total f (tables s))%nat by (apply total_pos; by exists t, d). lia. }
      rewrite lookup_delete_ne by done. by apply (ro_named _ _ H t d).
    + intros g Hg. assert (g ≠ f). { intros ->. assert (Hin : f ∈ filter (λ g, g = f) ex) by (by apply list_elem_of_filter).
      unfold held in Hz. destruct (filter _ ex); [by apply not_elem_of_nil in Hin|simpl in Hz; lia]. }
      rewrite lookup_delete_ne by done. apply (ro_held _ _ H). by right.
    + lia.
    + done.
    + intros g y Hg. by rewrite lookup_delete_ne.
    + rewrite lookup_delete_eq. split; [lia|done].
    + intros w Hw. simpl in Hw. rewrite bool_decide_eq_true_2 by lia. congruence.
  - eexists. split; [reflexivity|]. split; [split; simpl; try apply H|split_and!; simpl].
    + intros g y [[<- <-]|[Hne Hy]]%lookup_insert_Some; [simpl; split; [done|]; split; [lia|by exists v]|].
      destruct (ro_file _ _ H g y Hy) as (Hg & ? & ?). by rewrite held_cons, bool_decide_eq_false_2 in Hg.
    + intros t d g Ht' Hd Hg. destruct (decide (g = f)) as [->|]; [rewrite lookup_insert_eq; by eexists|]. rewrite lookup_insert_ne by done. by apply (ro_named _ _ H t d).
    + intros g Hg. destruct (decide (g = f)) as [->|]; [rewrite lookup_insert_eq; by eexists|]. rewrite lookup_insert_ne by done. apply (ro_held _ _ H). by right.
    + lia.
    + done.
    + intros g y Hg. by rewrite lookup_insert_ne.
    + rewrite lookup_insert_eq. split; [done|lia].
    + intros w Hw. rewrite bool_decide_eq_false_2 by lia. by rewrite app_nil_r.
Qed.

(** A descriptor of a table takes over a pointer held, and its old one is held
    from then on. *)
Lemma exchange_ok ex s p t i d d' t' : refs_ok (olist (file d') ++ ex) s → tables s !! p = Some t → fds t !! i = Some d →
  fds t' = <[i := d']> (fds t) → Z.of_nat (96 * length (tables s) + length ex + 1) < 2 ^ 64 - 1 →
  refs_ok (olist (file d) ++ ex) (set_table s p t').
Proof.
  intros H Hp Hi Hf Hb. assert (Hlt : (p < length (tables s))%nat) by (by eapply lookup_lt_Some).
  assert (Htin : t ∈ tables s) by (by eapply list_elem_of_lookup_2). assert (Hdin : d ∈ fds t) by (by eapply list_elem_of_lookup_2).
  assert (Hin : ∀ u e, u ∈ <[p := t']> (tables s) → e ∈ fds u → e = d' ∨ ∃ u0, u0 ∈ tables s ∧ e ∈ fds u0).
  { intros u e Hu He. apply list_elem_of_lookup in Hu as [q Hq]. destruct (decide (p = q)) as [<-|Hne].
    - rewrite list_lookup_insert_eq in Hq by done. injection Hq as <-. rewrite Hf in He. apply list_elem_of_lookup in He as [j Hj].
      apply list_lookup_insert_Some in Hj as [(_ & -> & _)|[_ Hj]]; [by left|right]. exists t. split; [done|]. by eapply list_elem_of_lookup_2.
    - rewrite list_lookup_insert_ne in Hq by done. right. exists u. split; [by eapply list_elem_of_lookup_2|done]. }
  split; simpl.
  - intros u Hu. apply list_elem_of_lookup in Hu as [q Hq]. apply list_lookup_insert_Some in Hq as [(_ & -> & _)|[_ Hq]];
      [rewrite Hf, length_insert|]; apply (ro_len _ _ H); [done|by eapply list_elem_of_lookup_2].
  - intros f x Hx. destruct (ro_file _ _ H f x Hx) as (Hn & ? & ?). split; [|done]. rewrite held_olist in *.
    pose proof (total_insert f (tables s) p t t' Hp) as Ht. pose proof (nrefs_insert f (fds t) i d d' Hi) as Hr. rewrite <- Hf in Hr. lia.
  - intros u e f Hu He Hf'. destruct (Hin u e Hu He) as [->|(u0 & Hu0 & He0)]; [|by apply (ro_named _ _ H u0 e)]. apply (ro_held _ _ H). rewrite Hf'. by left.
  - intros f Hf'. apply elem_of_app in Hf' as [Hf'|Hf']; [|apply (ro_held _ _ H), elem_of_app; by right].
    destruct (file d) as [g|] eqn:Hd; [|by apply not_elem_of_nil in Hf']. apply list_elem_of_singleton in Hf' as ->. by apply (ro_named _ _ H t d).
  - rewrite length_insert, length_app. destruct (file d); simpl; lia.
Qed.

(** A new file. *)
Lemma alloc_ok ex s a x : refs_ok ex s → files s !! a = None → num_ref x = 1 → is_Some (vnode x) → Z.of_nat (96 * length (tables s) + length ex + 1) < 2 ^ 64 - 1 →
  refs_ok (a :: ex) (set_file s a x).
Proof.
  intros H Ha Hn Hv Hb.
  assert (Ht : total a (tables s) = 0%nat). { destruct (decide (0 < total a (tables s))%nat) as [Hp|]; [|lia]. apply total_pos in Hp as (t & d & Ht & Hd & Hf).
    destruct (ro_named _ _ H t d a Ht Hd Hf). congruence. }
  assert (Hh : held a ex = 0%nat) by (apply held_0; intros Hin; destruct (ro_held _ _ H a Hin); congruence).
  split; simpl; try apply H.
  - intros g y Hy. rewrite held_cons. apply lookup_insert_Some in Hy as [[<- <-]|[Hne Hy]].
    + rewrite bool_decide_eq_true_2 by done. split; [lia|]. split; [lia|done].
    + rewrite bool_decide_eq_false_2 by done. by apply (ro_file _ _ H).
  - intros t d g Ht' Hd Hg. destruct (decide (g = a)) as [->|]; [rewrite lookup_insert_eq; by eexists|]. rewrite lookup_insert_ne by done. by apply (ro_named _ _ H t d).
  - intros g Hg. destruct (decide (g = a)) as [->|]; [rewrite lookup_insert_eq; by eexists|]. rewrite lookup_insert_ne by done.
    apply (ro_held _ _ H). by apply elem_of_cons in Hg as [?|?].
  - lia.
Qed.

(** ** The hint for the next descriptor *)
Definition fd_used (t : fdtable) (i : Z) : Prop := ∃ d f, fd_at t i = Some d ∧ file d = Some f.
Definition fd_free (t : fdtable) (i : Z) : Prop := ∃ d, fd_at t i = Some d ∧ file d = None.

(** [next_fd] is the lowest free descriptor, or the size of a full table. *)
Record hint_exact (t : fdtable) : Prop := {
  he_len : length (fds t) = Z.to_nat CONFIG_OPEN_MAX;
  he_range : 0 ≤ next_fd t ≤ CONFIG_OPEN_MAX;
  he_used i : 0 ≤ i < next_fd t → fd_used t i;
  he_free : next_fd t < CONFIG_OPEN_MAX → fd_free t (next_fd t) }.

Lemma fd_at_some t i : length (fds t) = Z.to_nat CONFIG_OPEN_MAX → 0 ≤ i < CONFIG_OPEN_MAX → is_Some (fd_at t i).
Proof. intros Hl Hi. apply lookup_lt_is_Some. unfold CONFIG_OPEN_MAX in *. lia. Qed.

Lemma fd_at_range t i d : length (fds t) = Z.to_nat CONFIG_OPEN_MAX → 0 ≤ i → fd_at t i = Some d → i < CONFIG_OPEN_MAX.
Proof. intros Hl Hi Hd%lookup_lt_Some. unfold CONFIG_OPEN_MAX in *. lia. Qed.

Lemma fd_case t i : length (fds t) = Z.to_nat CONFIG_OPEN_MAX → 0 ≤ i < CONFIG_OPEN_MAX → fd_used t i ∨ fd_free t i.
Proof. intros Hl Hi. destruct (fd_at_some t i Hl Hi) as [d Hd]. destruct (file d) as [f|] eqn:Hf; [left; by exists d, f|right; by exists d]. Qed.

Lemma used_not_free t i : fd_used t i → ¬ fd_free t i.
Proof. intros (d & f & Hd & Hf) (d' & Hd' & Hf'). congruence. Qed.

Lemma find_free_spec n t i : length (fds t) = Z.to_nat CONFIG_OPEN_MAX → 0 ≤ i ≤ CONFIG_OPEN_MAX → CONFIG_OPEN_MAX - i ≤ Z.of_nat n →
  i ≤ find_free n t i ≤ CONFIG_OPEN_MAX ∧ (∀ k, i ≤ k < find_free n t i → fd_used t k) ∧ (find_free n t i < CONFIG_OPEN_MAX → fd_free t (find_free n t i)).
Proof.
  intros Hl. revert i. induction n as [|n IH]; intros i Hi Hn; simpl; [split_and!; lia|].
  destruct (Z.ltb_spec i CONFIG_OPEN_MAX); [|split_and!; lia]. destruct (fd_at_some t i Hl) as [d Hd]; [lia|]. rewrite Hd.
  case_bool_decide as Hf; [split_and!; [lia..|intros k; lia|intros _; by exists d]|].
  destruct (IH (i + 1)) as (H1 & H2 & H3); [lia..|]. split_and!; [lia..| |done]. intros k Hk. destruct (decide (k = i)) as [->|]; [|apply H2; lia].
  destruct (file d) as [f|] eqn:Hf'; [by exists d, f|done].
Qed.

Lemma find_free_beyond n t i : CONFIG_OPEN_MAX ≤ i → find_free n t i = i.
Proof. intros Hi. destruct n; simpl; [done|]. destruct (Z.ltb_spec i CONFIG_OPEN_MAX); [lia|done]. Qed.

#[local] Arguments find_free : simpl never.

Lemma update_hint_fds t : fds (proc_update_fd_hint t) = fds t.
Proof. done. Qed.

Lemma fds_used t t' i : fds t' = fds t → fd_used t' i ↔ fd_used t i.
Proof. intros Hf. unfold fd_used, fd_at. by rewrite Hf. Qed.
Lemma fds_free t t' i : fds t' = fds t → fd_free t' i ↔ fd_free t i.
Proof. intros Hf. unfold fd_free, fd_at. by rewrite Hf. Qed.

(** Where the new hint is: the first free descriptor from the old one on, else
    the first free one. *)
Lemma update_hint_spec t : length (fds t) = Z.to_nat CONFIG_OPEN_MAX → 0 ≤ next_fd t → let t' := proc_update_fd_hint t in
  0 ≤ next_fd t' ≤ CONFIG_OPEN_MAX ∧ (next_fd t' < CONFIG_OPEN_MAX → fd_free t (next_fd t')) ∧
  ((next_fd t ≤ next_fd t' < CONFIG_OPEN_MAX ∧ ∀ k, next_fd t ≤ k < next_fd t' → fd_used t k) ∨
   ((∀ k, next_fd t ≤ k < CONFIG_OPEN_MAX → fd_used t k) ∧ ∀ k, 0 ≤ k < next_fd t' → fd_used t k)).
Proof.
  intros Hl Hn t'. subst t'. unfold proc_update_fd_hint. simpl. set (j := find_free _ t (next_fd t)). set (j0 := find_free _ t 0).
  destruct (find_free_spec (Z.to_nat CONFIG_OPEN_MAX) t 0 Hl) as (A1 & A2 & A3); [unfold CONFIG_OPEN_MAX; lia..|]. fold j0 in A1, A2, A3.
  destruct (decide (next_fd t ≤ CONFIG_OPEN_MAX)) as [Hle|Hgt].
  - destruct (find_free_spec (Z.to_nat CONFIG_OPEN_MAX) t (next_fd t) Hl) as (B1 & B2 & B3); [lia|unfold CONFIG_OPEN_MAX in *; lia|]. fold j in B1, B2, B3.
    destruct (Z.ltb_spec j CONFIG_OPEN_MAX).
    + split; [lia|]. split; [done|]. left. split; [lia|done].
    + split; [lia|]. split; [done|]. right. split; [|done]. intros k Hk. apply B2. lia.
  - assert (Hj : j = next_fd t) by (apply find_free_beyond; lia). destruct (Z.ltb_spec j CONFIG_OPEN_MAX); [lia|]. split; [lia|]. split; [done|]. right. split; [|done]. lia.
Qed.

(** The hint is exact when everything below it is in use. *)
Lemma update_hint_exact t : length (fds t) = Z.to_nat CONFIG_OPEN_MAX → 0 ≤ next_fd t → (∀ i, 0 ≤ i < next_fd t → i < CONFIG_OPEN_MAX → fd_used t i) →
  hint_exact (proc_update_fd_hint t).
Proof.
  intros Hl Hn Hu. destruct (update_hint_spec t Hl Hn) as (H1 & H2 & H3). split; [done|done| |].
  - intros i Hi. apply (fds_used t); [done|]. destruct H3 as [[Hr Hk]|[_ Hk]]; [|by apply Hk]. destruct (decide (i < next_fd t)); [apply Hu|apply Hk]; lia.
  - intros Hlt. apply (fds_free t); [done|]. by apply H2.
Qed.

(** Descriptors of a table with one entry replaced. *)
Lemma set_fd_at t fd d i : length (fds t) = Z.to_nat CONFIG_OPEN_MAX → 0 ≤ fd < CONFIG_OPEN_MAX → 0 ≤ i →
  fd_at (set_fd t fd d) i = if decide (i = fd) then Some d else fd_at t i.
Proof.
  intros Hl Hfd Hi. unfold fd_at, set_fd. simpl. case_decide as Heq; [subst; apply list_lookup_insert_eq; unfold CONFIG_OPEN_MAX in *; lia|].
  apply list_lookup_insert_ne. lia.
Qed.

Lemma set_fd_used t fd d i : length (fds t) = Z.to_nat CONFIG_OPEN_MAX → 0 ≤ fd < CONFIG_OPEN_MAX → 0 ≤ i →
  i ≠ fd ∨ file d ≠ None → fd_used t i ∨ i = fd → fd_used (set_fd t fd d) i.
Proof.
  intros Hl Hfd Hi Hne Hu. unfold fd_used. rewrite set_fd_at by done. case_decide as Heq.
  - destruct (file d) as [f|] eqn:Hf; [by exists d, f|destruct Hne; congruence].
  - by destruct Hu.
Qed.

Lemma set_fd_len t fd d : length (fds (set_fd t fd d)) = length (fds t).
Proof. apply length_insert. Qed.

(** *** Each function on the hint *)
Lemma close_hint t fd d : hint_exact t → 0 ≤ fd < CONFIG_OPEN_MAX → fd_at t fd = Some d →
  hint_exact (if fd <? next_fd t then set_hint (set_fd t fd free_fd) fd else set_fd t fd free_fd).
Proof.
  intros [Hl Hr Hu Hf] Hfd Hd.
  assert (Hfree : ∀ i, 0 ≤ i → fd_free t i ∨ i = fd → fd_free (set_fd t fd free_fd) i).
  { intros i Hi Hc. unfold fd_free. rewrite set_fd_at by done. case_decide; [by exists free_fd|by destruct Hc]. }
  destruct (Z.ltb_spec fd (next_fd t)).
  - split; simpl; [by rewrite length_insert|lia| |].
    + intros i Hi. apply (fds_used (set_fd t fd free_fd)); [done|]. apply set_fd_used; try done; [lia|left; lia|left; apply Hu; lia].
    + intros _. apply (fds_free (set_fd t fd free_fd)); [done|]. apply Hfree; [lia|by right].
  - split; simpl; [by rewrite length_insert|lia| |].
    + intros i Hi. apply set_fd_used; try done; [lia|left; lia|left; apply Hu; lia].
    + intros Hlt. apply Hfree; [lia|]. left. by apply Hf.
Qed.

Lemma dup_hint t fd d : hint_exact t → 0 ≤ fd < CONFIG_OPEN_MAX → fd_free t fd → hint_exact (proc_update_fd_hint (set_fd t fd d)).
Proof.
  intros [Hl Hr Hu Hf] Hfd Hd. apply update_hint_exact; simpl; [by rewrite length_insert|lia|].
  intros i Hi Hlt. apply set_fd_used; try done; [lia| |left; by apply Hu]. left. intros ->. by destruct (used_not_free t fd (Hu fd Hi)).
Qed.

(** Taking the lowest descriptor keeps the hint exact if another one is free. *)
Lemma next_fd_spec t : hint_exact t → next_fd t < CONFIG_OPEN_MAX → let fd := next_fd t in
  ∃ t', com_sys_proc_next_fd t = (fd, t') ∧ fds t' = fds t ∧
    ((∃ j, fd < j < CONFIG_OPEN_MAX ∧ fd_free t j) → fd < next_fd t' < CONFIG_OPEN_MAX ∧ fd_free t (next_fd t') ∧ (∀ k, fd < k < next_fd t' → fd_used t k) ∧
       ∀ a fl, hint_exact (set_fd t' fd (Filedesc (Some a) fl))).
Proof.
  intros [Hl Hr Hu Hf] Hlt fd. unfold com_sys_proc_next_fd. fold fd. destruct (Z.leb_spec CONFIG_OPEN_MAX fd); [subst fd; lia|]. eexists. split; [reflexivity|]. split; [done|].
  intros (j & Hj & Hjf). set (t1 := set_hint t (fd + 1)). destruct (update_hint_spec t1) as (H1 & H2 & H3); [done|simpl; lia|]. change (next_fd t1) with (fd + 1) in H3.
  assert (H3' : fd + 1 ≤ next_fd (proc_update_fd_hint t1) < CONFIG_OPEN_MAX ∧ ∀ k, fd + 1 ≤ k < next_fd (proc_update_fd_hint t1) → fd_used t k).
  { destruct H3 as [[? ?]|[Hk _]]; [done|]. destruct (used_not_free t j); [|done]. apply (fds_used t1); [done|]. apply Hk. lia. }
  destruct H3' as [Hlo Hk]. split; [lia|]. split; [apply (fds_free t1); [done|apply H2; lia]|]. split; [intros k Hk'; apply Hk; lia|].
  intros a fl. assert (Hlen : length (fds (proc_update_fd_hint t1)) = Z.to_nat CONFIG_OPEN_MAX) by done.
  set (n := next_fd (proc_update_fd_hint t1)) in *. change (next_fd (set_fd (proc_update_fd_hint t1) fd (Filedesc (Some a) fl))) with n.
    split; [by rewrite set_fd_len|change (0 ≤ n ≤ CONFIG_OPEN_MAX); lia|change (next_fd (set_fd (proc_update_fd_hint t1) fd (Filedesc (Some a) fl))) with n..].
  - intros i Hi. apply set_fd_used; try done; [lia|lia|by right|]. destruct (decide (i = fd)) as [->|]; [by right|left]. apply (fds_used t); [done|].
    destruct (decide (i < fd)); [apply Hu; lia|apply Hk; lia].
  - intros Hn. unfold fd_free. rewrite set_fd_at by (done || lia). rewrite decide_False by lia. destruct H2 as (d & Hd & Hfd); [lia|]. by exists d.
Qed.

Lemma next_fd_full t : hint_exact t → next_fd t = CONFIG_OPEN_MAX → ∃ t', com_sys_proc_next_fd t = (-1, t') ∧ fds t' = fds t ∧ hint_exact t' ∧ next_fd t' = CONFIG_OPEN_MAX.
Proof.
  intros [Hl Hr Hu Hf] Hn. unfold com_sys_proc_next_fd. rewrite Hn. eexists. split; [reflexivity|]. split; [done|].
  assert (He : hint_exact (proc_update_fd_hint (set_hint t (CONFIG_OPEN_MAX + 1)))).
  { apply update_hint_exact; simpl; [done|unfold CONFIG_OPEN_MAX; lia|]. intros i Hi Hlt. apply (fds_used t); [done|]. apply Hu. lia. }
  split; [done|]. destruct (decide (next_fd (proc_update_fd_hint (set_hint t (CONFIG_OPEN_MAX + 1))) < CONFIG_OPEN_MAX)) as [Hlt|Hge].
  - destruct (used_not_free t (next_fd (proc_update_fd_hint (set_hint t (CONFIG_OPEN_MAX + 1))))); [|apply (fds_free _ _ _ (update_hint_fds _)); by apply (he_free _ He)].
    apply Hu. pose proof (he_range _ He). lia.
  - pose proof (he_range _ He). lia.
Qed.

(** ** The operations *)
Definition small (s : fdstate) : Prop := Z.of_nat (length (tables s)) ≤ CONFIG_PROC_MAX.
Definition hints (s : fdstate) : Prop := Forall hint_exact (tables s).

(** Counts exact, hints exact. *)
Record files_ok (s : fdstate) : Prop := {
  fo_refs : refs_ok [] s;
  fo_hints : hints s;
  fo_small : small s }.

Lemma fd_valid_in fd : fd_valid fd = true → fd ≠ CONFIG_OPEN_MAX → 0 ≤ fd < CONFIG_OPEN_MAX.
Proof. unfold fd_valid. intros H Hne. destruct (Z.ltb_spec CONFIG_OPEN_MAX fd), (Z.ltb_spec fd 0); try done. lia. Qed.

Lemma fd_in_valid fd : 0 ≤ fd < CONFIG_OPEN_MAX → fd_valid fd = true.
Proof. unfold fd_valid. intros H. destruct (Z.ltb_spec CONFIG_OPEN_MAX fd), (Z.ltb_spec fd 0); try done; lia. Qed.

Lemma hints_at s p t : hints s → tables s !! p = Some t → hint_exact t.
Proof. intros H Hp. unfold hints in H. rewrite Forall_forall in H. apply H. by eapply list_elem_of_lookup_2. Qed.

Lemma hints_insert s p t : hints s → hint_exact t → hints (set_table s p t).
Proof. intros H Ht. unfold hints. simpl. apply Forall_forall. intros u Hu. apply list_elem_of_lookup in Hu as [q Hq].
  apply list_lookup_insert_Some in Hq as [(_ & -> & _)|[_ Hq]]; [done|]. by eapply hints_at. Qed.

Lemma set_table_id s p t : tables s !! p = Some t → set_table s p t = s.
Proof. intros Hp. unfold set_table. rewrite list_insert_id by done. by destruct s. Qed.

(** Counters are far from their bound. *)
Ltac slack := unfold small, CONFIG_PROC_MAX in *; simpl; rewrite ?length_app; simpl; lia.

(** [com_sys_proc_close_file_nolock] hands the reference of the descriptor to
    its caller. *)
Lemma close_nolock_ok s p t fd : files_ok s → tables s !! p = Some t → fd ≠ CONFIG_OPEN_MAX →
  ∃ e f t', com_sys_proc_close_file_nolock t fd = Ok (e, f, t') ∧ refs_ok (olist f) (set_table s p t') ∧ hint_exact t' ∧
    (0 ≤ fd < CONFIG_OPEN_MAX → fd_free t' fd) ∧
    ((0 ≤ fd < CONFIG_OPEN_MAX ∧ e = E0 ∧ is_Some f ∧ file <$> fd_at t fd = Some f ∧ fds t' = <[Z.to_nat fd := free_fd]> (fds t)) ∨ (e = EBADF ∧ f = None ∧ t' = t)).
Proof.
  intros [H Hh Hs] Hp Hfd. pose proof (hints_at s p t Hh Hp) as Ht. unfold com_sys_proc_close_file_nolock. destruct (fd_valid fd) eqn:Hv; simpl.
  - apply fd_valid_in in Hv; [|done]. destruct (fd_at_some t fd (he_len _ Ht) Hv) as [d Hd]. rewrite Hd. simpl. destruct (file d) as [f|] eqn:Hf.
    + eexists _, _, _. split; [reflexivity|]. pose proof (close_hint t fd d Ht Hv Hd) as Hhint. split_and!; [| | |].
      * rewrite <- (app_nil_r (olist (Some f))). rewrite <- Hf. apply (exchange_ok [] s p t (Z.to_nat fd) d free_fd); try done; [by destruct (fd <? next_fd t)|].
        slack.
      * done.
      * intros _. apply (fds_free (set_fd t fd free_fd)); [by destruct (fd <? next_fd t)|]. exists free_fd. split; [|done]. rewrite set_fd_at by (done || lia || apply Ht). by rewrite decide_True.
      * left. split; [done|]. split; [done|]. split; [by eexists|]. split; [done|]. by destruct (fd <? next_fd t).
    + eexists _, _, _. split; [reflexivity|]. rewrite set_table_id by done. split_and!; try done; [intros _; by exists d|by right].
  - eexists _, _, _. split; [reflexivity|]. rewrite set_table_id by done. split_and!; try done; [|by right]. intros Hr. by rewrite (fd_in_valid fd Hr) in Hv.
Qed.

Lemma set_table_files s p t : files (set_table s p t) = files s.
Proof. done. Qed.

Lemma release_opt ex s f : refs_ok (olist f ++ ex) s → ∃ s', COM_FS_FILE_RELEASE s f = Ok s' ∧ refs_ok ex s' ∧ tables s' = tables s.
Proof.
  destruct f as [f|]; simpl; intros H; [|by exists s]. destruct (release_ok ex s f H) as (s' & ? & ? & ? & _). by exists s'.
Qed.

Lemma hold_opt ex s f : refs_ok ex s → (∀ g, f = Some g → is_Some (files s !! g)) → small s → (length ex ≤ 100)%nat →
  ∃ s', COM_FS_FILE_HOLD s f = Ok s' ∧ refs_ok (olist f ++ ex) s' ∧ tables s' = tables s ∧ (∀ g, is_Some (files s' !! g) ↔ is_Some (files s !! g)) ∧
    (∀ p t, COM_FS_FILE_HOLD (set_table s p t) f = Ok (set_table s' p t)).
Proof.
  intros H Hf Hs Hex. destruct f as [f|]; [|by exists s]. destruct (file_hold_ok ex s f H) as (x & Hx & Heq & H'); [by apply Hf|slack|].
  exists (set_file s f (with_ref x (num_ref x + 1))). split; [exact Heq|]. split; [done|]. split; [done|]. split.
  - intros g. simpl. destruct (decide (g = f)) as [->|]; [rewrite lookup_insert_eq, Hx; split; eauto|by rewrite lookup_insert_ne].
  - intros p t. simpl in *. rewrite Hx in *. simpl in *. unfold set_file in Heq. injection Heq as Heq. unfold set_file, set_table. simpl. by rewrite Heq.
Qed.

Lemma dup_slot_spec n t i j : length (fds t) = Z.to_nat CONFIG_OPEN_MAX → 0 ≤ i ≤ j → fd_free t j → j - i < Z.of_nat n →
  ∃ k, dup_slot n t i = Ok (Some k) ∧ i ≤ k ≤ j ∧ fd_free t k ∧ (∀ m, i ≤ m < k → fd_used t m).
Proof.
  intros Hl Hij Hj. assert (Hj' : j < CONFIG_OPEN_MAX) by (destruct Hj as (d & Hd & _); apply (fd_at_range t j d Hl); [lia|done]).
  revert i Hij. induction n as [|n IH]; intros i Hij Hn; [lia|]. simpl. destruct (fd_at_some t i Hl) as [d Hd]; [lia|]. rewrite Hd. simpl.
  case_bool_decide as Hf.
  - exists i. split; [done|]. split; [lia|]. split; [by exists d|]. intros m. lia.
  - assert (Hi : i ≠ j) by (intros ->; destruct Hj as (d' & Hd' & Hf'); congruence). destruct (Z.leb_spec CONFIG_OPEN_MAX i); [lia|].
    destruct (IH (i + 1)) as (k & Hk & Hr & Hfr & Hu); [lia..|]. exists k. split; [done|]. split; [lia|]. split; [done|].
    intros m Hm. destruct (decide (m = i)) as [->|]; [|apply Hu; lia]. destruct (file d) as [f|] eqn:Hfd; [by exists d, f|done].
Qed.

Opaque dup_slot.

(** Duplicating takes the lowest free descriptor from the one asked for. *)
Lemma dup_ok ex s p t new_fd old_fd : refs_ok ex s → hints s → small s → (length ex ≤ 99)%nat → tables s !! p = Some t →
  old_fd ≠ CONFIG_OPEN_MAX → new_fd ≠ CONFIG_OPEN_MAX → (0 ≤ new_fd < CONFIG_OPEN_MAX → ∃ j, new_fd ≤ j ∧ fd_free t j) →
  ∃ r s', com_sys_proc_duplicate_file_nolock s p new_fd old_fd = Ok (r, s') ∧ refs_ok ex s' ∧ hints s' ∧ length (tables s') = length (tables s) ∧
    (r = inl EINVAL ∧ s' = s ∨ ∃ k d t', r = inr k ∧ 0 ≤ new_fd ∧ new_fd ≤ k < CONFIG_OPEN_MAX ∧ fd_free t k ∧ (∀ m, new_fd ≤ m < k → fd_used t m) ∧
       fd_at t old_fd = Some d ∧ tables s' = <[p := t']> (tables s) ∧ fds t' = <[Z.to_nat k := Filedesc (file d) 0]> (fds t)).
Proof.
  intros H Hh Hs Hex Hp Ho Hn Hfree. pose proof (hints_at s p t Hh Hp) as Ht. unfold com_sys_proc_duplicate_file_nolock. rewrite Hp. simpl.
  destruct (fd_valid old_fd) eqn:Vo; simpl; [|exists (inl EINVAL), s; by split_and!; auto]. destruct (fd_valid new_fd) eqn:Vn; simpl; [|exists (inl EINVAL), s; by split_and!; auto].
  apply fd_valid_in in Vo, Vn; try done. destruct (Hfree Vn) as (j & Hj & Hjf).
  assert (Hj' : j < CONFIG_OPEN_MAX) by (destruct Hjf as (d & Hd & _); apply (fd_at_range t j d (he_len _ Ht)); [lia|done]).
  destruct (dup_slot_spec 98 t new_fd j (he_len _ Ht)) as (k & -> & Hk & Hkf & Hku); [lia|done|unfold CONFIG_OPEN_MAX in *; lia|]. simpl.
  destruct (fd_at_some t old_fd (he_len _ Ht) Vo) as [d Hd]. rewrite Hd. simpl. set (t' := proc_update_fd_hint (set_fd t k (Filedesc (file d) 0))).
  destruct (hold_opt ex s (file d)) as (s1 & _ & H1 & Ht1 & _ & Hset); [done| |done|lia|].
  { intros g Hg. apply (ro_named _ _ H t d); [by eapply list_elem_of_lookup_2|by eapply list_elem_of_lookup_2|done]. }
  rewrite Hset. simpl. eexists _, _. split; [reflexivity|]. destruct Hkf as (d0 & Hd0 & Hf0). split_and!.
  - replace ex with (olist (file d0) ++ ex) by (by rewrite Hf0). apply (exchange_ok ex s1 p t (Z.to_nat k) d0 (Filedesc (file d) 0)); try done; [by rewrite Ht1|]. rewrite Ht1. slack.
  - apply hints_insert; [by unfold hints; rewrite Ht1|]. apply dup_hint; [done|lia|by exists d0].
  - simpl. by rewrite length_insert, Ht1.
  - right. exists k, d, t'. split; [done|]. split; [lia|]. split; [lia|]. split; [by exists d0|]. split; [done|]. split; [done|]. split; [by simpl; rewrite Ht1|done].
Qed.

(** The C functions one by one. *)
Lemma close_file_ok s p t fd : files_ok s → tables s !! p = Some t → fd ≠ CONFIG_OPEN_MAX →
  ∃ e s', com_sys_proc_close_file s p fd = Ok (e, s') ∧ files_ok s' ∧ (e = E0 ∨ e = EBADF).
Proof.
  intros Hok Hp Hfd. unfold com_sys_proc_close_file. rewrite Hp. simpl. destruct (close_nolock_ok s p t fd Hok Hp Hfd) as (e & f & t' & -> & H1 & Ht' & _ & Hcase). simpl.
  destruct (release_opt [] (set_table s p t') f) as (s' & -> & H' & Ht); [by rewrite app_nil_r|]. simpl. eexists _, _. split; [reflexivity|]. split.
  - split; [done| |].
    + unfold hints. rewrite Ht. apply hints_insert; [apply Hok|done].
    + unfold small. rewrite Ht. simpl. rewrite length_insert. apply Hok.
  - destruct Hcase as [(_ & -> & _)|(-> & _)]; auto.
Qed.

Lemma dup3_ok s p t old_fd new_fd : files_ok s → tables s !! p = Some t → old_fd ≠ CONFIG_OPEN_MAX → new_fd ≠ CONFIG_OPEN_MAX →
  ∃ r s', com_sys_syscall_dup3 s p old_fd new_fd = Ok (r, s') ∧ files_ok s'.
Proof.
  intros Hok Hp Ho Hn. unfold com_sys_syscall_dup3. rewrite Hp. simpl. destruct (close_nolock_ok s p t new_fd Hok Hp Hn) as (e & f & t' & -> & H1 & Ht' & Hfr & _). simpl.
  set (s1 := set_table s p t'). assert (Hp1 : tables s1 !! p = Some t') by (unfold s1; simpl; apply list_lookup_insert_eq; by eapply lookup_lt_Some).
  assert (Hs1 : small s1) by (unfold small, s1; simpl; rewrite length_insert; apply Hok).
  destruct (dup_ok (olist f) s1 p t' new_fd old_fd) as (r & s2 & -> & H2 & Hh2 & Hl2 & _); try done; [apply hints_insert; [apply Hok|done]|destruct f; simpl; lia| |].
  { intros Hr. exists new_fd. split; [lia|by apply Hfr]. }
  simpl. destruct (release_opt [] s2 f) as (s3 & -> & H3 & Ht3); [by rewrite app_nil_r|]. simpl. eexists _, _. split; [reflexivity|].
  split; [done|by unfold hints; rewrite Ht3|]. unfold small in *. by rewrite Ht3, Hl2.
Qed.

(** Taking a reference for the time of a call. *)
Lemma get_file_ok s p t fd : files_ok s → tables s !! p = Some t → fd ≠ CONFIG_OPEN_MAX →
  ∃ f s1, com_sys_proc_get_file_nolock s p fd = Ok (f, s1) ∧ refs_ok (olist f) s1 ∧ tables s1 = tables s ∧
    (∀ g, is_Some (files s1 !! g) ↔ is_Some (files s !! g)) ∧
    (f = None ∨ 0 ≤ fd < CONFIG_OPEN_MAX ∧ file <$> fd_at t fd = Some f).
Proof.
  intros [H Hh Hs] Hp Hfd. pose proof (hints_at s p t Hh Hp) as Ht. unfold com_sys_proc_get_file_nolock. rewrite Hp. simpl. destruct (fd_valid fd) eqn:Hv; [|exists None, s; by split_and!; auto].
  apply fd_valid_in in Hv; [|done]. destruct (fd_at_some t fd (he_len _ Ht) Hv) as [d Hd]. rewrite Hd. simpl.
  destruct (hold_opt [] s (file d)) as (s1 & -> & H1 & Ht1 & Hg & _); [done| |done|simpl; lia|].
  { intros g Hg. apply (ro_named _ _ H t d); [by eapply list_elem_of_lookup_2|by eapply list_elem_of_lookup_2|done]. }
  simpl. exists (file d), s1. rewrite app_nil_r in H1. split_and!; try done. right. done.
Qed.

Lemma file_upd_ok ex s f x x' : refs_ok ex s → files s !! f = Some x → num_ref x' = num_ref x → vnode x' = vnode x → refs_ok ex (set_file s f x').
Proof.
  intros H Hx Hn Hv. assert (Hd : ∀ g, is_Some (<[f := x']> (files s) !! g) ↔ is_Some (files s !! g)).
  { intros g. destruct (decide (g = f)) as [->|]; [rewrite lookup_insert_eq, Hx; split; eauto|by rewrite lookup_insert_ne]. }
  split; simpl; try apply H.
  - intros g y [[<- <-]|[_ Hy]]%lookup_insert_Some; [rewrite Hn, Hv; by apply (ro_file _ _ H)|by apply (ro_file _ _ H)].
  - intros t d g Ht Hdt Hg. apply Hd. by apply (ro_named _ _ H t d).
  - intros g Hg. apply Hd. by apply (ro_held _ _ H).
Qed.

(** The flags of a descriptor change. *)
Lemma flags_ok ex s p t fd d fl : refs_ok ex s → hints s → tables s !! p = Some t → 0 ≤ fd → fd_at t fd = Some d →
  refs_ok ex (set_table s p (set_fd t fd (Filedesc (file d) fl))) ∧ hints (set_table s p (set_fd t fd (Filedesc (file d) fl))).
Proof.
  intros H Hh Hp Hfd Hd. pose proof (hints_at s p t Hh Hp) as Ht. pose proof (fd_at_range t fd d (he_len _ Ht) Hfd Hd) as Hlt.
  assert (Htin : t ∈ tables s) by (by eapply list_elem_of_lookup_2). set (t' := set_fd t fd (Filedesc (file d) fl)).
  assert (Hin : ∀ u e, u ∈ <[p := t']> (tables s) → e ∈ fds u → ∃ u0 e0, u0 ∈ tables s ∧ e0 ∈ fds u0 ∧ file e0 = file e).
  { intros u e Hu He. apply list_elem_of_lookup in Hu as [q Hq]. apply list_lookup_insert_Some in Hq as [(_ & <- & _)|[_ Hq]]; [|exists u, e; split; [by eapply list_elem_of_lookup_2|done]].
    unfold t' in He. simpl in He. apply list_elem_of_lookup in He as [j Hj]. apply list_lookup_insert_Some in Hj as [(_ & <- & _)|[_ Hj]]; exists t.
    - exists d. split; [done|]. split; [by eapply list_elem_of_lookup_2|done]. - exists e. split; [done|]. split; [by eapply list_elem_of_lookup_2|done]. }
  assert (Huse : ∀ i, 0 ≤ i → (fd_used t i → fd_used t' i) ∧ (fd_free t i → fd_free t' i)).
  { intros i Hi. unfold fd_used, fd_free, t'. rewrite set_fd_at by (apply Ht || done). case_decide as Heq; [subst i|done]. rewrite Hd. split.
    - intros (d1 & f & [= <-] & Hf). by eexists _, f. - intros (d1 & [= <-] & Hf). by eexists. }
  split.
  - split; simpl.
    + intros u Hu. apply list_elem_of_lookup in Hu as [q Hq]. apply list_lookup_insert_Some in Hq as [(_ & <- & _)|[_ Hq]]; [unfold t'; rewrite set_fd_len; by apply (ro_len _ _ H)|].
      apply (ro_len _ _ H). by eapply list_elem_of_lookup_2.
    + intros f x Hx. destruct (ro_file _ _ H f x Hx) as (Hn & ? & ?). split; [|done]. rewrite Hn. pose proof (total_insert f (tables s) p t t' Hp) as Hti.
      pose proof (nrefs_insert f (fds t) (Z.to_nat fd) d (Filedesc (file d) fl) Hd) as Hr. simpl in Hti, Hr. lia.
    + intros u e f Hu He Hf. destruct (Hin u e Hu He) as (u0 & e0 & Hu0 & He0 & Hfe). apply (ro_named _ _ H u0 e0); try done. congruence.
    + apply (ro_held _ _ H).
    + rewrite length_insert. apply (ro_bound _ _ H).
  - apply hints_insert; [done|]. destruct Ht as [Hl Hr Hu Hfr]. split; simpl; [by rewrite length_insert|done| |].
    + intros i Hi. apply Huse; [lia|by apply Hu].
    + intros Hn. apply Huse; [lia|by apply Hfr].
Qed.

Definition dup_room (t : fdtable) (op : fcntl_op) (arg1 : Z) : Prop :=
  op = F_DUPFD ∨ op = F_DUPFD_CLOEXEC → arg1 ≠ CONFIG_OPEN_MAX ∧ (0 ≤ arg1 < CONFIG_OPEN_MAX → ∃ j, arg1 ≤ j ∧ fd_free t j).

Lemma fcntl_dup_ok ex cloexec s p t fd op arg1 : refs_ok ex s → hints s → small s → (length ex ≤ 99)%nat → tables s !! p = Some t →
  fd ≠ CONFIG_OPEN_MAX → arg1 ≠ CONFIG_OPEN_MAX → (0 ≤ arg1 < CONFIG_OPEN_MAX → ∃ j, arg1 ≤ j ∧ fd_free t j) →
  ∃ r s', fcntl_dup cloexec s p fd op arg1 = Ok (r, s') ∧ refs_ok ex s' ∧ hints s' ∧ length (tables s') = length (tables s).
Proof.
  intros H Hh Hs Hex Hp Hfd Ha Hroom. unfold fcntl_dup. destruct (dup_ok ex s p t arg1 fd) as (r & s1 & -> & H1 & Hh1 & Hl1 & Hcase); try done. simpl.
  destruct Hcase as [[-> ->]|(k & d & t' & -> & ? & Hr & Hkf & _ & Hd & Ht1 & Hf1)]; [by eexists _, _|].
  case_bool_decide; [|by eexists _, _]. assert (Hp1 : tables s1 !! p = Some t') by (rewrite Ht1; apply list_lookup_insert_eq; by eapply lookup_lt_Some).
  rewrite Hp1. simpl. unfold com_sys_proc_get_fildesc_nolock. pose proof (hints_at s p t Hh Hp) as Ht.
  unfold com_sys_proc_get_fildesc_nolock. rewrite fd_in_valid by lia. pose proof (hints_at s1 p t' Hh1 Hp1) as Ht'.
  destruct (fd_at_some t' k (he_len _ Ht')) as [d1 Hd1]; [lia|]. rewrite Hd1. simpl. eexists _, _. split; [reflexivity|].
  destruct (flags_ok ex s1 p t' k d1 (Z.lor (flags d1) cloexec)) as [? ?]; try done; [lia|]. split_and!; try done. simpl. by rewrite length_insert.
Qed.

Lemma fcntl_ok cloexec s p t fd op arg1 : files_ok s → tables s !! p = Some t → fd ≠ CONFIG_OPEN_MAX → dup_room t op arg1 →
  ∃ r s', com_sys_syscall_fcntl cloexec s p fd op arg1 = Ok (r, s') ∧ files_ok s'.
Proof.
  intros Hok Hp Hfd Hroom. pose proof Hok as [H Hh Hs]. pose proof (hints_at s p t Hh Hp) as Ht. unfold com_sys_syscall_fcntl. rewrite Hp. simpl.
  destruct (get_file_ok s p t fd Hok Hp Hfd) as (f & s1 & Hg & H1 & Ht1 & Hdom & Hcase).
  assert (Hfil : ∃ o, com_sys_proc_get_fildesc_nolock t fd = Ok o ∧ (f ≠ None → ∃ d, o = Some d ∧ fd_at t fd = Some d ∧ file d = f)).
  { unfold com_sys_proc_get_fildesc_nolock. destruct (fd_valid fd) eqn:Hv.
    - apply fd_valid_in in Hv; [|done]. destruct (fd_at_some t fd (he_len _ Ht) Hv) as [d Hd]. rewrite Hd. exists (Some d). split; [done|].
      intros Hf. exists d. split; [done|]. split; [done|]. destruct Hcase as [?|[_ Hc]]; [done|]. rewrite Hd in Hc. by injection Hc.
    - exists None. split; [done|]. intros Hf. destruct Hcase as [?|[Hr _]]; [done|]. by rewrite (fd_in_valid fd Hr) in Hv. }
  destruct Hfil as (o & -> & Ho). simpl. rewrite Hg. simpl. clear Hg.
  assert (Hend : ∀ r s2, refs_ok (olist f) s2 → hints s2 → length (tables s2) = length (tables s) → ∃ r' s', ('(ret, s) ← Ok (r, s2); s ← COM_FS_FILE_RELEASE s f; Ok (ret, s)) = Ok (r' : com_syscall_ret, s') ∧ files_ok s').
  { intros r s2 H2 Hh2 Hl2. simpl. destruct (release_opt [] s2 f) as (s3 & -> & H3 & Ht3); [by rewrite app_nil_r|]. simpl. eexists _, _. split; [reflexivity|].
    split; [done|by unfold hints; rewrite Ht3|]. unfold small in *. by rewrite Ht3, Hl2. }
  assert (Hh1 : hints s1) by (unfold hints; by rewrite Ht1). assert (Hs1 : small s1) by (unfold small; by rewrite Ht1).
  assert (Hp1 : tables s1 !! p = Some t) by (by rewrite Ht1).
  destruct f as [fl|]; [|apply (Hend _ s1); try done; by rewrite Ht1]. destruct (Ho ltac:(done)) as (d & -> & Hd & Hf).
  destruct (ro_held _ _ H1 fl) as [x Hx]; [by left|]. assert (Hr : 0 ≤ fd) by (destruct Hcase as [?|[? _]]; [done|lia]).
  assert (Hdup : op = F_DUPFD ∨ op = F_DUPFD_CLOEXEC → ∃ r s', fcntl_dup cloexec s1 p fd op arg1 = Ok (r, s') ∧ refs_ok (olist (Some fl)) s' ∧ hints s' ∧ length (tables s') = length (tables s1)).
  { intros Hop. destruct (Hroom Hop) as [? ?]. apply (fcntl_dup_ok (olist (Some fl)) cloexec s1 p t); try done. simpl. lia. }
  destruct op; rewrite ?Hx; try (apply (Hend _ s1); try done; by rewrite Ht1).
  - apply (Hend _ (set_file s1 fl (File (off x) (u64 arg1) (num_ref x) (vnode x)))); [by apply (file_upd_ok _ s1 fl x)|done|simpl; by rewrite Ht1].
  - destruct (flags_ok (olist (Some fl)) s1 p t fd d (u64 arg1) H1 Hh1 Hp1 Hr Hd) as [? ?]. apply (Hend _ (set_table s1 p (set_fd t fd (Filedesc (file d) (u64 arg1))))); [done..|]. simpl. by rewrite length_insert, Ht1.
  - destruct Hdup as (r & s2 & -> & ? & ? & ?); [by left|]. apply Hend; try done. congruence.
  - destruct Hdup as (r & s2 & -> & ? & ? & ?); [by right|]. apply Hend; try done. congruence.
Qed.

Lemma next_fd_above t j : length (fds t) = Z.to_nat CONFIG_OPEN_MAX → 0 ≤ next_fd t < j → fd_free t j → ∃ t', com_sys_proc_next_fd t = (next_fd t, t') ∧
  fds t' = fds t ∧ next_fd t < next_fd t' < CONFIG_OPEN_MAX ∧ fd_free t (next_fd t') ∧ (∀ k, next_fd t < k < next_fd t' → fd_used t k).
Proof.
  intros Hl Hr Hj. assert (Hj' : j < CONFIG_OPEN_MAX) by (destruct Hj as (d & Hd & _); apply (fd_at_range t j d Hl); [lia|done]).
  unfold com_sys_proc_next_fd. destruct (Z.leb_spec CONFIG_OPEN_MAX (next_fd t)); [lia|]. set (t1 := set_hint t (next_fd t + 1)). eexists. split; [reflexivity|]. split; [done|].
  destruct (update_hint_spec t1) as (H1 & H2 & H3); [done|simpl; lia|]. change (next_fd t1) with (next_fd t + 1) in H3.
  destruct H3 as [[H3 H4]|[Hk _]].
  - split; [lia|]. split; [apply (fds_free t1); [done|apply H2; lia]|]. intros k Hk. apply (fds_used t1); [done|]. apply H4. lia.
  - destruct (used_not_free t j); [|done]. apply (fds_used t1); [done|]. apply Hk. lia.
Qed.

(** A file just allocated goes into a free descriptor. *)
Lemma install_ok ex s p t t' fd d a x fl : refs_ok ex s → small s → (length ex ≤ 99)%nat → tables s !! p = Some t → fd_at t fd = Some d → file d = None →
  files s !! a = None → num_ref x = 1 → is_Some (vnode x) → fds t' = fds (set_fd t fd (Filedesc (Some a) fl)) →
  refs_ok ex (set_table (set_file s a x) p t').
Proof.
  intros H Hs Hex Hp Hd Hf Ha Hx Hv Ht'. replace ex with (olist (file d) ++ ex) by (by rewrite Hf).
  apply (exchange_ok ex (set_file s a x) p t (Z.to_nat fd) d (Filedesc (Some a) fl)); try done; [|slack]. apply alloc_ok; try done. slack.
Qed.

(** Only the hint of a table changes. *)
Lemma same_fds_ok ex s p t t' : refs_ok ex s → tables s !! p = Some t → fds t' = fds t → refs_ok ex (set_table s p t').
Proof.
  intros H Hp Hf.
  assert (Hu : ∀ u, u ∈ <[p := t']> (tables s) → ∃ u0, u0 ∈ tables s ∧ fds u = fds u0).
  { intros u Hu. apply list_elem_of_lookup in Hu as [q Hq]. apply list_lookup_insert_Some in Hq as [(_ & <- & _)|[_ Hq]]; [exists t|exists u];
      (split; [by eapply list_elem_of_lookup_2|done]). }
  split; cbn [set_table tables files].
  - intros u (u0 & Hu0 & ->)%Hu. by apply (ro_len _ _ H).
  - intros f x Hx. destruct (ro_file _ _ H f x Hx) as (Hn & ? & ?). split; [|done]. pose proof (total_insert f (tables s) p t t' Hp) as Hti. rewrite Hf in Hti. lia.
  - intros u e f (u0 & Hu0 & ->)%Hu. by apply (ro_named _ _ H).
  - apply (ro_held _ _ H).
  - rewrite length_insert. apply (ro_bound _ _ H).
Qed.

Lemma open_ok s p t a vn fl : files_ok s → tables s !! p = Some t → files s !! a = None →
  next_fd t = CONFIG_OPEN_MAX ∨ (∃ j, next_fd t < j ∧ fd_free t j) →
  ∃ r s', openat_install s p a vn fl = Ok (r, s') ∧ files_ok s' ∧
    (next_fd t = CONFIG_OPEN_MAX → r = Ret (-1) EMFILE ∧ files s' = files s) ∧
    (next_fd t < CONFIG_OPEN_MAX → r = Ret (next_fd t) E0 ∧ files s' !! a = Some (File 0 fl 1 (Some vn)) ∧
       ∃ t' g, tables s' !! p = Some t' ∧ fd_at t' (next_fd t) = Some (Filedesc (Some a) g) ∧ ∀ i, 0 ≤ i → i ≠ next_fd t → fd_at t' i = fd_at t i).
Proof.
  intros [H Hh Hs] Hp Ha Hroom. pose proof (hints_at s p t Hh Hp) as Ht. unfold openat_install. rewrite Hp. cbn [deref mbind res_bind].
  assert (Hplt : (p < length (tables s))%nat) by (by eapply lookup_lt_Some).
  destruct Hroom as [Hfull|(j & Hj & Hjf)].
  - destruct (next_fd_full t Ht Hfull) as (t' & -> & Hf & He & _). simpl. eexists _, _. split; [reflexivity|]. split; [split; [|by apply hints_insert|unfold small; simpl; by rewrite length_insert]|split; [done|lia]].
    by apply (same_fds_ok [] s p t).
  - assert (Hj' : j < CONFIG_OPEN_MAX) by (destruct Hjf as (d & Hd & _); pose proof (he_range _ Ht); apply (fd_at_range t j d (he_len _ Ht)); [lia|done]).
    destruct (next_fd_spec t Ht) as (t1 & -> & Hf1 & Hrest); [lia|]. destruct Hrest as (Hr1 & Hfr & _ & Hhint); [by exists j|]. pose proof (he_range _ Ht) as Hran.
    destruct (he_free _ Ht) as (d & Hd & Hfd); [lia|]. set (fd := next_fd t) in *. destruct (Z.eqb_spec fd (-1)); [lia|].
    assert (Hd1 : fd_at t1 fd = Some d) by (unfold fd_at; by rewrite Hf1). rewrite Hd1. simpl. eexists _, _. split; [reflexivity|].
    assert (Hl1 : length (fds t1) = Z.to_nat CONFIG_OPEN_MAX) by (rewrite Hf1; apply Ht).
    split; [split|split; [lia|]].
    + change (refs_ok [] (set_table (set_file s a (File 0 fl 1 (Some vn))) p (set_fd t1 fd (Filedesc (Some a) (flags d))))).
      apply (install_ok [] s p t _ fd d a _ (flags d)); try done; [simpl; lia|]. simpl. by rewrite Hf1.
    + unfold hints. simpl. apply (hints_insert s p); [done|apply Hhint].
    + unfold small. simpl. by rewrite length_insert.
    + intros _. split; [done|]. simpl. rewrite lookup_insert_eq. split; [done|]. eexists _, (flags d). rewrite list_lookup_insert_eq by done. split; [done|].
      split; [rewrite set_fd_at by (done || lia); by rewrite decide_True|]. intros i Hi Hne. rewrite set_fd_at by (done || lia). rewrite decide_False by done. unfold fd_at. by rewrite Hf1.
Qed.

(** Room for the two ends of a pipe and one more. *)
Definition pipe_room (t : fdtable) : Prop :=
  next_fd t = CONFIG_OPEN_MAX ∨ ∃ i j, next_fd t < i ∧ i < j ∧ fd_free t i ∧ fd_free t j.

Lemma pipe_ok s p t ra wa rv wv : files_ok s → tables s !! p = Some t → files s !! ra = None → files s !! wa = None → ra ≠ wa → pipe_room t →
  ∃ r s', com_sys_syscall_pipe s p ra wa rv wv = Ok (r, s') ∧ files_ok s'.
Proof.
  intros [H Hh Hs] Hp Hra Hwa Hne Hroom. pose proof (hints_at s p t Hh Hp) as Ht. unfold com_sys_syscall_pipe. rewrite Hp. cbn [deref mbind res_bind].
  assert (Hplt : (p < length (tables s))%nat) by (by eapply lookup_lt_Some).
  destruct Hroom as [Hfull|(i & j & Hi & Hij & Hif & Hjf)].
  - destruct (next_fd_full t Ht Hfull) as (t1 & -> & Hf1 & He1 & Hn1). destruct (com_sys_proc_next_fd t1) as [wfd t2] eqn:H2.
    destruct (next_fd_full t1 He1 Hn1) as (t2' & H2' & Hf2 & He2 & _). rewrite H2' in H2. injection H2 as <- <-. simpl. eexists _, _. split; [reflexivity|].
    split; [apply (same_fds_ok [] s p t); [done|done|by rewrite Hf2]|by apply hints_insert|]. unfold small. simpl. by rewrite length_insert.
  - pose proof (he_range _ Ht) as Hran. destruct (next_fd_above t i (he_len _ Ht)) as (t1 & -> & Hf1 & Hr1 & Hfr1 & Hu1); [lia|done|].
    assert (Hl1 : length (fds t1) = Z.to_nat CONFIG_OPEN_MAX) by (rewrite Hf1; apply Ht).
    assert (Hni : next_fd t1 ≤ i). { destruct (decide (next_fd t1 ≤ i)); [done|]. destruct (used_not_free t i); [apply Hu1; lia|done]. }
    destruct (next_fd_above t1 j Hl1) as (t2 & -> & Hf2 & Hr2 & Hfr2 & Hu2); [lia|by apply (fds_free t)|].
    set (rfd := next_fd t) in *. set (wfd := next_fd t1) in *. destruct (Z.eqb_spec rfd (-1)); [lia|]. destruct (Z.eqb_spec wfd (-1)); [lia|]. simpl orb. cbn iota.
    destruct (he_free _ Ht) as (d & Hd & Hfd); [lia|]. fold rfd in Hd. destruct Hfr1 as (e & He & Hfe).
    assert (Hf : fds t2 = fds t) by congruence. assert (Hl2 : length (fds t2) = Z.to_nat CONFIG_OPEN_MAX) by congruence.
    assert (Hd2 : fd_at t2 rfd = Some d) by (unfold fd_at; by rewrite Hf). rewrite Hd2. cbn [deref mbind res_bind].
    set (t3 := set_fd t2 rfd (Filedesc (Some ra) (flags d))). assert (Hl3 : length (fds t3) = Z.to_nat CONFIG_OPEN_MAX) by (unfold t3; by rewrite set_fd_len).
    assert (He3 : fd_at t3 wfd = Some e) by (unfold t3; rewrite set_fd_at by (done || lia); rewrite decide_False by lia; unfold fd_at; by rewrite Hf).
    rewrite He3. cbn [deref mbind res_bind]. set (t4 := set_fd t3 wfd (Filedesc (Some wa) (flags e))). eexists _, _. split; [reflexivity|]. split.
    + set (s1 := set_table (set_file s ra (File 0 0 1 (Some rv))) p t3).
      assert (H1 : refs_ok [] s1) by (apply (install_ok [] s p t _ rfd d ra _ (flags d)); try done; [simpl; lia|by unfold t3; simpl; rewrite Hf]).
      assert (Hp1 : tables s1 !! p = Some t3) by (unfold s1; simpl; by rewrite list_lookup_insert_eq).
      assert (H2 : refs_ok [] (set_table (set_file s1 wa (File 0 0 1 (Some wv))) p t4)).
      { apply (install_ok [] s1 p t3 _ wfd e wa _ (flags e)); try done; [unfold small, s1; simpl; by rewrite length_insert|simpl; lia|]. unfold s1. simpl. by rewrite lookup_insert_ne. }
      unfold s1, set_table, set_file in H2. simpl in H2. by rewrite list_insert_insert_eq in H2.
    + apply hints_insert; [done|]. set (nx := next_fd t2) in *. split; change (next_fd t4) with nx; [unfold t4; by rewrite set_fd_len|lia| |].
      * intros k Hk. apply set_fd_used; try done; [lia|lia|by right|]. destruct (decide (k = wfd)); [by right|left].
        apply set_fd_used; try done; [lia|lia|by right|]. destruct (decide (k = rfd)); [by right|left]. apply (fds_used t); [done|].
        destruct (decide (k < rfd)); [apply Ht; lia|]. destruct (decide (k < wfd)); [apply Hu1; lia|]. apply (fds_used t1); [done|]. apply Hu2. lia.
      * intros Hn. destruct Hfr2 as (g & Hg & Hgf). exists g. split; [|done]. unfold t4. rewrite set_fd_at by (done || lia). rewrite decide_False by lia.
        unfold t3. rewrite set_fd_at by (done || lia). rewrite decide_False by lia. unfold fd_at in *. by rewrite Hf2.
    + unfold small. simpl. by rewrite length_insert.
Qed.

Lemma seek_ok size s p t fd offset whence : files_ok s → tables s !! p = Some t → fd ≠ CONFIG_OPEN_MAX →
  ∃ r s', com_sys_syscall_seek size s p fd offset whence = Ok (r, s') ∧ files_ok s'.
Proof.
  intros Hok Hp Hfd. unfold com_sys_syscall_seek. destruct (get_file_ok s p t fd Hok Hp Hfd) as (f & s1 & -> & H1 & Ht1 & _ & _). cbn [mbind res_bind].
  destruct f as [fl|]; [|eexists _, _; split; [reflexivity|]; split; [done|unfold hints|unfold small]; rewrite Ht1; apply Hok].
  destruct (ro_held _ _ H1 fl) as [x Hx]; [by left|]. rewrite Hx. cbn [deref mbind res_bind].
  assert (Hend : ∀ r s2, refs_ok [fl] s2 → tables s2 = tables s → ∃ r' s', (s ← COM_FS_FILE_RELEASE s2 (Some fl); Ok (r : com_syscall_ret, s)) = Ok (r', s') ∧ files_ok s').
  { intros r s2 H2 Ht2. destruct (release_opt [] s2 (Some fl)) as (s3 & -> & H3 & Ht3); [done|]. simpl. eexists _, _. split; [reflexivity|].
    split; [done|unfold hints|unfold small]; rewrite Ht3, Ht2; apply Hok. }
  assert (Hset : ∀ n, refs_ok [fl] (set_file s1 fl (File n (file_flags x) (num_ref x) (vnode x)))) by (intros n; by apply (file_upd_ok _ s1 fl x)).
  destruct (ro_file _ _ H1 fl x Hx) as (_ & _ & [v Hv]). rewrite Hv in Hset.
  destruct whence; cbn [mbind res_bind]; rewrite ?Hv; cbn [deref mbind res_bind]; try (apply Hend; [by apply Hset|done]).
  destruct (size v); [by apply Hend|]. by apply Hend.
Qed.

(** *** Fork *)
Lemma refs_ok_perm ex ex' s : ex ≡ₚ ex' → refs_ok ex s → refs_ok ex' s.
Proof.
  intros Hp H. assert (Hh : ∀ f, held f ex' = held f ex) by (intros f; unfold held; by rewrite Hp). split; try apply H.
  - intros f x Hx. rewrite Hh. by apply (ro_file _ _ H).
  - intros f Hf. apply (ro_held _ _ H). by rewrite Hp.
  - rewrite <- Hp. apply (ro_bound _ _ H).
Qed.

(** The descriptor of the child. *)
Definition forked (d : com_filedesc) : com_filedesc := match file d with Some _ => d | None => free_fd end.

Lemma fork_loop_ok ex s src dst : refs_ok ex s → small s → (length ex + length src ≤ 99)%nat → (∀ d f, d ∈ src → file d = Some f → is_Some (files s !! f)) →
  (length src ≤ length dst)%nat → Forall (λ c, c = free_fd) dst →
  ∃ s', fork_loop s src dst = Ok (s', (forked <$> src) ++ drop (length src) dst) ∧ refs_ok (omap file src ++ ex) s' ∧ tables s' = tables s.
Proof.
  revert ex s dst. induction src as [|d src IH]; intros ex s dst H Hs Hl Hf Hd Hfree; [exists s; by rewrite drop_0|].
  destruct dst as [|c dst]; [simpl in Hd; lia|]. apply Forall_cons in Hfree as [-> Hfree]. simpl in Hl, Hd. destruct d as [[f|] fl]; cbn [fork_loop file].
  - destruct (hold_opt ex s (Some f)) as (s1 & -> & H1 & Ht1 & Hdom & _); [done| |done|lia|].
    { intros g [= <-]. by apply (Hf (Filedesc (Some f) fl)); [by left|]. }
    cbn [mbind res_bind]. destruct (IH (f :: ex) s1 dst) as (s2 & -> & H2 & Ht2); [done|by unfold small; rewrite Ht1|simpl; lia| |lia|done|].
    { intros e g He Hg. apply Hdom. apply (Hf e g); [by right|done]. }
    simpl. eexists. split; [reflexivity|]. split; [|congruence]. eapply refs_ok_perm; [|exact H2]. simpl. by rewrite Permutation_middle.
  - destruct (IH ex s dst) as (s2 & -> & H2 & Ht2); [done|done|lia| |lia|done|].
    { intros e g He Hg. apply (Hf e g); [by right|done]. }
    simpl. eexists. split; [reflexivity|]. done.
Qed.

Lemma omap_file_cons d l : omap file (d :: l) = olist (file d) ++ omap file l.
Proof. simpl. by destruct (file d). Qed.

Lemma held_omap f l ex : held f (omap file l ++ ex) = (nrefs f l + held f ex)%nat.
Proof.
  induction l as [|d l IH]; [done|]. rewrite nrefs_cons, omap_file_cons, <- app_assoc, held_olist, IH. lia.
Qed.

Lemma total_app f ts us : total f (ts ++ us) = (total f ts + total f us)%nat.
Proof. induction ts as [|t ts IH]; [done|]. simpl. rewrite !total_cons, IH. lia. Qed.

(** A new table takes over the pointers held for it. *)
Lemma append_ok ex s t : refs_ok (omap file (fds t) ++ ex) s → length (fds t) = Z.to_nat CONFIG_OPEN_MAX → small s → (length ex ≤ 99)%nat →
  refs_ok ex (Fdstate (files s) (tables s ++ [t]) (released s)).
Proof.
  intros H Hl Hs Hex. split; cbn [files tables].
  - intros u [Hu| ->%list_elem_of_singleton]%elem_of_app; [by apply (ro_len _ _ H)|done].
  - intros f x Hx. destruct (ro_file _ _ H f x Hx) as (Hn & ? & ?). split; [|done]. rewrite Hn, held_omap, total_app. unfold total at 3. simpl. lia.
  - intros u d f [Hu| ->%list_elem_of_singleton]%elem_of_app Hd Hf; [by apply (ro_named _ _ H u d)|]. apply (ro_held _ _ H). apply elem_of_app. left.
    apply list_elem_of_omap. by exists d.
  - intros f Hf. apply (ro_held _ _ H). apply elem_of_app. by right.
  - rewrite length_app. unfold small, CONFIG_PROC_MAX in Hs. simpl length. lia.
Qed.

(** The descriptors below [max_fd] are all that are open, and the hint is not
    above it. *)
Definition covers (t : fdtable) : Prop := next_fd t ≤ max_fd t ≤ CONFIG_OPEN_MAX ∧ ∀ i, 0 ≤ i → fd_used t i → i < max_fd t.

Lemma forked_list t : length (fds t) = Z.to_nat CONFIG_OPEN_MAX → covers t →
  let m := Z.to_nat (max_fd t) in (forked <$> take m (fds t)) ++ drop (length (take m (fds t))) (fds empty_table) = forked <$> fds t.
Proof.
  intros Hl [Hm Hc] m. assert (Hmt : length (take m (fds t)) = m) by (rewrite length_take, Hl; lia). rewrite Hmt. rewrite <- (take_drop m (fds t)) at 2. rewrite fmap_app. f_equal.
  apply list_eq. intros i. rewrite list_lookup_fmap, !lookup_drop. change (fds empty_table) with (replicate (Z.to_nat CONFIG_OPEN_MAX) free_fd). destruct (decide (m + i < Z.to_nat CONFIG_OPEN_MAX)%nat) as [Hi|Hi].
  - rewrite lookup_replicate_2 by done. destruct (lookup_lt_is_Some_2 (fds t) (m + i)) as [d Hd]; [lia|]. rewrite Hd. simpl. f_equal. unfold forked.
    destruct (file d) as [f|] eqn:Hf; [|done]. exfalso. assert (Z.of_nat (m + i) < max_fd t); [|lia]. apply Hc; [lia|]. exists d, f. unfold fd_at. by rewrite Nat2Z.id.
  - rewrite !lookup_ge_None_2; [done|lia|rewrite length_replicate; lia].
Qed.

Lemma forked_at t c i : fds c = forked <$> fds t → 0 ≤ i → fd_at c i = forked <$> fd_at t i.
Proof. intros Hf Hi. unfold fd_at. rewrite Hf. apply list_lookup_fmap. Qed.

Lemma fork_ok s p t : files_ok s → tables s !! p = Some t → covers t → Z.of_nat (length (tables s)) < CONFIG_PROC_MAX →
  ∃ s', com_sys_syscall_fork s p = Ok s' ∧ files_ok s' ∧ tables s' = tables s ++ [Fdtable (next_fd t) 0 (forked <$> fds t)] ∧
    (∀ f x, files s !! f = Some x → ∃ x', files s' !! f = Some x' ∧ num_ref x' = num_ref x + Z.of_nat (nrefs f (fds t))).
Proof.
  intros [H Hh Hs] Hp Hc Hroom. pose proof (hints_at s p t Hh Hp) as Ht. unfold com_sys_syscall_fork. rewrite Hp. cbn [deref mbind res_bind].
  assert (Hlt : length (take (Z.to_nat (max_fd t)) (fds t)) = Z.to_nat (max_fd t)) by (rewrite length_take, (he_len _ Ht); destruct Hc; lia).
  destruct (fork_loop_ok [] s (take (Z.to_nat (max_fd t)) (fds t)) (fds empty_table)) as (s1 & -> & H1 & Ht1); try done.
  { rewrite Hlt. destruct Hc. simpl. unfold CONFIG_OPEN_MAX in *. lia. }
  { intros d f Hd Hf. apply (ro_named _ _ H t d); [by eapply list_elem_of_lookup_2| |done]. apply list_elem_of_lookup in Hd as [i [Hi _]%lookup_take_Some]. by eapply list_elem_of_lookup_2. }
  { rewrite Hlt. change (fds empty_table) with (replicate (Z.to_nat CONFIG_OPEN_MAX) free_fd). rewrite length_replicate. destruct Hc. lia. }
  { by apply Forall_replicate. }
  cbn [mbind res_bind]. rewrite forked_list by (done || apply Ht). set (c := Fdtable (next_fd t) 0 (forked <$> fds t)).
  assert (Homap : omap file (take (Z.to_nat (max_fd t)) (fds t)) = omap file (fds c)).
  { rewrite <- (forked_list t (he_len _ Ht) Hc : _ = fds c). rewrite omap_app. replace (omap file (drop _ _)) with (@nil Z).
    - rewrite app_nil_r. generalize (take (Z.to_nat (max_fd t)) (fds t)). intros l. induction l as [|[[f|] fl] l IH]; simpl; [done|by f_equal|done].
    - symmetry. generalize (length (take (Z.to_nat (max_fd t)) (fds t))). intros n. change (fds empty_table) with (replicate (Z.to_nat CONFIG_OPEN_MAX) free_fd). rewrite drop_replicate. clear.
      induction (Z.to_nat CONFIG_OPEN_MAX - n)%nat; [done|]. simpl. done. }
  rewrite Homap in H1. assert (Hlc : length (fds c) = Z.to_nat CONFIG_OPEN_MAX) by (simpl; rewrite length_fmap; apply Ht).
  assert (Hsm1 : small s1) by (unfold small; by rewrite Ht1).
  eexists. split; [reflexivity|]. split; [split|split].
  - apply (append_ok [] s1 c); try done. simpl. lia.
  - unfold hints. simpl. rewrite Ht1. apply Forall_app. split; [done|]. apply Forall_singleton. destruct Ht as [Hl Hr Hu Hf]. split; try done.
    + intros i Hi. destruct (Hu i Hi) as (d & f & Hd & Hfd). exists d, f. rewrite (forked_at t c) by (done || lia). rewrite Hd. simpl. unfold forked. by rewrite Hfd.
    + intros Hn. destruct (Hf Hn) as (d & Hd & Hfd). exists free_fd. split; [|done]. etransitivity; [apply (forked_at t c (next_fd t)); [done|lia]|]. rewrite Hd. simpl. unfold forked. by rewrite Hfd.
  - unfold small. simpl. rewrite length_app, Ht1. simpl. lia.
  - simpl. by rewrite Ht1.
  - intros f x Hx. assert (Hx1 : is_Some (files s1 !! f)).
    { destruct (ro_file _ _ H f x Hx) as (Hn & Hpos & _). destruct (files s1 !! f) eqn:He; [by eexists|]. exfalso.
      assert (Htot : (0 < total f (tables s))%nat) by (rewrite (held_0 f []) in Hn by apply not_elem_of_nil; lia). apply total_pos in Htot as (u & d & Hu & Hd & Hfd). rewrite <- Ht1 in Hu.
      destruct (ro_named _ _ H1 u d f Hu Hd Hfd). congruence. }
    destruct Hx1 as [x1 Hx1]. exists x1. split; [done|]. destruct (ro_file _ _ H f x Hx) as (Hn & _). destruct (ro_file _ _ H1 f x1 Hx1) as (Hn1 & _). rewrite Hn1, Hn, Ht1, held_omap.
    assert (Hnr : nrefs f (fds c) = nrefs f (fds t)).
    { change (fds c) with (forked <$> fds t). generalize (fds t). intros l. induction l as [|d l IH]; [done|]. rewrite fmap_cons, !nrefs_cons, IH. unfold forked. by destruct d as [[g|] fl]. }
    rewrite Hnr. lia.
Qed.

(** *** Execve *)
Lemma release_set_table s p t f : COM_FS_FILE_RELEASE (set_table s p t) f = (s' ← COM_FS_FILE_RELEASE s f; Ok (set_table s' p t)).
Proof.
  destruct f as [f|]; [|done]. simpl. destruct (files s !! f) as [x|]; [|done]. simpl. destruct (vnode x); [|done]. by destruct (_ =? 0).
Qed.

Lemma execve_loop_ok cl_fd cl_file p h m n l : ∀ s pre, (n ≤ length l)%nat → small s → (p < length (tables s))%nat → refs_ok [] (set_table s p (Fdtable h m (pre ++ l))) →
  ∃ s' l', execve_loop cl_fd cl_file s n l = Ok (s', l') ∧ refs_ok [] (set_table s' p (Fdtable h m (pre ++ l'))) ∧ length l' = length l ∧ tables s' = tables s ∧
    (∀ i d', l' !! i = Some d' → l !! i = Some d' ∨ d' = free_fd) ∧
    (∀ i d f, (i < n)%nat → l !! i = Some d → file d = Some f → Z.land cl_fd (flags d) ≠ 0 → l' !! i = Some free_fd).
Proof.
  revert l. induction n as [|n IH]; intros l s pre Hn Hs Hp H; [exists s, l; split_and!; try done; [by left|intros; lia]|].
  destruct l as [|d l]; [simpl in Hn; lia|]. simpl in Hn. cbn [execve_loop].
  assert (Hlook : tables (set_table s p (Fdtable h m (pre ++ d :: l))) !! p = Some (Fdtable h m (pre ++ d :: l))) by (simpl; by apply list_lookup_insert_eq).
  set (cl := match file d with None => Ok false | Some f => _ end).
  assert (Hcl : ∃ b, cl = Ok b ∧ (b = true → file d ≠ None) ∧ (file d ≠ None → Z.land cl_fd (flags d) ≠ 0 → b = true)).
  { unfold cl. destruct (file d) as [f|] eqn:Hf; [|by exists false]. destruct (Z.eqb_spec (Z.land cl_fd (flags d)) 0); simpl; [|by exists true].
    destruct (ro_named _ _ H (Fdtable h m (pre ++ d :: l)) d f) as [x Hx]; [by eapply list_elem_of_lookup_2|simpl; apply elem_of_app; right; by left|done|].
    simpl in Hx. rewrite Hx. simpl. eexists. split; [reflexivity|]. done. }
  destruct Hcl as (b & -> & Hb1 & Hb2). cbn [mbind res_bind]. destruct b; cbn [mbind res_bind].
  - assert (H1 : refs_ok (olist (file d)) (set_table s p (Fdtable h m (pre ++ free_fd :: l)))).
    { rewrite <- (app_nil_r (olist (file d))). replace (set_table s p (Fdtable h m (pre ++ free_fd :: l))) with (set_table (set_table s p (Fdtable h m (pre ++ d :: l))) p (Fdtable h m (pre ++ free_fd :: l)))
        by (unfold set_table; simpl; by rewrite list_insert_insert_eq).
      eapply (exchange_ok [] _ p _ (length pre) d free_fd); [done|exact Hlook| | |]; simpl; [by rewrite lookup_app_r, Nat.sub_diag by done| |rewrite length_insert; slack].
      rewrite insert_app_r_alt, Nat.sub_diag by done. done. }
    destruct (release_opt [] (set_table s p (Fdtable h m (pre ++ free_fd :: l))) (file d)) as (s1 & Hr & H2 & Ht2); [by rewrite app_nil_r|].
    rewrite release_set_table in Hr. destruct (COM_FS_FILE_RELEASE s (file d)) as [s2| | |] eqn:Hrel; simpl in Hr; try done. injection Hr as <-.
    assert (Ht : tables s2 = tables s). { clear -Hrel. destruct (file d) as [f|]; simpl in Hrel; [|congruence]. destruct (files s !! f) as [x|]; simpl in Hrel; [|done].
      destruct (vnode x); [|congruence]. destruct (_ =? 0); injection Hrel as <-; done. }
    cbn [mbind res_bind]. destruct (IH l s2 (pre ++ [free_fd])) as (s3 & l3 & -> & H3 & Hl3 & Ht3 & Hsub & Hcl); [lia|by unfold small; rewrite Ht|by rewrite Ht|by rewrite <- app_assoc|].
    simpl. eexists _, _. split; [reflexivity|]. split; [by rewrite <- app_assoc in H3|]. split; [simpl; by rewrite Hl3|]. split; [congruence|]. split.
    + intros [|i] d' Hi; simpl in *; [injection Hi as <-; by right|by apply Hsub].
    + intros [|i] e f Hi He Hf Hfl; simpl in *; [done|apply (Hcl i e f); [lia|done..]].
  - destruct (IH l s (pre ++ [d])) as (s3 & l3 & -> & H3 & Hl3 & Ht3 & Hsub & Hcl); [lia|done|done|by rewrite <- app_assoc|].
    simpl. eexists _, _. split; [reflexivity|]. split; [by rewrite <- app_assoc in H3|]. split; [simpl; by rewrite Hl3|]. split; [congruence|]. split.
    + intros [|i] d' Hi; simpl in *; [by left|by apply Hsub].
    + intros [|i] e f Hi He Hf Hfl; simpl in *; [|apply (Hcl i e f); [lia|done..]]. injection He as ->. assert (false = true) as Habs by (apply Hb2; congruence). done.
Qed.

(** ** The theorems *)
Inductive fd_op : Type :=
  | FOpen (a vn fl : Z)
  | FClose (fd : Z)
  | FDup3 (old_fd new_fd : Z)
  | FFcntl (fd : Z) (op : fcntl_op) (arg1 : Z)
  | FSeek (fd offset : Z) (whence : seek_whence)
  | FPipe (ra wa rv wv : Z)
  | FFork.

Definition fd_do (size : Z → errno + Z) (cloexec : Z) (s : fdstate) (p : nat) (o : fd_op) : res fdstate :=
  match o with
  | FOpen a vn fl => '(_, s) ← openat_install s p a vn fl; Ok s
  | FClose fd => '(_, s) ← com_sys_syscall_close s p fd; Ok s
  | FDup3 old_fd new_fd => '(_, s) ← com_sys_syscall_dup3 s p old_fd new_fd; Ok s
  | FFcntl fd op arg1 => '(_, s) ← com_sys_syscall_fcntl cloexec s p fd op arg1; Ok s
  | FSeek fd offset whence => '(_, s) ← com_sys_syscall_seek size s p fd offset whence; Ok s
  | FPipe ra wa rv wv => '(_, s) ← com_sys_syscall_pipe s p ra wa rv wv; Ok s
  | FFork => com_sys_syscall_fork s p
  end.

(** No descriptor is CONFIG_OPEN_MAX itself, the allocator gives new
    addresses, the call does not give out the last free descriptor, a pipe
    leaves one free, a duplicate has a free descriptor at or above the one
    asked for, and a table that is forked has not lost track of the
    descriptors below [max_fd]; there is room for one more process. *)
Definition fd_op_ok (s : fdstate) (t : fdtable) (o : fd_op) : Prop :=
  match o with
  | FOpen a _ _ => files s !! a = None ∧ (next_fd t = CONFIG_OPEN_MAX ∨ ∃ j, next_fd t < j ∧ fd_free t j)
  | FClose fd | FSeek fd _ _ => fd ≠ CONFIG_OPEN_MAX
  | FDup3 old_fd new_fd => old_fd ≠ CONFIG_OPEN_MAX ∧ new_fd ≠ CONFIG_OPEN_MAX
  | FFcntl fd op arg1 => fd ≠ CONFIG_OPEN_MAX ∧ dup_room t op arg1
  | FPipe ra wa _ _ => files s !! ra = None ∧ files s !! wa = None ∧ ra ≠ wa ∧ pipe_room t
  | FFork => covers t ∧ Z.of_nat (length (tables s)) < CONFIG_PROC_MAX
  end.

(** C19: The calls on descriptors keep the count of every file equal to the
    number of descriptors that name it, and the hint of every table at its
    lowest free descriptor. From such a state [open], [close], [dup3],
    [fcntl], [seek], [pipe] and [fork] all return and leave such a state,
    within the limits of [fd_op_ok]: the number passed is not CONFIG_OPEN_MAX
    itself, [open] and [pipe] leave a descriptor free or find the table full,
    F_DUPFD finds a free descriptor where it looks, and [max_fd] of a table
    that is forked covers its descriptors. Past each of these limits the
    code fails: [descriptor_out_of_bounds], [last_descriptor_reused],
    [pipe_one_descriptor] and [fork_forgets_max_fd]. *)
Theorem fd_ops_keep_ok size cloexec s p t o : files_ok s → tables s !! p = Some t → fd_op_ok s t o →
  ∃ s', fd_do size cloexec s p o = Ok s' ∧ files_ok s'.
Proof.
  intros H Hp Ho. destruct o as [a vn fl|fd|old_fd new_fd|fd op arg1|fd offset whence|ra wa rv wv|]; simpl in *.
  - destruct Ho as [Ha Hr]. destruct (open_ok s p t a vn fl H Hp Ha Hr) as (r & s' & -> & ? & _). by exists s'.
  - unfold com_sys_syscall_close. destruct (close_file_ok s p t fd H Hp Ho) as (e & s' & -> & ? & _). by exists s'.
  - destruct Ho as [? ?]. destruct (dup3_ok s p t old_fd new_fd H Hp) as (r & s' & -> & ?); try done. by exists s'.
  - destruct Ho as [? ?]. destruct (fcntl_ok cloexec s p t fd op arg1 H Hp) as (r & s' & -> & ?); try done. by exists s'.
  - destruct (seek_ok size s p t fd offset whence H Hp Ho) as (r & s' & -> & ?). by exists s'.
  - destruct Ho as (? & ? & ? & ?). destruct (pipe_ok s p t ra wa rv wv H Hp) as (r & s' & -> & ?); try done. by exists s'.
  - destruct Ho as [? ?]. destruct (fork_ok s p t H Hp) as (s' & -> & ? & _); try done. by exists s'.
Qed.

(** opening a file gives the lowest free descriptor, and EMFILE exactly when the table is full; no other descriptor changes. *)
Theorem openat_lowest s p t a vn fl : files_ok s → tables s !! p = Some t → files s !! a = None →
  next_fd t = CONFIG_OPEN_MAX ∨ (∃ j, next_fd t < j ∧ fd_free t j) →
  ∃ r s', openat_install s p a vn fl = Ok (r, s') ∧
    (err r = EMFILE ∧ (∀ i, 0 ≤ i < CONFIG_OPEN_MAX → fd_used t i) ∨
     err r = E0 ∧ fd_free t (value r) ∧ (∀ i, 0 ≤ i < value r → fd_used t i) ∧ files s' !! a = Some (File 0 fl 1 (Some vn)) ∧
       ∃ t' g, tables s' !! p = Some t' ∧ fd_at t' (value r) = Some (Filedesc (Some a) g) ∧ ∀ i, 0 ≤ i → i ≠ value r → fd_at t' i = fd_at t i).
Proof.
  intros H Hp Ha Hr. pose proof (hints_at s p t (fo_hints _ H) Hp) as Ht. destruct (open_ok s p t a vn fl H Hp Ha Hr) as (r & s' & -> & _ & Hfull & Hfree).
  exists r, s'. split; [done|]. pose proof (he_range _ Ht). destruct (decide (next_fd t = CONFIG_OPEN_MAX)) as [Hn|Hn].
  - left. destruct (Hfull Hn) as [-> _]. split; [done|]. intros i Hi. apply Ht. lia.
  - right. destruct Hfree as (-> & ? & ?); [lia|]. simpl. split; [done|]. split; [apply Ht; lia|]. split; [|done]. intros i Hi. apply Ht. lia.
Qed.

(** the child of a fork has the descriptors of its parent, which name the same files, each counted once more for every descriptor. *)
Theorem fork_shares_files s p t : files_ok s → tables s !! p = Some t → covers t → Z.of_nat (length (tables s)) < CONFIG_PROC_MAX →
  ∃ s' c, com_sys_syscall_fork s p = Ok s' ∧ tables s' = tables s ++ [c] ∧ files_ok s' ∧
    (∀ i, 0 ≤ i → file <$> fd_at c i = file <$> fd_at t i) ∧
    (∀ f x, files s !! f = Some x → ∃ x', files s' !! f = Some x' ∧ num_ref x' = num_ref x + Z.of_nat (nrefs f (fds t))).
Proof.
  intros H Hp Hc Hn. destruct (fork_ok s p t H Hp Hc Hn) as (s' & -> & ? & Ht & Hf). eexists s', _. split; [done|]. split; [exact Ht|]. split; [done|]. split; [|done].
  intros i Hi. rewrite (forked_at t) by done. destruct (fd_at t i) as [[[f|] fl]|]; done.
Qed.

(** closing a descriptor frees it; the file goes, and its vnode is released, exactly when no other descriptor names it. *)
Theorem close_last_frees s p t fd f x v : files_ok s → tables s !! p = Some t → 0 ≤ fd < CONFIG_OPEN_MAX →
  file <$> fd_at t fd = Some (Some f) → files s !! f = Some x → vnode x = Some v →
  ∃ s' t', com_sys_syscall_close s p fd = Ok (COM_SYS_SYSCALL_OK 0, s') ∧ tables s' = <[p := t']> (tables s) ∧ fd_free t' fd ∧
    (∀ g y, g ≠ f → files s' !! g = Some y ↔ files s !! g = Some y) ∧
    (files s' !! f = None ↔ total f (tables s) = 1%nat) ∧
    released s' = released s ++ (if bool_decide (total f (tables s) = 1%nat) then [v] else []).
Proof.
  intros H Hp Hfd Hf Hx Hv. unfold com_sys_syscall_close, com_sys_proc_close_file. rewrite Hp. cbn [deref mbind res_bind].
  destruct (close_nolock_ok s p t fd H Hp) as (e & o & t' & -> & H1 & _ & Hfr & Hcase); [lia|]. cbn [mbind res_bind].
  assert (Ho : e = E0 ∧ o = Some f ∧ fds t' = <[Z.to_nat fd := free_fd]> (fds t)).
  { destruct Hcase as [(_ & -> & [g ->] & Hg & Ht')|(_ & _ & ->)]; [rewrite Hf in Hg; injection Hg as ->; done|].
    destruct (Hfr Hfd) as (d & Hd & Hdf). rewrite Hd in Hf. simpl in Hf. congruence. }
  destruct Ho as (-> & -> & Ht').
  destruct (release_ok [] (set_table s p t') f H1) as (s' & -> & H' & Ht & Hother & Hnone & Hrel). cbn [mbind res_bind].
  assert (Htot : total f (tables s) = S (total f (tables (set_table s p t')))).
  { simpl. pose proof (total_insert f (tables s) p t t' Hp) as Hti. destruct (fd_at t fd) as [d|] eqn:Hd; [|done]. simpl in Hf. injection Hf as Hf.
    pose proof (nrefs_insert f (fds t) (Z.to_nat fd) d free_fd Hd) as Hr. rewrite bool_decide_eq_true_2 in Hr by done. simpl in Hr. rewrite <- Ht' in Hr. lia. }
  eexists s', t'. split; [done|]. split; [by rewrite Ht|]. split; [by apply Hfr|]. split; [done|]. rewrite held_0 in Hnone by apply not_elem_of_nil. split; [rewrite Hnone, Htot; lia|].
  rewrite (Hrel v) by (simpl; by rewrite Hx, <- Hv). rewrite held_0 by apply not_elem_of_nil. simpl released. f_equal.
  rewrite (bool_decide_ext (total f (tables (set_table s p t')) = 0 ∧ 0 = 0)%nat (total f (tables s) = 1%nat)); [done|]. lia.
Qed.

(** replacing the program closes every descriptor below [max_fd] marked close-on-exec, keeps the counts exact, and changes no descriptor
    but to close it. *)
Theorem execve_closes cl_fd cl_file s p t : files_ok s → tables s !! p = Some t → 0 ≤ max_fd t ≤ CONFIG_OPEN_MAX →
  ∃ s' t', execve_files cl_fd cl_file s p = Ok s' ∧ refs_ok [] s' ∧ tables s' = <[p := t']> (tables s) ∧
    (∀ i d', fd_at t' i = Some d' → fd_at t i = Some d' ∨ d' = free_fd) ∧
    (∀ i d, 0 ≤ i < max_fd t → fd_at t i = Some d → fd_used t i → Z.land cl_fd (flags d) ≠ 0 → fd_free t' i).
Proof.
  intros [H Hh Hs] Hp Hm. pose proof (hints_at s p t Hh Hp) as Ht. unfold execve_files. rewrite Hp. cbn [deref mbind res_bind].
  destruct (execve_loop_ok cl_fd cl_file p (next_fd t) (max_fd t) (Z.to_nat (max_fd t)) (fds t) s []) as (s' & l' & -> & H' & Hl & Ht' & Hsub & Hcl).
  - rewrite (he_len _ Ht). lia.
  - done.
  - by eapply lookup_lt_Some.
  - simpl app. rewrite set_table_id; [done|]. rewrite Hp. by destruct t.
  - cbn [mbind res_bind]. eexists _, _. split; [reflexivity|]. split; [done|]. split; [simpl; by rewrite Ht'|]. split; [intros i d'; apply Hsub|].
    intros i d Hi Hd (d1 & f & Hd1 & Hf) Hfl. exists free_fd. split; [|done]. apply (Hcl (Z.to_nat i) d f); [lia|done|congruence|done].
Qed.

(** ** Examples *)
Definition demo_fd (k : nat) (n m : Z) : fdtable := Fdtable n m (replicate k (Filedesc (Some 1) 0) ++ replicate (96 - k) free_fd).
Definition demo_files (k : nat) (n : Z) : fdstate := Fdstate {[1 := File 0 0 (Z.of_nat k) (Some 10)]} [demo_fd k n n] [].

(** The last free descriptor is given out twice: the hint is moved before the
    descriptor is filled, so it comes back to it. *)
Theorem last_descriptor_reused :
  ∃ s1 s2, openat_install (demo_files 95 95) 0 2 20 0 = Ok (Ret 95 E0, s1) ∧ openat_install s1 0 3 30 0 = Ok (Ret 95 E0, s2) ∧
    total 2 (tables s2) = 0%nat ∧ num_ref <$> files s2 !! 2 = Some 1.
Proof. eexists _, _. split; [vm_compute; reflexivity|]. split; [vm_compute; reflexivity|]. split; vm_compute; reflexivity. Qed.

(** For the same reason a pipe made with one descriptor left has one end. *)
Theorem pipe_one_descriptor :
  ∃ s1, com_sys_syscall_pipe (demo_files 95 95) 0 2 3 20 30 = Ok (Ret 0 E0, (95, 95), s1) ∧ total 2 (tables s1) = 0%nat ∧ num_ref <$> files s1 !! 2 = Some 1.
Proof. eexists. split; [vm_compute; reflexivity|]. split; vm_compute; reflexivity. Qed.

(** Duplicating a descriptor onto itself closes it, without an error. *)
Theorem dup3_same_closes :
  ∃ s1, com_sys_syscall_dup3 (demo_files 3 3) 0 1 1 = Ok (Ret 0 E0, s1) ∧ (λ t, file <$> fd_at t 1) <$> tables s1 !! 0%nat = Some (Some None).
Proof. eexists. split; [vm_compute; reflexivity|]. vm_compute. reflexivity. Qed.

(** [max_fd] is not inherited: a child that opens nothing passes no descriptor
    on to its own children, and closes none when it exits. *)
Theorem fork_forgets_max_fd :
  ∃ s1 s2 s3, com_sys_syscall_fork (demo_files 3 3) 0 = Ok s1 ∧ com_sys_syscall_fork s1 1 = Ok s2 ∧
    (λ t, nrefs 1 (fds t)) <$> tables s2 = [3%nat; 3%nat; 0%nat] ∧
    com_sys_proc_exit_files s1 1 = Ok s3 ∧ num_ref <$> files s3 !! 1 = Some 6.
Proof.
  eexists _, _, _. split; [vm_compute; reflexivity|]. split; [vm_compute; reflexivity|]. split; [vm_compute; reflexivity|]. split; vm_compute; reflexivity.
Qed.

(** Asking for a descriptor in a full table reads past its end, and so does
    any call with the descriptor CONFIG_OPEN_MAX. *)
Theorem descriptor_out_of_bounds :
  com_sys_proc_duplicate_file_nolock (demo_files 96 96) 0 0 0 = Fault ∧ com_sys_syscall_close (demo_files 3 3) 0 CONFIG_OPEN_MAX = Fault.
Proof. split; vm_compute; reflexivity. Qed.

(** A descriptor that is not open can be duplicated. *)
Theorem dup_closed_succeeds :
  ∃ s1, com_sys_syscall_dup3 (demo_files 3 3) 0 50 4 = Ok (Ret 0 E0, s1) ∧ files s1 = files (demo_files 3 3).
Proof. eexists. split; vm_compute; reflexivity. Qed.

Definition demo_3 : fdstate := demo_files 3 3.
Definition demo_t : fdtable := demo_fd 3 3 3.

Lemma demo_len : length (fds demo_t) = Z.to_nat CONFIG_OPEN_MAX.
Proof. reflexivity. Qed.

Lemma demo_at i : 0 ≤ i → fd_at demo_t i = if i <? 3 then Some (Filedesc (Some 1) 0) else if i <? 96 then Some free_fd else None.
Proof.
  intros Hi. change (fd_at demo_t i) with ((replicate 3 (Filedesc (Some 1) 0) ++ replicate 93 free_fd) !! Z.to_nat i).
  destruct (Z.ltb_spec i 3); [rewrite lookup_app_l by (rewrite length_replicate; lia); apply lookup_replicate_2; lia|].
  rewrite lookup_app_r by (rewrite length_replicate; lia). rewrite length_replicate. destruct (Z.ltb_spec i 96); [apply lookup_replicate_2; lia|].
  apply lookup_ge_None_2. rewrite length_replicate. lia.
Qed.

Lemma demo_used i : 0 ≤ i → fd_used demo_t i ↔ i < 3.
Proof.
  intros Hi. unfold fd_used. rewrite demo_at by done. destruct (Z.ltb_spec i 3).
  - split; [done|]. intros _. by eexists _, 1.
  - split; [|lia]. intros (d & f & Hd & Hf). destruct (i <? 96); [|done]. injection Hd as <-. done.
Qed.

Lemma demo_free i : 3 ≤ i < 96 → fd_free demo_t i.
Proof. intros Hi. exists free_fd. rewrite demo_at by lia. destruct (Z.ltb_spec i 3), (Z.ltb_spec i 96); try lia. done. Qed.

Lemma demo_files_ok : files_ok demo_3.
Proof.
  split.
  - split.
    + intros t ->%list_elem_of_singleton. exact demo_len.
    + intros f x Hx. change (({[1 := File 0 0 3 (Some 10)]} : gmap Z com_file) !! f = Some x) in Hx. apply lookup_singleton_Some in Hx as [<- <-]. split; [vm_compute; reflexivity|]. split; [vm_compute; reflexivity|by eexists].
    + intros t d f ->%list_elem_of_singleton Hd Hf. change (fds (demo_fd 3 3 3)) with (replicate 3 (Filedesc (Some 1) 0) ++ replicate 93 free_fd) in Hd.
      apply elem_of_app in Hd as [[-> _]%elem_of_replicate|[-> _]%elem_of_replicate]; [|done]. injection Hf as <-. by eexists.
    + intros f ?%not_elem_of_nil. done.
    + vm_compute. reflexivity.
  - apply Forall_singleton. split; [exact demo_len|unfold CONFIG_OPEN_MAX; simpl; lia| |].
    + intros i Hi. apply demo_used; simpl in Hi; lia.
    + intros _. apply demo_free. simpl. lia.
  - vm_compute. discriminate.
Qed.

Lemma demo_covers : covers demo_t.
Proof. split; [unfold CONFIG_OPEN_MAX; simpl; lia|]. intros i Hi Hu%demo_used; [|done]. exact Hu. Qed.

Theorem fd_ops_keep_ok_witness : ∃ s', fd_do (λ _, inr 0) 1 demo_3 0 (FPipe 2 3 20 30) = Ok s' ∧ files_ok s'.
Proof.
  apply (fd_ops_keep_ok _ _ demo_3 0 demo_t (FPipe 2 3 20 30) demo_files_ok eq_refl). split; [reflexivity|]. split; [reflexivity|]. split; [discriminate|].
  right. exists 4, 5. split; [reflexivity|]. split; [reflexivity|]. split; apply demo_free; split; (reflexivity || discriminate).
Defined.

Theorem openat_lowest_witness : ∃ s', openat_install demo_3 0 2 20 0 = Ok (Ret 3 E0, s') ∧ fd_free demo_t 3.
Proof.
  destruct (openat_lowest demo_3 0 demo_t 2 20 0 demo_files_ok eq_refl eq_refl) as (r & s' & Hs & Hc).
  - right. exists 4. split; [reflexivity|]. apply demo_free. split; (reflexivity || discriminate).
  - assert (Hr : r = Ret 3 E0) by (vm_compute in Hs; injection Hs as <- _; reflexivity). rewrite Hr in Hs, Hc. exists s'. split; [exact Hs|].
    destruct Hc as [[He _]|(_ & Hf & _)]; [discriminate|exact Hf].
Defined.

Theorem fork_shares_files_witness : ∃ s' c, com_sys_syscall_fork demo_3 0 = Ok s' ∧ tables s' = tables demo_3 ++ [c] ∧ files_ok s' ∧
    (∀ i, 0 ≤ i → file <$> fd_at c i = file <$> fd_at demo_t i) ∧
    (∀ f x, files demo_3 !! f = Some x → ∃ x', files s' !! f = Some x' ∧ num_ref x' = num_ref x + Z.of_nat (nrefs f (fds demo_t))).
Proof. exact (fork_shares_files demo_3 0 demo_t demo_files_ok eq_refl demo_covers eq_refl). Defined.

Theorem close_last_frees_witness : ∃ s' t', com_sys_syscall_close demo_3 0 1 = Ok (COM_SYS_SYSCALL_OK 0, s') ∧ fd_free t' 1 ∧ tables s' = <[0%nat := t']> (tables demo_3).
Proof.
  destruct (close_last_frees demo_3 0 demo_t 1 1 (File 0 0 3 (Some 10)) 10 demo_files_ok eq_refl) as (s' & t' & Hs & Ht & Hf & _); try reflexivity.
  - split; (reflexivity || discriminate).
  - exists s', t'. split; [exact Hs|]. split; [exact Hf|exact Ht].
Defined.

Theorem execve_closes_witness : ∃ s' t', execve_files 1 0 demo_3 0 = Ok s' ∧ refs_ok [] s' ∧ tables s' = <[0%nat := t']> (tables demo_3).
Proof.
  destruct (execve_closes 1 0 demo_3 0 demo_t demo_files_ok eq_refl) as (s' & t' & Hs & Hr & Ht & _); [split; discriminate|].
  exists s', t'. split; [exact Hs|]. split; [exact Hr|exact Ht].
Defined.
