(* ===== verification/Pipefs.v ===== *)
(** * Pipes, src/com/fs/pipefs.c

    A pipe is a page used as a ring, with a queue of sleeping readers and one
    of sleeping writers under one condition variable. Each of the calls is cut
    at the points where it lets go of the lock: [read_section] and
    [write_section] run from one such point to the next, and a machine of
    events interleaves the sections of any number of threads with closes and
    signals. [ksync_wait] appends the caller to a queue and [ksync_notify]
    takes the first thread off it (com/sys/sched.c), which is then awake and
    goes on when it gets the lock. *)
From S2P Require Import Prelude Mem Ringbuffer.

(** ** Data *)
Definition PIPE_BUF_SZ : Z := ARCH_PAGE_SIZE.

Record pipefs_node : Type := Pipe {
  pbuf : list Z;
  pread : Z;
  pwrite : Z;
  preaders : list Z;
  pwriters : list Z;
  read_end : option Z;
  write_end : option Z
}.

(** What is given back with [com_mm_slab_free]. *)
Inductive pfree : Type := FreePipe | FreeVnode (vnode : Z).
#[export] Instance pfree_eq_dec : EqDecision pfree.
Proof. solve_decision. Defined.

(** ** Operations *)

(** [com_fs_pipefs_new]: the allocators give a page, which keeps what it held
    ([page]), and the vnodes [r] and [w]. *)
Definition com_fs_pipefs_new (page : list Z) (r w : Z) : pipefs_node :=
  Pipe page 0 0 [] [] (Some r) (Some w).

Definition ksync_notify_readers (p : pipefs_node) : pipefs_node :=
  Pipe (pbuf p) (pread p) (pwrite p) (tail (preaders p)) (pwriters p) (read_end p) (write_end p).
Definition ksync_notify_writers (p : pipefs_node) : pipefs_node :=
  Pipe (pbuf p) (pread p) (pwrite p) (preaders p) (tail (pwriters p)) (read_end p) (write_end p).
Definition ksync_wait_reader (t : Z) (p : pipefs_node) : pipefs_node :=
  Pipe (pbuf p) (pread p) (pwrite p) (preaders p ++ [t]) (pwriters p) (read_end p) (write_end p).
Definition ksync_wait_writer (t : Z) (p : pipefs_node) : pipefs_node :=
  Pipe (pbuf p) (pread p) (pwrite p) (preaders p) (pwriters p ++ [t]) (read_end p) (write_end p).

(** The one or two copies out of the page and into it. *)
Definition copy_out (m : mem) (p : pipefs_node) (buf readsz : Z) : res mem :=
  let modidx := pread p mod PIPE_BUF_SZ in
  let end_ := PIPE_BUF_SZ - modidx in
  bs ← rb_load modidx (KMIN readsz end_) (pbuf p);
  let m := wr_bytes m buf bs in
  if end_ <? readsz
  then bs ← rb_load 0 (readsz - end_) (pbuf p); Ok (wr_bytes m (buf + end_) bs)
  else Ok m.

Definition copy_in (m : mem) (p : pipefs_node) (buf writesz : Z) : res (list Z) :=
  let modidx := pwrite p mod PIPE_BUF_SZ in
  let end_ := PIPE_BUF_SZ - modidx in
  b ← rb_store modidx (rd_bytes m buf (Z.to_nat (KMIN writesz end_))) (pbuf p);
  if end_ <? writesz
  then rb_store 0 (rd_bytes m (buf + end_) (Z.to_nat (writesz - end_))) b
  else Ok b.

(** The loop of [com_fs_pipefs_read] up to the next [ksync_wait], with the
    locals [buf], [left] and [read_count]: [inl] of them when it waits,
    [inr read_count] at the label [end]. *)
Fixpoint read_loop (fuel : nat) (m : mem) (p : pipefs_node) (buf left read_count : Z)
    : res (mem * pipefs_node * (Z * Z * Z + Z)) :=
  match fuel with
  | O => Fuel
  | S fuel =>
      if 0 <? left then
        if (pwrite p =? pread p) && negb (bool_decide (write_end p = None))
        then Ok (m, p, inl (buf, left, read_count))
        else
          let diff := u64 (pwrite p - pread p) in
          let readsz := KMIN left diff in
          m ← copy_out m p buf readsz;
          let p := Pipe (pbuf p) (u64 (pread p + readsz)) (pwrite p) (preaders p) (pwriters p)
                     (read_end p) (write_end p) in
          if bool_decide (write_end p = None) then Ok (m, p, inr (read_count + readsz))
          else read_loop fuel m (ksync_notify_writers p) (buf + readsz) (left - readsz)
                 (read_count + readsz)
      else Ok (m, p, inr read_count)
  end.

(** The loop of [com_fs_pipefs_write], likewise. *)
Fixpoint write_loop (fuel : nat) (m : mem) (p : pipefs_node) (req_space buf left write_count : Z)
    : res (pipefs_node * (Z * Z * Z + Z)) :=
  match fuel with
  | O => Fuel
  | S fuel =>
      if 0 <? left then
        let av_space := u64 (PIPE_BUF_SZ - u64 (pwrite p - pread p)) in
        if av_space <? req_space then Ok (p, inl (buf, left, write_count))
        else
          let writesz := KMIN left av_space in
          b ← copy_in m p buf writesz;
          let p := Pipe b (pread p) (u64 (pwrite p + writesz)) (preaders p) (pwriters p)
                     (read_end p) (write_end p) in
          write_loop fuel m (ksync_notify_readers p) req_space (buf + writesz) (left - writesz)
            (write_count + writesz)
      else Ok (p, inr write_count)
  end.

(** A pass through either loop leaves nothing to do or has to wait, so two
    more tests end it. *)
Definition PIPE_FUEL : nat := 3.

(** A call between two of its sections: the vnode it was made on and its
    locals. *)
Inductive pframe : Type :=
  | RFrame (node buf left read_count : Z)
  | WFrame (node req_space buf left write_count : Z).

(** After the label [end], the lock released: what is freed. *)
Definition rw_free (p : pipefs_node) (node : Z) : list pfree :=
  if bool_decide (read_end p = None) && bool_decide (write_end p = None)
  then [FreePipe; FreeVnode node] else [].

(** What a section leaves behind: memory, pipe, and the frame of a call that
    sleeps or the result, the count and what was freed by one that returns. *)
Definition psection : Type := mem * pipefs_node * (pframe + errno * Z * list pfree).

(** [com_fs_pipefs_read] from its start, or from a [ksync_wait] where no
    signal was pending, by thread [t]. *)
Definition read_section (t : Z) (m : mem) (p : pipefs_node) (node buf left read_count : Z)
    : res psection :=
  '(m, p, r) ← read_loop PIPE_FUEL m p buf left read_count;
  match r with
  | inl (buf, lft, n) => Ok (m, ksync_wait_reader t p, inl (RFrame node buf lft n))
  | inr n => Ok (m, p, inr (E0, n, rw_free p node))
  end.

Definition com_fs_pipefs_read (t : Z) (m : mem) (p : pipefs_node) (node buf buflen : Z) : res psection :=
  read_section t m p node buf buflen 0.

Definition write_section (t : Z) (m : mem) (p : pipefs_node) (node req_space buf left write_count : Z)
    : res psection :=
  '(p, r) ← write_loop PIPE_FUEL m p req_space buf left write_count;
  match r with
  | inl (buf, lft, n) => Ok (m, ksync_wait_writer t p, inl (WFrame node req_space buf lft n))
  | inr n => Ok (m, p, inr (E0, n, rw_free p node))
  end.

Definition com_fs_pipefs_write (t : Z) (m : mem) (p : pipefs_node) (node buf buflen : Z) : res psection :=
  let req_space := if PIPE_BUF_SZ <? buflen then 1 else buflen in
  write_section t m p node req_space buf buflen 0.

(** The rest of a call after [ksync_wait]; [sig] says that
    [com_ipc_signal_check] found a signal. *)
Definition wake_section (t : Z) (m : mem) (p : pipefs_node) (sig : bool) (f : pframe) : res psection :=
  match f with
  | RFrame node buf lft n =>
      if sig then Ok (m, p, inr (if n =? 0 then EINTR else E0, n, rw_free p node))
      else read_section t m p node buf lft n
  | WFrame node req buf lft n =>
      if sig then Ok (m, p, inr (if n =? 0 then EINTR else E0, n, rw_free p node))
      else write_section t m p node req buf lft n
  end.

Definition com_fs_pipefs_close (p : pipefs_node) (vnode : Z) : pipefs_node * list pfree :=
  let '(p, has_notified) :=
    if bool_decide (Some vnode = read_end p) then
      (ksync_notify_writers (Pipe (pbuf p) (pread p) (pwrite p) (preaders p) (pwriters p) None (write_end p)),
       negb (bool_decide (pwriters p = [])))
    else if bool_decide (Some vnode = write_end p) then
      (ksync_notify_readers (Pipe (pbuf p) (pread p) (pwrite p) (preaders p) (pwriters p) (read_end p) None),
       negb (bool_decide (preaders p = [])))
    else (p, false) in
  (p, if negb has_notified && bool_decide (write_end p = None) && bool_decide (read_end p = None)
      then [FreePipe; FreeVnode vnode] else []).

(** ** The machine

    The state holds the calls in progress, and two ghost streams: the bytes
    taken from writers and the bytes handed to readers. A call in progress
    whose thread is on neither queue is awake. *)
Record pstate : Type := PState {
  ps_mem : mem;
  ps_pipe : pipefs_node;
  ps_calls : gmap Z pframe;
  ps_freed : list pfree;
  ps_in : list Z;
  ps_out : list Z;
  ps_done : list (Z * errno * Z)
}.

Inductive pevent : Type :=
  | PRead (t node buf buflen : Z)
  | PWrite (t node buf buflen : Z)
  | PRun (t : Z) (sig : bool)
  | PSignal (t : Z)
  | PStore (a v : Z)
  | PClose (vnode : Z).

Definition fcount (f : pframe) : Z :=
  match f with RFrame _ _ _ n | WFrame _ _ _ _ n => n end.
Definition fnode (f : pframe) : Z :=
  match f with RFrame v _ _ _ | WFrame v _ _ _ _ => v end.
Definition is_reader (f : pframe) : bool := match f with RFrame _ _ _ _ => true | _ => false end.
Definition fleft (f : pframe) : Z := match f with RFrame _ _ l _ | WFrame _ _ _ l _ => l end.

(** Installs the result of a section of thread [t] that started with [n0]
    bytes done at [buf]. *)
Definition ps_install (t : Z) (reader : bool) (buf n0 : Z) (s : pstate) (r : psection) : pstate :=
  let '(m, p, out) := r in
  let n := match out with inl f => fcount f | inr (_, n, _) => n end in
  PState m p
    (match out with inl f => <[t := f]> (ps_calls s) | inr _ => delete t (ps_calls s) end)
    (ps_freed s ++ match out with inl _ => [] | inr (_, _, fr) => fr end)
    (if reader then ps_in s else ps_in s ++ rd_bytes (ps_mem s) buf (Z.to_nat (n - n0)))
    (if reader then ps_out s ++ rd_bytes m buf (Z.to_nat (n - n0)) else ps_out s)
    (match out with inl _ => ps_done s | inr (ret, n, _) => ps_done s ++ [(t, ret, n)] end).

Definition punqueue (t : Z) (p : pipefs_node) : pipefs_node :=
  Pipe (pbuf p) (pread p) (pwrite p) (filter (λ u, u ≠ t) (preaders p))
    (filter (λ u, u ≠ t) (pwriters p)) (read_end p) (write_end p).

Definition fbuf (f : pframe) : Z := match f with RFrame _ b _ _ | WFrame _ _ b _ _ => b end.

(** An access to the pipe after it was freed is a fault. [PSignal] wakes a
    sleeping thread ([com_sys_sched_notify_thread]); [PStore] is a store by
    the program into its own memory. *)
Definition pipe_do (e : pevent) (s : pstate) : res pstate :=
  if bool_decide (FreePipe ∈ ps_freed s) then Fault else
  match e with
  | PRead t node buf len =>
      r ← com_fs_pipefs_read t (ps_mem s) (ps_pipe s) node buf len;
      Ok (ps_install t true buf 0 s r)
  | PWrite t node buf len =>
      r ← com_fs_pipefs_write t (ps_mem s) (ps_pipe s) node buf len;
      Ok (ps_install t false buf 0 s r)
  | PRun t sig =>
      f ← deref (ps_calls s !! t);
      r ← wake_section t (ps_mem s) (ps_pipe s) sig f;
      Ok (ps_install t (is_reader f) (fbuf f) (fcount f) s r)
  | PSignal t =>
      Ok (PState (ps_mem s) (punqueue t (ps_pipe s)) (ps_calls s) (ps_freed s) (ps_in s) (ps_out s) (ps_done s))
  | PStore a v =>
      Ok (PState (upd (ps_mem s) a v) (ps_pipe s) (ps_calls s) (ps_freed s) (ps_in s) (ps_out s) (ps_done s))
  | PClose v =>
      let '(p, fr) := com_fs_pipefs_close (ps_pipe s) v in
      Ok (PState (ps_mem s) p (ps_calls s) (ps_freed s ++ fr) (ps_in s) (ps_out s) (ps_done s))
  end.

Definition is_end (p : pipefs_node) (v : Z) : Prop := read_end p = Some v ∨ write_end p = Some v.
#[export] Instance is_end_dec p v : Decision (is_end p v).
Proof. unfold is_end. apply _. Defined.

(** What the rest of the kernel guarantees of the calls: they are made on an
    end that is open, by a thread that is in no other call, and the reference
    a call holds on its file keeps that end open until it returns
    (src/com/sys/syscall/read.c, write.c). Only a thread that is awake runs. *)
Definition pipe_allowed (e : pevent) (s : pstate) : Prop :=
  match e with
  | PRead t node _ len | PWrite t node _ len =>
      ps_calls s !! t = None ∧ is_end (ps_pipe s) node ∧ 0 ≤ len < 2 ^ 64
  | PRun t _ => is_Some (ps_calls s !! t) ∧ ¬ t ∈ preaders (ps_pipe s) ∧ ¬ t ∈ pwriters (ps_pipe s)
  | PSignal _ | PStore _ _ => FreePipe ∉ ps_freed s
  | PClose v => is_end (ps_pipe s) v ∧ ∀ t f, ps_calls s !! t = Some f → fnode f ≠ v
  end.

Fixpoint pipe_run (es : list pevent) (s : pstate) : res pstate :=
  match es with [] => Ok s | e :: es => s ← pipe_do e s; pipe_run es s end.

(** Runs in which every event is allowed, [ok] being a further restriction. *)
Inductive pipe_reach (ok : pevent → pstate → Prop) (s0 : pstate) : pstate → Prop :=
  | pipe_reach_start : pipe_reach ok s0 s0
  | pipe_reach_step e s s' : pipe_reach ok s0 s → pipe_allowed e s → ok e s → pipe_do e s = Ok s' →
      pipe_reach ok s0 s'.

Definition pipe_start (m : mem) (page : list Z) (r w : Z) : pstate :=
  PState m (com_fs_pipefs_new page r w) ∅ [] [] [] [].

(** ** The pipe as a ring *)
Definition as_rb (p : pipefs_node) : kringbuffer := mkRb (pbuf p) PIPE_BUF_SZ (pwrite p) (pread p) false.
Definition pipe_wf (p : pipefs_node) : Prop := rb_wf (as_rb p).
Definition contents (p : pipefs_node) : list Z := rb_contents (as_rb p).
Definition pavail (p : pipefs_node) : Z := u64 (pwrite p - pread p).

Lemma length_contents p : Z.of_nat (length (contents p)) = pavail p.
Proof. apply length_rb_contents. Qed.

Lemma pavail_range p : pipe_wf p → 0 ≤ pavail p ≤ PIPE_BUF_SZ.
Proof. apply (avail_read_range (as_rb p)). Qed.

Lemma av_space_eq p : pipe_wf p → u64 (PIPE_BUF_SZ - u64 (pwrite p - pread p)) = PIPE_BUF_SZ - pavail p.
Proof. apply (avail_write_eq (as_rb p)). Qed.

Lemma pavail_0 p : pipe_wf p → pavail p = 0 ↔ pwrite p = pread p.
Proof.
  intros (_ & _ & Hw & Hr & _). unfold pavail. simpl in *. split; [|intros ->; by rewrite Z.sub_diag].
  intros H. unfold wrap in H. apply Z.mod_divide in H as [k Hk]; [|done].
  assert (k = 0); [|subst; lia]. nia.
Qed.

(** Queues and ends play no part in the contents. *)
Definition same_ring (p p' : pipefs_node) : Prop :=
  pbuf p = pbuf p' ∧ pread p = pread p' ∧ pwrite p = pwrite p'.
Lemma same_ring_as p p' : same_ring p p' → as_rb p = as_rb p'.
Proof. intros (? & ? & ?). unfold as_rb. congruence. Qed.
Lemma same_ring_avail p p' : same_ring p p' → pavail p = pavail p'.
Proof. intros (? & ? & ?). unfold pavail. congruence. Qed.

Lemma copy_out_ok m p buf n : pipe_wf p → 0 ≤ n ≤ pavail p →
  copy_out m p buf n = Ok (wr_bytes m buf (take (Z.to_nat n) (contents p))).
Proof.
  intros Hwf Hn. pose proof (pavail_range p Hwf). unfold contents.
  rewrite contents_pieces by done. cbn [as_rb rb_buffer rb_buffer_size rb_read_index].
  assert (Hlen : Z.of_nat (length (pbuf p)) = PIPE_BUF_SZ) by apply Hwf.
  assert (0 ≤ pread p mod PIPE_BUF_SZ < PIPE_BUF_SZ) by (apply Z.mod_pos_bound; done).
  unfold copy_out. rewrite KMIN_min. cbv zeta. rewrite (rb_load_ok (pread p mod PIPE_BUF_SZ)) by lia. mstep.
  rewrite wr_bytes_app, length_slice, Z2Nat.id by lia.
  destruct (Z.ltb_spec (PIPE_BUF_SZ - pread p mod PIPE_BUF_SZ) n).
  - rewrite rb_load_ok by lia. mstep. by rewrite Z.min_r by lia.
  - by replace (Z.to_nat (n - (PIPE_BUF_SZ - pread p mod PIPE_BUF_SZ))) with O by lia.
Qed.

Lemma copy_in_ok m p buf n : pipe_wf p → 0 ≤ n ≤ PIPE_BUF_SZ - pavail p →
  ∃ b, copy_in m p buf n = Ok b ∧
    let p' := Pipe b (pread p) (u64 (pwrite p + n)) (preaders p) (pwriters p) (read_end p) (write_end p) in
    pipe_wf p' ∧ contents p' = contents p ++ rd_bytes m buf (Z.to_nat n).
Proof.
  intros Hwf Hn. destruct (write_chunk_spec m (as_rb p) buf n Hwf) as (rb & Hrun & Hwf' & Hc & _).
  { by rewrite avail_write_eq. }
  unfold write_chunk in Hrun. rewrite rb_idx in Hrun by done.
  cbn [as_rb rb_buffer rb_buffer_size rb_write_index rb_read_index rb_is_eof] in Hrun.
  unfold copy_in. apply bind_Ok in Hrun as (b1 & -> & Hrun). mstep.
  apply bind_Ok in Hrun as (b & -> & [= <-]). by exists b.
Qed.

Lemma read_off_ok p n : pipe_wf p → 0 ≤ n ≤ pavail p →
  let p' := Pipe (pbuf p) (u64 (pread p + n)) (pwrite p) (preaders p) (pwriters p) (read_end p) (write_end p) in
  pipe_wf p' ∧ contents p' = drop (Z.to_nat n) (contents p).
Proof. intros. by apply (contents_after_read (as_rb p)). Qed.

(** ** What a section does *)
Definition popen (p : pipefs_node) : bool := negb (bool_decide (write_end p = None)).

Definition after_read (p : pipefs_node) (k : Z) : pipefs_node :=
  Pipe (pbuf p) (u64 (pread p + k)) (pwrite p) (preaders p)
    (if (0 <? k) && popen p then tail (pwriters p) else pwriters p) (read_end p) (write_end p).
Definition after_write (p : pipefs_node) (b : list Z) (k : Z) : pipefs_node :=
  Pipe b (pread p) (u64 (pwrite p + k)) (if 0 <? k then tail (preaders p) else preaders p)
    (pwriters p) (read_end p) (write_end p).

Lemma read_idx_small p : pipe_wf p → u64 (pread p) = pread p ∧ u64 (pwrite p) = pwrite p.
Proof. intros (_ & _ & ? & ? & _). split; by apply wrap_small. Qed.

Lemma after_read_0 p : pipe_wf p → after_read p 0 = p.
Proof. intros [Hr _]%read_idx_small. unfold after_read. rewrite Z.add_0_r, Hr. by destruct p. Qed.

Lemma after_write_0 p : pipe_wf p → after_write p (pbuf p) 0 = p.
Proof. intros [_ Hw]%read_idx_small. unfold after_write. rewrite Z.add_0_r, Hw. by destruct p. Qed.

(** The read loop moves the oldest bytes, as many as are asked for and there. *)
Lemma read_loop_spec m p buf lft n : pipe_wf p → 0 ≤ lft →
  let k := Z.min lft (pavail p) in
  read_loop PIPE_FUEL m p buf lft n =
    Ok (wr_bytes m buf (take (Z.to_nat k) (contents p)), after_read p k,
        if (k <? lft) && popen p then inl (buf + k, lft - k, n + k) else inr (n + k)).
Proof.
  intros Hwf Hl k. pose proof (pavail_range p Hwf). unfold PIPE_FUEL, popen. cbn [read_loop].
  destruct (Z.ltb_spec 0 lft) as [Hl0|Hl0].
  2:{ replace k with 0 by lia. replace lft with 0 by lia.
      rewrite after_read_0 by done. by rewrite (Z.add_0_r n). }
  destruct (Z.eqb_spec (pwrite p) (pread p)) as [He|He]; cbn [andb].
  - apply (pavail_0 p Hwf) in He. replace k with 0 by lia.
    destruct (bool_decide (write_end p = None)) eqn:Hc; cbn [negb andb].
    + fold (pavail p). rewrite He, KMIN_min, Z.min_r by lia.
      rewrite copy_out_ok by (done || lia). mstep. cbn [write_end]. rewrite Hc. rewrite andb_false_r.
      unfold after_read, popen. by rewrite Hc, andb_false_r.
    + destruct (Z.ltb_spec 0 lft); [|lia]. cbn [andb].
      rewrite after_read_0 by done. by rewrite !Z.add_0_r, Z.sub_0_r.
  - assert (0 < pavail p) by (assert (pavail p ≠ 0) by (rewrite pavail_0; done); lia).
    fold (pavail p). rewrite KMIN_min. fold k. rewrite copy_out_ok by (done || lia). mstep. cbn [write_end].
    destruct (bool_decide (write_end p = None)) eqn:Hc; cbn [negb andb].
    + rewrite andb_false_r. unfold after_read, popen. by rewrite Hc, andb_false_r.
    + set (p1 := Pipe _ _ _ _ _ _ _).
      assert (ksync_notify_writers p1 = after_read p k) as ->.
      { unfold after_read, popen. rewrite Hc. destruct (Z.ltb_spec 0 k); [done|lia]. }
      destruct (Z.ltb_spec 0 (lft - k)), (Z.ltb_spec k lft); try lia; [|done]. cbn [andb].
      unfold after_read. cbn [pwrite pread write_end]. rewrite Hc.
      destruct (Z.eqb_spec (pwrite p) (u64 (pread p + k))) as [|Hne]; [done|]. exfalso. apply Hne.
      replace k with (pavail p) by lia. unfold pavail. rewrite wrap_add_r.
      replace (pread p + (pwrite p - pread p)) with (pwrite p) by lia. by rewrite (proj2 (read_idx_small p Hwf)).
Qed.

Definition wcount (req lft av : Z) : Z := if av <? req then 0 else Z.min lft av.

(** The write loop appends as many bytes as fit, or none when fewer than
    [req_space] would. *)
Lemma write_loop_spec m p req buf lft n :
  pipe_wf p → 0 ≤ lft → req ≤ PIPE_BUF_SZ → (0 < lft → 1 ≤ req) →
  let k := wcount req lft (PIPE_BUF_SZ - pavail p) in
  ∃ b, write_loop PIPE_FUEL m p req buf lft n =
      Ok (after_write p b k, if k <? lft then inl (buf + k, lft - k, n + k) else inr (n + k)) ∧
    pipe_wf (after_write p b k) ∧
    contents (after_write p b k) = contents p ++ rd_bytes m buf (Z.to_nat k).
Proof.
  intros Hwf Hl Hreq Hreq1 k. pose proof (pavail_range p Hwf). unfold PIPE_FUEL. cbn [write_loop].
  assert (Hz : k = 0 → pipe_wf (after_write p (pbuf p) k) ∧
    contents (after_write p (pbuf p) k) = contents p ++ rd_bytes m buf (Z.to_nat k)).
  { intros ->. rewrite after_write_0 by done. split; [done|]. by rewrite app_nil_r. }
  destruct (Z.ltb_spec 0 lft) as [Hl0|Hl0].
  2:{ assert (k = 0) as Hk by (subst k; unfold wcount; zcases; lia). exists (pbuf p). split; [|by apply Hz].
      rewrite Hk, after_write_0 by done. destruct (Z.ltb_spec 0 lft); [lia|]. by rewrite Z.add_0_r. }
  rewrite av_space_eq by done. subst k. unfold wcount in *.
  destruct (Z.ltb_spec (PIPE_BUF_SZ - pavail p) req).
  { exists (pbuf p). split; [|by apply Hz]. rewrite after_write_0 by done.
    destruct (Z.ltb_spec 0 lft); [|lia]. by rewrite !Z.add_0_r, Z.sub_0_r. }
  clear Hz. specialize (Hreq1 Hl0). rewrite KMIN_min. set (k := Z.min lft _).
  destruct (copy_in_ok m p buf k Hwf) as (b & -> & Hwf' & Hc); [lia|]. mstep. exists b.
  set (p1 := Pipe _ _ _ _ _ _ _) in *.
  assert (Hp1 : ksync_notify_readers p1 = after_write p b k).
  { unfold after_write. destruct (Z.ltb_spec 0 k); [done|lia]. }
  assert (Hr : same_ring (after_write p b k) p1) by done. apply same_ring_as in Hr.
  unfold pipe_wf, contents in *. rewrite Hr. split; [|done]. rewrite Hp1.
  destruct (Z.ltb_spec 0 (lft - k)), (Z.ltb_spec k lft); try lia; [|done].
  change (u64 (pwrite (after_write p b k) - pread (after_write p b k))) with (u64 (pwrite p1 - pread p1)).
  rewrite av_space_eq by done.
  assert (pavail p1 = PIPE_BUF_SZ) as ->; [|destruct (Z.ltb_spec (PIPE_BUF_SZ - PIPE_BUF_SZ) req); [done|lia]].
  pose proof (length_contents p1) as Hlen. unfold contents in Hlen. rewrite Hc, length_app, length_rd_bytes in Hlen.
  pose proof (length_contents p). unfold contents in *. lia.
Qed.

Lemma after_read_wf p k : pipe_wf p → 0 ≤ k ≤ pavail p →
  pipe_wf (after_read p k) ∧ contents (after_read p k) = drop (Z.to_nat k) (contents p) ∧
  pavail (after_read p k) = pavail p - k.
Proof.
  intros Hwf Hk. destruct (read_off_ok p k Hwf Hk) as [Hwf' Hc]. set (p1 := Pipe _ _ _ _ _ _ _) in *.
  assert (Hr : same_ring (after_read p k) p1) by done. pose proof (same_ring_avail _ _ Hr) as Ha.
  apply same_ring_as in Hr. unfold pipe_wf, contents in *. rewrite Hr. split_and!; [done..|].
  rewrite Ha. apply (avail_read_range (as_rb p)) in Hwf as ?.
  pose proof (length_contents p1) as Hl. unfold contents in Hl. rewrite Hc, length_drop in Hl.
  pose proof (length_contents p) as Hl'. unfold contents in Hl'. lia.
Qed.

Lemma after_write_avail p b m buf k : 0 ≤ k →
  contents (after_write p b k) = contents p ++ rd_bytes m buf (Z.to_nat k) →
  pavail (after_write p b k) = pavail p + k.
Proof.
  intros Hk Hc. rewrite <- !length_contents, Hc, length_app, length_rd_bytes. lia.
Qed.

(** ** The invariant of the machine *)
Definition frame_ok (f : pframe) : Prop :=
  0 ≤ fleft f ∧ 0 ≤ fcount f ∧ fcount f + fleft f < 2 ^ 64 ∧
  match f with
  | RFrame _ _ _ _ => True
  | WFrame _ req _ lft n => (0 < lft → 1 ≤ req) ∧ req ≤ PIPE_BUF_SZ ∧ (req = 1 ∨ req = lft ∧ n = 0)
  end.

Record pinv (s : pstate) : Prop := {
  i_wf : pipe_wf (ps_pipe s);
  i_fifo : ps_in s = ps_out s ++ contents (ps_pipe s);
  i_frames : ∀ t f, ps_calls s !! t = Some f → frame_ok f ∧ is_end (ps_pipe s) (fnode f);
  i_readers : ∀ t, t ∈ preaders (ps_pipe s) → ∃ f, ps_calls s !! t = Some f ∧ is_reader f = true;
  i_writers : ∀ t, t ∈ pwriters (ps_pipe s) → ∃ f, ps_calls s !! t = Some f ∧ is_reader f = false;
  i_nodup : NoDup (preaders (ps_pipe s)) ∧ NoDup (pwriters (ps_pipe s));
  i_ends : ∀ v, read_end (ps_pipe s) = Some v → write_end (ps_pipe s) ≠ Some v;
  i_freed : FreePipe ∈ ps_freed s → read_end (ps_pipe s) = None ∧ write_end (ps_pipe s) = None
}.

Lemma is_end_open p v : is_end p v → ¬ (read_end p = None ∧ write_end p = None).
Proof. intros [H|H] [??]; congruence. Qed.

Lemma rw_free_end p v w : is_end p v → rw_free p w = [].
Proof. unfold rw_free. intros [->| ->]; [done|by destruct (read_end p)]. Qed.

Lemma elem_of_tail {A} (x : A) l : x ∈ tail l → x ∈ l.
Proof. destruct l; [done|]. simpl. by right. Qed.
Lemma NoDup_tail {A} (l : list A) : NoDup l → NoDup (tail l).
Proof. destruct l; [done|]. by intros [_ ?]%NoDup_cons. Qed.

(** A section of thread [t] seen from a queue: it takes threads off it, and
    [t] joins it when it sleeps there. *)
Definition joins (t : Z) (b : bool) : list Z := if b then [t] else [].
Definition sleeps_on (reader : bool) (out : pframe + errno * Z * list pfree) : bool :=
  match out with inl f => eqb (is_reader f) reader | inr _ => false end.

Lemma queue_join Q q t b : NoDup Q → t ∉ Q → q `sublist_of` Q →
  NoDup (q ++ joins t b) ∧ ∀ u, u ∈ q ++ joins t b → (u ≠ t ∧ u ∈ Q) ∨ (u = t ∧ b = true).
Proof.
  intros Hnd Ht Hq. assert (Hin : ∀ u, u ∈ q → u ≠ t ∧ u ∈ Q).
  { intros u Hu. apply (elem_of_sublist _ _ _ Hu) in Hq. split; [by intros ->|done]. }
  split.
  - apply NoDup_app. split_and!; [by eapply sublist_NoDup| |by destruct b; [apply NoDup_singleton|apply NoDup_nil_2]].
    intros u [Hne _]%Hin. destruct b; [|by intros ?%not_elem_of_nil]. by intros ?%list_elem_of_singleton.
  - intros u [Hu|Hu]%elem_of_app; [left; auto|]. destruct b; [|by apply not_elem_of_nil in Hu].
    apply list_elem_of_singleton in Hu. auto.
Qed.

Lemma pinv_install t reader buf n0 s m p out qr qw :
  pinv s → t ∉ preaders (ps_pipe s) → t ∉ pwriters (ps_pipe s) →
  pipe_wf p → read_end p = read_end (ps_pipe s) → write_end p = write_end (ps_pipe s) →
  qr `sublist_of` preaders (ps_pipe s) → preaders p = qr ++ joins t (sleeps_on true out) →
  qw `sublist_of` pwriters (ps_pipe s) → pwriters p = qw ++ joins t (sleeps_on false out) →
  match out with
  | inl f => frame_ok f ∧ is_end (ps_pipe s) (fnode f)
  | inr (_, _, fr) => fr = []
  end →
  (let s' := ps_install t reader buf n0 s (m, p, out) in ps_in s' = ps_out s' ++ contents p) →
  pinv (ps_install t reader buf n0 s (m, p, out)).
Proof.
  intros Hi Htr Htw Hwf Hre Hwe Hqr Hpr Hqw Hpw Hout Hf.
  assert (He : ∀ v, is_end (ps_pipe s) v → is_end p v) by (unfold is_end; by rewrite Hre, Hwe).
  destruct (i_nodup _ Hi) as [Hdr Hdw].
  destruct (queue_join _ _ t (sleeps_on true out) Hdr Htr Hqr) as [Hdr' Hjr].
  destruct (queue_join _ _ t (sleeps_on false out) Hdw Htw Hqw) as [Hdw' Hjw].
  rewrite <- Hpr in Hdr', Hjr. rewrite <- Hpw in Hdw', Hjw.
  split; cbn [ps_install ps_pipe ps_calls ps_freed]; [done|exact Hf|..|done| |].
  - intros u f Hu. destruct out as [f'|[[ret n] fr]].
    + apply lookup_insert_Some in Hu as [[-> <-]|[_ Hu]]; [by destruct Hout; auto|].
      destruct (i_frames _ Hi u f Hu); auto.
    + apply lookup_delete_Some in Hu as [_ Hu]. destruct (i_frames _ Hi u f Hu); auto.
  - intros u [[Hne Hu]|[-> Hs]]%Hjr.
    + destruct (i_readers _ Hi u Hu) as (f & Hc & Hrd). exists f. split; [|done].
      destruct out as [f'|[[ret n] fr]]; [by rewrite lookup_insert_ne|by rewrite lookup_delete_ne].
    + destruct out as [f'|]; [|done]. exists f'. rewrite lookup_insert_eq. by apply eqb_prop in Hs.
  - intros u [[Hne Hu]|[-> Hs]]%Hjw.
    + destruct (i_writers _ Hi u Hu) as (f & Hc & Hrd). exists f. split; [|done].
      destruct out as [f'|[[ret n] fr]]; [by rewrite lookup_insert_ne|by rewrite lookup_delete_ne].
    + destruct out as [f'|]; [|done]. exists f'. rewrite lookup_insert_eq. by apply eqb_prop in Hs.
  - rewrite Hre, Hwe. apply Hi.
  - intros Hfr. rewrite Hre, Hwe. apply (i_freed _ Hi). destruct out as [f|[[ret n] fr]]; [by rewrite app_nil_r in Hfr|].
    subst fr. by rewrite app_nil_r in Hfr.
Qed.

Lemma sublist_tail {A} (l : list A) : tail l `sublist_of` l.
Proof. destruct l; [done|]. simpl. by apply sublist_cons. Qed.

(** Reading sections keep the invariant. *)
Lemma read_section_inv t s node buf lft n :
  pinv s → t ∉ preaders (ps_pipe s) → t ∉ pwriters (ps_pipe s) → is_end (ps_pipe s) node →
  0 ≤ lft → 0 ≤ n → n + lft < 2 ^ 64 →
  ∃ r, read_section t (ps_mem s) (ps_pipe s) node buf lft n = Ok r ∧ pinv (ps_install t true buf n s r).
Proof.
  intros Hi Htr Htw He Hl Hn Hmax. unfold read_section. pose proof (i_wf _ Hi) as Hwf.
  rewrite read_loop_spec by done. mstep. set (k := Z.min lft (pavail (ps_pipe s))).
  pose proof (pavail_range _ Hwf). destruct (after_read_wf _ k Hwf) as (Hwf' & Hc & _); [lia|].
  assert (Hlen : length (take (Z.to_nat k) (contents (ps_pipe s))) = Z.to_nat k).
  { rewrite length_take. pose proof (length_contents (ps_pipe s)). lia. }
  assert (Hq : pwriters (after_read (ps_pipe s) k) `sublist_of` pwriters (ps_pipe s)).
  { simpl. destruct ((0 <? k) && popen (ps_pipe s)); [apply sublist_tail|done]. }
  assert (Hf : ps_in s = (ps_out s ++ rd_bytes (wr_bytes (ps_mem s) buf (take (Z.to_nat k) (contents (ps_pipe s)))) buf
    (Z.to_nat (n + k - n))) ++ contents (after_read (ps_pipe s) k)).
  { replace (Z.to_nat (n + k - n)) with (length (take (Z.to_nat k) (contents (ps_pipe s)))) by (rewrite Hlen; lia).
    rewrite rd_wr_bytes, Hc, <- app_assoc, take_drop. apply Hi. }
  destruct ((k <? lft) && popen (ps_pipe s)) eqn:Ec.
  - apply andb_true_iff in Ec as [Ek _]. apply Z.ltb_lt in Ek. eexists; split; [done|].
    eapply (pinv_install _ _ _ _ _ _ _ _ (preaders (ps_pipe s))); try done.
    + simpl. by rewrite app_nil_r.
    + split; [|done]. unfold frame_ok, fleft, fcount. split_and!; (done || lia).
  - eexists; split; [done|].
    eapply (pinv_install _ _ _ _ _ _ _ _ (preaders (ps_pipe s))); try done; simpl; rewrite ?app_nil_r; try done.
    by eapply rw_free_end.
Qed.

Lemma write_section_inv t s node req buf lft n :
  pinv s → t ∉ preaders (ps_pipe s) → t ∉ pwriters (ps_pipe s) → is_end (ps_pipe s) node →
  frame_ok (WFrame node req buf lft n) →
  ∃ r, write_section t (ps_mem s) (ps_pipe s) node req buf lft n = Ok r ∧ pinv (ps_install t false buf n s r).
Proof.
  intros Hi Htr Htw He (Hl & Hn & Hmax & Hr1 & Hr2 & Hr3). cbn [fleft fcount] in *.
  unfold write_section. pose proof (i_wf _ Hi) as Hwf. pose proof (pavail_range _ Hwf).
  destruct (write_loop_spec (ps_mem s) (ps_pipe s) req buf lft n Hwf Hl Hr2 Hr1) as (b & -> & Hwf' & Hc). mstep.
  set (k := wcount req lft (PIPE_BUF_SZ - pavail (ps_pipe s))) in *.
  assert (Hk : 0 ≤ k ≤ lft) by (subst k; unfold wcount; zcases; lia).
  assert (Hq : preaders (after_write (ps_pipe s) b k) `sublist_of` preaders (ps_pipe s)).
  { simpl. destruct (0 <? k); [apply sublist_tail|done]. }
  assert (Hf : ps_in s ++ rd_bytes (ps_mem s) buf (Z.to_nat (n + k - n)) =
    ps_out s ++ contents (after_write (ps_pipe s) b k)).
  { replace (n + k - n) with k by lia. by rewrite Hc, (i_fifo _ Hi), app_assoc. }
  destruct (k <? lft) eqn:Ek.
  - apply Z.ltb_lt in Ek. eexists; split; [done|].
    eapply (pinv_install _ _ _ _ _ _ _ _ (preaders (after_write (ps_pipe s) b k)) (pwriters (ps_pipe s))); try done.
    + simpl. by rewrite app_nil_r.
    + split; [|done]. unfold frame_ok, fleft, fcount. split_and!; try lia.
      destruct Hr3 as [->|[-> ->]]; [by left|right]. subst k. unfold wcount in *. zcases_in Ek; zcases; lia.
  - eexists; split; [done|].
    eapply (pinv_install _ _ _ _ _ _ _ _ (preaders (after_write (ps_pipe s) b k)) (pwriters (ps_pipe s))); try done;
      simpl; rewrite ?app_nil_r; try done. by eapply rw_free_end.
Qed.

(** An end of a call's pipe is open, so a call cannot meet a freed pipe. *)
Lemma not_freed s v : pinv s → is_end (ps_pipe s) v → FreePipe ∉ ps_freed s.
Proof. intros Hi He Hf. apply (is_end_open _ _ He), (i_freed _ Hi Hf). Qed.

Lemma pinv_queued s t : pinv s → ps_calls s !! t = None → ¬ t ∈ preaders (ps_pipe s) ∧ ¬ t ∈ pwriters (ps_pipe s).
Proof.
  intros Hi Hn. split; intros Ht; [apply (i_readers _ Hi) in Ht|apply (i_writers _ Hi) in Ht];
    destruct Ht as (f & ? & _); congruence.
Qed.

Lemma install_same s t reader buf n0 ret : pinv s → t ∉ preaders (ps_pipe s) → t ∉ pwriters (ps_pipe s) →
  pinv (ps_install t reader buf n0 s (ps_mem s, ps_pipe s, inr (ret, n0, []))).
Proof.
  intros Hi Hr Hw. apply (pinv_install _ _ _ _ _ _ _ _ (preaders (ps_pipe s)) (pwriters (ps_pipe s)));
    try done; try apply Hi; try (by rewrite app_nil_r).
  simpl. rewrite Z.sub_diag. destruct reader; simpl; rewrite ?app_nil_r; apply Hi.
Qed.

Lemma pinv_close s v : pinv s → is_end (ps_pipe s) v → (∀ t f, ps_calls s !! t = Some f → fnode f ≠ v) →
  let '(p, fr) := com_fs_pipefs_close (ps_pipe s) v in
  pinv (PState (ps_mem s) p (ps_calls s) (ps_freed s ++ fr) (ps_in s) (ps_out s) (ps_done s)).
Proof.
  intros Hi He Hc. pose proof (not_freed _ _ Hi He) as Hnf. unfold com_fs_pipefs_close.
  destruct (i_nodup _ Hi) as [Hdr Hdw].
  assert (Hf : ∀ p', same_ring p' (ps_pipe s) →
    pipe_wf p' ∧ ps_in s = ps_out s ++ contents p').
  { intros p' Hr%same_ring_as. unfold pipe_wf, contents. rewrite Hr. split; apply Hi. }
  assert (Hends : ∀ t f, ps_calls s !! t = Some f → frame_ok f ∧ is_end (ps_pipe s) (fnode f) ∧ fnode f ≠ v).
  { intros t f Ht. destruct (i_frames _ Hi t f Ht). eauto. }
  destruct (bool_decide_reflect (Some v = read_end (ps_pipe s))) as [Hv|Hv];
    [|destruct (bool_decide_reflect (Some v = write_end (ps_pipe s))) as [Hw|Hw]].
  - destruct (Hf (ksync_notify_writers (Pipe (pbuf (ps_pipe s)) (pread (ps_pipe s)) (pwrite (ps_pipe s))
      (preaders (ps_pipe s)) (pwriters (ps_pipe s)) None (write_end (ps_pipe s))))) as [Hwf Hfi]; [done|].
    split; cbn [ps_pipe ps_in ps_out ps_calls ps_freed preaders pwriters read_end write_end ksync_notify_writers]; try done.
    + intros t f Ht. destruct (Hends t f Ht) as (? & [?|?] & ?); [congruence|]. split; [done|by right].
    + apply Hi.
    + intros t Ht%elem_of_tail. by apply (i_writers _ Hi).
    + split; [done|by apply NoDup_tail].
    + intros Hfr. split; [done|]. apply elem_of_app in Hfr as [?|Hfr]; [done|].
      destruct (bool_decide_reflect (write_end (ps_pipe s) = None)); [done|].
      rewrite andb_false_r in Hfr. by apply not_elem_of_nil in Hfr.
  - destruct (Hf (ksync_notify_readers (Pipe (pbuf (ps_pipe s)) (pread (ps_pipe s)) (pwrite (ps_pipe s))
      (preaders (ps_pipe s)) (pwriters (ps_pipe s)) (read_end (ps_pipe s)) None))) as [Hwf Hfi]; [done|].
    split; cbn [ps_pipe ps_in ps_out ps_calls ps_freed preaders pwriters read_end write_end ksync_notify_readers]; try done.
    + intros t f Ht. destruct (Hends t f Ht) as (? & [?|?] & ?); [|congruence]. split; [done|by left].
    + intros t Ht%elem_of_tail. by apply (i_readers _ Hi).
    + apply Hi.
    + split; [by apply NoDup_tail|done].
    + intros Hfr. split; [|done]. apply elem_of_app in Hfr as [?|Hfr]; [done|].
      destruct (bool_decide_reflect (read_end (ps_pipe s) = None)); [done|].
      rewrite andb_false_r in Hfr. by apply not_elem_of_nil in Hfr.
  - destruct He as [He|He]; congruence.
Qed.

(** Every event the rest of the kernel can cause is carried out, without a
    fault and with two turns of its loop, and keeps the invariant. *)
Lemma pipe_do_inv e s : pinv s → pipe_allowed e s → ∃ s', pipe_do e s = Ok s' ∧ pinv s'.
Proof.
  intros Hi Ha. unfold pipe_do.
  assert (Hnf : FreePipe ∉ ps_freed s).
  { destruct e as [t v ? ?|t v ? ?|t sig|t|a x|v]; cbn [pipe_allowed] in Ha; try done;
      [eapply not_freed; [done|apply Ha]..| |eapply not_freed; [done|apply Ha]].
    destruct Ha as [[f Hf] _]. eapply not_freed; [done|]. by destruct (i_frames _ Hi t f Hf). }
  rewrite bool_decide_eq_false_2 by done.
  destruct e as [t v buf len|t v buf len|t sig|t|a x|v]; cbn [pipe_allowed] in Ha.
  - destruct Ha as (Hn & He & Hl). destruct (pinv_queued s t Hi Hn).
    destruct (read_section_inv t s v buf len 0) as (r & Hrun & ?); try (done || lia).
    unfold com_fs_pipefs_read. rewrite Hrun. mstep. eauto.
  - destruct Ha as (Hn & He & Hl). destruct (pinv_queued s t Hi Hn). unfold com_fs_pipefs_write.
    destruct (write_section_inv t s v (if PIPE_BUF_SZ <? len then 1 else len) buf len 0) as (r & -> & ?); try done.
    { unfold frame_ok, fleft, fcount. unfold PIPE_BUF_SZ, ARCH_PAGE_SIZE. zcases; lia. }
    mstep. eauto.
  - destruct Ha as ([f Hf] & Hnr & Hnw). rewrite Hf. mstep. destruct (i_frames _ Hi t f Hf) as [Hok He].
    destruct f as [v buf lft n|v req buf lft n]; cbn [wake_section is_reader fbuf fcount fnode] in *; destruct sig.
    + rewrite (rw_free_end _ _ v He). mstep. eexists; split; [done|]. by apply install_same.
    + destruct Hok as (?&?&?&_). destruct (read_section_inv t s v buf lft n) as (r & -> & ?); try done. mstep. eauto.
    + rewrite (rw_free_end _ _ v He). mstep. eexists; split; [done|]. by apply install_same.
    + destruct (write_section_inv t s v req buf lft n) as (r & -> & ?); try done. mstep. eauto.
  - eexists; split; [done|]. destruct Hi as [Hwf ? ? Hr Hw [? ?] ? ?]. split; cbn [ps_pipe ps_calls ps_in ps_out ps_freed punqueue preaders pwriters]; try done.
    + intros u [_ Hu]%list_elem_of_filter. by apply Hr.
    + intros u [_ Hu]%list_elem_of_filter. by apply Hw.
    + split; by apply NoDup_filter.
  - eexists; split; [done|]. by destruct Hi.
  - destruct Ha as [He Hc]. pose proof (pinv_close s v Hi He Hc) as Hcl.
    destruct (com_fs_pipefs_close (ps_pipe s) v) as [p fr]. eauto.
Qed.

Lemma pinv_start m page r w : Z.of_nat (length page) = PIPE_BUF_SZ → r ≠ w → pinv (pipe_start m page r w).
Proof.
  intros Hp Hrw. split; cbn [pipe_start com_fs_pipefs_new ps_pipe ps_calls ps_in ps_out ps_freed preaders pwriters read_end write_end];
    try (by intros ? ?%not_elem_of_nil); try by (intros ?%not_elem_of_nil).
  - split_and!; simpl; try done. by exists 12.
  - done.
  - by intros t f ?%lookup_empty_Some.
  - split; apply NoDup_nil_2.
  - intros v [= <-] [= ?]. done.
Qed.

Lemma pipe_reach_inv ok s0 s : pinv s0 → pipe_reach ok s0 s → pinv s.
Proof.
  intros H0. induction 1 as [|e s s' _ IH Ha _ Hd]; [done|].
  destruct (pipe_do_inv e s IH Ha) as (s1 & Hd' & ?). congruence.
Qed.

(** ** Properties *)

(** Runs without further restriction. *)
Definition any (e : pevent) (s : pstate) : Prop := True.
#[export] Instance any_dec e s : Decision (any e s) := left I.

(** C21: A pipe is a queue of bytes. However many threads read and write, in
    whatever order their sections, the signals and the closes come, the bytes
    taken from the writers are the bytes handed to the readers followed by
    what is in the page, at most 4096 of them. And whatever comes next is
    carried out: no loop goes on for ever and no access meets a pipe that
    was freed. *)
Theorem pipe_fifo m page r w s :
  Z.of_nat (length page) = PIPE_BUF_SZ → r ≠ w → pipe_reach any (pipe_start m page r w) s →
  ps_in s = ps_out s ++ contents (ps_pipe s) ∧ Z.of_nat (length (contents (ps_pipe s))) ≤ PIPE_BUF_SZ ∧
  ∀ e, pipe_allowed e s → ∃ s', pipe_do e s = Ok s'.
Proof.
  intros Hp Hrw Hr. apply pipe_reach_inv in Hr; [|by apply pinv_start]. split_and!.
  - apply Hr.
  - rewrite length_contents. apply pavail_range, Hr.
  - intros e Ha. destruct (pipe_do_inv e s Hr Ha) as (s' & ? & _). eauto.
Qed.

(** A write of at most a page is atomic: it stores all its bytes one after
    the other and returns their number, or sleeps having stored nothing; it
    sleeps exactly when they do not all fit. *)
Theorem pipefs_write_atomic t m p node buf buflen :
  pipe_wf p → is_end p node → 0 ≤ buflen ≤ PIPE_BUF_SZ →
  if PIPE_BUF_SZ - pavail p <? buflen then
    com_fs_pipefs_write t m p node buf buflen =
      Ok (m, ksync_wait_writer t p, inl (WFrame node buflen buf buflen 0))
  else ∃ p', com_fs_pipefs_write t m p node buf buflen = Ok (m, p', inr (E0, buflen, [])) ∧
    pipe_wf p' ∧ contents p' = contents p ++ rd_bytes m buf (Z.to_nat buflen).
Proof.
  intros Hwf He Hb. unfold com_fs_pipefs_write, write_section. destruct (Z.ltb_spec PIPE_BUF_SZ buflen); [lia|].
  pose proof (pavail_range p Hwf). destruct (Z.ltb_spec (PIPE_BUF_SZ - pavail p) buflen).
  - unfold PIPE_FUEL. cbn [write_loop]. rewrite av_space_eq by done.
    destruct (Z.ltb_spec 0 buflen); [|lia]. destruct (Z.ltb_spec (PIPE_BUF_SZ - pavail p) buflen); [done|lia].
  - destruct (write_loop_spec m p buflen buf buflen 0 Hwf) as (b & -> & Hwf' & Hc); [lia..|]. mstep.
    unfold wcount in *. destruct (Z.ltb_spec (PIPE_BUF_SZ - pavail p) buflen); [lia|].
    rewrite Z.min_l in * by lia. destruct (Z.ltb_spec buflen buflen); [lia|].
    rewrite (rw_free_end _ _ node) by exact He. by eexists.
Qed.

(** A read returns at once when the pipe holds all it asks for, or when the
    write end is closed: then with what there is, 0 bytes at the end of the
    stream. Otherwise it takes what there is and sleeps. *)
Theorem pipefs_read_spec t m p node buf buflen :
  pipe_wf p → is_end p node → 0 ≤ buflen →
  let k := Z.min buflen (pavail p) in
  ∃ p', contents p' = drop (Z.to_nat k) (contents p) ∧
    com_fs_pipefs_read t m p node buf buflen =
      Ok (wr_bytes m buf (take (Z.to_nat k) (contents p)), p',
          if (k <? buflen) && popen p then inl (RFrame node (buf + k) (buflen - k) k) else inr (E0, k, [])).
Proof.
  intros Hwf He Hb k. pose proof (pavail_range p Hwf).
  destruct (after_read_wf p k Hwf) as (_ & Hc & _); [lia|].
  unfold com_fs_pipefs_read, read_section. rewrite read_loop_spec by done. mstep. fold k.
  destruct ((k <? buflen) && popen p); [by exists (ksync_wait_reader t (after_read p k))|].
  rewrite (rw_free_end _ _ node) by exact He. by exists (after_read p k).
Qed.

(** ** One reader and one writer *)

(** The usual use of a pipe: reads on the read end, writes on the write end,
    one of each at a time. *)
Definition one_each (e : pevent) (s : pstate) : Prop :=
  match e with
  | PRead _ v _ _ => read_end (ps_pipe s) = Some v ∧
      ∀ u f, ps_calls s !! u = Some f → is_reader f = false
  | PWrite _ v _ _ => write_end (ps_pipe s) = Some v ∧
      ∀ u f, ps_calls s !! u = Some f → is_reader f = true
  | _ => True
  end.

Definition freq (f : pframe) : Z := match f with WFrame _ req _ _ _ => req | RFrame _ _ _ _ => 0 end.

(** [e_awake]: whoever sleeps has reason to. *)
Record peach (s : pstate) : Prop := {
  e_one : ∀ t t' f f', ps_calls s !! t = Some f → ps_calls s !! t' = Some f' → is_reader f = is_reader f' → t = t';
  e_end : ∀ t f, ps_calls s !! t = Some f →
    Some (fnode f) = if is_reader f then read_end (ps_pipe s) else write_end (ps_pipe s);
  e_reader : ∀ t, t ∈ preaders (ps_pipe s) → pavail (ps_pipe s) = 0 ∧ popen (ps_pipe s) = true;
  e_writer : ∀ t f, t ∈ pwriters (ps_pipe s) → ps_calls s !! t = Some f → PIPE_BUF_SZ - pavail (ps_pipe s) < freq f
}.

(** The queue a thread is not on is empty when the thread alone may be on it. *)
Lemma readers_nil s t f : pinv s → peach s → ps_calls s !! t = Some f → is_reader f = true →
  t ∉ preaders (ps_pipe s) → preaders (ps_pipe s) = [].
Proof.
  intros Hi He Ht Hf Hn. apply elem_of_nil_inv. intros u Hu. destruct (i_readers _ Hi u Hu) as (f' & Hu' & Hf').
  assert (u = t) as -> by (eapply (e_one _ He); [done..|congruence]). done.
Qed.
Lemma writers_nil s t f : pinv s → peach s → ps_calls s !! t = Some f → is_reader f = false →
  t ∉ pwriters (ps_pipe s) → pwriters (ps_pipe s) = [].
Proof.
  intros Hi He Ht Hf Hn. apply elem_of_nil_inv. intros u Hu. destruct (i_writers _ Hi u Hu) as (f' & Hu' & Hf').
  assert (u = t) as -> by (eapply (e_one _ He); [done..|congruence]). done.
Qed.

(** Waking the head of a queue with at most one thread empties it. *)
Lemma tail_nil (q : list Z) : (∀ t u, t ∈ q → u ∈ q → t = u) → NoDup q → tail q = [].
Proof.
  destruct q as [|a [|b q]]; [done..|]. intros H [Ha _]%NoDup_cons. exfalso. apply Ha.
  rewrite (H a b) by (rewrite !elem_of_cons; auto). by left.
Qed.
Lemma tail_readers s : pinv s → peach s → tail (preaders (ps_pipe s)) = [].
Proof.
  intros Hi He. apply tail_nil; [|apply Hi]. intros t u Ht Hu.
  destruct (i_readers _ Hi t Ht) as (f & ? & ?), (i_readers _ Hi u Hu) as (f' & ? & ?).
  eapply (e_one _ He); [done..|congruence].
Qed.
Lemma tail_writers s : pinv s → peach s → tail (pwriters (ps_pipe s)) = [].
Proof.
  intros Hi He. apply tail_nil; [|apply Hi]. intros t u Ht Hu.
  destruct (i_writers _ Hi t Ht) as (f & ? & ?), (i_writers _ Hi u Hu) as (f' & ? & ?).
  eapply (e_one _ He); [done..|congruence].
Qed.

(** The part of [peach] that is about calls, after a section of [t]. *)
Definition alone (s : pstate) (t : Z) (reader : bool) : Prop :=
  ∀ u f, ps_calls s !! u = Some f → is_reader f = reader → u = t.

Lemma alone_frame s t f : peach s → ps_calls s !! t = Some f → alone s t (is_reader f).
Proof. intros He Ht u f' Hu Hf. by eapply (e_one _ He). Qed.

Lemma peach_install s t reader buf n0 m p out v :
  peach s → alone s t reader → 
  read_end p = read_end (ps_pipe s) → write_end p = write_end (ps_pipe s) →
  Some v = (if reader then read_end (ps_pipe s) else write_end (ps_pipe s)) →
  match out with inl f => is_reader f = reader ∧ fnode f = v | inr _ => True end →
  let s' := ps_install t reader buf n0 s (m, p, out) in
  (∀ u, u ∈ preaders p → pavail p = 0 ∧ popen p = true) →
  (∀ u f, u ∈ pwriters p → ps_calls s' !! u = Some f → PIPE_BUF_SZ - pavail p < freq f) →
  peach s'.
Proof.
  intros He Hal Hre Hwe Hv Hout s' Hr Hw.
  assert (Hin : ∀ u f, ps_calls s' !! u = Some f →
    (u = t ∧ is_reader f = reader ∧ fnode f = v) ∨ (u ≠ t ∧ ps_calls s !! u = Some f ∧ is_reader f ≠ reader)).
  { intros u f Hu. subst s'. cbn [ps_install ps_calls] in Hu. destruct out as [f'|[[ret n] fr]].
    - apply lookup_insert_Some in Hu as [[<- <-]|[Hne Hu]]; [left; by destruct Hout|right]. split_and!; [done..|].
      intros Hf. by apply Hne; symmetry; apply (Hal u f).
    - apply lookup_delete_Some in Hu as [Hne Hu]. right. split_and!; [done..|]. intros Hf. by apply Hne; symmetry; apply (Hal u f). }
  split; [..|exact Hr|exact Hw].
  - intros u u' f f' Hu Hu' Hf. apply Hin in Hu, Hu'.
    destruct Hu as [(-> & ? & ?)|(? & Hu & ?)], Hu' as [(-> & ? & ?)|(? & Hu' & ?)]; try congruence.
    exact (e_one _ He u u' f f' Hu Hu' Hf).
  - intros u f Hu. cbn [s' ps_install ps_pipe]. rewrite Hre, Hwe. apply Hin in Hu as [(-> & -> & ->)|(? & Hu & ?)]; [done|].
    exact (e_end _ He u f Hu).
Qed.

Lemma read_peach t s v buf lft n r :
  pinv s → peach s → alone s t true → t ∉ preaders (ps_pipe s) → t ∉ pwriters (ps_pipe s) →
  Some v = read_end (ps_pipe s) → 0 ≤ lft → 0 ≤ n → n + lft < 2 ^ 64 →
  read_section t (ps_mem s) (ps_pipe s) v buf lft n = Ok r → peach (ps_install t true buf n s r).
Proof.
  intros Hi He Hal Htr Htw Hv Hl Hn Hmax Hrun. pose proof (i_wf _ Hi) as Hwf. unfold read_section in Hrun.
  rewrite read_loop_spec in Hrun by done. cbn [mbind res_bind] in Hrun.
  set (k := Z.min lft (pavail (ps_pipe s))) in *. pose proof (pavail_range _ Hwf).
  destruct (after_read_wf _ k Hwf) as (_ & _ & Hav); [lia|].
  assert (Hqr : preaders (ps_pipe s) = []).
  { apply elem_of_nil_inv. intros u Hu. destruct (i_readers _ Hi u Hu) as (f & Hf & Hrd).
    rewrite (Hal u f Hf Hrd) in Hu. done. }
  assert (Hw : ∀ u f, u ∈ pwriters (after_read (ps_pipe s) k) → u ≠ t → ps_calls s !! u = Some f →
    PIPE_BUF_SZ - pavail (after_read (ps_pipe s) k) < freq f).
  { intros u f Hu Hut Hf. rewrite Hav. cbn [after_read pwriters] in Hu.
    destruct (Z.ltb_spec 0 k) as [Hk|Hk]; cbn [andb] in Hu.
    - destruct (popen (ps_pipe s)) eqn:Ho; [by rewrite tail_writers in Hu; [apply not_elem_of_nil in Hu|..]|].
      destruct (i_writers _ Hi u Hu) as (f' & Hf' & Hrd). pose proof (e_end _ He u f' Hf') as Hend. rewrite Hrd in Hend.
      unfold popen in Ho. rewrite <- Hend in Ho. by rewrite bool_decide_eq_false_2 in Ho.
    - replace k with 0 by lia. rewrite Z.sub_0_r. exact (e_writer _ He u f Hu Hf). }
  destruct ((k <? lft) && popen (ps_pipe s)) eqn:Ec; injection Hrun as <-.
  - apply andb_true_iff in Ec as [Ek Ho]. apply Z.ltb_lt in Ek. eapply peach_install; try done.
    + intros u _. change (pavail (after_read (ps_pipe s) k) = 0 ∧ popen (ps_pipe s) = true). rewrite Hav. split; [lia|done].
    + intros u f Hu Hf. change (u ∈ pwriters (after_read (ps_pipe s) k)) in Hu.
      destruct (decide (u = t)) as [->|Hut].
      * exfalso. apply Htw. cbn [after_read pwriters] in Hu. destruct (_ && _) in Hu; [by apply elem_of_tail|done].
      * cbn [ps_install ps_calls] in Hf. rewrite lookup_insert_ne in Hf by done. exact (Hw u f Hu Hut Hf).
  - eapply peach_install; try done.
    + intros u Hu. cbn [after_read preaders] in Hu. rewrite Hqr in Hu. by apply not_elem_of_nil in Hu.
    + intros u f Hu Hf. cbn [ps_install ps_calls] in Hf. apply lookup_delete_Some in Hf as [Hne Hf]. exact (Hw u f Hu (not_eq_sym Hne) Hf).
Qed.

Lemma write_peach t s v req buf lft n r :
  pinv s → peach s → alone s t false → t ∉ preaders (ps_pipe s) → t ∉ pwriters (ps_pipe s) →
  Some v = write_end (ps_pipe s) → frame_ok (WFrame v req buf lft n) →
  write_section t (ps_mem s) (ps_pipe s) v req buf lft n = Ok r → peach (ps_install t false buf n s r).
Proof.
  intros Hi He Hal Htr Htw Hv (Hl & Hn & Hmax & Hr1 & Hr2 & Hr3) Hrun. cbn [fleft fcount] in *.
  pose proof (i_wf _ Hi) as Hwf. pose proof (pavail_range _ Hwf). unfold write_section in Hrun.
  destruct (write_loop_spec (ps_mem s) (ps_pipe s) req buf lft n Hwf Hl Hr2 Hr1) as (b & Hw & Hwf' & Hc).
  rewrite Hw in Hrun. clear Hw. cbn [mbind res_bind] in Hrun.
  set (k := wcount req lft (PIPE_BUF_SZ - pavail (ps_pipe s))) in *.
  assert (Hk : 0 ≤ k ≤ lft) by (subst k; unfold wcount; zcases; lia).
  pose proof (after_write_avail _ _ _ _ _ (proj1 Hk) Hc) as Hav.
  assert (Hqw : pwriters (ps_pipe s) = []).
  { apply elem_of_nil_inv. intros u Hu. destruct (i_writers _ Hi u Hu) as (f & Hf & Hrd).
    rewrite (Hal u f Hf Hrd) in Hu. done. }
  assert (Hr : ∀ u, u ∈ preaders (after_write (ps_pipe s) b k) →
    pavail (after_write (ps_pipe s) b k) = 0 ∧ popen (after_write (ps_pipe s) b k) = true).
  { intros u Hu. cbn [after_write preaders] in Hu. destruct (Z.ltb_spec 0 k) as [Hk0|Hk0].
    - rewrite tail_readers in Hu by done. by apply not_elem_of_nil in Hu.
    - replace k with 0 in * by lia. rewrite Hav, Z.add_0_r. exact (e_reader _ He u Hu). }
  destruct (Z.ltb_spec k lft) as [Ek|Ek]; injection Hrun as <-.
  - eapply peach_install; try done. intros u f Hu Hf.
    cbn [ksync_wait_writer after_write pwriters] in Hu. rewrite Hqw in Hu. apply list_elem_of_singleton in Hu as ->.
    cbn [ps_install ps_calls] in Hf. rewrite lookup_insert_eq in Hf. injection Hf as <-. cbn [freq].
    change (PIPE_BUF_SZ - pavail (after_write (ps_pipe s) b k) < req). rewrite Hav. subst k. unfold wcount in *.
    zcases_in Ek; zcases; lia.
  - eapply peach_install; try done. intros u f Hu _. cbn [after_write pwriters] in Hu. rewrite Hqw in Hu. by apply not_elem_of_nil in Hu.
Qed.

Lemma peach_close s v : pinv s → peach s → is_end (ps_pipe s) v → (∀ t f, ps_calls s !! t = Some f → fnode f ≠ v) →
  let '(p, fr) := com_fs_pipefs_close (ps_pipe s) v in
  peach (PState (ps_mem s) p (ps_calls s) (ps_freed s ++ fr) (ps_in s) (ps_out s) (ps_done s)).
Proof.
  intros Hi He Hv Hc. unfold com_fs_pipefs_close.
  destruct (bool_decide_reflect (Some v = read_end (ps_pipe s))) as [Hr|Hr];
    [|destruct (bool_decide_reflect (Some v = write_end (ps_pipe s))) as [Hw|Hw]].
  - split; cbn [ps_pipe ps_calls ksync_notify_writers read_end write_end preaders pwriters].
    + apply He.
    + intros t f Ht. pose proof (e_end _ He t f Ht) as Hf. destruct (is_reader f); [|done].
      exfalso. apply (Hc t f Ht). congruence.
    + apply He.
    + intros t f Ht. rewrite tail_writers in Ht by done. by apply not_elem_of_nil in Ht.
  - split; cbn [ps_pipe ps_calls ksync_notify_readers read_end write_end preaders pwriters].
    + apply He.
    + intros t f Ht. pose proof (e_end _ He t f Ht) as Hf. destruct (is_reader f); [done|].
      exfalso. apply (Hc t f Ht). congruence.
    + intros t Ht. rewrite tail_readers in Ht by done. by apply not_elem_of_nil in Ht.
    + apply He.
  - destruct Hv; congruence.
Qed.

Lemma sig_peach t s f ret : pinv s → peach s → ps_calls s !! t = Some f →
  t ∉ preaders (ps_pipe s) → t ∉ pwriters (ps_pipe s) →
  peach (ps_install t (is_reader f) (fbuf f) (fcount f) s (ps_mem s, ps_pipe s, inr (ret, fcount f, []))).
Proof.
  intros Hi He Hf Hr Hw. eapply peach_install; try done.
  - by eapply alone_frame.
  - exact (e_end _ He t f Hf).
  - apply He.
  - intros u f' Hu Hf'. cbn [ps_install ps_calls] in Hf'. apply lookup_delete_Some in Hf' as [_ Hf'].
    exact (e_writer _ He u f' Hu Hf').
Qed.

Lemma pipe_do_peach e s s' : pinv s → peach s → pipe_allowed e s → one_each e s → pipe_do e s = Ok s' → peach s'.
Proof.
  intros Hi He Ha Ho Hd. unfold pipe_do in Hd. destruct (bool_decide (FreePipe ∈ ps_freed s)); [done|].
  destruct e as [t v buf len|t v buf len|t sig|t|a x|v]; cbn [pipe_allowed one_each] in *.
  - destruct Ha as (Hn & Hv & Hl), Ho as [Hre Hal]. destruct (pinv_queued s t Hi Hn).
    apply bind_Ok in Hd as (r & Hr & [= <-]). unfold com_fs_pipefs_read in Hr. apply (read_peach t s v buf len 0 r); try (done || lia).
    intros u f Hu Hf. by rewrite (Hal u f Hu) in Hf.
  - destruct Ha as (Hn & Hv & Hl), Ho as [Hwe Hal]. destruct (pinv_queued s t Hi Hn).
    apply bind_Ok in Hd as (r & Hr & [= <-]). unfold com_fs_pipefs_write in Hr. eapply write_peach; try done.
    + intros u f Hu Hf. by rewrite (Hal u f Hu) in Hf.
    + unfold frame_ok, fleft, fcount, PIPE_BUF_SZ, ARCH_PAGE_SIZE. zcases; lia.
  - destruct Ha as ([f Hf] & Hr & Hw). rewrite Hf in Hd. apply bind_Ok in Hd as (f0 & [= <-] & Hd).
    apply bind_Ok in Hd as (r & Hrun & [= <-]). destruct (i_frames _ Hi t f Hf) as [Hok Hend].
    pose proof (alone_frame _ _ _ He Hf) as Hal. pose proof (e_end _ He t f Hf) as Hv.
    destruct f as [v buf lft n|v req buf lft n]; cbn [wake_section is_reader fnode fbuf fcount] in *; destruct sig.
    + rewrite (rw_free_end _ _ v Hend) in Hrun. injection Hrun as <-. by apply (sig_peach t s (RFrame v buf lft n)).
    + destruct Hok as (?&?&?&_). by apply (read_peach t s v buf lft n r).
    + rewrite (rw_free_end _ _ v Hend) in Hrun. injection Hrun as <-. by apply (sig_peach t s (WFrame v req buf lft n)).
    + by apply (write_peach t s v req buf lft n r).
  - injection Hd as <-. destruct He as [H1 H2 H3 H4].
    split; cbn [ps_pipe ps_calls punqueue preaders pwriters read_end write_end]; [done..| |].
    + intros u [_ Hu]%list_elem_of_filter. exact (H3 u Hu).
    + intros u f [_ Hu]%list_elem_of_filter. exact (H4 u f Hu).
  - injection Hd as <-. by destruct He.
  - destruct Ha as [Hv Hc]. pose proof (peach_close s v Hi He Hv Hc) as Hcl.
    destruct (com_fs_pipefs_close (ps_pipe s) v) as [p fr]. by injection Hd as <-.
Qed.

Lemma peach_start m page r w : peach (pipe_start m page r w).
Proof.
  split; cbn [pipe_start com_fs_pipefs_new ps_pipe ps_calls preaders pwriters]; intros t.
  - by intros t' f f' ?%lookup_empty_Some.
  - by intros f ?%lookup_empty_Some.
  - by intros ?%not_elem_of_nil.
  - by intros f ?%not_elem_of_nil.
Qed.

(** C22: With one reader and one writer at a time no wake-up is lost, whatever
    the order of their sections, of the signals and the closes: a reader
    sleeps only while the pipe is empty and its write end open, a writer only
    while the bytes it needs room for do not fit, and the two never sleep at
    once. *)
Theorem pipe_no_lost_wakeup m page r w s :
  Z.of_nat (length page) = PIPE_BUF_SZ → r ≠ w → pipe_reach one_each (pipe_start m page r w) s →
  (∀ t, t ∈ preaders (ps_pipe s) → contents (ps_pipe s) = [] ∧ write_end (ps_pipe s) ≠ None) ∧
  (∀ t f, t ∈ pwriters (ps_pipe s) → ps_calls s !! t = Some f →
     PIPE_BUF_SZ - Z.of_nat (length (contents (ps_pipe s))) < freq f) ∧
  (preaders (ps_pipe s) = [] ∨ pwriters (ps_pipe s) = []).
Proof.
  intros Hp Hrw Hr.
  assert (pinv s ∧ peach s) as [Hi He].
  { induction Hr as [|e s s' _ [Hi He] Ha Ho Hd]; [split; [by apply pinv_start|apply peach_start]|].
    destruct (pipe_do_inv e s Hi Ha) as (s1 & Hd' & Hi'). rewrite Hd in Hd'. injection Hd' as <-.
    split; [done|]. exact (pipe_do_peach e s s' Hi He Ha Ho Hd). }
  clear Hr. rewrite length_contents. split_and!.
  - intros t Ht. destruct (e_reader _ He t Ht) as [H0 Ho]. split.
    + apply nil_length_inv. pose proof (length_contents (ps_pipe s)). lia.
    + intros Hc. unfold popen in Ho. by rewrite bool_decide_eq_true_2 in Ho.
  - apply He.
  - destruct (preaders (ps_pipe s)) as [|t q] eqn:Hq; [by left|right]. apply elem_of_nil_inv. intros u Hu.
    destruct (e_reader _ He t) as [H0 _]; [rewrite Hq; by left|].
    destruct (i_writers _ Hi u Hu) as (f & Hf & Hrd). pose proof (e_writer _ He u f Hu Hf) as Hlt.
    destruct (i_frames _ Hi u f Hf) as [Hok _]. destruct f as [|v req buf lft n]; [done|].
    destruct Hok as (_ & _ & _ & _ & Hreq & _). cbn [freq] in Hlt. lia.
Qed.

(** ** Runs that go wrong

    A pipe with vnodes 1 (read) and 2 (write); the bytes 1, 2, 3 are at
    address 100. *)
Definition demo_pipe : pstate := pipe_start (wr_bytes (λ _, 0) 100 [1; 2; 3]) (replicate 4096 0) 1 2.

#[export] Instance pipe_allowed_dec e s : Decision (pipe_allowed e s).
Proof. destruct e; cbn [pipe_allowed]; apply _. Defined.
#[export] Instance one_each_dec e s : Decision (one_each e s).
Proof. destruct e; cbn [one_each]; apply _. Defined.

(** A run in which every event is allowed, and satisfies [ok], where it comes. *)
Fixpoint pipe_run_ok (ok : pevent → pstate → Prop) `{!∀ e s, Decision (ok e s)} (es : list pevent) (s : pstate)
    : option pstate :=
  match es with
  | [] => Some s
  | e :: es => if decide (pipe_allowed e s ∧ ok e s)
               then match pipe_do e s with Ok s => pipe_run_ok ok es s | _ => None end else None
  end.

Lemma pipe_run_ok_reach ok `{!∀ e s, Decision (ok e s)} es s0 s s' :
  pipe_reach ok s0 s → pipe_run_ok ok es s = Some s' → pipe_reach ok s0 s'.
Proof.
  revert s; induction es as [|e es IH]; intros s Hr Hrun; [by injection Hrun as <-|]. simpl in Hrun.
  destruct (decide _) as [[Ha Ho]|]; [|done]. destruct (pipe_do e s) as [s1| | |] eqn:Hd; [|done..].
  apply (IH s1); [|done]. by eapply pipe_reach_step.
Qed.

(** Two readers wait. A write of three bytes wakes the first, which takes one
    byte; the other sleeps on, beside two bytes it was waiting for, and no
    call is awake that could wake it. *)
Theorem pipe_leftover_reader_sleeps :
  ∃ s, pipe_run_ok any [PRead 10 1 200 1; PRead 11 1 300 1; PWrite 12 2 100 3; PRun 10 false] demo_pipe = Some s ∧
    contents (ps_pipe s) = [2; 3] ∧ preaders (ps_pipe s) = [11] ∧
    map_to_list (ps_calls s) = [(11, RFrame 1 300 1 0)].
Proof. eexists. split; [vm_compute; reflexivity|]. split_and!; vm_compute; reflexivity. Qed.

(** Closing the write end wakes one of the readers only; the others never
    learn that the stream has ended. *)
Theorem pipe_close_wakes_one_reader :
  ∃ s, pipe_run_ok any [PRead 10 1 200 1; PRead 11 1 300 1; PClose 2; PRun 10 false] demo_pipe = Some s ∧
    ps_done s = [(10, E0, 0)] ∧ write_end (ps_pipe s) = None ∧ preaders (ps_pipe s) = [11] ∧
    map_to_list (ps_calls s) = [(11, RFrame 1 300 1 0)].
Proof. eexists. split; [vm_compute; reflexivity|]. split_and!; vm_compute; reflexivity. Qed.

(** When the last reader is gone a writer is woken, does not look at the read
    end, and goes back to sleep: nothing can make room any more. *)
Theorem pipe_writer_outlives_reader :
  ∃ s, pipe_run_ok any [PWrite 12 2 100 4096; PWrite 12 2 100 1; PClose 1; PRun 12 false] demo_pipe = Some s ∧
    read_end (ps_pipe s) = None ∧ pwriters (ps_pipe s) = [12] ∧
    map_to_list (ps_calls s) = [(12, WFrame 2 1 100 1 0)].
Proof. eexists. split; [vm_compute; reflexivity|]. split_and!; vm_compute; reflexivity. Qed.

(** Of what a pipe was made of, its record, two vnodes and a page, closing both
    ends gives back the record and the vnode closed last. *)
Theorem pipe_close_leaks :
  ∃ s, pipe_run_ok any [PClose 1; PClose 2] demo_pipe = Some s ∧ ps_freed s = [FreePipe; FreeVnode 2].
Proof. eexists. split; [vm_compute; reflexivity|]. vm_compute; reflexivity. Qed.

(** ** Witnesses *)
Definition demo_run : list pevent := [PRead 11 1 200 2; PWrite 12 2 100 3; PRun 11 false].

Lemma replicate_page : Z.of_nat (length (replicate 4096 0)) = PIPE_BUF_SZ.
Proof. by rewrite length_replicate. Qed.

(** A fact about the end of a run, by computing the run. *)
Lemma run_fact {A} (f : pstate → A) ok `{!∀ e s, Decision (ok e s)} es s0 s a :
  pipe_run_ok ok es s0 = Some s → f <$> pipe_run_ok ok es s0 = Some a → f s = a.
Proof. intros ->. by intros [= ?]. Qed.

Lemma pipe_fifo_witness : ∃ s, pipe_run_ok any demo_run demo_pipe = Some s ∧ ps_in s = ps_out s ++ [3] ∧
  ∃ s', pipe_do (PClose 2) s = Ok s'.
Proof.
  destruct (pipe_run_ok any demo_run demo_pipe) as [s|] eqn:E; [|exfalso; revert E; vm_compute; discriminate].
  exists s. split; [done|].
  destruct (pipe_fifo (wr_bytes (λ _, 0) 100 [1; 2; 3]) (replicate 4096 0) 1 2 s replicate_page ltac:(done)
    (pipe_run_ok_reach any demo_run _ _ s (pipe_reach_start any _) E)) as (Hin & _ & Hdo).
  split.
  - rewrite (run_fact (λ s, contents (ps_pipe s)) _ _ _ _ [3] E ltac:(vm_compute; reflexivity)) in Hin. exact Hin.
  - apply Hdo. split; [right; exact (run_fact (λ s, write_end (ps_pipe s)) _ _ _ _ (Some 2) E ltac:(vm_compute; reflexivity))|].
    intros t f Hf. pose proof (run_fact ps_calls _ _ _ _ ∅ E ltac:(vm_compute; reflexivity)) as Hc.
    rewrite Hc in Hf. discriminate Hf.
Defined.

Lemma pipefs_write_atomic_witness :
  ∃ p', com_fs_pipefs_write 12 (ps_mem demo_pipe) (ps_pipe demo_pipe) 2 100 3 = Ok (ps_mem demo_pipe, p', inr (E0, 3, [])) ∧
    contents p' = [1; 2; 3].
Proof.
  destruct (pipefs_write_atomic 12 (ps_mem demo_pipe) (ps_pipe demo_pipe) 2 100 3
    (i_wf _ (pinv_start _ _ 1 2 replicate_page ltac:(done))) ltac:(by right) ltac:(split; done)) as (p' & Hp & _ & Hc).
  exists p'. split; [exact Hp|]. rewrite Hc. reflexivity.
Defined.

Lemma pipe_no_lost_wakeup_witness : ∃ s, pipe_run_ok one_each (take 1 demo_run) demo_pipe = Some s ∧
  preaders (ps_pipe s) = [11] ∧ contents (ps_pipe s) = [] ∧ pwriters (ps_pipe s) = [].
Proof.
  destruct (pipe_run_ok one_each (take 1 demo_run) demo_pipe) as [s|] eqn:E; [|exfalso; revert E; vm_compute; discriminate].
  exists s. split; [done|].
  destruct (pipe_no_lost_wakeup (wr_bytes (λ _, 0) 100 [1; 2; 3]) (replicate 4096 0) 1 2 s replicate_page ltac:(done)
    (pipe_run_ok_reach one_each (take 1 demo_run) _ _ s (pipe_reach_start one_each _) E)) as (Hr & _ & Hor).
  pose proof (run_fact (preaders ∘ ps_pipe) _ _ _ _ [11] E ltac:(vm_compute; reflexivity)) as Hq. cbn [compose] in Hq.
  split; [exact Hq|]. rewrite Hq in Hr, Hor. split; [apply (Hr 11); by left|]. destruct Hor as [Hor|Hor]; [discriminate Hor|exact Hor].
Defined.
