(* ===== verification/Proc.v ===== *)
(** * Processes, process groups and sessions: src/com/sys/proc.c

    The process table, reference counts, groups and sessions, with the system
    calls that work on them (src/com/sys/syscall/setpgid.c, setsid.c,
    getpgid.c, getsid.c). Descriptors are in [Fdtable], the ends of processes
    and signals in [Signal]. The two radix trees, [Processes] and
    [ProcGroupMap], are finite maps here; that the trees behave as such, and
    that a second [kradixtree_put_nolock] at an index stops the kernel, is the
    subject of [Radixtree]. A group's list of processes is linked through the
    processes themselves: a process keeps, after its removal, the neighbours
    it had, and removing it again writes them back. *)
From S2P Require Import Prelude.

(** ** Data *)
Definition COM_IPC_SIGNAL_NONE : Z := -1.

(** What a signal does when it arrives; [SIG_DFL] and [SIG_IGN] are the two
    special values of the handler's address. *)
Inductive sa_handler : Type := SIG_DFL | SIG_IGN | SaHandler (addr : Z).
#[export] Instance sa_handler_eq_dec : EqDecision sa_handler.
Proof. solve_decision. Defined.

Record com_sigaction : Type := SigAction {
  sa_action : sa_handler;
  sa_nodefer : bool;
  sa_resethand : bool;
  sa_mask : Z
}.

(** [p_links] are the neighbours the process had in the list of the group it
    was last removed from. *)
Record com_proc : Type := Proc {
  p_pid : Z;
  p_parent : Z;
  p_children : Z;
  p_threads : list Z;
  p_ref : Z;
  p_group : option Z;
  p_links : option (option Z * option Z);
  p_execve : bool;
  p_pending : Z;
  p_exited : bool;
  p_stop : Z;
  p_notified : bool;
  p_status : Z;
  p_actions : gmap Z com_sigaction;
  p_root : Z;
  p_cwd : Z
}.

Record com_proc_group : Type := Group { pgid : Z; g_session : option Z; g_procs : list Z }.
Record com_proc_session : Type := Session { sid : Z; s_tty : option Z }.

(** The vnodes are only counted here. *)
Record procs : Type := Procs {
  ptab : gmap Z com_proc;
  groups : gmap Z com_proc_group;
  sessions : gmap Z com_proc_session;
  Processes : gmap Z Z;
  ProcGroupMap : gmap Z Z;
  NextPid : Z;
  vrefs : gmap Z Z
}.

Definition set_proc (s : procs) (a : Z) (p : com_proc) : procs :=
  Procs (<[a := p]> (ptab s)) (groups s) (sessions s) (Processes s) (ProcGroupMap s) (NextPid s) (vrefs s).
Definition set_group (s : procs) (g : Z) (G : com_proc_group) : procs :=
  Procs (ptab s) (<[g := G]> (groups s)) (sessions s) (Processes s) (ProcGroupMap s) (NextPid s) (vrefs s).
Definition set_session (s : procs) (x : Z) (S : com_proc_session) : procs :=
  Procs (ptab s) (groups s) (<[x := S]> (sessions s)) (Processes s) (ProcGroupMap s) (NextPid s) (vrefs s).
Definition set_maps (s : procs) (P G : gmap Z Z) (n : Z) : procs :=
  Procs (ptab s) (groups s) (sessions s) P G n (vrefs s).

(** [COM_FS_VFS_VNODE_HOLD]. *)
Definition vnode_hold (s : procs) (v : Z) : procs :=
  Procs (ptab s) (groups s) (sessions s) (Processes s) (ProcGroupMap s) (NextPid s)
    (<[v := default 0 (vrefs s !! v) + 1]> (vrefs s)).

Definition with_ref (p : com_proc) (n : Z) : com_proc :=
  Proc (p_pid p) (p_parent p) (p_children p) (p_threads p) n (p_group p) (p_links p) (p_execve p) (p_pending p)
    (p_exited p) (p_stop p) (p_notified p) (p_status p) (p_actions p) (p_root p) (p_cwd p).
Definition with_group (p : com_proc) (g : option Z) : com_proc :=
  Proc (p_pid p) (p_parent p) (p_children p) (p_threads p) (p_ref p) g (p_links p) (p_execve p) (p_pending p)
    (p_exited p) (p_stop p) (p_notified p) (p_status p) (p_actions p) (p_root p) (p_cwd p).
Definition with_links (p : com_proc) (l : option (option Z * option Z)) : com_proc :=
  Proc (p_pid p) (p_parent p) (p_children p) (p_threads p) (p_ref p) (p_group p) l (p_execve p) (p_pending p)
    (p_exited p) (p_stop p) (p_notified p) (p_status p) (p_actions p) (p_root p) (p_cwd p).
Definition with_threads (p : com_proc) (ts : list Z) : com_proc :=
  Proc (p_pid p) (p_parent p) (p_children p) ts (p_ref p) (p_group p) (p_links p) (p_execve p) (p_pending p)
    (p_exited p) (p_stop p) (p_notified p) (p_status p) (p_actions p) (p_root p) (p_cwd p).

(** ** Lists linked through their elements *)

(** Who comes after [p] ([None] the head): [None] when [p] is not there. *)
Fixpoint after_elem (q : list Z) (p : Z) : option (option Z) :=
  match q with
  | [] => None
  | a :: q => if a =? p then Some (head q) else after_elem q p
  end.
Definition after (q : list Z) (p : option Z) : option (option Z) :=
  match p with None => Some (head q) | Some p => after_elem q p end.

Fixpoint neighbours (prev : option Z) (q : list Z) (t : Z) : option Z * option Z :=
  match q with
  | [] => (prev, None)
  | a :: q => if a =? t then (prev, head q) else neighbours (Some a) q t
  end.

(** [TAILQ_REMOVE] of an element that keeps its links: on the list it is
    taken off; removed before, its old neighbours are linked to each other,
    which changes nothing when they still are, and breaks the list when not. *)
Definition TAILQ_REMOVE_LINKS (q : list Z) (t : Z) (links : option (option Z * option Z))
    : res (list Z * option (option Z * option Z)) :=
  if bool_decide (t ∈ q) then Ok (filter (λ u, u ≠ t) q, Some (neighbours None q t))
  else match links with
       | Some (prev, next) => if bool_decide (after q prev = Some next) then Ok (q, links) else Fault
       | None => Fault
       end.

(** ** References *)
Definition COM_SYS_PROC_HOLD (s : procs) (a : Z) : res procs :=
  p ← deref (ptab s !! a); Ok (set_proc s a (with_ref p (u64 (p_ref p + 1)))).

(** Removes process [a] from the list of group [g]. *)
Definition group_remove (s : procs) (a g : Z) : res procs :=
  p ← deref (ptab s !! a);
  G ← deref (groups s !! g);
  '(q, links) ← TAILQ_REMOVE_LINKS (g_procs G) a (p_links p);
  Ok (set_proc (set_group s g (Group (pgid G) (g_session G) q)) a (with_links p links)).

(** [kradixtree_remove_nolock] asserts that there is something to remove. *)
Definition com_sys_proc_hide (s : procs) (a : Z) : res procs :=
  p ← deref (ptab s !! a);
  KASSERT (bool_decide (is_Some (Processes s !! (p_pid p - 1)))) ;;
  let s := set_maps s (delete (p_pid p - 1) (Processes s)) (ProcGroupMap s) (NextPid s) in
  s ← match p_group p with None => Ok s | Some g => group_remove s a g end;
  p ← deref (ptab s !! a);
  Ok (set_proc s a (with_group p None)).

Definition COM_SYS_PROC_RELEASE (s : procs) (a : Z) : res procs :=
  p ← deref (ptab s !! a);
  let n := u64 (p_ref p - 1) in
  let s := set_proc s a (with_ref p n) in
  if n =? 0 then com_sys_proc_hide s a else Ok s.

(** ** Look-up *)
Definition com_sys_proc_get_by_pid (s : procs) (pid : Z) : res (option Z * procs) :=
  if (CONFIG_PROC_MAX <? pid) || (pid <? 1) then Ok (None, s)
  else match Processes s !! (pid - 1) with
       | None => Ok (None, s)
       | Some a => s ← COM_SYS_PROC_HOLD s a; Ok (Some a, s)
       end.

(** The loop over the table from index [i]. [candidate] is a local that a
    failed look-up leaves as it was: at first what the stack held. *)
Fixpoint child_loop (n : nat) (s : procs) (self i : Z) (candidate : option Z) : res (option Z) :=
  match n with
  | O => Ok None
  | S n =>
      let candidate := match Processes s !! i with Some a => Some a | None => candidate end in
      match candidate with
      | None => child_loop n s self (i + 1) candidate
      | Some a =>
          p ← deref (ptab s !! a);
          if (p_parent p =? self) && negb (p_exited p) then Ok (Some a)
          else child_loop n s self (i + 1) candidate
      end
  end.

Definition com_sys_proc_get_arbitrary_child (s : procs) (a : Z) (stack : option Z) : res (option Z * procs) :=
  p ← deref (ptab s !! a);
  c ← child_loop (Z.to_nat (NextPid s + 1)) s (p_pid p) 0 stack;
  match c with
  | None => Ok (None, s)
  | Some c => s ← COM_SYS_PROC_HOLD s c; Ok (Some c, s)
  end.

Definition com_sys_proc_get_group_by_pgid (s : procs) (id : Z) : option Z := ProcGroupMap s !! id.

(** ** Threads of a process *)
Definition com_sys_proc_add_thread (s : procs) (a t : Z) : res procs :=
  p ← deref (ptab s !! a);
  KASSERT (negb (p_exited p)) ;;
  COM_SYS_PROC_HOLD (set_proc s a (with_threads p (p_threads p ++ [t]))) a.

Definition com_sys_proc_remove_thread_nolock (s : procs) (a t : Z) : res procs :=
  p ← deref (ptab s !! a);
  ts ← TAILQ_REMOVE (p_threads p) t;
  Ok (set_proc s a (with_threads p ts)).

(** ** Groups and sessions *)

(** [g] is the address of the new group. *)
Definition com_sys_proc_new_group (s : procs) (leader : Z) (session : option Z) (g : Z) : res (Z * procs) :=
  p ← deref (ptab s !! leader);
  ses ← match session, p_group p with
        | None, Some old => G ← deref (groups s !! old); Ok (g_session G)
        | _, _ => Ok session
        end;
  let s := set_group s g (Group (p_pid p) ses []) in
  KASSERT (bool_decide (ProcGroupMap s !! p_pid p = None)) ;;
  Ok (g, set_maps s (Processes s) (<[p_pid p := g]> (ProcGroupMap s)) (NextPid s)).

Definition com_sys_proc_join_group_nolock (s : procs) (a g : Z) : res procs :=
  p ← deref (ptab s !! a);
  s ← match p_group p with
      | None => Ok s
      | Some old =>
          O ← deref (groups s !! old);
          G ← deref (groups s !! g);
          KASSERT (negb (bool_decide (g_session O = None))) ;;
          KASSERT (negb (bool_decide (g_session G = None))) ;;
          group_remove s a old
      end;
  G ← deref (groups s !! g);
  p ← deref (ptab s !! a);
  Ok (set_proc (set_group s g (Group (pgid G) (g_session G) (g_procs G ++ [a]))) a (with_group p (Some g))).

Definition com_sys_proc_join_group : procs → Z → Z → res procs := com_sys_proc_join_group_nolock.

(** [x] and [g] are the addresses of the new session and group. The list of
    the old group is left before the group is created and once more when the
    new one is joined. *)
Definition com_sys_proc_new_session_nolock (s : procs) (leader : Z) (tty : option Z) (x g : Z) : res procs :=
  p ← deref (ptab s !! leader);
  let s := match tty with None => s | Some v => vnode_hold s v end in
  let s := set_session s x (Session (p_pid p) tty) in
  s ← match p_group p with None => Ok s | Some old => group_remove s leader old end;
  '(new_group, s) ← com_sys_proc_new_group s leader (Some x) g;
  com_sys_proc_join_group_nolock s leader new_group.

(** ** Creation and destruction *)
Definition new_proc (pid parent root cwd : Z) : com_proc :=
  Proc pid parent 0 [] 1 None None false 0 false COM_IPC_SIGNAL_NONE false 0 ∅ root cwd.

(** The second half of [com_sys_proc_new]: the new process joins the group of
    its parent. *)
Definition inherit_group (s : procs) (parent_pid a : Z) : res procs :=
  '(parent, s) ← com_sys_proc_get_by_pid s parent_pid;
  match parent with
  | None => Ok s
  | Some b =>
      pb ← deref (ptab s !! b);
      s ← match p_group pb with None => Ok s | Some g => com_sys_proc_join_group s a g end;
      COM_SYS_PROC_RELEASE s b
  end.

(** [a] is the address of the new process. *)
Definition com_sys_proc_new (s : procs) (parent_pid root cwd a : Z) : res procs :=
  let s := vnode_hold (vnode_hold s root) cwd in
  KASSERT (NextPid s <=? CONFIG_PROC_MAX) ;;
  let id := NextPid s in
  KASSERT (bool_decide (Processes s !! (id - 1) = None)) ;;
  let s := set_maps (set_proc s a (new_proc id parent_pid root cwd)) (<[id - 1 := a]> (Processes s)) (ProcGroupMap s) (id + 1) in
  inherit_group s parent_pid a.

Definition com_sys_proc_destroy (s : procs) (a : Z) : res procs :=
  p ← deref (ptab s !! a);
  KASSERT (p_ref p =? 0) ;;
  KASSERT (p_exited p) ;;
  Ok (Procs (delete a (ptab s)) (groups s) (sessions s) (Processes s) (ProcGroupMap s) (NextPid s) (vrefs s)).

(** ** System calls *)

(** The value and the error a call returns. *)
Definition sysret : Type := Z * errno.

(** What [proc->proc_group->session->sid] and [->pgid] read. *)
Definition group_of (s : procs) (a : Z) : res com_proc_group :=
  p ← deref (ptab s !! a); g ← deref (p_group p); deref (groups s !! g).
Definition session_of (s : procs) (a : Z) : res com_proc_session :=
  G ← group_of s a; x ← deref (g_session G); deref (sessions s !! x).

Definition assert_group (s : procs) (a : Z) : res unit :=
  p ← deref (ptab s !! a); KASSERT (negb (bool_decide (p_group p = None))).

(** The group [id], or a new one when there is none. *)
Definition find_group (s : procs) (a id g : Z) : res (Z * procs) :=
  match com_sys_proc_get_group_by_pgid s id with
  | Some h => Ok (h, s)
  | None => com_sys_proc_new_group s a None g
  end.

(** [curr] is the process of the calling thread, [g] the address of a new
    group. *)
Definition com_sys_syscall_setpgid (s : procs) (curr pid id g : Z) : res (sysret * procs) :=
  if (id <? 0) || (pid <? 0) then Ok (-1, EINVAL, s)
  else
    assert_group s curr ;;
    cp ← deref (ptab s !! curr);
    let id := if id =? 0 then p_pid cp else id in
    G ← group_of s curr;
    if id =? pgid G then Ok (0, E0, s)
    else
      KASSERT (negb (bool_decide (g_session G = None))) ;;
      S ← session_of s curr;
      if p_pid cp =? sid S then Ok (-1, EPERM, s)
      else
        '(proc, s) ← (if pid =? 0 then Ok (Some curr, s) else com_sys_proc_get_by_pid s pid);
        a ← deref proc;
        p ← deref (ptab s !! a);
        let release (r : sysret) (s : procs) : res (sysret * procs) :=
          if a =? curr then Ok (r, s) else s ← COM_SYS_PROC_RELEASE s a; Ok (r, s) in
        if negb (pid =? 0) && negb (p_pid p =? p_pid cp) && negb (p_parent p =? p_pid cp) then release (-1, ESRCH) s
        else if p_execve p then release (-1, EACCES) s
        else
          '(group, s) ← find_group s a id g;
          s ← com_sys_proc_join_group_nolock s a group;
          release (0, E0) s.

Definition com_sys_syscall_setsid (s : procs) (curr x g : Z) : res (sysret * procs) :=
  assert_group s curr ;;
  cp ← deref (ptab s !! curr);
  G ← group_of s curr;
  if pgid G =? p_pid cp then Ok (-1, EPERM, s)
  else
    s ← com_sys_proc_new_session_nolock s curr None x g;
    G ← group_of s curr;
    Ok (pgid G, E0, s).

(** The two calls share everything but the value they read, and that
    [getsid] ([same_ok] false) takes the lock [pg_lock] of the process it has
    found although the caller's is taken: when they are one process it spins
    for ever. *)
Definition get_id (same_ok : bool) (value : procs → Z → res Z) (s : procs) (curr pid : Z) : res (sysret * procs) :=
  if pid =? 0 then assert_group s curr ;; v ← value s curr; Ok (v, E0, s)
  else if pid <? 1 then Ok (-1, EINVAL, s)
  else
    '(proc, s) ← com_sys_proc_get_by_pid s pid;
    match proc with
    | None => Ok (-1, ESRCH, s)
    | Some a =>
        assert_group s curr ;;
        assert_group s a ;;
        if (a =? curr) && negb same_ok then Fuel
        else
          Sa ← session_of s a;
          Sc ← session_of s curr;
          if negb (sid Sa =? sid Sc) then s ← COM_SYS_PROC_RELEASE s a; Ok (-1, EPERM, s)
          else v ← value s a; s ← COM_SYS_PROC_RELEASE s a; Ok (v, E0, s)
    end.

Definition com_sys_syscall_getpgid : procs → Z → Z → res (sysret * procs) :=
  get_id true (λ s a, G ← group_of s a; Ok (pgid G)).
Definition com_sys_syscall_getsid : procs → Z → Z → res (sysret * procs) :=
  get_id false (λ s a, S ← session_of s a; Ok (sid S)).
Definition com_sys_syscall_getpid (s : procs) (curr : Z) : res sysret := p ← deref (ptab s !! curr); Ok (p_pid p, E0).
Definition com_sys_syscall_getppid (s : procs) (curr : Z) : res sysret := p ← deref (ptab s !! curr); Ok (p_parent p, E0).

(** ** Well-formed tables

    [ex] is a process that has been taken off the list of its group and still
    names the group, as in the middle of [com_sys_proc_new_session_nolock]. *)
Record wf (ex : option Z) (s : procs) : Prop := {
  w_tab a p : ptab s !! a = Some p → 0 ≤ p_ref p ∧
    if p_ref p =? 0 then p_group p = None ∧ Processes s !! (p_pid p - 1) ≠ Some a
    else Processes s !! (p_pid p - 1) = Some a;
  w_pid k a : Processes s !! k = Some a → ∃ p, ptab s !! a = Some p ∧ p_pid p = k + 1 ∧ 1 ≤ p_pid p < NextPid s;
  w_member g G a : groups s !! g = Some G → a ∈ g_procs G → ∃ p, ptab s !! a = Some p ∧ p_group p = Some g ∧ ex ≠ Some a;
  w_group a p g : ptab s !! a = Some p → p_group p = Some g →
    ∃ G, groups s !! g = Some G ∧ (ex ≠ Some a → a ∈ g_procs G);
  w_nodup g G : groups s !! g = Some G → NoDup (g_procs G);
  w_gmap i g : ProcGroupMap s !! i = Some g → ∃ G, groups s !! g = Some G ∧ pgid G = i;
  w_ses g G : groups s !! g = Some G → ∃ x, g_session G = Some x ∧ is_Some (sessions s !! x);
  w_next : 1 ≤ NextPid s
}.

Definition procs_wf : procs → Prop := wf None.

(** No count is about to wrap around. *)
Definition refs_small (s : procs) : Prop := ∀ a p, ptab s !! a = Some p → p_ref p + 2 < 2 ^ 64.

(** ** Lists linked through their elements: lemmas *)
Lemma after_elem_app q1 a q2 : a ∉ q1 → after_elem (q1 ++ a :: q2) a = Some (head q2).
Proof.
  induction q1 as [|b q1 IH]; intros Ha; simpl; [by rewrite Z.eqb_refl|].
  apply not_elem_of_cons in Ha as [Hne Ha]. destruct (Z.eqb_spec b a); [congruence|]. by apply IH.
Qed.

Lemma neighbours_app prev q1 t q2 : t ∉ q1 →
  neighbours prev (q1 ++ t :: q2) t = (match last q1 with None => prev | Some u => Some u end, head q2).
Proof.
  revert prev; induction q1 as [|b q1 IH]; intros prev Ht; simpl; [by rewrite Z.eqb_refl|].
  apply not_elem_of_cons in Ht as [Hne Ht]. destruct (Z.eqb_spec b t); [congruence|]. rewrite IH by done.
  rewrite last_cons. by destruct (last q1).
Qed.

(** The first removal leaves links with which a second one changes nothing. *)
Lemma TAILQ_REMOVE_LINKS_member q t l : NoDup q → t ∈ q →
  ∃ links, TAILQ_REMOVE_LINKS q t l = Ok (filter (λ u, u ≠ t) q, links) ∧
    TAILQ_REMOVE_LINKS (filter (λ u, u ≠ t) q) t links = Ok (filter (λ u, u ≠ t) q, links).
Proof.
  intros Hnd Ht. exists (Some (neighbours None q t)). unfold TAILQ_REMOVE_LINKS.
  rewrite bool_decide_eq_true_2 by done. split; [done|].
  rewrite bool_decide_eq_false_2 by (intros [? _]%list_elem_of_filter; done).
  apply list_elem_of_split in Ht as (q1 & q2 & ->). apply NoDup_app in Hnd as (Hd1 & Hx & [Ht2 Hd2]%NoDup_cons).
  assert (Ht1 : t ∉ q1) by (intros H; apply (Hx t H); by left).
  assert (Hf : filter (λ u, u ≠ t) (q1 ++ t :: q2) = q1 ++ q2).
  { rewrite filter_app, filter_cons_False by tauto.
    rewrite !filter_all; [done|..]; apply Forall_forall; intros u Hu ->; done. }
  rewrite Hf, neighbours_app by done. clear Hf.
  destruct (last q1) as [u|] eqn:Hl.
  - apply last_Some in Hl as [q ->]. apply NoDup_app in Hd1 as (_ & Hd & _).
    rewrite <- app_assoc. cbn [app after]. rewrite after_elem_app; [by rewrite bool_decide_eq_true_2|].
    intros Hu. apply (Hd u Hu). by left.
  - apply last_None in Hl as ->. cbn [app after]. by rewrite bool_decide_eq_true_2.
Qed.

(** ** Steps that keep the tables well formed *)

(** Replacing a process by one that agrees in what the invariant reads. *)
Lemma wf_set_proc ex s a p p' : wf ex s → ptab s !! a = Some p → p_pid p' = p_pid p → p_group p' = p_group p →
  0 ≤ p_ref p' → (p_ref p =? 0) = (p_ref p' =? 0) → wf ex (set_proc s a p').
Proof.
  intros H Ha Hpid Hg Hr0 Hr. split; cbn [set_proc ptab groups sessions Processes ProcGroupMap NextPid].
  - intros b q [[<- <-]|[_ Hb]]%lookup_insert_Some; [|exact (w_tab _ _ H b q Hb)]. destruct (w_tab _ _ H a p Ha) as [_ Ht].
    rewrite Hpid, Hg, <- Hr. done.
  - intros k b Hk. destruct (w_pid _ _ H k b Hk) as (q & Hq & Hp). destruct (decide (b = a)) as [->|Hne].
    + exists p'. rewrite lookup_insert_eq, Hpid. assert (q = p) as -> by congruence. done.
    + exists q. by rewrite lookup_insert_ne.
  - intros g G b Hgr Hb. destruct (w_member _ _ H g G b Hgr Hb) as (q & Hq & Hqg & He). destruct (decide (b = a)) as [->|Hne].
    + exists p'. rewrite lookup_insert_eq, Hg. assert (q = p) as -> by congruence. done.
    + exists q. by rewrite lookup_insert_ne.
  - intros b q g [[<- <-]|[_ Hb]]%lookup_insert_Some Hq; [|exact (w_group _ _ H b q g Hb Hq)].
    rewrite Hg in Hq. exact (w_group _ _ H a p g Ha Hq).
  - apply H.
  - apply H.
  - apply H.
  - apply H.
Qed.

(** A new address for a group with no members. *)
Lemma wf_new_group ex s g G : wf ex s → groups s !! g = None → g_procs G = [] →
  (∃ x, g_session G = Some x ∧ is_Some (sessions s !! x)) →
  wf ex (set_maps (set_group s g G) (Processes s) (<[pgid G := g]> (ProcGroupMap s)) (NextPid s)).
Proof.
  intros H Hg Hm Hs. split; cbn [set_maps set_group ptab groups sessions Processes ProcGroupMap NextPid].
  - apply H.
  - apply H.
  - intros h K b [[<- <-]|[_ Hh]]%lookup_insert_Some Hb; [rewrite Hm in Hb; by apply not_elem_of_nil in Hb|].
    exact (w_member _ _ H h K b Hh Hb).
  - intros b p h Hb Hp. destruct (w_group _ _ H b p h Hb Hp) as (K & HK & Hin). exists K.
    rewrite lookup_insert_ne by congruence. done.
  - intros h K [[<- <-]|[_ Hh]]%lookup_insert_Some; [rewrite Hm; apply NoDup_nil_2|exact (w_nodup _ _ H h K Hh)].
  - intros i h [[<- <-]|[_ Hi]]%lookup_insert_Some; [exists G; by rewrite lookup_insert_eq|].
    destruct (w_gmap _ _ H i h Hi) as (K & HK & ?). exists K. by rewrite lookup_insert_ne by congruence.
  - intros h K [[<- <-]|[_ Hh]]%lookup_insert_Some; [done|exact (w_ses _ _ H h K Hh)].
  - apply H.
Qed.

Lemma wf_new_session ex s x S : wf ex s → wf ex (set_session s x S).
Proof.
  intros H. split; cbn [set_session ptab groups sessions Processes ProcGroupMap NextPid]; try apply H.
  intros g G Hg. destruct (w_ses _ _ H g G Hg) as (y & Hy & Hs). exists y. split; [done|].
  destruct (decide (y = x)) as [->|]; [by rewrite lookup_insert_eq|by rewrite lookup_insert_ne].
Qed.

Lemma wf_vnode_hold ex s v : wf ex s → wf ex (vnode_hold s v).
Proof. intros H. by destruct H; split. Qed.

(** A removal that changes nothing. *)
Lemma group_remove_again s a g p G : ptab s !! a = Some p → groups s !! g = Some G →
  TAILQ_REMOVE_LINKS (g_procs G) a (p_links p) = Ok (g_procs G, p_links p) → group_remove s a g = Ok s.
Proof.
  intros Ha HG Hq. unfold group_remove. rewrite Ha, HG. mstep. rewrite Hq. mstep. f_equal.
  unfold set_proc, set_group. cbn [ptab groups sessions Processes ProcGroupMap NextPid vrefs].
  destruct s as [pt gr se P M n v]. cbn in *. rewrite !insert_id; [done|..].
  - rewrite HG. by destruct G.
  - rewrite Ha. by destruct p.
Qed.

(** A process that leaves the list of its group. *)
Lemma wf_leave_group s a p g : procs_wf s → ptab s !! a = Some p → p_group p = Some g →
  ∃ G links, groups s !! g = Some G ∧ TAILQ_REMOVE_LINKS (g_procs G) a (p_links p) = Ok (filter (λ u, u ≠ a) (g_procs G), links) ∧
    let s1 := set_proc (set_group s g (Group (pgid G) (g_session G) (filter (λ u, u ≠ a) (g_procs G)))) a (with_links p links) in
    group_remove s a g = Ok s1 ∧
    TAILQ_REMOVE_LINKS (filter (λ u, u ≠ a) (g_procs G)) a links = Ok (filter (λ u, u ≠ a) (g_procs G), links) ∧ wf (Some a) s1.
Proof.
  intros H Ha Hp. destruct (w_group _ _ H a p g Ha Hp) as (G & HG & Hin). specialize (Hin ltac:(done)).
  destruct (TAILQ_REMOVE_LINKS_member (g_procs G) a (p_links p) (w_nodup _ _ H g G HG) Hin) as (links & Hr1 & Hr2).
  exists G, links. split; [done|]. split; [done|]. cbn zeta. split_and!.
  - unfold group_remove. rewrite Ha, HG. mstep. by rewrite Hr1.
  - done.
  - split; cbn [set_proc set_group ptab groups sessions Processes ProcGroupMap NextPid].
    + intros b q [[<- <-]|[_ Hb]]%lookup_insert_Some; [exact (w_tab _ _ H a p Ha)|exact (w_tab _ _ H b q Hb)].
    + intros k b Hk. destruct (w_pid _ _ H k b Hk) as (q & Hq & ?). destruct (decide (b = a)) as [->|].
      * exists (with_links p links). rewrite lookup_insert_eq. assert (q = p) as -> by congruence. done.
      * exists q. by rewrite lookup_insert_ne.
    + intros h K b [[<- <-]|[Hne Hh]]%lookup_insert_Some Hb.
      * cbn [g_procs] in Hb. apply list_elem_of_filter in Hb as [Hba Hb]. destruct (w_member _ _ H g G b HG Hb) as (q & ? & ? & _).
        exists q. rewrite lookup_insert_ne by done. split_and!; [done..|congruence].
      * destruct (w_member _ _ H h K b Hh Hb) as (q & Hq & Hqg & _).
        assert (b ≠ a) by (intros ->; congruence). exists q. rewrite lookup_insert_ne by done. split_and!; [done..|congruence].
    + intros b q h [[<- <-]|[Hne Hb]]%lookup_insert_Some Hq.
      * cbn [with_links p_group] in Hq. assert (h = g) as -> by congruence. eexists. rewrite lookup_insert_eq. split; [done|]. done.
      * destruct (w_group _ _ H b q h Hb Hq) as (K & HK & Hi). destruct (decide (h = g)) as [->|].
        -- eexists. rewrite lookup_insert_eq. split; [done|]. intros _. cbn [g_procs]. apply list_elem_of_filter.
           assert (K = G) as -> by congruence. split; [congruence|]. by apply Hi.
        -- exists K. rewrite lookup_insert_ne by done. split; [done|]. intros _. by apply Hi.
    + intros h K [[<- <-]|[Hne Hh]]%lookup_insert_Some; [apply NoDup_filter; exact (w_nodup _ _ H g G HG)|exact (w_nodup _ _ H h K Hh)].
    + intros i h Hi. destruct (w_gmap _ _ H i h Hi) as (K & HK & HKi). destruct (decide (h = g)) as [->|].
      * eexists. rewrite lookup_insert_eq. split; [done|]. by assert (K = G) as -> by congruence.
      * exists K. by rewrite lookup_insert_ne.
    + intros h K [[<- <-]|[Hne Hh]]%lookup_insert_Some; [exact (w_ses _ _ H g G HG)|exact (w_ses _ _ H h K Hh)].
    + apply H.
Qed.

(** A process on no list joins one. *)
Lemma wf_join ex s a p g G : wf ex s → ptab s !! a = Some p → p_ref p ≠ 0 → groups s !! g = Some G →
  (ex = Some a ∨ ex = None ∧ p_group p = None) →
  procs_wf (set_proc (set_group s g (Group (pgid G) (g_session G) (g_procs G ++ [a]))) a (with_group p (Some g))).
Proof.
  intros H Ha Href HG Hex.
  assert (Hout : ∀ h K, groups s !! h = Some K → a ∉ g_procs K).
  { intros h K Hh Hin. destruct (w_member _ _ H h K a Hh Hin) as (q & Hq & Hqg & He).
    destruct Hex as [->|[-> Hn]]; [done|]. congruence. }
  assert (Hne' : ∀ b, b ≠ a → ex ≠ Some b) by (intros b Hb; destruct Hex as [->|[-> _]]; congruence).
  split; cbn [set_proc set_group ptab groups sessions Processes ProcGroupMap NextPid].
  - intros b q [[<- <-]|[_ Hb]]%lookup_insert_Some; [|exact (w_tab _ _ H b q Hb)].
    destruct (w_tab _ _ H a p Ha) as [? Ht]. split; [done|]. cbn [with_group p_ref p_pid p_group].
    destruct (Z.eqb_spec (p_ref p) 0); done.
  - intros k b Hk. destruct (w_pid _ _ H k b Hk) as (q & Hq & ?). destruct (decide (b = a)) as [->|].
    + exists (with_group p (Some g)). rewrite lookup_insert_eq. assert (q = p) as -> by congruence. done.
    + exists q. by rewrite lookup_insert_ne.
  - intros h K b [[<- <-]|[Hne Hh]]%lookup_insert_Some Hb.
    + cbn [g_procs] in Hb. apply elem_of_app in Hb as [Hb| ->%list_elem_of_singleton].
      * assert (b ≠ a) by (intros ->; by apply (Hout g G HG)). destruct (w_member _ _ H g G b HG Hb) as (q & ? & ? & _).
        exists q. by rewrite lookup_insert_ne.
      * eexists. by rewrite lookup_insert_eq.
    + assert (b ≠ a) by (intros ->; by apply (Hout h K Hh)). destruct (w_member _ _ H h K b Hh Hb) as (q & ? & ? & _).
      exists q. by rewrite lookup_insert_ne.
  - intros b q h [[<- <-]|[Hne Hb]]%lookup_insert_Some Hq.
    + cbn [with_group p_group] in Hq. injection Hq as <-. eexists. rewrite lookup_insert_eq. split; [done|].
      intros _. apply elem_of_app. right. by left.
    + destruct (w_group _ _ H b q h Hb Hq) as (K & HK & Hi). specialize (Hi (Hne' b (not_eq_sym Hne))).
      destruct (decide (h = g)) as [->|].
      * eexists. rewrite lookup_insert_eq. split; [done|]. intros _. apply elem_of_app. left. by assert (G = K) as -> by congruence.
      * exists K. by rewrite lookup_insert_ne.
  - intros h K [[<- <-]|[Hne Hh]]%lookup_insert_Some; [|exact (w_nodup _ _ H h K Hh)]. apply NoDup_app.
    split_and!; [exact (w_nodup _ _ H g G HG)| |apply NoDup_singleton]. intros b Hb ->%list_elem_of_singleton. by apply (Hout g G HG).
  - intros i h Hi. destruct (w_gmap _ _ H i h Hi) as (K & HK & HKi). destruct (decide (h = g)) as [->|].
    + eexists. rewrite lookup_insert_eq. split; [done|]. by assert (K = G) as -> by congruence.
    + exists K. by rewrite lookup_insert_ne.
  - intros h K [[<- <-]|[Hne Hh]]%lookup_insert_Some; [exact (w_ses _ _ H g G HG)|exact (w_ses _ _ H h K Hh)].
  - apply H.
Qed.

(** A process that is not referred to any more leaves the table. *)
Lemma wf_dead ex s a p : wf ex s → ptab s !! a = Some p → Processes s !! (p_pid p - 1) = Some a →
  (ex = Some a ∨ ex = None ∧ p_group p = None) →
  procs_wf (set_proc (set_maps s (delete (p_pid p - 1) (Processes s)) (ProcGroupMap s) (NextPid s)) a
    (with_group (with_ref p 0) None)).
Proof.
  intros H Ha Hp Hex.
  assert (Hout : ∀ h K, groups s !! h = Some K → a ∉ g_procs K).
  { intros h K Hh Hin. destruct (w_member _ _ H h K a Hh Hin) as (q & Hq & Hqg & He).
    destruct Hex as [->|[-> Hn]]; [done|]. congruence. }
  assert (Hother : ∀ b k, Processes s !! k = Some b → b ≠ a → k ≠ p_pid p - 1) by (intros b k Hb Hne ->; congruence).
  split; cbn [set_proc set_maps ptab groups sessions Processes ProcGroupMap NextPid].
  - intros b q [[<- <-]|[Hne Hb]]%lookup_insert_Some; [split; [done|]; cbn; split; [done|]; by rewrite lookup_delete_eq|].
    destruct (w_tab _ _ H b q Hb) as [? Ht]. split; [done|]. destruct (p_ref q =? 0).
    + destruct Ht as [? Hn]. split; [done|]. intros [_ ?]%lookup_delete_Some. done.
    + rewrite lookup_delete_ne; [done|]. intros E. apply (Hother b _ Ht); [done|]. done.
  - intros k b [Hk Hb]%lookup_delete_Some. destruct (w_pid _ _ H k b Hb) as (q & Hq & Hqp & ?).
    assert (b ≠ a) by (intros ->; assert (q = p) as -> by congruence; lia). exists q. by rewrite lookup_insert_ne.
  - intros h K b Hh Hb. assert (b ≠ a) by (intros ->; by apply (Hout h K Hh)).
    destruct (w_member _ _ H h K b Hh Hb) as (q & ? & ? & _). exists q. by rewrite lookup_insert_ne.
  - intros b q h [[<- <-]|[Hne Hb]]%lookup_insert_Some Hq; [done|]. destruct (w_group _ _ H b q h Hb Hq) as (K & HK & Hi).
    exists K. split; [done|]. intros _. apply Hi. destruct Hex as [->|[-> _]]; congruence.
  - apply H.
  - apply H.
  - apply H.
  - apply H.
Qed.

Lemma wf_new_proc s a parent root cwd : procs_wf s → ptab s !! a = None →
  procs_wf (set_maps (set_proc s a (new_proc (NextPid s) parent root cwd)) (<[NextPid s - 1 := a]> (Processes s))
    (ProcGroupMap s) (NextPid s + 1)) ∧ Processes s !! (NextPid s - 1) = None.
Proof.
  intros H Ha. assert (Hfree : Processes s !! (NextPid s - 1) = None).
  { apply eq_None_not_Some. intros [b Hb]. destruct (w_pid _ _ H _ b Hb) as (q & _ & ? & ?). lia. }
  split; [|done]. pose proof (w_next _ _ H) as Hn.
  split; cbn [set_proc set_maps ptab groups sessions Processes ProcGroupMap NextPid].
  - intros b q [[<- <-]|[Hne Hb]]%lookup_insert_Some; [split; [done|]; cbn; by rewrite lookup_insert_eq|].
    destruct (w_tab _ _ H b q Hb) as [? Ht]. split; [done|]. destruct (p_ref q =? 0).
    + destruct Ht as [? Hnp]. split; [done|]. intros [[_ ?]|[_ ?]]%lookup_insert_Some; done.
    + rewrite lookup_insert_ne; [done|]. intros E. by rewrite <- E, Hfree in Ht.
  - intros k b [[<- <-]|[Hk Hb]]%lookup_insert_Some.
    + eexists. rewrite lookup_insert_eq. split; [done|]. cbn [new_proc p_pid]. lia.
    + destruct (w_pid _ _ H k b Hb) as (q & Hq & ? & ?). exists q. rewrite lookup_insert_ne by congruence. split_and!; [done|done|lia..].
  - intros h K b Hh Hb. destruct (w_member _ _ H h K b Hh Hb) as (q & ? & ? & ?). exists q. by rewrite lookup_insert_ne by congruence.
  - intros b q h [[<- <-]|[Hne Hb]]%lookup_insert_Some Hq; [done|]. exact (w_group _ _ H b q h Hb Hq).
  - apply H.
  - apply H.
  - apply H.
  - lia.
Qed.

(** ** The operations keep the tables well formed *)
Lemma proc_hold_ok ex s a p : wf ex s → ptab s !! a = Some p → p_ref p ≠ 0 → p_ref p + 2 < 2 ^ 64 →
  COM_SYS_PROC_HOLD s a = Ok (set_proc s a (with_ref p (p_ref p + 1))) ∧ wf ex (set_proc s a (with_ref p (p_ref p + 1))).
Proof.
  intros H Ha Hr Hs. destruct (w_tab _ _ H a p Ha) as [Hr0 _]. unfold COM_SYS_PROC_HOLD. rewrite Ha. mstep.
  rewrite wrap_small by lia. split; [done|]. apply (wf_set_proc _ _ _ p); try done; cbn [with_ref p_ref]; [lia|].
  destruct (Z.eqb_spec (p_ref p) 0), (Z.eqb_spec (p_ref p + 1) 0); lia.
Qed.

Lemma live_listed s a p : procs_wf s → ptab s !! a = Some p → p_ref p ≠ 0 → Processes s !! (p_pid p - 1) = Some a.
Proof. intros H Ha Hr. destruct (w_tab _ _ H a p Ha) as [_ Ht]. by destruct (Z.eqb_spec (p_ref p) 0). Qed.

Lemma hide_ok s a p : procs_wf s → ptab s !! a = Some p → p_ref p ≠ 0 →
  ∃ s', com_sys_proc_hide (set_proc s a (with_ref p 0)) a = Ok s' ∧ procs_wf s'.
Proof.
  intros H Ha Hr. pose proof (live_listed s a p H Ha Hr) as Hp. unfold com_sys_proc_hide.
  cbn [set_proc ptab Processes]. rewrite lookup_insert_eq. mstep. cbn [with_ref p_pid p_group].
  rewrite Hp. rewrite bool_decide_eq_true_2 by eauto. mstep.
  destruct (p_group p) as [g|] eqn:Hg.
  - destruct (wf_leave_group s a p g H Ha Hg) as (G & links & HG & Hq & _ & _ & Hw). cbn zeta in *.
    unfold group_remove. cbn [set_maps set_proc ptab groups]. rewrite lookup_insert_eq, HG. mstep.
    cbn [with_ref p_links]. rewrite Hq. mstep. cbn [set_proc set_group ptab groups]. rewrite !lookup_insert_eq. mstep.
    eexists; split; [done|]. eapply wf_dead in Hw; cycle 1.
    + cbn [set_proc set_group ptab]. by rewrite lookup_insert_eq.
    + exact Hp.
    + by left.
    + revert Hw. unfold set_proc, set_group, set_maps. cbn [ptab groups sessions Processes ProcGroupMap NextPid vrefs with_links p_pid].
      rewrite !insert_insert_eq. done.
  - mstep. cbn [set_proc set_maps ptab]. rewrite lookup_insert_eq. mstep. eexists; split; [done|].
    pose proof (wf_dead None s a p H Ha Hp (or_intror (conj eq_refl Hg))) as Hw. revert Hw.
    unfold set_proc, set_maps. cbn [ptab groups sessions Processes ProcGroupMap NextPid vrefs]. by rewrite insert_insert_eq.
Qed.

Lemma proc_release_ok s a p : procs_wf s → ptab s !! a = Some p → p_ref p ≠ 0 → p_ref p < 2 ^ 64 →
  ∃ s', COM_SYS_PROC_RELEASE s a = Ok s' ∧ procs_wf s' ∧ (p_ref p ≠ 1 → s' = set_proc s a (with_ref p (p_ref p - 1))).
Proof.
  intros H Ha Hr Hs. destruct (w_tab _ _ H a p Ha) as [Hr0 _]. unfold COM_SYS_PROC_RELEASE. rewrite Ha. mstep.
  rewrite wrap_small by lia. destruct (Z.eqb_spec (p_ref p - 1) 0) as [E|E].
  - rewrite E. destruct (hide_ok s a p H Ha Hr) as (s' & -> & ?). exists s'. split_and!; [done..|lia].
  - eexists; split; [done|]. split; [|done]. apply (wf_set_proc _ _ _ p); try done; cbn [with_ref p_ref]; [lia|].
    destruct (Z.eqb_spec (p_ref p) 0), (Z.eqb_spec (p_ref p - 1) 0); lia.
Qed.

(** The look-up holds what it finds, which is alive. *)
Lemma get_by_pid_ok s pid : procs_wf s → refs_small s →
  (com_sys_proc_get_by_pid s pid = Ok (None, s)) ∨
  ∃ a p, Processes s !! (pid - 1) = Some a ∧ ptab s !! a = Some p ∧ p_pid p = pid ∧ p_ref p ≠ 0 ∧
    com_sys_proc_get_by_pid s pid = Ok (Some a, set_proc s a (with_ref p (p_ref p + 1))) ∧
    procs_wf (set_proc s a (with_ref p (p_ref p + 1))).
Proof.
  intros H Hs. unfold com_sys_proc_get_by_pid. destruct ((CONFIG_PROC_MAX <? pid) || (pid <? 1)); [by left|].
  destruct (Processes s !! (pid - 1)) as [a|] eqn:Hp; [right|by left].
  destruct (w_pid _ _ H _ a Hp) as (p & Ha & Hpid & ?). assert (Hr : p_ref p ≠ 0).
  { intros E. destruct (w_tab _ _ H a p Ha) as [_ Ht]. rewrite E in Ht. cbn in Ht. destruct Ht as [_ Ht].
    apply Ht. by replace (p_pid p - 1) with (pid - 1) by lia. }
  destruct (proc_hold_ok None s a p H Ha Hr (Hs a p Ha)) as [-> Hw]. mstep. exists a, p. split_and!; try done. lia.
Qed.

Lemma join_ok s a p g G : procs_wf s → ptab s !! a = Some p → p_ref p ≠ 0 → groups s !! g = Some G →
  ∃ s' p', com_sys_proc_join_group_nolock s a g = Ok s' ∧ procs_wf s' ∧ ptab s' = <[a := p']> (ptab s) ∧
    p_ref p' = p_ref p ∧ p_pid p' = p_pid p ∧ p_group p' = Some g ∧ sessions s' = sessions s ∧
    Processes s' = Processes s ∧ ProcGroupMap s' = ProcGroupMap s ∧ NextPid s' = NextPid s ∧
    pgid <$> groups s' !! g = Some (pgid G) ∧ (p_group p ≠ Some g → g_procs <$> groups s' !! g = Some (g_procs G ++ [a])) ∧
    (∀ h, g_session <$> groups s' !! h = g_session <$> groups s !! h).
Proof.
  intros H Ha Hr HG. unfold com_sys_proc_join_group_nolock. rewrite Ha. mstep.
  destruct (p_group p) as [old|] eqn:Hg.
  - destruct (wf_leave_group s a p old H Ha Hg) as (O & links & HO & _ & Hr1 & _ & Hw). cbn zeta in *.
    destruct (w_ses _ _ H old O HO) as (x & Hx & _), (w_ses _ _ H g G HG) as (y & Hy & _).
    rewrite HO, HG. mstep. rewrite (bool_decide_eq_false_2 (g_session O = None)), (bool_decide_eq_false_2 (g_session G = None)) by congruence.
    cbn [negb]. mstep. rewrite Hr1. mstep.
    cbn [set_proc set_group ptab groups]. rewrite lookup_insert_eq.
    destruct (decide (g = old)) as [->|Hne].
    + assert (G = O) as -> by congruence. rewrite lookup_insert_eq. mstep.
      eexists _, _. split; [done|]. split.
      { eapply wf_join in Hw; [exact Hw|..].
        - cbn [set_proc set_group ptab]. by rewrite lookup_insert_eq.
        - done.
        - cbn [set_proc set_group groups]. by rewrite lookup_insert_eq.
        - by left. }
      unfold set_proc, set_group. cbn [ptab groups sessions Processes ProcGroupMap NextPid]. rewrite !insert_insert_eq, lookup_insert_eq.
      split_and!; try done. intros h. destruct (decide (h = old)) as [->|]; [rewrite lookup_insert_eq, HO; cbn; by rewrite Hx|by rewrite lookup_insert_ne].
    + rewrite lookup_insert_ne, HG by done. mstep. eexists _, _. split; [done|]. split.
      { eapply wf_join in Hw; [exact Hw|..].
        - cbn [set_proc set_group ptab]. by rewrite lookup_insert_eq.
        - done.
        - cbn [set_proc set_group groups]. by rewrite lookup_insert_ne.
        - by left. }
      unfold set_proc, set_group. cbn [ptab groups sessions Processes ProcGroupMap NextPid]. rewrite !insert_insert_eq, lookup_insert_eq.
      split_and!; try done. intros h. destruct (decide (h = g)) as [->|]; [rewrite lookup_insert_eq, HG; done|rewrite lookup_insert_ne by done].
      destruct (decide (h = old)) as [->|]; [rewrite lookup_insert_eq, HO; cbn; by rewrite Hx|by rewrite lookup_insert_ne].
  - mstep. rewrite HG. mstep. rewrite Ha. mstep. eexists _, _. split; [done|]. split.
    { eapply wf_join; try done. by right. }
    unfold set_proc, set_group. cbn [ptab groups sessions Processes ProcGroupMap NextPid]. rewrite !lookup_insert_eq.
    split_and!; try done. intros h. destruct (decide (h = g)) as [->|]; [rewrite lookup_insert_eq, HG; done|by rewrite lookup_insert_ne].
Qed.

Lemma new_group_ok s a p old g : procs_wf s → ptab s !! a = Some p → p_group p = Some old → groups s !! g = None →
  ProcGroupMap s !! p_pid p = None →
  ∃ s' x, com_sys_proc_new_group s a None g = Ok (g, s') ∧ procs_wf s' ∧ ptab s' = ptab s ∧
    groups s' = <[g := Group (p_pid p) (Some x) []]> (groups s) ∧ (g_session <$> groups s !! old) = Some (Some x).
Proof.
  intros H Ha Hg Hfree Hmap. unfold com_sys_proc_new_group. rewrite Ha. mstep. rewrite Hg.
  destruct (w_group _ _ H a p old Ha Hg) as (O & HO & _). rewrite HO. mstep.
  destruct (w_ses _ _ H old O HO) as (x & Hx & Hs). rewrite Hx. cbn [set_group ProcGroupMap].
  rewrite bool_decide_eq_true_2 by done. mstep. eexists _, x. split; [done|]. split_and!; try done.
  - apply (wf_new_group None s g (Group (p_pid p) (Some x) [])); try done. eauto.
  - cbn. by rewrite Hx.
Qed.

Lemma new_session_ok s a p tty x g : procs_wf s → ptab s !! a = Some p → p_ref p ≠ 0 → groups s !! g = None →
  ProcGroupMap s !! p_pid p = None →
  ∃ s' p', com_sys_proc_new_session_nolock s a tty x g = Ok s' ∧ procs_wf s' ∧ ptab s' = <[a := p']> (ptab s) ∧
    p_group p' = Some g ∧ p_pid p' = p_pid p ∧ groups s' !! g = Some (Group (p_pid p) (Some x) [a]) ∧
    sessions s' !! x = Some (Session (p_pid p) tty).
Proof.
  intros H Ha Hr Hfree Hmap. unfold com_sys_proc_new_session_nolock. rewrite Ha. mstep.
  set (s0 := match tty with None => s | Some v => vnode_hold s v end).
  assert (H0 : procs_wf s0 ∧ ptab s0 = ptab s ∧ groups s0 = groups s ∧ ProcGroupMap s0 = ProcGroupMap s).
  { subst s0. destruct tty; [split; [by apply wf_vnode_hold|done]|done]. }
  destruct H0 as (H0 & Hpt & Hgr & Hgm). set (s1 := set_session s0 x (Session (p_pid p) tty)).
  assert (H1 : procs_wf s1) by (by apply wf_new_session).
  assert (Ha1 : ptab s1 !! a = Some p) by (cbn; by rewrite Hpt).
  assert (Hg1 : groups s1 !! g = None) by (cbn; by rewrite Hgr).
  assert (Hm1 : ProcGroupMap s1 !! p_pid p = None) by (cbn; by rewrite Hgm).
  assert (Hx1 : sessions s1 !! x = Some (Session (p_pid p) tty)) by (cbn; by rewrite lookup_insert_eq).
  assert (Hp1 : ptab s1 = ptab s) by done. clearbody s1. clear s0 H0 Hpt Hgr Hgm.
  destruct (p_group p) as [old|] eqn:Hg.
  - destruct (wf_leave_group s1 a p old H1 Ha1 Hg) as (O & links & HO & _ & Hr1 & Hq2 & Hw). cbn zeta in *.
    rewrite Hr1. mstep. assert (Hne : g ≠ old) by congruence. destruct (w_ses _ _ H1 old O HO) as (y & Hy & _).
    set (q := filter _ _) in *. set (s2 := set_proc _ _ _) in *.
    assert (Ha2 : ptab s2 !! a = Some (with_links p links)) by (cbn; by rewrite lookup_insert_eq).
    assert (Ho2 : groups s2 !! old = Some (Group (pgid O) (g_session O) q)) by (cbn; by rewrite lookup_insert_eq).
    assert (Hg2 : groups s2 !! g = None) by (cbn; by rewrite lookup_insert_ne).
    assert (Hm2 : ProcGroupMap s2 !! p_pid p = None) by done.
    assert (Hx2 : sessions s2 !! x = Some (Session (p_pid p) tty)) by done.
    assert (Hp2 : ptab s2 = <[a := with_links p links]> (ptab s)) by (rewrite <- Hp1; done).
    clearbody s2. clear Hr1 s1 H1 Ha1 Hg1 Hm1 Hx1 Hp1 HO.
    pose proof (wf_new_group (Some a) s2 g (Group (p_pid p) (Some x) []) Hw Hg2 eq_refl ltac:(eauto)) as Hw3.
    unfold com_sys_proc_new_group. rewrite Ha2. mstep. cbn [with_links p_pid set_group ProcGroupMap pgid] in *.
    rewrite Hm2, bool_decide_eq_true_2 by done. mstep. set (s3 := set_maps _ _ _ _) in *.
    assert (Ha3 : ptab s3 !! a = Some (with_links p links)) by done.
    assert (Hg3 : groups s3 !! g = Some (Group (p_pid p) (Some x) [])) by (cbn; by rewrite lookup_insert_eq).
    assert (Ho3 : groups s3 !! old = Some (Group (pgid O) (g_session O) q)) by (cbn; by rewrite lookup_insert_ne).
    assert (Hx3 : sessions s3 !! x = Some (Session (p_pid p) tty)) by done.
    assert (Hp3 : ptab s3 = <[a := with_links p links]> (ptab s)) by done. clearbody s3.
    unfold com_sys_proc_join_group_nolock. rewrite Ha3. mstep. cbn [with_links p_group]. rewrite Hg, Ho3, Hg3. mstep.
    cbn [g_session]. rewrite (bool_decide_eq_false_2 (g_session O = None)), (bool_decide_eq_false_2 (Some x = None)) by congruence.
    cbn [negb]. mstep. rewrite (group_remove_again s3 a old _ _ Ha3 Ho3 Hq2). mstep. rewrite Hg3, Ha3. mstep.
    eexists _, _. split; [done|]. split; [exact (wf_join (Some a) s3 a _ g _ Hw3 Ha3 Hr Hg3 (or_introl eq_refl))|].
    cbn [set_proc set_group ptab groups sessions]. rewrite Hp3, insert_insert_eq, lookup_insert_eq. done.
  - mstep. unfold com_sys_proc_new_group. rewrite Ha1. mstep. cbn [set_group ProcGroupMap]. rewrite Hm1, bool_decide_eq_true_2 by done. mstep.
    pose proof (wf_new_group None s1 g (Group (p_pid p) (Some x) []) H1 Hg1 eq_refl ltac:(eauto)) as Hw3. cbn [pgid] in Hw3.
    unfold com_sys_proc_join_group_nolock. cbn [set_group set_maps ptab groups]. rewrite Ha1. mstep. rewrite Hg. mstep.
    cbn [set_group set_maps ptab groups]. rewrite lookup_insert_eq, Ha1. mstep.
    eexists _, _. split; [done|]. split.
    { eapply wf_join in Hw3; [exact Hw3|exact Ha1|done|cbn; by rewrite lookup_insert_eq|by right]. }
    cbn [set_proc set_group set_maps ptab groups sessions]. rewrite Hp1, lookup_insert_eq. done.
Qed.

(** A second group of the same number is refused by the table of groups. *)
Lemma new_session_named s a p old tty x g : procs_wf s → ptab s !! a = Some p → p_group p = Some old →
  ProcGroupMap s !! p_pid p ≠ None → com_sys_proc_new_session_nolock s a tty x g = Panic.
Proof.
  intros H Ha Hg Hm. unfold com_sys_proc_new_session_nolock. rewrite Ha. mstep.
  set (s1 := set_session _ x _). assert (H1 : procs_wf s1).
  { subst s1. destruct tty; apply wf_new_session; [by apply wf_vnode_hold|done]. }
  assert (Ha1 : ptab s1 !! a = Some p) by (subst s1; by destruct tty). assert (Hm1 : ProcGroupMap s1 = ProcGroupMap s) by (subst s1; by destruct tty).
  clearbody s1. rewrite Hg. destruct (wf_leave_group s1 a p old H1 Ha1 Hg) as (O & links & _ & _ & -> & _). mstep.
  unfold com_sys_proc_new_group. cbn [set_proc set_group ptab]. rewrite lookup_insert_eq. mstep.
  cbn [with_links p_pid set_group set_proc ProcGroupMap]. rewrite Hm1. by rewrite bool_decide_eq_false_2.
Qed.

(** ** The operations as a whole *)
Inductive proc_op : Type :=
  | PNew (parent_pid root cwd a : Z)
  | PHold (a : Z)
  | PRelease (a : Z)
  | PGetByPid (pid : Z)
  | PSetpgid (curr pid id g : Z)
  | PSetsid (curr x g : Z)
  | PGetpgid (curr pid : Z)
  | PGetsid (curr pid : Z).

Definition proc_run (s : procs) (o : proc_op) : res procs :=
  match o with
  | PNew parent root cwd a => com_sys_proc_new s parent root cwd a
  | PHold a => COM_SYS_PROC_HOLD s a
  | PRelease a => COM_SYS_PROC_RELEASE s a
  | PGetByPid pid => '(_, s) ← com_sys_proc_get_by_pid s pid; Ok s
  | PSetpgid curr pid id g => '(_, s) ← com_sys_syscall_setpgid s curr pid id g; Ok s
  | PSetsid curr x g => '(_, s) ← com_sys_syscall_setsid s curr x g; Ok s
  | PGetpgid curr pid => '(_, s) ← com_sys_syscall_getpgid s curr pid; Ok s
  | PGetsid curr pid => '(_, s) ← com_sys_syscall_getsid s curr pid; Ok s
  end.

Definition live (s : procs) (a : Z) : Prop := ∃ p, ptab s !! a = Some p ∧ p_ref p ≠ 0.
Definition grouped (s : procs) (a : Z) : Prop := ∃ p, ptab s !! a = Some p ∧ p_ref p ≠ 0 ∧ p_group p ≠ None.

(** The process leads the group it is in. *)
Definition leads (s : procs) (a : Z) : Prop := ∃ p G, ptab s !! a = Some p ∧ group_of s a = Ok G ∧ pgid G = p_pid p.

(** There is no group named after the process. *)
Definition unnamed (s : procs) (a : Z) : Prop := ∀ p, ptab s !! a = Some p → ProcGroupMap s !! p_pid p = None.

(** The number of the group [setpgid] is asked for. *)
Definition asked_pgid (s : procs) (curr id : Z) : Z :=
  if id =? 0 then match ptab s !! curr with Some p => p_pid p | None => 0 end else id.

(** When the operations are safe to call. Addresses given for new objects are
    unused, what is held or released is alive, and identifiers are left for a
    new process; the calling process is alive and in a group. [setpgid] names
    a process that exists, [getsid] not the caller's own, and [getpgid],
    [getsid] and [setpgid] only processes in a group. A call that creates a
    group (which [setpgid] does when there is none of the number asked for,
    and [setsid] unless the caller leads its group) is made for a process
    after which no group is named yet. The theorems below show what happens
    otherwise. *)

Definition proc_op_ok (s : procs) (o : proc_op) : Prop :=
  refs_small s ∧
  match o with
  | PNew parent root cwd a => ptab s !! a = None ∧ NextPid s ≤ CONFIG_PROC_MAX
  | PHold a | PRelease a => live s a
  | PGetByPid pid => True
  | PSetpgid curr pid id g => grouped s curr ∧
      groups s !! g = None ∧ ∃ a, (pid = 0 ∧ a = curr ∨ 1 ≤ pid ≤ CONFIG_PROC_MAX ∧ Processes s !! (pid - 1) = Some a) ∧
        grouped s a ∧ (ProcGroupMap s !! asked_pgid s curr id = None → unnamed s a)
  | PSetsid curr x g => grouped s curr ∧ groups s !! g = None ∧ (leads s curr ∨ unnamed s curr)
  | PGetpgid curr pid => grouped s curr ∧ ∀ a, Processes s !! (pid - 1) = Some a → grouped s a
  | PGetsid curr pid => grouped s curr ∧ ∀ a, Processes s !! (pid - 1) = Some a → grouped s a ∧ a ≠ curr
  end.

(** Releasing what was held leaves a count as it was. *)
Lemma release_held s a p : procs_wf s → ptab s !! a = Some (with_ref p (p_ref p + 1)) → 1 ≤ p_ref p → p_ref p + 2 < 2 ^ 64 →
  ∃ s', COM_SYS_PROC_RELEASE s a = Ok s' ∧ procs_wf s' ∧ s' = set_proc s a p.
Proof.
  intros H Ha Hr Hs. destruct (proc_release_ok s a _ H Ha) as (s' & Hrun & Hw & E); [cbn; lia|cbn; lia|].
  exists s'. split; [done|]. split; [done|]. cbn in E. rewrite E by lia. f_equal. replace (p_ref p + 1 - 1) with (p_ref p) by lia. by destruct p.
Qed.

Lemma inherit_ok s a p : procs_wf s → refs_small s → ptab s !! a = Some p → p_ref p ≠ 0 → p_group p = None →
  ∃ s' p', inherit_group s (p_parent p) a = Ok s' ∧ procs_wf s' ∧ ptab s' !! a = Some p' ∧ p_pid p' = p_pid p ∧
    Processes s' = Processes s ∧
    (∀ b q, ptab s !! b = Some q → Processes s !! (p_parent p - 1) = Some b → 1 ≤ p_parent p ≤ CONFIG_PROC_MAX → p_group p' = p_group q).
Proof.
  intros H Hs Ha Hra Hga. unfold inherit_group.
  destruct (get_by_pid_ok s (p_parent p) H Hs) as [Hg|(b & q & Hb & Hq & Hpq & Hr & Hg & H2)]; rewrite Hg; mstep.
  { exists s, p. split_and!; try done. intros b q Hq Hb Hp. exfalso. unfold com_sys_proc_get_by_pid in Hg.
    destruct (Z.ltb_spec CONFIG_PROC_MAX (p_parent p)); [lia|]. destruct (Z.ltb_spec (p_parent p) 1); [lia|].
    cbn [orb] in Hg. rewrite Hb in Hg. destruct (COM_SYS_PROC_HOLD s b); discriminate Hg. }
  cbn [set_proc ptab]. rewrite lookup_insert_eq. mstep. cbn [with_ref p_group].
  set (s2 := set_proc s b (with_ref q (p_ref q + 1))) in *.
  assert (Hb2 : ptab s2 !! b = Some (with_ref q (p_ref q + 1))) by (cbn; by rewrite lookup_insert_eq).
  pose proof (Hs b q Hq) as Hsq. destruct (w_tab _ _ H b q Hq) as [Hq0 _].
  assert (Hrest : ∀ c r, ptab s !! c = Some r → Processes s !! (p_parent p - 1) = Some c → r = q) by (intros; congruence).
  destruct (p_group q) as [g|] eqn:Hqg.
  - assert (Hne : b ≠ a) by (intros ->; congruence).
    assert (Ha2 : ptab s2 !! a = Some p) by (cbn; by rewrite lookup_insert_ne).
    destruct (w_group _ _ H2 b _ g Hb2 Hqg) as (G & HG & _).
    destruct (join_ok s2 a p g G H2 Ha2 Hra HG) as (s3 & p' & Hj & H3 & Hp3 & Hr3 & Hpid3 & Hg3 & _ & HP3 & _).
    unfold com_sys_proc_join_group. rewrite Hj. mstep.
    destruct (release_held s3 b q H3) as (s4 & -> & H4 & ->); [by rewrite Hp3, lookup_insert_ne|lia|lia|].
    eexists _, p'. split; [done|]. cbn [set_proc ptab Processes]. rewrite lookup_insert_ne, Hp3, lookup_insert_eq by done.
    split_and!; try done. intros c r Hc Hcp _. by rewrite (Hrest c r Hc Hcp), Hqg.
  - mstep. destruct (release_held s2 b q H2 Hb2) as (s3 & -> & H3 & ->); [lia|lia|].
    eexists _, p. split; [done|]. split; [done|]. subst s2. cbn [set_proc ptab Processes]. rewrite insert_insert_eq, insert_id by done.
    split_and!; try done. intros c r Hc Hcp _. by rewrite (Hrest c r Hc Hcp), Hqg.
Qed.

Lemma new_ok s parent root cwd a : procs_wf s → refs_small s → ptab s !! a = None → NextPid s ≤ CONFIG_PROC_MAX →
  ∃ s' p, com_sys_proc_new s parent root cwd a = Ok s' ∧ procs_wf s' ∧ ptab s' !! a = Some p ∧ p_pid p = NextPid s ∧
    Processes s' !! (NextPid s - 1) = Some a ∧
    (∀ b q, ptab s !! b = Some q → Processes s !! (parent - 1) = Some b → 1 ≤ parent ≤ CONFIG_PROC_MAX → p_group p = p_group q).
Proof.
  intros H Hs Ha Hn. unfold com_sys_proc_new. set (s0 := vnode_hold (vnode_hold s root) cwd).
  assert (H0 : procs_wf s0) by (by do 2 apply wf_vnode_hold).
  destruct (wf_new_proc s0 a parent root cwd H0 Ha) as [H1 Hfree].
  change (NextPid s0) with (NextPid s) in *. change (Processes s0) with (Processes s) in *.
  destruct (Z.leb_spec (NextPid s) CONFIG_PROC_MAX); [|lia]. mstep.
  rewrite (bool_decide_eq_true_2 (Processes s !! (NextPid s - 1) = None)) by done. mstep.
  change (ProcGroupMap (set_proc s0 a (new_proc (NextPid s) parent root cwd))) with (ProcGroupMap s0).
  set (s1 := set_maps _ _ _ _) in *.
  destruct (inherit_ok s1 a (new_proc (NextPid s) parent root cwd) H1) as (s' & p & Hrun & Hw & Hp & Hpid & HP & Hg); try done.
  { intros b q Hb. cbn in Hb. apply lookup_insert_Some in Hb as [[<- <-]|[_ Hb]]; [done|exact (Hs b q Hb)]. }
  { cbn. by rewrite lookup_insert_eq. }
  exists s', p. split; [exact Hrun|]. split_and!; try done.
  - rewrite HP. cbn. by rewrite lookup_insert_eq.
  - intros b q Hb Hbp Hpar. apply (Hg b q); [cbn; by rewrite lookup_insert_ne by congruence| |done].
    cbn. rewrite lookup_insert_ne; [done|]. congruence.
Qed.

Lemma assert_group_ok s a : grouped s a → assert_group s a = Ok tt.
Proof.
  intros (p & Hp & _ & Hg). unfold assert_group. rewrite Hp. mstep. by rewrite bool_decide_eq_false_2.
Qed.

Lemma group_of_ok s a : procs_wf s → grouped s a →
  ∃ p g G x S, ptab s !! a = Some p ∧ p_ref p ≠ 0 ∧ p_group p = Some g ∧ groups s !! g = Some G ∧ a ∈ g_procs G ∧
    group_of s a = Ok G ∧ g_session G = Some x ∧ sessions s !! x = Some S ∧ session_of s a = Ok S.
Proof.
  intros H (p & Hp & Hr & Hg). destruct (p_group p) as [g|] eqn:Hpg; [|done].
  destruct (w_group _ _ H a p g Hp Hpg) as (G & HG & Hin). destruct (w_ses _ _ H g G HG) as (x & Hx & S & HS).
  exists p, g, G, x, S. split_and!; try done; [by apply Hin|unfold group_of; by rewrite Hp; mstep; rewrite Hpg; mstep; rewrite HG|].
  unfold session_of, group_of. rewrite Hp. mstep. rewrite Hpg. mstep. rewrite HG. mstep. rewrite Hx. mstep. by rewrite HS.
Qed.

Lemma grouped_set_ref s a b p n : ptab s !! b = Some p → n ≠ 0 → grouped s a → grouped (set_proc s b (with_ref p n)) a.
Proof.
  intros Hb Hn (q & Hq & Hr & Hg). destruct (decide (b = a)) as [->|Hne].
  - exists (with_ref q n). cbn. rewrite lookup_insert_eq. assert (q = p) as -> by congruence. done.
  - exists q. cbn. by rewrite lookup_insert_ne.
Qed.

Lemma setsid_ok s curr x g : procs_wf s → grouped s curr → groups s !! g = None → leads s curr ∨ unnamed s curr →
  ∃ r s', com_sys_syscall_setsid s curr x g = Ok (r, s') ∧ procs_wf s'.
Proof.
  intros H Hg Hfree Hcase. destruct (group_of_ok s curr H Hg) as (p & h & G & y & S & Hp & Hr & Hh & HG & _ & Hgo & _).
  unfold com_sys_syscall_setsid. rewrite assert_group_ok, Hp, Hgo by done. mstep.
  destruct (Z.eqb_spec (pgid G) (p_pid p)) as [|Hne]; [eauto|].
  assert (Hlead : unnamed s curr).
  { destruct Hcase as [(q & G' & Hq & HG' & Heq)|?]; [|done]. exfalso. apply Hne. congruence. }
  destruct (new_session_ok s curr p None x g H Hp Hr Hfree (Hlead p Hp)) as (s' & p' & -> & Hw & Hp' & Hpg' & _ & HG' & _). mstep.
  unfold group_of. rewrite Hp', lookup_insert_eq. mstep. rewrite Hpg'. mstep. rewrite HG'. mstep. eauto.
Qed.

Lemma get_id_ok same value s curr pid : procs_wf s → refs_small s → grouped s curr →
  (∀ a, Processes s !! (pid - 1) = Some a → grouped s a ∧ (same = true ∨ a ≠ curr)) →
  (∀ s a, procs_wf s → grouped s a → ∃ v, value s a = Ok v) →
  ∃ r s', get_id same value s curr pid = Ok (r, s') ∧ procs_wf s'.
Proof.
  intros H Hs Hc Ha Hv. unfold get_id. destruct (pid =? 0).
  { rewrite assert_group_ok by done. mstep. destruct (Hv s curr H Hc) as [v ->]. mstep. eauto. }
  destruct (pid <? 1); [eauto|].
  destruct (get_by_pid_ok s pid H Hs) as [Hg|(a & p & Hb & Hp & Hpid & Hr & Hg & H2)]; rewrite Hg; mstep; [eauto|].
  destruct (Ha a Hb) as [Hga Hsame]. destruct (w_tab _ _ H a p Hp) as [Hp0 _]. pose proof (Hs a p Hp).
  assert (Hc2 := grouped_set_ref s curr a p (p_ref p + 1) Hp ltac:(lia) Hc).
  assert (Ha2 := grouped_set_ref s a a p (p_ref p + 1) Hp ltac:(lia) Hga).
  set (s2 := set_proc _ _ _) in *. rewrite !assert_group_ok by done. mstep.
  assert ((a =? curr) && negb same = false) as ->.
  { destruct Hsame as [->|Hne]; [by rewrite andb_false_r|]. by destruct (Z.eqb_spec a curr). }
  destruct (group_of_ok s2 a H2 Ha2) as (? & ? & ? & ? & Sa & ? & ? & ? & ? & ? & ? & ? & ? & ->).
  destruct (group_of_ok s2 curr H2 Hc2) as (? & ? & ? & ? & Sc & ? & ? & ? & ? & ? & ? & ? & ? & ->). mstep.
  destruct (release_held s2 a p H2) as (s3 & Hrel & Hw3 & _); [cbn; by rewrite lookup_insert_eq|lia|lia|].
  destruct (negb (sid Sa =? sid Sc)); [rewrite Hrel; mstep; eauto|].
  destruct (Hv s2 a H2 Ha2) as [v ->]. mstep. rewrite Hrel. mstep. eauto.
Qed.

(** The part of [setpgid] after the target [a] is known. *)
Lemma setpgid_join s a p id g : procs_wf s → ptab s !! a = Some p → p_ref p ≠ 0 → p_group p ≠ None → groups s !! g = None →
  (ProcGroupMap s !! id = None → unnamed s a) →
  ∃ h s1 s2 p', find_group s a id g = Ok (h, s1) ∧
    com_sys_proc_join_group_nolock s1 a h = Ok s2 ∧ procs_wf s2 ∧ ptab s2 = <[a := p']> (ptab s) ∧ p_ref p' = p_ref p ∧
    p_group p' = Some h ∧ pgid <$> groups s2 !! h = Some (if decide (ProcGroupMap s !! id = None) then p_pid p else id).
Proof.
  intros H Hp Hr Hg Hfree Hlead. unfold find_group, com_sys_proc_get_group_by_pgid. destruct (ProcGroupMap s !! id) as [h|] eqn:Hm.
  - destruct (w_gmap _ _ H id h Hm) as (G & HG & Hid).
    destruct (join_ok s a p h G H Hp Hr HG) as (s' & p' & Hj & Hw & Hpt & Hrf & _ & Hgr & _ & _ & _ & _ & Hpg & _).
    exists h, s, s', p'. rewrite Hid in Hpg. destruct (decide (Some h = None)); [done|]. split_and!; done.
  - destruct (p_group p) as [old|] eqn:Hpg; [|done].
    destruct (new_group_ok s a p old g H Hp Hpg Hfree (Hlead eq_refl p Hp)) as (s1 & x & -> & Hw1 & Hpt1 & Hgr1 & _).
    destruct (join_ok s1 a p g (Group (p_pid p) (Some x) []) Hw1) as (s' & p' & Hj & Hw & Hpt & Hrf & _ & Hgr & _ & _ & _ & _ & Hpg' & _);
      [by rewrite Hpt1|done|by rewrite Hgr1, lookup_insert_eq|].
    exists g, s1, s', p'. rewrite Hpt1 in Hpt. destruct (decide (None = None)); [|done]. split_and!; done.
Qed.

Lemma setpgid_ok s curr pid id g : procs_wf s → proc_op_ok s (PSetpgid curr pid id g) →
  ∃ r s', com_sys_syscall_setpgid s curr pid id g = Ok (r, s') ∧ procs_wf s'.
Proof.
  intros H (Hs & Hc & Hfree & a & Hpid & Hga & Hlead). unfold com_sys_syscall_setpgid. destruct ((id <? 0) || (pid <? 0)); [eauto|].
  destruct (group_of_ok s curr H Hc) as (p & h & G & x & S & Hp & Hr & Hh & HG & _ & Hgo & Hx & HS & Hso).
  rewrite assert_group_ok, Hp by done. mstep. set (id' := if id =? 0 then p_pid p else id). rewrite Hgo, Hso. mstep.
  destruct (id' =? pgid G); [eauto|]. rewrite Hx. rewrite bool_decide_eq_false_2 by done. cbn [negb]. mstep.
  destruct (p_pid p =? sid S); [eauto|].
  assert (Hid : asked_pgid s curr id = id') by (unfold asked_pgid; by rewrite Hp). rewrite Hid in Hlead.
  destruct Hpid as [[-> ->]|(Hrange & Ha)].
  - cbn [Z.eqb]. mstep. rewrite Hp. mstep. rewrite !Z.eqb_refl. cbn [negb andb]. destruct (p_execve p); [eauto|].
    destruct (setpgid_join s curr p id' g H Hp Hr ltac:(congruence) Hfree Hlead) as (k & s1 & s2 & p' & -> & Hj & Hw & _). mstep.
    rewrite Hj. mstep. eauto.
  - destruct (Z.eqb_spec pid 0); [lia|].
    destruct (get_by_pid_ok s pid H Hs) as [Hg|(a' & q & Ha' & Hq & Hqp & Hqr & Hg & H2)].
    { exfalso. unfold com_sys_proc_get_by_pid in Hg. destruct (Z.ltb_spec CONFIG_PROC_MAX pid); [lia|].
      destruct (Z.ltb_spec pid 1); [lia|]. cbn [orb] in Hg. rewrite Ha in Hg. by destruct (COM_SYS_PROC_HOLD s a). }
    assert (a' = a) as -> by congruence. rewrite Hg. mstep. pose proof (Hs a q Hq). destruct (w_tab _ _ H a q Hq) as [Hq0 _].
    assert (Hr2 : p_ref (with_ref q (p_ref q + 1)) ≠ 0) by (cbn; lia).
    set (s1 := set_proc _ _ _) in *. assert (Hq1 : ptab s1 !! a = Some (with_ref q (p_ref q + 1))) by (cbn; by rewrite lookup_insert_eq).
    rewrite Hq1. mstep. cbn [with_ref p_pid p_parent p_execve].
    assert (Hrel : ∀ s p, procs_wf s → ptab s !! a = Some p → p_ref p = p_ref q + 1 → ∃ s', COM_SYS_PROC_RELEASE s a = Ok s' ∧ procs_wf s').
    { intros t r Ht Hta Htr. destruct (proc_release_ok t a r Ht Hta) as (t' & ? & ? & _); [lia|lia|eauto]. }
    assert (Hdone : ∀ (t : procs) (r : com_proc) (v : sysret), procs_wf t → ptab t !! a = Some r → p_ref r = p_ref q + 1 →
      ∃ (r0 : sysret) (s' : procs), (if a =? curr then Ok (v, t) else COM_SYS_PROC_RELEASE t a ≫= λ s, Ok (v, s)) = Ok (r0, s') ∧ procs_wf s').
    { intros t r v Ht Hta Htr. destruct (a =? curr); [eauto|]. destruct (Hrel t r Ht Hta Htr) as (t' & -> & ?). mstep. eauto. }
    cbn [negb andb]. destruct (negb (p_pid q =? p_pid p) && negb (p_parent q =? p_pid p)); [by eapply Hdone|].
    destruct (p_execve q); [by eapply Hdone|].
    destruct Hga as (q' & Hq' & _ & Hgq). assert (q' = q) as -> by congruence.
    assert (Hlead1 : ProcGroupMap s1 !! id' = None → unnamed s1 a).
    { intros Hn r Hr1. assert (r = with_ref q (p_ref q + 1)) as -> by congruence. exact (Hlead Hn q Hq). }
    destruct (setpgid_join s1 a _ id' g H2 Hq1 Hr2 Hgq Hfree Hlead1) as (k & s2 & s3 & p' & -> & Hj & Hw & Hpt & Hrf & _). mstep.
    rewrite Hj. mstep. eapply (Hdone s3 p'); [done|by rewrite Hpt, lookup_insert_eq|done].
Qed.

(** ** Properties *)

(** C23: An operation that is safe to call ([proc_op_ok]) succeeds and keeps
    the process table well formed: process identifiers find live processes,
    each process that is in a group is on exactly that group's list and on no
    other, every group has a session, and what is not referred to any more is
    in no table. [proc_op_ok] is stated above; the calls it leaves out, such
    as a [setpgid] of a process that does not exist or one that would create a
    group of a number that is taken, do stop or hang the kernel. *)
Theorem proc_ops_keep_wf s o : procs_wf s → proc_op_ok s o → ∃ s', proc_run s o = Ok s' ∧ procs_wf s'.
Proof.
  intros H Ho. destruct Ho as [Hs Ho'] eqn:E. destruct o as [parent root cwd a|a|a|pid|curr pid id g|curr x g|curr pid|curr pid]; cbn [proc_run].
  - destruct Ho' as [Ha Hn]. destruct (new_ok s parent root cwd a H Hs Ha Hn) as (s' & ? & ? & ? & _). eauto.
  - destruct Ho' as (p & Hp & Hr). destruct (proc_hold_ok None s a p H Hp Hr (Hs a p Hp)) as [-> ?]. eauto.
  - destruct Ho' as (p & Hp & Hr). pose proof (Hs a p Hp). destruct (proc_release_ok s a p H Hp Hr) as (s' & -> & ? & _); [lia|eauto].
  - destruct (get_by_pid_ok s pid H Hs) as [->|(a & p & _ & _ & _ & _ & -> & ?)]; mstep; eauto.
  - destruct (setpgid_ok s curr pid id g H Ho) as (r & s' & -> & ?). mstep. eauto.
  - destruct Ho' as (Hg & Hf & Hl). destruct (setsid_ok s curr x g H Hg Hf Hl) as (r & s' & -> & ?). mstep. eauto.
  - destruct Ho' as [Hg Ha]. unfold com_sys_syscall_getpgid.
    destruct (get_id_ok true (λ s a, G ← group_of s a; Ok (pgid G)) s curr pid H Hs Hg) as (r & s' & -> & ?); [auto| |mstep; eauto].
    intros t b Ht Hb. destruct (group_of_ok t b Ht Hb) as (? & ? & ? & ? & ? & ? & ? & ? & ? & ? & -> & _). mstep. eauto.
  - destruct Ho' as [Hg Ha]. unfold com_sys_syscall_getsid.
    destruct (get_id_ok false (λ s a, S ← session_of s a; Ok (sid S)) s curr pid H Hs Hg) as (r & s' & -> & ?); [|
      |mstep; eauto]; [intros b Hb; destruct (Ha b Hb); auto|].
    intros t b Ht Hb. destruct (group_of_ok t b Ht Hb) as (? & ? & ? & ? & ? & ? & ? & ? & ? & ? & ? & ? & ? & ->). mstep. eauto.
Qed.

(** C24: [setsid] of a process that leads its group fails with EPERM and
    changes nothing. Any other process becomes the leader of a new session and
    the only member of a new group, both named after it, and leaves its old
    group, unless a group is named after it already, as one is that it made
    before and has left: then the kernel stops. *)
Theorem setsid_spec s curr x g : procs_wf s → grouped s curr → groups s !! g = None →
  ∃ p G, ptab s !! curr = Some p ∧ group_of s curr = Ok G ∧
  if pgid G =? p_pid p then com_sys_syscall_setsid s curr x g = Ok (-1, EPERM, s)
  else if bool_decide (ProcGroupMap s !! p_pid p = None) then
    ∃ s', com_sys_syscall_setsid s curr x g = Ok (p_pid p, E0, s') ∧ procs_wf s' ∧
    groups s' !! g = Some (Group (p_pid p) (Some x) [curr]) ∧ sessions s' !! x = Some (Session (p_pid p) None) ∧
    ∀ h H, groups s' !! h = Some H → curr ∈ g_procs H → h = g
  else com_sys_syscall_setsid s curr x g = Panic.
Proof.
  intros H Hg Hfree. destruct (group_of_ok s curr H Hg) as (p & h & G & y & S & Hp & Hr & Hh & HG & _ & Hgo & _).
  exists p, G. split; [done|]. split; [done|]. unfold com_sys_syscall_setsid. rewrite assert_group_ok, Hp, Hgo by done. mstep.
  destruct (pgid G =? p_pid p); [done|]. case_bool_decide as Hlead.
  - destruct (new_session_ok s curr p None x g H Hp Hr Hfree Hlead) as (s' & p' & -> & Hw & Hp' & Hpg' & _ & HG' & HS'). mstep.
    unfold group_of. rewrite Hp', lookup_insert_eq. mstep. rewrite Hpg'. mstep. rewrite HG'. mstep.
    exists s'. split_and!; try done. intros k K Hk Hin. destruct (w_member _ _ Hw k K curr Hk Hin) as (q & Hq & Hqg & _).
    rewrite Hp', lookup_insert_eq in Hq. congruence.
  - by rewrite (new_session_named s curr p h None x g H Hp Hh Hlead).
Qed.

(** A new process has the next identifier, is found by it, and is in the
    group of its parent. *)
Theorem com_sys_proc_new_spec s parent root cwd a b q : procs_wf s → refs_small s → ptab s !! a = None →
  NextPid s ≤ CONFIG_PROC_MAX → 1 ≤ parent → Processes s !! (parent - 1) = Some b → ptab s !! b = Some q →
  ∃ s' p, com_sys_proc_new s parent root cwd a = Ok s' ∧ procs_wf s' ∧ ptab s' !! a = Some p ∧ p_pid p = NextPid s ∧
    Processes s' !! (NextPid s - 1) = Some a ∧ p_group p = p_group q.
Proof.
  intros H Hs Ha Hn Hpar Hb Hq. destruct (new_ok s parent root cwd a H Hs Ha Hn) as (s' & p & Hrun & Hw & Hp & Hpid & HP & Hg).
  exists s', p. split_and!; try done. apply (Hg b q Hq Hb). split; [done|].
  destruct (w_pid _ _ H _ b Hb) as (r & _ & ? & ?). lia.
Qed.

(** Identifiers are never used again: after [CONFIG_PROC_MAX] of them the
    next new process stops the kernel. *)
Theorem pid_exhaustion_panics s parent root cwd a : CONFIG_PROC_MAX < NextPid s → com_sys_proc_new s parent root cwd a = Panic.
Proof. intros H. unfold com_sys_proc_new. cbn [vnode_hold NextPid]. destruct (Z.leb_spec (NextPid s) CONFIG_PROC_MAX); [lia|done]. Qed.

(** ** A small system

    Process 1 (at 10) leads session 500 and group 600; 2 (at 20) and 3 (at 30)
    are its children. *)
Definition no_procs : procs := Procs ∅ ∅ ∅ ∅ ∅ 1 ∅.
Definition ok_or (r : res procs) : procs := match r with Ok s => s | _ => no_procs end.
Definition demo_procs : procs :=
  ok_or (s ← com_sys_proc_new no_procs 0 7 7 10;
         s ← com_sys_proc_new_session_nolock s 10 None 500 600;
         s ← com_sys_proc_new s 1 7 7 20;
         com_sys_proc_new s 1 7 7 30).

(** [setpgid(0, 77)] with no group 77 makes a group named after the caller;
    doing it twice stops the kernel. *)
Theorem setpgid_twice_panics :
  ∃ r s, com_sys_syscall_setpgid demo_procs 20 0 77 700 = Ok (r, s) ∧ r = (0, E0) ∧ com_sys_syscall_setpgid s 20 0 77 701 = Panic.
Proof. eexists _, _. split; [vm_compute; reflexivity|]. split; vm_compute; reflexivity. Qed.

(** [setpgid] of a process that does not exist takes a lock through a null
    pointer. *)
Theorem setpgid_no_such_process_faults : com_sys_syscall_setpgid demo_procs 20 99 5 700 = Fault.
Proof. vm_compute. reflexivity. Qed.

(** [getsid] of the caller's own number waits for a lock the caller holds. *)
Theorem getsid_own_pid_hangs : com_sys_syscall_getsid demo_procs 20 2 = Fuel.
Proof. vm_compute. reflexivity. Qed.

(** [setpgid(child, 0)] by the leader of a group reports success and does
    nothing: the child stays in its parent's group. *)
Theorem setpgid_child_ignored :
  ∃ s r s', (s ← com_sys_syscall_setpgid demo_procs 20 0 0 700; com_sys_proc_new s.2 2 7 7 40) = Ok s ∧
    com_sys_syscall_setpgid s 20 4 0 701 = Ok (r, s') ∧ r = (0, E0) ∧
    (ptab s' !! 40 ≫= p_group) = Some 700 ∧ groups s' !! 701 = None.
Proof. eexists _, _, _. split; [vm_compute; reflexivity|]. split; [vm_compute; reflexivity|]. split_and!; vm_compute; reflexivity. Qed.

(** [waitpid(-1)] looks for children that have not exited: a child that has,
    and waits to be collected, is not found. *)
Definition exited (s : procs) (a : Z) : procs :=
  match ptab s !! a with
  | Some p => set_proc s a (Proc (p_pid p) (p_parent p) (p_children p) (p_threads p) (p_ref p) (p_group p) (p_links p) (p_execve p)
      (p_pending p) true (p_stop p) (p_notified p) (p_status p) (p_actions p) (p_root p) (p_cwd p))
  | None => s
  end.
Definition demo_zombies : procs := exited (exited demo_procs 30) 20.
Theorem waitpid_any_misses_zombies : com_sys_proc_get_arbitrary_child demo_zombies 10 None = Ok (None, demo_zombies).
Proof. vm_compute. reflexivity. Qed.

(** [setsid] takes the caller off the list of its group twice, and releases
    the list in between: a process that joins the group there (here a child of
    process 1) makes the second removal break the list. *)
Theorem setsid_race_corrupts_group :
  ∃ s1 s2, group_remove demo_procs 30 600 = Ok s1 ∧ com_sys_proc_new s1 1 7 7 40 = Ok s2 ∧ group_remove s2 30 600 = Fault.
Proof. eexists _, _. split; [vm_compute; reflexivity|]. split; vm_compute; reflexivity. Qed.

(** ** Witnesses *)

(** The invariant, as a computation on finite tables. *)
Definition procs_check (s : procs) : Prop :=
  map_Forall (λ a p, 0 ≤ p_ref p ∧ p_ref p + 2 < 2 ^ 64 ∧
    (p_ref p = 0 ∧ p_group p = None ∧ Processes s !! (p_pid p - 1) ≠ Some a ∨
     p_ref p ≠ 0 ∧ Processes s !! (p_pid p - 1) = Some a)) (ptab s) ∧
  map_Forall (λ a p, from_option (λ g, from_option (λ G, a ∈ g_procs G) False (groups s !! g)) True (p_group p)) (ptab s) ∧
  map_Forall (λ k a, from_option (λ p, p_pid p = k + 1 ∧ 1 ≤ p_pid p < NextPid s) False (ptab s !! a)) (Processes s) ∧
  map_Forall (λ g G, NoDup (g_procs G) ∧ Forall (λ a, p_group <$> ptab s !! a = Some (Some g)) (g_procs G) ∧
    from_option (λ x, is_Some (sessions s !! x)) False (g_session G)) (groups s) ∧
  map_Forall (λ i g, pgid <$> groups s !! g = Some i) (ProcGroupMap s) ∧ 1 ≤ NextPid s.
#[export] Instance procs_check_dec s : Decision (procs_check s).
Proof.
  unfold procs_check. repeat (apply and_dec); try apply _; apply map_Forall_dec; intros.
  - destruct (p_group x) as [g|]; cbn; [|apply _]. destruct (groups s !! g); cbn; apply _.
  - destruct (ptab s !! x); cbn; apply _.
  - repeat (apply and_dec); try apply _. destruct (g_session x); cbn; apply _.
Defined.

Lemma procs_check_wf s : procs_check s → procs_wf s ∧ refs_small s.
Proof.
  intros (H1 & H2 & H3 & H4 & H5 & H6). split; [split|].
  - intros a p Ha. destruct (H1 a p Ha) as (? & _ & [(? & ? & ?)|[? ?]]); (split; [done|]); by destruct (Z.eqb_spec (p_ref p) 0).
  - intros k a Hk. specialize (H3 k a Hk). cbn in H3. destruct (ptab s !! a) as [p|]; [eauto|done].
  - intros g G a Hg Ha. destruct (H4 g G Hg) as (_ & Hf & _). rewrite Forall_forall in Hf. specialize (Hf a Ha). cbn in Hf.
    destruct (ptab s !! a) as [p|]; [|done]. injection Hf as Hf. eauto.
  - intros a p g Ha Hg. specialize (H2 a p Ha). cbn in H2. rewrite Hg in H2. cbn in H2. destruct (groups s !! g) as [G|]; [eauto|done].
  - intros g G Hg. by destruct (H4 g G Hg).
  - intros i g Hi. specialize (H5 i g Hi). cbn in H5. destruct (groups s !! g) as [G|]; [injection H5 as H5; eauto|done].
  - intros g G Hg. destruct (H4 g G Hg) as (_ & _ & Hs). destruct (g_session G) as [x|]; [eauto|done].
  - done.
  - intros a p Ha. by destruct (H1 a p Ha) as (_ & ? & _).
Qed.

Lemma demo_procs_wf : procs_wf demo_procs ∧ refs_small demo_procs.
Proof. apply procs_check_wf, (bool_decide_eq_true_1 _). vm_compute. reflexivity. Qed.

Lemma demo_grouped : grouped demo_procs 20.
Proof. eexists. split; [vm_compute; reflexivity|]. split; vm_compute; discriminate. Qed.
Lemma demo_unnamed : unnamed demo_procs 20.
Proof. intros p Hp. vm_compute in Hp. injection Hp as <-. vm_compute. reflexivity. Qed.

(** Process 2 makes a group of its own and goes back to that of process 1. *)
Definition demo_former_leader : procs :=
  ok_or ('(_, s) ← com_sys_syscall_setpgid demo_procs 20 0 0 700; '(_, s) ← com_sys_syscall_setpgid s 20 0 1 701; Ok s).

Lemma demo_former_wf : procs_wf demo_former_leader.
Proof. apply procs_check_wf, (bool_decide_eq_true_1 _). vm_compute. reflexivity. Qed.

(** A process that made a group and left it cannot start a session: the
    kernel stops. *)
Theorem setsid_former_leader_panics : com_sys_syscall_setsid demo_former_leader 20 501 702 = Panic.
Proof. vm_compute. reflexivity. Qed.

Lemma proc_ops_keep_wf_witness : (∃ s', proc_run demo_procs (PSetpgid 20 0 0 700) = Ok s' ∧ procs_wf s') ∧
  (∃ s', proc_run demo_procs (PSetsid 10 501 700) = Ok s' ∧ procs_wf s').
Proof.
  split.
  - apply proc_ops_keep_wf; [apply demo_procs_wf|]. split; [apply demo_procs_wf|]. split; [exact demo_grouped|]. split; [vm_compute; reflexivity|].
    exists 20. split; [by left|]. split; [exact demo_grouped|]. intros _. exact demo_unnamed.
  - apply proc_ops_keep_wf; [apply demo_procs_wf|]. split; [apply demo_procs_wf|]. split; [eexists; split; [vm_compute; reflexivity|]; split; vm_compute; discriminate|].
    split; [vm_compute; reflexivity|]. left. eexists _, _. split; [vm_compute; reflexivity|]. split; vm_compute; reflexivity.
Defined.

Lemma setsid_spec_witness : com_sys_syscall_setsid demo_procs 10 501 700 = Ok (-1, EPERM, demo_procs) ∧
  (∃ s', com_sys_syscall_setsid demo_procs 20 501 700 = Ok (2, E0, s') ∧ groups s' !! 700 = Some (Group 2 (Some 501) [20])) ∧
  com_sys_syscall_setsid demo_former_leader 20 501 702 = Panic.
Proof.
  split_and!.
  - destruct (setsid_spec demo_procs 10 501 700 (proj1 demo_procs_wf)) as (p & G & Hp & HG & H);
      [eexists; split; [vm_compute; reflexivity|]; split; vm_compute; discriminate|vm_compute; reflexivity|].
    vm_compute in Hp. injection Hp as <-. vm_compute in HG. injection HG as <-. exact H.
  - destruct (setsid_spec demo_procs 20 501 700 (proj1 demo_procs_wf) demo_grouped) as (p & G & Hp & HG & H); [vm_compute; reflexivity|].
    vm_compute in Hp. injection Hp as <-. vm_compute in HG. injection HG as <-. destruct H as (s' & Hs & _ & Hg & _). exists s'. split; [exact Hs|exact Hg].
  - destruct (setsid_spec demo_former_leader 20 501 702 demo_former_wf) as (p & G & Hp & HG & H);
      [eexists; split; [vm_compute; reflexivity|]; split; vm_compute; discriminate|vm_compute; reflexivity|].
    vm_compute in Hp. injection Hp as <-. vm_compute in HG. injection HG as <-. exact H.
Defined.

Lemma com_sys_proc_new_spec_witness : ∃ s' p, com_sys_proc_new demo_procs 1 7 7 40 = Ok s' ∧ ptab s' !! 40 = Some p ∧
  p_pid p = 4 ∧ p_group p = Some 600.
Proof.
  destruct (ptab demo_procs !! 10) as [q|] eqn:Hq; [|vm_compute in Hq; discriminate Hq].
  destruct (com_sys_proc_new_spec demo_procs 1 7 7 40 10 q (proj1 demo_procs_wf) (proj2 demo_procs_wf)) as (s' & p & Hrun & _ & Hp & Hpid & _ & Hg);
    [vm_compute; reflexivity|vm_compute; discriminate|lia|vm_compute; reflexivity|exact Hq|].
  exists s', p. split; [exact Hrun|]. split; [exact Hp|]. split; [rewrite Hpid; vm_compute; reflexivity|].
  rewrite Hg. vm_compute in Hq. injection Hq as <-. reflexivity.
Defined.

Lemma pid_exhaustion_panics_witness : com_sys_proc_new (Procs ∅ ∅ ∅ ∅ ∅ 250001 ∅) 0 7 7 10 = Panic.
Proof. apply pid_exhaustion_panics. reflexivity. Defined.
