(* ===== verification/Signal.v ===== *)
(** * Signals and the ends of processes

    src/com/ipc/signal.c, the life cycle in src/com/sys/proc.c ([com_sys_proc_exit],
    [com_sys_proc_stop_nolock], [com_sys_proc_terminate]), the signal frame of
    src/platform/x86-64/context.c and the system calls on signals. A state is a
    scheduler ([Sched]), a process table ([Proc]) and the signal masks of the
    threads. The numbers of the signals come from the C library and are a
    class here, as are the places of two wait lists in a process and the size
    of a signal frame. The files of a process that exits are in [Fdtable]. *)
From S2P Require Import Prelude Sched Proc.

(** ** Numbers *)
Class signal_env : Type := {
  SIGHUP : Z; SIGINT : Z; SIGQUIT : Z; SIGILL : Z; SIGTRAP : Z; SIGABRT : Z; SIGFPE : Z; SIGKILL : Z;
  SIGBUS : Z; SIGSEGV : Z; SIGSYS : Z; SIGPIPE : Z; SIGALRM : Z; SIGTERM : Z; SIGURG : Z; SIGSTOP : Z;
  SIGTSTP : Z; SIGCONT : Z; SIGCHLD : Z; SIGTTIN : Z; SIGTTOU : Z; SIGIO : Z; SIGXCPU : Z; SIGXFSZ : Z;
  SIGVTALRM : Z; SIGPROF : Z; SIGWINCH : Z; SIGUSR1 : Z; SIGUSR2 : Z;
  NSIG : Z;
  waitpid_waitlist : Z → Z;
  stop_waitlist : Z → Z;
  sizeof_sigframe : Z;
  offsetof_uc : Z;
  SIG_DFL_value : Z; SIG_IGN_value : Z
}.

Section signals.
Context {numbers : signal_env}.

Definition IS_VALID_SIGNAL (sig : Z) : bool := (0 <? sig) && (sig <? 64).

Definition SA_KILL : Z := 0x01.
Definition SA_CORE : Z := 0x02.
Definition SA_STOP : Z := 0x04.
Definition SA_TTYSTOP : Z := 0x08.
Definition SA_IGNORE : Z := 0x10.
Definition SA_CONT : Z := 0x20.

Definition TKILL_STATUS_MASKED : Z := -1.
Definition TKILL_STATUS_BAD : Z := -2.

(** The array with its designated initialisers: as long as the greatest index
    asks for, zero in the gaps. *)
Definition SignalProperties : list (Z * Z) :=
  [(SIGHUP, SA_KILL); (SIGINT, SA_KILL); (SIGQUIT, Z.lor SA_KILL SA_CORE); (SIGILL, Z.lor SA_KILL SA_CORE);
   (SIGTRAP, Z.lor SA_KILL SA_CORE); (SIGABRT, Z.lor SA_KILL SA_CORE); (SIGFPE, Z.lor SA_KILL SA_CORE); (SIGKILL, SA_KILL);
   (SIGBUS, Z.lor SA_KILL SA_CORE); (SIGSEGV, Z.lor SA_KILL SA_CORE); (SIGSYS, Z.lor SA_KILL SA_CORE); (SIGPIPE, SA_KILL);
   (SIGALRM, SA_KILL); (SIGTERM, SA_KILL); (SIGURG, SA_IGNORE); (SIGSTOP, SA_STOP); (SIGTSTP, Z.lor SA_STOP SA_TTYSTOP);
   (SIGCONT, Z.lor SA_IGNORE SA_CONT); (SIGCHLD, SA_IGNORE); (SIGTTIN, Z.lor SA_STOP SA_TTYSTOP);
   (SIGTTOU, Z.lor SA_STOP SA_TTYSTOP); (SIGIO, SA_IGNORE); (SIGXCPU, SA_KILL); (SIGXFSZ, SA_KILL); (SIGVTALRM, SA_KILL);
   (SIGPROF, SA_KILL); (SIGWINCH, SA_IGNORE); (SIGUSR1, SA_KILL); (SIGUSR2, SA_KILL)].

Definition properties_of (sig : Z) : res Z :=
  if (0 <=? sig) && (sig <=? foldr Z.max 0 (fst <$> SignalProperties))
  then Ok (default 0 (snd <$> find (λ e, fst e =? sig) SignalProperties)) else Fault.

(** ** Masks *)

(** [1UL << (sig - 1)]; other shifts are undefined. *)
Definition sigbit (sig : Z) : res Z := if (1 <=? sig) && (sig <=? 64) then Ok (Z.shiftl 1 (sig - 1)) else Fault.
Definition COM_IPC_SIGNAL_SIGMASK_SET (mask sig : Z) : res Z := b ← sigbit sig; Ok (Z.lor mask b).
Definition COM_IPC_SIGNAL_SIGMASK_UNSET (mask sig : Z) : res Z := b ← sigbit sig; Ok (Z.land mask (Z.lnot b)).
Definition COM_IPC_SIGNAL_SIGMASK_ISSET (mask sig : Z) : res bool := b ← sigbit sig; Ok (negb (Z.land mask b =? 0)).

Fixpoint pos_ffs (p : positive) : Z := match p with xO p => 1 + pos_ffs p | _ => 1 end.
(** The number of the lowest bit set, from 1; 0 when there is none. *)
Definition __builtin_ffsl (x : Z) : Z := match x with Zpos p => pos_ffs p | _ => 0 end.

(** ** State *)
Record sigthread : Type := SigThread { tid : Z; pending_signals : Z; masked_signals : Z }.
Record kern : Type := Kern { ks : sched; kp : procs; kt : gmap Z sigthread }.

Definition set_ks (k : kern) (s : sched) : kern := Kern s (kp k) (kt k).
Definition set_kp (k : kern) (p : procs) : kern := Kern (ks k) p (kt k).
Definition set_kt (k : kern) (t : Z) (x : sigthread) : kern := Kern (ks k) (kp k) (<[t := x]> (kt k)).
Definition with_pending (x : sigthread) (m : Z) : sigthread := SigThread (tid x) m (masked_signals x).
Definition with_masked (x : sigthread) (m : Z) : sigthread := SigThread (tid x) (pending_signals x) m.

Definition with_stop (p : com_proc) (stop : Z) (notified : bool) : com_proc :=
  Proc (p_pid p) (p_parent p) (p_children p) (p_threads p) (p_ref p) (p_group p) (p_links p) (p_execve p) (p_pending p)
    (p_exited p) stop notified (p_status p) (p_actions p) (p_root p) (p_cwd p).
Definition with_proc_pending (p : com_proc) (m : Z) : com_proc :=
  Proc (p_pid p) (p_parent p) (p_children p) (p_threads p) (p_ref p) (p_group p) (p_links p) (p_execve p) m
    (p_exited p) (p_stop p) (p_notified p) (p_status p) (p_actions p) (p_root p) (p_cwd p).
Definition with_exit (p : com_proc) (status : Z) : com_proc :=
  Proc (p_pid p) (p_parent p) (p_children p) (p_threads p) (p_ref p) (p_group p) (p_links p) (p_execve p) (p_pending p)
    true (p_stop p) (p_notified p) status (p_actions p) (p_root p) (p_cwd p).
Definition with_actions (p : com_proc) (a : gmap Z com_sigaction) : com_proc :=
  Proc (p_pid p) (p_parent p) (p_children p) (p_threads p) (p_ref p) (p_group p) (p_links p) (p_execve p) (p_pending p)
    (p_exited p) (p_stop p) (p_notified p) (p_status p) a (p_root p) (p_cwd p).

(** The process of a thread, and a change of it. *)
Definition proc_of (k : kern) (t : Z) : res Z := th ← deref (Sched.threads (ks k) !! t); deref (Sched.proc th).
Definition get_proc (k : kern) (a : Z) : res com_proc := deref (ptab (kp k) !! a).
Definition put_proc (k : kern) (a : Z) (p : com_proc) : kern := set_kp k (set_proc (kp k) a p).

(** ** Sending

    [r] is the processor chosen for a thread that has not run yet, [c] the
    processor the sender runs on. *)
Definition send_to_thread (r c : Z) (k : kern) (t sig : Z) : res (Z * kern) :=
  x ← deref (kt k !! t);
  m ← COM_IPC_SIGNAL_SIGMASK_SET (pending_signals x) sig;
  let k := set_kt k t (with_pending x m) in
  masked ← COM_IPC_SIGNAL_SIGMASK_ISSET (masked_signals x) sig;
  if (masked : bool) then Ok (TKILL_STATUS_MASKED, k)
  else
    a ← proc_of k t;
    p ← get_proc k a;
    if negb (p_stop p =? COM_IPC_SIGNAL_NONE) && negb (SIGCONT =? sig) then Ok (TKILL_STATUS_BAD, k)
    else
      th ← deref (Sched.threads (ks k) !! t);
      match state th with
      | E_COM_THREAD_STATE_WAITING =>
          s ← com_sys_sched_notify_thread_nolock r (ks k) t; Ok (0, set_ks k s)
      | E_COM_THREAD_STATE_RUNNING =>
          if bool_decide (cpu th = Some c) then Ok (0, k)
          else
            d ← deref (cpu th);
            y ← deref (cpus (ks k) !! d);
            KASSERT (bool_decide (cur_thread y = Some t)) ;;
            Ok (0, k)
      | _ => Ok (0, k)
      end.

(** The loop of [send_to_proc]: whether a thread took the signal. *)
Fixpoint send_loop (r c : Z) (k : kern) (ts : list Z) (sig : Z) : res (bool * kern) :=
  match ts with
  | [] => Ok (false, k)
  | t :: ts =>
      '(status, k) ← send_to_thread r c k t sig;
      if status =? 0 then Ok (true, k) else send_loop r c k ts sig
  end.

Definition send_to_proc (r c : Z) (k : kern) (proc : option Z) (sig : Z) : res (errno * kern) :=
  match proc with
  | None => Ok (ESRCH, k)
  | Some a =>
      p ← get_proc k a;
      if p_exited p then Ok (ESRCH, k)
      else
        '(found, k) ← send_loop r c k (p_threads p) sig;
        if (found : bool) then Ok (E0, k)
        else
          p ← get_proc k a;
          m ← COM_IPC_SIGNAL_SIGMASK_SET (p_pending p) sig;
          Ok (E0, put_proc k a (with_proc_pending p m))
  end.

(** The reference taken by the look-up is kept. *)
Definition com_ipc_signal_send_to_proc (r c : Z) (k : kern) (pid sig : Z) : res (errno * kern) :=
  if negb (IS_VALID_SIGNAL sig) then Ok (EINVAL, k)
  else
    '(proc, s) ← com_sys_proc_get_by_pid (kp k) pid;
    send_to_proc r c (set_kp k s) proc sig.

Fixpoint send_group_loop (r c : Z) (k : kern) (ps : list Z) (sig : Z) : res kern :=
  match ps with
  | [] => Ok k
  | a :: ps => '(_, k) ← send_to_proc r c k (Some a) sig; send_group_loop r c k ps sig
  end.

Definition com_ipc_signal_send_to_proc_group (r c : Z) (k : kern) (id sig : Z) : res (errno * kern) :=
  if negb (IS_VALID_SIGNAL sig) then Ok (EINVAL, k)
  else match com_sys_proc_get_group_by_pgid (kp k) id with
       | None => Ok (ESRCH, k)
       | Some g =>
           G ← deref (groups (kp k) !! g);
           k ← send_group_loop r c k (g_procs G) sig;
           Ok (E0, k)
       end.

Definition com_ipc_signal_send_to_thread_nolock (r c : Z) (k : kern) (t sig : Z) : res (errno * kern) :=
  '(_, k) ← send_to_thread r c k t sig; Ok (E0, k).
Definition com_ipc_signal_send_to_thread : Z → Z → kern → Z → Z → res (errno * kern) :=
  com_ipc_signal_send_to_thread_nolock.

(** ** Looking for a signal *)

(** [t] is the thread that runs. *)
Definition com_ipc_signal_check_nolock (k : kern) (t : Z) : res Z :=
  x ← deref (kt k !! t);
  let to_service := Z.land (pending_signals x) (Z.lnot (masked_signals x)) in
  Ok (if to_service =? 0 then -1 else __builtin_ffsl to_service).
Definition com_ipc_signal_check : kern → Z → res Z := com_ipc_signal_check_nolock.

(** ** Masks of a thread *)
Inductive sig_how : Type := SIG_BLOCK | SIG_UNBLOCK | SIG_SETMASK | SIG_HOW_OTHER.

(** The new mask, and what is stored in [oset]; only the first word of a set
    is ever used. *)
Definition com_ipc_signal_set_mask_nolock (mask : Z) (how : sig_how) (set : option Z) : errno * Z * option Z :=
  match set with
  | None => (E0, mask, Some mask)
  | Some v =>
      match how with
      | SIG_BLOCK => (E0, Z.lor mask v, Some mask)
      | SIG_SETMASK => (E0, v, Some mask)
      | SIG_UNBLOCK => (E0, Z.land mask (Z.lnot v), Some mask)
      | SIG_HOW_OTHER => (EINVAL, mask, None)
      end
  end.
Definition com_ipc_signal_set_mask : Z → sig_how → option Z → errno * Z * option Z := com_ipc_signal_set_mask_nolock.

(** ** The ends of processes *)

(** [a] is the process of the running thread. The loop tells every thread, but
    as the process counts as stopped already none of them is woken. *)
Fixpoint stop_loop (r c : Z) (k : kern) (ts : list Z) (sig : Z) : res kern :=
  match ts with
  | [] => Ok k
  | t :: ts => '(_, k) ← com_ipc_signal_send_to_thread_nolock r c k t sig; stop_loop r c k ts sig
  end.

Definition com_sys_proc_stop_nolock (r c : Z) (k : kern) (a stop_signal : Z) : res kern :=
  KASSERT (negb (stop_signal =? COM_IPC_SIGNAL_NONE)) ;;
  p ← get_proc k a;
  if negb (p_stop p =? COM_IPC_SIGNAL_NONE) then Ok k
  else
    let k := put_proc k a (with_stop p stop_signal false) in
    k ← stop_loop r c k (p_threads p) stop_signal;
    s ← com_sys_sched_notify_all r (ks k) (waitpid_waitlist a);
    '(_, k) ← com_ipc_signal_send_to_proc r c (set_ks k s) (p_parent p) SIGCHLD;
    Ok k.

Definition remove_thread (k : kern) (a t : Z) : res kern :=
  s ← com_sys_proc_remove_thread_nolock (kp k) a t; Ok (set_kp k s).

(** The loop runs over the threads the process had at its start. *)
Fixpoint kill_loop (c : Z) (k : kern) (a self : Z) (ts : list Z) : res kern :=
  match ts with
  | [] => Ok k
  | t :: ts =>
      x ← deref (kt k !! t);
      y ← deref (kt k !! self);
      k ← (if tid x =? tid y then Ok k
           else s ← com_sys_thread_exit_nolock (ks k) c t; remove_thread (set_ks k s) a t);
      kill_loop c k a self ts
  end.

Definition com_sys_proc_kill_other_threads_nolock (c : Z) (k : kern) (a t : Z) : res kern :=
  p ← get_proc k a; kill_loop c k a t (p_threads p).

(** The part of [com_sys_proc_exit] after the files are released. *)
Definition com_sys_proc_exit (r c : Z) (k : kern) (a status : Z) : res kern :=
  KASSERT (default 0 (num_running_threads (ks k) !! a) =? 1) ;;
  p ← get_proc k a;
  let k := put_proc k a (with_exit p status) in
  s ← com_sys_sched_notify_all r (ks k) (waitpid_waitlist a);
  '(_, k) ← com_ipc_signal_send_to_proc r c (set_ks k s) (p_parent p) SIGCHLD;
  Ok k.

(** Called by thread [t] of process [a] on processor [c]. *)
Definition com_sys_proc_terminate (r c : Z) (k : kern) (a t ecode : Z) : res kern :=
  k ← com_sys_proc_kill_other_threads_nolock c k a t;
  k ← com_sys_proc_exit r c k a ecode;
  k ← remove_thread k a t;
  s ← com_sys_thread_exit_nolock (ks k) c t;
  Ok (set_ks k s).

(** ** The frame of a handler on the user's stack *)
Record arch_context : Type := Ctx {
  c_cr2 : Z; c_gs : Z; c_fs : Z; c_es : Z; c_ds : Z;
  c_rax : Z; c_rbx : Z; c_rcx : Z; c_rdx : Z; c_r8 : Z; c_r9 : Z; c_r10 : Z; c_r11 : Z;
  c_r12 : Z; c_r13 : Z; c_r14 : Z; c_r15 : Z; c_rdi : Z; c_rsi : Z; c_rbp : Z;
  c_error : Z; c_rip : Z; c_cs : Z; c_rflags : Z; c_rsp : Z; c_ss : Z
}.

Record com_sigframe : Type := SigFrame { si_signo : Z; uc_sigmask : Z; gregs : list Z }.

(** The user's stack: frames and words, by address. *)
Record ustack : Type := UStack { frames : gmap Z com_sigframe; words : gmap Z Z }.

Definition X86_64_CONTEXT_NGREG : nat := 23.

Definition arch_context_alloc_sigframe (ctx : arch_context) : Z :=
  let stack := u64 (c_rsp ctx - 128) in
  let stack := Z.land stack (Z.lnot 0xF) in
  let stack := u64 (stack - sizeof_sigframe) in
  Z.land stack (Z.lnot 0xF).

(** The registers in the order of [X86_64_CONTEXT_REG_R8] (0) to
    [X86_64_CONTEXT_REG_EFL] (17); the rest of the array is zero. *)
Definition saved_regs (ctx : arch_context) : list Z :=
  [c_r8 ctx; c_r9 ctx; c_r10 ctx; c_r11 ctx; c_r12 ctx; c_r13 ctx; c_r14 ctx; c_r15 ctx; c_rdi ctx; c_rsi ctx;
   c_rbp ctx; c_rbx ctx; c_rdx ctx; c_rax ctx; c_rcx ctx; c_rsp ctx; c_rip ctx; c_rflags ctx].
Definition arch_context_setup_sigframe (f : com_sigframe) (ctx : arch_context) : com_sigframe :=
  SigFrame (si_signo f) (uc_sigmask f) (list_inserts 0 (saved_regs ctx) (gregs f)).

Definition arch_context_setup_sigrestore (u : ustack) (stackptr restorer : Z) : Z * ustack :=
  let stack := u64 (stackptr - 8) in (stack, UStack (frames u) (<[stack := restorer]> (words u))).

Definition arch_context_signal_trampoline (sframe : Z) (ctx : arch_context) (stack handler sig : Z) : arch_context :=
  Ctx (c_cr2 ctx) (c_gs ctx) (c_fs ctx) (c_es ctx) (c_ds ctx) (c_rax ctx) (c_rbx ctx) (c_rcx ctx) (sframe + offsetof_uc)
    (c_r8 ctx) (c_r9 ctx) (c_r10 ctx) (c_r11 ctx) (c_r12 ctx) (c_r13 ctx) (c_r14 ctx) (c_r15 ctx) sig sframe (c_rbp ctx)
    (c_error ctx) handler (c_cs ctx) (c_rflags ctx) stack (c_ss ctx).

Definition greg (f : com_sigframe) (i : nat) : Z := default 0 (gregs f !! i).

Definition arch_context_restore_sigframe (u : ustack) (ctx : arch_context) : res (com_sigframe * arch_context) :=
  f ← deref (frames u !! c_rsp ctx);
  Ok (f, Ctx (c_cr2 ctx) (c_gs ctx) (c_fs ctx) (c_es ctx) (c_ds ctx) (greg f 13) (greg f 11) (greg f 14) (greg f 12)
    (greg f 0) (greg f 1) (greg f 2) (greg f 3) (greg f 4) (greg f 5) (greg f 6) (greg f 7) (greg f 8) (greg f 9) (greg f 10)
    (c_error ctx) (greg f 16) (c_cs ctx) (greg f 17) (greg f 15) (c_ss ctx)).

(** ** Delivery *)

(** How [com_ipc_signal_dispatch] ends: nothing to do or ignored, a handler is
    set up, the process is gone, or the thread sleeps until the process goes
    on. *)
Inductive dispatch_end : Type := DNothing | DHandler | DKilled | DStopped.

Definition handler_addr (h : sa_handler) : Z :=
  match h with SIG_DFL => SIG_DFL_value | SIG_IGN => SIG_IGN_value | SaHandler a => a end.

(** The part that sets up a handler. [SA_RESETHAND] overwrites the action
    before its address is read. *)
Definition push_handler (k : kern) (u : ustack) (ctx : arch_context) (a t sig : Z) (sa : com_sigaction) (restorer : Z)
    : res (kern * ustack * arch_context) :=
  x ← deref (kt k !! t);
  p ← get_proc k a;
  let sframe := arch_context_alloc_sigframe ctx in
  let f := arch_context_setup_sigframe (SigFrame sig (masked_signals x) (replicate X86_64_CONTEXT_NGREG 0)) ctx in
  let u := UStack (<[sframe := f]> (frames u)) (words u) in
  let m := Z.lor (masked_signals x) (sa_mask sa) in
  m ← (if sa_nodefer sa then Ok m else COM_IPC_SIGNAL_SIGMASK_SET m sig);
  let k := set_kt k t (with_masked x m) in
  let sa := if sa_resethand sa then SigAction SIG_DFL (sa_nodefer sa) true (sa_mask sa) else sa in
  let k := put_proc k a (with_actions p (<[sig := sa]> (p_actions p))) in
  let '(stack, u) := arch_context_setup_sigrestore u sframe restorer in
  Ok (k, u, arch_context_signal_trampoline sframe ctx stack (handler_addr (sa_action sa)) sig).

Definition has (props flag : Z) : bool := negb (Z.land flag props =? 0).

(** The default action of [sig] by its properties: [None] when it has none. *)
Definition default_action (r c : Z) (k : kern) (a t sig props : Z) : res (option (dispatch_end * kern)) :=
  if has props SA_KILL then
    p ← get_proc k a;
    k ← com_sys_proc_terminate r c (put_proc k a (with_stop p sig (p_notified p))) a t 0;
    Ok (Some (DKilled, k))
  else if has props SA_STOP then
    k ← com_sys_proc_stop_nolock r c k a sig;
    x ← deref (kt k !! t);
    m ← COM_IPC_SIGNAL_SIGMASK_UNSET (pending_signals x) sig;
    let k := set_kt k t (with_pending x m) in
    s ← com_sys_sched_wait_nodrop (ks k) c (stop_waitlist a);
    Ok (Some (DStopped, set_ks k s))
  else if has props SA_IGNORE then Ok (Some (DNothing, k))
  else Ok None.

(** [t] is the current thread of processor [c]; [restorer] is the action's
    [sa_restorer]. *)
Definition com_ipc_signal_dispatch (r c : Z) (k : kern) (u : ustack) (ctx : arch_context) (t restorer : Z)
    : res (dispatch_end * kern * ustack * arch_context) :=
  a ← proc_of k t;
  sig ← com_ipc_signal_check_nolock k t;
  if sig =? COM_IPC_SIGNAL_NONE then Ok (DNothing, k, u, ctx)
  else
    x ← deref (kt k !! t);
    m ← COM_IPC_SIGNAL_SIGMASK_UNSET (pending_signals x) sig;
    let k := set_kt k t (with_pending x m) in
    p ← get_proc k a;
    let sa := p_actions p !! sig in
    props ← (if bool_decide (from_option sa_action SIG_DFL sa = SIG_DFL) then properties_of sig else Ok 0);
    d ← default_action r c k a t sig props;
    match d, sa with
    | Some (d, k), _ => Ok (d, k, u, ctx)
    | None, None => Ok (DNothing, k, u, ctx)
    | None, Some sa =>
        if bool_decide (sa_action sa = SIG_IGN) then Ok (DNothing, k, u, ctx)
        else '(k, u, ctx) ← push_handler k u ctx a t sig sa restorer; Ok (DHandler, k, u, ctx)
    end.

(** The rest of it, when a stopped thread runs again. *)
Definition dispatch_continue (r : Z) (k : kern) (t : Z) : res kern :=
  a ← proc_of k t;
  x ← deref (kt k !! t);
  cont ← COM_IPC_SIGNAL_SIGMASK_ISSET (pending_signals x) SIGCONT;
  KASSERT cont ;;
  m ← COM_IPC_SIGNAL_SIGMASK_UNSET (pending_signals x) SIGCONT;
  let k := set_kt k t (with_pending x m) in
  p ← get_proc k a;
  if negb (p_stop p =? COM_IPC_SIGNAL_NONE) then
    let k := put_proc k a (with_stop p COM_IPC_SIGNAL_NONE false) in
    s ← com_sys_sched_notify_all r (ks k) (stop_waitlist a);
    Ok (set_ks k s)
  else Ok k.

(** ** System calls

    [t] is the calling thread, on processor [c]. *)
Definition com_sys_syscall_kill (r c : Z) (k : kern) (t pid sig : Z) : res (sysret * kern) :=
  a ← proc_of k t;
  pid ← (if pid =? 0 then G ← group_of (kp k) a; Ok (pgid G) else Ok pid);
  if pid =? -1 then Ok (-1, ENOSYS, k)
  else if sig =? 0 then Ok (0, E0, k)
  else
    '(err, k) ← (if 0 <? pid then com_ipc_signal_send_to_proc r c k pid sig
                 else com_ipc_signal_send_to_proc_group r c k (- pid) sig);
    Ok (if bool_decide (err = E0) then 0 else -1, err, k).

Fixpoint find_tid (k : kern) (ts : list Z) (id : Z) : res (option Z) :=
  match ts with
  | [] => Ok None
  | t :: ts => x ← deref (kt k !! t); if tid x =? id then Ok (Some t) else find_tid k ts id
  end.

Definition com_sys_syscall_kill_thread (r c : Z) (k : kern) (t id sig : Z) : res (sysret * kern) :=
  if sig =? 0 then Ok (0, E0, k)
  else
    a ← proc_of k t;
    p ← get_proc k a;
    f ← find_tid k (p_threads p) id;
    '(err, k) ← match f with
                | Some u => com_ipc_signal_send_to_thread r c k u sig
                | None => Ok (ESRCH, k)
                end;
    Ok (if bool_decide (err = E0) then 0 else -1, err, k).

(** The value stored in [oact] is [Some] of the old action, or of the default
    one; storing at [NSIG], one past the array, is a fault. *)
Definition com_sys_syscall_sigaction (k : kern) (t sig : Z) (act : option com_sigaction) (want_old : bool)
    : res (sysret * option sa_handler * kern) :=
  if (sig <? 1) || (NSIG <? sig) then Ok (-1, EINVAL, None, k)
  else
    a ← proc_of k t;
    p ← get_proc k a;
    if NSIG <=? sig then Fault
    else
      let old := if want_old then Some (from_option sa_action SIG_DFL (p_actions p !! sig)) else None in
      let k := match act with None => k | Some sa => put_proc k a (with_actions p (<[sig := sa]> (p_actions p))) end in
      Ok (0, E0, old, k).

Definition com_sys_syscall_sigprocmask (k : kern) (t : Z) (how : sig_how) (set : option Z) : res (sysret * option Z * kern) :=
  x ← deref (kt k !! t);
  let '(err, m, old) := com_ipc_signal_set_mask (masked_signals x) how set in
  let k := set_kt k t (with_masked x m) in
  Ok (if bool_decide (err = E0) then 0 else -1, err, old, k).

Definition com_sys_syscall_sigpending (k : kern) (t : Z) : res Z := x ← deref (kt k !! t); Ok (pending_signals x).

Definition com_sys_syscall_sigreturn (k : kern) (u : ustack) (ctx : arch_context) (t : Z) : res (kern * arch_context) :=
  x ← deref (kt k !! t);
  '(f, ctx) ← arch_context_restore_sigframe u ctx;
  Ok (set_kt k t (with_masked x (uc_sigmask f)), ctx).

(** One turn of the loop of [waitpid_proc], by thread [t] of process [curr]:
    [Some] of the result and what is stored in [*status], or [None] when the
    thread sleeps. The first [bool] is [WNOHANG]. *)
Definition waitpid_turn (nohang : bool) (k : kern) (t curr towait : Z) : res (option (Z * errno * option Z) * kern) :=
  s ← com_ipc_signal_check_nolock k t;
  if negb (s =? COM_IPC_SIGNAL_NONE) then Ok (Some (-1, EINTR, None), k)
  else
    p ← get_proc k towait;
    if p_exited p then
      let st := Z.shiftl (Z.land (p_status p) 0xff) 8 in
      let st := if negb (p_stop p =? COM_IPC_SIGNAL_NONE) then Z.lor st (Z.land (p_stop p) 0x7f) else st in
      s ← COM_SYS_PROC_RELEASE (kp k) towait;
      Ok (Some (p_pid p, E0, Some st), set_kp k s)
    else if negb (p_stop p =? COM_IPC_SIGNAL_NONE) && negb (p_notified p) then
      Ok (Some (p_pid p, E0, Some (Z.lor 0x7f (Z.shiftl (p_stop p) 8))), put_proc k towait (with_stop p (p_stop p) true))
    else Ok (if nohang then Some (0, E0, None) else None, k).

(** The tests before the loop. *)
Definition waitpid_test (k : kern) (curr : Z) (towait : option Z) : res bool :=
  p ← get_proc k curr;
  match towait with
  | None => Ok false
  | Some b => q ← get_proc k b; Ok (negb (p_children p =? 0) && (p_parent q =? p_pid p))
  end.

(** [com_sys_syscall_waitpid] up to the point where it first sleeps ([None]). *)
Definition com_sys_syscall_waitpid (nohang : bool) (k : kern) (t pid : Z) (stack : option Z)
    : res (option (Z * errno * option Z) * kern) :=
  curr ← proc_of k t;
  if pid <? -1 then Ok (Some (-1, ENOSYS, None), k)
  else
    '(towait, s) ← (if pid =? -1 then com_sys_proc_get_arbitrary_child (kp k) curr stack
                    else com_sys_proc_get_by_pid (kp k) pid);
    let k := set_kp k s in
    match towait with
    | None => Ok (Some (-1, ECHILD, None), k)
    | Some b =>
        ok ← waitpid_test k curr (Some b);
        '(o, k) ← (if (ok : bool) then waitpid_turn nohang k t curr b else Ok (Some (-1, ECHILD, None), k));
        match o with
        | None => Ok (None, k)
        | Some v => s ← COM_SYS_PROC_RELEASE (kp k) b; Ok (Some v, set_kp k s)
        end
    end.

(** The part of [fork] that concerns signals and the count of children. *)
Definition fork_signals (k : kern) (parent child : Z) : res kern :=
  p ← get_proc k parent;
  q ← get_proc k child;
  let k := put_proc k parent (Proc (p_pid p) (p_parent p) (u64 (p_children p + 1)) (p_threads p) (p_ref p) (p_group p) (p_links p)
             (p_execve p) (p_pending p) (p_exited p) (p_stop p) (p_notified p) (p_status p) (p_actions p) (p_root p) (p_cwd p)) in
  Ok (put_proc k child (with_actions q (p_actions p))).

Definition com_sys_syscall_exit (r c : Z) (k : kern) (t status : Z) : res kern :=
  a ← proc_of k t; com_sys_proc_terminate r c k a t status.

Definition com_sys_syscall_exit_thread (r c : Z) (k : kern) (t : Z) : res kern :=
  th ← deref (Sched.threads (ks k) !! t);
  KASSERT (bool_decide (state th = E_COM_THREAD_STATE_RUNNING)) ;;
  a ← proc_of k t;
  k ← remove_thread k a t;
  p ← get_proc k a;
  k ← (if bool_decide (p_threads p = []) then com_sys_proc_exit r c k a 0 else Ok k);
  s ← com_sys_thread_exit_nolock (ks k) c t;
  Ok (set_ks k s).

(** ** Bits *)
Lemma pos_ffs_pos p : 1 ≤ pos_ffs p.
Proof. induction p; cbn [pos_ffs]; lia. Qed.

(** The bit found is set, and it is the lowest. *)
Lemma pos_ffs_spec p : Z.testbit (Zpos p) (pos_ffs p - 1) = true ∧ ∀ i, 0 ≤ i < pos_ffs p - 1 → Z.testbit (Zpos p) i = false.
Proof.
  induction p as [p _|p [IH1 IH2]|]; cbn [pos_ffs]; [split; [done|lia]| |split; [done|lia]].
  pose proof (pos_ffs_pos p). change (Zpos p~0) with (2 * Zpos p). split.
  - replace (1 + pos_ffs p - 1) with (Z.succ (pos_ffs p - 1)) by lia. by rewrite Z.double_bits_succ by lia.
  - intros i Hi. destruct (decide (i = 0)) as [->|]; [apply Z.testbit_even_0|].
    replace i with (Z.succ (i - 1)) by lia. rewrite Z.double_bits_succ. apply IH2. lia.
Qed.

Lemma sigbit_ok sig : 1 ≤ sig ≤ 64 → sigbit sig = Ok (2 ^ (sig - 1)).
Proof. intros H. unfold sigbit. destruct (Z.leb_spec 1 sig); [|lia]. destruct (Z.leb_spec sig 64); [|lia]. cbn [andb]. by rewrite Z.shiftl_1_l. Qed.

(** Whether signal [sig] is in a mask. *)
Definition in_mask (m sig : Z) : bool := Z.testbit m (sig - 1).

Lemma mask_set_ok m sig : 1 ≤ sig ≤ 64 → COM_IPC_SIGNAL_SIGMASK_SET m sig = Ok (Z.setbit m (sig - 1)).
Proof. intros H. unfold COM_IPC_SIGNAL_SIGMASK_SET. rewrite sigbit_ok by done. mstep. by rewrite Z.setbit_spec'. Qed.
Lemma mask_unset_ok m sig : 1 ≤ sig ≤ 64 → COM_IPC_SIGNAL_SIGMASK_UNSET m sig = Ok (Z.clearbit m (sig - 1)).
Proof.
  intros H. unfold COM_IPC_SIGNAL_SIGMASK_UNSET. rewrite sigbit_ok by done. mstep. by rewrite Z.clearbit_spec', Z.ldiff_land.
Qed.
Lemma mask_isset_ok m sig : 1 ≤ sig ≤ 64 → COM_IPC_SIGNAL_SIGMASK_ISSET m sig = Ok (in_mask m sig).
Proof.
  intros H. unfold COM_IPC_SIGNAL_SIGMASK_ISSET. rewrite sigbit_ok by done. mstep. f_equal. unfold in_mask.
  destruct (Z.eqb_spec (Z.land m (2 ^ (sig - 1))) 0) as [E|E]; cbn [negb].
  - symmetry. apply (f_equal (λ z, Z.testbit z (sig - 1))) in E. rewrite Z.land_spec, Z.pow2_bits_true, andb_true_r, Z.bits_0 in E by lia. done.
  - destruct (Z.testbit m (sig - 1)) eqn:Hb; [done|]. exfalso. apply E. apply Z.bits_inj'. intros i Hi.
    rewrite Z.land_spec, Z.bits_0, Z.pow2_bits_eqb by lia. destruct (Z.eqb_spec (sig - 1) i) as [<-|]; [by rewrite Hb|by rewrite andb_false_r].
Qed.

Definition mask_ok (m : Z) : Prop := 0 ≤ m < 2 ^ 64.

Lemma mask_ok_bits m : 0 ≤ m → mask_ok m ↔ ∀ i, 64 ≤ i → Z.testbit m i = false.
Proof.
  intros Hm. split.
  - intros [_ H] i Hi. destruct (decide (m = 0)) as [->|]; [by rewrite Z.bits_0|]. apply Z.bits_above_log2; [done|].
    apply Z.log2_lt_pow2; [lia|]. apply Z.lt_le_trans with (2 ^ 64); [done|]. apply Z.pow_le_mono_r; lia.
  - intros H. split; [done|]. apply Z.nle_gt. intros Hge. assert (Hp : 0 < m) by lia.
    assert (64 ≤ Z.log2 m) by (apply Z.log2_le_pow2; lia). specialize (H (Z.log2 m) ltac:(done)). by rewrite Z.bit_log2 in H.
Qed.

Lemma mask_ok_lor m n : mask_ok m → mask_ok n → mask_ok (Z.lor m n).
Proof.
  intros Hm Hn. assert (0 ≤ Z.lor m n) by (apply Z.lor_nonneg; split; [apply Hm|apply Hn]). apply mask_ok_bits; [done|].
  intros i Hi. rewrite Z.lor_spec. apply mask_ok_bits with (i := i) in Hm, Hn; try (apply Hm || apply Hn || done). by rewrite Hm, Hn.
Qed.
Lemma mask_ok_set m i : mask_ok m → 0 ≤ i < 64 → mask_ok (Z.setbit m i).
Proof.
  intros Hm Hi. rewrite Z.setbit_spec'. apply mask_ok_lor; [done|]. split; [by apply Z.pow_nonneg|]. apply Z.pow_lt_mono_r; lia.
Qed.
Lemma mask_ok_clear m i : mask_ok m → mask_ok (Z.clearbit m i).
Proof.
  intros Hm. assert (0 ≤ Z.clearbit m i) by (rewrite Z.clearbit_spec'; apply Z.ldiff_nonneg; left; apply Hm). apply mask_ok_bits; [done|].
  intros j Hj. rewrite Z.clearbit_spec', Z.ldiff_spec. pose proof Hm as Hm'. apply mask_ok_bits with (i := j) in Hm'; [by rewrite Hm'|apply Hm|done].
Qed.

(** A signal that is pending and not masked. *)
Definition deliverable (x : sigthread) (sig : Z) : bool := in_mask (pending_signals x) sig && negb (in_mask (masked_signals x) sig).

Definition check_result (x : sigthread) (sig : Z) : Prop :=
  (sig = COM_IPC_SIGNAL_NONE ∧ ∀ s, 1 ≤ s → deliverable x s = false) ∨
  (1 ≤ sig ≤ 64 ∧ deliverable x sig = true ∧ ∀ s, 1 ≤ s < sig → deliverable x s = false).

Lemma check_ok k t x : kt k !! t = Some x → mask_ok (pending_signals x) → ∃ sig, com_ipc_signal_check_nolock k t = Ok sig ∧ check_result x sig.
Proof.
  intros Hx Hm. unfold com_ipc_signal_check_nolock. rewrite Hx. mstep. set (v := Z.land _ _).
  assert (Hv : ∀ s, 1 ≤ s → Z.testbit v (s - 1) = deliverable x s).
  { intros s Hs. unfold v, deliverable, in_mask. by rewrite Z.land_spec, Z.lnot_spec by lia. }
  assert (Hv0 : 0 ≤ v) by (apply Z.land_nonneg; left; apply Hm).
  eexists. split; [done|]. destruct (Z.eqb_spec v 0) as [E|E].
  - left. split; [done|]. intros s Hs. by rewrite <- Hv, E, Z.bits_0.
  - right. destruct v as [|p|p] eqn:Ev; [done| |lia]. cbn [__builtin_ffsl]. destruct (pos_ffs_spec p) as [Hb Hl]. pose proof (pos_ffs_pos p).
    split_and!; [done| |by rewrite <- Hv|intros s Hs; rewrite <- Hv by lia; apply Hl; lia].
    apply Z.nlt_ge. intros Hgt. rewrite Hv in Hb by done. unfold deliverable, in_mask in Hb.
    pose proof Hm as Hm'. apply mask_ok_bits with (i := pos_ffs p - 1) in Hm'; [|apply Hm|lia]. by rewrite Hm' in Hb.
Qed.

(** The check finds the lowest signal that is pending and not masked, and
    -1 when there is none; what it finds is the number of a bit of the mask. *)
Theorem signal_check_lowest k t x : kt k !! t = Some x → mask_ok (pending_signals x) →
  ∃ sig, com_ipc_signal_check k t = Ok sig ∧ check_result x sig.
Proof. apply check_ok. Qed.

(** [sigprocmask] blocks, unblocks or replaces, bit for bit, and gives the
    mask there was; setting that mask again undoes the call. *)
Theorem sigprocmask_spec k t x how v : kt k !! t = Some x →
  match how with
  | SIG_HOW_OTHER => com_sys_syscall_sigprocmask k t how (Some v) = Ok (-1, EINVAL, None, set_kt k t x)
  | _ => ∃ m k', com_sys_syscall_sigprocmask k t how (Some v) = Ok (0, E0, Some (masked_signals x), k') ∧
      kt k' !! t = Some (with_masked x m) ∧
      (∀ i, 0 ≤ i → Z.testbit m i = match how with
                                    | SIG_BLOCK => Z.testbit (masked_signals x) i || Z.testbit v i
                                    | SIG_UNBLOCK => Z.testbit (masked_signals x) i && negb (Z.testbit v i)
                                    | _ => Z.testbit v i
                                    end) ∧
      com_sys_syscall_sigprocmask k' t SIG_SETMASK (Some (masked_signals x)) = Ok (0, E0, Some m, k)
  end.
Proof.
  intros Hx. unfold com_sys_syscall_sigprocmask. rewrite Hx. mstep.
  assert (Hb : ∀ m, set_kt (set_kt k t (with_masked x m)) t (with_masked (with_masked x m) (masked_signals x)) = k).
  { intros m. destruct k as [s p T], x. cbn in *. unfold set_kt. cbn. by rewrite insert_insert_eq, insert_id. }
  destruct how; cbn [com_ipc_signal_set_mask com_ipc_signal_set_mask_nolock].
  1-3: eexists _, _; split; [done|]; cbn [set_kt kt]; rewrite lookup_insert_eq; (split; [done|]); split;
    [|mstep; cbn [masked_signals with_masked]; do 2 f_equal; apply Hb].
  - intros i _. apply Z.lor_spec.
  - intros i Hi. by rewrite Z.land_spec, Z.lnot_spec.
  - done.
  - do 2 f_equal. by destruct x.
Qed.


(** ** The frame of a handler *)
Lemma land_lnot_15 z : 0 ≤ z → Z.land z (Z.lnot 0xF) = 16 * (z / 16).
Proof.
  intros Hz. rewrite <- Z.ldiff_land. change 0xF with (Z.ones 4). rewrite Z.ldiff_ones_r by lia.
  rewrite Z.shiftl_mul_pow2, Z.shiftr_div_pow2 by lia. change (2 ^ 4) with 16. lia.
Qed.

Lemma alloc_sigframe_range ctx : mask_ok (arch_context_alloc_sigframe ctx).
Proof.
  unfold arch_context_alloc_sigframe. cbn zeta. set (y := u64 (_ - sizeof_sigframe)). assert (Hy : mask_ok y) by (by apply wrap_range).
  destruct Hy as [Hy1 Hy2]. clearbody y. rewrite land_lnot_15 by done. pose proof (Z.div_mod y 16 ltac:(lia)).
  pose proof (Z.mod_pos_bound y 16 ltac:(lia)). unfold mask_ok. lia.
Qed.

Lemma alloc_sigframe_eq ctx : mask_ok (c_rsp ctx) → 0 ≤ sizeof_sigframe → 128 + sizeof_sigframe + 16 ≤ c_rsp ctx →
  arch_context_alloc_sigframe ctx = 16 * ((16 * ((c_rsp ctx - 128) / 16) - sizeof_sigframe) / 16).
Proof.
  intros Hr Hs Hb. unfold mask_ok in Hr. unfold arch_context_alloc_sigframe. rewrite (wrap_small 64 (c_rsp ctx - 128)) by lia.
  rewrite (land_lnot_15 (c_rsp ctx - 128)) by lia. pose proof (Z.div_mod (c_rsp ctx - 128) 16 ltac:(lia)). pose proof (Z.mod_pos_bound (c_rsp ctx - 128) 16 ltac:(lia)).
  rewrite wrap_small by lia. apply land_lnot_15. lia.
Qed.

(** C28: The frame of a handler lies below the stack of the interrupted code
    and the 128 bytes under it that the code may use, wastes less than 32
    bytes, and is aligned; at its entry the handler finds the stack as after a
    call: eight bytes below a multiple of 16. *)
Theorem sigframe_bounds k u ctx a t sig sa restorer k' u' ctx' :
  push_handler k u ctx a t sig sa restorer = Ok (k', u', ctx') → mask_ok (c_rsp ctx) → 0 ≤ sizeof_sigframe →
  128 + sizeof_sigframe + 48 ≤ c_rsp ctx →
  let sframe := c_rsi ctx' in
  c_rsp ctx - 128 - 32 < sframe + sizeof_sigframe ≤ c_rsp ctx - 128 ∧ sframe mod 16 = 0 ∧ c_rsp ctx' = sframe - 8 ∧ c_rsp ctx' mod 16 = 8.
Proof.
  intros H Hr Hs Hb. unfold push_handler, arch_context_setup_sigrestore in H. inv_res. cbn [arch_context_signal_trampoline c_rsi c_rsp].
  rewrite alloc_sigframe_eq by (done || lia). set (r := c_rsp ctx - 128) in *. set (z := 16 * (r / 16) - sizeof_sigframe).
  pose proof (Z.div_mod r 16 ltac:(lia)). pose proof (Z.mod_pos_bound r 16 ltac:(lia)).
  pose proof (Z.div_mod z 16 ltac:(lia)). pose proof (Z.mod_pos_bound z 16 ltac:(lia)). unfold mask_ok in Hr.
  split; [lia|]. split; [by rewrite Z.mul_comm, Z.mod_mul|]. rewrite (wrap_small 64 (_ - 8)) by lia. split; [done|].
  replace (16 * (z / 16) - 8) with (8 + (z / 16 - 1) * 16) by lia. by rewrite Z.mod_add.
Qed.

(** The registers a signal frame keeps: the general registers, the stack
    pointer, the instruction pointer and the flags. *)
Definition same_regs (c1 c2 : arch_context) : Prop := saved_regs c1 = saved_regs c2.

(** What [push_handler] does, and that it succeeds. *)
Lemma push_handler_ok k u ctx a t sig sa restorer x p : kt k !! t = Some x → ptab (kp k) !! a = Some p → 1 ≤ sig ≤ 64 →
  ∃ k' u' ctx', push_handler k u ctx a t sig sa restorer = Ok (k', u', ctx') ∧
    kt k' = <[t := with_masked x (let m := Z.lor (masked_signals x) (sa_mask sa) in if sa_nodefer sa then m else Z.setbit m (sig - 1))]> (kt k) ∧
    ks k' = ks k ∧ ptab (kp k') = <[a := with_actions p (<[sig := if sa_resethand sa then SigAction SIG_DFL (sa_nodefer sa) true (sa_mask sa) else sa]> (p_actions p))]> (ptab (kp k)) ∧
    c_rip ctx' = (if sa_resethand sa then SIG_DFL_value else handler_addr (sa_action sa)) ∧ c_rdi ctx' = sig ∧
    c_rsi ctx' = arch_context_alloc_sigframe ctx ∧ c_rsp ctx' = u64 (arch_context_alloc_sigframe ctx - 8) ∧
    words u' !! c_rsp ctx' = Some restorer ∧
    frames u' !! arch_context_alloc_sigframe ctx =
      Some (arch_context_setup_sigframe (SigFrame sig (masked_signals x) (replicate X86_64_CONTEXT_NGREG 0)) ctx).
Proof.
  intros Hx Hp Hs. unfold push_handler, get_proc. rewrite Hx, Hp. mstep. rewrite mask_set_ok by done.
  destruct (sa_nodefer sa) eqn:Hn; mstep; eexists _, _, _; (split; [done|]); cbn; rewrite !lookup_insert_eq, ?Hn; split_and!; try done;
    by destruct (sa_resethand sa).
Qed.

Lemma restore_setup ctx sig m : let f := arch_context_setup_sigframe (SigFrame sig m (replicate X86_64_CONTEXT_NGREG 0)) ctx in
  ∀ u ctx2, frames u !! c_rsp ctx2 = Some f →
  ∃ ctx3, arch_context_restore_sigframe u ctx2 = Ok (f, ctx3) ∧ same_regs ctx3 ctx ∧
    c_cs ctx3 = c_cs ctx2 ∧ c_ss ctx3 = c_ss ctx2 ∧ c_fs ctx3 = c_fs ctx2 ∧ c_gs ctx3 = c_gs ctx2.
Proof. intros f u ctx2 Hf. unfold arch_context_restore_sigframe. rewrite Hf. mstep. eexists. split; [done|]. by split_and!. Qed.

(** The steps of [dispatch] up to the choice of an action. *)
Lemma dispatch_action k u ctx r c t restorer a p x sig : proc_of k t = Ok a → ptab (kp k) !! a = Some p → kt k !! t = Some x →
  com_ipc_signal_check_nolock k t = Ok sig → 1 ≤ sig ≤ 64 →
  com_ipc_signal_dispatch r c k u ctx t restorer =
  (let k := set_kt k t (with_pending x (Z.clearbit (pending_signals x) (sig - 1))) in
   props ← (if bool_decide (from_option sa_action SIG_DFL (p_actions p !! sig) = SIG_DFL) then properties_of sig else Ok 0);
   d ← default_action r c k a t sig props;
   match d, p_actions p !! sig with
   | Some (d, k), _ => Ok (d, k, u, ctx)
   | None, None => Ok (DNothing, k, u, ctx)
   | None, Some sa =>
       if bool_decide (sa_action sa = SIG_IGN) then Ok (DNothing, k, u, ctx)
       else '(k, u, ctx) ← push_handler k u ctx a t sig sa restorer; Ok (DHandler, k, u, ctx)
   end).
Proof.
  intros Ha Hp Hx Hc Hs. unfold com_ipc_signal_dispatch. rewrite Ha. mstep. rewrite Hc. mstep.
  destruct (Z.eqb_spec sig COM_IPC_SIGNAL_NONE) as [->|]; [unfold COM_IPC_SIGNAL_NONE in Hs; lia|]. rewrite Hx. mstep. rewrite mask_unset_ok by done. mstep.
  unfold get_proc. cbn [set_kt kp]. rewrite Hp. by mstep.
Qed.

Lemma dispatch_handler k u ctx r c t restorer a p x sig sa h : proc_of k t = Ok a → ptab (kp k) !! a = Some p → kt k !! t = Some x →
  com_ipc_signal_check_nolock k t = Ok sig → 1 ≤ sig ≤ 64 → p_actions p !! sig = Some sa → sa_action sa = SaHandler h →
  com_ipc_signal_dispatch r c k u ctx t restorer =
    ('(k, u, ctx) ← push_handler (set_kt k t (with_pending x (Z.clearbit (pending_signals x) (sig - 1)))) u ctx a t sig sa restorer;
     Ok (DHandler, k, u, ctx)).
Proof.
  intros Ha Hp Hx Hc Hs Hsa Hh. rewrite (dispatch_action k u ctx r c t restorer a p x sig Ha Hp Hx Hc Hs). cbn zeta. rewrite Hsa. cbn [from_option].
  rewrite Hh, (bool_decide_eq_false_2 (SaHandler h = SIG_DFL)), (bool_decide_eq_false_2 (SaHandler h = SIG_IGN)) by done. mstep. reflexivity.
Qed.

(** C26: The lowest deliverable signal, when it has a handler, enters it: at
    the handler's address, unless the action has SA_RESETHAND: the code resets
    the action before it reads the address, so the address entered is then the
    one that stands for the default action. The signal's number is the
    argument, the address of the restorer is on top of the stack, the signal is
    no longer pending, the signal (unless the action has SA_NODEFER) and the
    action's mask are blocked, and with SA_RESETHAND the process's action for
    the signal is the default one from now on. A handler that returns to the
    restorer, which calls [sigreturn], leaves the thread as if it had never
    run: the registers and the thread's mask are as they were, whatever the
    handler did to its own, as long as it left its frame alone. *)
Theorem handler_sigreturn_roundtrip r c k u ctx a t sig sa h restorer x p :
  proc_of k t = Ok a → kt k !! t = Some x → ptab (kp k) !! a = Some p → com_ipc_signal_check k t = Ok sig → 1 ≤ sig ≤ 64 →
  p_actions p !! sig = Some sa → sa_action sa = SaHandler h →
  ∃ k' u' ctx', com_ipc_signal_dispatch r c k u ctx t restorer = Ok (DHandler, k', u', ctx') ∧
    c_rip ctx' = (if sa_resethand sa then SIG_DFL_value else h) ∧ c_rdi ctx' = sig ∧ words u' !! c_rsp ctx' = Some restorer ∧
    ((λ p, sa_action <$> p_actions p !! sig) <$> ptab (kp k') !! a = Some (Some (if sa_resethand sa then SIG_DFL else SaHandler h))) ∧
    (∃ x', kt k' !! t = Some x' ∧ ∀ s, 1 ≤ s →
       in_mask (pending_signals x') s = in_mask (pending_signals x) s && negb (s =? sig) ∧
       in_mask (masked_signals x') s = in_mask (masked_signals x) s || in_mask (sa_mask sa) s || (negb (sa_nodefer sa) && (s =? sig))) ∧
    ∀ k2 u2 ctx2 x2, kt k2 !! t = Some x2 → frames u2 !! c_rsi ctx' = frames u' !! c_rsi ctx' →
      c_rsp ctx2 = u64 (c_rsp ctx' + 8) →
      ∃ ctx3, com_sys_syscall_sigreturn k2 u2 ctx2 t = Ok (set_kt k2 t (with_masked x2 (masked_signals x)), ctx3) ∧ same_regs ctx3 ctx.
Proof.
  intros Ha Hx Hp Hc Hs Hsa Hh. rewrite (dispatch_handler k u ctx r c t restorer a p x sig sa h Ha Hp Hx Hc Hs Hsa Hh).
  set (x1 := with_pending x _). set (k1 := set_kt k t x1).
  assert (Hx1 : kt k1 !! t = Some x1) by (cbn; by rewrite lookup_insert_eq).
  destruct (push_handler_ok k1 u ctx a t sig sa restorer x1 p Hx1 Hp Hs)
    as (k' & u' & ctx' & -> & Hkt & _ & Hpt & Hrip & Hrdi & Hrsi & Hrsp & Hw & Hf). mstep.
  exists k', u', ctx'. rewrite Hh in Hrip. split_and!; try done.
  - rewrite Hpt, lookup_insert_eq. cbn. rewrite lookup_insert_eq. cbn. by destruct (sa_resethand sa); rewrite ?Hh.
  - eexists. rewrite Hkt, lookup_insert_eq. split; [done|]. intros s H1. unfold in_mask. cbn.
    split; [rewrite Z.clearbit_eqb by lia; f_equal; f_equal; destruct (Z.eqb_spec (sig - 1) (s - 1)), (Z.eqb_spec s sig); lia|].
    destruct (sa_nodefer sa); cbn [negb andb]; [by rewrite Z.lor_spec, orb_false_r|].
    rewrite Z.setbit_eqb, Z.lor_spec by lia. destruct (Z.eqb_spec (sig - 1) (s - 1)), (Z.eqb_spec s sig); try lia; cbn [orb]; by rewrite ?orb_true_r, ?orb_false_r.
  - intros k2 u2 ctx2 x2 Hx2 Hf2 Hsp. rewrite Hrsi, Hf in Hf2. rewrite Hrsp in Hsp.
    replace (u64 (u64 (arch_context_alloc_sigframe ctx - 8) + 8)) with (arch_context_alloc_sigframe ctx) in Hsp.
    2: { rewrite wrap_add_l. replace (arch_context_alloc_sigframe ctx - 8 + 8) with (arch_context_alloc_sigframe ctx) by lia.
      symmetry. apply wrap_small, alloc_sigframe_range. }
    rewrite <- Hsp in Hf2. destruct (restore_setup ctx sig (masked_signals x) u2 ctx2 Hf2) as (ctx3 & Hr & Hsame & _).
    exists ctx3. unfold com_sys_syscall_sigreturn. rewrite Hx2. mstep. rewrite Hr. by mstep.
Qed.

(** With [SA_RESETHAND] the handler is entered at the address that stands for
    the default action. *)
Theorem resethand_enters_default k u ctx a t sig sa restorer x p : kt k !! t = Some x → ptab (kp k) !! a = Some p → 1 ≤ sig ≤ 64 →
  sa_resethand sa = true → ∃ k' u' ctx', push_handler k u ctx a t sig sa restorer = Ok (k', u', ctx') ∧ c_rip ctx' = SIG_DFL_value.
Proof.
  intros Hx Hp Hs Hr. destruct (push_handler_ok k u ctx a t sig sa restorer x p Hx Hp Hs)
    as (k' & u' & ctx' & -> & _ & _ & _ & Hrip & _). rewrite Hr in Hrip. eauto.
Qed.

(** ** Well-formed states *)
Record kern_wf (k : kern) : Prop := {
  kw_sched : sched_wf (ks k);
  kw_procs : procs_wf (kp k);
  kw_threads a p t : ptab (kp k) !! a = Some p → t ∈ p_threads p →
    ∃ th x, Sched.threads (ks k) !! t = Some th ∧ Sched.proc th = Some a ∧ kt k !! t = Some x;
  kw_mask t x : kt k !! t = Some x → mask_ok (pending_signals x) ∧ mask_ok (masked_signals x);
  kw_pending a p : ptab (kp k) !! a = Some p → mask_ok (p_pending p)
}.

(** A thread after a notification of what it sleeps on, if it sleeps. *)
Definition woken (th : com_thread) : com_thread :=
  match waiting_on th with Some _ => with_state (with_waiting_on th None) E_COM_THREAD_STATE_READY | None => th end.

Definition marked (sig : Z) (x : sigthread) : sigthread := with_pending x (Z.setbit (pending_signals x) (sig - 1)).

(** A thread takes a signal that it does not mask, unless its process is
    stopped and the signal does not make it go on. *)
Definition takes (k : kern) (p : com_proc) (sig t : Z) : bool :=
  match kt k !! t with
  | Some x => negb (in_mask (masked_signals x) sig) && ((p_stop p =? COM_IPC_SIGNAL_NONE) || (SIGCONT =? sig))
  | None => false
  end.

Lemma marked_twice sig x : 1 ≤ sig → marked sig (marked sig x) = marked sig x.
Proof.
  intros Hs. unfold marked, with_pending. cbn. f_equal. apply Z.bits_inj'. intros i Hi. rewrite !Z.setbit_eqb by lia. by destruct (sig - 1 =? i).
Qed.

Lemma kern_wf_kt k t x x' : kern_wf k → kt k !! t = Some x → mask_ok (pending_signals x') → mask_ok (masked_signals x') →
  kern_wf (set_kt k t x').
Proof.
  intros H Hx Hp Hm. split; cbn [set_kt ks kp kt]; try apply H.
  - intros a p u Ha Hu. destruct (kw_threads _ H a p u Ha Hu) as (th & y & ? & ? & Hy). destruct (decide (u = t)) as [->|].
    + exists th, x'. by rewrite lookup_insert_eq.
    + exists th, y. by rewrite lookup_insert_ne.
  - intros u y [[<- <-]|[_ Hy]]%lookup_insert_Some; [done|by apply (kw_mask _ H u)].
Qed.

Lemma kern_wf_ks k s : kern_wf k → sched_wf s → (∀ t th, Sched.threads (ks k) !! t = Some th → ∃ th', Sched.threads s !! t = Some th' ∧ Sched.proc th' = Sched.proc th) →
  kern_wf (set_ks k s).
Proof.
  intros H Hs Ht. split; cbn [set_ks ks kp kt]; try apply H; [done|].
  intros a p u Ha Hu. destruct (kw_threads _ H a p u Ha Hu) as (th & y & Hth & Hp & ?). destruct (Ht u th Hth) as (th' & ? & E).
  exists th', y. by rewrite E.
Qed.

Lemma kern_wf_proc k a p p' : kern_wf k → ptab (kp k) !! a = Some p → p_pid p' = p_pid p → p_group p' = p_group p → p_ref p' = p_ref p →
  (∀ t, t ∈ p_threads p' → t ∈ p_threads p) → mask_ok (p_pending p') → kern_wf (put_proc k a p').
Proof.
  intros H Ha Hpid Hg Hr Hth Hm. pose proof (kw_procs _ H) as Hw. destruct (w_tab _ _ Hw a p Ha) as [Hr0 _].
  split; cbn [put_proc set_kp set_proc ptab ks kp kt]; try apply H.
  - apply (wf_set_proc _ _ _ p); rewrite ?Hr; done.
  - intros b q u [[<- <-]|[_ Hb]]%lookup_insert_Some Hu; [apply (kw_threads _ H a p); auto|by apply (kw_threads _ H b q)].
  - intros b q [[<- <-]|[_ Hb]]%lookup_insert_Some; [done|by apply (kw_pending _ H b)].
Qed.

(** A sleeping thread is on the list it waits for. *)
Lemma waiting_state s t th w : sched_wf s → Sched.threads s !! t = Some th → waiting_on th = Some w → state th = E_COM_THREAD_STATE_WAITING.
Proof.
  intros H Ht Hw. destruct (wf_waiting _ _ _ _ H t th w Ht Hw) as (q & Hq & Hin); [apply not_elem_of_nil|].
  destruct (wf_wait _ _ _ _ H w q t Hq Hin) as (a & Ha & Hst & _). congruence.
Qed.

(** ** Sending *)
Lemma send_to_thread_ok r c k a p t sig th x : kern_wf k → is_Some (cpus (ks k) !! r) → ptab (kp k) !! a = Some p → t ∈ p_threads p →
  1 ≤ sig ≤ 64 → Sched.threads (ks k) !! t = Some th → kt k !! t = Some x →
  ∃ st k', send_to_thread r c k t sig = Ok (st, k') ∧ kern_wf k' ∧ (st =? 0) = takes k p sig t ∧ kp k' = kp k ∧
    kt k' = <[t := marked sig x]> (kt k) ∧
    (if takes k p sig t then Sched.threads (ks k') = <[t := woken th]> (Sched.threads (ks k)) else ks k' = ks k) ∧
    (∀ d, is_Some (cpus (ks k') !! d) ↔ is_Some (cpus (ks k) !! d)).
Proof.
  intros H Hr Ha Hin Hs Hth Hx. destruct (kw_threads _ H a p t Ha Hin) as (th' & x' & Hth' & Hproc & _).
  assert (th' = th) as -> by congruence. destruct (kw_mask _ H t x Hx) as [Hm1 Hm2].
  unfold takes. rewrite Hx. unfold send_to_thread. rewrite Hx. mstep. rewrite mask_set_ok by done. mstep. rewrite mask_isset_ok by done. mstep.
  fold (marked sig x). assert (H1 : kern_wf (set_kt k t (marked sig x))).
  { apply (kern_wf_kt k t x); try done. apply mask_ok_set; [done|lia]. }
  destruct (in_mask (masked_signals x) sig); cbn [negb andb].
  { eexists _, _. split; [done|]. by split_and!. }
  unfold proc_of, get_proc. cbn [set_kt ks kp]. rewrite Hth. mstep. rewrite Hproc. mstep. rewrite Ha. mstep.
  assert (Hb : negb (p_stop p =? COM_IPC_SIGNAL_NONE) && negb (SIGCONT =? sig) = negb ((p_stop p =? COM_IPC_SIGNAL_NONE) || (SIGCONT =? sig))) by (by rewrite negb_orb).
  rewrite Hb. destruct ((p_stop p =? COM_IPC_SIGNAL_NONE) || (SIGCONT =? sig)); cbn [negb].
  2: { eexists _, _. split; [done|]. by split_and!. }
  mstep. assert (Hsame : ∀ b, waiting_on th = None → Ok (0, set_kt k t (marked sig x)) = b →
    ∃ st k', b = Ok (st, k') ∧ kern_wf k' ∧ (st =? 0) = true ∧ kp k' = kp k ∧ kt k' = <[t := marked sig x]> (kt k) ∧
    Sched.threads (ks k') = <[t := woken th]> (Sched.threads (ks k)) ∧ (∀ d, is_Some (cpus (ks k') !! d) ↔ is_Some (cpus (ks k) !! d))).
  { intros b Hw <-. eexists _, _. split; [done|]. split_and!; try done. cbn. unfold woken. by rewrite Hw, insert_id. }
  assert (Hnw : state th ≠ E_COM_THREAD_STATE_WAITING → waiting_on th = None).
  { intros Hne. destruct (waiting_on th) as [w|] eqn:Hw; [|done]. by rewrite (waiting_state _ t th w (kw_sched _ H)) in Hne. }
  destruct (state th) eqn:Hst; try (apply Hsame; [by apply Hnw|done]).
  - destruct (notify_thread_ok (ks k) r t th (kw_sched _ H) Hr Hth) as (s' & -> & Hw & Ht' & Hc & _). mstep.
    assert (Et : Sched.threads s' = <[t := woken th]> (Sched.threads (ks k))).
    { rewrite Ht'. unfold woken. destruct (waiting_on th); [done|by rewrite insert_id]. }
    eexists _, _. split; [done|]. split_and!; try done. apply (kern_wf_ks (set_kt k t (marked sig x))); [done..|].
    cbn [set_kt ks]. intros u b Hu. rewrite Et. destruct (decide (u = t)) as [->|]; [|exists b; by rewrite lookup_insert_ne].
    eexists. rewrite lookup_insert_eq. split; [done|]. assert (b = th) as -> by congruence. unfold woken. by destruct (waiting_on th).
  - destruct (wf_running _ _ _ _ (kw_sched _ H) t th Hth Hst) as (d & y & Hy & Hcur).
    destruct (wf_cur _ _ _ _ (kw_sched _ H) d y t Hy Hcur) as (b & Hb' & Hcpu & _). assert (b = th) as -> by congruence.
    case_bool_decide; [apply Hsame; [by apply Hnw|done]|]. rewrite Hcpu. mstep. rewrite Hy. mstep. rewrite bool_decide_eq_true_2 by done. mstep.
    apply Hsame; [by apply Hnw|done].
Qed.


Lemma find_same {A} (f g : A → bool) l : (∀ a, f a = g a) → find f l = find g l.
Proof. intros H. induction l as [|a l IH]; [done|]. cbn [find]. by rewrite H, IH. Qed.

Lemma takes_marked k k' p sig : (∀ u, kt k' !! u = kt k !! u ∨ kt k' !! u = marked sig <$> kt k !! u) →
  ∀ u, takes k' p sig u = takes k p sig u.
Proof. intros H u. unfold takes. destruct (H u) as [->| ->]; [done|]. by destruct (kt k !! u). Qed.

Lemma send_loop_ok r c a p sig ts k : kern_wf k → is_Some (cpus (ks k) !! r) → ptab (kp k) !! a = Some p → (∀ t, t ∈ ts → t ∈ p_threads p) →
  1 ≤ sig ≤ 64 →
  ∃ k', send_loop r c k ts sig = Ok (bool_decide (is_Some (find (takes k p sig) ts)), k') ∧ kern_wf k' ∧ kp k' = kp k ∧
    (∀ d, is_Some (cpus (ks k') !! d) ↔ is_Some (cpus (ks k) !! d)) ∧
    (∀ u, kt k' !! u = kt k !! u ∨ kt k' !! u = marked sig <$> kt k !! u) ∧
    match find (takes k p sig) ts with
    | Some u => ∃ x th, kt k !! u = Some x ∧ kt k' !! u = Some (marked sig x) ∧ Sched.threads (ks k) !! u = Some th ∧
        Sched.threads (ks k') = <[u := woken th]> (Sched.threads (ks k))
    | None => ks k' = ks k
    end.
Proof.
  intros H Hr Ha. revert k H Hr Ha. induction ts as [|t ts IH]; intros k H Hr Ha Hin Hs.
  { exists k. split_and!; try done. intros u. by left. }
  destruct (kw_threads _ H a p t Ha (Hin t (list_elem_of_here _ _))) as (th & x & Hth & _ & Hx).
  destruct (send_to_thread_ok r c k a p t sig th x H Hr Ha (Hin t (list_elem_of_here _ _)) Hs Hth Hx) as (st & k1 & Hrun & H1 & Hst & Hk1 & Hkt & Hks & Hc).
  assert (Hm : ∀ u, kt k1 !! u = kt k !! u ∨ kt k1 !! u = marked sig <$> kt k !! u).
  { intros u. rewrite Hkt. destruct (decide (u = t)) as [->|]; [right; by rewrite lookup_insert_eq, Hx|left; by rewrite lookup_insert_ne]. }
  cbn [send_loop find]. rewrite Hrun. mstep. rewrite Hst. destruct (takes k p sig t) eqn:Htk.
  - exists k1. split_and!; try done. exists x, th. split_and!; try done. by rewrite Hkt, lookup_insert_eq.
  - destruct (IH k1 H1) as (k2 & Hrun2 & H2 & Hk2 & Hc2 & Hm2 & Hf); [by apply Hc|by rewrite Hk1|intros u Hu; apply Hin; by right|done|].
    rewrite (find_same _ _ ts (takes_marked k k1 p sig Hm)) in Hrun2, Hf. exists k2. rewrite Hrun2, Hk2, Hk1.
    split_and!; try done; [intros d; by rewrite Hc2|..].
    + intros u. destruct (Hm2 u) as [-> | ->], (Hm u) as [-> | ->]; try (by left); try (by right). right. destruct (kt k !! u); [|done]. cbn. f_equal. apply marked_twice. lia.
    + destruct (find (takes k p sig) ts) as [u|]; [|congruence]. destruct Hf as (y & b & Hy & Hy2 & Hb & Hb2).
      rewrite Hks in Hb, Hb2. destruct (Hm u) as [E|E]; rewrite E in Hy.
      * exists y, b. done.
      * destruct (kt k !! u) as [z|] eqn:Hz; [|done]. injection Hy as <-. exists z, b. split_and!; try done. rewrite Hy2. f_equal. apply marked_twice. lia.
Qed.

Lemma send_to_proc_ok r c k a p sig : kern_wf k → is_Some (cpus (ks k) !! r) → ptab (kp k) !! a = Some p → p_exited p = false → 1 ≤ sig ≤ 64 →
  ∃ k', send_to_proc r c k (Some a) sig = Ok (E0, k') ∧ kern_wf k' ∧
    (∀ d, is_Some (cpus (ks k') !! d) ↔ is_Some (cpus (ks k) !! d)) ∧
    (∀ u, kt k' !! u = kt k !! u ∨ kt k' !! u = marked sig <$> kt k !! u) ∧
    match find (takes k p sig) (p_threads p) with
    | Some u => kp k' = kp k ∧ ∃ x th, kt k !! u = Some x ∧ kt k' !! u = Some (marked sig x) ∧ Sched.threads (ks k) !! u = Some th ∧
        Sched.threads (ks k') = <[u := woken th]> (Sched.threads (ks k))
    | None => ks k' = ks k ∧ kp k' = set_proc (kp k) a (with_proc_pending p (Z.setbit (p_pending p) (sig - 1)))
    end.
Proof.
  intros H Hr Ha He Hs. unfold send_to_proc, get_proc. rewrite Ha. mstep. rewrite He.
  destruct (send_loop_ok r c a p sig (p_threads p) k H Hr Ha ltac:(done) Hs) as (k1 & -> & H1 & Hk1 & Hc & Hm & Hf). mstep.
  destruct (find (takes k p sig) (p_threads p)) as [u|].
  - rewrite bool_decide_eq_true_2 by eauto. exists k1. split_and!; done.
  - rewrite bool_decide_eq_false_2 by (intros [? ?]; done). rewrite Hk1, Ha. mstep. rewrite mask_set_ok by done. mstep.
    eexists. split; [done|]. split_and!; try done.
    + apply (kern_wf_proc k1 a p); rewrite ?Hk1; try done. apply mask_ok_set; [by apply (kw_pending _ H a)|lia].
    + cbn. by rewrite Hk1.
Qed.

(** A process that only has another count of references and other pending
    signals. *)
Definition only_ref_pending (q q' : com_proc) : Prop :=
  q' = with_proc_pending (with_ref q (p_ref q')) (p_pending q') ∧ p_ref q ≤ p_ref q' ≤ p_ref q + 1.

Lemma only_ref_pending_refl q : only_ref_pending q q.
Proof. split; [by destruct q|lia]. Qed.

(** What became of a signal sent to process [a]. *)
Definition delivered (k k' : kern) (a : Z) (p : com_proc) (sig : Z) : Prop :=
  match find (takes k p sig) (p_threads p) with
  | Some u => ∃ x th, kt k !! u = Some x ∧ kt k' !! u = Some (marked sig x) ∧ Sched.threads (ks k) !! u = Some th ∧
      Sched.threads (ks k') = <[u := woken th]> (Sched.threads (ks k))
  | None => ks k' = ks k ∧ ∃ p', ptab (kp k') !! a = Some p' ∧ in_mask (p_pending p') sig = true
  end.

Lemma send_by_pid_ok r c k pid sig : kern_wf k → refs_small (kp k) → is_Some (cpus (ks k) !! r) → 1 ≤ sig < 64 →
  ∃ e k', com_ipc_signal_send_to_proc r c k pid sig = Ok (e, k') ∧ kern_wf k' ∧
    (∀ d, is_Some (cpus (ks k') !! d) ↔ is_Some (cpus (ks k) !! d)) ∧
    (∀ b q, ptab (kp k) !! b = Some q → ∃ q', ptab (kp k') !! b = Some q' ∧ only_ref_pending q q') ∧
    ∀ a p, 1 ≤ pid ≤ CONFIG_PROC_MAX → Processes (kp k) !! (pid - 1) = Some a → ptab (kp k) !! a = Some p →
      (p_ref <$> ptab (kp k') !! a) = Some (p_ref p + 1) ∧ (p_exited p = false → e = E0 ∧ delivered k k' a p sig).
Proof.
  intros H Hrs Hr Hs. unfold com_ipc_signal_send_to_proc, IS_VALID_SIGNAL. destruct (Z.ltb_spec 0 sig); [|lia]. destruct (Z.ltb_spec sig 64); [|lia]. cbn [andb negb].
  destruct (get_by_pid_ok (kp k) pid (kw_procs _ H) Hrs) as [Hg|(b & p & Hb & Hp & Hpid & Hr0 & Hg & Hw)]; rewrite Hg; mstep.
  { exists ESRCH, k. split; [by destruct k|]. split; [done|]. split; [done|]. split.
    - intros b q Hq. exists q. split; [done|apply only_ref_pending_refl].
    - intros a p Hpr Hpid Ha. exfalso. unfold com_sys_proc_get_by_pid in Hg. destruct (Z.ltb_spec CONFIG_PROC_MAX pid); [lia|].
      destruct (Z.ltb_spec pid 1); [lia|]. cbn [orb] in Hg. rewrite Hpid in Hg. by destruct (COM_SYS_PROC_HOLD (kp k) a). }
  set (p1 := with_ref p (p_ref p + 1)) in *. set (k1 := set_kp k (set_proc (kp k) b p1)).
  assert (Hkw : kern_wf k1).
  { split; unfold k1; cbn [set_kp set_proc ptab ks kp kt]; try apply H; [exact Hw|..].
    - intros a q u [[<- <-]|[_ Hb']]%lookup_insert_Some Hu; [by apply (kw_threads _ H b p)|by apply (kw_threads _ H a q)].
    - intros a q [[<- <-]|[_ Hb']]%lookup_insert_Some; [by apply (kw_pending _ H b p)|by apply (kw_pending _ H a)]. }
  assert (Hp1 : ptab (kp k1) !! b = Some p1) by (cbn; by rewrite lookup_insert_eq).
  assert (Hbits : ∀ m, in_mask (Z.setbit m (sig - 1)) sig = true) by (intros m; unfold in_mask; apply Z.setbit_eq; lia).
  assert (Hone : only_ref_pending p p1) by (split; [by destruct p|cbn; lia]).
  assert (Hrest : ∀ m, only_ref_pending p (with_proc_pending p1 m)) by (intros m; split; [done|cbn; lia]).
  destruct (p_exited p) eqn:He.
  { exists ESRCH, k1. split; [unfold send_to_proc, get_proc; rewrite Hp1; mstep; by cbn [p1 with_ref p_exited]; rewrite He|].
    split; [done|]. split; [done|]. split.
    - intros a q Ha. cbn. destruct (decide (a = b)) as [->|]; [rewrite lookup_insert_eq; exists p1; split; [done|by simplify_eq]|].
      rewrite lookup_insert_ne by done. exists q. split; [done|apply only_ref_pending_refl].
    - intros a q _ Ha Hq. assert (a = b) as -> by congruence. rewrite Hp1. cbn. split; [f_equal; f_equal; congruence|congruence]. }
  destruct (send_to_proc_ok r c k1 b p1 sig Hkw Hr Hp1 He ltac:(lia)) as (k' & -> & H' & Hc & _ & Hf).
  exists E0, k'. split; [done|]. split; [done|]. split; [done|].
  change (find (takes k1 p1 sig) (p_threads p1)) with (find (takes k p sig) (p_threads p)) in Hf. unfold delivered.
  split.
  - intros a q Ha. assert (Hne : a ≠ b → ptab (kp k1) !! a = Some q) by (intros; cbn; by rewrite lookup_insert_ne).
    destruct (find (takes k p sig) (p_threads p)) as [u|].
    + destruct Hf as [-> _]. destruct (decide (a = b)) as [->|]; [exists p1; split; [done|by simplify_eq]|].
      exists q. split; [by apply Hne|apply only_ref_pending_refl].
    + destruct Hf as [_ ->]. cbn [set_proc ptab]. destruct (decide (a = b)) as [->|].
      * eexists. rewrite lookup_insert_eq. split; [done|]. simplify_eq. apply Hrest.
      * rewrite lookup_insert_ne by done. exists q. split; [by apply Hne|apply only_ref_pending_refl].
  - intros a q _ Ha Hq. assert (a = b) as -> by congruence. assert (q = p) as -> by congruence.
    destruct (find (takes k p sig) (p_threads p)) as [u|].
    + destruct Hf as (-> & x & th & Hx & Hx' & Hth & Hth'). split; [by rewrite Hp1|]. intros _. split; [done|]. exists x, th. done.
    + destruct Hf as (E1 & ->). cbn [set_proc ptab]. rewrite lookup_insert_eq. split; [done|]. intros _. split; [done|]. split; [done|]. eexists. split; [done|]. apply Hbits.
Qed.

(** C25: [kill] of a process that exists and has not exited: the first of its
    threads that does not mask the signal has it pending afterwards, and is
    made ready if it slept; when all mask it, or the process is stopped, it is
    pending for the process. The state stays well formed, and no other thread
    is moved. The reference the look-up takes is kept. *)
Theorem kill_delivers r c k t self a p sig : kern_wf k → refs_small (kp k) → is_Some (cpus (ks k) !! r) → proc_of k t = Ok self →
  Processes (kp k) !! (p_pid p - 1) = Some a → ptab (kp k) !! a = Some p → p_pid p ≤ CONFIG_PROC_MAX → p_exited p = false → 1 ≤ sig < 64 →
  ∃ k', com_sys_syscall_kill r c k t (p_pid p) sig = Ok (0, E0, k') ∧ kern_wf k' ∧
    (p_ref <$> ptab (kp k') !! a) = Some (p_ref p + 1) ∧ delivered k k' a p sig.
Proof.
  intros H Hrs Hr Hself Hpid Ha Hmax He Hs. destruct (w_pid _ _ (kw_procs _ H) _ a Hpid) as (q & Hq & _ & Hrange). assert (q = p) as -> by congruence.
  unfold com_sys_syscall_kill. rewrite Hself. mstep. destruct (Z.eqb_spec (p_pid p) 0); [lia|]. mstep. destruct (Z.eqb_spec (p_pid p) (-1)); [lia|].
  destruct (Z.eqb_spec sig 0); [lia|]. destruct (Z.ltb_spec 0 (p_pid p)); [|lia].
  destruct (send_by_pid_ok r c k (p_pid p) sig H Hrs Hr Hs) as (e & k' & -> & H' & _ & _ & Hd). mstep.
  destruct (Hd a p) as (Href & Hd2); [lia|done|done|]. destruct (Hd2 He) as [-> ?]. exists k'. by split_and!.
Qed.

(** ** What making threads ready leaves alone *)
Record calm (s s' : sched) : Prop := {
  calm_threads t th : Sched.threads s !! t = Some th → ∃ th', Sched.threads s' !! t = Some th' ∧ Sched.proc th' = Sched.proc th;
  calm_cpus c x : cpus s !! c = Some x → ∃ x', cpus s' !! c = Some x' ∧ cur_thread x' = cur_thread x ∧ idle_thread x' = idle_thread x;
  calm_empty w : waitlists s !! w = Some [] → waitlists s' !! w = Some []
}.

#[local] Instance calm_preorder : PreOrder calm.
Proof.
  split.
  - intros s. split; eauto.
  - intros s1 s2 s3 H1 H2. split.
    + intros t th Ht. destruct (calm_threads _ _ H1 t th Ht) as (a & Ha & E1), (calm_threads _ _ H2 t a Ha) as (b & Hb & E2). exists b. by rewrite E2, E1.
    + intros c x Hx. destruct (calm_cpus _ _ H1 c x Hx) as (y & Hy & E1 & E2), (calm_cpus _ _ H2 c y Hy) as (z & Hz & E3 & E4).
      exists z. by rewrite E3, E4, E1, E2.
    + intros w Hw. by apply (calm_empty _ _ H2), (calm_empty _ _ H1).
Qed.

Lemma calm_ready r s t s' : com_sys_thread_ready_nolock r s t = Ok s' → calm s s'.
Proof.
  intros H. unfold com_sys_thread_ready_nolock, com_sys_thread_transition_nolock in H. inv_res.
  repeat match goal with H : _ = Ok _ |- _ => progress inv_res end. cbn [set_thread set_cpu Sched.threads waitlists cpus] in *.
  split; cbn [set_thread set_cpu Sched.threads waitlists cpus]; [| |done].
  - intros u a Hu. rewrite insert_insert_eq. destruct (decide (u = t)) as [->|]; [|exists a; by rewrite lookup_insert_ne].
    eexists. rewrite lookup_insert_eq. split; [done|]. rewrite lookup_insert_eq in *. simplify_eq. done.
  - intros c y Hy. match goal with |- context [<[?d := ?z]> (cpus s)] => destruct (decide (c = d)) as [->|] end; [|exists y; by rewrite lookup_insert_ne].
    eexists. rewrite lookup_insert_eq. split; [done|]. simplify_eq. done.
Qed.

Lemma calm_ready_all r ts s s' : ready_all r s ts = Ok s' → calm s s'.
Proof.
  revert s. induction ts as [|t ts IH]; intros s H; cbn [ready_all] in H; [injection H as <-; reflexivity|].
  inv_res. etransitivity; [by eapply calm_ready|by apply IH].
Qed.

Lemma calm_waitlist s w q q' : waitlists s !! w = Some q → (q = [] → q' = []) → calm s (set_waitlist s w q').
Proof.
  intros Hq E. split; [eauto..|]. intros v Hv. cbn. destruct (decide (v = w)) as [->|]; [|by rewrite lookup_insert_ne].
  rewrite lookup_insert_eq. f_equal. apply E. congruence.
Qed.

Lemma calm_notify_all r s w s' : com_sys_sched_notify_all r s w = Ok s' → calm s s' ∧ waitlists s' !! w = Some [].
Proof.
  intros H. unfold com_sys_sched_notify_all in H. inv_res.
  assert (Hc : calm (set_waitlist s w []) s') by (by eapply calm_ready_all). split.
  - etransitivity; [by eapply calm_waitlist|done].
  - apply (calm_empty _ _ Hc). cbn. by rewrite lookup_insert_eq.
Qed.

Lemma calm_notify_thread r s t s' : com_sys_sched_notify_thread_nolock r s t = Ok s' → calm s s'.
Proof.
  intros H. unfold com_sys_sched_notify_thread_nolock in H. inv_res. destruct (waiting_on x) as [w|]; inv_res; [|reflexivity].
  etransitivity; [|by eapply calm_ready]. eapply calm_waitlist; [done|]. intros ->. done.
Qed.

Lemma calm_send r c k t sig st k' : send_to_thread r c k t sig = Ok (st, k') → calm (ks k) (ks k').
Proof.
  intros H. unfold send_to_thread in H. inv_res. destruct x1; inv_res; [reflexivity|].
  match type of H with context [if ?b then _ else _] => destruct b end; inv_res; [reflexivity|].
  match type of H with context [match ?b with _ => _ end] => destruct b end; inv_res; try reflexivity.
  - match goal with H : com_sys_sched_notify_thread_nolock _ _ _ = _ |- _ => by apply calm_notify_thread in H end.
  - case_bool_decide; inv_res; reflexivity.
Qed.

Lemma calm_send_loop r c ts sig k b k' : send_loop r c k ts sig = Ok (b, k') → calm (ks k) (ks k').
Proof.
  revert k. induction ts as [|t ts IH]; intros k H; cbn [send_loop] in H; inv_res; [reflexivity|]. destruct x as [st k1].
  match goal with H : send_to_thread _ _ _ _ _ = _ |- _ => apply calm_send in H end. destruct (st =? 0); inv_res; [done|].
  etransitivity; [done|by apply IH].
Qed.

Lemma calm_send_proc r c k a sig e k' : send_to_proc r c k a sig = Ok (e, k') → calm (ks k) (ks k').
Proof.
  intros H. destruct a as [a|]; cbn [send_to_proc] in H; inv_res; [|reflexivity]. destruct (p_exited x); inv_res; [reflexivity|].
  destruct x0 as [b k1]. match goal with H : send_loop _ _ _ _ _ = _ |- _ => apply calm_send_loop in H end. destruct b; inv_res; done.
Qed.

Lemma runs_on_calm s s' c t : calm s s' → sched_wf s' → runs_on s c t → runs_on s' c t.
Proof.
  intros H Hw (x & Hx & Hcur & Hi). destruct (calm_cpus _ _ H c x Hx) as (x' & Hx' & E1 & E2). exists x'. split; [done|]. rewrite E1, E2. done.
Qed.


(** ** Ends *)
Lemma kern_wf_calm k s : kern_wf k → sched_wf s → calm (ks k) s → kern_wf (set_ks k s).
Proof. intros H Hs Hc. apply kern_wf_ks; [done..|]. apply Hc. Qed.

(** A thread with a signal to handle does not wait. *)
Lemma waitpid_interrupted nohang k t curr towait x sig : kt k !! t = Some x → mask_ok (pending_signals x) → 1 ≤ sig → deliverable x sig = true →
  waitpid_turn nohang k t curr towait = Ok (Some (-1, EINTR, None), k).
Proof.
  intros Hx Hm Hs Hd. unfold waitpid_turn. destruct (check_ok k t x Hx Hm) as (sg & -> & Hcr). mstep.
  assert (sg ≠ COM_IPC_SIGNAL_NONE); [|by destruct (Z.eqb_spec sg COM_IPC_SIGNAL_NONE)].
  destruct Hcr as [[_ Hno]|[? _]]; [|unfold COM_IPC_SIGNAL_NONE; lia]. by rewrite (Hno sig Hs) in Hd.
Qed.

(** C27: The last thread of a process that calls [exit]: the process has exited
    with the status, has no threads, and nothing sleeps on it any more; its
    parent has [SIGCHLD]; scheduler and process table stay well formed. After
    that [waitpid] gives the status, and gives [EINTR] to a thread that does
    not mask [SIGCHLD] and is the first of its process. *)
Theorem exit_then_waitpid r c k t status a p th : kern_wf k → refs_small (kp k) → is_Some (cpus (ks k) !! r) → runs_on (ks k) c t →
  1 ≤ SIGCHLD < 64 → Sched.threads (ks k) !! t = Some th → Sched.proc th = Some a → ptab (kp k) !! a = Some p → p_threads p = [t] →
  p_ref p ≠ 0 → p_stop p = COM_IPC_SIGNAL_NONE → num_running_threads (ks k) !! a = Some 1 → is_Some (waitlists (ks k) !! waitpid_waitlist a) →
  ∃ k' p', com_sys_syscall_exit r c k t status = Ok k' ∧ sched_wf (ks k') ∧ procs_wf (kp k') ∧ ptab (kp k') !! a = Some p' ∧
    p_exited p' = true ∧ p_threads p' = [] ∧
    (∀ nohang tw curr, com_ipc_signal_check k' tw = Ok COM_IPC_SIGNAL_NONE →
       ∃ k2, waitpid_turn nohang k' tw curr a = Ok (Some (p_pid p, E0, Some (Z.shiftl (Z.land status 0xff) 8)), k2)) ∧
    (∀ b q tw, Processes (kp k) !! (p_parent p - 1) = Some b → ptab (kp k) !! b = Some q → b ≠ a → p_exited q = false →
       1 ≤ p_parent p ≤ CONFIG_PROC_MAX → find (takes k q SIGCHLD) (p_threads q) = Some tw →
       ∀ nohang curr, waitpid_turn nohang k' tw curr a = Ok (Some (-1, EINTR, None), k')).
Proof.
  intros H Hrs Hr Hon Hsig Hth Hpr Ha Hts Hr0 Hstop Hnum Hwl.
  unfold com_sys_syscall_exit, com_sys_proc_terminate, com_sys_proc_kill_other_threads_nolock, proc_of, get_proc.
  rewrite Hth. mstep. rewrite Hpr. mstep. rewrite Ha. mstep. rewrite Hts. cbn [kill_loop].
  destruct (kw_threads _ H a p t Ha) as (th' & x & _ & _ & Hx); [rewrite Hts; by left|]. rewrite Hx. mstep. rewrite Z.eqb_refl. mstep.
  unfold com_sys_proc_exit, get_proc. rewrite Hnum. cbn [default from_option id Z.eqb Pos.eqb]. mstep. rewrite Ha. mstep.
  set (k1 := put_proc k a (with_exit p status)).
  assert (H1 : kern_wf k1) by (apply (kern_wf_proc k a p); try done; exact (kw_pending _ H a p Ha)).
  destruct Hwl as [q Hq]. destruct (notify_n_wf (ks k1) r (waitpid_waitlist a) (length q) (kw_sched _ H1) Hr) as (s2 & Hn & Hs2); [by exists q|].
  rewrite <- notify_all_is_notify_n in Hn by done. rewrite Hn. mstep. destruct (calm_notify_all _ _ _ _ Hn) as [Hc2 _].
  set (k2 := set_ks k1 s2). assert (H2 : kern_wf k2) by (by apply kern_wf_calm).
  assert (Hpt : ptab (kp k2) = <[a := with_exit p status]> (ptab (kp k))) by done.
  assert (Hrs2 : refs_small (kp k2)).
  { intros b r0. rewrite Hpt. intros [[<- <-]|[_ Hb]]%lookup_insert_Some; [exact (Hrs a p Ha)|exact (Hrs b r0 Hb)]. }
  assert (Hr2 : is_Some (cpus (ks k2) !! r)) by (destruct Hr as [y Hy]; destruct (calm_cpus _ _ Hc2 r y Hy) as (y' & ? & _); eauto).
  destruct (send_by_pid_ok r c k2 (p_parent p) SIGCHLD H2 Hrs2 Hr2 Hsig) as (e & k3 & Hsend & H3 & _ & Hp3 & Hd). cbn [with_exit p_parent].
  rewrite Hsend. mstep. destruct (Hp3 a (with_exit p status)) as (p3 & Ha3 & Hone); [by rewrite Hpt, lookup_insert_eq|].
  destruct Hone as [Hone Href]. cbn [with_exit p_ref] in Href. unfold remove_thread, com_sys_proc_remove_thread_nolock. rewrite Ha3. mstep.
  assert (p_threads p3 = [t]) as -> by (by rewrite Hone). cbn [TAILQ_REMOVE]. rewrite Z.eqb_refl. mstep.
  set (p4 := with_threads p3 []). set (k4 := set_kp k3 (set_proc (kp k3) a p4)).
  assert (H4 : kern_wf k4).
  { apply (kern_wf_proc k3 a p3); try done; [by intros u ?%elem_of_nil|exact (kw_pending _ H3 a p3 Ha3)]. }
  assert (Hc3 : calm (ks k2) (ks k3)).
  { unfold com_ipc_signal_send_to_proc in Hsend. destruct (negb (IS_VALID_SIGNAL SIGCHLD)); inv_res; [reflexivity|]. destruct x0 as [o s]. by apply calm_send_proc in Hsend. }
  destruct (exit_wf (ks k4) c t (kw_sched _ H4)) as (s5 & -> & Hs5).
  { apply (runs_on_calm (ks k)); [by etransitivity|apply H4|done]. }
  mstep. assert (Ha4 : ptab (kp k4) !! a = Some p4) by (cbn; by rewrite lookup_insert_eq). assert (Hkt4 : kt k4 = kt k3) by done. clearbody k4.
  exists (set_ks k4 s5), p4. cbn [set_ks ks kp kt].
  split; [done|]. split; [done|]. split; [apply (kw_procs _ H4)|]. split; [done|]. split; [by cbn; rewrite Hone|]. split; [done|]. split.
  - intros nohang tw curr Hck. unfold waitpid_turn. unfold com_ipc_signal_check in Hck. rewrite Hck. mstep. cbn [Z.eqb Pos.eqb negb].
    unfold get_proc. cbn [set_ks kp]. rewrite Ha4. mstep.
    assert (p_exited p4 = true) as -> by (cbn; by rewrite Hone). assert (p_stop p4 = COM_IPC_SIGNAL_NONE) as -> by (cbn; by rewrite Hone).
    rewrite Z.eqb_refl. cbn [negb].
    destruct (w_tab _ _ (kw_procs _ H) a p Ha) as [Hp0 _].
    destruct (proc_release_ok (kp k4) a p4 (kw_procs _ H4)) as (s6 & Hrel & _ & _); [done|cbn; lia| |].
    { pose proof (Hrs a p Ha). cbn. lia. }
    rewrite Hrel. mstep. eexists. do 2 f_equal. cbn. by rewrite Hone.
  - intros b q0 tw Hb Hqb Hne Hex Hpar Hf nohang curr.
    destruct (Hd b q0) as (_ & Hd2); [lia|done|by rewrite Hpt, lookup_insert_ne|]. destruct (Hd2 Hex) as [_ Hdel]. unfold delivered in Hdel.
    change (find (takes k2 q0 SIGCHLD) (p_threads q0)) with (find (takes k q0 SIGCHLD) (p_threads q0)) in Hdel. rewrite Hf in Hdel.
    destruct Hdel as (y & th2 & Hy & Hy3 & _). apply (waitpid_interrupted nohang _ tw curr a (marked SIGCHLD y) SIGCHLD); cbn [set_ks kt]; [by rewrite Hkt4|by apply (kw_mask _ H3 tw)|lia|].
    apply find_some in Hf as [_ Htk]. unfold takes in Htk. change (kt k2 !! tw) with (kt k !! tw) in Hy. rewrite Hy in Htk.
    apply andb_true_iff in Htk as [Hnm _]. unfold deliverable. cbn [marked with_pending pending_signals masked_signals].
    rewrite Hnm, andb_true_r. apply Z.setbit_eq. lia.
Qed.

End signals.

(** ** The numbers of Linux and a small system *)
#[export] Instance linux_signals : signal_env := {|
  SIGHUP := 1; SIGINT := 2; SIGQUIT := 3; SIGILL := 4; SIGTRAP := 5; SIGABRT := 6; SIGFPE := 8; SIGKILL := 9;
  SIGBUS := 7; SIGSEGV := 11; SIGSYS := 31; SIGPIPE := 13; SIGALRM := 14; SIGTERM := 15; SIGURG := 23; SIGSTOP := 19;
  SIGTSTP := 20; SIGCONT := 18; SIGCHLD := 17; SIGTTIN := 21; SIGTTOU := 22; SIGIO := 29; SIGXCPU := 24; SIGXFSZ := 25;
  SIGVTALRM := 26; SIGPROF := 27; SIGWINCH := 28; SIGUSR1 := 10; SIGUSR2 := 12; NSIG := 64;
  waitpid_waitlist a := a + 1000; stop_waitlist a := a + 2000;
  sizeof_sigframe := 936; offsetof_uc := 128; SIG_DFL_value := 0; SIG_IGN_value := 1
|}.

(** The processes of [demo_procs]: process 10 (number 1) has thread 1, which
    runs on processor 0; process 20 (number 2) has threads 2, which runs on
    processor 1, and 3, asleep on list 50; process 30 (number 3) has thread 4,
    which is ready. *)
Definition demo_thread (a : Z) (st : com_thread_state) (c w : option Z) : com_thread := Thread (Some a) c (Some 0) st w false true.
Definition demo_signal_sched : sched :=
  Sched (<[1 := demo_thread 10 E_COM_THREAD_STATE_RUNNING (Some 0) None]> (<[2 := demo_thread 20 E_COM_THREAD_STATE_RUNNING (Some 1) None]>
    (<[3 := demo_thread 20 E_COM_THREAD_STATE_WAITING None (Some 50)]> (<[4 := demo_thread 30 E_COM_THREAD_STATE_READY None None]>
    (<[100 := plain E_COM_THREAD_STATE_READY None]> {[101 := plain E_COM_THREAD_STATE_READY None]})))))
    (<[50 := [3]]> (<[1010 := []]> (<[1020 := []]> (<[1030 := []]> (<[2010 := []]> (<[2020 := []]> {[2030 := []]}))))))
    (<[0 := Cpu [4] (Some 1) 100 None]> {[1 := Cpu [] (Some 2) 101 None]}) (<[10 := 1]> {[20 := 1]}) ∅.
Definition demo_signal_procs : procs :=
  ok_or (s ← com_sys_proc_add_thread demo_procs 10 1; s ← com_sys_proc_add_thread s 20 2; s ← com_sys_proc_add_thread s 20 3;
         com_sys_proc_add_thread s 30 4).
Definition demo_kern : kern :=
  Kern demo_signal_sched demo_signal_procs
    (<[1 := SigThread 1 0 0]> (<[2 := SigThread 2 0 0]> (<[3 := SigThread 3 0 0]> {[4 := SigThread 4 0 0]}))).

Definition pending_of (k : kern) (t : Z) : option Z := pending_signals <$> kt k !! t.
Definition state_of (k : kern) (t : Z) : option com_thread_state := state <$> Sched.threads (ks k) !! t.

(** Thread 2 sends [SIGTERM] to its own group, which has three processes, with
    [kill(0, SIGTERM)]: only the process whose number is the group's gets it. *)
Theorem kill_zero_one_process : ∃ k, com_sys_syscall_kill 0 1 demo_kern 2 0 SIGTERM = Ok (0, E0, k) ∧
  pending_of k 1 = Some (2 ^ 14) ∧ pending_of k 2 = Some 0 ∧ pending_of k 3 = Some 0 ∧ pending_of k 4 = Some 0.
Proof. eexists. split; [vm_compute; reflexivity|]. split_and!; vm_compute; reflexivity. Qed.

(** Thread 2 masks [SIGUSR1], thread 3 does not: one [kill] makes it pending
    for both, and each will run the handler. *)
Theorem signal_delivered_twice : ∃ r k1 k2, com_sys_syscall_sigprocmask demo_kern 2 SIG_BLOCK (Some (2 ^ 9)) = Ok (r, k1) ∧
  com_sys_syscall_kill 0 0 k1 1 2 SIGUSR1 = Ok (0, E0, k2) ∧ com_ipc_signal_check k2 3 = Ok SIGUSR1 ∧
  ∃ r k3, com_sys_syscall_sigprocmask k2 2 SIG_UNBLOCK (Some (2 ^ 9)) = Ok (r, k3) ∧ com_ipc_signal_check k3 2 = Ok SIGUSR1.
Proof.
  eexists _, _, _. split; [vm_compute; reflexivity|]. split; [vm_compute; reflexivity|]. split; [vm_compute; reflexivity|].
  eexists _, _. split; [vm_compute; reflexivity|vm_compute; reflexivity].
Qed.

(** [SIGKILL] can be masked, and is then not acted upon. *)
Theorem sigkill_maskable : ∃ r k1 k2, com_sys_syscall_sigprocmask demo_kern 4 SIG_BLOCK (Some (2 ^ 8)) = Ok (r, k1) ∧
  com_sys_syscall_kill 0 0 k1 1 3 SIGKILL = Ok (0, E0, k2) ∧ com_ipc_signal_check k2 4 = Ok COM_IPC_SIGNAL_NONE.
Proof. eexists _, _, _. split; [vm_compute; reflexivity|]. split; [vm_compute; reflexivity|vm_compute; reflexivity]. Qed.

(** A number [sigaction] accepts is one past the array of actions; one
    [kill_thread] accepts is no bit of the mask; and one that [kill] accepts
    has no entry in [SignalProperties]. *)
Theorem signal_numbers_unchecked ctx u :
  com_sys_syscall_sigaction demo_kern 2 NSIG None true = Fault ∧
  com_sys_syscall_kill_thread 0 1 demo_kern 2 3 100 = Fault ∧
  ∃ k, com_sys_syscall_kill 0 0 demo_kern 1 2 40 = Ok (0, E0, k) ∧ com_ipc_signal_dispatch 0 1 k u ctx 2 0 = Fault.
Proof. split; [vm_compute; reflexivity|]. split; [vm_compute; reflexivity|]. eexists. split; [vm_compute; reflexivity|]. vm_compute. reflexivity. Qed.

(** The first [waitpid] of a parent that has seen its child exit, and a second
    one, both succeed: the references of the child's threads are never given
    back. Thread 4 of process 30 exits; its parent, thread 1, has handled
    [SIGCHLD]. *)
Definition demo_child_exited : res kern :=
  s ← com_sys_sched_yield (ks demo_kern) 0;
  k ← com_sys_syscall_exit 0 0 (set_ks demo_kern s) 4 3;
  fork_signals (set_kt k 1 (SigThread 1 0 0)) 10 30.
Theorem waitpid_twice : ∃ k k1 k2, demo_child_exited = Ok k ∧
  com_sys_syscall_waitpid false k 1 3 None = Ok (Some (3, E0, Some 0x300), k1) ∧
  com_sys_syscall_waitpid false k1 1 3 None = Ok (Some (3, E0, Some 0x300), k2).
Proof.
  eexists _, _, _. split; [vm_compute; reflexivity|]. split; [vm_compute; reflexivity|vm_compute; reflexivity].
Qed.

(** Thread 3 is woken up by a timer and gets its turn on processor 0. *)
Definition run_thread_3 (k : kern) : res kern :=
  s ← sched_handle_timeout 0 (ks k) 3; s ← com_sys_sched_yield s 0; s ← com_sys_sched_yield s 0; Ok (set_ks k s).

(** [exit] by a thread with a sibling that runs on another processor stops
    the kernel: the sibling is marked as exited but still counts as running. *)
Theorem exit_with_running_sibling_panics : (k ← run_thread_3 demo_kern; com_sys_syscall_exit 0 1 k 2 0) = Panic.
Proof. vm_compute. reflexivity. Qed.

Definition no_ctx : arch_context := Ctx 0 0 0 0 0 0 0 0 0 0 0 0 0 0 0 0 0 0 0 0 0 0 0 0 0 0.
Definition no_stack : ustack := UStack ∅ ∅.
Definition dispatched (c : Z) (k : kern) (t : Z) : res kern :=
  '(_, k, _, _) ← com_ipc_signal_dispatch 0 c k no_stack no_ctx t 0; Ok k.
Definition killed (k : kern) (pid sig : Z) : res kern := '(_, k) ← com_sys_syscall_kill 0 0 k 1 pid sig; Ok k.

(** Process 2 is stopped by [SIGSTOP] in thread 2. *)
Definition demo_stopped : res kern := k ← killed demo_kern 2 SIGSTOP; dispatched 1 k 2.

(** [SIGKILL] does not wake a stopped process up. *)
Theorem sigkill_does_not_wake_stopped : ∃ k k', demo_stopped = Ok k ∧ killed k 2 SIGKILL = Ok k' ∧
  state_of k' 2 = Some E_COM_THREAD_STATE_WAITING ∧ state_of k' 3 = Some E_COM_THREAD_STATE_WAITING.
Proof. eexists _, _. split; [vm_compute; reflexivity|]. split; [vm_compute; reflexivity|]. split; [vm_compute; reflexivity|vm_compute; reflexivity]. Qed.

(** After [SIGCONT] thread 2 goes on; thread 3, which slept all the time, has
    [SIGSTOP] pending still, and when it runs it stops the process again. *)
Theorem stops_again_after_cont : ∃ k1 k2 k3, (k ← demo_stopped; k ← killed k 2 SIGCONT; dispatch_continue 0 k 2) = Ok k1 ∧
  p_stop <$> ptab (kp k1) !! 20 = Some COM_IPC_SIGNAL_NONE ∧
  run_thread_3 k1 = Ok k2 ∧ com_ipc_signal_check k2 3 = Ok SIGSTOP ∧
  dispatched 0 k2 3 = Ok k3 ∧ p_stop <$> ptab (kp k3) !! 20 = Some SIGSTOP.
Proof.
  eexists _, _, _. split; [vm_compute; reflexivity|]. split; [vm_compute; reflexivity|]. split; [vm_compute; reflexivity|].
  split; [vm_compute; reflexivity|]. split; [vm_compute; reflexivity|vm_compute; reflexivity].
Qed.

(** A process two threads of which have stopped is not to be continued:
    [SIGCONT] goes to one thread, which wakes the other one up, and that stops
    the kernel as it has no [SIGCONT]. *)
Theorem sigcont_two_threads_panics : ∃ k1 k2, (k ← demo_stopped; k ← run_thread_3 k; dispatched 0 k 3) = Ok k1 ∧
  (k ← killed k1 2 SIGCONT; dispatch_continue 0 k 2) = Ok k2 ∧
  state_of k2 3 = Some E_COM_THREAD_STATE_READY ∧ dispatch_continue 0 k2 3 = Panic.
Proof.
  eexists _, _. split; [vm_compute; reflexivity|]. split; [vm_compute; reflexivity|]. split; [vm_compute; reflexivity|vm_compute; reflexivity].
Qed.

(** An explicit default action for a signal without an entry in
    [SignalProperties] (30) enters a handler at the address that stands for
    the default. *)
Theorem explicit_default_enters_null : ∃ r o k1 k2 k3 u ctx,
  com_sys_syscall_sigaction demo_kern 2 30 (Some (SigAction SIG_DFL false false 0)) false = Ok (r, o, k1) ∧ killed k1 2 30 = Ok k2 ∧
  com_ipc_signal_dispatch 0 1 k2 no_stack no_ctx 2 0 = Ok (DHandler, k3, u, ctx) ∧ c_rip ctx = SIG_DFL_value.
Proof.
  eexists _, _, _, _, _, _, _. split; [vm_compute; reflexivity|]. split; [vm_compute; reflexivity|]. split; [vm_compute; reflexivity|vm_compute; reflexivity].
Qed.

(** [sigreturn] takes every flag from the frame, the privilege level of
    input and output instructions too (bits 12 and 13). *)
Theorem sigreturn_any_flags fl : ∃ u k' ctx', com_sys_syscall_sigreturn demo_kern u no_ctx 2 = Ok (k', ctx') ∧ c_rflags ctx' = fl.
Proof.
  exists (UStack {[0 := SigFrame 0 0 (replicate 17 0 ++ [fl])]} ∅). eexists _, _. split; [vm_compute; reflexivity|reflexivity].
Qed.

(** ** Witnesses *)
#[export] Instance mask_ok_dec m : Decision (mask_ok m).
Proof. unfold mask_ok. apply _. Defined.

Definition kern_check (k : kern) : Prop :=
  sched_check (ks k) ∧ procs_check (kp k) ∧
  map_Forall (λ a p, mask_ok (p_pending p) ∧
    Forall (λ t, from_option (λ th, Sched.proc th = Some a) False (Sched.threads (ks k) !! t) ∧ is_Some (kt k !! t)) (p_threads p)) (ptab (kp k)) ∧
  map_Forall (λ t x, mask_ok (pending_signals x) ∧ mask_ok (masked_signals x)) (kt k).
#[export] Instance kern_check_dec k : Decision (kern_check k).
Proof.
  unfold kern_check. apply and_dec; [apply _|]. apply and_dec; [apply _|]. apply and_dec; [|apply _]. apply map_Forall_dec. intros a p. apply and_dec; [apply _|].
  apply Forall_dec. intros t. apply and_dec; [|apply _]. destruct (Sched.threads (ks k) !! t); cbn; apply _.
Defined.

Lemma kern_check_wf k : kern_check k → kern_wf k ∧ refs_small (kp k).
Proof.
  intros (Hs & Hp & Ht & Hm). destruct (procs_check_wf _ Hp) as [Hpw Hr]. split; [|done]. split; [by apply sched_check_wf|done|..].
  - intros a p t Ha Hin. destruct (Ht a p Ha) as [_ Hf]. rewrite Forall_forall in Hf. destruct (Hf t Hin) as [Hth [x Hx]].
    apply from_option_False in Hth as (th & ? & ?). eauto.
  - exact Hm.
  - intros a p Ha. by destruct (Ht a p Ha).
Qed.

Lemma demo_kern_wf : kern_wf demo_kern ∧ refs_small (kp demo_kern).
Proof. apply kern_check_wf, (bool_decide_eq_true_1 _). vm_compute. reflexivity. Qed.

Lemma signal_check_lowest_witness : ∃ sig, com_ipc_signal_check (set_kt demo_kern 2 (SigThread 2 0x700 0x100)) 2 = Ok sig ∧
  check_result (SigThread 2 0x700 0x100) sig.
Proof. apply signal_check_lowest; [reflexivity|vm_compute; split; [discriminate|reflexivity]]. Defined.

Lemma sigprocmask_spec_witness : ∃ m k', com_sys_syscall_sigprocmask demo_kern 2 SIG_BLOCK (Some 6) = Ok (0, E0, Some 0, k') ∧
  kt k' !! 2 = Some (with_masked (SigThread 2 0 0) m) ∧
  com_sys_syscall_sigprocmask k' 2 SIG_SETMASK (Some 0) = Ok (0, E0, Some m, demo_kern).
Proof. destruct (sigprocmask_spec demo_kern 2 (SigThread 2 0 0) SIG_BLOCK 6 eq_refl) as (m & k' & H1 & H2 & _ & H3). eauto. Defined.

Definition demo_ctx : arch_context := Ctx 0 0 0 0 0 1 2 3 4 5 6 7 8 9 10 11 12 13 14 15 0 0x400123 0 0x202 0x7fffdeadbee8 0.
Definition demo_action : com_sigaction := SigAction (SaHandler 0x401000) false false 0x4.
(** Process 20 with a handler for [SIGUSR1], which is pending in thread 2. *)
Definition demo_handler : kern :=
  match (p ← get_proc demo_kern 20; Ok (put_proc demo_kern 20 (with_actions p {[10 := demo_action]}))) with
  | Ok k => set_kt k 2 (SigThread 2 (2 ^ 9) 1)
  | _ => demo_kern
  end.

Lemma sigframe_bounds_witness : ∃ k' u' ctx', push_handler demo_handler no_stack demo_ctx 20 2 10 demo_action 7 = Ok (k', u', ctx') ∧
  c_rsi ctx' mod 16 = 0 ∧ c_rsp ctx' mod 16 = 8.
Proof.
  destruct (push_handler demo_handler no_stack demo_ctx 20 2 10 demo_action 7) as [[[k' u'] ctx']| | |] eqn:Hrun;
    [|vm_compute in Hrun; discriminate Hrun..].
  exists k', u', ctx'. split; [reflexivity|].
  destruct (sigframe_bounds _ _ _ _ _ _ _ _ _ _ _ Hrun) as (_ & H1 & _ & H2); [vm_compute; split; [discriminate|reflexivity]|
    vm_compute; discriminate|vm_compute; discriminate|]. split; [exact H1|exact H2].
Defined.

Lemma handler_sigreturn_roundtrip_witness : ∃ k' u' ctx' ctx3,
  com_ipc_signal_dispatch 0 1 demo_handler no_stack demo_ctx 2 7 = Ok (DHandler, k', u', ctx') ∧ c_rip ctx' = 0x401000 ∧
  com_sys_syscall_sigreturn demo_kern u' (arch_context_signal_trampoline 0 ctx' (u64 (c_rsp ctx' + 8)) 0 0) 2 =
    Ok (set_kt demo_kern 2 (SigThread 2 0 1), ctx3) ∧ same_regs ctx3 demo_ctx.
Proof.
  destruct (ptab (kp demo_handler) !! 20) as [p|] eqn:Hp; [|vm_compute in Hp; discriminate Hp].
  destruct (handler_sigreturn_roundtrip 0 1 demo_handler no_stack demo_ctx 20 2 10 demo_action 0x401000 7 (SigThread 2 (2 ^ 9) 1) p)
    as (k' & u' & ctx' & Hrun & Hrip & _ & _ & _ & _ & Hret); [vm_compute; reflexivity|vm_compute; reflexivity|exact Hp|vm_compute; reflexivity|lia| |reflexivity|].
  { vm_compute in Hp. injection Hp as <-. reflexivity. }
  destruct (Hret demo_kern u' (arch_context_signal_trampoline 0 ctx' (u64 (c_rsp ctx' + 8)) 0 0) (SigThread 2 0 0) eq_refl eq_refl eq_refl) as (ctx3 & H3 & H4).
  exists k', u', ctx', ctx3. split; [exact Hrun|]. split; [exact Hrip|]. split; [exact H3|exact H4].
Defined.

Lemma kill_delivers_witness : ∃ p k', com_sys_syscall_kill 0 0 demo_kern 1 2 SIGTERM = Ok (0, E0, k') ∧ kern_wf k' ∧ delivered demo_kern k' 20 p SIGTERM.
Proof.
  destruct (ptab (kp demo_kern) !! 20) as [p|] eqn:Hp; [|vm_compute in Hp; discriminate Hp]. exists p.
  assert (Hpid : p_pid p = 2 ∧ p_exited p = false) by (vm_compute in Hp; injection Hp as <-; split; reflexivity).
  destruct Hpid as [Hpid He].
  destruct (kill_delivers 0 0 demo_kern 1 10 20 p SIGTERM (proj1 demo_kern_wf) (proj2 demo_kern_wf)) as (k' & Hk & Hw & _ & Hd);
    [vm_compute; eexists; reflexivity|vm_compute; reflexivity|rewrite Hpid; vm_compute; reflexivity|exact Hp|rewrite Hpid; vm_compute; discriminate|exact He|
     vm_compute; split; [discriminate|reflexivity]|].
  rewrite Hpid in Hk. exists k'. split; [exact Hk|]. split; [exact Hw|exact Hd].
Defined.

(** Thread 4 has its turn. *)
Definition demo_turn : kern := match com_sys_sched_yield (ks demo_kern) 0 with Ok s => set_ks demo_kern s | _ => demo_kern end.
Lemma demo_turn_wf : kern_wf demo_turn ∧ refs_small (kp demo_turn).
Proof. apply kern_check_wf, (bool_decide_eq_true_1 _). vm_compute. reflexivity. Qed.

Lemma exit_then_waitpid_witness : ∃ k' p', com_sys_syscall_exit 0 0 demo_turn 4 3 = Ok k' ∧ ptab (kp k') !! 30 = Some p' ∧ p_exited p' = true ∧
  sched_wf (ks k') ∧ waitpid_turn false k' 1 10 30 = Ok (Some (-1, EINTR, None), k').
Proof.
  destruct (ptab (kp demo_turn) !! 30) as [p|] eqn:Hp; [|vm_compute in Hp; discriminate Hp].
  destruct (ptab (kp demo_turn) !! 10) as [q|] eqn:Hq; [|vm_compute in Hq; discriminate Hq].
  assert (Hf : p_threads p = [4] ∧ p_ref p ≠ 0 ∧ p_stop p = COM_IPC_SIGNAL_NONE ∧ p_parent p = 1 ∧ p_exited q = false ∧
    find (takes demo_turn q SIGCHLD) (p_threads q) = Some 1).
  { vm_compute in Hp. injection Hp as <-. vm_compute in Hq. injection Hq as <-. split_and!; try (vm_compute; reflexivity). vm_compute. discriminate. }
  destruct Hf as (H1 & H2 & H3 & H4 & H5 & H6).
  destruct (Sched.threads (ks demo_turn) !! 4) as [th|] eqn:Hth; [|vm_compute in Hth; discriminate Hth].
  assert (Hpr : Sched.proc th = Some 30) by (vm_compute in Hth; injection Hth as <-; reflexivity).
  destruct (exit_then_waitpid 0 0 demo_turn 4 3 30 p th (proj1 demo_turn_wf) (proj2 demo_turn_wf)) as (k' & p' & Hrun & Hw & _ & Hp' & He & _ & _ & Hi);
    [vm_compute; eexists; reflexivity|vm_compute; eexists; split; [reflexivity|split; [reflexivity|discriminate]]|vm_compute; split; [discriminate|reflexivity]|
     exact Hth|exact Hpr|exact Hp|exact H1|exact H2|exact H3|vm_compute; reflexivity|vm_compute; eexists; reflexivity|].
  exists k', p'. split; [exact Hrun|]. split; [exact Hp'|]. split; [exact He|]. split; [exact Hw|].
  apply (Hi 10 q 1); [rewrite H4; vm_compute; reflexivity|exact Hq|discriminate|exact H5|rewrite H4; vm_compute; split; discriminate|exact H6].
Defined.
