(* ===== verification/Futex.v ===== *)
(** * Futexes: src/com/sys/syscall/futex.c

    Waits and wake-ups on words of user memory, over the scheduler and the
    pending signals of [Signal]. A word is named by its physical address; the
    hash map from these to wait lists ([Hashmap] models it) is a finite map
    here. The call [FUTEX_WAIT] compares the word before it takes any lock and
    sleeps after it has released [FutexLock], so the comparison, the look-up
    and the sleep are definitions of their own. *)
From S2P Require Import Prelude Sched Proc Signal.

Definition FUTEX_WAIT : Z := 0.
Definition FUTEX_WAKE : Z := 1.
Definition INT_MAX : Z := 2147483647.

Record futexes : Type := Futexes { fk : kern; FutexMap : gmap Z Z; fwords : gmap Z Z }.
Definition fsched (f : futexes) : sched := ks (fk f).
Definition set_fsched (f : futexes) (s : sched) : futexes := Futexes (set_ks (fk f) s) (FutexMap f) (fwords f).

(** The exchange of the word with itself when it has the expected value. *)
Definition futex_compare (f : futexes) (phys value : Z) : res bool := w ← deref (fwords f !! phys); Ok (w =? value).

(** The wait list of a word, a new one at [fresh] when there is none. *)
Definition futex_get (f : futexes) (phys fresh : Z) : Z * futexes :=
  match FutexMap f !! phys with
  | Some w => (w, f)
  | None => (fresh, Futexes (set_ks (fk f) (set_waitlist (fsched f) fresh [])) (<[phys := fresh]> (FutexMap f)) (fwords f))
  end.

Definition futex_sleep (c : Z) (f : futexes) (w : Z) : res futexes := s ← com_sys_sched_wait_nodrop (fsched f) c w; Ok (set_fsched f s).

Definition futex_wake (r : Z) (f : futexes) (phys value : Z) : res (sysret * futexes) :=
  match FutexMap f !! phys with
  | None => Ok (0, E0, f)
  | Some w =>
      s ← (if INT_MAX <=? value then com_sys_sched_notify_all r (fsched f) w
           else com_sys_sched_notify_n r (fsched f) w (Z.to_nat value));
      Ok (value, E0, set_fsched f s)
  end.

(** The call of the current thread of processor [c]: its result, or [None]
    when the thread sleeps. *)
Definition com_sys_syscall_futex (r c : Z) (f : futexes) (phys op value fresh : Z) : res (option sysret * futexes) :=
  if op =? FUTEX_WAIT then
    eq ← futex_compare f phys value;
    if (eq : bool) then let '(w, f) := futex_get f phys fresh in f ← futex_sleep c f w; Ok (None, f)
    else Ok (Some (-1, EAGAIN), f)
  else if op =? FUTEX_WAKE then '(v, f) ← futex_wake r f phys value; Ok (Some v, f)
  else Ok (Some (-1, ENOSYS), f).

(** The end of a wait, when thread [t] runs again. *)
Definition futex_resume (f : futexes) (t : Z) : res sysret :=
  sig ← com_ipc_signal_check (fk f) t; Ok (if sig =? COM_IPC_SIGNAL_NONE then (0, E0) else (-1, EINTR)).

(** ** Well-formed states *)
Record futex_wf (f : futexes) : Prop := {
  fw_sched : sched_wf (fsched f);
  fw_lists p w : FutexMap f !! p = Some w → is_Some (waitlists (fsched f) !! w);
  fw_inj p q w : FutexMap f !! p = Some w → FutexMap f !! q = Some w → p = q
}.

Lemma wf_new_waitlist s w : sched_wf s → waitlists s !! w = None → sched_wf (set_waitlist s w []).
Proof.
  intros H Hw. split; cbn [set_waitlist Sched.threads waitlists cpus]; try apply H.
  - intros v q t [[<- <-]|[_ Hq]]%lookup_insert_Some Ht; [by apply elem_of_nil in Ht|by apply (wf_wait _ _ _ _ H v q)].
  - intros t th v Ht Hv Hp. destruct (wf_waiting _ _ _ _ H t th v Ht Hv Hp) as (q & Hq & ?). exists q.
    by rewrite lookup_insert_ne by congruence.
  - intros v q [[<- <-]|[_ Hq]]%lookup_insert_Some; [constructor|by apply (wf_wait_nodup _ _ _ _ H v)].
Qed.

(** What [ready_all] leaves: the threads are ready, others and the wait lists
    are as they were. *)
Lemma ready_step r s t s' : com_sys_thread_ready_nolock r s t = Ok s' →
  state <$> Sched.threads s' !! t = Some E_COM_THREAD_STATE_READY ∧ (∀ u, u ≠ t → Sched.threads s' !! u = Sched.threads s !! u) ∧
  waitlists s' = waitlists s.
Proof.
  intros H. unfold com_sys_thread_ready_nolock, com_sys_thread_transition_nolock in H. inv_res.
  repeat match goal with H : _ = Ok _ |- _ => progress inv_res end. cbn [set_thread set_cpu Sched.threads waitlists cpus] in *.
  rewrite insert_insert_eq, lookup_insert_eq. split_and!; try done. intros u Hu. by rewrite lookup_insert_ne.
Qed.

Lemma ready_all_spec r ts s s' : ready_all r s ts = Ok s' →
  (∀ t, t ∈ ts → state <$> Sched.threads s' !! t = Some E_COM_THREAD_STATE_READY) ∧
  (∀ u, u ∉ ts → Sched.threads s' !! u = Sched.threads s !! u) ∧ waitlists s' = waitlists s.
Proof.
  revert s. induction ts as [|t ts IH]; intros s H; cbn [ready_all] in H; [injection H as <-; split_and!; [by intros t ?%elem_of_nil|done..]|].
  inv_res. match goal with H : com_sys_thread_ready_nolock _ _ _ = _ |- _ => apply ready_step in H as (H1 & H2 & H3) end.
  destruct (IH _ H) as (I1 & I2 & I3). split_and!; [| |congruence].
  - intros u [->|Hu]%elem_of_cons; [|by apply I1]. destruct (decide (t ∈ ts)); [by apply I1|]. by rewrite I2.
  - intros u [Hu1 Hu2]%not_elem_of_cons. by rewrite I2, H2.
Qed.

Lemma notify_n_spec r s w n q : sched_wf s → is_Some (cpus s !! r) → waitlists s !! w = Some q →
  ∃ s', com_sys_sched_notify_n r s w n = Ok s' ∧ sched_wf s' ∧ waitlists s' = <[w := drop n q]> (waitlists s) ∧
    (∀ t, t ∈ take n q → state <$> Sched.threads s' !! t = Some E_COM_THREAD_STATE_READY) ∧
    (∀ u, u ∉ take n q → Sched.threads s' !! u = Sched.threads s !! u).
Proof.
  intros H Hr Hq. destruct (notify_n_wf s r w n H Hr ltac:(eauto)) as (s' & Hs & Hw). exists s'. split; [done|]. split; [done|].
  unfold com_sys_sched_notify_n in Hs. rewrite Hq in Hs. cbn in Hs. destruct (ready_all_spec _ _ _ _ Hs) as (H1 & H2 & H3). done.
Qed.

Lemma futex_wf_lists f W s : futex_wf f → sched_wf s → (∀ w, is_Some (waitlists (fsched f) !! w) → is_Some (waitlists s !! w)) →
  futex_wf (Futexes (set_ks (fk f) s) (FutexMap f) W).
Proof. intros H Hs Hw. split; [done| |apply H]. intros p w Hp. apply Hw. by apply (fw_lists _ H p). Qed.

(** A switch to another thread moves no thread between wait lists. *)
Lemma yield_lists s c s' : com_sys_sched_yield_nolock s c = Ok s' → waitlists s' = waitlists s.
Proof.
  intros H. unfold com_sys_sched_yield_nolock in H. inv_res. destruct (cur_thread x) as [t|]; inv_res; [|done].
  assert (Hsw : ∀ s a n s', switch_to s c a n = Ok s' → waitlists s' = waitlists s).
  { clear. intros s a n s' H. unfold switch_to, com_sys_thread_transition_nolock, sched_switch_vmm_context in H. inv_res.
    case_bool_decide; inv_res; repeat (case_match; inv_res); done. }
  destruct (sched_queue x); [case_bool_decide; inv_res; [done|by apply Hsw in H]|]. inv_res. by apply Hsw in H.
Qed.

Lemma wait_appends s c w t q s' : com_sys_sched_wait_nodrop s c w = Ok s' → runs_on s c t → waitlists s !! w = Some q →
  waitlists s' = <[w := q ++ [t]]> (waitlists s).
Proof.
  intros H (x & Hx & Hcur & _) Hq. unfold com_sys_sched_wait_nodrop in H. rewrite Hx in H. cbn in H. rewrite Hcur in H. cbn in H.
  unfold sched_waitlist_insert, com_sys_thread_transition_nolock in H. inv_res. apply yield_lists in H. rewrite H. cbn.
  repeat match goal with H : insert_tail _ _ _ = Ok _ |- _ => unfold insert_tail in H; inv_res | H : context [if ?b then _ else _] |- _ => destruct b; inv_res end.
  cbn in *. congruence.
Qed.

(** ** Properties *)

(** What a thread can do to a futex; [fresh] is the address of a new object. *)
Definition futex_call_ok (r c : Z) (f : futexes) (phys fresh : Z) : Prop :=
  is_Some (cpus (fsched f) !! r) ∧ (∃ t, runs_on (fsched f) c t) ∧ is_Some (fwords f !! phys) ∧
  waitlists (fsched f) !! fresh = None.

(** The threads that wait for a word, the longest waiting first. *)
Definition futex_queue (f : futexes) (phys : Z) : list Z := default [] (FutexMap f !! phys ≫= λ w, waitlists (fsched f) !! w).

(** What the call is to do, given the word and the threads that wait for it:
    its result, [None] when the caller [t] sleeps, and who waits then. *)
Definition futex_spec (t op value word : Z) (known : bool) (q : list Z) : option sysret * list Z :=
  if op =? FUTEX_WAIT then if word =? value then (None, q ++ [t]) else (Some (-1, EAGAIN), q)
  else if op =? FUTEX_WAKE then (Some (if known then value else 0, E0), if INT_MAX <=? value then [] else drop (Z.to_nat value) q)
  else (Some (-1, ENOSYS), q).

Lemma futex_queue_of f phys w q : FutexMap f !! phys = Some w → waitlists (fsched f) !! w = Some q → futex_queue f phys = q.
Proof. intros Hw Hq. unfold futex_queue. rewrite Hw. cbn. by rewrite Hq. Qed.

(** When one wait list changes, so does the queue of its word and no other. *)
Lemma futex_queue_upd f W s phys w q' : futex_wf f → FutexMap f !! phys = Some w → waitlists s = <[w := q']> (waitlists (fsched f)) →
  ∀ p, futex_queue (Futexes (set_ks (fk f) s) (FutexMap f) W) p = if p =? phys then q' else futex_queue f p.
Proof.
  intros H Hw Hs p. unfold futex_queue. cbn. rewrite Hs. destruct (Z.eqb_spec p phys) as [->|Hp]; [rewrite Hw; cbn; by rewrite lookup_insert_eq|].
  destruct (FutexMap f !! p) as [v|] eqn:Hv; cbn; [|done]. rewrite lookup_insert_ne; [done|]. intros ->. by apply Hp, (fw_inj _ H p phys v).
Qed.

(** The list found or made for a word is its list, with the same queues. *)
Lemma futex_get_ok f phys fresh w f1 : futex_wf f → waitlists (fsched f) !! fresh = None → futex_get f phys fresh = (w, f1) →
  futex_wf f1 ∧ FutexMap f1 !! phys = Some w ∧ waitlists (fsched f1) !! w = Some (futex_queue f phys) ∧ cpus (fsched f1) = cpus (fsched f) ∧
  fwords f1 = fwords f ∧ ∀ p, futex_queue f1 p = futex_queue f p.
Proof.
  intros H Hfresh Hg. unfold futex_get in Hg. destruct (FutexMap f !! phys) as [l|] eqn:Hl; injection Hg as <- <-.
  { destruct (fw_lists _ H phys l Hl) as [q Hq]. rewrite (futex_queue_of f phys l q) by done. done. }
  assert (Hno : ∀ p, FutexMap f !! p ≠ Some fresh) by (intros p Hp; destruct (fw_lists _ H _ _ Hp) as [? ?]; congruence).
  split; [split; cbn|cbn].
  - by apply wf_new_waitlist; [apply H|].
  - intros p v [[<- <-]|[_ Hp]]%lookup_insert_Some; [rewrite lookup_insert_eq; eauto|].
    destruct (decide (v = fresh)) as [->|]; [rewrite lookup_insert_eq; eauto|]. rewrite lookup_insert_ne by done. by apply (fw_lists _ H p).
  - intros p q v Hp Hq. apply lookup_insert_Some in Hp, Hq.
    destruct Hp as [[<- <-]|[? Hp]], Hq as [[<- Ev]|[? Hq]]; [done|by destruct (Hno q)|subst v; by destruct (Hno p)|]. by apply (fw_inj _ H p q v).
  - split; [apply lookup_insert_eq|]. unfold futex_queue. rewrite Hl. split; [apply lookup_insert_eq|]. split; [done|]. split; [done|]. intros p. cbn.
    destruct (decide (p = phys)) as [->|]; [rewrite lookup_insert_eq, Hl; cbn; by rewrite lookup_insert_eq|]. rewrite lookup_insert_ne by done.
    destruct (FutexMap f !! p) as [v|] eqn:Hv; cbn; [|done]. by rewrite lookup_insert_ne by (intros <-; by apply (Hno p)).
Qed.

Lemma futex_sleep_ok c f w t q : futex_wf f → runs_on (fsched f) c t → waitlists (fsched f) !! w = Some q →
  ∃ s, futex_sleep c f w = Ok (set_fsched f s) ∧ futex_wf (set_fsched f s) ∧ waitlists s = <[w := q ++ [t]]> (waitlists (fsched f)) ∧
    state <$> Sched.threads s !! t = Some E_COM_THREAD_STATE_WAITING.
Proof.
  intros H Ht Hq. destruct (wait_wf (fsched f) c w t (fw_sched _ H) Ht ltac:(eauto)) as (s & Hs & Hws). pose proof (wait_appends _ _ _ _ _ _ Hs Ht Hq) as Hl.
  exists s. unfold futex_sleep. rewrite Hs. split; [done|]. split; [|split; [done|]].
  - apply futex_wf_lists; [done..|]. intros v ?. rewrite Hl. destruct (decide (v = w)) as [->|]; [rewrite lookup_insert_eq; eauto|by rewrite lookup_insert_ne].
  - destruct (wf_wait _ _ _ _ Hws w (q ++ [t]) t) as (th & -> & Hst & _); [by rewrite Hl, lookup_insert_eq|apply elem_of_app; right; by apply list_elem_of_singleton|]. cbn. by rewrite Hst.
Qed.

Lemma futex_wake_ok r f phys w q value : futex_wf f → is_Some (cpus (fsched f) !! r) → FutexMap f !! phys = Some w → waitlists (fsched f) !! w = Some q →
  let q' := if INT_MAX <=? value then [] else drop (Z.to_nat value) q in
  ∃ s, futex_wake r f phys value = Ok (value, E0, set_fsched f s) ∧ futex_wf (set_fsched f s) ∧ waitlists s = <[w := q']> (waitlists (fsched f)) ∧
    (∀ u, u ∈ q → u ∉ q' → state <$> Sched.threads s !! u = Some E_COM_THREAD_STATE_READY) ∧
    (∀ u, u ∉ q ∨ u ∈ q' → Sched.threads s !! u = Sched.threads (fsched f) !! u).
Proof.
  intros H Hr Hw Hq q'. unfold futex_wake. rewrite Hw. set (n := if INT_MAX <=? value then length q else Z.to_nat value).
  assert (Hn : drop n q = q') by (unfold n, q'; case_match; [apply drop_all|done]).
  assert (E : (if INT_MAX <=? value then com_sys_sched_notify_all r (fsched f) w else com_sys_sched_notify_n r (fsched f) w (Z.to_nat value)) =
    com_sys_sched_notify_n r (fsched f) w n) by (unfold n; case_match; [by apply notify_all_is_notify_n|done]).
  rewrite E. destruct (notify_n_spec r (fsched f) w n q (fw_sched _ H) Hr Hq) as (s & -> & Hs & Hl & H1 & H2). rewrite Hn in Hl. mstep.
  exists s. split; [done|]. split; [|split; [done|]].
  - apply futex_wf_lists; [done..|]. intros v ?. rewrite Hl. destruct (decide (v = w)) as [->|]; [rewrite lookup_insert_eq; eauto|by rewrite lookup_insert_ne].
  - pose proof (wf_wait_nodup _ _ _ _ (fw_sched _ H) w q Hq) as Hnd. rewrite <- (take_drop n q), Hn in Hnd. apply NoDup_app in Hnd as (_ & Hd & _).
    split; intros u Hu.
    + intros Hu'. apply H1. rewrite <- (take_drop n q), Hn in Hu. by apply elem_of_app in Hu as [?|?].
    + apply H2. intros Ht. destruct Hu as [Hu|Hu]; [|by apply (Hd u)]. apply Hu. rewrite <- (take_drop n q). apply elem_of_app. by left.
Qed.


(** ** Examples *)

(** The threads of [demo_kern] share the word at 0x5000, which is 0. *)
Definition demo_futex : futexes := Futexes demo_kern ∅ {[0x5000 := 0]}.
Definition store (f : futexes) (phys v : Z) : futexes := Futexes (fk f) (FutexMap f) (<[phys := v]> (fwords f)).

(** A wake-up is lost: thread 2 (on processor 1) finds the word 0; before
    it sleeps, thread 1 sets the word to 1 and wakes the waiters up, of which
    there are none; then thread 2 sleeps though the word is 1, and nobody will
    wake it up. *)
Theorem futex_lost_wakeup : ∃ f1 f2,
  futex_compare demo_futex 0x5000 0 = Ok true ∧
  futex_wake 0 (store demo_futex 0x5000 1) 0x5000 1 = Ok (0, E0, f1) ∧
  (let '(w, f) := futex_get f1 0x5000 70 in futex_sleep 1 f w) = Ok f2 ∧
  waitlists (fsched f2) !! 70 = Some [2] ∧ fwords f2 !! 0x5000 = Some 1.
Proof.
  eexists _, _. split; [vm_compute; reflexivity|]. split; [vm_compute; reflexivity|]. split; [vm_compute; reflexivity|].
  split; [vm_compute; reflexivity|vm_compute; reflexivity].
Qed.

(** ** Witnesses *)
Lemma demo_futex_wf : futex_wf demo_futex.
Proof. split; [apply demo_kern_wf|intros p w Hp; cbn in Hp; by rewrite lookup_empty in Hp|intros p q w Hp; cbn in Hp; by rewrite lookup_empty in Hp]. Qed.

(** Thread 3 sleeps on the word's list. *)
Definition demo_waiting : futexes := Futexes demo_kern {[0x5000 := 50]} {[0x5000 := 0]}.
Lemma demo_waiting_wf : futex_wf demo_waiting.
Proof.
  split; [apply demo_kern_wf| |].
  - intros p w Hp. cbn in Hp. apply lookup_singleton_Some in Hp as [<- <-]. vm_compute. eexists. reflexivity.
  - intros p q w Hp Hq. cbn in Hp, Hq. apply lookup_singleton_Some in Hp as [<- _], Hq as [<- _]. done.
Qed.

Lemma demo_runs f : fk f = demo_kern → runs_on (fsched f) 0 1.
Proof. unfold fsched. intros ->. vm_compute. eexists. split; [reflexivity|split; [reflexivity|discriminate]]. Qed.

Lemma demo_futex_call_ok f : fk f = demo_kern → fwords f = {[0x5000 := 0]} → futex_call_ok 0 0 f 0x5000 70.
Proof.
  intros Hk Hw. split; [unfold fsched; rewrite Hk; vm_compute; by eexists|]. split; [exists 1; by apply demo_runs|]. split; [rewrite Hw; vm_compute; by eexists|].
  unfold fsched. rewrite Hk. vm_compute. reflexivity.
Qed.

