(* ===== verification/Socket.v ===== *)
(** * Sockets: src/com/ipc/socket/socket.c, src/com/ipc/socket/unix.c,
    src/com/fs/sockfs.c and the system calls on sockets

    Sockets are records in a store, so that a socket that has been destroyed
    is not there any more. The rings of [Ringbuffer] carry the bytes, moved by
    the iterators of [Ioviter]; descriptors are those of [Fdtable]. Each
    operation is what its function does under the locks it takes; where one
    waits, what the others do meanwhile is an argument ([wait]). The look-up
    and the creation of a name ([Vfs]) go through a class. *)
From S2P Require Import Prelude Mem Ringbuffer Ioviter Fdtable.

Definition CONFIG_UNIX_SOCK_RB_SIZE : Z := 256 * 1024.

(** What the file system does for sockets: [names_mksocket] makes a vnode of
    type socket at a path, [names_lookup] finds one, and says whether it is a
    socket. *)
Class socket_names (N : Type) : Type := {
  names_mksocket : N → list Z → errno + Z * N;
  names_lookup : N → list Z → errno + Z * bool;
  names_lookup_err n path e : names_lookup n path = inl e → e ≠ E0
}.

(** ** Data *)
Inductive com_socket_type : Type := E_COM_SOCKET_TYPE_INVAL | E_COM_SOCKET_TYPE_UNIX.
#[export] Instance com_socket_type_eq_dec : EqDecision com_socket_type.
Proof. solve_decision. Defined.

Inductive com_socket_state : Type :=
  | E_COM_SOCKET_STATE_UNBOUND | E_COM_SOCKET_STATE_BOUND | E_COM_SOCKET_STATE_CONNECTED | E_COM_SOCKET_STATE_LISTENING.
#[export] Instance com_socket_state_eq_dec : EqDecision com_socket_state.
Proof. solve_decision. Defined.

Record unix_socket : Type := UnixSocket {
  us_type : com_socket_type;
  us_state : com_socket_state;
  us_rb : kringbuffer;
  binding_path : list Z;
  peer : option Z;
  srv_binding : option Z;
  srv_acceptq : list Z;
  srv_acceptwait : list Z;
  srv_maxconns : Z;
  polled_list : list Z
}.

Record unix_socket_binding : Type := Binding { server : Z; b_vnode : Z }.

(** What other threads notice: a notification of the readers or writers of a
    ring, of the pollers of a socket, a thread taken off an accept queue, and
    a [SIGPIPE] to the caller. *)
Inductive event : Type := EvRing (a : Z) (op : rbop) | EvPollers (l : list Z) | EvAccept (t : Z) | EvSigpipe.

Record sockw (N : Type) : Type := Sockw {
  socks : gmap Z unix_socket;
  binds : gmap Z unix_socket_binding;
  vbind : gmap Z Z;
  names : N;
  events : list event
}.
Arguments Sockw {N}. Arguments socks {N}. Arguments binds {N}. Arguments vbind {N}. Arguments names {N}. Arguments events {N}.

Definition set_sock {N} (w : sockw N) (a : Z) (s : unix_socket) : sockw N := Sockw (<[a := s]> (socks w)) (binds w) (vbind w) (names w) (events w).
Definition log {N} (w : sockw N) (e : event) : sockw N := Sockw (socks w) (binds w) (vbind w) (names w) (events w ++ [e]).

Definition with_us_state (s : unix_socket) (st : com_socket_state) : unix_socket :=
  UnixSocket (us_type s) st (us_rb s) (binding_path s) (peer s) (srv_binding s) (srv_acceptq s) (srv_acceptwait s) (srv_maxconns s) (polled_list s).
Definition with_rb (s : unix_socket) (rb : kringbuffer) : unix_socket :=
  UnixSocket (us_type s) (us_state s) rb (binding_path s) (peer s) (srv_binding s) (srv_acceptq s) (srv_acceptwait s) (srv_maxconns s) (polled_list s).
Definition with_peer (s : unix_socket) (p : option Z) : unix_socket :=
  UnixSocket (us_type s) (us_state s) (us_rb s) (binding_path s) p (srv_binding s) (srv_acceptq s) (srv_acceptwait s) (srv_maxconns s) (polled_list s).
Definition with_accept (s : unix_socket) (q wait : list Z) : unix_socket :=
  UnixSocket (us_type s) (us_state s) (us_rb s) (binding_path s) (peer s) (srv_binding s) q wait (srv_maxconns s) (polled_list s).
Definition with_conns (s : unix_socket) (n : Z) : unix_socket :=
  UnixSocket (us_type s) (us_state s) (us_rb s) (binding_path s) (peer s) (srv_binding s) (srv_acceptq s) (srv_acceptwait s) n (polled_list s).
Definition with_binding (s : unix_socket) (b : Z) (path : list Z) : unix_socket :=
  UnixSocket (us_type s) E_COM_SOCKET_STATE_BOUND (us_rb s) path (peer s) (Some b) (srv_acceptq s) (srv_acceptwait s) (srv_maxconns s) (polled_list s).

Definition with_path (s : unix_socket) (path : list Z) : unix_socket :=
  UnixSocket (us_type s) (us_state s) (us_rb s) path (peer s) (srv_binding s) (srv_acceptq s) (srv_acceptwait s) (srv_maxconns s) (polled_list s).
Definition with_type (s : unix_socket) (ty : com_socket_type) : unix_socket :=
  UnixSocket ty (us_state s) (us_rb s) (binding_path s) (peer s) (srv_binding s) (srv_acceptq s) (srv_acceptwait s) (srv_maxconns s) (polled_list s).

Section unix.
Context {N : Type} `{!socket_names N}.
Notation W := (sockw N).

(** [page] is what the pages of the ring hold. *)
Definition unix_socket_alloc (page : list Z) : unix_socket :=
  UnixSocket E_COM_SOCKET_TYPE_INVAL E_COM_SOCKET_STATE_UNBOUND (KRINGBUFFER_INIT_CUSTOM page CONFIG_UNIX_SOCK_RB_SIZE) [] None None [] [] 0 [].

(** ** The rings of sockets *)

(** The argument is the socket the ring belongs to. *)
Definition unix_socket_rb_check_hangup (a : Z) (op : rbop) (curr : Z) (rb : kringbuffer) (w : W) : res (hup * W) :=
  s ← deref (socks w !! a);
  Ok (match op, peer s with
      | KRINGBUFFER_OP_WRITE, None => (mkHup EPIPE false None, log w EvSigpipe)
      | _, _ => (mkHup E0 false None, w)
      end).

Definition unix_socket_poll_callback (a : Z) (w : W) : W :=
  match socks w !! a with Some s => log w (EvPollers (polled_list s)) | None => w end.

(** [wait] says what a thread that slept finds, [signal] whether it has a
    signal to handle. *)
Definition unix_kern (wait : rbop → kringbuffer → W → option (kringbuffer * W)) (signal : W → bool) (a : Z) : rbkern W :=
  mkRk (Some (unix_socket_rb_check_hangup a)) wait (λ op w, log w (EvRing a op)) (Some (unix_socket_poll_callback a)) signal.

Definition put_rb (w : W) (a : Z) (rb : kringbuffer) : res W := s ← deref (socks w !! a); Ok (set_sock w a (with_rb s rb)).

(** ** Operations *)

(** [b] is the address of the new binding. *)
Definition unix_socket_bind (w : W) (a : Z) (path : list Z) (b : Z) : res (errno * W) :=
  s ← deref (socks w !! a);
  match names_mksocket (names w) path with
  | inl e => Ok (e, w)
  | inr (vn, n) =>
      if CONFIG_PATH_MAX <? Z.of_nat (length path) then Fault
      else Ok (E0, Sockw (<[a := with_binding s b path]> (socks w)) (<[b := Binding a vn]> (binds w)) (<[vn := b]> (vbind w)) n (events w))
  end.

(** Returns the error, [desc->count_done] and the iterator. *)
Definition unix_socket_send (fuel : nat) (wait : rbop → kringbuffer → W → option (kringbuffer * W)) (signal : W → bool) (m : mem) (w : W) (a : Z)
    (it : kioviter) (count : Z) (nonblock : bool) : res (errno * Z * kioviter * W) :=
  s ← deref (socks w !! a);
  match bool_decide (us_state s = E_COM_SOCKET_STATE_CONNECTED), peer s with
  | true, Some b =>
      p ← deref (socks w !! b);
      '(e, n, rb, w, it) ← kioviter_read_to_ringbuffer_nolock (unix_kern wait signal b) fuel m (us_rb p) w KRINGBUFFER_NOATOMIC (negb nonblock) it count;
      w ← put_rb w b rb;
      Ok (e, n, it, w)
  | _, _ => Ok (ENOTCONN, 0, it, w)
  end.

Definition unix_socket_recv (fuel : nat) (wait : rbop → kringbuffer → W → option (kringbuffer * W)) (signal : W → bool) (m : mem) (w : W) (a : Z)
    (it : kioviter) (count : Z) (nonblock : bool) : res (errno * Z * mem * kioviter * W) :=
  s ← deref (socks w !! a);
  if negb (bool_decide (us_state s = E_COM_SOCKET_STATE_CONNECTED)) then Ok (ENOTCONN, 0, m, it, w)
  else
    '(e, n, m, rb, w, it) ← kioviter_write_from_ringbuffer_nolock (unix_kern wait signal a) fuel m it count (us_rb s) w KRINGBUFFER_NOATOMIC (negb nonblock);
    w ← put_rb w a rb;
    Ok (e, n, m, it, w).

(** The part of [connect] under the server's lock, when the server listens:
    [p] is the address of the new socket, [page] its ring's pages. *)
Definition connect_to (w : W) (a srv : Z) (c s : unix_socket) (p : Z) (page : list Z) : res W :=
  let server_peer := with_path (with_us_state (with_peer (unix_socket_alloc page) (Some a)) E_COM_SOCKET_STATE_CONNECTED) (binding_path s) in
  let client := with_us_state (with_peer c (Some p)) E_COM_SOCKET_STATE_CONNECTED in
  let w := set_sock (set_sock w p server_peer) a client in
  s ← deref (socks w !! srv);
  let w := set_sock w srv (with_accept s (srv_acceptq s ++ [p]) (tail (srv_acceptwait s))) in
  let w := match head (srv_acceptwait s) with Some t => log w (EvAccept t) | None => w end in
  Ok (unix_socket_poll_callback srv w).

Definition unix_socket_connect (w : W) (a : Z) (path : list Z) (p : Z) (page : list Z) : res (errno * W) :=
  c ← deref (socks w !! a);
  if bool_decide (us_state c = E_COM_SOCKET_STATE_CONNECTED) then Ok (EISCONN, w)
  else if negb (bool_decide (us_state c = E_COM_SOCKET_STATE_UNBOUND)) then Ok (EOPNOTSUPP, w)
  else match names_lookup (names w) path with
       | inl e => Ok (e, w)
       | inr (vn, is_socket) =>
           if negb is_socket then Ok (ENOTSOCK, w)
           else match vbind w !! vn with
                | None => Ok (ECONNREFUSED, w)
                | Some b =>
                    bd ← deref (binds w !! b);
                    s ← deref (socks w !! server bd);
                    if negb (bool_decide (us_state s = E_COM_SOCKET_STATE_LISTENING)) then Ok (ECONNREFUSED, w)
                    else w ← connect_to w a (server bd) c s p page; Ok (E0, w)
                end
       end.

Definition unix_socket_listen (w : W) (a max_connections : Z) : res (errno * W) :=
  s ← deref (socks w !! a);
  Ok (match us_state s with
      | E_COM_SOCKET_STATE_LISTENING => (E0, w)
      | E_COM_SOCKET_STATE_BOUND => (E0, set_sock w a (with_conns (with_us_state s E_COM_SOCKET_STATE_LISTENING) max_connections))
      | _ => (EOPNOTSUPP, w)
      end).

(** One turn of [accept] by thread [t]: [Some] of the result, or [None] when
    the thread sleeps on the accept queue. *)
Definition accept_turn (w : W) (a t : Z) : res (option Z * W) :=
  s ← deref (socks w !! a);
  match srv_acceptq s with
  | c :: q => Ok (Some c, set_sock w a (with_accept s q (srv_acceptwait s)))
  | [] => Ok (None, set_sock w a (with_accept s [] (srv_acceptwait s ++ [t])))
  end.

(** The loop of [accept]; [sleep] is what the others do until the thread is
    woken up. *)
Fixpoint accept_loop (fuel : nat) (sleep : W → option W) (w : W) (a t : Z) : res (Z * W) :=
  match fuel with
  | O => Fuel
  | S fuel =>
      '(c, w) ← accept_turn w a t;
      match c with
      | Some c => Ok (c, w)
      | None => match sleep w with Some w => accept_loop fuel sleep w a t | None => Fuel end
      end
  end.

Definition unix_socket_accept (fuel : nat) (sleep : W → option W) (w : W) (a t : Z) (nonblock : bool) : res (errno * option Z * W) :=
  s ← deref (socks w !! a);
  if negb (bool_decide (us_state s = E_COM_SOCKET_STATE_LISTENING)) then Ok (EINVAL, None, w)
  else if bool_decide (srv_acceptq s = []) && nonblock then Ok (EAGAIN, None, w)
  else '(c, w) ← accept_loop fuel sleep w a t; Ok (E0, Some c, w).

Definition unix_socket_getname (w : W) (a : Z) : res (list Z) :=
  s ← deref (socks w !! a); Ok (match srv_binding s with None => [] | Some _ => binding_path s end).

Definition unix_socket_getpeername (w : W) (a : Z) : res (list Z) :=
  s ← deref (socks w !! a);
  if negb (bool_decide (us_state s = E_COM_SOCKET_STATE_CONNECTED)) then Ok []
  else b ← deref (peer s); p ← deref (socks w !! b); Ok (binding_path p).

(** [POLLIN] and [POLLOUT]. *)
Definition unix_socket_poll (w : W) (a : Z) : res (bool * bool) :=
  s ← deref (socks w !! a);
  Ok (negb (bool_decide (srv_acceptq s = [])) || (0 <? KRINGBUFFER_AVAIL_READ (us_rb s)), 0 <? KRINGBUFFER_AVAIL_WRITE (us_rb s)).

Definition notify_both (w : W) (a : Z) : W := log (log w (EvRing a KRINGBUFFER_OP_READ)) (EvRing a KRINGBUFFER_OP_WRITE).

Definition unix_socket_destroy (w : W) (a : Z) : res W :=
  s ← deref (socks w !! a);
  let w := unix_socket_poll_callback a (notify_both (set_sock w a (with_peer s None)) a) in
  w ← match peer s with
      | None => Ok w
      | Some b =>
          p ← deref (socks w !! b);
          Ok (unix_socket_poll_callback a (notify_both (set_sock w b (with_peer p None)) b))
      end;
  Ok (Sockw (delete a (socks w)) (binds w) (vbind w) (names w) (events w)).

(** [FIONREAD]; [None] is [ENODEV]. *)
Definition unix_socket_ioctl (w : W) (a : Z) (fionread : bool) : res (option Z) :=
  s ← deref (socks w !! a); Ok (if fionread then Some (KRINGBUFFER_AVAIL_READ (us_rb s)) else None).

Definition com_ipc_socket_unix_new (w : W) (a : Z) (page : list Z) : W := set_sock w a (unix_socket_alloc page).

(** ** src/com/ipc/socket/socket.c *)
Definition com_ipc_socket_new (w : W) (type : com_socket_type) (a : Z) (page : list Z) : option W :=
  match type with
  | E_COM_SOCKET_TYPE_UNIX => Some (set_sock (com_ipc_socket_unix_new w a page) a (with_type (unix_socket_alloc page) type))
  | E_COM_SOCKET_TYPE_INVAL => None
  end.
End unix.

(** [sun_path] is the string at the address, up to its terminator, wherever
    that is; the copy ends in an array of [CONFIG_PATH_MAX] bytes. *)
Definition com_ipc_socket_addr_from_abi (af_unix : bool) (sun_path : list Z) : res (errno * list Z) :=
  if af_unix then if CONFIG_PATH_MAX <? Z.of_nat (length sun_path) then Fault else Ok (E0, sun_path)
  else Ok (EAFNOSUPPORT, []).

(** The bytes stored in [sun_path] and the length reported; [max] is an
    unsigned 32-bit number. *)
Definition com_ipc_socket_abi_from_addr (path : list Z) (socktype : com_socket_type) (max : Z) : res (list Z * Z) :=
  match socktype with
  | E_COM_SOCKET_TYPE_UNIX =>
      let copy_size := KMIN (Z.of_nat (length path)) (wrap 32 (max - 1)) in
      Ok (take (Z.to_nat copy_size) path ++ [0], copy_size)
  | E_COM_SOCKET_TYPE_INVAL => Panic
  end.

Definition com_ipc_socket_type_from_abi (af_unix : bool) : com_socket_type := if af_unix then E_COM_SOCKET_TYPE_UNIX else E_COM_SOCKET_TYPE_INVAL.

(** ** src/com/fs/sockfs.c

    A vnode of type socket is made by [com_fs_sockfs_new]. [VSock (Some a)] is
    one of a socket, [VSock None] one of a name in a file system, whose field
    for the socket stays null and whose operations are the file system's. *)
Inductive vkind : Type := VSock (socket : option Z).

Record sysw (N : Type) : Type := Sysw { s_mem : mem; s_fd : fdstate; s_w : sockw N; s_vns : gmap Z vkind }.
Arguments Sysw {N}. Arguments s_mem {N}. Arguments s_fd {N}. Arguments s_w {N}. Arguments s_vns {N}.

Section sys.
Context {N : Type} `{!socket_names N} (O_NONBLOCK O_CLOEXEC : Z).
Context (fuel : nat) (wait : rbop → kringbuffer → sockw N → option (kringbuffer * sockw N)) (signal : sockw N → bool).
Notation S := (sysw N).

Definition set_fdstate (s : S) (f : fdstate) : S := Sysw (s_mem s) f (s_w s) (s_vns s).
Definition set_w (s : S) (w : sockw N) : S := Sysw (s_mem s) (s_fd s) w (s_vns s).
Definition set_vn (s : S) (v : Z) (k : vkind) : S := Sysw (s_mem s) (s_fd s) (s_w s) (<[v := k]> (s_vns s)).
Definition flag (fl bit : Z) : bool := negb (Z.land bit fl =? 0).

(** Returns the error and the count. *)
Definition com_fs_sockfs_readv (s : S) (a : Z) (it : kioviter) (fl : Z) : res (errno * Z * kioviter * S) :=
  '(e, n, m, it, w) ← unix_socket_recv fuel wait signal (s_mem s) (s_w s) a it (total_size it) (flag fl O_NONBLOCK);
  Ok (e, n, it, Sysw m (s_fd s) w (s_vns s)).

Definition com_fs_sockfs_writev (s : S) (a : Z) (it : kioviter) (fl : Z) : res (errno * Z * kioviter * S) :=
  '(e, n, it, w) ← unix_socket_send fuel wait signal (s_mem s) (s_w s) a it (total_size it) (flag fl O_NONBLOCK);
  Ok (e, n, it, set_w s w).

Definition com_fs_sockfs_ioctl (s : S) (a : Z) (fionread : bool) : res (option Z) := unix_socket_ioctl (s_w s) a fionread.
Definition com_fs_sockfs_poll (s : S) (a : Z) : res (bool * bool) := unix_socket_poll (s_w s) a.

(** [close] of a vnode of a socket: the socket goes, then the vnode. *)
Definition com_fs_sockfs_close (s : S) (v a : Z) : res S :=
  w ← unix_socket_destroy (s_w s) a; Ok (Sysw (s_mem s) (s_fd s) w (delete v (s_vns s))).

(** [COM_FS_FILE_RELEASE] closes the vnode with the last reference to the
    file. A vnode that is not of a socket stays with those released. *)
Definition file_release (s : S) (f : option Z) : res S :=
  fs ← COM_FS_FILE_RELEASE (s_fd s) f;
  let s' := set_fdstate s fs in
  match drop (length (released (s_fd s))) (released fs) with
  | v :: _ => match s_vns s !! v with Some (VSock (Some a)) => com_fs_sockfs_close s' v a | _ => Ok s' end
  | [] => Ok s'
  end.

(** ** The system calls *)

(** What the calls on a socket do first and last; [k] is the rest, given the
    file and the socket. *)
Definition on_socket (s : S) (p : nat) (fd : Z) (k : com_file → Z → S → res (com_syscall_ret * S)) : res (com_syscall_ret * S) :=
  '(f, fs) ← com_sys_proc_get_file_nolock (s_fd s) p fd;
  let s := set_fdstate s fs in
  '(ret, s) ← match f with
    | None => Ok (COM_SYS_SYSCALL_ERR EBADF, s)
    | Some a =>
        x ← deref (files fs !! a);
        match vnode x ≫= λ v, s_vns s !! v with
        | Some (VSock None) => Panic
        | Some (VSock (Some so)) => k x so s
        | None => Ok (COM_SYS_SYSCALL_ERR ENOTSOCK, s)
        end
    end;
  s ← file_release s f;
  Ok (ret, s).

(** The end of [socket] and of [accept]: a file at [fa] on a new vnode [v] of
    the socket [so]. *)
Definition install_socket (s : S) (p : nat) (fd fa v so fl : Z) : res S :=
  t ← deref (tables (s_fd s) !! p);
  d ← deref (fd_at t fd);
  let fs := set_file (set_table (s_fd s) p (set_fd t fd (Filedesc (Some fa) (flags d)))) fa (File 0 fl 1 (Some v)) in
  Ok (set_vn (set_fdstate s fs) v (VSock (Some so))).

Definition next_fd_of (s : S) (p : nat) : res (Z * S) :=
  t ← deref (tables (s_fd s) !! p);
  let '(fd, t) := com_sys_proc_next_fd t in
  Ok (fd, set_fdstate s (set_table (s_fd s) p t)).

Definition com_sys_syscall_socket (s : S) (p : nat) (af_unix nonblock cloexec : bool) (so : Z) (page : list Z) (v fa : Z) : res (com_syscall_ret * S) :=
  let sys_type := com_ipc_socket_type_from_abi af_unix in
  if bool_decide (sys_type = E_COM_SOCKET_TYPE_INVAL) then Ok (COM_SYS_SYSCALL_ERR EAFNOSUPPORT, s)
  else
    '(fd, s) ← next_fd_of s p;
    if fd =? -1 then Ok (COM_SYS_SYSCALL_ERR EMFILE, s)
    else
      w ← deref (com_ipc_socket_new (s_w s) sys_type so page);
      let fl := Z.lor (if nonblock : bool then O_NONBLOCK else 0) (if cloexec : bool then O_CLOEXEC else 0) in
      s ← install_socket (set_w s w) p fd fa v so fl;
      Ok (COM_SYS_SYSCALL_OK fd, s).

Definition sock_result (e : errno) : com_syscall_ret := if bool_decide (e = E0) then COM_SYS_SYSCALL_OK 0 else COM_SYS_SYSCALL_ERR e.

(** [b] is the address of the binding. *)
Definition com_sys_syscall_bind (s : S) (p : nat) (sockfd : Z) (af_unix : bool) (sun_path : list Z) (b : Z) : res (com_syscall_ret * S) :=
  on_socket s p sockfd (λ _ so s,
    '(e, path) ← com_ipc_socket_addr_from_abi af_unix sun_path;
    if negb (bool_decide (e = E0)) then Ok (COM_SYS_SYSCALL_ERR e, s)
    else '(e, w) ← unix_socket_bind (s_w s) so path b; Ok (sock_result e, set_w s w)).

Definition com_sys_syscall_connect (s : S) (p : nat) (sockfd : Z) (af_unix : bool) (sun_path : list Z) (pa : Z) (page : list Z) : res (com_syscall_ret * S) :=
  on_socket s p sockfd (λ _ so s,
    '(e, path) ← com_ipc_socket_addr_from_abi af_unix sun_path;
    if negb (bool_decide (e = E0)) then Ok (COM_SYS_SYSCALL_ERR e, s)
    else '(e, w) ← unix_socket_connect (s_w s) so path pa page; Ok (sock_result e, set_w s w)).

Definition com_sys_syscall_listen (s : S) (p : nat) (sockfd max_connections : Z) : res (com_syscall_ret * S) :=
  on_socket s p sockfd (λ _ so s, '(e, w) ← unix_socket_listen (s_w s) so max_connections; Ok (sock_result e, set_w s w)).

(** After the new connection [c] was taken off the queue. *)
Definition accept_install (s : S) (p : nat) (c v fa : Z) : res (com_syscall_ret * S) :=
  '(fd, s) ← next_fd_of s p;
  if fd =? -1 then Ok (COM_SYS_SYSCALL_ERR EMFILE, s)
  else s ← install_socket s p fd fa v c 0; Ok (COM_SYS_SYSCALL_OK fd, s).

Definition com_sys_syscall_accept (sleep : sockw N → option (sockw N)) (s : S) (p : nat) (t sockfd v fa : Z) : res (com_syscall_ret * S) :=
  on_socket s p sockfd (λ x so s,
    '(e, c, w) ← unix_socket_accept fuel sleep (s_w s) so t (flag (file_flags x) O_NONBLOCK);
    let s := set_w s w in
    if negb (bool_decide (e = E0)) then Ok (COM_SYS_SYSCALL_ERR e, s)
    else c ← deref c; accept_install s p c v fa).

Definition com_sys_syscall_sendmsg (s : S) (p : nat) (sockfd : Z) (iovs : list iovec) : res (com_syscall_ret * S) :=
  on_socket s p sockfd (λ x so s,
    let it := kioviter_init iovs in
    '(e, n, _, w) ← unix_socket_send fuel wait signal (s_mem s) (s_w s) so it (total_size it) (flag (file_flags x) O_NONBLOCK);
    Ok (if bool_decide (e = E0) then COM_SYS_SYSCALL_OK n else COM_SYS_SYSCALL_ERR e, set_w s w)).

Definition com_sys_syscall_recvmsg (s : S) (p : nat) (sockfd : Z) (iovs : list iovec) : res (com_syscall_ret * S) :=
  on_socket s p sockfd (λ x so s,
    let it := kioviter_init iovs in
    '(e, n, m, _, w) ← unix_socket_recv fuel wait signal (s_mem s) (s_w s) so it (total_size it) (flag (file_flags x) O_NONBLOCK);
    Ok (if bool_decide (e = E0) then COM_SYS_SYSCALL_OK n else COM_SYS_SYSCALL_ERR e, Sysw m (s_fd s) w (s_vns s))).

(** [sun_path] is the address of that field of the caller's structure. *)
Definition com_sys_syscall_getpeername (s : S) (p : nat) (sockfd sun_path max_addrlen : Z) : res (com_syscall_ret * S) :=
  on_socket s p sockfd (λ _ so s,
    path ← unix_socket_getpeername (s_w s) so;
    x ← deref (socks (s_w s) !! so);
    '(bs, n) ← com_ipc_socket_abi_from_addr path (us_type x) max_addrlen;
    Ok (COM_SYS_SYSCALL_OK n, Sysw (wr_bytes (s_mem s) sun_path bs) (s_fd s) (s_w s) (s_vns s))).

Definition sock_close (s : S) (p : nat) (fd : Z) : res (com_syscall_ret * S) :=
  t ← deref (tables (s_fd s) !! p);
  '(e, f, t) ← com_sys_proc_close_file_nolock t fd;
  s ← file_release (set_fdstate s (set_table (s_fd s) p t)) f;
  Ok (sock_result e, s).
End sys.

(** ** Messages of one piece *)
Definition one (buf n : Z) : kioviter := kioviter_init [mkIov buf n].

Lemma one_wf buf n : 0 ≤ n < 2 ^ 64 → it_wf (one buf n) ∧ total_size (one buf n) = n ∧ KIOVITER_REMAINING (one buf n) = n ∧
  KIOVITER_CURR_REMAINING (one buf n) = Ok n.
Proof.
  intros Hn. assert (Hs : total_size (one buf n) = n) by (cbn; rewrite wrap_small; lia).
  assert (it_wf (one buf n)).
  { split; [split; [apply Forall_singleton; cbn; lia|cbn; lia]|]. split; [rewrite Hs; cbn; lia|]. exists (mkIov buf n). cbn. split_and!; (done || lia). }
  split_and!; [done|done|unfold KIOVITER_REMAINING; rewrite Hs; cbn [total_off one kioviter_init]; rewrite wrap_small; lia|].
  change (KIOVITER_CURR_REMAINING (one buf n)) with (Ok (wrap 64 (n - 0))). by rewrite Z.sub_0_r, wrap_small.
Qed.

(** Back to the start, and past the end. *)
Lemma one_goto_0 buf n : 0 ≤ n < 2 ^ 64 → ∃ x it, kioviter_goto (one buf n) 0 = Ok (x, it).
Proof. intros Hn. destruct (kioviter_skip_ok (one buf n) 0 (proj1 (one_wf buf n Hn)) ltac:(lia)) as (it & Hs & _). by eexists _, it. Qed.

Lemma one_skip buf n : 0 ≤ n < 2 ^ 64 → ∃ x it, kioviter_skip (one buf n) n = Ok (x, it) ∧ KIOVITER_FINISHED it = true.
Proof.
  intros Hn. destruct (one_wf buf n Hn) as (Hwf & Hs & _).
  destruct (kioviter_skip_ok (one buf n) n Hwf ltac:(lia)) as (it & Hk & _ & _ & Hts & Hto & _).
  eexists _, it. split; [exact Hk|]. unfold KIOVITER_FINISHED. rewrite Hto, Hts, Hs. cbn. apply Z.eqb_eq. lia.
Qed.

Section one_piece.
Context {W : Type} (K : rbkern W).

(** The writer of the ring, when it does not have to sleep. *)
Lemma write_one fuel m rb w buf n (nb : bool) :
  (∀ k, check_hangup K k 0 KRINGBUFFER_OP_WRITE rb w = Ok (None, k, w)) → rb_wf rb → 1 < rb_buffer_size rb → 0 ≤ n < 2 ^ 64 →
  nb = true ∨ n ≤ KRINGBUFFER_AVAIL_WRITE rb →
  let k := Z.min n (KRINGBUFFER_AVAIL_WRITE rb) in
  (nb = true ∧ k < 1 ∧ kringbuffer_write_nolock K (S (S fuel)) m rb w buf n 1 (negb nb) = Ok (EAGAIN, n, rb, w)) ∨
  (nb && (k <? 1) = false ∧ ∃ rb' w', kringbuffer_write_nolock K (S (S fuel)) m rb w buf n 1 (negb nb) = Ok (E0, k, rb', w') ∧
    (w' = w ∨ w' = run_callback K (rk_notify K KRINGBUFFER_OP_READ w)) ∧
    rb_wf rb' ∧ rb_contents rb' = rb_contents rb ++ rd_bytes m buf (Z.to_nat k) ∧ rb_buffer_size rb' = rb_buffer_size rb ∧ rb_is_eof rb' = rb_is_eof rb).
Proof.
  intros Hh Hwf Hs Hn Haw k. pose proof (rb_size_range rb Hwf). pose proof (avail_read_range rb Hwf). pose proof (avail_write_eq rb Hwf).
  unfold kringbuffer_write_nolock. destruct (Z.eqb_spec (rb_buffer_size rb) 0); [lia|]. destruct (Z.ltb_spec 1 (rb_buffer_size rb)); [|lia]. mstep.
  assert (Hc : ∀ j, 0 ≤ j ≤ KRINGBUFFER_AVAIL_WRITE rb → ∃ rb', write_chunk m rb buf j = Ok rb' ∧ rb_wf rb' ∧
    rb_contents rb' = rb_contents rb ++ rd_bytes m buf (Z.to_nat j) ∧ rb_buffer_size rb' = rb_buffer_size rb ∧ rb_is_eof rb' = rb_is_eof rb)
    by (intros j Hj; apply write_chunk_spec; [done|lia]).
  destruct nb; cbn [negb].
  - unfold write_nonblocking. rewrite Hh. mstep. rewrite KMIN_min. fold k. destruct (Z.ltb_spec k 1); [left; done|]. right. split; [done|].
    destruct (Hc k ltac:(lia)) as (rb' & -> & ?). mstep. exists rb'. eexists. split; [done|]. by split; [right|].
  - assert (k = n) as -> by (destruct Haw; [done|lia]). right. split; [done|]. unfold write_blocking. cbn [write_blocking_loop].
    destruct (Z.ltb_spec 0 n).
    + rewrite Hh. mstep. cbn [write_wait]. destruct (Z.ltb_spec (KRINGBUFFER_AVAIL_WRITE rb) 1); [lia|]. mstep. rewrite KMIN_min, Z.min_l by lia.
      destruct (Hc n ltac:(lia)) as (rb' & -> & ?). mstep. rewrite Z.sub_diag. exists rb'. eexists. split; [cbn [Z.ltb Z.compare]; by rewrite Z.add_0_l, wrap_small|]. by split; [right|].
    + assert (n = 0) as -> by lia. exists rb, w. split; [done|]. split; [by left|]. by rewrite app_nil_r.
Qed.

Lemma send_one fuel m rb w buf n (nb : bool) :
  (∀ k, check_hangup K k 0 KRINGBUFFER_OP_WRITE rb w = Ok (None, k, w)) → rb_wf rb → 1 < rb_buffer_size rb → 0 ≤ n < 2 ^ 64 →
  nb = true ∨ n ≤ KRINGBUFFER_AVAIL_WRITE rb →
  let k := Z.min n (KRINGBUFFER_AVAIL_WRITE rb) in
  ∃ rb' w' it, kioviter_read_to_ringbuffer_nolock K (S (S fuel)) m rb w 1 (negb nb) (one buf n) n =
      Ok (if nb && (k <? 1) then EAGAIN else E0, k, rb', w', it) ∧ (w' = w ∨ w' = run_callback K (rk_notify K KRINGBUFFER_OP_READ w)) ∧
    rb_wf rb' ∧ rb_contents rb' = rb_contents rb ++ rd_bytes m buf (Z.to_nat k) ∧ rb_buffer_size rb' = rb_buffer_size rb ∧ rb_is_eof rb' = rb_is_eof rb.
Proof.
  intros Hh Hwf Hs Hn Haw k. destruct (one_wf buf n Hn) as (_ & _ & Hr & Hc). pose proof (avail_read_range rb Hwf). pose proof (avail_write_eq rb Hwf).
  unfold kioviter_read_to_ringbuffer_nolock. cbn [to_ring_loop]. rewrite Hr, Hc. mstep. rewrite !KMIN_min, !Z.min_id.
  change (curr (one buf n)) with (Ok (mkIov buf n)). mstep. change (iov_base (mkIov buf n) + curr_off (one buf n)) with (buf + 0). rewrite Z.add_0_r.
  destruct (write_one fuel m rb w buf n nb Hh Hwf Hs Hn Haw) as [(-> & Hk & ->)|(Hk & rb' & w' & -> & Hw & Hwf' & Hc' & Hsz & He)]; fold k in Hk |- *; mstep.
  - destruct (one_goto_0 buf n Hn) as (y & it & Hg). exists rb, w, it.
    rewrite bool_decide_false by done. cbn [negb]. mstep. rewrite bool_decide_false by done. cbn [negb].
    change (u64 (curr_off (one buf n) + 0)) with 0. rewrite Hg. mstep. destruct (Z.ltb_spec k 1); [|lia]. replace k with 0 by lia.
    split_and!; [done|by left|done|by rewrite app_nil_r|done..].
  - destruct (one_skip buf n Hn) as (y & it & -> & Hfin). mstep. rewrite Hfin, andb_false_r. mstep.
    exists rb', w', it. rewrite Hk, wrap_small by lia. by split_and!.
Qed.

Lemma recv_one fuel m rb w buf n (nb : bool) :
  (∀ k, check_hangup K k k KRINGBUFFER_OP_READ rb w = Ok (None, k, w)) → rb_wf rb → rb_is_eof rb = false → 1 < rb_buffer_size rb → 0 ≤ n < 2 ^ 64 →
  nb = true ∨ 0 < KRINGBUFFER_AVAIL_READ rb →
  let k := Z.min n (KRINGBUFFER_AVAIL_READ rb) in
  if KRINGBUFFER_AVAIL_READ rb <? 1 then ∃ it, kioviter_write_from_ringbuffer_nolock K (S fuel) m (one buf n) n rb w 1 (negb nb) = Ok (EAGAIN, 0, m, rb, w, it)
  else ∃ rb' it, kioviter_write_from_ringbuffer_nolock K (S fuel) m (one buf n) n rb w 1 (negb nb) =
      Ok (E0, k, wr_bytes m buf (take (Z.to_nat k) (rb_contents rb)), rb', run_callback K (rk_notify K KRINGBUFFER_OP_WRITE w), it) ∧
    rb_wf rb' ∧ rb_contents rb' = drop (Z.to_nat k) (rb_contents rb) ∧ rb_buffer_size rb' = rb_buffer_size rb ∧ rb_is_eof rb' = false.
Proof.
  intros Hh Hwf He Hs Hn Haw k. destruct (one_wf buf n Hn) as (_ & _ & Hr & Hc).
  unfold kioviter_write_from_ringbuffer_nolock. cbn [from_ring_loop]. rewrite Hr, Hc. mstep. rewrite !KMIN_min, !Z.min_id.
  change (curr (one buf n)) with (Ok (mkIov buf n)). mstep. change (iov_base (mkIov buf n) + curr_off (one buf n)) with (buf + 0). rewrite Z.add_0_r.
  unfold kringbuffer_read_nolock. rewrite Hh. mstep. destruct (Z.ltb_spec 1 (rb_buffer_size rb)); [|lia]. mstep. cbn [read_wait]. rewrite He.
  pose proof (avail_read_range rb Hwf). destruct (Z.ltb_spec (KRINGBUFFER_AVAIL_READ rb) 1); cbn [andb negb]; mstep.
  - assert (nb = true) as -> by (destruct Haw; [done|lia]). cbn [negb]. mstep. destruct (one_goto_0 buf n Hn) as (y & it & Hg). exists it.
    rewrite bool_decide_false by done. cbn [negb]. mstep. rewrite bool_decide_false by done. cbn [negb].
    change (u64 (curr_off (one buf n) + 0)) with 0. by rewrite Hg.
  - destruct (read_chunk_spec K m buf rb w n Hwf He) as (rb' & -> & Hwf' & Hc' & Hsz & He'); [lia|]. mstep.
    destruct (one_skip buf n Hn) as (y & it & -> & Hfin). mstep. rewrite Hfin, andb_false_r. mstep.
    exists rb', it. cbn [default]; unfold id. rewrite wrap_small by lia. by split_and!.
Qed.
End one_piece.

(** ** The invariant

    Peers are live and each other's peers; the connections that wait in a
    queue are live and wait in one queue, once; a name leads to a live
    server; the rings are well formed. *)
Section wf.
Context {N : Type} `{!socket_names N}.
Notation W := (sockw N).

Definition ring_ok (s : unix_socket) : Prop := rb_wf (us_rb s) ∧ rb_is_eof (us_rb s) = false ∧ 1 < rb_buffer_size (us_rb s).

Record sock_ok (w : W) (a : Z) (s : unix_socket) : Prop := {
  so_ring : ring_ok s;
  so_peer b : peer s = Some b → ∃ p, b ≠ a ∧ socks w !! b = Some p ∧ peer p = Some a;
  so_unbound : us_state s = E_COM_SOCKET_STATE_UNBOUND → peer s = None;
  so_queue c : c ∈ srv_acceptq s → is_Some (socks w !! c);
  so_nodup : NoDup (srv_acceptq s)
}.

Record sock_wf (w : W) : Prop := {
  sw_ok a s : socks w !! a = Some s → sock_ok w a s;
  sw_once a a' s s' c : socks w !! a = Some s → socks w !! a' = Some s' → c ∈ srv_acceptq s → c ∈ srv_acceptq s' → a = a';
  sw_names vn b : vbind w !! vn = Some b → ∃ bd, binds w !! b = Some bd ∧ is_Some (socks w !! server bd)
}.

(** The events play no part. *)
Definition quiet (w w' : W) : Prop := socks w' = socks w ∧ binds w' = binds w ∧ vbind w' = vbind w ∧ names w' = names w.

Lemma quiet_wf w w' : quiet w w' → sock_wf w → sock_wf w'.
Proof.
  intros (Hs & Hb & Hv & _) [Hok Ho Hn]. constructor.
  - intros a s. rewrite Hs. intros Ha. destruct (Hok a s Ha). constructor; [done|rewrite Hs; done|done|rewrite Hs; done|done].
  - rewrite Hs. exact Ho.
  - rewrite Hv, Hb, Hs. exact Hn.
Qed.

Lemma quiet_log (w : W) e : quiet w (log w e).
Proof. done. Qed.

Lemma quiet_poll a (w : W) : quiet w (unix_socket_poll_callback a w).
Proof. unfold unix_socket_poll_callback. by destruct (socks w !! a). Qed.

Lemma quiet_trans (w w' w'' : W) : quiet w w' → quiet w' w'' → quiet w w''.
Proof. intros (? & ? & ? & ?) (? & ? & ? & ?). unfold quiet. split_and!; congruence. Qed.

(** A socket that keeps its peer; what is new in its queue is in no queue. *)
Lemma update_gen w a s s' : sock_wf w → socks w !! a = Some s → ring_ok s' → peer s' = peer s → NoDup (srv_acceptq s') →
  (∀ c, c ∈ srv_acceptq s' → c ∈ srv_acceptq s ∨ is_Some (socks w !! c) ∧ ∀ d sd, socks w !! d = Some sd → c ∉ srv_acceptq sd) →
  (us_state s' = E_COM_SOCKET_STATE_UNBOUND → us_state s = E_COM_SOCKET_STATE_UNBOUND) → sock_wf (set_sock w a s').
Proof.
  intros [Hok Ho Hn] Ha Hr Hp Hnd Hq Hst. destruct (Hok a s Ha) as [_ Hpa Hua Hqa Hna].
  assert (Hlive : ∀ c, is_Some (socks w !! c) → is_Some (<[a:=s']> (socks w) !! c)).
  { intros c ?. destruct (decide (c = a)) as [->|]; [rewrite lookup_insert_eq; done|by rewrite lookup_insert_ne]. }
  constructor; cbn [set_sock socks binds vbind].
  - intros b sb. intros [[-> ->]|[Hne Hb]]%lookup_insert_Some.
    + constructor; [done| | | |done].
      * intros c. rewrite Hp. intros Hc. destruct (Hpa c Hc) as (p & Hca & Hsc & Hpc). exists p. cbn [set_sock socks]. by rewrite lookup_insert_ne.
      * intros H. rewrite Hp. auto.
      * intros c Hc. apply Hlive. destruct (Hq c Hc) as [?|[? _]]; auto.
    + destruct (Hok b sb Hb) as [? Hpb ? Hqb ?]. constructor; [done| |done| |done].
      * intros c Hc. destruct (Hpb c Hc) as (p & Hca & Hsc & Hpc). destruct (decide (c = a)) as [->|].
        -- exists s'. cbn [set_sock socks]. rewrite lookup_insert_eq, Hp. split_and!; [done..|]. congruence.
        -- exists p. cbn [set_sock socks]. by rewrite lookup_insert_ne.
      * intros c Hc. apply Hlive, Hqb, Hc.
  - intros b b' sb sb' c Hb Hb' Hc Hc'. apply lookup_insert_Some in Hb as [[<- <-]|[? Hb]], Hb' as [[<- <-]|[? Hb']]; [done| | |by eauto].
    + destruct (Hq c Hc) as [?|[_ Hno]]; [by eauto|]. by destruct (Hno b' sb' Hb').
    + destruct (Hq c Hc') as [?|[_ Hno]]; [by eauto|]. by destruct (Hno b sb Hb).
  - intros vn b Hv. destruct (Hn vn b Hv) as (bd & ? & ?). exists bd. auto.
Qed.

Lemma update_ok w a s s' pre : sock_wf w → socks w !! a = Some s → ring_ok s' → peer s' = peer s → srv_acceptq s = pre ++ srv_acceptq s' →
  (us_state s' = E_COM_SOCKET_STATE_UNBOUND → us_state s = E_COM_SOCKET_STATE_UNBOUND) → sock_wf (set_sock w a s').
Proof.
  intros Hwf Ha Hr Hp Hq Hst. pose proof (so_nodup _ _ _ (sw_ok w Hwf a s Ha)) as Hnd. rewrite Hq in Hnd.
  apply NoDup_app in Hnd as (_ & _ & Hnd). apply (update_gen w a s s' Hwf Ha Hr Hp Hnd); [|done].
  intros c Hc. left. rewrite Hq. set_solver.
Qed.

Lemma bind_ok w a s path b : sock_wf w → socks w !! a = Some s → binds w !! b = None → Z.of_nat (length path) ≤ CONFIG_PATH_MAX →
  ∃ e w', unix_socket_bind w a path b = Ok (e, w') ∧ sock_wf w'.
Proof.
  intros Hwf Ha Hb Hlen. unfold unix_socket_bind. rewrite Ha. mstep.
  destruct (names_mksocket (names w) path) as [e|[vn n]]; [by eexists _, _|].
  destruct (Z.ltb_spec CONFIG_PATH_MAX (Z.of_nat (length path))); [lia|].
  eexists _, _. split; [done|]. pose proof (so_ring _ _ _ (sw_ok w Hwf a s Ha)).
  destruct (update_ok w a s (with_binding s b path) [] Hwf Ha) as [Hok Ho Hn]; try done.
  constructor; [intros a' s' H'; destruct (Hok a' s' H'); by constructor|exact Ho|].
  cbn [binds vbind socks] in *. intros vn' b' [[-> <-]|[? Hv]]%lookup_insert_Some.
  - eexists. rewrite lookup_insert_eq. split; [done|]. cbn [server]. by rewrite lookup_insert_eq.
  - destruct (Hn vn' b' Hv) as (bd & Hbd & Hl). exists bd. cbn [set_sock binds socks] in *. rewrite lookup_insert_ne by congruence. done.
Qed.

Lemma alloc_ring page : Z.of_nat (length page) = CONFIG_UNIX_SOCK_RB_SIZE → ring_ok (unix_socket_alloc page).
Proof.
  intros Hp. split; [|split; [done|done]]. unfold rb_wf. cbn [unix_socket_alloc us_rb KRINGBUFFER_INIT_CUSTOM rb_buffer rb_buffer_size rb_write_index rb_read_index].
  split; [by exists 18|]. split; [exact Hp|]. split_and!; (done || vm_compute; done).
Qed.

(** A new socket, without a peer. *)
Lemma fresh_ok w p s : sock_wf w → socks w !! p = None → ring_ok s → peer s = None → srv_acceptq s = [] → sock_wf (set_sock w p s).
Proof.
  intros [Hok Ho Hn] Hp Hr Hpe Hq.
  assert (Hlive : ∀ c, is_Some (socks w !! c) → is_Some (<[p:=s]> (socks w) !! c)).
  { intros c [x Hc]. rewrite lookup_insert_ne; [by eexists|congruence]. }
  constructor; cbn [set_sock socks binds vbind].
  - intros b sb [[<- <-]|[Hne Hb]]%lookup_insert_Some.
    + constructor; [done| | | |rewrite Hq; constructor]; rewrite ?Hpe, ?Hq; [done..|]. intros c Hc. by apply elem_of_nil in Hc.
    + destruct (Hok b sb Hb) as [? Hpb ? Hqb ?]. constructor; [done| |done| |done].
      * intros c Hc. destruct (Hpb c Hc) as (q & Hca & Hsc & Hpc). exists q. cbn [set_sock socks]. rewrite lookup_insert_ne by congruence. done.
      * intros c Hc. by apply Hlive, Hqb.
  - intros b b' sb sb' c Hb Hb' Hc Hc'. apply lookup_insert_Some in Hb as [[<- <-]|[? Hb]], Hb' as [[<- <-]|[? Hb']];
      rewrite ?Hq in *; try (by apply elem_of_nil in Hc); try (by apply elem_of_nil in Hc'). eauto.
  - intros vn b Hv. destruct (Hn vn b Hv) as (bd & ? & ?). exists bd. auto.
Qed.

(** Two sockets without a peer become peers. *)
Lemma pair_ok w a b sa sb sa' sb' : sock_wf w → a ≠ b → socks w !! a = Some sa → socks w !! b = Some sb → peer sa = None → peer sb = None →
  ring_ok sa' → ring_ok sb' → peer sa' = Some b → peer sb' = Some a → srv_acceptq sa' = srv_acceptq sa → srv_acceptq sb' = srv_acceptq sb →
  us_state sa' ≠ E_COM_SOCKET_STATE_UNBOUND → us_state sb' ≠ E_COM_SOCKET_STATE_UNBOUND → sock_wf (set_sock (set_sock w b sb') a sa').
Proof.
  intros [Hok Ho Hn] Hne Ha Hb Hpa Hpb Hra Hrb Hpa' Hpb' Hqa Hqb Hsa Hsb.
  assert (Hlive : ∀ c, is_Some (socks w !! c) → is_Some (<[a:=sa']> (<[b:=sb']> (socks w)) !! c)).
  { intros c ?. destruct (decide (c = a)) as [->|]; [by rewrite lookup_insert_eq|]. rewrite lookup_insert_ne by done.
    destruct (decide (c = b)) as [->|]; [by rewrite lookup_insert_eq|]. by rewrite lookup_insert_ne. }
  assert (Hq : ∀ c s, <[a:=sa']> (<[b:=sb']> (socks w)) !! c = Some s → ∃ s0, socks w !! c = Some s0 ∧ srv_acceptq s = srv_acceptq s0).
  { intros c s [[<- <-]|[? [[<- <-]|[? ?]]%lookup_insert_Some]]%lookup_insert_Some; eauto. }
  constructor; cbn [set_sock socks binds vbind].
  - intros c s Hc. destruct (Hq c s Hc) as (s0 & Hs0 & Hqs). destruct (Hok c s0 Hs0) as [H1 H2 H3 H4 H5].
    assert (Hqc : ∀ d, d ∈ srv_acceptq s → is_Some (<[a:=sa']> (<[b:=sb']> (socks w)) !! d)) by (intros d Hd; apply Hlive, H4; congruence).
    apply lookup_insert_Some in Hc as [[<- <-]|[? [[<- <-]|[? Hc]]%lookup_insert_Some]].
    + constructor; [done| |done|exact Hqc|congruence]. rewrite Hpa'. intros ? [= <-]. exists sb'. cbn [set_sock socks].
      rewrite lookup_insert_ne, lookup_insert_eq by done. done.
    + constructor; [done| |done|exact Hqc|congruence]. rewrite Hpb'. intros ? [= <-]. exists sa'. cbn [set_sock socks]. by rewrite lookup_insert_eq.
    + replace s with s0 in * by congruence. constructor; [done| |done|exact Hqc|congruence]. intros d Hd. destruct (H2 d Hd) as (p & ? & ? & ?). exists p. cbn [set_sock socks].
      rewrite !lookup_insert_ne by congruence. done.
  - intros c c' s s' d Hc Hc' Hd Hd'. destruct (Hq c s Hc) as (? & ? & He), (Hq c' s' Hc') as (? & ? & He'). rewrite He in Hd. rewrite He' in Hd'. eauto.
  - intros vn c Hv. destruct (Hn vn c Hv) as (bd & ? & ?). exists bd. auto.
Qed.

Lemma connect_ok w a s path p page : sock_wf w → socks w !! a = Some s → socks w !! p = None → Z.of_nat (length page) = CONFIG_UNIX_SOCK_RB_SIZE →
  ∃ e w', unix_socket_connect w a path p page = Ok (e, w') ∧ sock_wf w'.
Proof.
  intros Hwf Ha Hp Hpage. unfold unix_socket_connect. rewrite Ha. mstep.
  destruct (us_state s) eqn:Hst; cbn [bool_decide]; try (by eexists _, _).
  rewrite bool_decide_false, bool_decide_true by done. cbn [negb].
  destruct (names_lookup (names w) path) as [e|[vn []]]; cbn [negb]; [by eexists _, _| |by eexists _, _].
  destruct (vbind w !! vn) as [b|] eqn:Hv; [|by eexists _, _].
  destruct (sw_names w Hwf vn b Hv) as (bd & Hb & [sv Hsv]). rewrite Hb. mstep. rewrite Hsv. mstep.
  destruct (decide (us_state sv = E_COM_SOCKET_STATE_LISTENING)) as [Hl|]; [rewrite bool_decide_true by done|rewrite bool_decide_false by done; by eexists _, _]. cbn [negb].
  assert (server bd ≠ a) by congruence. assert (server bd ≠ p) by congruence. assert (a ≠ p) by congruence.
  unfold connect_to. cbn [set_sock socks]. rewrite !lookup_insert_ne, Hsv by done. mstep. eexists _, _. split; [done|].
  set (sp := with_path _ _). set (ca := with_us_state _ _). set (sq := with_accept _ _ _).
  pose proof (sw_ok w Hwf a s Ha) as Hoa. pose proof (sw_ok w Hwf _ _ Hsv) as Hov.
  assert (Hw1 : sock_wf (set_sock w p (unix_socket_alloc page))) by (apply fresh_ok; [done|done|by apply alloc_ring|done|done]).
  assert (Hw2 : sock_wf (set_sock (set_sock w p sp) a ca)).
  { replace (set_sock w p sp) with (set_sock (set_sock w p (unix_socket_alloc page)) p sp) by (unfold set_sock; cbn; by rewrite insert_insert_eq).
    apply (pair_ok _ a p s (unix_socket_alloc page)); cbn [set_sock socks]; rewrite ?lookup_insert_ne by done; rewrite ?lookup_insert_eq; try done.
    - by apply (so_unbound _ _ _ Hoa).
    - apply (so_ring _ _ _ Hoa).
    - apply (alloc_ring page Hpage). }
  assert (Hw3 : sock_wf (set_sock (set_sock (set_sock w p sp) a ca) (server bd) sq)).
  { assert (Hnq : ∀ d sd, socks w !! d = Some sd → p ∉ srv_acceptq sd).
    { intros d sd Hd Hin. destruct (so_queue _ _ _ (sw_ok w Hwf d sd Hd) p Hin). congruence. }
    apply (update_gen _ _ sv); cbn [set_sock socks]; rewrite ?lookup_insert_ne by done; try done.
    - apply (so_ring _ _ _ Hov).
    - cbn. apply NoDup_app. split_and!; [apply (so_nodup _ _ _ Hov)| |apply NoDup_singleton]. intros c Hc ->%list_elem_of_singleton. by apply (Hnq (server bd) sv).
    - intros c [?| ->%list_elem_of_singleton]%elem_of_app; [by left|right]. split; [rewrite lookup_insert_ne, lookup_insert_eq by done; by eexists|].
      intros d sd [[<- <-]|[? [[<- <-]|[? Hd]]%lookup_insert_Some]]%lookup_insert_Some; [apply (Hnq a s Ha)|apply not_elem_of_nil|by apply (Hnq d)]. }
  eapply quiet_wf; [|exact Hw3]. eapply quiet_trans; [|apply quiet_poll]. by destruct (srv_acceptwait sv).
Qed.

Lemma set_same (w : W) a s : socks w !! a = Some s → set_sock w a s = w.
Proof. intros Ha. destruct w. unfold set_sock. cbn in *. by rewrite insert_id. Qed.

Lemma listen_ok w a s n : sock_wf w → socks w !! a = Some s → ∃ e w', unix_socket_listen w a n = Ok (e, w') ∧ sock_wf w'.
Proof.
  intros Hwf Ha. unfold unix_socket_listen. rewrite Ha. mstep. destruct (us_state s); eexists _, _; (split; [done|]); try done.
  apply (update_ok w a s _ [] Hwf Ha); try done. apply (so_ring _ _ _ (sw_ok w Hwf a s Ha)).
Qed.

(** One turn of [accept] either takes the oldest connection or queues the
    thread. *)
Lemma accept_turn_ok w a s t : sock_wf w → socks w !! a = Some s →
  ∃ w', accept_turn w a t = Ok (head (srv_acceptq s), w') ∧ sock_wf w' ∧
    ∃ wl, socks w' = <[a := with_accept s (tail (srv_acceptq s)) wl]> (socks w).
Proof.
  intros Hwf Ha. pose proof (so_ring _ _ _ (sw_ok w Hwf a s Ha)). pose proof (so_nodup _ _ _ (sw_ok w Hwf a s Ha)).
  unfold accept_turn. rewrite Ha. mstep. destruct (srv_acceptq s) as [|c q] eqn:Hq; eexists; (split; [done|split; [|by eexists]]).
  - apply (update_ok w a s _ [] Hwf Ha); try done.
  - by apply (update_ok w a s _ [c] Hwf Ha).
Qed.

Lemma put_rb_ok (w : W) a s rb : socks w !! a = Some s → put_rb w a rb = Ok (set_sock w a (with_rb s rb)).
Proof. intros Ha. unfold put_rb. by rewrite Ha. Qed.

Section transfer.
Context (fuel : nat) (wait : rbop → kringbuffer → W → option (kringbuffer * W)) (signal : W → bool).

(** A blocking transfer does not sleep when the peer's ring has room for all
    of the message, or when there is something to receive; nor does any
    transfer on a socket that is not connected. *)
Definition connected (s : unix_socket) : bool := bool_decide (us_state s = E_COM_SOCKET_STATE_CONNECTED).
Definition send_awake (w : W) (a n : Z) : bool :=
  match socks w !! a with
  | Some s => negb (connected s) || match peer s ≫= λ b, socks w !! b with Some p => n <=? KRINGBUFFER_AVAIL_WRITE (us_rb p) | None => true end
  | None => true
  end.
Definition recv_awake (w : W) (a : Z) : bool :=
  match socks w !! a with Some s => negb (connected s) || (0 <? KRINGBUFFER_AVAIL_READ (us_rb s)) | None => true end.

Lemma send_awake_room w a s b p n : socks w !! a = Some s → us_state s = E_COM_SOCKET_STATE_CONNECTED → peer s = Some b → socks w !! b = Some p →
  send_awake w a n = true → n ≤ KRINGBUFFER_AVAIL_WRITE (us_rb p).
Proof. intros Ha Hs Hb Hp. unfold send_awake, connected. rewrite Ha, bool_decide_true, Hb by done. cbn. rewrite Hp. apply Z.leb_le. Qed.

Lemma recv_awake_some w a s : socks w !! a = Some s → us_state s = E_COM_SOCKET_STATE_CONNECTED → recv_awake w a = true → 0 < KRINGBUFFER_AVAIL_READ (us_rb s).
Proof. intros Ha Hs. unfold recv_awake, connected. rewrite Ha, bool_decide_true by done. apply Z.ltb_lt. Qed.

(** What a send of one piece does when it does not sleep: as much as fits goes
    to the end of the peer's ring. *)
Lemma send_ok m w a s b p buf n (nb : bool) : sock_wf w → socks w !! a = Some s → us_state s = E_COM_SOCKET_STATE_CONNECTED → peer s = Some b → socks w !! b = Some p → 0 ≤ n < 2 ^ 64 →
  nb || send_awake w a n = true →
  let k := Z.min n (KRINGBUFFER_AVAIL_WRITE (us_rb p)) in
  ∃ it w' rb, unix_socket_send (S (S fuel)) wait signal m w a (one buf n) n nb = Ok (if nb && (k <? 1) then EAGAIN else E0, k, it, w') ∧ sock_wf w' ∧
    socks w' = <[b := with_rb p rb]> (socks w) ∧ rb_contents rb = rb_contents (us_rb p) ++ rd_bytes m buf (Z.to_nat k).
Proof.
  intros Hwf Ha Hs Hb Hp Hn Haw k. unfold unix_socket_send. rewrite Ha. mstep. rewrite bool_decide_true, Hb, Hp by done. mstep. cbn [negb].
  destruct (so_peer _ _ _ (sw_ok w Hwf a s Ha) b Hb) as (p' & Hne & Hp' & Hpa). assert (p' = p) as -> by congruence.
  destruct (so_ring _ _ _ (sw_ok w Hwf b p Hp)) as (Hr & He & Hsz).
  set (K := unix_kern wait signal b). change KRINGBUFFER_NOATOMIC with 1.
  assert (Hh : ∀ j, check_hangup K j 0 KRINGBUFFER_OP_WRITE (us_rb p) w = Ok (None, j, w)).
  { intros j. unfold check_hangup. cbn [K unix_kern rk_hangup]. unfold unix_socket_rb_check_hangup. rewrite Hp. mstep. by rewrite Hpa. }
  destruct (send_one K fuel m (us_rb p) w buf n nb Hh Hr Hsz Hn) as (rb & w1 & it & -> & Hw & Hr' & Hc & Hsz' & He');
    [apply orb_true_iff in Haw as [|Haw]; [by left|right; by apply (send_awake_room w a s b)]|]. fold k in Hc |- *. mstep.
  assert (Hq : quiet w w1) by (destruct Hw as [->| ->]; [done|]; eapply quiet_trans; [apply quiet_log|apply quiet_poll]). pose proof Hq as (Hq1 & _). clear Hw.
  rewrite (put_rb_ok w1 b p) by congruence. mstep. exists it, (set_sock w1 b (with_rb p rb)), rb. split; [done|]. split; [|split; [by cbn; rewrite Hq1|done]].
  apply (update_ok _ b p _ []); [by apply (quiet_wf w w1)|congruence| |done..]. split_and!; [done|cbn; congruence|cbn; lia].
Qed.

Lemma recv_ok m w a s buf n (nb : bool) : sock_wf w → socks w !! a = Some s → us_state s = E_COM_SOCKET_STATE_CONNECTED → 0 ≤ n < 2 ^ 64 →
  nb || recv_awake w a = true →
  let k := Z.min n (KRINGBUFFER_AVAIL_READ (us_rb s)) in
  ∃ e it w' rb, unix_socket_recv (S fuel) wait signal m w a (one buf n) n nb = Ok (e, k, wr_bytes m buf (take (Z.to_nat k) (rb_contents (us_rb s))), it, w') ∧
    e = (if KRINGBUFFER_AVAIL_READ (us_rb s) <? 1 then EAGAIN else E0) ∧ sock_wf w' ∧
    socks w' = <[a := with_rb s rb]> (socks w) ∧ rb_contents rb = drop (Z.to_nat k) (rb_contents (us_rb s)).
Proof.
  intros Hwf Ha Hs Hn Haw k. unfold unix_socket_recv. rewrite Ha. mstep. rewrite bool_decide_true by done. cbn [negb].
  destruct (so_ring _ _ _ (sw_ok w Hwf a s Ha)) as (Hr & He & Hsz). pose proof (avail_read_range _ Hr).
  set (K := unix_kern wait signal a). change KRINGBUFFER_NOATOMIC with 1.
  assert (Hh : ∀ j, check_hangup K j j KRINGBUFFER_OP_READ (us_rb s) w = Ok (None, j, w)).
  { intros j. unfold check_hangup. cbn [K unix_kern rk_hangup]. unfold unix_socket_rb_check_hangup. rewrite Ha. mstep. done. }
  pose proof (recv_one K fuel m (us_rb s) w buf n nb Hh Hr He Hsz Hn ltac:(apply orb_true_iff in Haw as [|Haw]; [by left|right; by apply (recv_awake_some w a)])) as Hrecv. cbv zeta in Hrecv. fold k in Hrecv.
  destruct (Z.ltb_spec (KRINGBUFFER_AVAIL_READ (us_rb s)) 1).
  - destruct Hrecv as (it & ->). mstep. rewrite (put_rb_ok w a s) by done. mstep. replace k with 0 by lia.
    assert (Hid : with_rb s (us_rb s) = s) by (by destruct s). exists EAGAIN, it, w, (us_rb s). rewrite Hid, set_same, insert_id by done. done.
  - destruct Hrecv as (rb & it & -> & Hr' & Hc & Hsz' & He'). mstep. set (w1 := run_callback _ _).
    assert (Hq : quiet w w1) by (eapply quiet_trans; [apply quiet_log|apply quiet_poll]). pose proof Hq as (Hq1 & _). clearbody w1.
    rewrite (put_rb_ok w1 a s) by congruence. mstep. exists E0, it, (set_sock w1 a (with_rb s rb)), rb. split; [done|]. split; [done|]. split; [|split; [by cbn; rewrite Hq1|done]].
    apply (update_ok _ a s _ []); [by apply (quiet_wf w w1)|congruence| |done..]. split_and!; [done|done|cbn; lia].
Qed.
End transfer.

(** Nothing leads to the socket any more: no name, no queue. *)
Definition detached (w : W) (a : Z) : Prop :=
  (∀ vn b bd, vbind w !! vn = Some b → binds w !! b = Some bd → server bd ≠ a) ∧ ∀ c x, socks w !! c = Some x → a ∉ srv_acceptq x.

Lemma remove_ok w a m n ev : sock_wf w → detached w a →
  (∀ c x', m !! c = Some x' → c ≠ a ∧ ∃ x, socks w !! c = Some x ∧ x' = if decide (peer x = Some a) then with_peer x None else x) →
  (∀ c, c ≠ a → is_Some (socks w !! c) → is_Some (m !! c)) → sock_wf (Sockw m (binds w) (vbind w) n ev).
Proof.
  intros [Hok Ho Hn] [Hnm Hnq] Hm Hl.
  assert (Hq : ∀ x, srv_acceptq (if decide (peer x = Some a) then with_peer x None else x) = srv_acceptq x) by (intros x; by case_decide).
  constructor; cbn [socks binds vbind].
  - intros c x' Hc. destruct (Hm c x' Hc) as (Hne & x & Hx & ->). destruct (Hok c x Hx) as [H1 H2 H3 H4 H5].
    constructor; rewrite ?Hq; cbn [socks]; [by case_decide| | | |done].
    + intros b. case_decide as Hd; [done|]. intros Hb. destruct (H2 b Hb) as (p & Hbc & Hp & Hpc).
      destruct (Hl b ltac:(congruence) ltac:(by eexists)) as [p' Hp']. exists p'. split; [done|]. split; [done|].
      destruct (Hm b p' Hp') as (_ & p1 & Hp1 & ->). assert (p1 = p) as -> by congruence. by rewrite decide_False by congruence.
    + case_decide; [done|exact H3].
    + intros d Hd. apply Hl; [|by apply H4]. intros ->. by apply (Hnq c x).
  - intros c c' x x' d Hc Hc'. destruct (Hm c x Hc) as (_ & y & Hy & ->), (Hm c' x' Hc') as (_ & y' & Hy' & ->). rewrite !Hq. eauto.
  - intros vn b Hv. destruct (Hn vn b Hv) as (bd & Hb & Hs). exists bd. split; [done|]. apply Hl; [by apply (Hnm vn b)|done].
Qed.

Lemma poll_eq a (w : W) : ∃ ev, unix_socket_poll_callback a w = Sockw (socks w) (binds w) (vbind w) (names w) ev.
Proof. unfold unix_socket_poll_callback. destruct (socks w !! a); [by eexists|]. destruct w. by eexists. Qed.

Lemma destroy_ok w a s : sock_wf w → socks w !! a = Some s → detached w a →
  ∃ w', unix_socket_destroy w a = Ok w' ∧ sock_wf w' ∧ socks w' !! a = None ∧
    ∀ b p, peer s = Some b → socks w !! b = Some p → socks w' !! b = Some (with_peer p None).
Proof.
  intros Hwf Ha Hd. pose proof (sw_ok w Hwf a s Ha) as Hoa. unfold unix_socket_destroy. rewrite Ha. mstep.
  destruct (poll_eq a (notify_both (set_sock w a (with_peer s None)) a)) as (ev & ->). cbn [socks notify_both log set_sock binds vbind names].
  destruct (peer s) as [b|] eqn:Hb; mstep.
  - destruct (so_peer _ _ _ Hoa b Hb) as (p & Hne & Hp & Hpa). rewrite lookup_insert_ne, Hp by done. mstep.
    destruct (poll_eq a (notify_both (set_sock (Sockw (<[a:=with_peer s None]> (socks w)) (binds w) (vbind w) (names w) ev) b (with_peer p None)) b)) as (ev' & ->).
    cbn [socks notify_both log set_sock binds vbind names]. eexists. split; [done|]. split; [|split].
    + apply (remove_ok w a); [done|done| |].
      * intros c x' [Hca Hc]%lookup_delete_Some. split; [done|]. apply lookup_insert_Some in Hc as [[<- <-]|[Hcb Hc]].
        { exists p. by rewrite decide_True. }
        rewrite lookup_insert_ne in Hc by done. exists x'. split; [done|]. rewrite decide_False; [done|].
        intros Hx. destruct (so_peer _ _ _ (sw_ok w Hwf c x' Hc) a Hx) as (s' & _ & Hs' & Hs'b). congruence.
      * intros c Hc [x Hx]. rewrite lookup_delete_ne by done. destruct (decide (c = b)) as [->|]; [by rewrite lookup_insert_eq|]. rewrite !lookup_insert_ne by done. by eexists.
    + cbn. apply lookup_delete_eq.
    + intros b' p' [= <-] Hp'. cbn. rewrite lookup_delete_ne, lookup_insert_eq by done. congruence.
  - eexists. split; [done|]. split; [|split; [cbn; apply lookup_delete_eq|done]].
    apply (remove_ok w a); [done|done| |].
    + intros c x' [Hca Hc]%lookup_delete_Some. split; [done|]. cbn [socks] in Hc. rewrite lookup_insert_ne in Hc by done. exists x'. split; [done|]. rewrite decide_False; [done|].
      intros Hx. destruct (so_peer _ _ _ (sw_ok w Hwf c x' Hc) a Hx) as (s' & _ & Hs' & Hs'b). congruence.
    + intros c Hc [x Hx]. cbn [socks]. rewrite lookup_delete_ne, lookup_insert_ne by done. by eexists.
Qed.

(** ** Properties *)
Section runs.
Context (fuel : nat) (wait : rbop → kringbuffer → W → option (kringbuffer * W)) (signal : W → bool).

Inductive sock_op : Type :=
  | SNew (a : Z) (page : list Z) | SBind (a : Z) (path : list Z) (b : Z) | SListen (a n : Z)
  | SConnect (a : Z) (path : list Z) (p : Z) (page : list Z) | SAccept (a t : Z)
  | SSend (nb : bool) (a buf n : Z) | SRecv (nb : bool) (a buf n : Z) | SDestroy (a : Z).

(** Transfers of one piece, nonblocking or blocking; one turn of the loop of
    [accept], which a connection ends and a sleep follows otherwise. *)
Definition sock_do (x : mem * W) (o : sock_op) : res (mem * W) :=
  let '(m, w) := x in
  match o with
  | SNew a page => w ← deref (com_ipc_socket_new w E_COM_SOCKET_TYPE_UNIX a page); Ok (m, w)
  | SBind a path b => '(_, w) ← unix_socket_bind w a path b; Ok (m, w)
  | SListen a n => '(_, w) ← unix_socket_listen w a n; Ok (m, w)
  | SConnect a path p page => '(_, w) ← unix_socket_connect w a path p page; Ok (m, w)
  | SAccept a t => '(_, w) ← accept_turn w a t; Ok (m, w)
  | SSend nb a buf n => '(_, _, _, w) ← unix_socket_send (S (S fuel)) wait signal m w a (one buf n) n nb; Ok (m, w)
  | SRecv nb a buf n => '(_, _, m, _, w) ← unix_socket_recv (S fuel) wait signal m w a (one buf n) n nb; Ok (m, w)
  | SDestroy a => w ← unix_socket_destroy w a; Ok (m, w)
  end.

(** New addresses are fresh, rings have their size, sockets are live, a path
    fits, a blocking transfer does not have to sleep, and a socket that is
    destroyed is detached. *)
Definition sock_op_ok (w : W) (o : sock_op) : Prop :=
  let live a := is_Some (socks w !! a) in
  match o with
  | SNew a page => socks w !! a = None ∧ Z.of_nat (length page) = CONFIG_UNIX_SOCK_RB_SIZE
  | SBind a path b => live a ∧ binds w !! b = None ∧ Z.of_nat (length path) ≤ CONFIG_PATH_MAX
  | SListen a _ | SAccept a _ => live a
  | SConnect a _ p page => live a ∧ socks w !! p = None ∧ Z.of_nat (length page) = CONFIG_UNIX_SOCK_RB_SIZE
  | SSend nb a _ n => live a ∧ 0 ≤ n < 2 ^ 64 ∧ nb || send_awake w a n = true
  | SRecv nb a _ n => live a ∧ 0 ≤ n < 2 ^ 64 ∧ nb || recv_awake w a = true
  | SDestroy a => live a ∧ detached w a
  end.

(** C30: The operations on live sockets return and keep the sockets
    consistent. From a state where peers are each other's peers, queued
    connections are live and queued once, names lead to live servers and rings
    are well formed, the creation of a socket, [bind], [listen], [connect], a
    turn of [accept], a [send] or [recv] of one piece that does not have to
    sleep, whether blocking or not, and the destruction of a socket that no
    name and no queue leads to all return and leave such a state. The destruction
    of a server whose name is left behind is not one of them, see
    [connect_after_server_close_faults], nor is a receive that sleeps, see
    [recv_after_close_never_returns], nor [getpeername], which changes no
    socket, see [getpeername_accepted_panics] and
    [getpeername_after_close_faults]. *)
Theorem sock_ops_keep_wf m w o : sock_wf w → sock_op_ok w o → ∃ m' w', sock_do (m, w) o = Ok (m', w') ∧ sock_wf w'.
Proof.
  intros Hwf Ho. destruct o as [a page|a path b|a n|a path p page|a t|nb a buf n|nb a buf n|a]; cbn in Ho |- *.
  - destruct Ho as [Ha Hp]. eexists _, _. split; [done|]. unfold set_sock, com_ipc_socket_unix_new. cbn. rewrite insert_insert_eq.
    apply (fresh_ok w a (with_type (unix_socket_alloc page) E_COM_SOCKET_TYPE_UNIX)); (done || apply (alloc_ring page Hp)).
  - destruct Ho as ([s Ha] & Hb & Hl). destruct (bind_ok w a s path b) as (e & w' & -> & ?); [done..|]. by eexists _, _.
  - destruct Ho as [s Ha]. destruct (listen_ok w a s n) as (e & w' & -> & ?); [done..|]. by eexists _, _.
  - destruct Ho as ([s Ha] & Hp & Hl). destruct (connect_ok w a s path p page) as (e & w' & -> & ?); [done..|]. by eexists _, _.
  - destruct Ho as [s Ha]. destruct (accept_turn_ok w a s t) as (w' & -> & ? & _); [done..|]. by eexists _, _.
  - destruct Ho as ([s Ha] & Hn & Haw). destruct (decide (us_state s = E_COM_SOCKET_STATE_CONNECTED)) as [Hs|Hs];
      [destruct (peer s) as [b|] eqn:Hb|]; [|unfold unix_socket_send; rewrite Ha; mstep..].
    + destruct (so_peer _ _ _ (sw_ok w Hwf a s Ha) b Hb) as (p & _ & Hp & _).
      destruct (send_ok fuel wait signal m w a s b p buf n nb) as (it & w' & rb & -> & ? & _); [done..|]. by eexists _, _.
    + rewrite bool_decide_true, Hb by done. by eexists _, _.
    + rewrite bool_decide_false by done. by eexists _, _.
  - destruct Ho as ([s Ha] & Hn & Haw). destruct (decide (us_state s = E_COM_SOCKET_STATE_CONNECTED)) as [Hs|Hs].
    + destruct (recv_ok fuel wait signal m w a s buf n nb) as (e & it & w' & rb & -> & _ & ? & _); [done..|]. by eexists _, _.
    + unfold unix_socket_recv. rewrite Ha. mstep. rewrite bool_decide_false by done. by eexists _, _.
  - destruct Ho as [[s Ha] Hd]. destruct (destroy_ok w a s) as (w' & -> & ? & _); [done..|]. by eexists _, _.
Qed.

(** ** Streams

    Transfers of one piece, nonblocking ([nb]) or blocking, and stores by the
    programs; [x_sent b] and [x_got b] are the bytes accepted for the socket [b] and handed to its
    reader so far. *)
Record streams : Type := Streams { x_mem : mem; x_w : W; x_sent : Z → list Z; x_got : Z → list Z }.
Inductive xop : Type := XSend (nb : bool) (a buf n : Z) | XRecv (nb : bool) (a buf n : Z) | XStore (addr v : Z).

Definition more (f : Z → list Z) (b : Z) (bs : list Z) : Z → list Z := λ c, if c =? b then f c ++ bs else f c.

Definition x_do (x : streams) (o : xop) : res streams :=
  match o with
  | XSend nb a buf n =>
      '(e, k, _, w) ← unix_socket_send (S (S fuel)) wait signal (x_mem x) (x_w x) a (one buf n) n nb;
      Ok (Streams (x_mem x) w
            (match socks (x_w x) !! a ≫= peer with Some b => more (x_sent x) b (rd_bytes (x_mem x) buf (Z.to_nat k)) | None => x_sent x end) (x_got x))
  | XRecv nb a buf n =>
      '(e, k, m, _, w) ← unix_socket_recv (S fuel) wait signal (x_mem x) (x_w x) a (one buf n) n nb;
      Ok (Streams m w (x_sent x) (more (x_got x) a (rd_bytes m buf (Z.to_nat k))))
  | XStore addr v => Ok (Streams (upd (x_mem x) addr v) (x_w x) (x_sent x) (x_got x))
  end.

Fixpoint x_run (x : streams) (os : list xop) : res streams :=
  match os with [] => Ok x | o :: os => x ← x_do x o; x_run x os end.

Definition xop_ok (w : W) (o : xop) : Prop :=
  match o with XSend _ a _ n | XRecv _ a _ n => is_Some (socks w !! a) ∧ 0 ≤ n < 2 ^ 64 | XStore _ _ => True end.

(** No blocking transfer of the run has to sleep. *)
Definition op_awake (w : W) (o : xop) : bool :=
  match o with XSend nb a _ n => nb || send_awake w a n | XRecv nb a _ _ => nb || recv_awake w a | XStore _ _ => true end.
Fixpoint run_awake (x : streams) (os : list xop) : bool :=
  match os with [] => true | o :: os => op_awake (x_w x) o && match x_do x o with Ok x => run_awake x os | _ => true end end.

Definition stream (w : W) (b : Z) : list Z := match socks w !! b with Some s => rb_contents (us_rb s) | None => [] end.

Lemma stream_insert (w w' : W) b p rb c : socks w !! b = Some p → socks w' = <[b := with_rb p rb]> (socks w) → stream w' c = if c =? b then rb_contents rb else stream w c.
Proof.
  intros Hb Hw. unfold stream. rewrite Hw. destruct (Z.eqb_spec c b) as [->|]; [by rewrite lookup_insert_eq|by rewrite lookup_insert_ne].
Qed.

Definition x_inv (f : Z → list Z) (x : streams) : Prop := sock_wf (x_w x) ∧ ∀ b, f b ++ x_sent x b = x_got x b ++ stream (x_w x) b.

Lemma live_insert (w w' : W) b p q c : socks w !! b = Some p → socks w' = <[b := q]> (socks w) → is_Some (socks w !! c) → is_Some (socks w' !! c).
Proof. intros Hb -> ?. destruct (decide (c = b)) as [->|]; [by rewrite lookup_insert_eq|by rewrite lookup_insert_ne]. Qed.

Lemma x_do_ok f x o : x_inv f x → xop_ok (x_w x) o → op_awake (x_w x) o = true →
  ∃ x', x_do x o = Ok x' ∧ x_inv f x' ∧ ∀ c, is_Some (socks (x_w x) !! c) → is_Some (socks (x_w x') !! c).
Proof.
  intros [Hwf Hinv] Ho Haw. destruct o as [nb a buf n|nb a buf n|addr v]; cbn in Ho, Haw |- *; [| |by eexists].
  - destruct Ho as [[s Ha] Hn]. destruct (decide (us_state s = E_COM_SOCKET_STATE_CONNECTED)) as [Hs|Hs]; [destruct (peer s) as [b|] eqn:Hb|].
    + destruct (so_peer _ _ _ (sw_ok _ Hwf a s Ha) b Hb) as (p & _ & Hp & _).
      destruct (send_ok fuel wait signal (x_mem x) (x_w x) a s b p buf n nb) as (it & w' & rb & -> & Hwf' & Hw' & Hc); [done..|]. mstep.
      eexists. split; [done|]. split; [|intros c; by apply (live_insert _ _ b p (with_rb p rb) c)]. split; [done|]. intros c. cbn [x_sent x_got x_w].
      rewrite (stream_insert _ _ b p rb c), Ha by done. cbn [mbind option_bind]. rewrite Hb. unfold more. destruct (Z.eqb_spec c b) as [->|]; [|done].
      rewrite app_assoc, Hinv, Hc. unfold stream. by rewrite Hp, app_assoc.
    + unfold unix_socket_send. rewrite Ha. mstep. rewrite bool_decide_true, Hb by done. mstep. eexists. split; [done|]. split; [|done]. split; [done|]. cbn. by rewrite Hb.
    + unfold unix_socket_send. rewrite Ha. mstep. rewrite bool_decide_false by done. mstep. eexists. split; [done|]. split; [|done]. split; [done|]. cbn. intros c.
      destruct (peer s) as [b|]; [|done]. unfold more. change (rd_bytes _ _ _) with (@nil Z). destruct (c =? b); [by rewrite app_nil_r|done].
  - destruct Ho as [[s Ha] Hn]. destruct (decide (us_state s = E_COM_SOCKET_STATE_CONNECTED)) as [Hs|Hs].
    + destruct (recv_ok fuel wait signal (x_mem x) (x_w x) a s buf n nb) as (e & it & w' & rb & -> & _ & Hwf' & Hw' & Hc); [done..|]. mstep.
      eexists. split; [done|]. split; [|intros c; by apply (live_insert _ _ a s (with_rb s rb) c)]. split; [done|]. intros c. cbn [x_sent x_got x_w].
      rewrite (stream_insert _ _ a s rb c) by done. unfold more. destruct (Z.eqb_spec c a) as [->|]; [|done].
      rewrite Hinv, Hc. unfold stream. rewrite Ha, <- app_assoc. f_equal. pose proof (length_rb_contents (us_rb s)).
      set (k := Z.min n (KRINGBUFFER_AVAIL_READ (us_rb s))). rewrite <- (take_drop (Z.to_nat k) (rb_contents (us_rb s))) at 1. f_equal.
      rewrite <- (rd_wr_bytes (x_mem x) buf (take (Z.to_nat k) (rb_contents (us_rb s)))) at 1. f_equal. rewrite length_take. lia.
    + unfold unix_socket_recv. rewrite Ha. mstep. rewrite bool_decide_false by done. mstep. eexists. split; [done|]. split; [|done]. split; [done|]. cbn. intros c.
      unfold more. change (rd_bytes _ _ _) with (@nil Z). destruct (c =? a); [by rewrite app_nil_r|done].
Qed.

Lemma xop_ok_mono (w w' : W) o : (∀ c, is_Some (socks w !! c) → is_Some (socks w' !! c)) → xop_ok w o → xop_ok w' o.
Proof. intros H. destruct o; cbn; naive_solver. Qed.

Lemma x_run_ok f os x : x_inv f x → Forall (xop_ok (x_w x)) os → run_awake x os = true → ∃ x', x_run x os = Ok x' ∧ x_inv f x'.
Proof.
  revert x. induction os as [|o os IH]; intros x Hx Hos Haw; [by eexists|]. apply Forall_cons in Hos as [Ho Hos]. cbn [run_awake] in Haw. apply andb_true_iff in Haw as [Ha Haw].
  destruct (x_do_ok f x o Hx Ho Ha) as (x1 & Hdo & Hx1 & Hl). rewrite Hdo in Haw. cbn [x_run]. rewrite Hdo. mstep. apply IH; [done| |done].
  eapply Forall_impl; [exact Hos|]. intros o'. by apply xop_ok_mono.
Qed.

(** C29: Connected sockets are byte streams. Take any sequence of sends and
    receives on any live sockets, each of one piece of a message and each
    nonblocking or blocking, with the programs writing their own memory in
    between, in which no blocking call has to sleep: a blocking send finds room
    for its message and a blocking receive something to take, or the socket is
    not connected. Then every call returns, and for each socket what it held
    followed by what its peer sent, in order and as far as it was accepted, is
    what its reader was given followed by what it holds: nothing is lost,
    repeated or mixed with another stream. Calls that do sleep and messages of
    several pieces are outside: see [recv_after_close_never_returns] and
    [partial_send_reported_as_failed]. *)
Theorem unix_stream_fifo m w os : sock_wf w → Forall (xop_ok w) os → run_awake (Streams m w (λ _, []) (λ _, [])) os = true →
  ∃ x, x_run (Streams m w (λ _, []) (λ _, [])) os = Ok x ∧ sock_wf (x_w x) ∧ ∀ b, stream w b ++ x_sent x b = x_got x b ++ stream (x_w x) b.
Proof.
  intros Hwf Hos Haw. destruct (x_run_ok (stream w) os (Streams m w (λ _, []) (λ _, []))) as (x & Hr & Hx & Hi); [|done..|by exists x].
  split; [done|]. intros b. cbn. by rewrite app_nil_r.
Qed.

(** A socket whose peer is gone and whose ring is empty. *)
Definition orphan (w : W) (a : Z) : Prop :=
  ∃ s, socks w !! a = Some s ∧ us_state s = E_COM_SOCKET_STATE_CONNECTED ∧ peer s = None ∧ KRINGBUFFER_AVAIL_READ (us_rb s) = 0 ∧ rb_is_eof (us_rb s) = false ∧ 1 < rb_buffer_size (us_rb s).

(** Sleeping changes neither that ring nor, for the reader, anything else. *)
Definition nobody_writes : Prop := ∀ op rb w rb' w', wait op rb w = Some (rb', w') → rb' = rb ∧ quiet w w'.

Lemma orphan_wait n a s rb w k : nobody_writes → (∀ w, signal w = false) → socks w !! a = Some s → KRINGBUFFER_AVAIL_READ rb = 0 → rb_is_eof rb = false →
  read_wait (unix_kern wait signal a) n rb w k 1 true = Fuel.
Proof.
  intros Hw Hsig. revert rb w. induction n as [|n IH]; intros rb w Ha Hrb He; [done|]. cbn [read_wait]. rewrite Hrb, He. cbn [Z.ltb Z.compare andb negb unix_kern rk_wait rk_signal].
  destruct (wait KRINGBUFFER_OP_READ rb w) as [[rb' w']|] eqn:E; [|done]. destruct (Hw _ _ _ _ _ E) as (-> & Hq & _).
  unfold check_hangup. cbn [rk_hangup unix_kern]. unfold unix_socket_rb_check_hangup. rewrite Hq, Ha. mstep. cbn. rewrite He, Hsig. apply IH; [congruence|done..].
Qed.

(** A reader is never told that the other side is gone: once the peer has
    been destroyed and the ring is empty, a blocking [recv] does not return,
    whatever fuel it is given, since the check for a hang-up only concerns
    writers. It should return 0, the end of the stream. *)
Theorem recv_after_close_never_returns m w a buf n : orphan w a → nobody_writes → (∀ w, signal w = false) → 0 ≤ n < 2 ^ 64 →
  unix_socket_recv fuel wait signal m w a (one buf n) n false = Fuel.
Proof.
  intros (s & Ha & Hs & Hp & Hrb & He & Hsz) Hw Hsig Hn. unfold unix_socket_recv. rewrite Ha. mstep. rewrite bool_decide_true by done. cbn [negb].
  destruct (one_wf buf n Hn) as (_ & _ & Hr & Hc). unfold kioviter_write_from_ringbuffer_nolock. destruct fuel as [|f]; [done|]. cbn [from_ring_loop].
  rewrite Hc. mstep. change (curr (one buf n)) with (Ok (mkIov buf n)). mstep. unfold kringbuffer_read_nolock, check_hangup.
  cbn [rk_hangup unix_kern]. unfold unix_socket_rb_check_hangup. rewrite Ha. mstep. cbn [hup_ret hup_force hup_nbytes]. rewrite bool_decide_true by done. cbn [negb orb].
  change KRINGBUFFER_NOATOMIC with 1. destruct (Z.ltb_spec 1 (rb_buffer_size (us_rb s))); [|lia]. mstep.
  by rewrite (orphan_wait (S f) a s (us_rb s) w _).
Qed.
End runs.

(** A successful [connect] makes a pair: the caller and a new socket are
    each other's peers, both connected, with an empty stream towards the
    server, and the new socket is the last of the server's queue, from whose
    front [accept] takes: connections are accepted in the order they were
    made. *)
Theorem connect_makes_pair w a path p page w' : sock_wf w → socks w !! p = None → Z.of_nat (length page) = CONFIG_UNIX_SOCK_RB_SIZE →
  unix_socket_connect w a path p page = Ok (E0, w') →
  ∃ ca sp srv s s', socks w' !! a = Some ca ∧ socks w' !! p = Some sp ∧ peer ca = Some p ∧ peer sp = Some a ∧
    us_state ca = E_COM_SOCKET_STATE_CONNECTED ∧ us_state sp = E_COM_SOCKET_STATE_CONNECTED ∧ stream w' p = [] ∧
    socks w !! srv = Some s ∧ socks w' !! srv = Some s' ∧ srv_acceptq s' = srv_acceptq s ++ [p] ∧
    ∀ t, ∃ w'', accept_turn w' srv t = Ok (head (srv_acceptq s ++ [p]), w'').
Proof.
  intros Hwf Hp Hpage. unfold unix_socket_connect. destruct (socks w !! a) as [s|] eqn:Ha; [|done]. mstep.
  destruct (bool_decide_reflect (us_state s = E_COM_SOCKET_STATE_CONNECTED)); [done|].
  destruct (bool_decide_reflect (us_state s = E_COM_SOCKET_STATE_UNBOUND)); [|done]. cbn [negb].
  destruct (names_lookup (names w) path) as [e0|[vn []]] eqn:Hl; cbn [negb]; [| |done].
  { intros [= -> <-]. by destruct (names_lookup_err _ _ _ Hl). }
  destruct (vbind w !! vn) as [b|] eqn:Hv; [|done]. destruct (sw_names w Hwf vn b Hv) as (bd & Hb & [sv Hsv]). rewrite Hb. mstep. rewrite Hsv. mstep.
  destruct (bool_decide_reflect (us_state sv = E_COM_SOCKET_STATE_LISTENING)); [|done]. cbn [negb].
  assert (server bd ≠ a) by congruence. assert (server bd ≠ p) by congruence. assert (a ≠ p) by congruence.
  unfold connect_to. cbn [set_sock socks]. rewrite !lookup_insert_ne, Hsv by done. mstep. intros [= <-].
  match goal with |- context [unix_socket_poll_callback ?c ?x] => destruct (quiet_poll c x) as (Hq & _); revert Hq; generalize (unix_socket_poll_callback c x) end.
  intros w' Hq. assert (Hw' : socks w' = <[server bd := with_accept sv (srv_acceptq sv ++ [p]) (tail (srv_acceptwait sv))]>
    (<[a := with_us_state (with_peer s (Some p)) E_COM_SOCKET_STATE_CONNECTED]> (<[p := with_path (with_us_state (with_peer (unix_socket_alloc page) (Some a)) E_COM_SOCKET_STATE_CONNECTED) (binding_path sv)]> (socks w)))).
  { rewrite Hq. by destruct (srv_acceptwait sv). }
  eexists _, _, (server bd), sv, _. unfold stream. rewrite !Hw', lookup_insert_eq, !(lookup_insert_ne _ (server bd)), lookup_insert_eq, lookup_insert_ne, lookup_insert_eq by done.
  split_and!; try done. intros t. unfold accept_turn. rewrite Hw', lookup_insert_eq. mstep. cbn [srv_acceptq with_accept]. destruct (srv_acceptq sv); cbn; by eexists.
Qed.

(** [poll] says that a socket can be written to when its own ring has room;
    what is written goes to its peer's. *)
Theorem poll_wrong_ring fuel wait signal m w a s b p buf n : sock_wf w → socks w !! a = Some s → us_state s = E_COM_SOCKET_STATE_CONNECTED → peer s = Some b → socks w !! b = Some p →
  0 < KRINGBUFFER_AVAIL_WRITE (us_rb s) → KRINGBUFFER_AVAIL_WRITE (us_rb p) = 0 → 0 < n < 2 ^ 64 →
  (∃ r, unix_socket_poll w a = Ok (r, true)) ∧ ∃ it w', unix_socket_send (S (S fuel)) wait signal m w a (one buf n) n true = Ok (EAGAIN, 0, it, w').
Proof.
  intros Hwf Ha Hs Hb Hp Hroom Hfull Hn. split.
  - unfold unix_socket_poll. rewrite Ha. mstep. destruct (Z.ltb_spec 0 (KRINGBUFFER_AVAIL_WRITE (us_rb s))); [by eexists|lia].
  - destruct (send_ok fuel wait signal m w a s b p buf n true Hwf Ha Hs Hb Hp ltac:(lia) ltac:(done)) as (it & w' & rb & Hsend & _).
    rewrite Hfull, Z.min_r in Hsend by lia. by exists it, w'.
Qed.

Lemma poll_some a (w : W) s : socks w !! a = Some s → unix_socket_poll_callback a w = log w (EvPollers (polled_list s)).
Proof. intros H. unfold unix_socket_poll_callback. by rewrite H. Qed.

(** The destruction of a socket wakes the readers and writers of both rings,
    and its own pollers twice; the pollers of its peer are not told. *)
Theorem destroy_wakes_own_pollers_twice w a s b p : sock_wf w → socks w !! a = Some s → peer s = Some b → socks w !! b = Some p →
  ∃ w', unix_socket_destroy w a = Ok w' ∧
    events w' = events w ++ [EvRing a KRINGBUFFER_OP_READ; EvRing a KRINGBUFFER_OP_WRITE; EvPollers (polled_list s);
                             EvRing b KRINGBUFFER_OP_READ; EvRing b KRINGBUFFER_OP_WRITE; EvPollers (polled_list s)].
Proof.
  intros Hwf Ha Hb Hp. destruct (so_peer _ _ _ (sw_ok w Hwf a s Ha) b Hb) as (_ & Hne & _).
  unfold unix_socket_destroy. rewrite Ha. mstep. rewrite Hb.
  rewrite (poll_some a _ (with_peer s None)) by (cbn; by rewrite lookup_insert_eq). cbn [socks notify_both log set_sock]. rewrite lookup_insert_ne, Hp by done. mstep.
  rewrite (poll_some a _ (with_peer s None)) by (cbn; by rewrite lookup_insert_ne, lookup_insert_eq). eexists. split; [done|]. cbn. by rewrite <- !app_assoc.
Qed.
End wf.

(** ** Names for the witnesses *)
Definition demo_names : Type := gmap (list Z) (Z * bool).
#[export] Instance demo_socket_names : socket_names demo_names.
Proof.
  refine {| names_mksocket n path := match n !! path with Some _ => inl EEXIST | None => let v := 100 + Z.of_nat (size n) in inr (v, <[path := (v, true)]> n) end;
            names_lookup n path := match n !! path with Some x => inr x | None => inl ENOENT end |}.
  intros n path e. destruct (n !! path); [done|]. by intros [= <-].
Defined.

Definition no_wait (op : rbop) (rb : kringbuffer) (w : sockw demo_names) : option (kringbuffer * sockw demo_names) := None.
Definition no_signal (w : sockw demo_names) : bool := false.
Definition no_sleep (w : sockw demo_names) : option (sockw demo_names) := None.
Definition no_socks : sockw demo_names := Sockw ∅ ∅ ∅ ∅ [].
Definition no_files : sysw demo_names := Sysw (λ _, 0) (Fdstate ∅ [empty_table] []) no_socks ∅.

(** A server bound to [path] and listening at descriptor 0, a client connected
    to it at descriptor 1. *)
Definition demo_path : list Z := [47; 115].
Definition demo_server (page : list Z) : res (sysw demo_names) :=
  '(_, s) ← com_sys_syscall_socket 1 2 no_files 0 true true false 10 page 20 30;
  '(_, s) ← com_sys_syscall_bind s 0 0 true demo_path 40;
  '(_, s) ← com_sys_syscall_listen s 0 0 8;
  Ok s.
Definition demo_client (page : list Z) : res (sysw demo_names) :=
  s ← demo_server page;
  '(_, s) ← com_sys_syscall_socket 1 2 s 0 true true false 11 page 21 31;
  '(_, s) ← com_sys_syscall_connect s 0 1 true demo_path 12 page;
  Ok s.
Definition demo_accept (s : sysw demo_names) : res (com_syscall_ret * sysw demo_names) :=
  com_sys_syscall_accept 1 5 no_sleep s 0 7 0 22 32.

(** [getpeername] on a socket that came from [accept] panics: such a socket
    never gets a type, and the conversion of the address asserts one. *)
Theorem getpeername_accepted_panics page :
  ∃ s, (s ← demo_client page; demo_accept s) = Ok (COM_SYS_SYSCALL_OK 2, s) ∧ com_sys_syscall_getpeername s 0 2 500 100 = Panic.
Proof. eexists. split; [vm_compute; reflexivity|vm_compute; reflexivity]. Qed.

(** The name outlives the server: [connect] to it follows the binding to the
    socket that was freed. *)
Theorem connect_after_server_close_faults page :
  ∃ s, (s ← demo_server page; '(_, s) ← sock_close s 0 0; Ok s) = Ok s ∧
    (s ← demo_server page; '(_, s) ← sock_close s 0 0; '(_, s) ← com_sys_syscall_socket 1 2 s 0 true true false 11 page 21 31;
     com_sys_syscall_connect s 0 0 true demo_path 12 page) = Fault.
Proof. eexists. split; [vm_compute; reflexivity|vm_compute; reflexivity]. Qed.

(** Once the server's end of a connection is closed, [getpeername] of the
    client follows the null pointer its peer has become. *)
Theorem getpeername_after_close_faults page :
  ∃ s, (s ← demo_client page; '(_, s) ← demo_accept s; '(_, s) ← sock_close s 0 2; Ok s) = Ok s ∧ com_sys_syscall_getpeername s 0 1 500 100 = Fault.
Proof. eexists. split; [vm_compute; reflexivity|vm_compute; reflexivity]. Qed.

(** [bind] does not ask what state the socket is in: a connected one can be
    bound, and has then lost its connection. *)
Theorem bind_disconnects page :
  ∃ s, (s ← demo_client page; '(_, s) ← com_sys_syscall_bind s 0 1 true [47; 116] 41; Ok s) = Ok s ∧
    ∃ s', com_sys_syscall_sendmsg 1 1 no_wait no_signal s 0 1 [mkIov 100 1] = Ok (COM_SYS_SYSCALL_ERR ENOTCONN, s').
Proof. eexists. split; [vm_compute; reflexivity|]. eexists. vm_compute; reflexivity. Qed.

(** [accept] takes the connection before it looks for a descriptor: when there
    is none the connection is neither queued nor open, and the client goes on
    being connected to it. *)
Definition full_table (s : sysw demo_names) : sysw demo_names :=
  set_fdstate s (Fdstate (files (s_fd s)) [Fdtable 96 96 (replicate 96 (Filedesc (Some 30) 0))] []).
Theorem accept_emfile_loses_connection page :
  ∃ s s', (s ← demo_client page; Ok (full_table s)) = Ok s ∧ demo_accept s = Ok (COM_SYS_SYSCALL_ERR EMFILE, s') ∧
    srv_acceptq <$> socks (s_w s') !! 10 = Some [] ∧ peer <$> socks (s_w s') !! 11 = Some (Some 12) ∧ s_vns s' = s_vns s.
Proof. eexists _, _. split; [vm_compute; reflexivity|]. split; [vm_compute; reflexivity|]. split; [vm_compute; reflexivity|]. split; [vm_compute; reflexivity|]. vm_compute; reflexivity. Qed.

(** A file opened by the name of a bound socket is of type socket, and has no
    socket behind it: every call on sockets panics when it is given one. *)
Theorem fs_socket_panics {N} (s : sysw N) p fd k t d f x v : tables (s_fd s) !! p = Some t → fd_valid fd = true → fd_at t fd = Some d → file d = Some f →
  files (s_fd s) !! f = Some x → vnode x = Some v → s_vns s !! v = Some (VSock None) → on_socket s p fd k = Panic.
Proof.
  intros Ht Hv Hd Hf Hx Hvn Hs. unfold on_socket, com_sys_proc_get_file_nolock. rewrite Ht. mstep. rewrite Hv, Hd. mstep. rewrite Hf.
  unfold COM_FS_FILE_HOLD. rewrite Hx. mstep. cbn [files set_file set_fdstate s_vns]. rewrite lookup_insert_eq. mstep. cbn [vnode with_ref]. rewrite Hvn.
  cbn [mbind option_bind]. by rewrite Hs.
Qed.

(** ** Two connected sockets with rings of four bytes *)
Definition demo_sock (p : option Z) : unix_socket := UnixSocket E_COM_SOCKET_TYPE_UNIX E_COM_SOCKET_STATE_CONNECTED (mkRb [0; 0; 0; 0] 4 0 0 false) [] p None [] [] 0 [].
Definition demo_pair : sockw demo_names := Sockw (<[1 := demo_sock (Some 2)]> {[2 := demo_sock (Some 1)]}) ∅ ∅ ∅ [].

Lemma demo_ring : rb_wf (mkRb [0; 0; 0; 0] 4 0 0 false).
Proof. split; [by exists 2|]. split_and!; (done || vm_compute; done). Qed.

Lemma demo_sock_ok w a b p : b ≠ a → socks w !! b = Some p → peer p = Some a → sock_ok (N := demo_names) w a (demo_sock (Some b)).
Proof.
  intros Hne Hb Hp. constructor; [split; [exact demo_ring|done]| |done| |constructor].
  - intros c [= <-]. by exists p.
  - intros c Hc. by apply elem_of_nil in Hc.
Qed.

Lemma demo_pair_socks a s : socks demo_pair !! a = Some s → a = 1 ∧ s = demo_sock (Some 2) ∨ a = 2 ∧ s = demo_sock (Some 1).
Proof. cbn. intros [[<- <-]|[_ [<- <-]%lookup_singleton_Some]]%lookup_insert_Some; auto. Qed.

Lemma demo_pair_wf : sock_wf demo_pair.
Proof.
  constructor.
  - intros a s [[-> ->]|[-> ->]]%demo_pair_socks.
    + by apply (demo_sock_ok _ _ _ (demo_sock (Some 1))).
    + by apply (demo_sock_ok _ _ _ (demo_sock (Some 2))).
  - intros a a' s s' c [[-> ->]|[-> ->]]%demo_pair_socks _ Hc; by apply elem_of_nil in Hc.
  - intros vn b Hv. cbn in Hv. by rewrite lookup_empty in Hv.
Qed.

(** A nonblocking message in two pieces of which only the first fits is
    stored in part and reported as [EAGAIN]: sent again, it arrives twice. *)
Theorem partial_send_reported_as_failed :
  ∃ it w, unix_socket_send 3 no_wait no_signal (wr_bytes (λ _, 0) 100 [1; 2; 3; 4; 5; 6]) demo_pair 1 (kioviter_init [mkIov 100 4; mkIov 104 2]) 6 true = Ok (EAGAIN, 4, it, w) ∧
    stream w 2 = [1; 2; 3; 4].
Proof. eexists _, _. split; [vm_compute; reflexivity|vm_compute; reflexivity]. Qed.

Lemma sock_ops_keep_wf_witness : ∃ m w, sock_do 0 no_wait no_signal (λ _, 0, demo_pair) (SDestroy 1) = Ok (m, w) ∧ sock_wf w.
Proof.
  apply (sock_ops_keep_wf 0 no_wait no_signal (λ _, 0) demo_pair (SDestroy 1) demo_pair_wf). split; [by eexists|].
  split; [intros vn b bd Hv; cbn in Hv; by rewrite lookup_empty in Hv|].
  intros c x [[-> ->]|[-> ->]]%demo_pair_socks; apply not_elem_of_nil.
Defined.

Definition demo_ops : list xop := [XStore 100 7; XSend false 1 100 3; XRecv false 2 200 2; XSend true 1 200 9; XRecv true 2 300 9; XRecv true 2 300 9; XSend false 2 300 4; XRecv false 1 400 4].
Lemma unix_stream_fifo_witness : ∃ x, x_run 0 no_wait no_signal (Streams (λ _, 0) demo_pair (λ _, []) (λ _, [])) demo_ops = Ok x ∧ sock_wf (x_w x) ∧
  ∀ b, stream demo_pair b ++ x_sent x b = x_got x b ++ stream (x_w x) b.
Proof.
  apply (unix_stream_fifo 0 no_wait no_signal (λ _, 0) demo_pair demo_ops demo_pair_wf); [|vm_compute; reflexivity].
  repeat (apply Forall_cons; split; [cbn; first [done | split; [by eexists|lia]]|]). by apply Forall_nil.
Defined.

Definition demo_orphan : sockw demo_names := Sockw {[2 := demo_sock None]} ∅ ∅ ∅ [].
Definition idle_wait (op : rbop) (rb : kringbuffer) (w : sockw demo_names) : option (kringbuffer * sockw demo_names) := Some (rb, w).
Lemma recv_after_close_never_returns_witness : unix_socket_recv 50 idle_wait no_signal (λ _, 0) demo_orphan 2 (one 100 1) 1 false = Fuel.
Proof.
  apply (recv_after_close_never_returns 50 idle_wait no_signal (λ _, 0) demo_orphan 2 100 1).
  - by exists (demo_sock None).
  - intros op rb w rb' w' [= <- <-]. done.
  - done.
  - lia.
Defined.
