(* ===== verification/Tty.v ===== *)
(** * Terminals: src/com/io/tty.c, pty.c and keyboard.c

    The line discipline turns characters from a keyboard or from the master
    side of a pseudo-terminal into what programs read: it edits the current
    line, echoes, and sends signals. Text terminals and pseudo-terminals share
    it; what differs, and the rest of the kernel, is a record of operations
    ([ttykern]). Flag words of [termios] are records of booleans, since the
    bits are defined outside of the repository. Characters are bytes. *)
From S2P Require Import Prelude Mem Ringbuffer.

Definition COM_IO_TTY_BUF_SZ : Z := ARCH_PAGE_SIZE / 4.
Definition CONTROL_DEL : Z := 127.
Definition NL : Z := 10.
Definition CR : Z := 13.
Definition BS : Z := 8.
Definition ESC : Z := 27.

(** ** Data *)
Record termios : Type := Termios {
  IGNCR : bool; ICRNL : bool; INLCR : bool;
  OPOST : bool; ONLCR : bool;
  ISIG : bool; ICANON : bool; ECHO : bool; ECHOE : bool; ECHOKE : bool;
  VINTR : Z; VQUIT : Z; VSUSP : Z; VEOF : Z; VERASE : Z; VKILL : Z
}.

Record com_text_tty_backend : Type := Backend {
  rows : Z;
  cols : Z;
  c_termios : termios;
  fg_pgid : Z;
  slave_rb : kringbuffer;
  canon_buffer : list Z;
  canon_index : Z
}.

Inductive tty_signal : Type := SIGINT | SIGQUIT | SIGTSTP.

(** What the line discipline uses: sleeping and waking at the slave's ring
    ([tk_ring], with the callback for pollers), the output ([tk_echo] returns
    the error and the bytes written) and the signal to a process group. *)
Record ttykern (W : Type) : Type := Tk {
  tk_ring : rbkern W;
  tk_echo : list Z → bool → W → res (errno * Z * W);
  tk_signal : Z → tty_signal → W → res W
}.
Arguments Tk {W}. Arguments tk_ring {W}. Arguments tk_echo {W}. Arguments tk_signal {W}.

Definition with_canon (t : com_text_tty_backend) (b : list Z) (i : Z) : com_text_tty_backend :=
  Backend (rows t) (cols t) (c_termios t) (fg_pgid t) (slave_rb t) b i.
Definition with_slave_rb (t : com_text_tty_backend) (rb : kringbuffer) : com_text_tty_backend :=
  Backend (rows t) (cols t) (c_termios t) (fg_pgid t) rb (canon_buffer t) (canon_index t).
Definition with_eof (rb : kringbuffer) : kringbuffer := mkRb (rb_buffer rb) (rb_buffer_size rb) (rb_write_index rb) (rb_read_index rb) true.

Section discipline.
Context {W : Type} (K : ttykern W) (fuel : nat).

(** [kringbuffer_write] of bytes the kernel holds. *)
Definition ring_put (R : rbkern W) (rb : kringbuffer) (bs : list Z) (blocking : bool) (w : W) : res (errno * Z * kringbuffer * W) :=
  kringbuffer_write_nolock R fuel (wr_bytes (λ _, 0) 0 bs) rb w 0 (Z.of_nat (length bs)) KRINGBUFFER_NOATOMIC blocking.

(** The bytes before the first newline, and those after it. *)
Fixpoint split_nl (bs : list Z) : option (list Z * list Z) :=
  match bs with
  | [] => None
  | c :: bs => if c =? NL then Some ([], bs) else '(l, r) ← split_nl bs; Some (c :: l, r)
  end.

(** The loop of [com_io_tty_text_backend_echo]; [n] bounds its turns. *)
Fixpoint echo_loop (n : nat) (bs : list Z) (count : Z) (blocking : bool) (w : W) : res (errno * Z * W) :=
  match n with
  | O => Fuel
  | S n =>
      if bool_decide (bs = []) then Ok (E0, count, w)
      else match split_nl bs with
           | None => tk_echo K bs blocking w
           | Some (l, r) =>
               '(e, bw, w) ← tk_echo K l blocking w;
               let count := u64 (count + u64 (bw + 1)) in
               if negb (bool_decide (e = E0)) then Ok (e, count, w)
               else
                 '(e, _, w) ← tk_echo K [CR; NL] blocking w;
                 if negb (bool_decide (e = E0)) then Ok (e, count, w) else echo_loop n r count blocking w
           end
  end.

(** Returns the error and [*bytes_written]. *)
Definition com_io_tty_text_backend_echo (t : com_text_tty_backend) (bs : list Z) (blocking : bool) (w : W) : res (errno * Z * W) :=
  if OPOST (c_termios t) || ONLCR (c_termios t) then echo_loop (S (length bs)) bs 0 blocking w
  else tk_echo K bs blocking w.

(** The part of [com_io_tty_process_char] on signals: the error, whether the
    character was handled, and the signal. *)
Definition signal_char (t : com_text_tty_backend) (c : Z) (blocking : bool) (w : W) : res (errno * bool * option tty_signal * W) :=
  let o := c_termios t in
  if negb (ISIG o) then Ok (E0, false, None, w)
  else
    '(ret, handled, sig, w) ← (if VINTR o =? schar c then '(e, _, w) ← com_io_tty_text_backend_echo t [94; 67] blocking w; Ok (e, true, Some SIGINT, w)
                               else Ok (E0, false, None, w));
    '(ret, handled, sig, w) ← (if VQUIT o =? schar c then '(e, _, w) ← com_io_tty_text_backend_echo t [94; 92; 92] blocking w; Ok (e, true, Some SIGQUIT, w)
                               else Ok (ret, handled, sig, w));
    Ok (if VSUSP o =? schar c then (ret, true, Some SIGTSTP, w) else (ret, handled, sig, w)).

(** From the label [sighandler]. *)
Definition sighandler (t : com_text_tty_backend) (sig : option tty_signal) (ret : errno) (w : W) : res (errno * com_text_tty_backend * W) :=
  match sig with
  | None => Ok (ret, t, w)
  | Some s => w ← tk_signal K (fg_pgid t) s w; Ok (ret, t, w)
  end.

(** The end of a line: the line goes to the ring. *)
Definition line_end (t : com_text_tty_backend) (blocking : bool) (w : W) : res (errno * com_text_tty_backend * W) :=
  '(ret, _, rb, w) ← ring_put (tk_ring K) (slave_rb t) (take (Z.to_nat (canon_index t)) (canon_buffer t)) blocking w;
  Ok (ret, with_canon (with_slave_rb t rb) (canon_buffer t) 0, w).

(** From the label [end]. The array is followed by other fields, so the model
    stops with [Fault] at its end. *)
Definition finish (t : com_text_tty_backend) (c : Z) (blocking handled line_done : bool) (sig : option tty_signal) (ret : errno) (w : W)
    : res (errno * com_text_tty_backend * W) :=
  '(ret, t, failed, w) ←
    (if handled then Ok (ret, t, false, w)
     else
       _ ← deref (canon_buffer t !! Z.to_nat (canon_index t));
       let t := with_canon t (<[Z.to_nat (canon_index t) := c]> (canon_buffer t)) (canon_index t + 1) in
       if ECHO (c_termios t) then '(e, _, w) ← com_io_tty_text_backend_echo t [c] blocking w; Ok (e, t, negb (bool_decide (e = E0)), w)
       else Ok (ret, t, false, w));
  if (failed : bool) then sighandler t sig ret w
  else
    '(ret, t, w) ← (if line_done then line_end t blocking w else Ok (ret, t, w));
    sighandler t sig ret w.

Definition rubout : list Z := [BS; 32; BS].

(** The loop on [VKILL], with the error that ends it. *)
Fixpoint vkill_loop (n : nat) (t : com_text_tty_backend) (blocking : bool) (w : W) : res (errno * com_text_tty_backend * W) :=
  match n with
  | O => Fuel
  | S n =>
      if 0 <? canon_index t then
        x ← deref (canon_buffer t !! Z.to_nat (canon_index t));
        if x =? NL then Ok (E0, t, w)
        else
          let t := with_canon t (canon_buffer t) (canon_index t - 1) in
          '(e, w) ← (if ECHOKE (c_termios t) then '(e, _, w) ← com_io_tty_text_backend_echo t rubout blocking w; Ok (e, w) else Ok (E0, w));
          if negb (bool_decide (e = E0)) then Ok (e, t, w) else vkill_loop n t blocking w
      else Ok (E0, t, w)
  end.

(** The part of [com_io_tty_process_char] for canonical mode. *)
Definition canon_char (t : com_text_tty_backend) (c : Z) (blocking handled : bool) (sig : option tty_signal) (ret : errno) (w : W)
    : res (errno * com_text_tty_backend * W) :=
  let o := c_termios t in
  let eof := VEOF o =? schar c in
  let t := if eof && (canon_index t =? 0) then with_slave_rb t (with_eof (slave_rb t)) else t in
  let handled := handled || eof in
  let line_done := eof || (c =? NL) || (c =? CR) in
  '(ret, t, handled, failed, w) ←
    (if VERASE o =? schar c then
       if 0 <? canon_index t then
         '(e, w) ← (if ECHOE o then '(e, _, w) ← com_io_tty_text_backend_echo t rubout blocking w; Ok (e, w) else Ok (ret, w));
         if negb (bool_decide (e = E0)) then Ok (e, t, handled, true, w)
         else Ok (e, with_canon t (canon_buffer t) (canon_index t - 1), true, false, w)
       else Ok (ret, t, true, false, w)
     else Ok (ret, t, handled, false, w));
  if (failed : bool) then finish t c blocking handled line_done sig ret w
  else if VKILL o =? schar c then
    '(e, t, w) ← vkill_loop (S (Z.to_nat (canon_index t))) t blocking w;
    if negb (bool_decide (e = E0)) then finish t c blocking handled line_done sig e w
    else finish t c blocking true line_done sig ret w
  else finish t c blocking handled line_done sig ret w.

Definition com_io_tty_process_char (t : com_text_tty_backend) (c : Z) (blocking : bool) (w : W) : res (errno * com_text_tty_backend * W) :=
  let o := c_termios t in
  '(ret, handled, sig, w) ← signal_char t c blocking w;
  if negb (bool_decide (ret = E0)) then finish t c blocking handled false sig ret w
  else if (c =? CR) && IGNCR o then Ok (E0, t, w)
  else
    let c := if (c =? CR) && ICRNL o then NL else c in
    let c := if (c =? NL) && INLCR o then CR else c in
    if negb (ICANON o) then
      '(ret, _, rb, w) ← ring_put (tk_ring K) (slave_rb t) [c] false w;
      finish (with_slave_rb t rb) c blocking true false sig ret w
    else canon_char t c blocking handled sig ret w.

(** Returns the error, [*bytes_processed] and the rest; [i] is the count so
    far. *)
Fixpoint process_loop (t : com_text_tty_backend) (bs : list Z) (i : Z) (blocking : bool) (w : W) : res (errno * Z * com_text_tty_backend * W) :=
  match bs with
  | [] => Ok (E0, i, t, w)
  | c :: bs =>
      '(ret, t, w) ← com_io_tty_process_char t c blocking w;
      if negb (bool_decide (ret = E0)) then Ok (ret, i, t, w) else process_loop t bs (i + 1) blocking w
  end.

Definition com_io_tty_process_chars (t : com_text_tty_backend) (bs : list Z) (blocking : bool) (w : W) : res (errno * Z * com_text_tty_backend * W) :=
  '(ret, i, t, w) ← process_loop t bs 0 blocking w;
  Ok (if i =? 0 then ret else E0, i, t, w).
End discipline.

(** ** Text terminals *)
Definition COM_IO_TTY_MOD_LCTRL : Z := 1.
Definition COM_IO_TTY_MOD_RCTRL : Z := 2.
Definition COM_IO_TTY_MOD_ARROW : Z := 4.
Definition COM_IO_TTY_MOD_LSHIFT : Z := 8.
Definition COM_IO_TTY_MOD_RSHIFT : Z := 16.
Definition COM_IO_TTY_MOD_LALT : Z := 32.
Definition COM_IO_TTY_MOD_RALT : Z := 64.
Definition COM_IO_KEYBOARD_KEY_BACKSPACE : Z := 14.
Definition COM_IO_KEYBOARD_KEY_LEFTCTRL : Z := 29.
Definition COM_IO_KEYBOARD_KEY_LEFTSHIFT : Z := 42.
Definition COM_IO_KEYBOARD_KEY_RIGHTSHIFT : Z := 54.
Definition COM_IO_KEYBOARD_KEY_LEFTALT : Z := 56.
Definition COM_IO_KEYBOARD_KEY_RIGHTCTRL : Z := 97.
Definition COM_IO_KEYBOARD_KEY_RIGHTALT : Z := 100.
Definition COM_IO_KEYBOARD_KEY_UP : Z := 103.
Definition COM_IO_KEYBOARD_KEY_LEFT : Z := 105.
Definition COM_IO_KEYBOARD_KEY_RIGHT : Z := 106.
Definition COM_IO_KEYBOARD_KEY_DOWN : Z := 108.

Record com_kbd_packet : Type := KbdPacket { keycode : Z; released : bool; kc : Z }.

Inductive com_tty_type : Type := E_COM_TTY_TYPE_TEXT | E_COM_TTY_TYPE_FRAMEBUFFER.
#[export] Instance com_tty_type_eq_dec : EqDecision com_tty_type.
Proof. solve_decision. Defined.
Inductive tty_handler : Type := text_in | fb_in.

(** [term] is the first field of the text terminal and shares its first four
    bytes with the owner of a graphical one. *)
Record com_tty : Type := Tty {
  type : com_tty_type;
  tty_vnode : Z;
  term : Z;
  backend : com_text_tty_backend;
  kbd_in : tty_handler;
  mouse_in : option tty_handler
}.

Definition with_backend (s : com_tty) (b : com_text_tty_backend) : com_tty := Tty (type s) (tty_vnode s) (term s) b (kbd_in s) (mouse_in s).

(** The terminal emulators by address ([term_putsn], [term_ctl] to enable or
    disable one), the keyboard's own device, and the rest of the kernel. *)
Record textkern (W : Type) : Type := Xk {
  xk_ring : rbkern W;
  xk_putsn : Z → list Z → W → res W;
  xk_ctl : Z → bool → W → res W;
  xk_signal : Z → tty_signal → W → res W;
  xk_packet : com_kbd_packet → W → res W
}.
Arguments xk_ring {W}. Arguments xk_putsn {W}. Arguments xk_ctl {W}. Arguments xk_signal {W}. Arguments xk_packet {W}.

(** The part of a process that the calls on terminals look at: its group's
    number and, when the group has one, the session's terminal. *)
Record procview : Type := PV { pv_group : option (Z * option (option Z)) }.

Inductive backend_op : Type :=
  | TIOCGWINSZ | TCGETS | TCSETS (o : termios) | TIOCGPGRP | TIOCSCTTY | TIOCSPGRP (pgid : Z) | BACKEND_OTHER.
Inductive backend_out : Type := OutNone | OutWinsize (rows cols : Z) | OutTermios (o : termios) | OutPgid (pgid : Z).
Inductive ktty_mode : Type := KTTY_MODE_TEXT | KTTY_MODE_GRAPHICS | KTTY_MODE_OTHER.

Definition with_termios (t : com_text_tty_backend) (o : termios) : com_text_tty_backend :=
  Backend (rows t) (cols t) o (fg_pgid t) (slave_rb t) (canon_buffer t) (canon_index t).
Definition with_fg (t : com_text_tty_backend) (g : Z) : com_text_tty_backend :=
  Backend (rows t) (cols t) (c_termios t) g (slave_rb t) (canon_buffer t) (canon_index t).

(** The caller's group must be of a session whose terminal this is. *)
Definition controls (p : procview) (vn : Z) : bool :=
  match pv_group p with Some (_, Some tty) => bool_decide (tty = Some vn) | _ => false end.

(** Returns the error, what is stored for the caller, the backend and the
    caller's view with its session's terminal. *)
Definition com_io_tty_text_backend_ioctl (t : com_text_tty_backend) (vn : Z) (p : procview) (op : backend_op)
    : errno * backend_out * com_text_tty_backend * procview :=
  match op with
  | TIOCGWINSZ => (E0, OutWinsize (rows t) (cols t), t, p)
  | TCGETS => (E0, OutTermios (c_termios t), t, p)
  | TCSETS o => (E0, OutNone, with_termios t o, p)
  | TIOCGPGRP => if controls p vn then (E0, OutPgid (if negb (fg_pgid t =? 0) then fg_pgid t else 1000000), t, p) else (ENOTTY, OutNone, t, p)
  | TIOCSCTTY =>
      match pv_group p with
      | Some (g, Some _) => (E0, OutNone, with_fg t g, PV (Some (g, Some (Some vn))))
      | _ => (ENOTTY, OutNone, t, p)
      end
  | TIOCSPGRP g => if controls p vn then (E0, OutNone, with_fg t g, p) else (ENOTTY, OutNone, t, p)
  | BACKEND_OTHER => (ENOSYS, OutNone, t, p)
  end.

(** [com_io_tty_init_text_backend], with the control characters and flags of
    [ttydefaults.h] and a ring over what the array holds. *)
Definition com_io_tty_init_text_backend (dflt : termios) (array : list Z) (rows cols : Z) : com_text_tty_backend :=
  Backend rows cols dflt 0 (KRINGBUFFER_INIT array) (replicate (Z.to_nat COM_IO_TTY_BUF_SZ) 0) 0.

Section text.
Context {W : Type} (X : textkern W) (fuel : nat).

Definition text_tty_echo (s : com_tty) (bs : list Z) (blocking : bool) (w : W) : res (errno * Z * W) :=
  w ← xk_putsn X (term s) bs w; Ok (E0, Z.of_nat (length bs), w).

Definition text_kern (s : com_tty) : ttykern W := Tk (xk_ring X) (text_tty_echo s) (xk_signal X).

Definition text_tty_kbd_convert (s : com_tty) (c mod_ : Z) (w : W) : res (com_tty * W) :=
  let is_arrow := negb (Z.land COM_IO_TTY_MOD_ARROW mod_ =? 0) in
  let is_ctrl_held := negb (Z.land COM_IO_TTY_MOD_LCTRL mod_ =? 0) in
  let is_del := CONTROL_DEL =? c in
  let c := if BS =? c then CONTROL_DEL else c in
  if is_arrow || is_del then
    let escape := if is_arrow then [ESC; 91; c] else [ESC; 91; 51; 126] in
    '(_, _, b, w) ← com_io_tty_process_chars (text_kern s) fuel (backend s) escape false w;
    Ok (with_backend s b, w)
  else
    let c := if is_ctrl_held then u8 ((if (97 <=? c) && (c <=? 122) then c - 32 else c) - 64) else c in
    '(_, b, w) ← com_io_tty_process_char (text_kern s) fuel (backend s) c false w;
    Ok (with_backend s b, w).

(** The bit a modifier key has in [mod]. *)
Definition modifier (k : Z) : option Z :=
  if k =? COM_IO_KEYBOARD_KEY_LEFTCTRL then Some COM_IO_TTY_MOD_LCTRL
  else if k =? COM_IO_KEYBOARD_KEY_RIGHTCTRL then Some COM_IO_TTY_MOD_RCTRL
  else if k =? COM_IO_KEYBOARD_KEY_LEFTALT then Some COM_IO_TTY_MOD_LALT
  else if k =? COM_IO_KEYBOARD_KEY_RIGHTALT then Some COM_IO_TTY_MOD_RALT
  else if k =? COM_IO_KEYBOARD_KEY_LEFTSHIFT then Some COM_IO_TTY_MOD_LSHIFT
  else if k =? COM_IO_KEYBOARD_KEY_RIGHTSHIFT then Some COM_IO_TTY_MOD_RSHIFT
  else None.

Definition arrow (k : Z) : option Z :=
  if k =? COM_IO_KEYBOARD_KEY_UP then Some 65 else if k =? COM_IO_KEYBOARD_KEY_DOWN then Some 66
  else if k =? COM_IO_KEYBOARD_KEY_RIGHT then Some 67 else if k =? COM_IO_KEYBOARD_KEY_LEFT then Some 68 else None.

(** [mod] is the variable all terminals share. *)
Definition text_tty_kbd_in (s : com_tty) (mod_ : Z) (pkt : com_kbd_packet) (w : W) : res (com_tty * Z * W) :=
  KASSERT (bool_decide (type s = E_COM_TTY_TYPE_TEXT));;
  if released pkt then Ok (s, match modifier (keycode pkt) with Some b => Z.ldiff mod_ b | None => mod_ end, w)
  else match modifier (keycode pkt) with
       | Some b => Ok (s, Z.lor mod_ b, w)
       | None =>
           match arrow (keycode pkt) with
           | Some c => '(s, w) ← text_tty_kbd_convert s c (Z.lor mod_ COM_IO_TTY_MOD_ARROW) w; Ok (s, mod_, w)
           | None =>
               '(s, w) ← (if keycode pkt =? COM_IO_KEYBOARD_KEY_BACKSPACE then text_tty_kbd_convert s 127 mod_ w else Ok (s, w));
               '(s, w) ← text_tty_kbd_convert s (kc pkt) mod_ w;
               Ok (s, mod_, w)
           end
       end.

Definition fb_tty_kbd_in (pkt : com_kbd_packet) (w : W) : res W := xk_packet X pkt w.

Definition com_io_tty_kbd_in (s : com_tty) (mod_ : Z) (pkt : com_kbd_packet) (w : W) : res (com_tty * Z * W) :=
  match kbd_in s with
  | text_in => text_tty_kbd_in s mod_ pkt w
  | fb_in => w ← fb_tty_kbd_in pkt w; Ok (s, mod_, w)
  end.

(** Returns the error, the bytes read when they are stored, and the rest. *)
Definition tty_read (m : mem) (buf buflen : Z) (s : com_tty) (nonblock : bool) (w : W) : res (errno * option Z * mem * com_tty * W) :=
  if negb (bool_decide (type s = E_COM_TTY_TYPE_TEXT)) then Ok (E0, Some 0, m, s, w)
  else
    '(e, n, m, rb, w) ← kringbuffer_read_nolock (xk_ring X) fuel m buf (slave_rb (backend s)) w buflen KRINGBUFFER_NOATOMIC (negb nonblock);
    Ok (e, n, m, with_backend s (with_slave_rb (backend s) rb), w).

Definition tty_write (s : com_tty) (bs : list Z) (w : W) : res (errno * Z * W) :=
  if negb (bool_decide (type s = E_COM_TTY_TYPE_TEXT)) then Ok (E0, 0, w)
  else com_io_tty_text_backend_echo (text_kern s) (backend s) bs true w.

Inductive tty_op : Type := KTTY_IOCTL_SETMODE (mode : ktty_mode) | TTY_BACKEND (op : backend_op).

Definition tty_ioctl (s : com_tty) (p : procview) (op : tty_op) (w : W) : res (errno * backend_out * com_tty * procview * W) :=
  match op with
  | KTTY_IOCTL_SETMODE KTTY_MODE_TEXT =>
      w ← xk_ctl X (term s) true w;
      Ok (E0, OutNone, Tty E_COM_TTY_TYPE_FRAMEBUFFER (tty_vnode s) (term s) (backend s) text_in None, p, w)
  | KTTY_IOCTL_SETMODE KTTY_MODE_GRAPHICS =>
      w ← xk_ctl X (term s) false w;
      let term' := (term s / 2 ^ 32) * 2 ^ 32 + wrap 32 (fg_pgid (backend s)) in
      Ok (E0, OutNone, Tty E_COM_TTY_TYPE_FRAMEBUFFER (tty_vnode s) term' (backend s) fb_in (Some fb_in), p, w)
  | KTTY_IOCTL_SETMODE KTTY_MODE_OTHER => Ok (EINVAL, OutNone, s, p, w)
  | TTY_BACKEND op =>
      if negb (bool_decide (type s = E_COM_TTY_TYPE_TEXT)) then Ok (ENOSYS, OutNone, s, p, w)
      else
        let '(e, out, b, p) := com_io_tty_text_backend_ioctl (backend s) (tty_vnode s) p op in
        Ok (e, out, with_backend s b, p, w)
  end.

(** [POLLIN] and [POLLOUT]; [None] is [ENOSYS]. *)
Definition tty_poll (s : com_tty) : option (bool * bool) :=
  if negb (bool_decide (type s = E_COM_TTY_TYPE_TEXT)) then None
  else Some (negb (rb_write_index (slave_rb (backend s)) =? rb_read_index (slave_rb (backend s))), true).

Definition tty_close : res unit := Panic.

(** [com_io_tty_init_text]: [reg] is what the registration of the device
    gives. When it fails the structure stays as the allocator zeroed it. *)
Definition no_backend : com_text_tty_backend :=
  Backend 0 0 (Termios false false false false false false false false false false 0 0 0 0 0 0) 0 (mkRb [] 0 0 0 false) (replicate (Z.to_nat COM_IO_TTY_BUF_SZ) 0) 0.

Definition com_io_tty_init_text (dflt : termios) (array : list Z) (reg : errno + Z) (tm rows cols : Z) : errno * option Z * com_tty :=
  match reg with
  | inl e => (e, None, Tty E_COM_TTY_TYPE_TEXT 0 tm no_backend text_in None)
  | inr vn => (E0, Some vn, Tty E_COM_TTY_TYPE_TEXT vn tm (com_io_tty_init_text_backend dflt array rows cols) text_in None)
  end.

(** [/dev/tty]: a process without a group or a session is a null pointer. *)
Definition devtty_open (p : procview) : res (errno * option Z) :=
  match pv_group p with
  | Some (_, Some (Some vn)) => Ok (E0, Some vn)
  | Some (_, Some None) => Ok (ENXIO, None)
  | _ => Fault
  end.
End text.

(** ** Lemmas on the ring *)
Section put.
Context {W : Type} (R : rbkern W).

Definition no_hangup (rb : kringbuffer) (w : W) : Prop := ∀ k, check_hangup R k 0 KRINGBUFFER_OP_WRITE rb w = Ok (None, k, w).

Lemma no_hangup_none rb w : rk_hangup R = None → no_hangup rb w.
Proof. intros H k. by apply check_hangup_none. Qed.

(** What fits is written at once, blocking or not. *)
Lemma ring_put_ok fuel rb bs blocking w : no_hangup rb w → rb_wf rb → 1 < rb_buffer_size rb → 1 ≤ Z.of_nat (length bs) ≤ KRINGBUFFER_AVAIL_WRITE rb → (1 < fuel)%nat →
  ∃ rb', ring_put fuel R rb bs blocking w = Ok (E0, Z.of_nat (length bs), rb', run_callback R (rk_notify R KRINGBUFFER_OP_READ w)) ∧
    rb_wf rb' ∧ rb_contents rb' = rb_contents rb ++ bs ∧ rb_buffer_size rb' = rb_buffer_size rb ∧ rb_is_eof rb' = rb_is_eof rb.
Proof.
  intros Hh Hwf Hs Hn Hf. set (n := Z.of_nat (length bs)) in *.
  destruct (write_chunk_spec (wr_bytes (λ _, 0) 0 bs) rb 0 n Hwf) as (rb' & Hw & Hwf' & Hc & Hsz & He); [lia|].
  exists rb'. split; [|split; [done|split; [|done]]].
  - pose proof (rb_size_range rb Hwf). pose proof (avail_read_range rb Hwf). pose proof (avail_write_eq rb Hwf).
    unfold ring_put, kringbuffer_write_nolock. fold n. change KRINGBUFFER_NOATOMIC with 1.
    destruct (Z.eqb_spec (rb_buffer_size rb) 0); [lia|]. destruct (Z.ltb_spec 1 (rb_buffer_size rb)); [|lia]. cbn [negb]. mstep.
    destruct blocking.
    + unfold write_blocking. destruct fuel as [|[|f]]; [lia..|]. cbn [write_blocking_loop write_wait]. destruct (Z.ltb_spec 0 n); [|lia].
      rewrite Hh. mstep. destruct (Z.ltb_spec (KRINGBUFFER_AVAIL_WRITE rb) 1); [lia|]. mstep. rewrite KMIN_min, Z.min_l by lia. rewrite Hw. mstep.
      rewrite Z.sub_diag. cbn [Z.ltb Z.compare]. by rewrite wrap_small by lia.
    + unfold write_nonblocking. rewrite Hh. mstep. rewrite KMIN_min, Z.min_l by lia. destruct (Z.ltb_spec n 1); [lia|]. by rewrite Hw.
  - rewrite Hc. f_equal. unfold n. rewrite Nat2Z.id. apply rd_wr_bytes.
Qed.
End put.

(** ** The output *)

(** What a program's text becomes on the screen. *)
Definition crlf (bs : list Z) : list Z := concat ((λ c, if c =? NL then [CR; NL] else [c]) <$> bs).

Lemma split_nl_Some bs l r : split_nl bs = Some (l, r) → bs = l ++ NL :: r ∧ NL ∉ l.
Proof.
  revert l r. induction bs as [|c bs IH]; intros l r; [done|]. cbn. destruct (Z.eqb_spec c NL) as [->|Hne].
  - intros [= <- <-]. split; [done|apply not_elem_of_nil].
  - destruct (split_nl bs) as [[l' r']|]; cbn; [|done]. intros [= <- <-]. destruct (IH l' r' eq_refl) as [-> ?]. split; [done|]. by apply not_elem_of_cons.
Qed.

Lemma split_nl_None bs : split_nl bs = None → NL ∉ bs.
Proof.
  induction bs as [|c bs IH]; cbn; [intros _; apply not_elem_of_nil|]. destruct (Z.eqb_spec c NL) as [->|]; [done|].
  destruct (split_nl bs) as [[? ?]|]; cbn; [done|]. intros _. apply not_elem_of_cons. auto.
Qed.

Lemma crlf_plain bs : NL ∉ bs → crlf bs = bs.
Proof.
  induction bs as [|c bs IH]; [done|]. intros [Hc Hbs]%not_elem_of_cons. unfold crlf in *. cbn. rewrite IH by done.
  by destruct (Z.eqb_spec c NL) as [->|].
Qed.

Lemma crlf_app xs ys : crlf (xs ++ ys) = crlf xs ++ crlf ys.
Proof. unfold crlf. by rewrite fmap_app, concat_app. Qed.

Lemma crlf_nl l r : NL ∉ l → crlf (l ++ NL :: r) = l ++ [CR; NL] ++ crlf r.
Proof. intros Hl. rewrite crlf_app, crlf_plain by done. done. Qed.

(** An output that, in the states [I], appends to [out] what fits into
    [room]. *)
Definition echo_appends {W} (K : ttykern W) (b : bool) (I : W → Prop) (out : W → list Z) (room : W → Z) : Prop :=
  ∀ bs w, I w → Z.of_nat (length bs) ≤ room w →
    ∃ w', tk_echo K bs b w = Ok (E0, Z.of_nat (length bs), w') ∧ out w' = out w ++ bs ∧ room w - Z.of_nat (length bs) ≤ room w' ∧ I w'.

(** The count a write reports: when the text does not end in a newline, only
    what follows the last one. *)
Fixpoint reported (n : nat) (bs : list Z) (count : Z) : Z :=
  match n with
  | O => count
  | S n => if bool_decide (bs = []) then count else match split_nl bs with None => Z.of_nat (length bs) | Some (l, r) => reported n r (count + Z.of_nat (length l) + 1) end
  end.

Lemma length_crlf bs : (length bs ≤ length (crlf bs))%nat.
Proof. induction bs as [|c bs IH]; [done|]. change (c :: bs) with ([c] ++ bs). rewrite crlf_app, !length_app. unfold crlf at 1. cbn. destruct (c =? NL); cbn; lia. Qed.

Lemma echo_loop_ok {W} (K : ttykern W) b I out room n bs count w : echo_appends K b I out room → I w → (length bs < n)%nat → 0 ≤ count → count + Z.of_nat (length bs) < 2 ^ 63 →
  Z.of_nat (length (crlf bs)) ≤ room w → ∃ w', echo_loop K n bs count b w = Ok (E0, reported n bs count, w') ∧ out w' = out w ++ crlf bs ∧ I w'.
Proof.
  intros Hk. revert bs count w. induction n as [|n IH]; intros bs count w HI Hl Hc Hm Hr; [lia|]. cbn [echo_loop reported].
  case_bool_decide as Hbs; [exists w; subst; by rewrite app_nil_r|]. destruct (split_nl bs) as [[l r]|] eqn:E.
  - apply split_nl_Some in E as [-> Hnl]. rewrite crlf_nl in Hr |- * by done. rewrite !length_app in Hr. rewrite length_app in Hl, Hm. cbn in Hl, Hm, Hr.
    destruct (Hk l w) as (w1 & -> & H1 & R1 & I1); [done|lia|]. mstep. rewrite bool_decide_true by done. cbn [negb].
    destruct (Hk [CR; NL] w1) as (w2 & -> & H2 & R2 & I2); [done|cbn; lia|]. mstep. rewrite bool_decide_true by done. cbn [negb].
    rewrite (wrap_small 64 (Z.of_nat (length l) + 1)), wrap_small by lia. cbn in R2.
    destruct (IH r (count + (Z.of_nat (length l) + 1)) w2) as (w' & -> & H' & ?); [done|lia..|]. exists w'. rewrite Z.add_assoc. split; [done|]. split; [|done].
    rewrite H', H2, H1. by rewrite <- !app_assoc.
  - apply split_nl_None in E. rewrite crlf_plain in Hr |- * by done. destruct (Hk bs w) as (w' & -> & H' & _ & ?); [done|lia|]. by exists w'.
Qed.

Lemma echo_crlf_ok {W} (K : ttykern W) b I out room t bs w : echo_appends K b I out room → I w → Z.of_nat (length bs) < 2 ^ 63 →
  let cooked := OPOST (c_termios t) || ONLCR (c_termios t) in
  let text := if cooked then crlf bs else bs in
  Z.of_nat (length text) ≤ room w →
  ∃ w', com_io_tty_text_backend_echo K t bs b w = Ok (E0, if cooked then reported (S (length bs)) bs 0 else Z.of_nat (length bs), w') ∧ out w' = out w ++ text ∧ I w'.
Proof.
  intros Hk HI Hl cooked text Hr. unfold com_io_tty_text_backend_echo. fold cooked. unfold text in *. destruct cooked; [apply (echo_loop_ok K b I out room); (done || lia)|].
  destruct (Hk bs w HI Hr) as (w' & -> & H & _ & ?). by exists w'.
Qed.

(** A program's output reaches the screen with every newline turned into
    carriage return and line feed when [OPOST] or [ONLCR] is set, and as it is
    otherwise. The count is that of all bytes only if the text ends in a
    newline or has none. *)
Theorem echo_crlf {W} (K : ttykern W) b I out room t bs w : echo_appends K b I out room → I w → Z.of_nat (length bs) < 2 ^ 63 →
  let cooked := OPOST (c_termios t) || ONLCR (c_termios t) in
  let text := if cooked then crlf bs else bs in
  Z.of_nat (length text) ≤ room w →
  ∃ w', com_io_tty_text_backend_echo K t bs b w = Ok (E0, if cooked then reported (S (length bs)) bs 0 else Z.of_nat (length bs), w') ∧ out w' = out w ++ text ∧ I w'.
Proof. apply echo_crlf_ok. Qed.

(** ** The line editor

    What the line discipline is meant to do with characters that have no
    meaning of their own but erase and end of line: the current line, and what
    was delivered. *)
Definition map_cr (o : termios) (c : Z) : Z :=
  let c := if (c =? CR) && ICRNL o then NL else c in if (c =? NL) && INLCR o then CR else c.
Definition ends_line (c : Z) : bool := (c =? NL) || (c =? CR).
Definition edit1 (o : termios) (st : list Z * list Z) (c : Z) : list Z * list Z :=
  let '(line, out) := st in
  let c := map_cr o c in
  if VERASE o =? schar c then (take (length line - 1) line, out)
  else if ends_line c then ([], out ++ line ++ [c]) else (line ++ [c], out).
Definition edit (o : termios) (cs : list Z) (line : list Z) : list Z * list Z := foldl (edit1 o) (line, []) cs.

(** No signal, not thrown away, not end of file or kill, and not both erase
    and end of line. *)
Record plain (o : termios) (c : Z) : Prop := {
  pl_sig : ISIG o = true → VINTR o ≠ schar c ∧ VQUIT o ≠ schar c ∧ VSUSP o ≠ schar c;
  pl_cr : c = CR → IGNCR o = false;
  pl_eof : VEOF o ≠ schar (map_cr o c);
  pl_kill : VKILL o ≠ schar (map_cr o c);
  pl_erase : VERASE o = schar (map_cr o c) → ends_line (map_cr o c) = false
}.

Definition echo_total {W} (K : ttykern W) : Prop := ∀ bs b w, ∃ n w', tk_echo K bs b w = Ok (E0, n, w').

Record tty_at (t : com_text_tty_backend) (line : list Z) : Prop := {
  ta_len : length (canon_buffer t) = Z.to_nat COM_IO_TTY_BUF_SZ;
  ta_index : canon_index t = Z.of_nat (length line);
  ta_line : take (length line) (canon_buffer t) = line;
  ta_fits : Z.of_nat (length line) ≤ COM_IO_TTY_BUF_SZ;
  ta_rb : rb_wf (slave_rb t);
  ta_size : 1 < rb_buffer_size (slave_rb t)
}.

Section editing.
Context {W : Type} (K : ttykern W) (fuel : nat).
Context (Hecho : echo_total K) (Hhup : rk_hangup (tk_ring K) = None) (Hfuel : (1 < fuel)%nat).

Lemma echo_loop_total n bs count b w : (length bs < n)%nat → ∃ k w', echo_loop K n bs count b w = Ok (E0, k, w').
Proof.
  revert bs count w. induction n as [|n IH]; intros bs count w Hl; [lia|]. cbn [echo_loop].
  case_bool_decide; [by eexists _, _|]. destruct (split_nl bs) as [[l r]|] eqn:E; [|apply Hecho].
  apply split_nl_Some in E as [-> _]. rewrite length_app in Hl. cbn in Hl.
  destruct (Hecho l b w) as (k1 & w1 & ->). mstep. rewrite bool_decide_true by done. cbn [negb].
  destruct (Hecho [CR; NL] b w1) as (k2 & w2 & ->). mstep. rewrite bool_decide_true by done. cbn [negb]. apply IH. lia.
Qed.

Lemma backend_echo_total t bs b w : ∃ k w', com_io_tty_text_backend_echo K t bs b w = Ok (E0, k, w').
Proof. unfold com_io_tty_text_backend_echo. destruct (_ || _); [by apply echo_loop_total; lia|apply Hecho]. Qed.

Lemma plain_no_signal t c b w : plain (c_termios t) c → signal_char K t c b w = Ok (E0, false, None, w).
Proof.
  intros Hp. unfold signal_char. destruct (ISIG (c_termios t)) eqn:Hs; [|done]. destruct (pl_sig _ _ Hp Hs) as (H1 & H2 & H3). cbn [negb].
  destruct (Z.eqb_spec (VINTR (c_termios t)) (schar c)); [done|]. mstep. destruct (Z.eqb_spec (VQUIT (c_termios t)) (schar c)); [done|]. mstep.
  by destruct (Z.eqb_spec (VSUSP (c_termios t)) (schar c)).
Qed.

(** The character at the end of the line. *)
Lemma insert_char t line c : tty_at t line → Z.of_nat (length line) < COM_IO_TTY_BUF_SZ →
  canon_buffer t !! Z.to_nat (canon_index t) ≠ None ∧
  tty_at (with_canon t (<[Z.to_nat (canon_index t) := c]> (canon_buffer t)) (canon_index t + 1)) (line ++ [c]).
Proof.
  clear Hfuel. intros [Hl Hi Ht Hf Hr Hs] Hlt. assert (length line < length (canon_buffer t))%nat by lia.
  rewrite Hi, Nat2Z.id. split; [by apply not_eq_None_Some, lookup_lt_is_Some|]. constructor; cbn [canon_buffer canon_index slave_rb with_canon]; try done.
  - by rewrite length_insert.
  - rewrite length_app. cbn. lia.
  - rewrite length_app. cbn [length]. rewrite Nat.add_1_r.
    rewrite (take_S_r _ _ c) by (apply list_lookup_insert_eq; lia). by rewrite take_insert_ge, Ht by lia.
  - rewrite length_app. cbn. lia.
Qed.

(** What [finish] does with a character that goes into the line. *)
Lemma finish_insert t line c b d w : tty_at t line → Z.of_nat (length line) < COM_IO_TTY_BUF_SZ →
  (d = true → Z.of_nat (length line) + 1 ≤ KRINGBUFFER_AVAIL_WRITE (slave_rb t)) →
  ∃ t' w', finish K fuel t c b false d None E0 w = Ok (E0, t', w') ∧ c_termios t' = c_termios t ∧
    tty_at t' (if d then [] else line ++ [c]) ∧ rb_contents (slave_rb t') = rb_contents (slave_rb t) ++ (if d then line ++ [c] else []) ∧
    rb_buffer_size (slave_rb t') = rb_buffer_size (slave_rb t).
Proof.
  intros Ht Hlt Hd. destruct (insert_char t line c Ht Hlt) as [Hb Ht']. unfold finish.
  destruct (canon_buffer t !! Z.to_nat (canon_index t)); [|done]. mstep. set (t1 := with_canon t _ _) in *.
  assert (∃ w1, (if ECHO (c_termios t1) then '(e, _, w) ← com_io_tty_text_backend_echo K t1 [c] b w; Ok (e, t1, negb (bool_decide (e = E0)), w)
       else Ok (E0, t1, false, w)) = Ok (E0, t1, false, w1)) as (w1 & ->).
  { destruct (ECHO (c_termios t1)); [|by exists w]. destruct (backend_echo_total t1 [c] b w) as (k & w1 & ->). mstep. by exists w1. }
  mstep. destruct d; cbn [sighandler].
  - unfold line_end. destruct Ht' as [Hl Hi Htk Hf Hr Hs]. rewrite Hi, Nat2Z.id, Htk.
    destruct (ring_put_ok (tk_ring K) fuel (slave_rb t1) (line ++ [c]) b w1) as (rb & -> & Hr' & Hc & Hsz & _);
      [by apply no_hangup_none|done|done|rewrite length_app; cbn; specialize (Hd eq_refl); change (slave_rb t1) with (slave_rb t); lia|done|].
    mstep. eexists _, _. split; [done|]. split; [done|]. split; [|split; [exact Hc|exact Hsz]].
    constructor; cbn [canon_buffer canon_index slave_rb with_canon with_slave_rb]; try done. cbn in Hsz |- *. rewrite Hsz. exact Hs.
  - mstep. eexists _, _. split; [done|]. split; [done|]. split; [done|]. split; [by rewrite app_nil_r|done].
Qed.

(** Erasing. *)
Lemma finish_erase t line c b w : tty_at t line → plain (c_termios t) c → VERASE (c_termios t) = schar (map_cr (c_termios t) c) →
  ∃ t' w', canon_char K fuel t (map_cr (c_termios t) c) b false None E0 w = Ok (E0, t', w') ∧ c_termios t' = c_termios t ∧
    tty_at t' (take (length line - 1) line) ∧ slave_rb t' = slave_rb t.
Proof.
  intros Ht Hp He. set (c' := map_cr (c_termios t) c) in *. pose proof (pl_erase _ _ Hp He) as Hend. pose proof (pl_eof _ _ Hp) as Heof. pose proof (pl_kill _ _ Hp) as Hk. fold c' in Hend, Heof, Hk.
  unfold canon_char. destruct (Z.eqb_spec (VEOF (c_termios t)) (schar c')); [done|]. cbn [andb orb]. fold (ends_line c'). rewrite Hend.
  destruct (Z.eqb_spec (VERASE (c_termios t)) (schar c')); [|done]. destruct Ht as [Hl Hi Htk Hf Hr Hs].
  destruct (Z.ltb_spec 0 (canon_index t)).
  - assert (∃ w1, (if ECHOE (c_termios t) then '(e, _, w) ← com_io_tty_text_backend_echo K t rubout b w; Ok (e, w) else Ok (E0, w)) = Ok (E0, w1)) as (w1 & ->).
    { destruct (ECHOE (c_termios t)); [|by exists w]. destruct (backend_echo_total t rubout b w) as (k & w1 & ->). mstep. by exists w1. }
    mstep. destruct (Z.eqb_spec (VKILL (c_termios t)) (schar c')); [done|]. unfold finish. mstep. eexists _, _. split; [done|]. split; [done|]. split; [|done].
    constructor; cbn [canon_buffer canon_index slave_rb with_canon]; try done; rewrite ?length_take; try lia.
    rewrite Nat.min_l by lia. transitivity (take (length line - 1) (take (length line) (canon_buffer t))); [by rewrite take_take, Nat.min_l by lia|by rewrite Htk].
  - mstep. destruct (Z.eqb_spec (VKILL (c_termios t)) (schar c')); [done|]. unfold finish. mstep. eexists _, _. split; [done|]. split; [done|]. split; [|done].
    destruct line; [|cbn in Hi; lia]. by constructor.
Qed.

Lemma edit1_out o line out c : edit1 o (line, out) c = ((edit1 o (line, []) c).1, out ++ (edit1 o (line, []) c).2).
Proof. cbn. destruct (_ =? _); cbn; [by rewrite app_nil_r|]. destruct (ends_line _); cbn; [done|by rewrite app_nil_r]. Qed.

Lemma edit_out o cs line out : foldl (edit1 o) (line, out) cs = ((edit o cs line).1, out ++ (edit o cs line).2).
Proof.
  revert line out. induction cs as [|c cs IH]; intros line out; [cbn; by rewrite app_nil_r|]. unfold edit. cbn [foldl].
  rewrite edit1_out, IH, (surjective_pairing (edit1 o (line, []) c)), IH. cbn. by rewrite app_assoc.
Qed.

Lemma edit_cons o c cs line : edit o (c :: cs) line =
  ((edit o cs (edit1 o (line, []) c).1).1, (edit1 o (line, []) c).2 ++ (edit o cs (edit1 o (line, []) c).1).2).
Proof. unfold edit at 1. cbn [foldl]. rewrite (surjective_pairing (edit1 o (line, []) c)). apply edit_out. Qed.

Lemma process_plain t line c b w : tty_at t line → ICANON (c_termios t) = true → plain (c_termios t) c → Z.of_nat (length line) < COM_IO_TTY_BUF_SZ →
  let e := edit1 (c_termios t) (line, []) c in
  Z.of_nat (length e.2) ≤ KRINGBUFFER_AVAIL_WRITE (slave_rb t) →
  ∃ t' w', com_io_tty_process_char K fuel t c b w = Ok (E0, t', w') ∧ c_termios t' = c_termios t ∧ tty_at t' e.1 ∧
    rb_contents (slave_rb t') = rb_contents (slave_rb t) ++ e.2 ∧ rb_buffer_size (slave_rb t') = rb_buffer_size (slave_rb t).
Proof.
  intros Ht Hc Hp Hlt. unfold com_io_tty_process_char. rewrite plain_no_signal by done. mstep. rewrite bool_decide_true by done. cbn [negb].
  assert ((c =? CR) && IGNCR (c_termios t) = false) as ->.
  { destruct (Z.eqb_spec c CR); [|done]. by rewrite (pl_cr _ _ Hp). }
  fold (map_cr (c_termios t) c). cbn zeta. rewrite Hc. cbn [negb]. set (c' := map_cr (c_termios t) c). cbn [edit1]. fold c'.
  destruct (Z.eqb_spec (VERASE (c_termios t)) (schar c')) as [He|He]; cbn [fst snd].
  - intros _. destruct (finish_erase t line c b w Ht Hp He) as (t' & w' & Hf & Htm & Ht' & Hrb). fold c' in Hf. exists t', w'.
    split; [exact Hf|]. split; [done|]. split; [done|]. rewrite Hrb, app_nil_r. done.
  - intros Hout. pose proof (pl_eof _ _ Hp) as Heof. pose proof (pl_kill _ _ Hp) as Hk. fold c' in Heof, Hk. unfold canon_char.
    destruct (Z.eqb_spec (VEOF (c_termios t)) (schar c')); [done|]. cbn [andb orb]. destruct (Z.eqb_spec (VERASE (c_termios t)) (schar c')); [done|]. mstep.
    destruct (Z.eqb_spec (VKILL (c_termios t)) (schar c')); [done|]. fold (ends_line c').
    destruct (finish_insert t line c' b (ends_line c') w Ht Hlt) as (t' & w' & Hf & Htm & Ht' & Hc' & Hsz).
    { intros Hd. rewrite Hd in Hout. cbn in Hout. rewrite length_app in Hout. cbn in Hout. lia. }
    exists t', w'. split; [exact Hf|]. split; [done|]. by destruct (ends_line c').
Qed.

Lemma editor_loop b cs : ∀ t line w i, tty_at t line → ICANON (c_termios t) = true → Forall (plain (c_termios t)) cs →
  (∀ k, (k < length cs)%nat → Z.of_nat (length (edit (c_termios t) (take k cs) line).1) < COM_IO_TTY_BUF_SZ) →
  Z.of_nat (length (edit (c_termios t) cs line).2) ≤ KRINGBUFFER_AVAIL_WRITE (slave_rb t) →
  ∃ t' w', process_loop K fuel t cs i b w = Ok (E0, i + Z.of_nat (length cs), t', w') ∧ c_termios t' = c_termios t ∧ tty_at t' (edit (c_termios t) cs line).1 ∧
    rb_contents (slave_rb t') = rb_contents (slave_rb t) ++ (edit (c_termios t) cs line).2.
Proof.
  induction cs as [|c cs IH]; intros t line w i Ht Hc Hp Hl Hr.
  - exists t, w. cbn. rewrite Z.add_0_r, app_nil_r. done.
  - apply Forall_cons in Hp as [Hpc Hp]. rewrite edit_cons in Hr |- *. cbn [fst snd] in Hr |- *. rewrite length_app in Hr. cbn [process_loop].
    pose proof (Hl 0%nat ltac:(cbn; lia)) as Hl0. cbn in Hl0.
    destruct (process_plain t line c b w Ht Hc Hpc Hl0) as (t1 & w1 & -> & Htm & Ht1 & Hc1 & Hs1); [lia|]. mstep. rewrite bool_decide_true by done. cbn [negb].
    rewrite <- Htm in *. set (e := edit1 (c_termios t1) (line, []) c) in *.
    destruct (IH t1 e.1 w1 (i + 1)) as (t' & w' & -> & Htm' & Ht' & Hc'); [done|done|done| | |].
    + intros k Hk. specialize (Hl (S k) ltac:(cbn; lia)). cbn [take] in Hl. by rewrite edit_cons in Hl.
    + pose proof (length_rb_contents (slave_rb t)). pose proof (length_rb_contents (slave_rb t1)) as H1. rewrite Hc1, length_app in H1.
      rewrite avail_write_eq in * by (apply Ht || apply Ht1). lia.
    + exists t', w'. split; [f_equal; f_equal; f_equal; f_equal; cbn [length]; lia|]. split; [congruence|]. split; [done|]. by rewrite Hc', Hc1, app_assoc.
Qed.

(** C36: The line discipline implements the line editor: whatever ordinary,
    erase and newline characters are typed, if the
    array is not full before any of them and the finished lines fit into the ring, all of them are processed, the
    array holds the editor's current line, and programs find exactly the lines
    the editor delivered, after what was there. *)
Theorem canon_implements_editor t line cs b w : tty_at t line → ICANON (c_termios t) = true → Forall (plain (c_termios t)) cs →
  (∀ k, (k < length cs)%nat → Z.of_nat (length (edit (c_termios t) (take k cs) line).1) < COM_IO_TTY_BUF_SZ) →
  Z.of_nat (length (edit (c_termios t) cs line).2) ≤ KRINGBUFFER_AVAIL_WRITE (slave_rb t) →
  ∃ t' w', com_io_tty_process_chars K fuel t cs b w = Ok (E0, Z.of_nat (length cs), t', w') ∧ tty_at t' (edit (c_termios t) cs line).1 ∧
    rb_contents (slave_rb t') = rb_contents (slave_rb t) ++ (edit (c_termios t) cs line).2.
Proof.
  intros Ht Hc Hp Hl Hr. destruct (editor_loop b cs t line w 0 Ht Hc Hp Hl Hr) as (t' & w' & Hrun & _ & Ht' & Hc'). exists t', w'. split; [|done].
  unfold com_io_tty_process_chars. rewrite Hrun. mstep. rewrite Z.add_0_l. by destruct (Z.of_nat (length cs) =? 0).
Qed.

(** One more character when the array is full. *)
Lemma full_line_faults t line c b w : tty_at t line → ICANON (c_termios t) = true → plain (c_termios t) c → VERASE (c_termios t) ≠ schar (map_cr (c_termios t) c) →
  Z.of_nat (length line) = COM_IO_TTY_BUF_SZ → com_io_tty_process_char K fuel t c b w = Fault.
Proof.
  intros Ht Hc Hp He Hlen. unfold com_io_tty_process_char. rewrite plain_no_signal by done. mstep. rewrite bool_decide_true by done. cbn [negb].
  assert ((c =? CR) && IGNCR (c_termios t) = false) as ->.
  { destruct (Z.eqb_spec c CR); [|done]. by rewrite (pl_cr _ _ Hp). }
  fold (map_cr (c_termios t) c). cbn zeta. rewrite Hc. cbn [negb]. set (c' := map_cr (c_termios t) c) in *.
  pose proof (pl_eof _ _ Hp) as Heof. pose proof (pl_kill _ _ Hp) as Hk. fold c' in Heof, Hk. unfold canon_char.
  destruct (Z.eqb_spec (VEOF (c_termios t)) (schar c')); [done|]. cbn [andb orb]. destruct (Z.eqb_spec (VERASE (c_termios t)) (schar c')); [done|]. mstep.
  destruct (Z.eqb_spec (VKILL (c_termios t)) (schar c')); [done|]. unfold finish. destruct Ht as [Hl Hi _ _ _ _].
  rewrite lookup_ge_None_2 by lia. done.
Qed.

Lemma edit_chars o cs line : Forall (λ c, VERASE o ≠ schar (map_cr o c) ∧ ends_line (map_cr o c) = false) cs → edit o cs line = (line ++ (map_cr o <$> cs), []).
Proof.
  intros H. revert line. induction H as [|c cs [He Hn] _ IH]; intros line; [cbn; by rewrite app_nil_r|]. rewrite edit_cons. cbn [edit1].
  destruct (Z.eqb_spec (VERASE o) (schar (map_cr o c))); [done|]. rewrite Hn. cbn [fst snd]. rewrite IH. cbn. by rewrite <- app_assoc.
Qed.

Lemma process_loop_app b cs ds t w i j t' w' : process_loop K fuel t cs i b w = Ok (E0, j, t', w') →
  process_loop K fuel t (cs ++ ds) i b w = process_loop K fuel t' ds j b w'.
Proof.
  revert t w i. induction cs as [|c cs IH]; intros t w i; cbn [process_loop app]; [by intros [= -> -> ->]|].
  destruct (com_io_tty_process_char K fuel t c b w) as [[[e t1] w1]| | |]; mstep; [|done..].
  destruct (bool_decide_reflect (e = E0)); cbn [negb]; [apply IH|by intros [= -> _ _ _]].
Qed.

(** The line has no bound: from an empty line, [COM_IO_TTY_BUF_SZ] ordinary
    characters without an end of line are stored, and the next one, whoever
    types or sends it, is written past the end of the array. *)
Theorem long_line_faults t cs c b w : tty_at t [] → ICANON (c_termios t) = true → Forall (plain (c_termios t)) (cs ++ [c]) →
  Forall (λ c, VERASE (c_termios t) ≠ schar (map_cr (c_termios t) c) ∧ ends_line (map_cr (c_termios t) c) = false) (cs ++ [c]) →
  Z.of_nat (length cs) = COM_IO_TTY_BUF_SZ → com_io_tty_process_chars K fuel t (cs ++ [c]) b w = Fault.
Proof.
  intros Ht Hc Hp He Hlen. apply Forall_app in Hp as [Hp Hpc], He as [He Hec]. rewrite Forall_singleton in Hpc. rewrite Forall_singleton in Hec.
  pose proof (edit_chars _ _ [] He) as Hed. cbn [app] in Hed.
  destruct (editor_loop b cs t [] w 0 Ht Hc Hp) as (t1 & w1 & Hrun & Htm & Ht1 & _).
  { intros k Hk. rewrite edit_chars by (apply Forall_take, He). cbn. rewrite length_fmap, length_take. lia. }
  { rewrite Hed. cbn. pose proof (avail_read_range _ (ta_rb _ _ Ht)). pose proof (avail_write_eq _ (ta_rb _ _ Ht)). lia. }
  rewrite Hed in Ht1. cbn [fst] in Ht1. unfold com_io_tty_process_chars. rewrite (process_loop_app b cs [c] t w 0 _ t1 w1 Hrun). cbn [process_loop].
  rewrite (full_line_faults t1 _ c b w1 Ht1); [done|congruence|by rewrite Htm|rewrite Htm; apply Hec|by rewrite length_fmap].
Qed.

(** End of file on an empty line wakes nobody: the mark is set on the ring
    and nothing else happens, since the write of an empty line that follows
    notifies no reader (and fails with [EAGAIN] when it may not block). A
    program asleep in [read] stays asleep. *)
Theorem eof_wakes_nobody t c b w : tty_at t [] → ICANON (c_termios t) = true → signal_char K t c b w = Ok (E0, false, None, w) → (c = CR → IGNCR (c_termios t) = false) →
  let c' := map_cr (c_termios t) c in VEOF (c_termios t) = schar c' → VERASE (c_termios t) ≠ schar c' → VKILL (c_termios t) ≠ schar c' →
  com_io_tty_process_char K fuel t c b w =
    Ok (if b then E0 else EAGAIN, with_canon (with_slave_rb t (with_eof (slave_rb t))) (canon_buffer t) 0, w).
Proof.
  intros Ht Hc Hs Hcr c' He Hr Hk. unfold com_io_tty_process_char. rewrite Hs. mstep. rewrite bool_decide_true by done. cbn [negb].
  assert ((c =? CR) && IGNCR (c_termios t) = false) as -> by (destruct (Z.eqb_spec c CR); [by rewrite Hcr|done]).
  fold (map_cr (c_termios t) c). cbn zeta. fold c'. rewrite Hc. cbn [negb]. unfold canon_char. destruct (Z.eqb_spec (VEOF (c_termios t)) (schar c')); [|done].
  destruct Ht as [Hl Hi Htk Hf Hwf Hsz]. rewrite Hi. cbn [andb orb length]. change (Z.of_nat 0 =? 0) with true. cbn [andb].
  destruct (Z.eqb_spec (VERASE (c_termios t)) (schar c')); [done|]. mstep. destruct (Z.eqb_spec (VKILL (c_termios t)) (schar c')); [done|].
  unfold finish. mstep. unfold line_end. cbn [canon_index canon_buffer slave_rb with_slave_rb]. rewrite Hi. change (take _ (canon_buffer t)) with (@nil Z).
  unfold ring_put, kringbuffer_write_nolock. cbn [rb_buffer_size with_eof length]. change KRINGBUFFER_NOATOMIC with 1.
  destruct (Z.eqb_spec (rb_buffer_size (slave_rb t)) 0); [lia|]. destruct (Z.ltb_spec 1 (rb_buffer_size (slave_rb t))); [|lia]. cbn [negb]. mstep.
  destruct b.
  - unfold write_blocking. destruct fuel; [lia|]. done.
  - unfold write_nonblocking. rewrite check_hangup_none by done. mstep. rewrite KMIN_min, Z.min_l; [done|].
    unfold KRINGBUFFER_AVAIL_WRITE, wrap. apply Z.mod_pos_bound. lia.
Qed.

(** In raw mode every character goes to the ring at once, those that make
    signals included. *)
Theorem raw_char t c b w sig h w1 : signal_char K t c b w = Ok (E0, h, sig, w1) → ICANON (c_termios t) = false → (c = CR → IGNCR (c_termios t) = false) →
  rb_wf (slave_rb t) → 1 < rb_buffer_size (slave_rb t) → 1 ≤ KRINGBUFFER_AVAIL_WRITE (slave_rb t) →
  ∃ rb w2, com_io_tty_process_char K fuel t c b w = sighandler K (with_slave_rb t rb) sig E0 w2 ∧ rb_wf rb ∧ rb_contents rb = rb_contents (slave_rb t) ++ [map_cr (c_termios t) c].
Proof.
  intros Hs Hc Hcr Hwf Hsz Hav. unfold com_io_tty_process_char. rewrite Hs. mstep. rewrite bool_decide_true by done. cbn [negb].
  assert ((c =? CR) && IGNCR (c_termios t) = false) as -> by (destruct (Z.eqb_spec c CR); [by rewrite Hcr|done]).
  fold (map_cr (c_termios t) c). cbn zeta. rewrite Hc. cbn [negb].
  destruct (ring_put_ok (tk_ring K) fuel (slave_rb t) [map_cr (c_termios t) c] false w1) as (rb & -> & Hwf' & Hc' & _); [by apply no_hangup_none|done|done|cbn; lia|done|].
  mstep. unfold finish. mstep. by eexists _, _.
Qed.
End editing.

(** ** Modes *)

(** Asking for text mode makes the next key press panic: the type is set to
    that of a graphical terminal, and the handler of keys asserts the other. *)
Theorem setmode_text_panics {W} (X : textkern W) fuel s p w e out s' p' w' mod_ pkt :
  tty_ioctl X s p (KTTY_IOCTL_SETMODE KTTY_MODE_TEXT) w = Ok (e, out, s', p', w') → com_io_tty_kbd_in X fuel s' mod_ pkt w' = Panic.
Proof. unfold tty_ioctl. destruct (xk_ctl X (term s) true w); mstep; [|done..]. by intros [= <- <- <- <- <-]. Qed.

(** ** A terminal for the examples *)
Record demo_w : Type := DW { d_out : list Z; d_sent : list (Z * tty_signal); d_wakes : nat }.
Definition demo_term : Z := 5 * 2 ^ 32 + 7.
Definition on_term (tm : Z) (w : demo_w) : res demo_w := if tm =? demo_term then Ok w else Fault.
Definition demo_ring : rbkern demo_w := mkRk None (λ _ _ _, None) (λ _ w, DW (d_out w) (d_sent w) (S (d_wakes w))) None (λ _, false).
Definition demo_X : textkern demo_w := {|
  xk_ring := demo_ring;
  xk_putsn tm bs w := on_term tm (DW (d_out w ++ bs) (d_sent w) (d_wakes w));
  xk_ctl tm b w := on_term tm w;
  xk_signal g s w := Ok (DW (d_out w) (d_sent w ++ [(g, s)]) (d_wakes w));
  xk_packet pkt w := Ok w |}.
Definition demo_termios : termios := Termios false true false true true true true true true true 3 28 26 4 127 21.
Definition demo_tty : com_tty := (com_io_tty_init_text demo_termios (replicate (Z.to_nat KRINGBUFFER_SIZE) 0) (inr 50) demo_term 25 80).2.
Definition demo_w0 : demo_w := DW [] [] 0.

(** Keys pressed one after the other, by the code and the character the
    keyboard's layout gives. *)
Fixpoint press (s : com_tty) (mod_ : Z) (ks : list (Z * Z)) (w : demo_w) : res (com_tty * Z * demo_w) :=
  match ks with
  | [] => Ok (s, mod_, w)
  | (k, c) :: ks => '(s, mod_, w) ← com_io_tty_kbd_in demo_X 2 s mod_ (KbdPacket k false c) w; press s mod_ ks w
  end.
Definition key (c : Z) : Z * Z := (30, c).
Definition in_ring (s : com_tty) : list Z := rb_contents (slave_rb (backend s)).
Definition cur_line (s : com_tty) : list Z := take (Z.to_nat (canon_index (backend s))) (canon_buffer (backend s)).

(** Left control and [c] interrupt the foreground group; right control and [c]
    are an ordinary [c]. *)
Theorem ctrl_c_left_only :
  (∃ s m w, press demo_tty 0 [(29, 0); key 99] demo_w0 = Ok (s, m, w) ∧ d_sent w = [(0, SIGINT)] ∧ cur_line s = []) ∧
  (∃ s m w, press demo_tty 0 [(97, 0); key 99] demo_w0 = Ok (s, m, w) ∧ d_sent w = [] ∧ cur_line s = [99]).
Proof.
  split; eexists _, _, _; (split; [vm_compute; reflexivity|]); (split; [vm_compute; reflexivity|vm_compute; reflexivity]).
Qed.

(** The key for backspace types the escape sequence of the key for delete
    first, of which it then erases the last character. *)
Theorem backspace_types_delete :
  ∃ s m w, press demo_tty 0 [key 97; (14, 8)] demo_w0 = Ok (s, m, w) ∧ cur_line s = [97; 27; 91; 51].
Proof. eexists _, _, _. split; [vm_compute; reflexivity|vm_compute; reflexivity]. Qed.

(** Killing the line looks for a newline where the next character will go, and
    finds the one an earlier line of the same length left there. *)
Theorem kill_stops_at_stale_newline :
  ∃ s m w, press demo_tty 0 [key 97; key 13; key 98; key 21] demo_w0 = Ok (s, m, w) ∧ cur_line s = [98] ∧ in_ring s = [97; 10].
Proof. eexists _, _, _. split; [vm_compute; reflexivity|]. split; [vm_compute; reflexivity|vm_compute; reflexivity]. Qed.

(** End of file overtakes the lines typed before it. *)
Theorem eof_overtakes_line :
  ∃ s m w, press demo_tty 0 [key 97; key 13; key 4] demo_w0 = Ok (s, m, w) ∧
    ∃ s' mem', tty_read demo_X 2 (λ _, 0) 100 10 s false w = Ok (E0, Some 0, mem', s', w) ∧ in_ring s' = [97; 10].
Proof. eexists _, _, _. split; [vm_compute; reflexivity|]. eexists _, _. split; [vm_compute; reflexivity|vm_compute; reflexivity]. Qed.

(** A write reports only what follows its last newline as written, unless it
    ends there, although all of it is on the screen. *)
Theorem write_count_after_newline :
  ∃ w, tty_write demo_X demo_tty [97; 10; 98] demo_w0 = Ok (E0, 1, w) ∧ d_out w = [97; 13; 10; 98].
Proof. eexists. split; [vm_compute; reflexivity|vm_compute; reflexivity]. Qed.

(** In raw mode, interrupting also types the character. *)
Definition raw_termios : termios := Termios false true false true true true false true true true 3 28 26 4 127 21.
Theorem raw_interrupt_is_typed :
  ∃ t w, com_io_tty_process_char (text_kern demo_X demo_tty) 2 (with_termios (backend demo_tty) raw_termios) 3 false demo_w0 = Ok (E0, t, w) ∧
    d_sent w = [(0, SIGINT)] ∧ rb_contents (slave_rb t) = [3].
Proof. eexists _, _. split; [vm_compute; reflexivity|]. split; [vm_compute; reflexivity|vm_compute; reflexivity]. Qed.

(** Leaving graphics mode follows a pointer that entering it has overwritten
    with the number of the foreground group. *)
Theorem graphics_then_text_faults :
  ∃ out s p w, tty_ioctl demo_X demo_tty (PV None) (KTTY_IOCTL_SETMODE KTTY_MODE_GRAPHICS) demo_w0 = Ok (E0, out, s, p, w) ∧
    tty_ioctl demo_X s p (KTTY_IOCTL_SETMODE KTTY_MODE_TEXT) w = Fault.
Proof. eexists _, _, _, _. split; [vm_compute; reflexivity|vm_compute; reflexivity]. Qed.

(** ** Witnesses *)
Lemma init_at dflt array r c : Z.of_nat (length array) = KRINGBUFFER_SIZE → tty_at (com_io_tty_init_text_backend dflt array r c) [].
Proof.
  intros Ha. constructor; try (done || (vm_compute; done)). split; [by exists 10|]. split; [exact Ha|]. split_and!; (done || (vm_compute; done)).
Qed.

Lemma demo_backend_at : tty_at (backend demo_tty) [].
Proof. by apply init_at. Qed.

Lemma demo_echo_total : echo_total (text_kern demo_X demo_tty).
Proof. intros bs b w. by eexists _, _. Qed.

Lemma demo_plain c : 32 ≤ c < 127 ∨ c = 127 ∨ c = 10 → plain demo_termios c.
Proof.
  intros H. assert (schar c = c) by (unfold schar; rewrite Z.mod_small by lia; lia).
  assert (map_cr demo_termios c = c) as Hm by (unfold map_cr; cbn; destruct (Z.eqb_spec c CR); cbn; unfold CR in *; [lia|by rewrite andb_false_r]).
  constructor; rewrite ?Hm; cbn [demo_termios ISIG VINTR VQUIT VSUSP IGNCR VEOF VKILL VERASE]; try done; try lia.
  intros He. unfold ends_line, NL, CR. destruct (Z.eqb_spec c 10), (Z.eqb_spec c 13); (lia || done).
Qed.

(** "ab", erase, "c", newline, "d". *)
Lemma canon_implements_editor_witness :
  ∃ t w, com_io_tty_process_chars (text_kern demo_X demo_tty) 2 (backend demo_tty) [97; 98; 127; 99; 10; 100] false demo_w0 = Ok (E0, 6, t, w) ∧
    tty_at t [100] ∧ rb_contents (slave_rb t) = [97; 99; 10].
Proof.
  apply (canon_implements_editor (text_kern demo_X demo_tty) 2 demo_echo_total eq_refl ltac:(lia) (backend demo_tty) [] [97; 98; 127; 99; 10; 100] false demo_w0 demo_backend_at eq_refl).
  - repeat (apply Forall_cons; split; [apply demo_plain; lia|]). by apply Forall_nil.
  - intros k Hk. do 6 (destruct k as [|k]; [vm_compute; reflexivity|]). cbn in Hk. lia.
  - vm_compute. discriminate.
Defined.

Lemma long_line_faults_witness : com_io_tty_process_chars (text_kern demo_X demo_tty) 2 (backend demo_tty) (replicate 1024 97 ++ [97]) false demo_w0 = Fault.
Proof.
  apply (long_line_faults (text_kern demo_X demo_tty) 2 demo_echo_total eq_refl ltac:(lia) (backend demo_tty) (replicate 1024 97) 97 false demo_w0 demo_backend_at eq_refl).
  - change (replicate 1024 97 ++ [97]) with (replicate 1025 97). apply Forall_replicate, demo_plain. lia.
  - change (replicate 1024 97 ++ [97]) with (replicate 1025 97). apply Forall_replicate. split; [vm_compute; discriminate|done].
  - by rewrite length_replicate.
Defined.

Lemma eof_wakes_nobody_witness : com_io_tty_process_char (text_kern demo_X demo_tty) 2 (backend demo_tty) 4 true demo_w0 =
  Ok (E0, with_canon (with_slave_rb (backend demo_tty) (with_eof (slave_rb (backend demo_tty)))) (canon_buffer (backend demo_tty)) 0, demo_w0).
Proof.
  exact (eof_wakes_nobody (text_kern demo_X demo_tty) 2 eq_refl ltac:(lia) (backend demo_tty) 4 true demo_w0 demo_backend_at eq_refl eq_refl ltac:(done) eq_refl ltac:(vm_compute; discriminate) ltac:(vm_compute; discriminate)).
Defined.

Lemma demo_echo_appends b : echo_appends (text_kern demo_X demo_tty) b (λ _, True) d_out (λ _, 1000).
Proof. intros bs w _ _. eexists. split; [done|]. split; [done|]. split; [lia|done]. Qed.

Lemma echo_crlf_witness : ∃ w, com_io_tty_text_backend_echo (text_kern demo_X demo_tty) (backend demo_tty) [97; 10] true demo_w0 = Ok (E0, 2, w) ∧ d_out w = [97; 13; 10] ∧ True.
Proof. exact (echo_crlf (text_kern demo_X demo_tty) true (λ _, True) d_out (λ _, 1000) (backend demo_tty) [97; 10] demo_w0 (demo_echo_appends true) I ltac:(done) ltac:(vm_compute; discriminate)). Defined.
