(* ===== verification/Pty.v ===== *)
(** * Pseudo-terminals, src/com/io/pty.c

    A pseudo-terminal is a line discipline ([Tty]) whose output goes to a
    second ring, that of the master. The world of the line discipline holds
    that ring, the number of open slaves and whether the master is open; a
    call that sleeps finds what [wait] says. *)
From S2P Require Import Prelude Mem Ringbuffer Tty.

(** Which ring, as seen by those who sleep at it. *)
Inductive side : Type := Master | Slave.
Inductive pty_event : Type := PtyRing (s : side) (op : rbop) | PtyPollers (s : side) | PtySignal (pgid : Z) (sig : tty_signal).

Record ptyw : Type := PtyW {
  master_rb : kringbuffer;
  num_slaves : Z;
  master_vn : option Z;
  pty_log : list pty_event
}.

Definition set_master (w : ptyw) (rb : kringbuffer) : ptyw := PtyW rb (num_slaves w) (master_vn w) (pty_log w).
Definition pty_note (w : ptyw) (e : pty_event) : ptyw := PtyW (master_rb w) (num_slaves w) (master_vn w) (pty_log w ++ [e]).
Definition set_slaves (w : ptyw) (n : Z) : ptyw := PtyW (master_rb w) n (master_vn w) (pty_log w).

Section pty.
Context (fuel : nat) (wait : side → rbop → kringbuffer → ptyw → option (kringbuffer * ptyw)) (signal : ptyw → bool).

Definition pty_rb_check_hangup (op : rbop) (curr : Z) (rb : kringbuffer) (w : ptyw) : res (hup * ptyw) :=
  Ok (match op with
      | KRINGBUFFER_OP_WRITE => if num_slaves w =? 0 then mkHup EIO false (Some 0) else mkHup E0 false None
      | KRINGBUFFER_OP_READ =>
          if num_slaves w =? 0 then mkHup EIO false (Some 0)
          else if bool_decide (master_vn w = None) then mkHup E0 true (Some 0) else mkHup E0 false None
      end, w).

Definition pty_ring (s : side) : rbkern ptyw :=
  mkRk (Some pty_rb_check_hangup) (wait s) (λ op w, pty_note w (PtyRing s op)) (Some (λ w, pty_note w (PtyPollers s))) signal.

Definition pty_echo (bs : list Z) (blocking : bool) (w : ptyw) : res (errno * Z * ptyw) :=
  '(e, n, rb, w) ← ring_put fuel (pty_ring Master) (master_rb w) bs blocking w; Ok (e, n, set_master w rb).

Definition pty_kern : ttykern ptyw := Tk (pty_ring Slave) pty_echo (λ g s w, Ok (pty_note w (PtySignal g s))).

(** A pseudo-terminal: its number, the line discipline and the rest. *)
Record com_pty : Type := Pty { pts_num : Z; pty_backend : com_text_tty_backend; pty_rest : ptyw }.
Definition set_rest (p : com_pty) (w : ptyw) : com_pty := Pty (pts_num p) (pty_backend p) w.
Definition set_line (p : com_pty) (b : com_text_tty_backend) : com_pty := Pty (pts_num p) b (pty_rest p).

(** [num] is the next number, [sl] and [ma] what the arrays of the rings
    hold. *)
Definition pty_alloc (dflt : termios) (num : Z) (sl ma : list Z) : com_pty :=
  Pty num (com_io_tty_init_text_backend dflt sl 80 25) (PtyW (KRINGBUFFER_INIT ma) 0 None []).

(** [reg_slave] and [reg_master] are what the registrations of the devices
    give. Returns the error, the vnode opened and the structure. *)
Definition ptmx_open (dflt : termios) (num : Z) (sl ma : list Z) (reg_slave reg_master : errno + Z) : errno * option Z * com_pty :=
  let p := pty_alloc dflt num sl ma in
  match reg_slave, reg_master with
  | inl e, _ => (e, None, p)
  | inr _, inl e => (e, None, p)
  | inr _, inr vn => (E0, Some vn, set_rest p (PtyW (master_rb (pty_rest p)) (num_slaves (pty_rest p)) (Some vn) (pty_log (pty_rest p))))
  end.

(** ** The master *)
Definition ptm_read (p : com_pty) (m : mem) (buf buflen : Z) (nonblock : bool) : res (errno * option Z * mem * com_pty) :=
  '(e, n, m, rb, w) ← kringbuffer_read_nolock (pty_ring Master) fuel m buf (master_rb (pty_rest p)) (pty_rest p) buflen KRINGBUFFER_NOATOMIC (negb nonblock);
  Ok (e, n, m, set_rest p (set_master w rb)).

Definition ptm_write (p : com_pty) (bs : list Z) : res (errno * Z * com_pty) :=
  '(e, n, b, w) ← com_io_tty_process_chars pty_kern fuel (pty_backend p) bs true (pty_rest p);
  Ok (e, n, set_rest (set_line p b) w).

Inductive ptm_op : Type := TIOCSPTLCK | TIOCGPTN | TIOCSWINSZ (rows cols : Z) | PTM_TIOCGWINSZ | PTM_TCGETS | PTM_OTHER.
Inductive ptm_out : Type := PoNone | PoNum (n : Z) | PoWinsize (rows cols : Z) | PoTermios (o : termios).

Definition ptm_ioctl (p : com_pty) (op : ptm_op) : errno * ptm_out * com_pty :=
  let b := pty_backend p in
  match op with
  | TIOCSPTLCK => (E0, PoNone, p)
  | TIOCGPTN => (E0, PoNum (pts_num p), p)
  | TIOCSWINSZ r c => (E0, PoNone, set_line p (Backend r c (c_termios b) (fg_pgid b) (slave_rb b) (canon_buffer b) (canon_index b)))
  | PTM_TIOCGWINSZ => (E0, PoWinsize (rows b) (cols b), p)
  | PTM_TCGETS => (E0, PoTermios (c_termios b), p)
  | PTM_OTHER => (ENOSYS, PoNone, p)
  end.

Definition ptm_close (p : com_pty) : com_pty :=
  let w := pty_rest p in set_rest p (PtyW (master_rb w) (num_slaves w) None (pty_log w)).

(** [POLLHUP], [POLLIN] and [POLLOUT]. *)
Definition ptm_poll (p : com_pty) : bool * bool * bool :=
  let w := pty_rest p in
  (num_slaves w =? 0, negb (rb_write_index (master_rb w) =? rb_read_index (master_rb w)), 0 <? KRINGBUFFER_AVAIL_WRITE (master_rb w)).

(** ** The slaves, [vn] the vnode of the one used *)
Definition pts_read (p : com_pty) (m : mem) (buf buflen : Z) (nonblock : bool) : res (errno * option Z * mem * com_pty) :=
  '(e, n, m, rb, w) ← kringbuffer_read_nolock (pty_ring Slave) fuel m buf (slave_rb (pty_backend p)) (pty_rest p) buflen KRINGBUFFER_NOATOMIC (negb nonblock);
  Ok (e, n, m, set_rest (set_line p (with_slave_rb (pty_backend p) rb)) w).

Definition pts_write (p : com_pty) (bs : list Z) : res (errno * Z * com_pty) :=
  '(e, n, w) ← com_io_tty_text_backend_echo pty_kern (pty_backend p) bs true (pty_rest p); Ok (e, n, set_rest p w).

Definition pts_ioctl (p : com_pty) (vn : Z) (pv : procview) (op : backend_op) : errno * backend_out * com_pty * procview :=
  let '(e, out, b, pv) := com_io_tty_text_backend_ioctl (pty_backend p) vn pv op in (e, out, set_line p b, pv).

(** [reg] is the registration of the new vnode. *)
Definition pts_open (p : com_pty) (reg : errno + Z) : res (Z * com_pty) :=
  let w := set_slaves (pty_rest p) (u64 (num_slaves (pty_rest p) + 1)) in
  match reg with inl _ => Panic | inr vn => Ok (vn, set_rest p w) end.

Definition pts_close (p : com_pty) : com_pty :=
  let w := set_slaves (pty_rest p) (u64 (num_slaves (pty_rest p) - 1)) in
  set_rest p (if num_slaves w =? 0
              then pty_note (pty_note (pty_note w (PtyRing Master KRINGBUFFER_OP_READ)) (PtyRing Master KRINGBUFFER_OP_WRITE)) (PtyPollers Master)
              else w).

(** [POLLIN] and [POLLOUT]. *)
Definition pts_poll (p : com_pty) : bool * bool :=
  let rb := slave_rb (pty_backend p) in (negb (rb_write_index rb =? rb_read_index rb), 0 <? KRINGBUFFER_AVAIL_WRITE rb).
End pty.

(** ** Lemmas *)
Section lemmas.
Context (fuel : nat) (wait : side → rbop → kringbuffer → ptyw → option (kringbuffer * ptyw)) (signal : ptyw → bool) (Hfuel : (1 < fuel)%nat).

(** A slave is open, and the master's vnode is [v]. *)
Definition pty_inv (v : option Z) (w : ptyw) : Prop :=
  rb_wf (master_rb w) ∧ 1 < rb_buffer_size (master_rb w) < 2 ^ 63 ∧ rb_is_eof (master_rb w) = false ∧ num_slaves w ≠ 0 ∧ master_vn w = v.

Lemma pty_no_hangup s rb w : num_slaves w ≠ 0 → no_hangup (pty_ring wait signal s) rb w.
Proof. intros Hn k. unfold check_hangup. cbn [pty_ring rk_hangup]. unfold pty_rb_check_hangup. mstep. by rewrite (proj2 (Z.eqb_neq _ _) Hn). Qed.

Lemma pty_read_hangup s k rb w : num_slaves w ≠ 0 → master_vn w ≠ None → check_hangup (pty_ring wait signal s) k k KRINGBUFFER_OP_READ rb w = Ok (None, k, w).
Proof.
  intros Hn Hm. unfold check_hangup. cbn [pty_ring rk_hangup]. unfold pty_rb_check_hangup. mstep. rewrite (proj2 (Z.eqb_neq _ _) Hn). by rewrite (bool_decide_eq_false_2 (master_vn w = None) Hm).
Qed.

Lemma pty_echo_appends v : echo_appends (pty_kern fuel wait signal) true (pty_inv v) (λ w, rb_contents (master_rb w)) (λ w, KRINGBUFFER_AVAIL_WRITE (master_rb w)).
Proof.
  intros bs w (Hwf & Hs & He & Hn & Hv) Hl. cbn [tk_echo pty_kern]. unfold pty_echo. destruct bs as [|c bs].
  - exists w. unfold ring_put, kringbuffer_write_nolock, write_blocking. destruct (Z.eqb_spec (rb_buffer_size (master_rb w)) 0); [lia|].
    change KRINGBUFFER_NOATOMIC with 1. destruct (Z.ltb_spec 1 (rb_buffer_size (master_rb w))); [|lia]. cbn [negb]. mstep.
    destruct fuel; [lia|]. cbn [write_blocking_loop length]. mstep. unfold set_master. destruct w. cbn in *. rewrite app_nil_r. split; [done|]. split; [done|]. split; [lia|]. done.
  - destruct (ring_put_ok (pty_ring wait signal Master) fuel (master_rb w) (c :: bs) true w (pty_no_hangup _ _ _ Hn) Hwf (proj1 Hs)) as (rb & -> & Hwf' & Hc & Hs' & He'); [cbn in *; lia|done|].
    mstep. eexists. split; [done|]. cbn [set_master master_rb num_slaves run_callback pty_ring rk_callback rk_notify pty_note]. split; [done|].
    split; [|split; [done|split; [by cbn; rewrite Hs'|split; [by cbn; rewrite He'|done]]]].
    rewrite !avail_write_eq by done. pose proof (length_rb_contents (master_rb w)). pose proof (length_rb_contents rb) as H1. rewrite Hc, length_app in H1. lia.
Qed.

(** What a program writes to its side of a pseudo-terminal is what the
    master then reads, with newlines turned into carriage return and line
    feed as its settings say: from an empty ring with room for the text, write
    and read both return without sleeping and the text is in the master's
    buffer. *)
Theorem pty_output_roundtrip p m buf bs v nonblock : pty_inv (Some v) (pty_rest p) → rb_contents (master_rb (pty_rest p)) = [] → bs ≠ [] →
  let o := c_termios (pty_backend p) in
  let text := if OPOST o || ONLCR o then crlf bs else bs in
  Z.of_nat (length text) ≤ KRINGBUFFER_AVAIL_WRITE (master_rb (pty_rest p)) →
  ∃ n p1 m' p2, pts_write fuel wait signal p bs = Ok (E0, n, p1) ∧
    ptm_read fuel wait signal p1 m buf (Z.of_nat (length text)) nonblock = Ok (E0, Some (Z.of_nat (length text)), m', p2) ∧ rd_bytes m' buf (length text) = text.
Proof.
  intros Hi Hemp Hne o text Hr. pose proof Hi as (Hwf & Hs & _). pose proof (avail_read_range _ Hwf). pose proof (avail_write_eq _ Hwf). pose proof (rb_size_range _ Hwf).
  assert (Hlt : (length bs ≤ length text)%nat) by (unfold text; destruct (_ || _); [apply length_crlf|done]).
  destruct (echo_crlf_ok (pty_kern fuel wait signal) true (pty_inv (Some v)) _ _ (pty_backend p) bs (pty_rest p) (pty_echo_appends (Some v)) Hi ltac:(lia) Hr) as (w' & Hw & Hc & Hi').
  fold o text in Hw, Hc. rewrite Hemp in Hc. cbn [app] in Hc. destruct Hi' as (Hwf' & Hs' & He' & Hn' & Hv').
  enough (∃ m' p2, ptm_read fuel wait signal (set_rest p w') m buf (Z.of_nat (length text)) nonblock = Ok (E0, Some (Z.of_nat (length text)), m', p2) ∧ rd_bytes m' buf (length text) = text) as (m' & p2 & H3).
  { eexists _, _, m', p2. split; [unfold pts_write; by rewrite Hw|exact H3]. }
  unfold ptm_read. cbn [set_rest pty_rest]. unfold kringbuffer_read_nolock.
  rewrite pty_read_hangup by (done || by rewrite Hv'). mstep. change KRINGBUFFER_NOATOMIC with 1. destruct (Z.ltb_spec 1 (rb_buffer_size (master_rb w'))); [|lia]. mstep.
  pose proof (length_rb_contents (master_rb w')) as Hl. rewrite Hc in Hl. assert (0 < length bs)%nat by (destruct bs; [done|cbn; lia]).
  destruct fuel as [|f] eqn:Ef; [lia|]. cbn [read_wait]. destruct (Z.ltb_spec (KRINGBUFFER_AVAIL_READ (master_rb w')) 1); [lia|]. cbn [andb]. mstep.
  destruct (read_chunk_spec (pty_ring wait signal Master) m buf (master_rb w') w' (Z.of_nat (length text)) Hwf' He' ltac:(lia)) as (rb & -> & _). mstep.
  eexists _, _. rewrite Hc, <- Hl, Z.min_id, Nat2Z.id, firstn_all. split; [done|]. apply rd_wr_bytes.
Qed.
End lemmas.

Section faults.
Context (fuel : nat) (wait : side → rbop → kringbuffer → ptyw → option (kringbuffer * ptyw)) (signal : ptyw → bool).

(** While a writer sleeps at the master's ring, nobody reads from it, no slave
    is closed and no signal comes. *)
Definition nobody_reads : Prop := ∀ rb w rb' w', wait Master KRINGBUFFER_OP_WRITE rb w = Some (rb', w') → rb' = rb ∧ num_slaves w' = num_slaves w ∧ signal w' = false.

Lemma full_ring_waits n rb w k bw : nobody_reads → KRINGBUFFER_AVAIL_WRITE rb = 0 → num_slaves w ≠ 0 → write_wait (pty_ring wait signal Master) n rb w k bw 1 = Fuel.
Proof.
  intros Hw Ha. revert w. induction n as [|n IH]; intros w Hn; [done|]. cbn [write_wait]. rewrite Ha. cbn [Z.ltb Z.compare pty_ring rk_wait rk_signal].
  destruct (wait Master KRINGBUFFER_OP_WRITE rb w) as [[rb' w']|] eqn:E; [|done]. destruct (Hw _ _ _ _ E) as (-> & Hn' & ->).
  fold (pty_ring wait signal Master). rewrite (pty_no_hangup wait signal Master rb w') by congruence. mstep. apply IH. congruence.
Qed.

Lemma full_ring_put rb w bs : nobody_reads → KRINGBUFFER_AVAIL_WRITE rb = 0 → num_slaves w ≠ 0 → 1 < rb_buffer_size rb → bs ≠ [] →
  ring_put fuel (pty_ring wait signal Master) rb bs true w = Fuel.
Proof.
  intros Hw Ha Hn Hs Hb. unfold ring_put, kringbuffer_write_nolock, write_blocking. destruct (Z.eqb_spec (rb_buffer_size rb) 0); [lia|].
  change KRINGBUFFER_NOATOMIC with 1. destruct (Z.ltb_spec 1 (rb_buffer_size rb)); [|lia]. cbn [negb]. mstep.
  destruct fuel as [|f]; [done|]. cbn [write_blocking_loop]. destruct (Z.ltb_spec 0 (Z.of_nat (length bs))); [|destruct bs; [done|cbn in *; lia]].
  rewrite (pty_no_hangup wait signal Master rb w Hn). mstep. by rewrite (full_ring_waits (S f)).
Qed.

(** The master can block on itself: when its ring is full, writing an
    ordinary character to a pseudo-terminal that echoes never returns, unless
    another thread reads from the master. The one program that would read is
    the one that is writing. *)
Theorem master_write_blocks_on_echo p line c : tty_at (pty_backend p) line → Z.of_nat (length line) < COM_IO_TTY_BUF_SZ →
  let o := c_termios (pty_backend p) in
  ICANON o = true → ECHO o = true → plain o c → VERASE o ≠ schar (map_cr o c) → ends_line (map_cr o c) = false →
  nobody_reads → KRINGBUFFER_AVAIL_WRITE (master_rb (pty_rest p)) = 0 → num_slaves (pty_rest p) ≠ 0 → 1 < rb_buffer_size (master_rb (pty_rest p)) →
  ptm_write fuel wait signal p [c] = Fuel.
Proof.
  intros Ht Hlt o Hc He Hp Hve Hend Hw Ha Hn Hs. unfold ptm_write, com_io_tty_process_chars. cbn [process_loop]. unfold com_io_tty_process_char.
  rewrite plain_no_signal by done. mstep. rewrite bool_decide_true by done. cbn [negb]. fold o.
  assert ((c =? CR) && IGNCR o = false) as -> by (destruct (Z.eqb_spec c CR); [by rewrite (pl_cr _ _ Hp)|done]).
  fold (map_cr o c). cbn zeta. set (c' := map_cr o c) in *. rewrite Hc. cbn [negb]. unfold canon_char. fold o.
  destruct (Z.eqb_spec (VEOF o) (schar c')); [by destruct (pl_eof _ _ Hp)|]. cbn [andb orb].
  destruct (Z.eqb_spec (VERASE o) (schar c')); [done|]. mstep. destruct (Z.eqb_spec (VKILL o) (schar c')); [by destruct (pl_kill _ _ Hp)|].
  destruct (insert_char (pty_backend p) line c' Ht Hlt) as [Hb _]. unfold finish. destruct (canon_buffer (pty_backend p) !! _); [|done]. mstep.
  cbn [c_termios with_canon]. fold o. rewrite He. unfold com_io_tty_text_backend_echo. cbn [c_termios with_canon]. fold o.
  assert (Hnl : c' =? NL = false) by (unfold ends_line in Hend; by destruct (c' =? NL)).
  cbn [echo_loop length split_nl tk_echo pty_kern]. unfold pty_echo. rewrite bool_decide_false by done. rewrite Hnl. cbn [mbind option_bind].
  rewrite (full_ring_put _ _ [c']) by done. by destruct (OPOST o || ONLCR o).
Qed.

(** Nothing can be exchanged before a program has opened the slave: the
    master's reads and writes fail with [EIO], as if it had been closed. *)
Theorem master_before_slave p m buf n nonblock : num_slaves (pty_rest p) = 0 →
  ∃ m' p', ptm_read fuel wait signal p m buf n nonblock = Ok (EIO, None, m', p').
Proof.
  intros Hn. unfold ptm_read, kringbuffer_read_nolock, check_hangup. cbn [pty_ring rk_hangup]. unfold pty_rb_check_hangup. mstep. rewrite Hn. cbn. by eexists _, _.
Qed.

(** A read from a slave whose master was closed returns without an error and
    without storing a count. *)
Theorem slave_read_after_master_close p m buf n nonblock : num_slaves (pty_rest p) ≠ 0 →
  ∃ p', pts_read fuel wait signal (ptm_close p) m buf n nonblock = Ok (E0, None, m, p').
Proof.
  intros Hn. unfold pts_read, kringbuffer_read_nolock, check_hangup. cbn [pty_ring rk_hangup]. unfold pty_rb_check_hangup. mstep. cbn [ptm_close pty_rest set_rest num_slaves master_vn].
  rewrite (proj2 (Z.eqb_neq _ _) Hn). rewrite (bool_decide_eq_true_2 (@None Z = None)) by done. cbn. by eexists.
Qed.

(** A new pseudo-terminal has 80 rows and 25 columns. *)
Theorem new_pty_size dflt num sl ma rs rm e vn p : ptmx_open dflt num sl ma rs rm = (e, vn, p) → ptm_ioctl p PTM_TIOCGWINSZ = (E0, PoWinsize 80 25, p).
Proof. unfold ptmx_open. by destruct rs, rm; intros [= <- <- <-]. Qed.
End faults.

(** ** Witnesses *)
Definition no_wait (s : side) (op : rbop) (rb : kringbuffer) (w : ptyw) : option (kringbuffer * ptyw) := None.
Definition idle (s : side) (op : rbop) (rb : kringbuffer) (w : ptyw) : option (kringbuffer * ptyw) := Some (rb, w).
Definition demo_new : com_pty := (ptmx_open demo_termios 0 (replicate (Z.to_nat KRINGBUFFER_SIZE) 0) (replicate (Z.to_nat KRINGBUFFER_SIZE) 0) (inr 6) (inr 7)).2.
Definition demo_pty : com_pty := match pts_open demo_new (inr 8) with Ok (_, p) => p | _ => demo_new end.

Lemma demo_pty_inv : pty_inv (Some 7) (pty_rest demo_pty).
Proof. split; [split; [by exists 10|]; split_and!; (done || (vm_compute; done))|done]. Qed.

Lemma pty_output_roundtrip_witness : ∃ n p1 m' p2, pts_write 2 no_wait (λ _, false) demo_pty [97; 10] = Ok (E0, n, p1) ∧
  ptm_read 2 no_wait (λ _, false) p1 (λ _, 0) 100 3 false = Ok (E0, Some 3, m', p2) ∧ rd_bytes m' 100 3 = [97; 13; 10].
Proof.
  exact (pty_output_roundtrip 2 no_wait (λ _, false) ltac:(lia) demo_pty (λ _, 0) 100 [97; 10] 7 false demo_pty_inv ltac:(vm_compute; reflexivity) ltac:(done) ltac:(vm_compute; discriminate)).
Defined.

(** The same with the master's ring full. *)
Definition demo_full : com_pty := set_rest demo_pty (PtyW (mkRb (replicate 1024 0) 1024 1024 0 false) 1 (Some 7) []).
Lemma master_write_blocks_on_echo_witness : ptm_write 100 idle (λ _, false) demo_full [97] = Fuel.
Proof.
  apply (master_write_blocks_on_echo 100 idle (λ _, false) demo_full [] 97); try done.
  - by apply init_at.
  - intros rb w rb' w' [= <- <-]. done.
Defined.
