(* ===== verification/Input.v ===== *)
(** * Keyboards, mice and the console: src/com/io/keyboard/keyboard.c,
    keyboard/layout/en_us.c, mouse.c and console.c

    Devices put packets of 24 bytes into a ring ([Ringbuffer]), where programs
    read them. A mouse whose ring is full adds up the packets it cannot store.
    The console hands keys and mouse packets to the terminal ([Tty]) in the
    foreground. *)
From S2P Require Import Prelude Mem Ringbuffer Tty.

(** ** Packets as they lie in memory *)

Definition PACKET_SIZE : Z := 24.

(** [kbd] is the address of the keyboard; seven bytes of padding follow the
    character. *)
Definition kbd_bytes (kbd : Z) (p : com_kbd_packet) : list Z :=
  le_bytes 8 kbd ++ le_bytes 4 (keycode p) ++ le_bytes 4 (if released p then 2 else 1) ++ [kc p] ++ replicate 7 0.

Record com_mouse_packet : Type := MousePacket { mp_mouse : Z; buttons : Z; dx : Z; dy : Z; dz : Z }.
Definition mouse_bytes (p : com_mouse_packet) : list Z := le_bytes 8 (mp_mouse p) ++ le_bytes 4 (buttons p) ++ le_bytes 4 (dx p) ++ le_bytes 4 (dy p) ++ le_bytes 4 (dz p).

Section input.
Context {W : Type} (R : rbkern W) (fuel : nat).

(** A write of one packet into a ring, all of it or nothing. *)
Definition packet_put (rb : kringbuffer) (bs : list Z) (w : W) : res (errno * Z * kringbuffer * W) :=
  kringbuffer_write_nolock R fuel (wr_bytes (λ _, 0) 0 bs) rb w 0 PACKET_SIZE PACKET_SIZE false.

(** ** Keyboards *)
Record com_keyboard : Type := Keyboard { kb_addr : Z; kb_rb : kringbuffer; shift_held : bool; caps_lock : bool }.
Definition with_kb_rb (k : com_keyboard) (rb : kringbuffer) : com_keyboard := Keyboard (kb_addr k) rb (shift_held k) (caps_lock k).

Definition keyboard_read (k : com_keyboard) (m : mem) (buf buflen : Z) (nonblock : bool) (w : W) : res (errno * option Z * mem * com_keyboard * W) :=
  '(e, n, m, rb, w) ← kringbuffer_read_nolock R fuel m buf (kb_rb k) w buflen PACKET_SIZE (negb nonblock);
  Ok (e, n, m, with_kb_rb k rb, w).

(** [POLLIN]. *)
Definition keyboard_poll (k : com_keyboard) : bool := 0 <? KRINGBUFFER_AVAIL_READ (kb_rb k).

Definition com_io_keyboard_send_packet (k : com_keyboard) (p : com_kbd_packet) (w : W) : res (errno * com_keyboard * W) :=
  '(e, _, rb, w) ← packet_put (kb_rb k) (kbd_bytes (kb_addr k) p) w; Ok (e, with_kb_rb k rb, w).

(** Over what the array of the ring holds; [None] when the registration of the
    device fails. *)
Definition com_io_keyboard_new (a : Z) (array : list Z) (registered : bool) : option com_keyboard :=
  if registered then Some (Keyboard a (KRINGBUFFER_INIT array) false false) else None.

(** ** Mice *)
Record com_mouse : Type := Mouse { ms_rb : kringbuffer; consolidated : com_mouse_packet; present : bool }.
Definition no_packet : com_mouse_packet := MousePacket 0 0 0 0 0.

(** A C [int]. *)
Definition s32 (v : Z) : Z := (v + 2 ^ 31) mod 2 ^ 32 - 2 ^ 31.

Definition mouse_read (ms : com_mouse) (m : mem) (buf buflen : Z) (nonblock : bool) (w : W) : res (errno * option Z * mem * com_mouse * W) :=
  if (KRINGBUFFER_AVAIL_READ (ms_rb ms) =? 0) && present ms then
    let copy_size := KMIN buflen PACKET_SIZE in
    Ok (E0, Some copy_size, wr_bytes m buf (take (Z.to_nat copy_size) (mouse_bytes (consolidated ms))), Mouse (ms_rb ms) no_packet false, w)
  else
    '(e, n, m, rb, w) ← kringbuffer_read_nolock R fuel m buf (ms_rb ms) w buflen PACKET_SIZE (negb nonblock);
    Ok (e, n, m, Mouse rb (consolidated ms) (present ms), w).

Definition mouse_poll (ms : com_mouse) : bool := (0 <? KRINGBUFFER_AVAIL_READ (ms_rb ms)) || present ms.

Definition com_io_mouse_send_packet (ms : com_mouse) (p : com_mouse_packet) (w : W) : res (errno * com_mouse * W) :=
  '(e, _, rb, w) ← packet_put (ms_rb ms) (mouse_bytes p) w;
  if bool_decide (e = EAGAIN) then
    let c := consolidated ms in
    let c := MousePacket (mp_mouse c) (Z.lor (buttons c) (buttons p)) (s32 (dx c + dx p)) (s32 (dy c + dy p)) (s32 (dz c + dz p)) in
    Ok (E0, Mouse rb c true, run_callback R w)
  else Ok (e, Mouse rb (consolidated ms) (present ms), w).

Definition com_io_mouse_new (array : list Z) (registered : bool) : option com_mouse :=
  if registered then Some (Mouse (KRINGBUFFER_INIT array) no_packet false) else None.
End input.

(** ** The layout *)
Definition G_LAYOUT_EN_US_MAP : list Z :=
  [0; 27; 49; 50; 51; 52; 53; 54; 55; 56; 57; 48; 45; 61; 8; 9; 113; 119; 101; 114; 116; 121; 117; 105; 111; 112; 91; 93; 13; 0;
   97; 115; 100; 102; 103; 104; 106; 107; 108; 59; 39; 96; 0; 92; 122; 120; 99; 118; 98; 110; 109; 44; 46; 47; 0; 42; 0; 32; 0; 0;
   0; 0; 0; 0; 0; 0; 0; 0; 0; 0; 0; 55; 56; 57; 45; 52; 53; 54; 43; 49; 50; 51; 48; 46; 0; 0; 60; 0; 0; 0; 0; 0; 0; 0; 0; 0; 13; 0;
   47; 0; 0; 13; 0; 0; 0; 0; 0; 0; 0; 0; 0; 0].
Definition G_LAYOUT_EN_US_MAP_SHIFTED : list Z :=
  [0; 27; 33; 64; 35; 36; 37; 94; 38; 42; 40; 41; 95; 43; 8; 9; 81; 87; 69; 82; 84; 89; 85; 73; 79; 80; 123; 125; 13; 0;
   65; 83; 68; 70; 71; 72; 74; 75; 76; 58; 34; 126; 0; 124; 90; 88; 67; 86; 66; 78; 77; 60; 62; 63; 0; 42; 0; 32; 0; 0;
   0; 0; 0; 0; 0; 0; 0; 0; 0; 0; 0; 55; 56; 57; 45; 52; 53; 54; 43; 49; 50; 51; 48; 46; 0; 0; 60; 0; 0; 0; 0; 0; 0; 0; 0; 0; 13; 0;
   47; 0; 0; 13; 0; 0; 0; 0; 0; 0; 0; 0; 0; 0].

(** [None] is a key to be discarded. *)
Definition com_io_keyboard_layout_en_us (k : com_keyboard) (p : com_kbd_packet) : res (option com_kbd_packet) :=
  if 128 <=? keycode p then Ok None
  else
    c ← deref ((if xorb (shift_held k) (caps_lock k) then G_LAYOUT_EN_US_MAP_SHIFTED else G_LAYOUT_EN_US_MAP) !! Z.to_nat (keycode p));
    Ok (Some (KbdPacket (keycode p) (released p) c)).

(** ** The console *)
Definition CONFIG_TTY_MAX : Z := 7.
Definition COM_IO_KEYBOARD_KEY_F1 : Z := 59.
Definition COM_IO_KEYBOARD_KEY_F12 : Z := 88.

(** The terminals by address, the table of the console, the foreground, and
    the modifiers that the terminals and the console keep. *)
Record console : Type := Console {
  tty_store : gmap Z com_tty;
  Ttys : list (option Z);
  ForegroundTtyIdx : Z;
  TtyNext : Z;
  tty_mod : Z;
  console_mod : Z
}.

Section console.
Context {W : Type} (X : textkern W) (fuel : nat).

Definition tty_of (c : console) (i : Z) : res (option (Z * com_tty)) :=
  a ← deref (Ttys c !! Z.to_nat i);
  match a with None => Ok None | Some a => s ← deref (tty_store c !! a); Ok (Some (a, s)) end.

Definition term_switch (c : console) (i : Z) (on : bool) (w : W) : res W :=
  t ← tty_of c i;
  match t with
  | Some (_, s) => if bool_decide (type s = E_COM_TTY_TYPE_TEXT) then xk_ctl X (term s) on w else Ok w
  | None => Ok w
  end.

Definition switch_tty (c : console) (new_fg : Z) (w : W) : res (console * W) :=
  if CONFIG_TTY_MAX <=? new_fg then Ok (c, w)
  else
    w ← term_switch c (ForegroundTtyIdx c) false w;
    w ← term_switch c new_fg true w;
    Ok (Console (tty_store c) (Ttys c) new_fg (TtyNext c) (tty_mod c) (console_mod c), w).

Definition shift_bit (k : Z) : option Z :=
  if k =? COM_IO_KEYBOARD_KEY_LEFTSHIFT then Some COM_IO_TTY_MOD_LSHIFT else if k =? COM_IO_KEYBOARD_KEY_RIGHTSHIFT then Some COM_IO_TTY_MOD_RSHIFT else None.

Definition com_io_console_kbd_in (c : console) (p : com_kbd_packet) (w : W) : res (console * W) :=
  let cm := match shift_bit (keycode p) with
            | Some b => if released p then Z.ldiff (console_mod c) b else Z.lor (console_mod c) b
            | None => console_mod c
            end in
  let c := Console (tty_store c) (Ttys c) (ForegroundTtyIdx c) (TtyNext c) (tty_mod c) cm in
  if negb (Z.land (Z.lor COM_IO_TTY_MOD_LSHIFT COM_IO_TTY_MOD_RSHIFT) cm =? 0) && (COM_IO_KEYBOARD_KEY_F1 <=? keycode p) && (keycode p <=? COM_IO_KEYBOARD_KEY_F12)
  then switch_tty c (keycode p - COM_IO_KEYBOARD_KEY_F1) w
  else
    t ← tty_of c (ForegroundTtyIdx c);
    match t with
    | None => Ok (c, w)
    | Some (a, s) =>
        '(s, tm, w) ← com_io_tty_kbd_in X fuel s (tty_mod c) p w;
        Ok (Console (<[a := s]> (tty_store c)) (Ttys c) (ForegroundTtyIdx c) (TtyNext c) tm cm, w)
    end.

(** [send] is the mouse's own device, for a terminal in graphics mode. *)
Definition com_io_tty_mouse_in (send : com_mouse_packet → W → res W) (s : com_tty) (p : com_mouse_packet) (w : W) : res W :=
  match mouse_in s with Some _ => send p w | None => Ok w end.

Definition com_io_console_mouse_in (send : com_mouse_packet → W → res W) (c : console) (p : com_mouse_packet) (w : W) : res W :=
  t ← tty_of c (ForegroundTtyIdx c);
  match t with None => Ok w | Some (_, s) => com_io_tty_mouse_in send s p w end.

Definition com_io_console_add_tty (c : console) (a : Z) (s : com_tty) : res console :=
  let i := TtyNext c in
  KASSERT (i <? CONFIG_TTY_MAX);;
  Ok (Console (<[a := s]> (tty_store c)) (<[Z.to_nat i := Some a]> (Ttys c)) (ForegroundTtyIdx c) (i + 1) (tty_mod c) (console_mod c)).
End console.

(** ** Lemmas *)
Lemma length_kbd_bytes a p : length (kbd_bytes a p) = 24%nat.
Proof. unfold kbd_bytes. by rewrite !length_app, !length_le_bytes. Qed.

Lemma length_mouse_bytes p : length (mouse_bytes p) = 24%nat.
Proof. unfold mouse_bytes. by rewrite !length_app, !length_le_bytes. Qed.

Section lemmas.
Context {W : Type} (R : rbkern W) (fuel : nat) (Hhup : rk_hangup R = None).

(** A ring that holds the packets [ps], encoded by [enc]. *)
Definition holds {A} (enc : A → list Z) (rb : kringbuffer) (ps : list A) : Prop :=
  rb_wf rb ∧ PACKET_SIZE < rb_buffer_size rb ∧ rb_is_eof rb = false ∧ rb_contents rb = concat (enc <$> ps).

Lemma length_concat_enc {A} (enc : A → list Z) ps : (∀ p, length (enc p) = 24%nat) → length (concat (enc <$> ps)) = (24 * length ps)%nat.
Proof. intros H. induction ps as [|p ps IH]; [done|]. cbn. rewrite length_app, H, IH. lia. Qed.

Lemma take_concat_enc {A} (enc : A → list Z) ps j : (∀ p, length (enc p) = 24%nat) → take (24 * j) (concat (enc <$> ps)) = concat (enc <$> take j ps) ∧ drop (24 * j) (concat (enc <$> ps)) = concat (enc <$> drop j ps).
Proof.
  intros H. revert j. induction ps as [|p ps IH]; intros j; [destruct j; by rewrite take_nil, drop_nil|]. destruct j as [|j]; [done|].
  cbn [fmap list_fmap concat take drop]. replace (24 * S j)%nat with (length (enc p) + 24 * j)%nat by (rewrite H; lia).
  rewrite take_app_add, drop_app_add by done. destruct (IH j) as [-> ->]. done.
Qed.

(** A packet is stored whole at the end, or not at all. *)
Lemma packet_put_ok {A} (enc : A → list Z) rb ps p w : (∀ p, length (enc p) = 24%nat) → holds enc rb ps →
  if KRINGBUFFER_AVAIL_WRITE rb <? PACKET_SIZE then packet_put R fuel rb (enc p) w = Ok (EAGAIN, PACKET_SIZE, rb, w)
  else ∃ rb', packet_put R fuel rb (enc p) w = Ok (E0, PACKET_SIZE, rb', run_callback R (rk_notify R KRINGBUFFER_OP_READ w)) ∧ holds enc rb' (ps ++ [p]).
Proof.
  intros Hl (Hwf & Hs & He & Hc). unfold packet_put, kringbuffer_write_nolock, write_nonblocking. rewrite check_hangup_none by done.
  pose proof (rb_size_range rb Hwf). pose proof (avail_read_range rb Hwf). pose proof (avail_write_eq rb Hwf).
  destruct (Z.eqb_spec (rb_buffer_size rb) 0); [lia|]. destruct (Z.ltb_spec PACKET_SIZE (rb_buffer_size rb)); [|lia]. cbn [negb]. mstep. rewrite KMIN_min.
  destruct (Z.ltb_spec (KRINGBUFFER_AVAIL_WRITE rb) PACKET_SIZE).
  - rewrite Z.min_r by lia. destruct (Z.ltb_spec (KRINGBUFFER_AVAIL_WRITE rb) PACKET_SIZE); [done|lia].
  - rewrite Z.min_l by lia. rewrite Z.ltb_irrefl. destruct (write_chunk_spec (wr_bytes (λ _, 0) 0 (enc p)) rb 0 PACKET_SIZE Hwf) as (rb' & -> & Hwf' & Hc' & Hs' & He'); [unfold PACKET_SIZE in *; lia|].
    mstep. exists rb'. split; [done|]. split; [done|]. split; [by rewrite Hs'|]. split; [by rewrite He'|].
    rewrite Hc', Hc, fmap_app, concat_app. cbn. rewrite app_nil_r. f_equal. pose proof (rd_wr_bytes (λ _, 0) 0 (enc p)) as Hrw. by rewrite Hl in Hrw.
Qed.

(** A nonblocking read of the size of [j] packets gives the oldest [j], or as
    many as there are. *)
Lemma packets_read {A} (enc : A → list Z) rb ps m buf j w : (∀ p, length (enc p) = 24%nat) → holds enc rb ps → (0 < j)%nat → (0 < fuel)%nat →
  if bool_decide (ps = []) then kringbuffer_read_nolock R fuel m buf rb w (24 * Z.of_nat j) PACKET_SIZE false = Ok (EAGAIN, Some 0, m, rb, w)
  else ∃ rb' n w', kringbuffer_read_nolock R fuel m buf rb w (24 * Z.of_nat j) PACKET_SIZE false = Ok (E0, Some n, wr_bytes m buf (concat (enc <$> take j ps)), rb', w') ∧
    n = 24 * Z.of_nat (length (take j ps)) ∧ holds enc rb' (drop j ps).
Proof.
  intros Hl (Hwf & Hs & He & Hc) Hj Hf. unfold kringbuffer_read_nolock. rewrite check_hangup_none by done. mstep.
  destruct (Z.ltb_spec PACKET_SIZE (rb_buffer_size rb)); [|lia]. mstep. destruct fuel as [|f]; [lia|]. cbn [read_wait]. rewrite He, andb_true_r.
  pose proof (length_rb_contents rb) as Hlen. rewrite Hc, (length_concat_enc enc ps Hl) in Hlen.
  case_bool_decide as Hps.
  - subst ps. cbn in Hlen. destruct (Z.ltb_spec (KRINGBUFFER_AVAIL_READ rb) PACKET_SIZE); [done|unfold PACKET_SIZE in *; lia].
  - assert (0 < length ps)%nat by (destruct ps; [done|cbn; lia]).
    destruct (Z.ltb_spec (KRINGBUFFER_AVAIL_READ rb) PACKET_SIZE); [unfold PACKET_SIZE in *; lia|]. mstep.
    destruct (read_chunk_spec R m buf rb w (24 * Z.of_nat j) Hwf He ltac:(lia)) as (rb' & -> & Hwf' & Hc' & Hs' & He').
    assert (Hn : Z.to_nat (Z.min (24 * Z.of_nat j) (KRINGBUFFER_AVAIL_READ rb)) = (24 * length (take j ps))%nat) by (rewrite length_take; lia).
    assert (Htd : take (24 * length (take j ps)) (rb_contents rb) = concat (enc <$> take j ps) ∧ drop (24 * length (take j ps)) (rb_contents rb) = concat (enc <$> drop j ps)).
    { rewrite Hc. destruct (take_concat_enc enc ps (length (take j ps)) Hl) as [-> ->]. rewrite length_take.
      destruct (decide (j ≤ length ps)%nat); [by rewrite Nat.min_l by lia|]. rewrite Nat.min_r by lia. by rewrite !take_ge, !drop_ge by lia. }
    rewrite Hn in *. destruct Htd as [Htk Hdr]. rewrite Htk. eexists _, _, _. split; [done|]. split; [lia|]. split; [done|]. split; [by rewrite Hs'|]. split; [done|]. by rewrite Hc'.
Qed.
End lemmas.

(** ** Properties *)
Section properties.
Context {W : Type} (R : rbkern W) (fuel : nat) (Hhup : rk_hangup R = None) (Hfuel : (0 < fuel)%nat).

Definition kb_holds (k : com_keyboard) (ps : list com_kbd_packet) : Prop := holds (kbd_bytes (kb_addr k)) (kb_rb k) ps.

(** A keyboard is a queue of packets: one that is sent is stored whole, at
    the end, or refused when there is no room; a nonblocking read of the size
    of [j] packets gives the oldest [j], or as many as there are, and removes
    them. *)
Theorem keyboard_fifo k ps : kb_holds k ps →
  (∀ p w, ∃ k' w', com_io_keyboard_send_packet R fuel k p w = Ok (if KRINGBUFFER_AVAIL_WRITE (kb_rb k) <? PACKET_SIZE then EAGAIN else E0, k', w') ∧
     kb_holds k' (if KRINGBUFFER_AVAIL_WRITE (kb_rb k) <? PACKET_SIZE then ps else ps ++ [p])) ∧
  (∀ m buf j w, (0 < j)%nat → ∃ n m' k' w', keyboard_read R fuel k m buf (24 * Z.of_nat j) true w = Ok (if bool_decide (ps = []) then EAGAIN else E0, Some n, m', k', w') ∧
     kb_holds k' (drop j ps) ∧ n = 24 * Z.of_nat (length (take j ps)) ∧ rd_bytes m' buf (Z.to_nat n) = concat (kbd_bytes (kb_addr k) <$> take j ps)).
Proof.
  intros Hk. split.
  - intros p w. pose proof (packet_put_ok R fuel Hhup _ (kb_rb k) ps p w (length_kbd_bytes (kb_addr k)) Hk) as Hp. unfold com_io_keyboard_send_packet.
    destruct (KRINGBUFFER_AVAIL_WRITE (kb_rb k) <? PACKET_SIZE); [rewrite Hp; mstep; by eexists _, _|]. destruct Hp as (rb' & -> & Hh). mstep. by eexists _, _.
  - intros m buf j w Hj. pose proof (packets_read R fuel Hhup _ (kb_rb k) ps m buf j w (length_kbd_bytes (kb_addr k)) Hk Hj Hfuel) as Hr. unfold keyboard_read. cbn [negb].
    case_bool_decide as Hps; [rewrite Hr; mstep; subst ps; eexists _, _, _, _; split; [done|]; rewrite drop_nil, take_nil; done|].
    destruct Hr as (rb' & n & w' & -> & -> & Hh). mstep. eexists _, _, _, _. split; [done|]. split; [done|]. split; [done|].
    replace (Z.to_nat _) with (length (concat (kbd_bytes (kb_addr k) <$> take j ps))) by (rewrite (length_concat_enc _ _ (length_kbd_bytes (kb_addr k))); lia). apply rd_wr_bytes.
Qed.

(** A mouse whose ring holds [ps]. *)
Definition mouse_at (ms : com_mouse) (ps : list com_mouse_packet) : Prop := holds mouse_bytes (ms_rb ms) ps ∧ (present ms = false → consolidated ms = no_packet).

(** The motion not yet read, along one axis. *)
Definition motion (f : com_mouse_packet → Z) (ms : com_mouse) (ps : list com_mouse_packet) : Z := foldr (λ p s, f p + s) 0 ps + f (consolidated ms).
Inductive axis : (com_mouse_packet → Z) → Prop := axis_x : axis dx | axis_y : axis dy | axis_z : axis dz.

Lemma s32_mod v : s32 v mod 2 ^ 32 = v mod 2 ^ 32.
Proof. unfold s32. rewrite Zminus_mod, Zmod_mod, <- Zminus_mod. f_equal. lia. Qed.

Lemma motion_app f ms ms' ps p : consolidated ms' = consolidated ms → motion f ms' (ps ++ [p]) = motion f ms ps + f p.
Proof. intros Hc. unfold motion. rewrite Hc, foldr_app. cbn. induction ps as [|q ps IH]; cbn; lia. Qed.

Lemma empty_iff ms ps : holds mouse_bytes (ms_rb ms) ps → KRINGBUFFER_AVAIL_READ (ms_rb ms) = 0 ↔ ps = [].
Proof.
  intros (_ & _ & _ & Hc). rewrite <- length_rb_contents, Hc, (length_concat_enc _ _ length_mouse_bytes). split; [destruct ps; [done|cbn; lia]|by intros ->].
Qed.

(** No motion of a mouse is lost: whatever the room in the ring, sending a
    packet succeeds and adds its motion, as a C [int], to what is to be read
    on each axis, and a nonblocking read of one packet, which only fails when
    there is nothing, takes what it returns away. *)
Theorem mouse_conserves_motion ms ps : mouse_at ms ps →
  (∀ p w, ∃ ms' ps' w', com_io_mouse_send_packet R fuel ms p w = Ok (E0, ms', w') ∧ mouse_at ms' ps' ∧
     ∀ f, axis f → motion f ms' ps' mod 2 ^ 32 = (motion f ms ps + f p) mod 2 ^ 32) ∧
  (∀ m buf w, (ps = [] ∧ present ms = false ∧ mouse_read R fuel ms m buf PACKET_SIZE true w = Ok (EAGAIN, Some 0, m, ms, w)) ∨
     ∃ p m' ms' ps' w', mouse_read R fuel ms m buf PACKET_SIZE true w = Ok (E0, Some PACKET_SIZE, m', ms', w') ∧ mouse_at ms' ps' ∧
       rd_bytes m' buf 24 = mouse_bytes p ∧ ∀ f, axis f → motion f ms ps = motion f ms' ps' + f p).
Proof.
  intros [Hh Hp]. split.
  - intros p w. pose proof (packet_put_ok R fuel Hhup mouse_bytes (ms_rb ms) ps p w length_mouse_bytes Hh) as Hput. unfold com_io_mouse_send_packet.
    destruct (KRINGBUFFER_AVAIL_WRITE (ms_rb ms) <? PACKET_SIZE).
    + rewrite Hput. mstep. rewrite bool_decide_true by done. eexists _, ps, _. split; [done|]. split; [by split|].
      intros f Hf. unfold motion. cbn [consolidated]. destruct Hf; cbn [dx dy dz]; rewrite Z.add_mod, s32_mod, <- Z.add_mod by lia; f_equal; lia.
    + destruct Hput as (rb' & -> & Hh'). mstep. rewrite bool_decide_false by done. eexists _, (ps ++ [p]), _. split; [done|]. split; [by split|].
      intros f _. f_equal. by apply motion_app.
  - intros m buf w. unfold mouse_read. destruct ((KRINGBUFFER_AVAIL_READ (ms_rb ms) =? 0) && present ms) eqn:E.
    + apply andb_prop in E as [He Hpr]. apply Z.eqb_eq in He. apply (empty_iff ms ps Hh) in He as ->. right.
      exists (consolidated ms), (wr_bytes m buf (mouse_bytes (consolidated ms))), (Mouse (ms_rb ms) no_packet false), [], w.
      rewrite KMIN_min, Z.min_id. change (Z.to_nat PACKET_SIZE) with 24%nat. rewrite take_ge by (by rewrite length_mouse_bytes). split; [done|]. split; [by split|].
      split; [pose proof (rd_wr_bytes m buf (mouse_bytes (consolidated ms))) as Hrw; by rewrite length_mouse_bytes in Hrw|].
      intros f Hf. unfold motion. cbn. by destruct Hf.
    + pose proof (packets_read R fuel Hhup mouse_bytes (ms_rb ms) ps m buf 1 w length_mouse_bytes Hh ltac:(lia) Hfuel) as Hr. change (24 * Z.of_nat 1) with PACKET_SIZE in Hr. cbn [negb].
      case_bool_decide as Hps.
      * left. subst ps. rewrite (proj2 (empty_iff ms [] Hh) eq_refl) in E. cbn in E. rewrite Hr. mstep. split; [done|]. split; [done|]. destruct ms; done.
      * right. destruct Hr as (rb' & n & w' & -> & -> & Hh'). mstep. destruct ps as [|p ps]; [done|]. cbn [take drop] in Hh' |- *.
        eexists p, _, _, ps, _. split; [done|]. split; [by split|]. cbn [fmap list_fmap concat]. rewrite app_nil_r.
        split; [pose proof (rd_wr_bytes m buf (mouse_bytes p)) as Hrw; by rewrite length_mouse_bytes in Hrw|]. intros f _. unfold motion. cbn. lia.
Qed.
End properties.

(** The layout knows 112 keys, but refuses only numbers from 128 on. *)
Theorem layout_reads_past_table k p : 0 ≤ keycode p →
  (keycode p < 112 → ∃ c, com_io_keyboard_layout_en_us k p = Ok (Some (KbdPacket (keycode p) (released p) c))) ∧
  (112 ≤ keycode p < 128 → com_io_keyboard_layout_en_us k p = Fault) ∧ (128 ≤ keycode p → com_io_keyboard_layout_en_us k p = Ok None).
Proof.
  intros Hk. unfold com_io_keyboard_layout_en_us. set (tab := if xorb _ _ then _ else _). assert (Hlen : length tab = 112%nat) by (unfold tab; destruct (xorb (shift_held k) (caps_lock k)); reflexivity).
  split_and!; intros Hr; destruct (Z.leb_spec 128 (keycode p)); try lia; [| |done].
  - destruct (lookup_lt_is_Some_2 tab (Z.to_nat (keycode p))) as [c Hc]; [lia|]. exists c. by rewrite Hc.
  - by rewrite lookup_ge_None_2 by lia.
Qed.

(** A key changes the terminal in the foreground and no other. *)
Theorem console_key_frame {W} (X : textkern W) fuel c p w c' w' a : com_io_console_kbd_in X fuel c p w = Ok (c', w') →
  Ttys c' = Ttys c ∧ (Ttys c !! Z.to_nat (ForegroundTtyIdx c) ≠ Some (Some a) → tty_store c' !! a = tty_store c !! a).
Proof.
  unfold com_io_console_kbd_in. destruct (_ && _ && _).
  - unfold switch_tty. destruct (CONFIG_TTY_MAX <=? _); [by intros [= <- <-]|]. destruct (term_switch X _ _ false w); mstep; [|done..].
    destruct (term_switch X _ _ true _); mstep; [|done..]. by intros [= <- <-].
  - unfold tty_of. cbn [Ttys ForegroundTtyIdx tty_store tty_mod TtyNext]. destruct (Ttys c !! Z.to_nat (ForegroundTtyIdx c)) as [[b|]|]; mstep; [|by intros [= <- <-]|done].
    destruct (tty_store c !! b) as [s|] eqn:Hb; mstep; [|done]. destruct (com_io_tty_kbd_in X fuel s (tty_mod c) p w) as [[[s' tm] w1]| | |]; mstep; [|done..].
    intros [= <- <-]. split; [done|]. intros Hne. cbn. rewrite lookup_insert_ne by congruence. done.
Qed.

(** With a shift key held, every key from F1 to F12 is taken for the switch of
    a terminal, and that range has the whole keypad in it: those beyond the
    number of terminals do nothing at all. *)
Theorem shifted_keypad_is_lost {W} (X : textkern W) fuel c k ch w : COM_IO_KEYBOARD_KEY_F1 + CONFIG_TTY_MAX ≤ k ≤ COM_IO_KEYBOARD_KEY_F12 → console_mod c = COM_IO_TTY_MOD_LSHIFT →
  com_io_console_kbd_in X fuel c (KbdPacket k false ch) w = Ok (c, w).
Proof.
  unfold COM_IO_KEYBOARD_KEY_F1, CONFIG_TTY_MAX, COM_IO_KEYBOARD_KEY_F12. intros Hk Hm. unfold com_io_console_kbd_in, shift_bit. cbn [keycode released].
  destruct (Z.eqb_spec k COM_IO_KEYBOARD_KEY_LEFTSHIFT) as [E|_]; [unfold COM_IO_KEYBOARD_KEY_LEFTSHIFT in E; lia|].
  destruct (Z.eqb_spec k COM_IO_KEYBOARD_KEY_RIGHTSHIFT) as [E|_]; [unfold COM_IO_KEYBOARD_KEY_RIGHTSHIFT in E; lia|]. rewrite Hm.
  unfold COM_IO_KEYBOARD_KEY_F1, COM_IO_KEYBOARD_KEY_F12. destruct (Z.leb_spec 59 k); [|lia]. destruct (Z.leb_spec k 88); [|lia]. cbn [andb negb]. change (Z.land _ _ =? 0) with false. cbn [negb andb].
  unfold switch_tty, CONFIG_TTY_MAX. destruct (Z.leb_spec 7 (k - 59)); [|lia]. destruct c. cbn in *. by subst.
Qed.

(** ** Witnesses *)
Definition demo_ms : com_mouse := Mouse (KRINGBUFFER_INIT (replicate 1024 0)) no_packet false.
Definition demo_kb : com_keyboard := Keyboard 5 (KRINGBUFFER_INIT (replicate 1024 0)) false false.
Lemma demo_holds {A} (enc : A → list Z) : holds enc (KRINGBUFFER_INIT (replicate 1024 0)) [].
Proof. split; [split; [by exists 10|]; split_and!; (done || (vm_compute; done))|done]. Qed.

Lemma keyboard_fifo_witness : ∃ k w, com_io_keyboard_send_packet demo_ring 1 demo_kb (KbdPacket 30 false 97) demo_w0 = Ok (E0, k, w) ∧ kb_holds k [KbdPacket 30 false 97].
Proof. exact (proj1 (keyboard_fifo demo_ring 1 eq_refl ltac:(lia) demo_kb [] (demo_holds _)) (KbdPacket 30 false 97) demo_w0). Defined.

Lemma mouse_conserves_motion_witness : ∃ ms' ps' w', com_io_mouse_send_packet demo_ring 1 demo_ms (MousePacket 0 0 5 (-3) 0) demo_w0 = Ok (E0, ms', w') ∧ mouse_at ms' ps' ∧
  ∀ f, axis f → motion f ms' ps' mod 2 ^ 32 = (motion f demo_ms [] + f (MousePacket 0 0 5 (-3) 0)) mod 2 ^ 32.
Proof. exact (proj1 (mouse_conserves_motion demo_ring 1 eq_refl ltac:(lia) demo_ms [] (conj (demo_holds _) (λ _, eq_refl))) (MousePacket 0 0 5 (-3) 0) demo_w0). Defined.
