(* ===== verification/Filemap.v ===== *)
(** * Mapped files and the system calls mmap and munmap

    com_fs_tmpfs_mmap of src/com/fs/tmpfs.c, which maps the pages of a file's
    cache into a process, and src/com/sys/syscall/mmap.c and munmap.c on top
    of it and of the virtual memory manager. Page tables ([Mmu], [Vmm]) and
    the page cache ([Radixtree], [Tmpfs]) live in one heap of pages and take
    theirs from one allocator; the lemmas show that they stay apart. *)
From S2P Require Import Prelude Mem PageTree Pmm Mmu Vmm Radixtree Ioviter Slab Vfs Tmpfs Fdtable.

(** The C library's constants; the flags that are or'ed together are distinct
    bits. *)
Class MmanConsts := {
  MAP_SHARED : Z; MAP_PRIVATE : Z; MAP_FIXED : Z; MAP_ANONYMOUS : Z;
  PROT_READ : Z; PROT_WRITE : Z }.

Definition COM_MM_VMM_FLAGS_FILE : Z := 8.

Section filemap.
Context {S A : Type} `{!SlabAlloc S} `{VmMem A} `{!LibcConsts}.
Variable g : vmm_globals.
(** What the variable [page] holds where nothing stored to it. *)
Variable uninit : Z.
Implicit Types (w : world S (tmpfs A)).

(** The loop of [com_fs_tmpfs_mmap]. *)
Fixpoint mmap_loop (fuel : nat) (data : option kradixtree) (context : ctxarg)
    (range_base off size curr vmm_flags mmu_flags : Z) w : res (ctxarg * world S (tmpfs A)) :=
  match fuel with
  | O => Fuel
  | Datatypes.S fuel =>
      if curr <? u64 (off + size) then
        c ← deref data;
        present ← com_fs_pagecache_get c (curr / ARCH_PAGE_SIZE) (cache (fsdata w));
        let page_phys := ARCH_HHDM_TO_PHYS (default uninit present) in
        a ← pg_hold (tpages (fsdata w)) page_phys;
        '(_, context, h, a) ← com_mm_vmm_map g (cache (fsdata w)) a context (u64 (range_base + (curr - off)))
          page_phys ARCH_PAGE_SIZE
          (Z.lor (Z.lor vmm_flags COM_MM_VMM_FLAGS_PRIVATE)
             (if present then 0 else COM_MM_VMM_FLAGS_ALLOCATE)) mmu_flags;
        mmap_loop fuel data context range_base off size (u64 (curr + ARCH_PAGE_SIZE)) vmm_flags mmu_flags
          (set_cache w h a)
      else Ok (context, w)
  end.

(** One turn per page is enough. *)
Definition mmap_fuel (size : Z) : nat := Z.to_nat (size / ARCH_PAGE_SIZE + 2).

Definition com_fs_tmpfs_mmap (node : Z) (vmm_context : ctxarg) (hint size vmm_flags mmu_flags off : Z) w
    : res (errno * option Z * ctxarg * world S (tmpfs A)) :=
  v ← deref (vnodes w !! node);
  file ← deref (tnodes (fsdata w) !! extra v);
  '(_, data) ← as_file (tn_data file);
  '(range_base, vmm_context, vmm_flags) ←
    (if has COM_MM_VMM_FLAGS_NOHINT vmm_flags then
       '(base, c) ← com_mm_vmm_prealloc_range g vmm_context size;
       Ok (base, Ctx c, without vmm_flags COM_MM_VMM_FLAGS_NOHINT)
     else Ok (hint, vmm_context, vmm_flags));
  '(vmm_context, w) ← mmap_loop (mmap_fuel size) data vmm_context range_base off size off vmm_flags mmu_flags w;
  Ok (E0, Some (u64 (range_base + off mod ARCH_PAGE_SIZE)), vmm_context, w).

(** The table of tmpfs with its [mmap] entry, in a kernel whose only file
    system is tmpfs. *)
Definition tmpfs_mmap_ops : com_vnode_ops S (tmpfs A) :=
  VnodeOps _ _ None (Some com_fs_tmpfs_lookup) (Some com_fs_tmpfs_create) (Some com_fs_tmpfs_mkdir) None
    (Some (com_fs_tmpfs_unlink (VnodeTables0 := close_tables))) (Some com_fs_tmpfs_read) (Some com_fs_tmpfs_write) None None
    (Some com_fs_tmpfs_symlink) (Some com_fs_tmpfs_readlink) (Some com_fs_tmpfs_readdir) None None
    (Some com_fs_tmpfs_stat) (Some com_fs_tmpfs_truncate) (Some com_fs_tmpfs_vnctl) None None None
    (Some com_fs_tmpfs_mksocket) (Some com_fs_tmpfs_mmap).
Definition mapped_tables : VnodeTables S (tmpfs A) := λ tab, if tab =? TmpfsNodeOps then tmpfs_mmap_ops else no_ops.

(** ** The system calls

    A system call works for the process of the current thread; its context is
    [current g]. *)
Context {mman : MmanConsts}.

Definition make_vmm_flags (flags prot : Z) : Z :=
  let vmm_flags := 0 in
  let vmm_flags := if negb (has MAP_FIXED flags) then Z.lor vmm_flags COM_MM_VMM_FLAGS_NOHINT else vmm_flags in
  let vmm_flags := if has MAP_ANONYMOUS flags then Z.lor vmm_flags COM_MM_VMM_FLAGS_ANONYMOUS else vmm_flags in
  if has MAP_SHARED flags then Z.lor vmm_flags COM_MM_VMM_FLAGS_SHARED
  else if has MAP_PRIVATE flags then Z.lor vmm_flags COM_MM_VMM_FLAGS_PRIVATE
  else vmm_flags.

Definition make_mmu_flags (flags prot : Z) : Z :=
  let mmu_prot := Z.lor ARCH_MMU_FLAGS_PRESENT ARCH_MMU_FLAGS_USER in
  let mmu_prot := if has PROT_WRITE prot then Z.lor mmu_prot ARCH_MMU_FLAGS_WRITE else mmu_prot in
  if has PROT_READ prot then Z.lor mmu_prot ARCH_MMU_FLAGS_READ else mmu_prot.

Definition file_mmap (s : fdstate) (curr_proc : nat) (fd size vmm_flags mmu_flags off hint : Z) w
    : res (com_syscall_ret * ctxarg * fdstate * world S (tmpfs A)) :=
  '(file, s) ← com_sys_proc_get_file_nolock s curr_proc fd;
  '(ret, ctx, w) ←
    match file with
    | None => Ok (COM_SYS_SYSCALL_ERR EBADF, vmm_current_context g, w)
    | Some f =>
        x ← deref (files s !! f);
        node ← deref (vnode x);
        '(vfs_err, mmap_ret, ctx, w) ← com_fs_vfs_mmap (VnodeTables0 := mapped_tables) node CtxNull hint size
          (Z.lor vmm_flags COM_MM_VMM_FLAGS_FILE) mmu_flags off w;
        if bool_decide (vfs_err = E0) then
          r ← deref mmap_ret; Ok (COM_SYS_SYSCALL_OK r, ctx, w)
        else Ok (COM_SYS_SYSCALL_ERR vfs_err, ctx, w)
    end;
  s ← COM_FS_FILE_RELEASE s file;
  Ok (ret, ctx, s, w).

Definition com_sys_syscall_mmap (s : fdstate) (curr_proc : nat) (context : com_vmm_context)
    (hint size flags prot fd off : Z) w : res (com_syscall_ret * ctxarg * fdstate * world S (tmpfs A)) :=
  let vmm_flags := make_vmm_flags flags prot in
  let mmu_flags := make_mmu_flags flags prot in
  if negb (fd =? -1) then
    file_mmap s curr_proc fd size (Z.lor vmm_flags COM_MM_VMM_FLAGS_ANONYMOUS) mmu_flags off hint w
  else
    '(virt, ctx, h, a) ← com_mm_vmm_map g (cache (fsdata w)) (tpages (fsdata w)) (Ctx context) hint 0 size
      (Z.lor vmm_flags COM_MM_VMM_FLAGS_ALLOCATE) mmu_flags;
    Ok (COM_SYS_SYSCALL_OK virt, ctx, s, set_cache w h a).

Definition com_sys_syscall_munmap (context : com_vmm_context) (addr len : Z) w
    : res (com_syscall_ret * world S (tmpfs A)) :=
  if negb (addr mod ARCH_PAGE_SIZE =? 0) || (ARCH_MMU_KERNELSPACE_START <? addr) || (len =? 0)
     || (ARCH_MMU_KERNELSPACE_START <? u64 (addr + len)) then Ok (COM_SYS_SYSCALL_ERR EINVAL, w)
  else
    '(h, a) ← com_mm_vmm_unmap g (cache (fsdata w)) (tpages (fsdata w)) (Ctx context) addr len;
    Ok (COM_SYS_SYSCALL_OK 0, set_cache w h a).
End filemap.

(** ** Lemmas: an address space beside a page cache *)

Section filemap_lemmas.
Context {S A : Type} `{!SlabAlloc S} `{VmMem A} `{!LibcConsts}.
Variable g : vmm_globals.
Implicit Types (w : world S (tmpfs A)) (c : kradixtree).

(** The page tables of [pt] and the page cache of [c] are well formed and
    share no page. *)
Record space_ok w c (pt : Z) : Prop := {
  so_tree : mtree (cache (fsdata w)) pt;
  so_file : file_ok w c;
  so_apart : ∀ r, tree_page rx_next (cache (fsdata w)) (back c) 3 r →
    ¬ tree_page next (cache (fsdata w)) (ARCH_PHYS_TO_HHDM pt) 3 r }.

(** A page that is taken can be held: the counter's assertion is that it is
    not free. *)
Definition holdable : Prop :=
  ∀ a p, pa_inv a → valid_phys p → pa_taken a p → ∃ a', pg_hold a p = Ok a'.

Lemma set_cache_twice w h a h' a' : set_cache (set_cache w h a) h' a' = set_cache w h' a'.
Proof. by destruct w as [? ? ? ? []]. Qed.

Lemma set_cache_same w : set_cache w (cache (fsdata w)) (tpages (fsdata w)) = w.
Proof. by destruct w as [? ? ? ? []]. Qed.

Lemma space_inv w c pt : space_ok w c pt → pa_inv (tpages (fsdata w)) ∧ heap_owned (cache (fsdata w)) (tpages (fsdata w)).
Proof. intros [_ Hf _]. by destruct (fo_wf _ _ Hf) as (_ & _ & ? & ?). Qed.

(** A change of the tables leaves the page cache as it was. *)
Lemma space_map w c pt h a :
  space_ok w c pt → mmu_frame (cache (fsdata w)) (tpages (fsdata w)) pt h a →
  mtree h pt → pa_inv a → heap_owned h a →
  space_ok (set_cache w h a) c pt ∧ ∀ i, rx_lookup c h i = rx_lookup c (cache (fsdata w)) i.
Proof.
  intros [Ht Hf Hap] [Hfr Htk] Ht' Hi Ho. pose proof (fo_layers _ _ Hf) as Hly. pose proof (fo_wf _ _ Hf) as (Hn & Hrt & _).
  rewrite Hly in Hrt. cbn [Nat.sub] in Hrt.
  destruct (tree_unchanged rx_next (cache (fsdata w)) h (back c) 3 Hrt) as (Hw & Hrt' & Hpg & Hwd).
  { intros r Hr. destruct Hr as (π & Hle & Hr). apply Hfr; [destruct Hrt as [Hdom _]; by apply (Hdom π)|].
    apply Hap. by exists π. }
  assert (Hlk : ∀ i, rx_lookup c h i = rx_lookup c (cache (fsdata w)) i).
  { intros i. rewrite !rx_lookup_word, Hwd; [done|]. by rewrite length_rx_path, Hly. }
  split; [|done]. split; [done| |].
  - split; cbn [set_cache fsdata cache tpages].
    + split; [done|]. rewrite Hly. done.
    + done.
    + intros i p. rewrite Hlk. intros Hp. destruct (fo_pages _ _ Hf i p Hp) as (q & ? & ? & ?). exists q. auto.
    + intros i j p Hri Hrj. rewrite !Hlk. by apply (fo_inj _ _ Hf).
  - cbn [set_cache fsdata cache]. intros r Hr. rewrite Hpg in Hr. apply Hfr; [|by apply Hap].
    destruct Hr as (π & Hle & Hr). destruct Hrt as [Hdom _]. by apply (Hdom π).
Qed.

(** A table of its own beside a page cache. *)
Lemma space_fresh_table w c p a :
  file_ok w c → pa_alloc (tpages (fsdata w)) = Ok (p, a) →
  space_ok (set_cache w (<[ARCH_PHYS_TO_HHDM p := ∅]> (cache (fsdata w))) a) c p ∧
  ∀ v, arch_mmu_get_physical (<[ARCH_PHYS_TO_HHDM p := ∅]> (cache (fsdata w))) p v = Ok None.
Proof.
  intros Hf Hal. pose proof (fo_layers _ _ Hf) as Hly. pose proof (fo_wf _ _ Hf) as (Hn & Hrt & Hinv & Hown).
  rewrite Hly in Hrt. cbn [Nat.sub] in Hrt. destruct (pa_alloc_ok _ _ _ Hinv Hal) as (Hi & Hp & Hnt & Htk).
  set (h := cache (fsdata w)) in *. set (h' := <[_ := ∅]> h).
  assert (Hfresh : h !! ARCH_PHYS_TO_HHDM p = None).
  { apply eq_None_not_Some. intros Hs. by apply Hnt, Hown. }
  assert (Hsame : ∀ r, is_Some (h !! r) → h' !! r = h !! r).
  { intros r Hr. unfold h'. rewrite lookup_insert_ne; [done|]. intros <-. rewrite Hfresh in Hr. by destruct Hr. }
  assert (Hwk : ∀ π, mwalk h' (ARCH_PHYS_TO_HHDM p) π =
    match π with [] => Ok (Some (ARCH_PHYS_TO_HHDM p)) | _ => Ok None end).
  { intros [|i π]; [done|]. cbn [walk]. unfold h'. rewrite rd_insert_eq. mstep. by rewrite rd_slot_empty. }
  destruct (tree_unchanged rx_next h h' (back c) 3 Hrt) as (Hw & Hrt' & Hpg & Hwd).
  { intros r (π & Hle & Hr). apply Hsame. destruct Hrt as [Hdom _]. by apply (Hdom π). }
  assert (Hlk : ∀ i, rx_lookup c h' i = rx_lookup c h i).
  { intros i. rewrite !rx_lookup_word, Hwd; [done|]. by rewrite length_rx_path, Hly. }
  assert (Hmt : mtree h' p) by (apply ptree_single; [done|]; unfold h'; by rewrite lookup_insert_eq).
  split; [split|].
  - exact Hmt.
  - split; cbn [set_cache fsdata cache tpages].
    + split; [done|]. rewrite Hly. split; [done|]. split; [done|]. intros q Hq Hs. apply Htk.
      destruct (decide (q = p)) as [->|Hne]; [by left|right]. apply Hown; [done|]. unfold h' in Hs.
      rewrite lookup_insert_ne in Hs; [done|]. intros ?%hhdm_inj; done.
    + done.
    + intros i q. rewrite Hlk. intros Hq. destruct (fo_pages _ _ Hf i q Hq) as (q' & ? & ? & ?).
      exists q'. do 2 (split; [done|]). apply Htk. by right.
    + intros i j q Hri Hrj. rewrite !Hlk. by apply (fo_inj _ _ Hf).
  - cbn [set_cache fsdata cache]. intros r Hr (π & _ & Hπ). rewrite Hwk in Hπ. destruct π; [|done]. injection Hπ as <-.
    rewrite Hpg in Hr. destruct Hr as (σ & Hle & Hr). destruct Hrt as [Hdom _].
    destruct (Hdom σ _ Hle Hr) as [x Hx]. congruence.
  - intros v. rewrite get_physical_pte by done. unfold pte, word_at. by rewrite Hwk.
Qed.

(** The flags of a mapping of file pages at an address that is given. *)
Definition file_map_flags (vmm_flags mmu_flags : Z) : Prop :=
  let f := map_flags (Z.lor (Z.lor vmm_flags COM_MM_VMM_FLAGS_PRIVATE) 0) mmu_flags in
  Mmu.flags_ok f.2 ∧ has COM_MM_VMM_FLAGS_NOHINT f.1 = false ∧
  has COM_MM_VMM_FLAGS_ALLOCATE (Z.lor (Z.lor vmm_flags COM_MM_VMM_FLAGS_PRIVATE) 0) = false ∧
  has COM_MM_VMM_FLAGS_NOHINT vmm_flags = false.

Lemma ceil_index i size : 0 ≤ i → 0 ≤ size →
  (i * ARCH_PAGE_SIZE < size ↔ i < (size + ARCH_PAGE_SIZE - 1) / ARCH_PAGE_SIZE).
Proof.
  intros Hi Hs. unfold ARCH_PAGE_SIZE. pose proof (Z.div_mod (size + 4096 - 1) 4096 ltac:(done)).
  pose proof (Z.mod_pos_bound (size + 4096 - 1) 4096 ltac:(done)). lia.
Qed.

Lemma cache_page_phys w c i p : file_ok w c → rx_lookup c (cache (fsdata w)) i = Some p →
  valid_phys (ARCH_HHDM_TO_PHYS p) ∧ p = ARCH_PHYS_TO_HHDM (ARCH_HHDM_TO_PHYS p) ∧
  pa_taken (tpages (fsdata w)) (ARCH_HHDM_TO_PHYS p).
Proof.
  intros Hf Hp. destruct (fo_pages _ _ Hf i p Hp) as (q & Hq & -> & Ht). destruct Hq as [Hq Hm].
  rewrite hhdm_phys_roundtrip by lia. done.
Qed.

(** The pages of the file from the one of [off] on appear one after the
    other from [base] on. *)
Lemma mmap_loop_spec uninit fuel i w c x base off size n vf mf :
  space_ok w c (pagetable x) → holdable → file_map_flags vf mf →
  base mod ARCH_PAGE_SIZE = 0 → off mod ARCH_PAGE_SIZE = 0 → 0 ≤ base → 0 ≤ off → 0 ≤ size →
  n = (size + ARCH_PAGE_SIZE - 1) / ARCH_PAGE_SIZE → 0 ≤ i ≤ n → (Z.to_nat (n - i) < fuel)%nat →
  (3 * Z.to_nat (n - i) ≤ pa_free (tpages (fsdata w)))%nat →
  (∀ j, i ≤ j < n → is_Some (rx_lookup c (cache (fsdata w)) (off / ARCH_PAGE_SIZE + j))) →
  base + n * ARCH_PAGE_SIZE ≤ 2 ^ 47 → off + n * ARCH_PAGE_SIZE ≤ FILE_SPAN →
  ∃ h a, mmap_loop g uninit fuel (Some c) (Ctx x) base off size (off + i * ARCH_PAGE_SIZE) vf mf w =
      Ok (Ctx x, set_cache w h a) ∧
    space_ok (set_cache w h a) c (pagetable x) ∧ mmu_frame (cache (fsdata w)) (tpages (fsdata w)) (pagetable x) h a ∧
    (∀ j, rx_lookup c h j = rx_lookup c (cache (fsdata w)) j) ∧
    (pa_free (tpages (fsdata w)) ≤ pa_free a + 3 * Z.to_nat (n - i))%nat ∧
    ∀ v, 0 ≤ v < 2 ^ 48 → arch_mmu_get_physical h (pagetable x) v =
      if decide (base + i * ARCH_PAGE_SIZE ≤ v < base + n * ARCH_PAGE_SIZE)
      then match rx_lookup c (cache (fsdata w)) ((off + (v - base)) / ARCH_PAGE_SIZE) with
           | Some p => Ok (Some (ARCH_HHDM_TO_PHYS p + v mod ARCH_PAGE_SIZE))
           | None => Ok None
           end
      else arch_mmu_get_physical (cache (fsdata w)) (pagetable x) v.
Proof.
  intros Hsp Hhold Hfl Hbm Hom Hb Ho Hs Hn Hi Hfu. 
  assert (Hnn : 0 ≤ n) by (rewrite Hn; apply Z.div_pos; unfold ARCH_PAGE_SIZE; lia).
  revert i w Hsp Hi Hfu. induction fuel as [|fuel IH]; intros i w Hsp Hi Hfu Hfr Hpres Hbl Hol; [lia|].
  cbn [mmap_loop]. unfold FILE_SPAN in Hol.
  assert (Hsize : i * ARCH_PAGE_SIZE < size ↔ i < n) by (rewrite Hn; apply ceil_index; lia).
  assert (Hsb : size ≤ n * ARCH_PAGE_SIZE).
  { rewrite Hn. unfold ARCH_PAGE_SIZE. pose proof (Z.div_mod (size + 4096 - 1) 4096). pose proof (Z.mod_pos_bound (size + 4096 - 1) 4096). lia. }
  rewrite (wrap_small 64 (off + size)) by (unfold ARCH_PAGE_SIZE in *; lia).
  destruct (Z.ltb_spec (off + i * ARCH_PAGE_SIZE) (off + size)) as [Hlt|Hge].
  - assert (Hin : i < n) by lia. mstep. destruct Hfl as (Hf1 & Hf2 & Hf3 & Hf4).
    rewrite (pagecache_get_spec _ _ _ _ (fo_wf _ _ (so_file _ _ _ Hsp))). mstep.
    assert (Hidx : (off + i * ARCH_PAGE_SIZE) / ARCH_PAGE_SIZE = off / ARCH_PAGE_SIZE + i) by (unfold ARCH_PAGE_SIZE; by rewrite Z.div_add).
    rewrite Hidx. destruct (Hpres i) as [p Hp]; [lia|]. rewrite Hp. cbn [default id].
    destruct (cache_page_phys w c _ p (so_file _ _ _ Hsp) Hp) as (Hvp & Hpe & Htk).
    destruct (space_inv w c _ Hsp) as [Hinv Hown].
    destruct (Hhold _ _ Hinv Hvp Htk) as [a0 Ha0]. rewrite Ha0. mstep.
    destruct (pg_hold_ok _ _ _ Hinv Ha0) as (Hi0 & Htk0 & Hf0).
    replace (off + i * ARCH_PAGE_SIZE - off) with (i * ARCH_PAGE_SIZE) by lia.
    rewrite (wrap_small 64 (base + _)) by (unfold ARCH_PAGE_SIZE in *; lia).
    destruct (com_mm_vmm_map_spec g (cache (fsdata w)) a0 x (base + i * ARCH_PAGE_SIZE) (ARCH_HHDM_TO_PHYS p) ARCH_PAGE_SIZE
      (Z.lor (Z.lor vf COM_MM_VMM_FLAGS_PRIVATE) 0) mf 1) as (h1 & a1 & -> & Ht1 & Hi1 & Ho1 & Hfr1 & Hf1' & Hg1); try done.
    { by apply (so_tree _ _ _ Hsp). }
    { intros q Hq Hs'. apply Htk0. by apply Hown. }
    { rewrite Hf0. lia. }
    { unfold ARCH_PAGE_SIZE in *. by rewrite Z.mod_add. }
    { unfold ARCH_PAGE_SIZE in *. lia. }
    { unfold ARCH_PAGE_SIZE in *. lia. }
    { unfold map_source. rewrite Hf3. destruct Hvp as [? ?]. unfold ARCH_PAGE_SIZE in *. split; [done|]. 
      pose proof (Z.div_mod (ARCH_HHDM_TO_PHYS p) 4096). lia. }
    mstep. rewrite (wrap_small 64) by (unfold ARCH_PAGE_SIZE in *; lia).
    assert (Hfr01 : mmu_frame (cache (fsdata w)) (tpages (fsdata w)) (pagetable x) h1 a1).
    { eapply mmu_frame_trans; [|exact Hfr1]. split; [done|]. intros r. apply Htk0. }
    destruct (space_map w c (pagetable x) h1 a1 Hsp Hfr01 Ht1 Hi1 Ho1) as [Hsp1 Hlk1].
    destruct (IH (i + 1) (set_cache w h1 a1) Hsp1) as (h & a & Hrun & Hsp2 & Hfr2 & Hlk2 & Hf2' & Hg2); [lia|lia| | |done|done|].
    { cbn [set_cache fsdata tpages]. lia. }
    { intros j Hj. cbn [set_cache fsdata cache]. rewrite Hlk1. apply Hpres. lia. }
    exists h, a. replace (off + i * ARCH_PAGE_SIZE + ARCH_PAGE_SIZE) with (off + (i + 1) * ARCH_PAGE_SIZE) by lia.
    rewrite set_cache_twice in Hrun, Hsp2. cbn [set_cache fsdata cache tpages] in *.
    split; [exact Hrun|]. split; [done|]. split; [by eapply mmu_frame_trans|]. split; [intros j; by rewrite Hlk2|].
    split; [lia|]. intros v Hv. rewrite Hg2, Hg1 by done.
    destruct (decide (base + (i + 1) * ARCH_PAGE_SIZE ≤ v < base + n * ARCH_PAGE_SIZE)).
    { rewrite decide_True by (unfold ARCH_PAGE_SIZE in *; lia). by rewrite Hlk1. }
    destruct (decide (base + i * ARCH_PAGE_SIZE ≤ v < base + i * ARCH_PAGE_SIZE + 1 * ARCH_PAGE_SIZE)) as [Hr|Hr].
    + rewrite decide_True by (unfold ARCH_PAGE_SIZE in *; lia).
      assert (He : v - (base + i * ARCH_PAGE_SIZE) = v mod ARCH_PAGE_SIZE).
      { unfold ARCH_PAGE_SIZE in *. pose proof (Z.div_mod base 4096). apply (Z.mod_unique_pos _ _ (base / 4096 + i)); lia. }
      assert ((off + (v - base)) / ARCH_PAGE_SIZE = off / ARCH_PAGE_SIZE + i) as ->.
      { unfold ARCH_PAGE_SIZE in *. pose proof (Z.div_mod off 4096). symmetry. apply (Z.div_unique_pos _ _ _ (v - (base + i * 4096))); lia. }
      rewrite Hp. unfold map_target. rewrite Hf3. by rewrite He.
    + rewrite decide_False by (unfold ARCH_PAGE_SIZE in *; lia). done.
  - assert (i = n) as -> by lia. exists (cache (fsdata w)), (tpages (fsdata w)). rewrite set_cache_same.
    do 4 (split; [done|]). split; [lia|]. intros v _. rewrite decide_False by lia. done.
Qed.
End filemap_lemmas.

(** ** Properties *)

Section filemap_properties.
Context {S A : Type} `{!SlabAlloc S} `{VmMem A} `{!LibcConsts}.
Variable g : vmm_globals.
Variable uninit : Z.
Implicit Types (w : world S (tmpfs A)) (c : kradixtree).

(** The byte a process with page table [pt] sees at an address. *)
Definition user_byte w (pt v : Z) : option Z :=
  match arch_mmu_get_physical (cache (fsdata w)) pt v with
  | Ok (Some p) => Some (umem w (ARCH_PHYS_TO_HHDM p))
  | _ => None
  end.

Lemma hhdm_offset q x : valid_phys q → 0 ≤ x < ARCH_PAGE_SIZE → ARCH_PHYS_TO_HHDM (q + x) = ARCH_PHYS_TO_HHDM q + x.
Proof.
  intros Hq Hx. rewrite (valid_phys_hhdm q) by done. destruct Hq as [Hq _].
  unfold ARCH_PHYS_TO_HHDM, ARCH_PAGE_SIZE, HHDM_BASE in *. rewrite wrap_small; lia.
Qed.

(** Aligned offset and address: the byte of the file and the byte of its page. *)
Lemma aligned_file_byte w c off base v p :
  file_ok w c → off mod ARCH_PAGE_SIZE = 0 → base mod ARCH_PAGE_SIZE = 0 →
  rx_lookup c (cache (fsdata w)) ((off + (v - base)) / ARCH_PAGE_SIZE) = Some p →
  umem w (ARCH_PHYS_TO_HHDM (ARCH_HHDM_TO_PHYS p + v mod ARCH_PAGE_SIZE)) = file_byte w c (off + (v - base)).
Proof.
  intros Hf Ho Hb Hp. destruct (cache_page_phys w c _ p Hf Hp) as (Hv & He & _).
  rewrite hhdm_offset by (done || (apply Z.mod_pos_bound; unfold ARCH_PAGE_SIZE; lia)). rewrite <- He.
  unfold file_byte, byte_at. rewrite Hp. do 2 f_equal.
  unfold ARCH_PAGE_SIZE in *. rewrite Z.add_mod, Ho, Z.add_0_l, Zmod_mod, Zminus_mod, Hb, Z.sub_0_r, Zmod_mod by done. done.
Qed.

Lemma tmpfs_mmap_spec w node vn t fsize c x base off size n vf mf :
  vnodes w !! node = Some vn → tnodes (fsdata w) !! extra vn = Some t → tn_data t = TFile fsize c →
  space_ok w c (pagetable x) → holdable → file_map_flags vf mf →
  base mod ARCH_PAGE_SIZE = 0 → off mod ARCH_PAGE_SIZE = 0 → 0 ≤ base → 0 ≤ off → 0 ≤ size →
  n = (size + ARCH_PAGE_SIZE - 1) / ARCH_PAGE_SIZE → (3 * Z.to_nat n ≤ pa_free (tpages (fsdata w)))%nat →
  (∀ j, 0 ≤ j < n → is_Some (rx_lookup c (cache (fsdata w)) (off / ARCH_PAGE_SIZE + j))) →
  base + n * ARCH_PAGE_SIZE ≤ 2 ^ 47 → off + n * ARCH_PAGE_SIZE ≤ FILE_SPAN →
  ∃ h a, com_fs_tmpfs_mmap g uninit node (Ctx x) base size vf mf off w = Ok (E0, Some base, Ctx x, set_cache w h a) ∧
    space_ok (set_cache w h a) c (pagetable x) ∧ mmu_frame (cache (fsdata w)) (tpages (fsdata w)) (pagetable x) h a ∧
    (∀ j, rx_lookup c h j = rx_lookup c (cache (fsdata w)) j) ∧
    (pa_free (tpages (fsdata w)) ≤ pa_free a + 3 * Z.to_nat n)%nat ∧
    ∀ v, 0 ≤ v < 2 ^ 48 → arch_mmu_get_physical h (pagetable x) v =
      if decide (base ≤ v < base + n * ARCH_PAGE_SIZE)
      then match rx_lookup c (cache (fsdata w)) ((off + (v - base)) / ARCH_PAGE_SIZE) with
           | Some p => Ok (Some (ARCH_HHDM_TO_PHYS p + v mod ARCH_PAGE_SIZE))
           | None => Ok None
           end
      else arch_mmu_get_physical (cache (fsdata w)) (pagetable x) v.
Proof.
  intros Hv Ht Hd Hsp Hh Hfl Hbm Hom Hb Ho Hs Hn Hfr Hpres Hbl Hol. unfold com_fs_tmpfs_mmap.
  rewrite Hv. mstep. rewrite Ht. mstep. rewrite Hd. cbn [as_file]. mstep.
  destruct (Hfl) as (_ & _ & _ & ->). mstep.
  assert (Hn0 : 0 ≤ n) by (rewrite Hn; apply Z.div_pos; unfold ARCH_PAGE_SIZE; lia).
  destruct (mmap_loop_spec g uninit (mmap_fuel size) 0 w c x base off size n vf mf) as (h & a & Hrun & Hrest); try done.
  { unfold mmap_fuel. rewrite Hn, Z.sub_0_r. unfold ARCH_PAGE_SIZE.
    replace (size + 4096 - 1) with (size - 1 + 1 * 4096) by lia. rewrite Z.div_add by done.
    assert (0 ≤ size / 4096) by (apply Z.div_pos; lia). pose proof (Z.div_mod size 4096). pose proof (Z.div_mod (size - 1) 4096).
    pose proof (Z.mod_pos_bound size 4096). pose proof (Z.mod_pos_bound (size - 1) 4096). lia. }
  { by rewrite Z.sub_0_r. }
  rewrite Z.mul_0_l, Z.add_0_r in Hrun. rewrite Hrun. mstep. rewrite Hom, Z.add_0_r, wrap_small by (unfold ARCH_PAGE_SIZE in *; lia).
  exists h, a. split; [done|]. rewrite Z.mul_0_l, Z.add_0_r, Z.sub_0_r in Hrest. exact Hrest.
Qed.

(** Page tables that share no page with those that changed translate as
    before. *)
Lemma other_tables w pt pt' h a v :
  mmu_frame (cache (fsdata w)) (tpages (fsdata w)) pt h a → mtree (cache (fsdata w)) pt' →
  (∀ r, tree_page next (cache (fsdata w)) (ARCH_PHYS_TO_HHDM pt') 3 r → ¬ tree_page next (cache (fsdata w)) (ARCH_PHYS_TO_HHDM pt) 3 r) →
  user_byte (set_cache w h a) pt' v = user_byte w pt' v.
Proof.
  intros [Hfr _] Ht Hap. destruct (tree_unchanged next (cache (fsdata w)) h (ARCH_PHYS_TO_HHDM pt') 3 Ht) as (_ & Ht' & _ & Hwd).
  { intros r Hr. apply Hfr; [|by apply Hap]. destruct Hr as (π & Hle & Hr). destruct Ht as [Hdom _]. by apply (Hdom π). }
  unfold user_byte. cbn [set_cache fsdata cache umem]. rewrite !get_physical_pte by done. unfold pte. by rewrite Hwd.
Qed.


Context {mman : MmanConsts}.

(** Every mapping of a file is made private and read-only with the mark of a
    page to copy, whatever the caller asked for: also a writable one with
    [MAP_SHARED]. *)
Theorem shared_file_mapping_is_private flags prot (present : bool) :
  let vf := Z.lor (Z.lor (make_vmm_flags flags prot) COM_MM_VMM_FLAGS_ANONYMOUS) COM_MM_VMM_FLAGS_FILE in
  let vf' := if has COM_MM_VMM_FLAGS_NOHINT vf then without vf COM_MM_VMM_FLAGS_NOHINT else vf in
  let f := (map_flags (Z.lor (Z.lor vf' COM_MM_VMM_FLAGS_PRIVATE) (if present then 0 else COM_MM_VMM_FLAGS_ALLOCATE))
    (make_mmu_flags flags prot)).2 in
  has PROT_WRITE prot = true →
  has ARCH_MMU_FLAGS_WRITE f = false ∧ has ARCH_MMU_EXTRA_FLAGS_PRIVATE f = true.
Proof.
  unfold make_vmm_flags, make_mmu_flags. intros Hw. rewrite Hw.
  destruct present, (has MAP_FIXED flags), (has MAP_ANONYMOUS flags), (has MAP_SHARED flags), (has MAP_PRIVATE flags),
    (has PROT_READ prot); vm_compute; done.
Qed.

Lemma make_mmu_flags_ok vf flags prot : Mmu.flags_ok (map_flags vf (make_mmu_flags flags prot)).2.
Proof.
  unfold map_flags, make_mmu_flags.
  destruct (has COM_MM_VMM_FLAGS_SHARED vf), (has COM_MM_VMM_FLAGS_ALLOCATE vf), (has PROT_WRITE prot), (has PROT_READ prot);
    cbn [fst snd]; destruct (has COM_MM_VMM_FLAGS_PRIVATE _); vm_compute; done.
Qed.

(** C12: Anonymous memory comes from the end of the address ranges handed out
    so far: the call returns the start of a fresh range, moves the counter past
    it, and every page of the range reads as the zero page; the process sees
    no other address change. *)
Theorem mmap_anonymous_zeroed s p x hint size flags prot off w n :
  has MAP_FIXED flags = false → has MAP_ANONYMOUS flags = true →
  mtree (cache (fsdata w)) (pagetable x) → pa_inv (tpages (fsdata w)) → heap_owned (cache (fsdata w)) (tpages (fsdata w)) →
  RootContext_pagetable g ≠ pagetable x → valid_phys (ZeroPage g) →
  (∀ a, pa_inv a → ∃ a', pg_hold a (ZeroPage g) = Ok a') →
  (∀ i, 0 ≤ i < ARCH_PAGE_SIZE → umem w (ARCH_PHYS_TO_HHDM (ZeroPage g) + i) = 0) →
  0 ≤ size < 2 ^ 63 → n = (size + ARCH_PAGE_SIZE - 1) / ARCH_PAGE_SIZE → (3 * Z.to_nat n ≤ pa_free (tpages (fsdata w)))%nat →
  0 ≤ anon_pages x → CONFIG_VMM_ANON_START + (anon_pages x + n) * ARCH_PAGE_SIZE ≤ 2 ^ 47 →
  let base := CONFIG_VMM_ANON_START + anon_pages x * ARCH_PAGE_SIZE in
  ∃ w', com_sys_syscall_mmap g uninit s p x hint size flags prot (-1) off w =
      Ok (COM_SYS_SYSCALL_OK base, Ctx (mkCtx (pagetable x) (anon_pages x + n)), s, w') ∧
    mtree (cache (fsdata w')) (pagetable x) ∧
    (∀ v, base ≤ v < base + n * ARCH_PAGE_SIZE → user_byte w' (pagetable x) v = Some 0) ∧
    (∀ v, 0 ≤ v < 2 ^ 48 → ¬ base ≤ v < base + n * ARCH_PAGE_SIZE → user_byte w' (pagetable x) v = user_byte w (pagetable x) v).
Proof.
  intros Hf Ha Ht Hinv Hown Hroot Hz Hzh Hzero Hs Hn Hfr Han Hend base.
  assert (Hn0 : 0 ≤ n) by (rewrite Hn; apply Z.div_pos; unfold ARCH_PAGE_SIZE; lia).
  unfold com_sys_syscall_mmap. destruct (negb (-1 =? -1)) eqn:He; [done|]. set (vf := Z.lor _ COM_MM_VMM_FLAGS_ALLOCATE).
  unfold com_mm_vmm_map, vmm_ensure_context.
  assert (Hvf : has COM_MM_VMM_FLAGS_ALLOCATE vf = true ∧ has COM_MM_VMM_FLAGS_NOHINT (Z.lor vf COM_MM_VMM_FLAGS_PRIVATE) = true ∧
    has COM_MM_VMM_FLAGS_ANONYMOUS (Z.lor vf COM_MM_VMM_FLAGS_PRIVATE) = true ∧
    has COM_MM_VMM_FLAGS_ALLOCATE (Z.lor vf COM_MM_VMM_FLAGS_PRIVATE) = true).
  { unfold vf, make_vmm_flags. rewrite Hf, Ha. destruct (has MAP_SHARED flags), (has MAP_PRIVATE flags); vm_compute; done. }
  pose proof (make_mmu_flags_ok vf flags prot) as Hfl.
  destruct Hvf as (V1 & V2 & V3 & V4). destruct (map_flags vf (make_mmu_flags flags prot)) as [vf' fl] eqn:Hmf.
  assert (vf' = Z.lor vf COM_MM_VMM_FLAGS_PRIVATE) as ->.
  { revert Hmf. unfold map_flags. rewrite V1. by intros [= <- _]. }
  cbn [snd] in Hfl. rewrite V1. change (0 mod ARCH_PAGE_SIZE) with 0. change (page_floor 0) with 0.
  rewrite pages_spanned_eq, <- Hn by done. mstep. mstep. rewrite V2, V3.
  destruct (Z.eqb_spec (RootContext_pagetable g) (pagetable x)); [done|]. cbn [negb]. mstep. cbn [ctx_pagetable pagetable].
  rewrite (wrap_small 64 (anon_pages x * _ + _)) by (unfold CONFIG_VMM_ANON_START, ARCH_PAGE_SIZE in *; lia).
  rewrite (wrap_small 64 (anon_pages x + n)) by (unfold CONFIG_VMM_ANON_START, ARCH_PAGE_SIZE in *; lia).
  replace (anon_pages x * ARCH_PAGE_SIZE + CONFIG_VMM_ANON_START) with base by (unfold base; lia).
  assert (Hb : 0 ≤ base) by (unfold base, CONFIG_VMM_ANON_START, ARCH_PAGE_SIZE; lia).
  destruct (map_pages_spec g (Z.to_nat n) 0 (cache (fsdata w)) (tpages (fsdata w)) (pagetable x) base 0 (Z.lor vf COM_MM_VMM_FLAGS_PRIVATE) fl)
    as (h & a & -> & Ht' & _ & _ & _ & _ & Hg); try done.
  { unfold base, CONFIG_VMM_ANON_START, ARCH_PAGE_SIZE. by rewrite Z.mod_add. }
  { rewrite Z2Nat.id by done. unfold base, ARCH_PAGE_SIZE in *. lia. }
  { unfold map_source. by rewrite V4. }
  mstep. rewrite Z.add_0_r, (wrap_small 64 base) by (unfold base, CONFIG_VMM_ANON_START, ARCH_PAGE_SIZE in *; lia).
  eexists. split; [done|]. split; [done|]. rewrite Z2Nat.id, Z.mul_0_l, Z.add_0_r, Z.add_0_l in Hg by done. split.
  - intros v Hv. unfold user_byte. cbn [set_cache fsdata cache umem].
    rewrite Hg, decide_True by (unfold base, CONFIG_VMM_ANON_START, ARCH_PAGE_SIZE in *; lia). unfold map_target. rewrite V4.
    assert (0 ≤ v mod ARCH_PAGE_SIZE < ARCH_PAGE_SIZE) by (apply Z.mod_pos_bound; done).
    by rewrite hhdm_offset, Hzero.
  - intros v Hv Hr. unfold user_byte. cbn [set_cache fsdata cache umem]. by rewrite Hg, decide_False.
Qed.

(** Asking for memory of no file without [MAP_ANONYMOUS] and without
    [MAP_FIXED] is answered with a panic, not with an error. *)
Theorem mmap_without_anonymous_panics s p x hint size flags prot off w :
  has MAP_FIXED flags = false → has MAP_ANONYMOUS flags = false →
  com_sys_syscall_mmap g uninit s p x hint size flags prot (-1) off w = Panic.
Proof.
  intros Hf Ha. unfold com_sys_syscall_mmap, make_vmm_flags. rewrite Hf, Ha. cbn [negb Z.eqb].
  destruct (-1 =? -1) eqn:He; [|done]. cbn [negb]. set (vf := Z.lor _ COM_MM_VMM_FLAGS_ALLOCATE).
  unfold com_mm_vmm_map, vmm_ensure_context.
  assert (Hvf : has COM_MM_VMM_FLAGS_ALLOCATE vf = true ∧ has COM_MM_VMM_FLAGS_NOHINT (Z.lor vf COM_MM_VMM_FLAGS_PRIVATE) = true ∧
    has COM_MM_VMM_FLAGS_ANONYMOUS (Z.lor vf COM_MM_VMM_FLAGS_PRIVATE) = false ∧
    has COM_MM_VMM_FLAGS_PHYSICAL (Z.lor vf COM_MM_VMM_FLAGS_PRIVATE) = false).
  { unfold vf. destruct (has MAP_SHARED flags), (has MAP_PRIVATE flags); vm_compute; done. }
  destruct Hvf as (H1' & H2' & H3' & H4'). unfold map_flags. rewrite H1', H2', H3', H4'. mstep. mstep. done.
Qed.

(** The end of the range is computed modulo 2^64: a length that wraps around
    passes the check, and pages of the kernel's half are unmapped. *)
Theorem munmap_wraps x addr len w :
  addr mod ARCH_PAGE_SIZE = 0 → 0 < addr ≤ ARCH_MMU_KERNELSPACE_START → 2 ^ 64 - addr ≤ len < 2 ^ 64 →
  com_sys_syscall_munmap g x addr len w =
    '(h, a) ← com_mm_vmm_unmap g (cache (fsdata w)) (tpages (fsdata w)) (Ctx x) addr len;
    Ok (COM_SYS_SYSCALL_OK 0, set_cache w h a).
Proof.
  intros Hm Ha Hl. unfold com_sys_syscall_munmap. rewrite Hm.
  assert (u64 (addr + len) = addr + len - 2 ^ 64) as ->.
  { unfold wrap. symmetry. apply (Z.mod_unique_pos _ _ 1); unfold ARCH_MMU_KERNELSPACE_START in *; lia. }
  destruct (Z.ltb_spec ARCH_MMU_KERNELSPACE_START addr); [lia|]. destruct (Z.eqb_spec len 0); [unfold ARCH_MMU_KERNELSPACE_START in *; lia|].
  destruct (Z.ltb_spec ARCH_MMU_KERNELSPACE_START (addr + len - 2 ^ 64)); [unfold ARCH_MMU_KERNELSPACE_START in *; lia|]. done.
Qed.
End filemap_properties.

(** ** A concrete kernel

    The file of [Tmpfs.demo_w2] with one page in its cache, and an empty page
    table; the flags as Linux has them. *)
#[local] Existing Instance demo_libc.
#[local] Instance demo_mman : MmanConsts := {
  MAP_SHARED := 1; MAP_PRIVATE := 2; MAP_FIXED := 16; MAP_ANONYMOUS := 32; PROT_READ := 1; PROT_WRITE := 2 }.

Definition file_cache (w : demo_world) (node : Z) : kradixtree :=
  match vnodes w !! node with
  | Some v => match tnodes (fsdata w) !! extra v with
              | Some (Tnode _ _ _ _ (TFile _ c)) => c
              | _ => Radixtree 0 0
              end
  | None => Radixtree 0 0
  end.
Definition demo_fc : kradixtree := file_cache demo_w2 demo_file.

(** A page of the file with some text, then a fresh table. *)
Definition demo_w3 : demo_world :=
  match cache_page demo_fc 0 demo_w2 with
  | Ok (p, w) => set_umem w (wr_bytes (umem w) p [72; 105])
  | _ => demo_w2
  end.
Definition demo_table : Z := match pa_alloc (tpages (fsdata demo_w3)) with Ok (p, _) => p | _ => 0 end.
Definition demo_w4 : demo_world :=
  match pa_alloc (tpages (fsdata demo_w3)) with
  | Ok (p, a) => set_cache demo_w3 (<[ARCH_PHYS_TO_HHDM p := ∅]> (cache (fsdata demo_w3))) a
  | _ => demo_w3
  end.
Definition demo_space_ctx : com_vmm_context := mkCtx demo_table 0.

Lemma bump_holdable : holdable (A := bump).
Proof. intros a p _ _ _. by exists a. Qed.

Lemma bump_room (a : bump) : 0 ≤ bump_next a ≤ 100000 → (200 ≤ pa_free a)%nat.
Proof. destruct a as [b]. apply demo_room. Qed.

Lemma demo_w4_ok : ∃ vn t fsize,
  vnodes demo_w4 !! demo_file = Some vn ∧ ops vn = TmpfsNodeOps ∧ type vn = E_COM_VNODE_TYPE_FILE ∧
  tnodes (fsdata demo_w4) !! extra vn = Some t ∧
  tn_data t = TFile fsize demo_fc ∧ space_ok demo_w4 demo_fc demo_table ∧
  is_Some (rx_lookup demo_fc (cache (fsdata demo_w4)) 0).
Proof.
  destruct demo_w2_file as (fs & tn' & t & c & Hv & Ht & Hd & Hf).
  assert (Hc : demo_fc = c).
  { unfold demo_fc, file_cache. rewrite Hv. cbn [extra]. rewrite Ht. destruct t. cbn in Hd. by rewrite Hd. }
  destruct (cache_page_spec demo_w2 c 0 Hf) as (p & w' & Hcp & Hf' & Hlk & _ & _ & _ & (Hvn & _ & _ & Htn & _) & _); [lia| |].
  { eapply Nat.le_trans; [|exact demo_w2_pages]. unfold io_fuel, ARCH_PAGE_SIZE. simpl. lia. }
  assert (Hw3 : demo_w3 = set_umem w' (wr_bytes (umem w') p [72; 105])) by (unfold demo_w3; by rewrite Hc, Hcp).
  assert (Hf3 : file_ok demo_w3 c) by (rewrite Hw3; by destruct Hf'; split).
  destruct (pa_alloc_total (tpages (fsdata demo_w3))) as (q & a & Hal & _).
  { by destruct (fo_wf _ _ Hf3) as (_ & _ & ? & _). }
  { eapply Nat.lt_le_trans; [|apply bump_room; vm_compute; split; discriminate]. lia. }
  destruct (space_fresh_table demo_w3 c q a Hf3 Hal) as [Hsp _].
  assert (Hw4 : demo_w4 = set_cache demo_w3 (<[ARCH_PHYS_TO_HHDM q := ∅]> (cache (fsdata demo_w3))) a) by (unfold demo_w4; by rewrite Hal).
  assert (Hq : demo_table = q) by (unfold demo_table; by rewrite Hal).
  eexists _, t, 0. rewrite Hq, Hc, Hw4. cbn [set_cache vnodes fsdata tnodes cache].
  split; [rewrite Hw3; cbn [set_umem vnodes]; rewrite Hvn; exact Hv|]. split; [done|]. split; [done|].
  split; [rewrite Hw3; cbn [set_umem fsdata tnodes extra]; rewrite Htn; exact Ht|]. split; [done|]. split; [exact Hsp|].
  assert (Hlk3 : rx_lookup c (cache (fsdata demo_w3)) 0 = Some p) by (rewrite Hw3; exact Hlk).
  pose proof (fo_wf _ _ Hf3) as (_ & Hrt & Hinv & Hown). rewrite (fo_layers _ _ Hf3) in Hrt. cbn [Nat.sub] in Hrt.
  destruct (pa_alloc_ok _ _ _ Hinv Hal) as (_ & Hvq & Hnt & _).
  exists p. rewrite <- Hlk3, !rx_lookup_word.
  destruct (tree_unchanged rx_next (cache (fsdata demo_w3)) (<[ARCH_PHYS_TO_HHDM q := ∅]> (cache (fsdata demo_w3))) (back c) 3 Hrt) as (_ & _ & _ & Hwd).
  { intros r (π & Hle & Hr). apply lookup_insert_ne. intros <-. apply Hnt, Hown; [exact Hvq|].
    destruct Hrt as [Hdom _]. by apply (Hdom π). }
  rewrite Hwd; [done|]. by rewrite length_rx_path, (fo_layers _ _ Hf3).
Qed.


(** A process without files: the kernel's table at page 3, the process's at
    page 1, the zero page at page 2. *)
Definition small_tables : pheap := {[ARCH_PHYS_TO_HHDM 0x1000 := ∅; ARCH_PHYS_TO_HHDM 0x3000 := ∅]}.
Definition small_world : demo_world :=
  World ∅ ∅ (λ _, 0) (slab_init (Bump 5)) (Tmpfs ∅ ∅ small_tables (Bump 5)).
Definition small_glob : vmm_globals := mkGlob 0x3000 0x2000 (Some (mkCtx 0x1000 0)).
Definition small_ctx : com_vmm_context := mkCtx 0x1000 0.
Definition no_files : fdstate := Fdstate ∅ [] [].

Lemma small_tree : mtree (cache (fsdata small_world)) 0x1000.
Proof. apply ptree_single; [reflexivity|]. vm_compute. reflexivity. Qed.

Lemma small_owned : heap_owned (cache (fsdata small_world)) (tpages (fsdata small_world)).
Proof.
  intros p Hp [pg Hs]. split; [exact Hp|]. cbn in *. unfold small_tables in Hs.
  rewrite lookup_insert_Some, lookup_singleton_Some in Hs. unfold ARCH_PAGE_SIZE.
  assert (V1 : valid_phys 0x1000) by (split; [lia|reflexivity]). assert (V3 : valid_phys 0x3000) by (split; [lia|reflexivity]).
  destruct Hs as [[Hs _]|(_ & Hs & _)]; apply hhdm_inj in Hs; try done; lia.
Qed.

Lemma mmap_anonymous_zeroed_witness :
  ∃ w', com_sys_syscall_mmap small_glob 0 no_files 0 small_ctx 0 8192 34 3 (-1) 0 small_world =
      Ok (COM_SYS_SYSCALL_OK 0x100000000, Ctx (mkCtx 0x1000 2), no_files, w') ∧
    user_byte w' 0x1000 0x100001fff = Some 0.
Proof.
  destruct (mmap_anonymous_zeroed small_glob 0 no_files 0 small_ctx 0 8192 34 3 0 small_world 2) as (w' & Hrun & _ & Hz & _).
  - reflexivity.
  - reflexivity.
  - exact small_tree.
  - cbn. lia.
  - exact small_owned.
  - discriminate.
  - split; [cbn; lia|reflexivity].
  - intros a _. by exists a.
  - intros i Hi. reflexivity.
  - lia.
  - reflexivity.
  - eapply Nat.le_trans; [|apply bump_room; vm_compute; split; discriminate]. lia.
  - cbn. lia.
  - vm_compute. discriminate.
  - exists w'. split; [exact Hrun|]. apply (Hz 0x100001fff). cbn [anon_pages small_ctx]. unfold CONFIG_VMM_ANON_START, ARCH_PAGE_SIZE. lia.
Defined.

Lemma shared_file_mapping_is_private_witness :
  has PROT_WRITE 3 = true ∧
  has ARCH_MMU_FLAGS_WRITE (map_flags 0x129 7).2 = false ∧ has ARCH_MMU_EXTRA_FLAGS_PRIVATE (map_flags 0x129 7).2 = true.
Proof. split; [reflexivity|]. apply (shared_file_mapping_is_private (mman := demo_mman) 1 3 true). reflexivity. Defined.

Lemma mmap_without_anonymous_panics_witness :
  com_sys_syscall_mmap small_glob 0 no_files 0 small_ctx 0 4096 2 3 (-1) 0 small_world = Panic.
Proof. apply (mmap_without_anonymous_panics small_glob 0 no_files 0 small_ctx 0 4096 2 3 0 small_world); reflexivity. Defined.

Lemma munmap_wraps_witness :
  com_sys_syscall_munmap small_glob small_ctx 0x1000 (2 ^ 64 - 0x1000) small_world =
    '(h, a) ← com_mm_vmm_unmap small_glob (cache (fsdata small_world)) (tpages (fsdata small_world)) (Ctx small_ctx) 0x1000 (2 ^ 64 - 0x1000);
    Ok (COM_SYS_SYSCALL_OK 0, set_cache small_world h a).
Proof.
  apply (munmap_wraps small_glob small_ctx 0x1000 (2 ^ 64 - 0x1000) small_world).
  - reflexivity.
  - unfold ARCH_MMU_KERNELSPACE_START. lia.
  - lia.
Defined.

(** A process maps a page of its own over an address of the kernel's half
    with [MAP_FIXED]: the address is not checked. *)
Theorem mmap_fixed_maps_kernel :
  ∃ w', com_sys_syscall_mmap small_glob 0 no_files 0 small_ctx 0xffffffff80000000 4096 50 3 (-1) 0 small_world =
      Ok (COM_SYS_SYSCALL_OK 0xffffffff80000000, Ctx small_ctx, no_files, w') ∧
    arch_mmu_get_physical (cache (fsdata small_world)) 0x1000 0xffffffff80000000 = Ok None ∧
    arch_mmu_get_physical (cache (fsdata w')) 0x1000 0xffffffff80000000 = Ok (Some 0x2000).
Proof.
  eexists. split; [vm_compute; reflexivity|]. split; [vm_compute; reflexivity|]. vm_compute. reflexivity.
Qed.

(** Repairing the first access of a process to an address of a mapping. *)
Definition touch (h : pheap) (a : bump) (pt v : Z) : res (pheap * bump) :=
  f ← x86_64_mmu_fault_isr h pt v;
  r ← com_mm_vmm_handle_fault h a (λ _, 0) (Some (true, Some pt)) true f;
  match r with Repaired h a _ => Ok (h, a) | SendSIGSEGV => Panic end.

(** Mapping a shared anonymous page, duplicating the address space, then
    touching the page in the parent and in the child: where each finds it. *)
Definition fork_then_touch : res (option Z * option Z) :=
  '(_, _, _, w) ← com_sys_syscall_mmap small_glob 0 no_files 0 small_ctx 0 4096 33 3 (-1) 0 small_world;
  '(child, h, a) ← arch_mmu_duplicate_table (ARCH_PHYS_TO_HHDM 0x3000) (cache (fsdata w)) (tpages (fsdata w)) 0x1000;
  child ← deref child;
  '(h, a) ← touch h a 0x1000 0x100000000;
  '(h, a) ← touch h a child 0x100000000;
  p ← arch_mmu_get_physical h 0x1000 0x100000000;
  q ← arch_mmu_get_physical h child 0x100000000;
  Ok (p, q).

(** Shared anonymous memory is not shared by a fork that comes before the
    first access: parent and child then get a page each. *)
Theorem shared_anonymous_splits : ∃ p q, fork_then_touch = Ok (Some p, Some q) ∧ p ≠ q.
Proof. exists 0xc000, 0xd000. split; [vm_compute; reflexivity|discriminate]. Qed.
