(* ===== verification/Elf.v ===== *)
(** * The program loader, src/com/sys/elf.c: headers and segments

    A program file is read through the file system ([Vfs], [Tmpfs]) into
    buffers of the kernel and mapped ([Filemap], [Vmm]) into a new address
    space. The structures the code reads the file into are at addresses of
    memory, so that a read that is too long or too short shows. The initial
    stack and the start of a program are in [Elfstack]. *)
From S2P Require Import Prelude Mem PageTree Pmm Mmu Vmm Radixtree Slab Vfs Tmpfs Filemap.

(** The conversion of a 64-bit value to [ssize_t]. *)
Definition s64 (z : Z) : Z := if u64 z <? 2 ^ 63 then u64 z else u64 z - 2 ^ 64.

(** [struct elf_header], packed, and [struct elf_phdr]: the fields used. *)
Definition sizeof_elf_header : Z := 64.
Definition sizeof_elf_phdr : Z := 56.
Record elf_header : Type := ElfHeader { eh_entry : Z; phdrs_off : Z; phent_num : Z }.
Record elf_phdr : Type := ElfPhdr {
  ph_type : Z; ph_off : Z; virt_addr : Z; file_sz : Z; ph_mem_sz : Z }.

Definition get_elf_header (m : mem) (a : Z) : elf_header :=
  ElfHeader (rd_uint 8 m (a + 24)) (rd_uint 8 m (a + 32)) (rd_uint 2 m (a + 56)).
Definition get_elf_phdr (m : mem) (a : Z) : elf_phdr :=
  ElfPhdr (rd_uint 4 m a) (rd_uint 8 m (a + 8)) (rd_uint 8 m (a + 16)) (rd_uint 8 m (a + 32)) (rd_uint 8 m (a + 40)).

Definition PT_LOAD : Z := 1.
Definition PT_INTERP : Z := 3.
Definition PT_PHDR : Z := 6.
Definition elf_magic : list Z := [0x7f; 69; 76; 70].

(** [com_elf_data_t]: the offsets of its fields. *)
Definition ED_ENTRY : Z := 0.
Definition ED_PHDR : Z := 8.
Definition ED_PHENT_SZ : Z := 16.
Definition ED_PHENT_NUM : Z := 24.
Definition ED_INTERPRETER_PATH : Z := 32.
Definition sizeof_com_elf_data : Z := 96.

(** The addresses of the variables of a call of [com_sys_elf64_load]. *)
Record elf_frame : Type := ElfFrame { fr_signature : Z; fr_hdr : Z; fr_phdr : Z }.

Section elf.
Context {S A : Type} `{!SlabAlloc S} `{VmMem A} `{!LibcConsts} `{!VnodeTables S (tmpfs A)}.
Variable g : vmm_globals.
(** [O_RDONLY] of the C library, which tmpfs does not look at. *)
Variable O_RDONLY : Z.
Implicit Types (w : world S (tmpfs A)).

(** ** Segments *)

Definition load_flags : Z := Z.lor (Z.lor ARCH_MMU_FLAGS_USER ARCH_MMU_FLAGS_READ) ARCH_MMU_FLAGS_WRITE.

(** The variables of [load] that its parts change. *)
Record load_state : Type := LoadState { l_vaddr : Z; l_fsz : Z; l_mem_sz : Z; l_idx : Z; vaddr_mapped : bool }.

(** The part of the first page when the segment does not start at one. *)
Definition load_head (ph : elf_phdr) (elf_file : Z) (ctx : ctxarg) (l : load_state) w
    : res (load_state * world S (tmpfs A)) :=
  let vaddr := l_vaddr l in
  let fsz := l_fsz l in
  if negb (vaddr mod ARCH_PAGE_SIZE =? 0) && (0 <? fsz) then
    let misalign := vaddr mod ARCH_PAGE_SIZE in
    let rem := ARCH_PAGE_SIZE - misalign in
    let mapping_len := KMIN rem fsz in
    '(phys_page, a) ← vm_alloc (tpages (fsdata w));
    '(_, _, h, a) ← com_mm_vmm_map g (cache (fsdata w)) a ctx (vaddr - misalign) phys_page mapping_len
      COM_MM_VMM_FLAGS_NONE load_flags;
    '(_, _, w) ← com_fs_vfs_read (u64 (ARCH_PHYS_TO_HHDM phys_page + misalign)) mapping_len elf_file (ph_off ph) O_RDONLY
      (set_cache w h a);
    Ok (LoadState (u64 (vaddr + mapping_len)) (fsz - mapping_len) (l_mem_sz l - mapping_len) (l_idx l + mapping_len) true, w)
  else Ok (l, w).

(** The pages of the file. *)
Definition load_body (ph : elf_phdr) (elf_file : Z) (ctx : ctxarg) (l : load_state) w
    : res (load_state * world S (tmpfs A)) :=
  if l_fsz l <=? 0 then Ok (l, w)
  else
    '(_, _, _, w) ← com_fs_vfs_mmap elf_file ctx (l_vaddr l) (l_fsz l) COM_MM_VMM_FLAGS_PRIVATE load_flags
      (u64 (ph_off ph + l_idx l)) w;
    Ok (LoadState (u64 (l_vaddr l + l_fsz l)) (l_fsz l) (l_mem_sz l - l_fsz l) (l_idx l) true, w).

(** The rest of the page that holds the last byte of the file's part. *)
Definition load_zero (ctx : ctxarg) (l : load_state) w : res (load_state * world S (tmpfs A)) :=
  let vaddr := l_vaddr l in
  let mem_sz := l_mem_sz l in
  if negb (vaddr mod ARCH_PAGE_SIZE =? 0) && (0 <? mem_sz) then
    let misalign := vaddr mod ARCH_PAGE_SIZE in
    let rem := ARCH_PAGE_SIZE - misalign in
    if vaddr_mapped l then
      let zero_size := KMIN mem_sz rem in
      phys_page ← com_mm_vmm_get_physical g (cache (fsdata w)) ctx vaddr;
      let m := (kmemset (ARCH_PHYS_TO_HHDM (default 0 phys_page)) zero_size 0 (umem w)).2 in
      Ok (LoadState (u64 (vaddr + zero_size)) (l_fsz l) (mem_sz - zero_size) (l_idx l) (vaddr_mapped l), set_umem w m)
    else Ok (LoadState (vaddr - misalign) (l_fsz l) (mem_sz + misalign) (l_idx l) (vaddr_mapped l), w)
  else Ok (l, w).

(** What remains is zero pages. *)
Definition load_rest (ctx : ctxarg) (l : load_state) w : res (errno * world S (tmpfs A)) :=
  if l_mem_sz l <=? 0 then Ok (E0, w)
  else
    '(_, _, h, a) ← com_mm_vmm_map g (cache (fsdata w)) (tpages (fsdata w)) ctx (l_vaddr l) 0 (l_mem_sz l)
      COM_MM_VMM_FLAGS_ALLOCATE load_flags;
    Ok (E0, set_cache w h a).

Definition load (vaddr : Z) (ph : elf_phdr) (elf_file : Z) (ctx : ctxarg) w : res (errno * world S (tmpfs A)) :=
  let l := LoadState vaddr (s64 (file_sz ph)) (s64 (ph_mem_sz ph)) 0 false in
  '(l, w) ← load_head ph elf_file ctx l w;
  '(l, w) ← load_body ph elf_file ctx l w;
  '(l, w) ← load_zero ctx l w;
  load_rest ctx l w.

(** ** The program *)

(** One turn of the loop over the program headers: the result is an error
    that ends the call, or nothing. *)
Definition phdr_step (fr : elf_frame) (out elf_file virt_off phoff i : Z) (ctx : ctxarg) w
    : res (errno * world S (tmpfs A)) :=
  let w := set_umem w (kmemset (fr_phdr fr) sizeof_elf_phdr 0 (umem w)).2 in
  let off := u64 (phoff + i * sizeof_elf_phdr) in
  '(ret, _, w) ← com_fs_vfs_read (fr_phdr fr) sizeof_elf_phdr elf_file off O_RDONLY w;
  if negb (bool_decide (ret = E0)) then Ok (ret, w)
  else
    let ph := get_elf_phdr (umem w) (fr_phdr fr) in
    let vaddr := u64 (virt_off + virt_addr ph) in
    if ph_type ph =? PT_INTERP then
      '(ret, _, w) ← com_fs_vfs_read (out + ED_INTERPRETER_PATH) (file_sz ph) elf_file (ph_off ph) 0 w;
      Ok (ret, w)
    else if ph_type ph =? PT_PHDR then Ok (E0, set_umem w (wr_u64 (umem w) (out + ED_PHDR) vaddr))
    else if ph_type ph =? PT_LOAD then load vaddr ph elf_file ctx w
    else Ok (E0, w).

Fixpoint phdr_loop (todo : nat) (fr : elf_frame) (out elf_file virt_off phoff i : Z) (ctx : ctxarg) w
    : res (errno * world S (tmpfs A)) :=
  match todo with
  | O => Ok (E0, w)
  | Datatypes.S todo =>
      '(ret, w) ← phdr_step fr out elf_file virt_off phoff i ctx w;
      if bool_decide (ret = E0) then phdr_loop todo fr out elf_file virt_off phoff (i + 1) ctx w
      else Ok (ret, w)
  end.

(** From the look-up to the label [cleanup]. *)
Definition load_file (fr : elf_frame) (out elf_file virt_off : Z) (ctx : ctxarg) w : res (errno * world S (tmpfs A)) :=
  v ← deref (vnodes w !! elf_file);
  if negb (bool_decide (type v = E_COM_VNODE_TYPE_FILE)) then Ok (E0, w)
  else
    '(ret, signature_bytes, w) ← com_fs_vfs_read (fr_signature fr) 4 elf_file 0 0 w;
    if negb (bool_decide (ret = E0)) then Ok (ret, w)
    else if negb (default 0 signature_bytes =? 4) || negb (bool_decide (rd_bytes (umem w) (fr_signature fr) 4 = elf_magic))
    then Ok (EACCES, w)
    else
      let w := set_umem w (kmemset (fr_hdr fr) sizeof_elf_header 0 (umem w)).2 in
      '(ret, bytes_read, w) ← com_fs_vfs_read (fr_hdr fr) sizeof_elf_header elf_file 0 O_RDONLY w;
      if negb (bool_decide (ret = E0)) then Ok (ret, w)
      else
        KASSERT (sizeof_elf_header =? default 0 bytes_read);;
        let hdr := get_elf_header (umem w) (fr_hdr fr) in
        let m := wr_u64 (umem w) (out + ED_PHDR) 0 in
        let m := wr_u64 m (out + ED_PHENT_SZ) sizeof_elf_phdr in
        let m := wr_u64 m (out + ED_PHENT_NUM) (phent_num hdr) in
        '(ret, w) ← phdr_loop (Z.to_nat (phent_num hdr)) fr out elf_file virt_off (phdrs_off hdr) 0 ctx (set_umem w m);
        if bool_decide (ret = E0)
        then Ok (E0, set_umem w (wr_u64 (umem w) (out + ED_ENTRY) (u64 (virt_off + eh_entry hdr))))
        else Ok (ret, w).

Definition com_sys_elf64_load (fr : elf_frame) (out : Z) (exec_path : list Z) (root : Z) (cwd : option Z)
    (virt_off : Z) (ctx : ctxarg) w : res (errno * world S (tmpfs A)) :=
  '(ret, elf_file, w) ← com_fs_vfs_lookup exec_path root cwd true w;
  if negb (bool_decide (ret = E0)) then Ok (ret, w)
  else
    elf_file ← deref elf_file;
    '(ret, w) ← load_file fr out elf_file virt_off ctx w;
    w ← COM_FS_VFS_VNODE_RELEASE (Some elf_file) w;
    Ok (ret, w).
End elf.

(** ** Lemmas: the image of a segment *)

(** Arithmetic on pages. *)
Ltac page_lia := unfold ARCH_PAGE_SIZE in *; Z.to_euclidean_division_equations; lia.

Lemma hhdm_page_inj q q' x x' :
  valid_phys q → valid_phys q' → 0 ≤ x < ARCH_PAGE_SIZE → 0 ≤ x' < ARCH_PAGE_SIZE →
  ARCH_PHYS_TO_HHDM (q + x) = ARCH_PHYS_TO_HHDM (q' + x') → q = q' ∧ x = x'.
Proof.
  intros Hq Hq' Hx Hx'. rewrite !hhdm_offset, !valid_phys_hhdm by done. destruct Hq as [_ Hq], Hq' as [_ Hq'].
  unfold ARCH_PAGE_SIZE in *. apply Z.mod_divide in Hq as [a ->]; [|done]. apply Z.mod_divide in Hq' as [b ->]; [|done]. lia.
Qed.

Lemma pages_disjoint q r : valid_phys q → valid_phys r → q ≠ r →
  ARCH_PHYS_TO_HHDM q + ARCH_PAGE_SIZE ≤ ARCH_PHYS_TO_HHDM r ∨ ARCH_PHYS_TO_HHDM r + ARCH_PAGE_SIZE ≤ ARCH_PHYS_TO_HHDM q.
Proof.
  intros Hq Hr Hne. rewrite !valid_phys_hhdm by done. destruct Hq as [_ Hq], Hr as [_ Hr].
  unfold ARCH_PAGE_SIZE in *. apply Z.mod_divide in Hq as [a ->]; [|done]. apply Z.mod_divide in Hr as [b ->]; [|done]. lia.
Qed.

Section load_lemmas.
Context {S A : Type} `{!SlabAlloc S} `{VmMem A} `{!LibcConsts}.
Variable g : vmm_globals.
Variables uninit O_RDONLY : Z.
Implicit Types (w : world S (tmpfs A)) (c : kradixtree).
#[local] Instance loader_tables : VnodeTables S (tmpfs A) := mapped_tables g uninit.

(** Where the pages that are free to give run out, the loader does not look. *)
Definition allocatable : Prop := ∀ a, pa_inv a → (0 < pa_free a)%nat → ∃ p a', vm_alloc a = Ok (p, a').

(** A file of [fsize] bytes with page cache [c] and the address space [pt] it
    is loaded into; the zero page is zero and no page of the file. *)
Record loadable w (node : Z) c (fsize pt : Z) : Prop := {
  ld_file : ∃ vn t, vnodes w !! node = Some vn ∧ ops vn = TmpfsNodeOps ∧ type vn = E_COM_VNODE_TYPE_FILE ∧
    tnodes (fsdata w) !! extra vn = Some t ∧ tn_data t = TFile fsize c;
  ld_size : 0 ≤ fsize ≤ FILE_SPAN;
  ld_space : space_ok w c pt;
  ld_zero : valid_phys (ZeroPage g) ∧ pa_taken (tpages (fsdata w)) (ZeroPage g);
  ld_zero_apart : ∀ i p, rx_lookup c (cache (fsdata w)) i = Some p → p ≠ ARCH_PHYS_TO_HHDM (ZeroPage g);
  ld_zero_bytes : ∀ i, 0 ≤ i < ARCH_PAGE_SIZE → umem w (ARCH_PHYS_TO_HHDM (ZeroPage g + i)) = 0 }.

Lemma loadable_map w node c fsize pt h a :
  loadable w node c fsize pt → mmu_frame (cache (fsdata w)) (tpages (fsdata w)) pt h a →
  mtree h pt → pa_inv a → heap_owned h a →
  loadable (set_cache w h a) node c fsize pt ∧ ∀ i, rx_lookup c h i = rx_lookup c (cache (fsdata w)) i.
Proof.
  intros [Hf Hs Hsp [Hz Htz] Hza Hzb] Hfr Ht Hi Ho. destruct (space_map w c pt h a Hsp Hfr Ht Hi Ho) as [Hsp' Hlk].
  split; [|done]. split; try done; cbn [set_cache fsdata cache tpages].
  - split; [done|]. by apply Hfr.
  - intros i p. rewrite Hlk. apply Hza.
Qed.

Lemma loadable_mem w node c fsize pt m :
  loadable w node c fsize pt → (∀ i, 0 ≤ i < ARCH_PAGE_SIZE →
    m (ARCH_PHYS_TO_HHDM (ZeroPage g + i)) = umem w (ARCH_PHYS_TO_HHDM (ZeroPage g + i))) →
  loadable (set_umem w m) node c fsize pt.
Proof.
  intros [Hf Hs [Ht Hfo Hap] Hz Hza Hzb] Hm. split; try done.
  - split; try done. by destruct Hfo; split.
  - intros i Hi. cbn [set_umem umem]. by rewrite Hm, Hzb.
Qed.

(** A file whose pages are distinct from the one written to does not change. *)
Lemma file_byte_mem w c m q o :
  file_ok w c → valid_phys q → (∀ i p, rx_lookup c (cache (fsdata w)) i = Some p → p ≠ ARCH_PHYS_TO_HHDM q) →
  (∀ a, ¬ (ARCH_PHYS_TO_HHDM q ≤ a < ARCH_PHYS_TO_HHDM q + ARCH_PAGE_SIZE) → m a = umem w a) →
  0 ≤ o → file_byte (set_umem w m) c o = file_byte w c o.
Proof.
  intros Hf Hq Hne Hm Ho. unfold file_byte, byte_at. cbn [set_umem umem fsdata].
  destruct (rx_lookup c (cache (fsdata w)) (o / ARCH_PAGE_SIZE)) as [p|] eqn:Hp; [|done].
  destruct (fo_pages _ _ Hf _ _ Hp) as (r & Hr & -> & _). apply Hm.
  destruct (page_offsets o Ho) as [_ Hx]. apply pages_apart; try done. intros ->. by apply (Hne _ _ Hp).
Qed.

(** The first, partial page. *)
Lemma load_head_spec w node c fsize x ph vaddr fsz mem_sz idx :
  loadable w node c fsize (pagetable x) → allocatable →
  vaddr mod ARCH_PAGE_SIZE ≠ 0 → 0 < fsz → 0 ≤ vaddr → vaddr + ARCH_PAGE_SIZE ≤ 2 ^ 47 →
  0 ≤ ph_off ph → (4 ≤ pa_free (tpages (fsdata w)))%nat →
  let len := KMIN (ARCH_PAGE_SIZE - vaddr mod ARCH_PAGE_SIZE) fsz in
  ph_off ph + len ≤ fsize →
  ∃ q h a m,
    load_head g O_RDONLY ph node (Ctx x) (LoadState vaddr fsz mem_sz idx false) w =
      Ok (LoadState (vaddr + len) (fsz - len) (mem_sz - len) (idx + len) true, set_umem (set_cache w h a) m) ∧
    valid_phys q ∧ ¬ pa_taken (tpages (fsdata w)) q ∧
    loadable (set_umem (set_cache w h a) m) node c fsize (pagetable x) ∧
    (∀ i, rx_lookup c h i = rx_lookup c (cache (fsdata w)) i) ∧
    (∀ o, 0 ≤ o → file_byte (set_umem (set_cache w h a) m) c o = file_byte w c o) ∧
    (∀ i, 0 ≤ i < len → m (ARCH_PHYS_TO_HHDM (q + (vaddr mod ARCH_PAGE_SIZE + i))) = file_byte w c (ph_off ph + i)) ∧
    (pa_free (tpages (fsdata w)) ≤ pa_free a + 4)%nat ∧
    ∀ v, 0 ≤ v < 2 ^ 48 → arch_mmu_get_physical h (pagetable x) v =
      if decide (v / ARCH_PAGE_SIZE = vaddr / ARCH_PAGE_SIZE) then Ok (Some (q + v mod ARCH_PAGE_SIZE))
      else arch_mmu_get_physical (cache (fsdata w)) (pagetable x) v.
Proof.
  intros Hld Hall Hmis Hfsz Hv Hvm Hoff Hfree len Hfit.
  destruct (page_offsets vaddr Hv) as [Hvd Hvr]. set (mis := vaddr mod ARCH_PAGE_SIZE) in *.
  assert (Hlen : 0 < len ∧ mis + len ≤ ARCH_PAGE_SIZE) by (unfold len; rewrite KMIN_min; lia).
  unfold load_head. cbn [l_vaddr l_fsz l_mem_sz l_idx]. fold mis.
  destruct (Z.eqb_spec mis 0); [done|]. destruct (Z.ltb_spec 0 fsz); [|lia]. cbn [negb andb]. fold len.
  pose proof Hld as [(vn & t & Hvn & Hops & Hty & Htn & Hd) Hsize Hsp [Hzv Hzt] Hza Hzb].
  destruct (space_inv w c _ Hsp) as [Hinv Hown].
  destruct (Hall _ Hinv ltac:(lia)) as (q & a0 & Hal). rewrite Hal. mstep.
  destruct (vm_alloc_ok _ _ _ Hinv Hal) as (Hi0 & Hq & Hnt & Htk & Hf0).
  assert (Hfl : vaddr - mis = vaddr / ARCH_PAGE_SIZE * ARCH_PAGE_SIZE) by lia.
  assert (Hge : mis ≤ vaddr) by (apply Z.mod_le; unfold ARCH_PAGE_SIZE; lia).
  destruct (com_mm_vmm_map_spec g (cache (fsdata w)) a0 x (vaddr - mis) q len COM_MM_VMM_FLAGS_NONE load_flags 1)
    as (h & a & -> & Ht' & Hi' & Ho' & Hfr & Hf' & Hg); try done.
  { by apply (so_tree _ _ _ Hsp). }
  { intros r Hr Hs. apply Htk. right. by apply Hown. }
  { unfold ARCH_PAGE_SIZE in *. lia. }
  { unfold ARCH_PAGE_SIZE in *. apply (Z.div_unique_pos _ _ _ (len - 1)); lia. }
  { lia. }
  { rewrite Hfl. unfold ARCH_PAGE_SIZE. by apply Z.mod_mul. }
  { lia. }
  { lia. }
  { unfold map_source. cbn. destruct Hq as [? Hqm]. split; [done|]. unfold ARCH_PAGE_SIZE in *. pose proof (Z.div_mod q 4096). lia. }
  mstep. assert (Hfr' : mmu_frame (cache (fsdata w)) (tpages (fsdata w)) (pagetable x) h a).
  { eapply mmu_frame_trans; [|exact Hfr]. split; [done|]. intros r Hr. apply Htk. by right. }
  destruct (loadable_map w node c fsize _ h a Hld Hfr' Ht' Hi' Ho') as [Hld' Hlk].
  assert (Hhq : ARCH_PHYS_TO_HHDM q + mis = ARCH_PHYS_TO_HHDM (q + mis)) by (rewrite hhdm_offset by (done || lia); done).
  assert (Hu : u64 (ARCH_PHYS_TO_HHDM q + mis) = ARCH_PHYS_TO_HHDM q + mis).
  { rewrite valid_phys_hhdm by done. apply wrap_small. destruct Hq. unfold HHDM_BASE, ARCH_PAGE_SIZE in *. lia. }
  rewrite Hu.
  assert (Hapart : ∀ i p, rx_lookup c (cache (fsdata w)) i = Some p → ∃ r, valid_phys r ∧ p = ARCH_PHYS_TO_HHDM r ∧ r ≠ q).
  { intros i p Hp. destruct (fo_pages _ _ (so_file _ _ _ Hsp) i p Hp) as (r & Hr & -> & Htr). exists r.
    do 2 (split; [done|]). intros ->. done. }
  pose proof Hld' as [_ _ Hsp' _ _ _]. 
  destruct (tmpfs_read_spec (set_cache w h a) node vn t fsize c (ARCH_PHYS_TO_HHDM q + mis) len (ph_off ph) O_RDONLY) as (m & Hrd & Hm);
    try done; [by rewrite Hty|by apply (so_file _ _ _ Hsp')|lia|unfold FILE_SPAN in *; lia| |].
  { intros i p. cbn [set_cache fsdata cache]. rewrite Hlk. intros Hp. destruct (Hapart i p Hp) as (r & Hr & -> & Hne).
    destruct (pages_disjoint q r Hq Hr (not_eq_sym Hne)); lia. }
  replace (Z.max 0 (Z.min len (fsize - ph_off ph))) with len in * by lia.
  unfold com_fs_vfs_read, vnode_ops. cbn [set_cache vnodes]. rewrite Hvn. mstep.
  unfold optab at 1, loader_tables at 1, mapped_tables. rewrite Hops, Z.eqb_refl. cbn [op_read tmpfs_mmap_ops].
  rewrite Hrd. mstep. rewrite (wrap_small 64) by (unfold ARCH_PAGE_SIZE in *; lia).
  assert (Hout : ∀ b, ¬ (ARCH_PHYS_TO_HHDM q ≤ b < ARCH_PHYS_TO_HHDM q + ARCH_PAGE_SIZE) → m b = umem w b).
  { intros b Hb. rewrite Hm. destruct (in_range_spec b (ARCH_PHYS_TO_HHDM q + mis) len); [lia|done]. }
  exists q, h, a, m. split; [done|]. split; [done|]. split; [done|]. split; [|split; [done|split; [|split; [|split]]]].
  - apply loadable_mem; [done|]. intros i Hi. apply Hout. rewrite hhdm_offset by done.
    apply (pages_apart (ZeroPage g) q); try done. intros <-. done.
  - intros o Ho. replace (file_byte w c o) with (file_byte (set_cache w h a) c o).
    + apply (file_byte_mem _ c m q); try done; [by apply (so_file _ _ _ Hsp')|].
      intros i p. cbn [set_cache fsdata cache]. rewrite Hlk. intros Hp He. destruct (Hapart i p Hp) as (r & Hr & -> & Hne).
      by apply hhdm_inj in He.
    + unfold file_byte, byte_at. cbn [set_cache fsdata cache umem]. by rewrite Hlk.
  - intros i Hi. rewrite hhdm_offset by (done || lia). rewrite Hm.
    destruct (in_range_spec (ARCH_PHYS_TO_HHDM q + (mis + i)) (ARCH_PHYS_TO_HHDM q + mis) len); [|lia].
    replace (ARCH_PHYS_TO_HHDM q + (mis + i) - (ARCH_PHYS_TO_HHDM q + mis)) with i by lia.
    unfold file_byte, byte_at. cbn [set_cache fsdata cache umem]. by rewrite Hlk.
  - lia.
  - intros v Hvb. rewrite Hg by done. destruct (page_offsets v) as [Hd1 Hd2]; [lia|].
    unfold map_target. cbn. destruct (decide (v / ARCH_PAGE_SIZE = vaddr / ARCH_PAGE_SIZE)) as [He|He].
    + rewrite decide_True by (unfold ARCH_PAGE_SIZE in *; lia). replace (v - (vaddr - mis)) with (v mod ARCH_PAGE_SIZE) by (rewrite Hfl; unfold ARCH_PAGE_SIZE in *; lia). done.
    + rewrite decide_False; [done|]. unfold ARCH_PAGE_SIZE in *. lia.
Qed.

(** The pages of the file. *)
Lemma load_body_spec w node c fsize x ph vaddr fsz mem_sz idx mapped n :
  loadable w node c fsize (pagetable x) → holdable (A := A) → vaddr mod ARCH_PAGE_SIZE = 0 →
  (ph_off ph + idx) mod ARCH_PAGE_SIZE = 0 → 0 < fsz → 0 ≤ vaddr → 0 ≤ ph_off ph + idx →
  n = (fsz + ARCH_PAGE_SIZE - 1) / ARCH_PAGE_SIZE → vaddr + n * ARCH_PAGE_SIZE ≤ 2 ^ 47 →
  ph_off ph + idx + n * ARCH_PAGE_SIZE ≤ FILE_SPAN → (3 * Z.to_nat n ≤ pa_free (tpages (fsdata w)))%nat →
  (∀ j, 0 ≤ j < n → is_Some (rx_lookup c (cache (fsdata w)) ((ph_off ph + idx) / ARCH_PAGE_SIZE + j))) →
  ∃ h a, load_body ph node (Ctx x) (LoadState vaddr fsz mem_sz idx mapped) w =
      Ok (LoadState (vaddr + fsz) fsz (mem_sz - fsz) idx true, set_cache w h a) ∧
    loadable (set_cache w h a) node c fsize (pagetable x) ∧
    (∀ i, rx_lookup c h i = rx_lookup c (cache (fsdata w)) i) ∧
    (pa_free (tpages (fsdata w)) ≤ pa_free a + 3 * Z.to_nat n)%nat ∧
    ∀ v, 0 ≤ v < 2 ^ 48 → arch_mmu_get_physical h (pagetable x) v =
      if decide (vaddr / ARCH_PAGE_SIZE ≤ v / ARCH_PAGE_SIZE ≤ (vaddr + fsz - 1) / ARCH_PAGE_SIZE)
      then match rx_lookup c (cache (fsdata w)) ((ph_off ph + idx) / ARCH_PAGE_SIZE + (v / ARCH_PAGE_SIZE - vaddr / ARCH_PAGE_SIZE)) with
           | Some p => Ok (Some (ARCH_HHDM_TO_PHYS p + v mod ARCH_PAGE_SIZE))
           | None => Ok None
           end
      else arch_mmu_get_physical (cache (fsdata w)) (pagetable x) v.
Proof.
  intros Hld Hh Hvm Hom Hfsz Hv Ho Hn Hvb Hob Hfr Hpres. unfold load_body. cbn [l_fsz l_vaddr l_mem_sz l_idx].
  destruct (Z.leb_spec fsz 0); [lia|]. pose proof Hld as [(vn & t & Hvn & Hops & Hty & Htn & Hd) Hsize Hsp _ _ _].
  assert (Hn0 : 0 < n) by (rewrite Hn; page_lia).
  unfold FILE_SPAN in Hob. rewrite (wrap_small 64 (ph_off ph + idx)) by (unfold ARCH_PAGE_SIZE in *; lia).
  destruct (tmpfs_mmap_spec g uninit w node vn t fsize c x vaddr (ph_off ph + idx) fsz n COM_MM_VMM_FLAGS_PRIVATE load_flags)
    as (h & a & Hrun & Hsp' & Hfr' & Hlk & Hfree & Hg); try done; [lia|].
  unfold com_fs_vfs_mmap, vnode_ops. rewrite Hvn. mstep. unfold optab at 1, loader_tables at 1, mapped_tables.
  rewrite Hops, Z.eqb_refl. cbn [op_mmap tmpfs_mmap_ops]. rewrite Hrun. mstep.
  rewrite (wrap_small 64 (vaddr + fsz)) by (rewrite Hn in Hvb; page_lia).
  exists h, a. split; [done|]. split.
  { destruct (space_inv _ _ _ Hsp') as [Hi Ho']. apply (loadable_map w node c fsize _ h a Hld Hfr'); [by apply (so_tree _ _ _ Hsp')|done|done]. }
  split; [done|]. split; [done|]. intros v Hvb'. rewrite Hg by done.
  assert (Hiff : vaddr ≤ v < vaddr + n * ARCH_PAGE_SIZE ↔ vaddr / ARCH_PAGE_SIZE ≤ v / ARCH_PAGE_SIZE ≤ (vaddr + fsz - 1) / ARCH_PAGE_SIZE)
    by (rewrite Hn; page_lia).
  destruct (decide (vaddr / ARCH_PAGE_SIZE ≤ v / ARCH_PAGE_SIZE ≤ (vaddr + fsz - 1) / ARCH_PAGE_SIZE)) as [Hr|Hr].
  - rewrite decide_True by by apply Hiff.
    replace ((ph_off ph + idx + (v - vaddr)) / ARCH_PAGE_SIZE) with ((ph_off ph + idx) / ARCH_PAGE_SIZE + (v / ARCH_PAGE_SIZE - vaddr / ARCH_PAGE_SIZE)) by page_lia.
    done.
  - rewrite decide_False; [done|]. by rewrite Hiff.
Qed.

(** The pages from the one of [lo] to the one of [e - 1] are mapped to
    distinct frames [pg], which hold the bytes of the file in [w0] from [off]
    on between [lo] and [e]; other addresses are translated as before. *)
Record image w0 w c (pt lo e off : Z) (pg : Z → Z) : Prop := {
  im_phys : ∀ v, 0 ≤ v < 2 ^ 48 → lo / ARCH_PAGE_SIZE ≤ v / ARCH_PAGE_SIZE ≤ (e - 1) / ARCH_PAGE_SIZE →
    arch_mmu_get_physical (cache (fsdata w)) pt v = Ok (Some (pg (v / ARCH_PAGE_SIZE) + v mod ARCH_PAGE_SIZE));
  im_pg : ∀ k, lo / ARCH_PAGE_SIZE ≤ k ≤ (e - 1) / ARCH_PAGE_SIZE → valid_phys (pg k) ∧ pg k ≠ ZeroPage g;
  im_inj : ∀ k k', lo / ARCH_PAGE_SIZE ≤ k ≤ (e - 1) / ARCH_PAGE_SIZE → lo / ARCH_PAGE_SIZE ≤ k' ≤ (e - 1) / ARCH_PAGE_SIZE →
    pg k = pg k' → k = k';
  im_bytes : ∀ v, lo ≤ v < e → umem w (ARCH_PHYS_TO_HHDM (pg (v / ARCH_PAGE_SIZE) + v mod ARCH_PAGE_SIZE)) = file_byte w0 c (off + (v - lo));
  im_other : ∀ v, 0 ≤ v < 2 ^ 48 → ¬ lo / ARCH_PAGE_SIZE ≤ v / ARCH_PAGE_SIZE ≤ (e - 1) / ARCH_PAGE_SIZE →
    arch_mmu_get_physical (cache (fsdata w)) pt v = arch_mmu_get_physical (cache (fsdata w0)) pt v }.

(** What is asked of a segment: it fits its file and the address space, its
    pages are in the cache, and the allocator has pages enough. *)
Record segment_ok w c (fsize vaddr : Z) (ph : elf_phdr) : Prop := {
  sg_align : vaddr mod ARCH_PAGE_SIZE = ph_off ph mod ARCH_PAGE_SIZE;
  sg_sizes : 0 ≤ file_sz ph ≤ ph_mem_sz ph;
  sg_vaddr : 0 ≤ vaddr ∧ vaddr + ph_mem_sz ph + 2 * ARCH_PAGE_SIZE ≤ 2 ^ 47;
  sg_file : 0 ≤ ph_off ph ∧ ph_off ph + file_sz ph ≤ fsize ∧ fsize + ARCH_PAGE_SIZE ≤ FILE_SPAN;
  sg_pages : ∀ o, ph_off ph ≤ o < ph_off ph + file_sz ph → is_Some (rx_lookup c (cache (fsdata w)) (o / ARCH_PAGE_SIZE));
  sg_room : (3 * Z.to_nat (ph_mem_sz ph / ARCH_PAGE_SIZE) + 16 ≤ pa_free (tpages (fsdata w)))%nat }.

(** The frame of the file's page [i]. *)
Definition file_frame w c (i : Z) : Z := ARCH_HHDM_TO_PHYS (default 0 (rx_lookup c (cache (fsdata w)) i)).

Lemma file_frame_ok w node c fsize pt i :
  loadable w node c fsize pt → is_Some (rx_lookup c (cache (fsdata w)) i) →
  rx_lookup c (cache (fsdata w)) i = Some (ARCH_PHYS_TO_HHDM (file_frame w c i)) ∧ valid_phys (file_frame w c i) ∧
  pa_taken (tpages (fsdata w)) (file_frame w c i) ∧ file_frame w c i ≠ ZeroPage g.
Proof.
  intros Hld [p Hp]. unfold file_frame. rewrite Hp. cbn [default id].
  destruct (cache_page_phys w c i p (so_file _ _ _ (ld_space _ _ _ _ _ Hld)) Hp) as (Hv & He & Ht).
  split; [congruence|]. split; [done|]. split; [done|]. intros Hz. apply (ld_zero_apart _ _ _ _ _ Hld i p Hp). by rewrite He, Hz.
Qed.

Lemma file_frame_inj w node c fsize pt i j :
  loadable w node c fsize pt → 0 ≤ i < 2 ^ 36 → 0 ≤ j < 2 ^ 36 →
  is_Some (rx_lookup c (cache (fsdata w)) i) → is_Some (rx_lookup c (cache (fsdata w)) j) →
  file_frame w c i = file_frame w c j → i = j.
Proof.
  intros Hld Hi Hj Hpi Hpj He. destruct (file_frame_ok w node c fsize pt i Hld Hpi) as (Hi' & _).
  destruct (file_frame_ok w node c fsize pt j Hld Hpj) as (Hj' & _). rewrite <- He in Hj'.
  by apply (fo_inj _ _ (so_file _ _ _ (ld_space _ _ _ _ _ Hld)) i j _ Hi Hj Hi').
Qed.

Lemma file_frame_byte w node c fsize pt o :
  loadable w node c fsize pt → is_Some (rx_lookup c (cache (fsdata w)) (o / ARCH_PAGE_SIZE)) →
  umem w (ARCH_PHYS_TO_HHDM (file_frame w c (o / ARCH_PAGE_SIZE) + o mod ARCH_PAGE_SIZE)) = file_byte w c o.
Proof.
  intros Hld Hp. destruct (file_frame_ok w node c fsize pt _ Hld Hp) as (Hi & Hv & _).
  assert (0 ≤ o mod ARCH_PAGE_SIZE < ARCH_PAGE_SIZE) by by apply Z.mod_pos_bound.
  rewrite hhdm_offset by done. unfold file_byte, byte_at. by rewrite Hi.
Qed.

(** A segment that starts at a page, or what the first page leaves of one. *)
Lemma body_image w node c fsize x ph vaddr fsz mem_sz idx mapped :
  loadable w node c fsize (pagetable x) → holdable (A := A) →
  vaddr mod ARCH_PAGE_SIZE = 0 → (ph_off ph + idx) mod ARCH_PAGE_SIZE = 0 → 0 < fsz → 0 ≤ vaddr → 0 ≤ ph_off ph + idx →
  vaddr + fsz + ARCH_PAGE_SIZE ≤ 2 ^ 47 → ph_off ph + idx + fsz + ARCH_PAGE_SIZE ≤ FILE_SPAN →
  (3 * Z.to_nat (fsz / ARCH_PAGE_SIZE + 1) ≤ pa_free (tpages (fsdata w)))%nat →
  (∀ o, ph_off ph + idx ≤ o < ph_off ph + idx + fsz → is_Some (rx_lookup c (cache (fsdata w)) (o / ARCH_PAGE_SIZE))) →
  ∃ h a, load_body ph node (Ctx x) (LoadState vaddr fsz mem_sz idx mapped) w =
      Ok (LoadState (vaddr + fsz) fsz (mem_sz - fsz) idx true, set_cache w h a) ∧
    loadable (set_cache w h a) node c fsize (pagetable x) ∧
    (∀ i, rx_lookup c h i = rx_lookup c (cache (fsdata w)) i) ∧
    (pa_free (tpages (fsdata w)) ≤ pa_free a + 3 * Z.to_nat (fsz / ARCH_PAGE_SIZE + 1))%nat ∧
    image w (set_cache w h a) c (pagetable x) vaddr (vaddr + fsz) (ph_off ph + idx)
      (λ k, file_frame w c ((ph_off ph + idx) / ARCH_PAGE_SIZE + (k - vaddr / ARCH_PAGE_SIZE))).
Proof.
  intros Hld Hh Hvm Hom Hfsz Hv Ho Hvb Hob Hfr Hpres.
  set (n := (fsz + ARCH_PAGE_SIZE - 1) / ARCH_PAGE_SIZE).
  assert (Hn : 0 < n ≤ fsz / ARCH_PAGE_SIZE + 1) by (unfold n; page_lia).
  assert (Hix : ∀ k, vaddr / ARCH_PAGE_SIZE ≤ k ≤ (vaddr + fsz - 1) / ARCH_PAGE_SIZE →
    is_Some (rx_lookup c (cache (fsdata w)) ((ph_off ph + idx) / ARCH_PAGE_SIZE + (k - vaddr / ARCH_PAGE_SIZE)))).
  { intros k Hk. rewrite <- (Z.div_mul ((ph_off ph + idx) / ARCH_PAGE_SIZE + (k - vaddr / ARCH_PAGE_SIZE)) ARCH_PAGE_SIZE) by done.
    apply Hpres. page_lia. }
  destruct (load_body_spec w node c fsize x ph vaddr fsz mem_sz idx mapped n) as (h & a & Hrun & Hld' & Hlk & Hfree & Hg); try done.
  { unfold n. page_lia. }
  { unfold n. page_lia. }
  { lia. }
  { intros j Hj. replace j with (vaddr / ARCH_PAGE_SIZE + j - vaddr / ARCH_PAGE_SIZE) by lia. apply Hix. unfold n in Hj. page_lia. }
  exists h, a. split; [done|]. split; [done|]. split; [done|]. split; [lia|]. split; cbn [set_cache fsdata cache umem].
  - intros v Hvr Hk. rewrite Hg, decide_True by done.
    destruct (file_frame_ok w node c fsize _ _ Hld (Hix _ Hk)) as (Hp & _). unfold file_frame at 1.
    destruct (Hix _ Hk) as [p Hp']. by rewrite Hp'.
  - intros k Hk. by destruct (file_frame_ok w node c fsize _ _ Hld (Hix k Hk)) as (_ & ? & _ & ?).
  - intros k k' Hk Hk' He. unfold FILE_SPAN in Hob. apply (file_frame_inj w node c fsize _ _ _ Hld) in He; [lia|page_lia|page_lia|by apply Hix|by apply Hix].
  - intros v Hvr. rewrite <- (file_frame_byte w node c fsize _ _ Hld).
    + replace ((ph_off ph + idx + (v - vaddr)) / ARCH_PAGE_SIZE) with ((ph_off ph + idx) / ARCH_PAGE_SIZE + (v / ARCH_PAGE_SIZE - vaddr / ARCH_PAGE_SIZE)) by page_lia.
      by replace ((ph_off ph + idx + (v - vaddr)) mod ARCH_PAGE_SIZE) with (v mod ARCH_PAGE_SIZE) by page_lia.
    + apply Hpres. lia.
  - intros v Hvr Hk. by rewrite Hg, decide_False.
Qed.

(** One page more in front of an image. *)
Lemma image_cons w0 w1 w2 c pt lo len e off q pg :
  file_ok w1 c → valid_phys q → q ≠ ZeroPage g → ¬ pa_taken (tpages (fsdata w0)) q →
  0 ≤ lo → lo mod ARCH_PAGE_SIZE ≠ 0 → len = ARCH_PAGE_SIZE - lo mod ARCH_PAGE_SIZE → lo + len < e → 0 ≤ off →
  (∀ k, (lo + len) / ARCH_PAGE_SIZE ≤ k ≤ (e - 1) / ARCH_PAGE_SIZE → pa_taken (tpages (fsdata w0)) (pg k)) →
  (∀ v, 0 ≤ v < 2 ^ 48 → arch_mmu_get_physical (cache (fsdata w1)) pt v =
    if decide (v / ARCH_PAGE_SIZE = lo / ARCH_PAGE_SIZE) then Ok (Some (q + v mod ARCH_PAGE_SIZE))
    else arch_mmu_get_physical (cache (fsdata w0)) pt v) →
  (∀ i, 0 ≤ i < len → umem w2 (ARCH_PHYS_TO_HHDM (q + (lo mod ARCH_PAGE_SIZE + i))) = file_byte w0 c (off + i)) →
  (∀ o, 0 ≤ o → file_byte w1 c o = file_byte w0 c o) →
  image w1 w2 c pt (lo + len) e (off + len) pg →
  image w0 w2 c pt lo e off (λ k, if decide (k = lo / ARCH_PAGE_SIZE) then q else pg k).
Proof.
  intros Hf Hq Hqz Hnt Hlo Hmis Hlen He Hoff Htk Hphys Hb Hfb [P1 P2 P3 P4 P5].
  assert (Hnext : (lo + len) / ARCH_PAGE_SIZE = lo / ARCH_PAGE_SIZE + 1) by (rewrite Hlen; page_lia).
  assert (Hin : ∀ k, lo / ARCH_PAGE_SIZE ≤ k ≤ (e - 1) / ARCH_PAGE_SIZE → k ≠ lo / ARCH_PAGE_SIZE →
    (lo + len) / ARCH_PAGE_SIZE ≤ k ≤ (e - 1) / ARCH_PAGE_SIZE) by lia.
  split.
  - intros v Hv Hk. case_decide as Hd.
    + rewrite P5 by (done || lia). by rewrite Hphys, decide_True.
    + apply P1; [done|by apply Hin].
  - intros k Hk. case_decide; [done|]. by apply P2, Hin.
  - intros k k' Hk Hk'. repeat case_decide; try congruence.
    + intros ->. destruct (Hnt (Htk k' (Hin k' Hk' ltac:(done)))).
    + intros <-. destruct (Hnt (Htk k (Hin k Hk ltac:(done)))).
    + apply P3; by apply Hin.
  - intros v Hv. case_decide as Hd.
    + replace (v mod ARCH_PAGE_SIZE) with (lo mod ARCH_PAGE_SIZE + (v - lo)) by page_lia. rewrite Hb; [done|]. rewrite Hlen. page_lia.
    + assert (Hge : lo + len ≤ v) by (rewrite Hlen; page_lia).
      rewrite P4, Hfb by lia. f_equal. lia.
  - intros v Hv Hk. assert (Hne : v / ARCH_PAGE_SIZE ≠ lo / ARCH_PAGE_SIZE).
    { intros Heq. apply Hk. rewrite Heq. split; [lia|]. apply Z.div_le_mono; [done|]. pose proof (Z.mod_pos_bound lo ARCH_PAGE_SIZE ltac:(done)). lia. }
    rewrite P5 by (done || (rewrite Hnext; lia)). by rewrite Hphys, decide_False.
Qed.

(** The last page of the file's part is one of the file's. *)
Definition tail_in_file (vaddr fs : Z) : Prop := vaddr mod ARCH_PAGE_SIZE = 0 ∨ ARCH_PAGE_SIZE - vaddr mod ARCH_PAGE_SIZE < fs.
#[local] Instance tail_in_file_dec vaddr fs : Decision (tail_in_file vaddr fs).
Proof. unfold tail_in_file. apply _. Defined.

(** The file's part of a segment. *)
Lemma file_part_image w node c fsize x ph vaddr mem_sz :
  loadable w node c fsize (pagetable x) → holdable (A := A) → allocatable → segment_ok w c fsize vaddr ph →
  0 < file_sz ph →
  ∃ l w1 pg, ('(l, w) ← load_head g O_RDONLY ph node (Ctx x) (LoadState vaddr (file_sz ph) mem_sz 0 false) w;
      load_body ph node (Ctx x) l w) = Ok (l, w1) ∧
    l_vaddr l = vaddr + file_sz ph ∧ l_mem_sz l = mem_sz - file_sz ph ∧ vaddr_mapped l = true ∧
    loadable w1 node c fsize (pagetable x) ∧ (∀ o, 0 ≤ o → file_byte w1 c o = file_byte w c o) ∧
    (∀ i, rx_lookup c (cache (fsdata w1)) i = rx_lookup c (cache (fsdata w)) i) ∧
    (pa_free (tpages (fsdata w)) ≤ pa_free (tpages (fsdata w1)) + 3 * Z.to_nat (file_sz ph / ARCH_PAGE_SIZE + 1) + 4)%nat ∧
    image w w1 c (pagetable x) vaddr (vaddr + file_sz ph) (ph_off ph) pg ∧
    (tail_in_file vaddr (file_sz ph) →
      pg ((vaddr + file_sz ph - 1) / ARCH_PAGE_SIZE) = file_frame w c ((ph_off ph + file_sz ph - 1) / ARCH_PAGE_SIZE)) ∧
    (¬ tail_in_file vaddr (file_sz ph) → ∀ i p, rx_lookup c (cache (fsdata w)) i = Some p →
      p ≠ ARCH_PHYS_TO_HHDM (pg ((vaddr + file_sz ph - 1) / ARCH_PAGE_SIZE))).
Proof.
  intros Hld Hh Hall [Hal [Hf0 Hfm] [Hv Hvm] (Ho & Hof & Hfs) Hpg Hroom] Hpos.
  assert (Hdle : file_sz ph / ARCH_PAGE_SIZE ≤ ph_mem_sz ph / ARCH_PAGE_SIZE) by (apply Z.div_le_mono; [done|lia]).
  assert (Hdge : 0 ≤ file_sz ph / ARCH_PAGE_SIZE) by (apply Z.div_pos; [lia|done]).
  destruct (decide (vaddr mod ARCH_PAGE_SIZE = 0)) as [Hm|Hm].
  - unfold load_head. cbn [l_vaddr l_fsz]. rewrite Hm. cbn [Z.eqb negb andb mbind res_bind].
    destruct (body_image w node c fsize x ph vaddr (file_sz ph) mem_sz 0 false) as (h & a & -> & Hld' & Hlk & Hfr & Him);
      rewrite ?Z.add_0_r in *; try done; [lia|page_lia|page_lia|lia|].
    eexists _, _, _. split; [done|]. do 4 (split; [done|]). split.
    { intros o Hoo. unfold file_byte, byte_at. cbn [set_cache fsdata cache umem]. by rewrite Hlk. }
    split; [done|]. split; [cbn [set_cache fsdata tpages]; lia|]. split; [exact Him|].
    split; [intros _; cbv beta; f_equal; page_lia|]. intros []. by left.
  - destruct (load_head_spec w node c fsize x ph vaddr (file_sz ph) mem_sz 0) as
      (q & h & a & m & Hrun & Hq & Hnt & Hld1 & Hlk1 & Hfb1 & Hb1 & Hfr1 & Hg1); try done; [unfold ARCH_PAGE_SIZE in *; lia|lia| |].
    { rewrite KMIN_min. lia. }
    rewrite Hrun. cbn [mbind res_bind]. set (len := KMIN _ _) in *. set (w1 := set_umem _ m) in *.
    assert (Hqz : q ≠ ZeroPage g) by (intros ->; by destruct (ld_zero _ _ _ _ _ Hld)).
    assert (Hlen : len = Z.min (ARCH_PAGE_SIZE - vaddr mod ARCH_PAGE_SIZE) (file_sz ph)) by apply KMIN_min.
    destruct (decide (file_sz ph ≤ ARCH_PAGE_SIZE - vaddr mod ARCH_PAGE_SIZE)) as [Hs|Hs].
    + assert (len = file_sz ph) as El by lia. unfold load_body. cbn [l_fsz]. rewrite El, Z.sub_diag. cbn [Z.leb Z.compare].
      eexists _, w1, (λ _, q). split; [done|]. cbn [l_vaddr l_mem_sz vaddr_mapped]. do 4 (split; [done|]). split; [exact Hfb1|].
      split; [exact Hlk1|]. split; [unfold w1; cbn [set_umem set_cache fsdata tpages]; lia|]. split.
      { split.
        - intros v Hvr Hk. unfold w1. cbn [set_umem set_cache fsdata cache]. rewrite Hg1, decide_True by (done || page_lia). done.
        - intros k _. done.
        - intros k k' Hk Hk' _. page_lia.
        - intros v Hvr. unfold w1. cbn [set_umem umem]. rewrite <- (Hb1 (v - vaddr)) by lia.
          by replace (vaddr mod ARCH_PAGE_SIZE + (v - vaddr)) with (v mod ARCH_PAGE_SIZE) by page_lia.
        - intros v Hvr Hk. unfold w1. cbn [set_umem set_cache fsdata cache]. rewrite Hg1, decide_False by (done || page_lia). done. }
      split; [intros [?|?]; lia|]. intros _ i p Hp ->.
      destruct (cache_page_phys w c i _ (so_file _ _ _ (ld_space _ _ _ _ _ Hld)) Hp) as (_ & _ & Ht). apply Hnt.
      by rewrite hhdm_phys_roundtrip in Ht by (destruct Hq; lia).
    + assert (len = ARCH_PAGE_SIZE - vaddr mod ARCH_PAGE_SIZE) as El by lia.
      destruct (body_image w1 node c fsize x ph (vaddr + len) (file_sz ph - len) (mem_sz - len) (0 + len) true) as (h2 & a2 & Hrun2 & Hld2 & Hlk2 & Hfr2 & Him2);
        try done; [rewrite El; page_lia|rewrite El; page_lia|lia|rewrite El; page_lia|rewrite El; page_lia|page_lia|page_lia| | |].
      { assert ((file_sz ph - len) / ARCH_PAGE_SIZE ≤ file_sz ph / ARCH_PAGE_SIZE) by (apply Z.div_le_mono; [done|rewrite El; page_lia]).
        unfold w1. cbn [set_umem set_cache fsdata tpages]. lia. }
      { intros o Hor. unfold w1. cbn [set_umem set_cache fsdata cache]. rewrite Hlk1. apply Hpg. rewrite El in Hor. page_lia. }
      rewrite Hrun2. replace (vaddr + len + (file_sz ph - len)) with (vaddr + file_sz ph) in * by lia.
      rewrite Z.add_0_l in *.
      assert (Hpl : ∀ i, rx_lookup c (cache (fsdata (set_cache w1 h2 a2))) i = rx_lookup c (cache (fsdata w)) i).
      { intros i. cbn [set_cache fsdata cache]. rewrite Hlk2. exact (Hlk1 i). }
      assert (Hff : ∀ i, file_frame w1 c i = file_frame w c i).
      { intros i. unfold file_frame, w1. cbn [set_umem set_cache fsdata cache]. by rewrite Hlk1. }
      eexists _, _, _. split; [done|]. cbn [l_vaddr l_mem_sz vaddr_mapped]. split; [done|]. split; [lia|]. split; [done|]. split; [exact Hld2|].
      split. { intros o Hoo. rewrite <- Hfb1 by done. unfold file_byte, byte_at. cbn [set_cache fsdata cache umem]. by rewrite Hlk2. }
      split; [exact Hpl|]. split.
      { assert (Z.to_nat ((file_sz ph - len) / ARCH_PAGE_SIZE + 1) ≤ Z.to_nat (file_sz ph / ARCH_PAGE_SIZE + 1))%nat.
        { apply Z2Nat.inj_le; [page_lia|lia|]. rewrite El. page_lia. }
        unfold w1 in *. cbn [set_umem set_cache fsdata tpages] in *. lia. }
      split.
      * eapply (image_cons w w1 _ c (pagetable x) vaddr len (vaddr + file_sz ph) (ph_off ph) q _); try done; [by apply (so_file _ _ _ (ld_space _ _ _ _ _ Hld1))|lia| ].
        { intros k Hk. cbv beta. rewrite Hff.
          apply (file_frame_ok w node c fsize (pagetable x) _ Hld). rewrite <- (Z.div_mul (_ + _) ARCH_PAGE_SIZE) by done. apply Hpg. rewrite El in *. page_lia. }
      * split; [|intros []; right; lia].
        intros _. cbv beta. rewrite decide_False by (rewrite El in *; page_lia). cbv beta. rewrite Hff. f_equal. rewrite El. page_lia.
Qed.

(** How much of the page of [e] is cleared when [left] bytes are left. *)
Definition tail_size (e left : Z) : Z :=
  if e mod ARCH_PAGE_SIZE =? 0 then 0 else Z.min left (ARCH_PAGE_SIZE - e mod ARCH_PAGE_SIZE).

Lemma tail_size_range e left : 0 ≤ left →
  0 ≤ tail_size e left ≤ left ∧ (tail_size e left < left → (e + tail_size e left) mod ARCH_PAGE_SIZE = 0) ∧
  (0 < tail_size e left → e mod ARCH_PAGE_SIZE ≠ 0 ∧ e mod ARCH_PAGE_SIZE + tail_size e left ≤ ARCH_PAGE_SIZE).
Proof.
  intros Hl. unfold tail_size. assert (0 ≤ e mod ARCH_PAGE_SIZE < ARCH_PAGE_SIZE) by by apply Z.mod_pos_bound.
  destruct (Z.eqb_spec (e mod ARCH_PAGE_SIZE) 0) as [He|He]; split_and!; try lia; intros.
  - by rewrite Z.add_0_r.
  - rewrite Z.min_r by lia. page_lia.
Qed.

Lemma load_zero_spec w w1 node c fsize x lo fs off pg l mem_sz :
  loadable w1 node c fsize (pagetable x) → image w w1 c (pagetable x) lo (lo + fs) off pg →
  0 < fs ≤ mem_sz → 0 ≤ lo → lo + fs + ARCH_PAGE_SIZE ≤ 2 ^ 47 →
  l_vaddr l = lo + fs → l_mem_sz l = mem_sz - fs → vaddr_mapped l = true →
  let z := tail_size (lo + fs) (mem_sz - fs) in
  ∃ l' m, load_zero g (Ctx x) l w1 = Ok (l', set_umem w1 m) ∧ l_vaddr l' = lo + fs + z ∧ l_mem_sz l' = mem_sz - fs - z ∧
    ∀ a, m a = if in_range a (ARCH_PHYS_TO_HHDM (pg ((lo + fs - 1) / ARCH_PAGE_SIZE)) + (lo + fs) mod ARCH_PAGE_SIZE) z then 0 else umem w1 a.
Proof.
  intros Hld [P1 P2 P3 P4 P5] Hfs Hlo Hend Hlv Hlm Hmap z.
  destruct (tail_size_range (lo + fs) (mem_sz - fs)) as (Hz1 & _ & Hz3); [lia|]. fold z in Hz1, Hz3.
  assert (Hself : set_umem w1 (umem w1) = w1) by by destruct w1.
  unfold load_zero. rewrite Hlv, Hlm, Hmap.
  destruct (Z.eqb_spec ((lo + fs) mod ARCH_PAGE_SIZE) 0) as [He|He]; cbn [negb andb].
  { assert (z = 0) as Hz0 by (unfold z, tail_size; by rewrite He). exists l, (umem w1). rewrite Hself, Hz0, Z.add_0_r, Z.sub_0_r.
    do 3 (split; [done|]). intros a. by destruct (in_range_spec a (ARCH_PHYS_TO_HHDM (pg ((lo + fs - 1) / ARCH_PAGE_SIZE)) + (lo + fs) mod ARCH_PAGE_SIZE) 0); [lia|]. }
  assert (Hzv : z = Z.min (mem_sz - fs) (ARCH_PAGE_SIZE - (lo + fs) mod ARCH_PAGE_SIZE)).
  { unfold z, tail_size. destruct (Z.eqb_spec ((lo + fs) mod ARCH_PAGE_SIZE) 0); done. }
  destruct (Z.ltb_spec 0 (mem_sz - fs)) as [Hl|Hl].
  - assert (Hpe : (lo + fs) / ARCH_PAGE_SIZE = (lo + fs - 1) / ARCH_PAGE_SIZE) by page_lia.
    unfold com_mm_vmm_get_physical, vmm_ensure_context. mstep. mstep. cbn [ctx_pagetable].
    rewrite P1; [|unfold ARCH_PAGE_SIZE in *; lia|page_lia]. mstep. cbn [default id]. rewrite KMIN_min, <- Hzv, Hpe.
    assert (Hr : 0 ≤ (lo + fs) mod ARCH_PAGE_SIZE < ARCH_PAGE_SIZE) by by apply Z.mod_pos_bound.
    rewrite hhdm_offset by (done || (apply P2; page_lia)).
    eexists _, _. split; [done|]. cbn [l_vaddr l_mem_sz]. rewrite wrap_small by (unfold ARCH_PAGE_SIZE in *; lia).
    do 2 (split; [done|]). intros a. apply kmemset_lookup. lia.
  - assert (z = 0) as Hz0 by lia. exists l, (umem w1). rewrite Hself, Hz0, Z.add_0_r, Z.sub_0_r.
    do 3 (split; [done|]). intros a. by destruct (in_range_spec a (ARCH_PHYS_TO_HHDM (pg ((lo + fs - 1) / ARCH_PAGE_SIZE)) + (lo + fs) mod ARCH_PAGE_SIZE) 0); [lia|].
Qed.

(** Zero pages to the end of the segment. *)
Lemma load_rest_spec w node c fsize x l n :
  loadable w node c fsize (pagetable x) → (∀ a, pa_inv a → ∃ a', pg_hold a (ZeroPage g) = Ok a') →
  0 ≤ l_vaddr l → (0 < l_mem_sz l → l_vaddr l mod ARCH_PAGE_SIZE = 0) →
  n = (Z.max 0 (l_mem_sz l) + ARCH_PAGE_SIZE - 1) / ARCH_PAGE_SIZE → l_vaddr l + n * ARCH_PAGE_SIZE ≤ 2 ^ 47 →
  (3 * Z.to_nat n ≤ pa_free (tpages (fsdata w)))%nat →
  ∃ h a, load_rest g (Ctx x) l w = Ok (E0, set_cache w h a) ∧ loadable (set_cache w h a) node c fsize (pagetable x) ∧
    (∀ i, rx_lookup c h i = rx_lookup c (cache (fsdata w)) i) ∧
    ∀ v, 0 ≤ v < 2 ^ 48 → arch_mmu_get_physical h (pagetable x) v =
      if decide (l_vaddr l ≤ v < l_vaddr l + n * ARCH_PAGE_SIZE) then Ok (Some (ZeroPage g + v mod ARCH_PAGE_SIZE))
      else arch_mmu_get_physical (cache (fsdata w)) (pagetable x) v.
Proof.
  intros Hld Hh Hv Hal Hn Hb Hfr. unfold load_rest. destruct (Z.leb_spec (l_mem_sz l) 0) as [Hle|Hgt].
  - assert (n = 0) as -> by (rewrite Hn, Z.max_l by lia; done). exists (cache (fsdata w)), (tpages (fsdata w)). rewrite set_cache_same.
    do 3 (split; [done|]). intros v _. rewrite decide_False by lia. done.
  - rewrite Z.max_r in Hn by lia. assert (Hn0 : 0 ≤ n) by (rewrite Hn; page_lia).
    destruct (space_inv _ _ _ (ld_space _ _ _ _ _ Hld)) as [Hinv Hown].
    destruct (com_mm_vmm_map_spec g (cache (fsdata w)) (tpages (fsdata w)) x (l_vaddr l) 0 (l_mem_sz l) COM_MM_VMM_FLAGS_ALLOCATE load_flags n)
      as (h & a & -> & Ht' & Hi' & Ho' & Hfr' & _ & Hg); try done.
    { by apply (so_tree _ _ _ (ld_space _ _ _ _ _ Hld)). }
    { rewrite Hn in Hb. page_lia. }
    { by apply Hal. }
    { unfold map_source. cbn. split; [|exact Hh]. by destruct (ld_zero _ _ _ _ _ Hld). }
    mstep. destruct (loadable_map w node c fsize _ h a Hld Hfr' Ht' Hi' Ho') as [Hld' Hlk].
    exists h, a. do 3 (split; [done|]). exact Hg.
Qed.

(** The bytes of the file once the rest of its last page has been cleared. *)
Lemma cleared_file w node c fsize pt m q e z f o :
  loadable w node c fsize pt → valid_phys q → 0 ≤ o < FILE_SPAN → 0 ≤ f < FILE_SPAN → 0 ≤ z →
  f mod ARCH_PAGE_SIZE = e mod ARCH_PAGE_SIZE → (0 < z → e mod ARCH_PAGE_SIZE ≠ 0 ∧ e mod ARCH_PAGE_SIZE + z ≤ ARCH_PAGE_SIZE) →
  0 < f → is_Some (rx_lookup c (cache (fsdata w)) ((f - 1) / ARCH_PAGE_SIZE)) → q = file_frame w c ((f - 1) / ARCH_PAGE_SIZE) →
  (∀ a, m a = if in_range a (ARCH_PHYS_TO_HHDM q + e mod ARCH_PAGE_SIZE) z then 0 else umem w a) →
  file_byte (set_umem w m) c o = if decide (f ≤ o < f + z) then 0 else file_byte w c o.
Proof.
  intros Hld Hq Ho Hf Hz Hmod Hzb Hf0 Hpres -> Hm. unfold file_byte, byte_at at 1. cbn [set_umem umem fsdata].
  destruct (page_offsets o) as [Hd1 Hd2]; [lia|].
  destruct (rx_lookup c (cache (fsdata w)) (o / ARCH_PAGE_SIZE)) as [p|] eqn:Hp.
  2: { case_decide as Hr; [done|]. unfold byte_at. by rewrite Hp. }
  destruct (file_frame_ok w node c fsize pt (o / ARCH_PAGE_SIZE) Hld ltac:(by eexists)) as (Hp' & Hv & _ & _).
  assert (p = ARCH_PHYS_TO_HHDM (file_frame w c (o / ARCH_PAGE_SIZE))) as -> by congruence.
  assert (Hold : umem w (ARCH_PHYS_TO_HHDM (file_frame w c (o / ARCH_PAGE_SIZE)) + o mod ARCH_PAGE_SIZE) = file_byte w c o)
    by (unfold file_byte, byte_at; by rewrite Hp). fold (file_byte w c o). rewrite Hm.
  destruct (decide (o / ARCH_PAGE_SIZE = (f - 1) / ARCH_PAGE_SIZE)) as [He|He].
  - rewrite <- He. destruct (in_range_spec (ARCH_PHYS_TO_HHDM (file_frame w c (o / ARCH_PAGE_SIZE)) + o mod ARCH_PAGE_SIZE)
      (ARCH_PHYS_TO_HHDM (file_frame w c (o / ARCH_PAGE_SIZE)) + e mod ARCH_PAGE_SIZE) z) as [Hr|Hr].
    + rewrite decide_True; [done|]. destruct Hzb as [Hz1 Hz2]; [lia|]. page_lia.
    + rewrite decide_False; [done|]. intros Hr'. apply Hr. destruct Hzb as [Hz1 Hz2]; [lia|]. page_lia.
  - destruct (in_range_spec (ARCH_PHYS_TO_HHDM (file_frame w c (o / ARCH_PAGE_SIZE)) + o mod ARCH_PAGE_SIZE)
      (ARCH_PHYS_TO_HHDM (file_frame w c ((f - 1) / ARCH_PAGE_SIZE)) + e mod ARCH_PAGE_SIZE) z) as [Hr|Hr].
    + exfalso. apply He. apply (file_frame_inj w node c fsize pt _ _ Hld); [apply file_index; lia|apply file_index; lia|by eexists|done|].
      destruct (decide (file_frame w c (o / ARCH_PAGE_SIZE) = file_frame w c ((f - 1) / ARCH_PAGE_SIZE))) as [|Hne]; [done|].
      exfalso. apply (pages_apart _ _ (o mod ARCH_PAGE_SIZE) Hv Hq Hne Hd2). 
      assert (0 ≤ e mod ARCH_PAGE_SIZE) by by apply Z.mod_pos_bound. destruct Hzb as [Hz1 Hz2]; [lia|]. lia.
    + rewrite decide_False; [done|]. intros Hr'. apply He. destruct Hzb as [Hz1 Hz2]; [lia|]. page_lia.
Qed.

Lemma s64_small z : 0 ≤ z < 2 ^ 63 → s64 z = z.
Proof. intros Hz. unfold s64. rewrite wrap_small by lia. destruct (Z.ltb_spec z (2 ^ 63)); lia. Qed.

Lemma zero_page_byte w node c fsize pt v :
  loadable w node c fsize pt → umem w (ARCH_PHYS_TO_HHDM (ZeroPage g + v mod ARCH_PAGE_SIZE)) = 0.
Proof. intros Hld. apply (ld_zero_bytes _ _ _ _ _ Hld). by apply Z.mod_pos_bound. Qed.

(** The bytes of a segment in memory. *)
Definition segment_byte w c (ph : elf_phdr) (i : Z) : Z :=
  if decide (i < file_sz ph) then file_byte w c (ph_off ph + i) else 0.

(** A segment without a part in the file. *)
Lemma load_bss w node c fsize x ph vaddr :
  loadable w node c fsize (pagetable x) → segment_ok w c fsize vaddr ph → file_sz ph = 0 →
  (∀ a, pa_inv a → ∃ a', pg_hold a (ZeroPage g) = Ok a') →
  ∃ w', load g O_RDONLY vaddr ph node (Ctx x) w = Ok (E0, w') ∧ loadable w' node c fsize (pagetable x) ∧
    (∀ i, rx_lookup c (cache (fsdata w')) i = rx_lookup c (cache (fsdata w)) i) ∧ umem w' = umem w ∧
    (∀ i, 0 ≤ i < ph_mem_sz ph → user_byte w' (pagetable x) (vaddr + i) = Some (segment_byte w c ph i)) ∧
    (∀ v, 0 ≤ v < 2 ^ 48 → ¬ vaddr / ARCH_PAGE_SIZE ≤ v / ARCH_PAGE_SIZE ≤ (vaddr + ph_mem_sz ph - 1) / ARCH_PAGE_SIZE →
      arch_mmu_get_physical (cache (fsdata w')) (pagetable x) v = arch_mmu_get_physical (cache (fsdata w)) (pagetable x) v).
Proof.
  intros Hld [Hal [Hf0 Hfm] [Hv Hvm] _ _ Hroom] Hz Hh. unfold load. rewrite Hz.
  rewrite (s64_small (ph_mem_sz ph)) by (unfold ARCH_PAGE_SIZE in *; lia). change (s64 0) with 0.
  unfold load_head. cbn [l_fsz l_vaddr]. change (0 <? 0) with false. rewrite andb_false_r. cbn [mbind res_bind].
  unfold load_body. cbn [l_fsz]. change (0 <=? 0) with true. cbn [mbind res_bind].
  set (mis := vaddr mod ARCH_PAGE_SIZE). assert (Hmr : 0 ≤ mis < ARCH_PAGE_SIZE) by by apply Z.mod_pos_bound.
  assert (Hz' : ∃ l', load_zero g (Ctx x) (LoadState vaddr 0 (ph_mem_sz ph) 0 false) w = Ok (l', w) ∧
    (0 < ph_mem_sz ph → l_vaddr l' = vaddr - mis ∧ l_mem_sz l' = ph_mem_sz ph + mis) ∧
    (ph_mem_sz ph = 0 → l_vaddr l' = vaddr ∧ l_mem_sz l' = 0)).
  { unfold load_zero. cbn [l_vaddr l_mem_sz vaddr_mapped]. fold mis.
    destruct (Z.eqb_spec mis 0) as [Hm|Hm], (Z.ltb_spec 0 (ph_mem_sz ph)); cbn [negb andb];
      (eexists; split; [done|]); cbn [l_vaddr l_mem_sz]; split; intros; lia. }
  destruct Hz' as (l' & -> & Hl1 & Hl2). cbn [mbind res_bind].
  set (n := (Z.max 0 (l_mem_sz l') + ARCH_PAGE_SIZE - 1) / ARCH_PAGE_SIZE).
  destruct (decide (0 < ph_mem_sz ph)) as [Hp|Hp].
  - destruct (Hl1 Hp) as [E1 E2]. assert (Hn : n = (ph_mem_sz ph + mis + ARCH_PAGE_SIZE - 1) / ARCH_PAGE_SIZE) by (unfold n; rewrite E2, Z.max_r by lia; done).
    destruct (load_rest_spec w node c fsize x l' n Hld Hh) as (h & a & -> & Hld' & Hlk & Hg).
    { rewrite E1. unfold mis. page_lia. }
    { intros _. rewrite E1. unfold mis. page_lia. }
    { done. }
    { rewrite E1, Hn. unfold mis in *. page_lia. }
    { assert (n ≤ ph_mem_sz ph / ARCH_PAGE_SIZE + 2) by (rewrite Hn; unfold mis in *; page_lia).
      assert (0 ≤ ph_mem_sz ph / ARCH_PAGE_SIZE) by (apply Z.div_pos; [lia|done]). lia. }
    eexists. split; [done|]. split; [exact Hld'|]. split; [exact Hlk|]. split; [done|].
    assert (Hrange : ∀ v, l_vaddr l' ≤ v < l_vaddr l' + n * ARCH_PAGE_SIZE ↔
      vaddr / ARCH_PAGE_SIZE ≤ v / ARCH_PAGE_SIZE ≤ (vaddr + ph_mem_sz ph - 1) / ARCH_PAGE_SIZE).
    { intros v. rewrite E1, Hn. unfold mis in *. page_lia. }
    split.
    + intros i Hi. unfold user_byte, segment_byte. cbn [set_cache fsdata cache umem].
      rewrite Hg, decide_True by (first [apply Hrange; page_lia | unfold ARCH_PAGE_SIZE in *; lia]).
      rewrite (zero_page_byte w node c fsize (pagetable x) _ Hld). by rewrite Hz, decide_False by lia.
    + intros v Hvr Hne. cbn [set_cache fsdata cache]. rewrite Hg by done. rewrite decide_False; [done|]. by rewrite Hrange.
  - destruct (Hl2 ltac:(lia)) as [E1 E2]. unfold load_rest. rewrite E2. change (0 <=? 0) with true. exists w. split; [done|].
    do 3 (split; [done|]). split; [|done]. intros i Hi. lia.
Qed.

(** A segment with a part in the file. *)
Lemma load_data w node c fsize x ph vaddr :
  loadable w node c fsize (pagetable x) → holdable (A := A) → allocatable → segment_ok w c fsize vaddr ph → 0 < file_sz ph →
  (∀ a, pa_inv a → ∃ a', pg_hold a (ZeroPage g) = Ok a') →
  let z := tail_size (vaddr + file_sz ph) (ph_mem_sz ph - file_sz ph) in
  ∃ w', load g O_RDONLY vaddr ph node (Ctx x) w = Ok (E0, w') ∧ loadable w' node c fsize (pagetable x) ∧
    (∀ i, rx_lookup c (cache (fsdata w')) i = rx_lookup c (cache (fsdata w)) i) ∧
    (∀ i, 0 ≤ i < ph_mem_sz ph → user_byte w' (pagetable x) (vaddr + i) = Some (segment_byte w c ph i)) ∧
    (∀ v, 0 ≤ v < 2 ^ 48 → ¬ vaddr / ARCH_PAGE_SIZE ≤ v / ARCH_PAGE_SIZE ≤ (vaddr + ph_mem_sz ph - 1) / ARCH_PAGE_SIZE →
      arch_mmu_get_physical (cache (fsdata w')) (pagetable x) v = arch_mmu_get_physical (cache (fsdata w)) (pagetable x) v) ∧
    (tail_in_file vaddr (file_sz ph) → ∀ o, 0 ≤ o < FILE_SPAN →
      file_byte w' c o = if decide (ph_off ph + file_sz ph ≤ o < ph_off ph + file_sz ph + z) then 0 else file_byte w c o).
Proof.
  intros Hld Hh Hall Hsg Hpos Hzh z. pose proof Hsg as [Hal [Hf0 Hfm] [Hv Hvm] (Ho & Hof & Hfs) Hpg Hroom].
  unfold load. rewrite !s64_small by (unfold ARCH_PAGE_SIZE in *; lia).
  destruct (file_part_image w node c fsize x ph vaddr (ph_mem_sz ph) Hld Hh Hall Hsg Hpos)
    as (l & w1 & pg & Hrun & Hlv & Hlm & Hmap & Hld1 & Hfb1 & Hlk1 & Hfr1 & Him & Htail & Hhead).
  apply bind_Ok in Hrun as ([l0 w0] & -> & Hbody). cbn [mbind res_bind]. rewrite Hbody. cbn [mbind res_bind].
  destruct (load_zero_spec w w1 node c fsize x vaddr (file_sz ph) (ph_off ph) pg l (ph_mem_sz ph) Hld1 Him)
    as (l' & m & -> & Hlv' & Hlm' & Hm); try done; [unfold ARCH_PAGE_SIZE in *; lia|]. fold z in Hlv', Hlm', Hm. cbn [mbind res_bind].
  destruct (tail_size_range (vaddr + file_sz ph) (ph_mem_sz ph - file_sz ph)) as (Hz1 & Hz2 & Hz3); [lia|]. fold z in Hz1, Hz2, Hz3.
  set (e := vaddr + file_sz ph) in *. set (k := (e - 1) / ARCH_PAGE_SIZE) in *.
  destruct Him as [P1 P2 P3 P4 P5]. assert (Hkr : vaddr / ARCH_PAGE_SIZE ≤ k ≤ (e - 1) / ARCH_PAGE_SIZE) by (split; [apply Z.div_le_mono; [done|lia]|done]).
  destruct (P2 k Hkr) as [Hkv Hkz]. assert (Hem : 0 ≤ e mod ARCH_PAGE_SIZE < ARCH_PAGE_SIZE) by by apply Z.mod_pos_bound.
  (* memory after the clearing, at the bytes of the image *)
  assert (Hmpg : ∀ v, vaddr / ARCH_PAGE_SIZE ≤ v / ARCH_PAGE_SIZE ≤ (e - 1) / ARCH_PAGE_SIZE →
    m (ARCH_PHYS_TO_HHDM (pg (v / ARCH_PAGE_SIZE) + v mod ARCH_PAGE_SIZE)) =
    if decide (e ≤ v < e + z) then 0 else umem w1 (ARCH_PHYS_TO_HHDM (pg (v / ARCH_PAGE_SIZE) + v mod ARCH_PAGE_SIZE))).
  { intros v Hvk. assert (Hvm' : 0 ≤ v mod ARCH_PAGE_SIZE < ARCH_PAGE_SIZE) by by apply Z.mod_pos_bound.
    destruct (P2 _ Hvk) as [Hpv _]. rewrite hhdm_offset, Hm by done.
    destruct (in_range_spec (ARCH_PHYS_TO_HHDM (pg (v / ARCH_PAGE_SIZE)) + v mod ARCH_PAGE_SIZE) (ARCH_PHYS_TO_HHDM (pg k) + e mod ARCH_PAGE_SIZE) z) as [Hr|Hr].
    - destruct Hz3 as [Hz3 Hz4]; [lia|]. destruct (decide (pg (v / ARCH_PAGE_SIZE) = pg k)) as [He|He].
      + apply P3 in He; [|done|done]. rewrite decide_True; [done|]. rewrite He in Hr. unfold k in *. page_lia.
      + exfalso. apply (pages_apart _ _ _ Hpv Hkv He Hvm'). lia.
    - rewrite decide_False; [done|]. intros Hr'. apply Hr. destruct Hz3 as [Hz3 Hz4]; [lia|].
      assert (v / ARCH_PAGE_SIZE = k) as -> by (unfold k in *; page_lia). unfold k in *. page_lia. }
  assert (Hld2 : loadable (set_umem w1 m) node c fsize (pagetable x)).
  { apply loadable_mem; [done|]. intros i Hi. rewrite Hm. destruct (ld_zero _ _ _ _ _ Hld1) as [Hzv _]. rewrite hhdm_offset by done.
    destruct (in_range_spec (ARCH_PHYS_TO_HHDM (ZeroPage g) + i) (ARCH_PHYS_TO_HHDM (pg k) + e mod ARCH_PAGE_SIZE) z) as [Hr|]; [|done].
    exfalso. destruct Hz3 as [Hz3 Hz4]; [lia|]. apply (pages_apart (ZeroPage g) (pg k) i Hzv Hkv (not_eq_sym Hkz) Hi). lia. }
  set (n := (Z.max 0 (l_mem_sz l') + ARCH_PAGE_SIZE - 1) / ARCH_PAGE_SIZE).
  assert (Hn : n = (ph_mem_sz ph - file_sz ph - z + ARCH_PAGE_SIZE - 1) / ARCH_PAGE_SIZE) by (unfold n; rewrite Hlm', Z.max_r by lia; done).
  assert (Hev : 0 < ph_mem_sz ph - file_sz ph - z → (e + z) mod ARCH_PAGE_SIZE = 0) by (intros; apply Hz2; lia).
  destruct (load_rest_spec (set_umem w1 m) node c fsize x l' n Hld2 Hzh) as (h & a & -> & Hld3 & Hlk3 & Hg).
  { rewrite Hlv'. lia. }
  { intros Hl. rewrite Hlv'. apply Hev. lia. }
  { done. }
  { rewrite Hlv', Hn. unfold e in *. page_lia. }
  { cbn [set_umem fsdata tpages]. assert (Hsum : file_sz ph / ARCH_PAGE_SIZE + n ≤ ph_mem_sz ph / ARCH_PAGE_SIZE + 2) by (rewrite Hn; page_lia).
    assert (0 ≤ file_sz ph / ARCH_PAGE_SIZE) by (apply Z.div_pos; [lia|done]). assert (0 ≤ n) by (rewrite Hn; page_lia). lia. }
  eexists. split; [done|]. split; [exact Hld3|]. split; [intros i; cbn [set_cache fsdata cache]; rewrite Hlk3; exact (Hlk1 i)|].
  split; [|split].
  - intros i Hi. unfold user_byte, segment_byte. cbn [set_cache fsdata cache umem set_umem].
    rewrite Hg by (unfold ARCH_PAGE_SIZE in *; lia). cbn [set_umem fsdata cache].
    destruct (decide (l_vaddr l' ≤ vaddr + i < l_vaddr l' + n * ARCH_PAGE_SIZE)) as [Hr|Hr].
    + rewrite decide_False by (rewrite Hlv' in Hr; unfold e in *; lia).
      f_equal. exact (zero_page_byte (set_umem w1 m) node c fsize (pagetable x) (vaddr + i) Hld2).
    + assert (Hlt : vaddr + i < e + z).
      { rewrite Hlv', Hn in Hr. destruct (decide (e + z ≤ vaddr + i)); [|lia]. exfalso. apply Hr. unfold e in *. page_lia. }
      assert (Hpk : vaddr / ARCH_PAGE_SIZE ≤ (vaddr + i) / ARCH_PAGE_SIZE ≤ (e - 1) / ARCH_PAGE_SIZE).
      { destruct (decide (0 < z)); [destruct Hz3 as [? ?]; [done|]|]; unfold e in *; page_lia. }
      rewrite P1 by (done || (unfold ARCH_PAGE_SIZE in *; lia)). rewrite Hmpg by done.
      destruct (decide (e ≤ vaddr + i < e + z)) as [Hr'|Hr'].
      * by rewrite decide_False by (unfold e in *; lia).
      * rewrite P4 by (unfold e in *; lia). rewrite decide_True by (unfold e in *; lia). by replace (vaddr + i - vaddr) with i by lia.
  - intros v Hvr Hne. cbn [set_cache fsdata cache]. rewrite Hg by done. cbn [set_umem fsdata cache].
    rewrite decide_False. { apply P5; [done|]. intros Hr. apply Hne. split; [lia|]. etrans; [apply Hr|]. apply Z.div_le_mono; [done|unfold e; lia]. }
    intros Hr. apply Hne. rewrite Hlv', Hn in Hr. unfold e in *. page_lia.
  - intros Ht o Hor. replace (file_byte (set_cache (set_umem w1 m) h a) c o) with (file_byte (set_umem w1 m) c o).
    2: { unfold file_byte, byte_at. cbn [set_cache fsdata cache umem set_umem]. by rewrite Hlk3. }
    assert (Hff : ∀ i, file_frame w1 c i = file_frame w c i) by (intros i; unfold file_frame; by rewrite Hlk1).
    unfold FILE_SPAN in *.
    rewrite (cleared_file w1 node c fsize (pagetable x) m (pg k) e z (ph_off ph + file_sz ph) o Hld1); try done; try lia.
    + case_decide; [done|]. apply Hfb1. lia.
    + unfold FILE_SPAN, ARCH_PAGE_SIZE in *. lia.
    + unfold e. page_lia.
    + rewrite Hlk1. apply Hpg. lia.
    + rewrite Htail by done. by rewrite Hff.
Qed.
End load_lemmas.

(** ** Properties *)

Section elf_properties.
Context {S A : Type} `{!SlabAlloc S} `{VmMem A} `{!LibcConsts}.
Variable g : vmm_globals.
Variables uninit O_RDONLY : Z.
Implicit Types (w : world S (tmpfs A)) (c : kradixtree).
#[local] Existing Instance loader_tables.

(** C13: Loading a segment makes the process see it: the bytes of the file
    where the segment has them, zeros to its end in memory; no page that the
    segment does not touch is translated differently. *)
Theorem load_segment_image w node c fsize x ph vaddr :
  loadable g w node c fsize (pagetable x) → holdable (A := A) → allocatable (A := A) → segment_ok w c fsize vaddr ph →
  (∀ a, pa_inv a → ∃ a', pg_hold a (ZeroPage g) = Ok a') →
  ∃ w', load (VnodeTables0 := loader_tables g uninit) g O_RDONLY vaddr ph node (Ctx x) w = Ok (E0, w') ∧
    (∀ i, 0 ≤ i < ph_mem_sz ph → user_byte w' (pagetable x) (vaddr + i) =
      Some (if decide (i < file_sz ph) then file_byte w c (ph_off ph + i) else 0)) ∧
    (∀ v, 0 ≤ v < 2 ^ 48 → ¬ vaddr / ARCH_PAGE_SIZE ≤ v / ARCH_PAGE_SIZE ≤ (vaddr + ph_mem_sz ph - 1) / ARCH_PAGE_SIZE →
      arch_mmu_get_physical (cache (fsdata w')) (pagetable x) v = arch_mmu_get_physical (cache (fsdata w)) (pagetable x) v).
Proof.
  intros Hld Hh Hall Hsg Hz. pose proof Hsg as [_ [Hf0 _] _ _ _ _]. destruct (decide (file_sz ph = 0)) as [He|He].
  - destruct (load_bss g uninit O_RDONLY w node c fsize x ph vaddr Hld Hsg He Hz) as (w' & Hrun & _ & _ & _ & Hb & Ho).
    by exists w'.
  - destruct (load_data g uninit O_RDONLY w node c fsize x ph vaddr Hld Hh Hall Hsg ltac:(lia) Hz) as (w' & Hrun & _ & _ & Hb & Ho & _).
    by exists w'.
Qed.

(** C16: The zeros behind the file's part are written to the page of the file
    itself when the last page is mapped from it: loading a program clears the
    bytes of its file that follow the segment. *)
Theorem load_clears_file w node c fsize x ph vaddr o :
  loadable g w node c fsize (pagetable x) → holdable (A := A) → allocatable (A := A) → segment_ok w c fsize vaddr ph →
  (∀ a, pa_inv a → ∃ a', pg_hold a (ZeroPage g) = Ok a') →
  0 < file_sz ph → tail_in_file vaddr (file_sz ph) → (vaddr + file_sz ph) mod ARCH_PAGE_SIZE ≠ 0 →
  ph_off ph + file_sz ph ≤ o < ph_off ph + ph_mem_sz ph →
  o / ARCH_PAGE_SIZE = (ph_off ph + file_sz ph - 1) / ARCH_PAGE_SIZE →
  ∃ w', load (VnodeTables0 := loader_tables g uninit) g O_RDONLY vaddr ph node (Ctx x) w = Ok (E0, w') ∧ file_byte w' c o = 0.
Proof.
  intros Hld Hh Hall Hsg Hz Hpos Ht Hm Ho Hpg. pose proof Hsg as [Hal [Hf0 Hfm] [Hv Hvm] (Hoff & Hof & Hfs) _ _].
  destruct (load_data g uninit O_RDONLY w node c fsize x ph vaddr Hld Hh Hall Hsg Hpos Hz) as (w' & Hrun & _ & _ & _ & _ & Hfile).
  exists w'. split; [done|]. unfold FILE_SPAN in *. rewrite Hfile by (done || (unfold FILE_SPAN; page_lia)).
  rewrite decide_True; [done|]. split; [lia|]. unfold tail_size.
  destruct (Z.eqb_spec ((vaddr + file_sz ph) mod ARCH_PAGE_SIZE) 0); [done|]. page_lia.
Qed.

(** Reading a file into a buffer of the kernel that is clear of its pages. *)
Lemma read_file w node c fsize pt buf n off flags :
  loadable g w node c fsize pt → 0 ≤ off → 0 ≤ n → off + n < 2 ^ 64 →
  let k := Z.max 0 (Z.min n (fsize - off)) in
  clear_of_pages w c buf k →
  ∃ m, com_fs_vfs_read (VnodeTables0 := loader_tables g uninit) buf n node off flags w = Ok (E0, Some k, set_umem w m) ∧
    ∀ a, m a = if in_range a buf k then file_byte w c (off + (a - buf)) else umem w a.
Proof.
  intros Hld Ho Hn Hl k Hc. destruct Hld as [(vn & t & Hvn & Hops & Hty & Htn & Hd) Hs Hsp _ _ _].
  destruct (tmpfs_read_spec w node vn t fsize c buf n off flags) as (m & Hrd & Hm); try done; [by rewrite Hty|by apply (so_file _ _ _ Hsp)|].
  exists m. split; [|exact Hm]. unfold com_fs_vfs_read, vnode_ops. rewrite Hvn. mstep.
  unfold optab at 1, loader_tables at 1, mapped_tables. rewrite Hops, Z.eqb_refl. cbn [op_read tmpfs_mmap_ops]. rewrite Hrd. done.
Qed.

(** What is asked of the buffers of a call: they are clear of the pages of
    the file. *)
Definition frame_clear w c (fr : elf_frame) : Prop :=
  clear_of_pages w c (fr_signature fr) 4 ∧ clear_of_pages w c (fr_hdr fr) sizeof_elf_header.

Lemma clear_less w c buf n k : clear_of_pages w c buf n → k ≤ n → clear_of_pages w c buf k.
Proof. intros Hc Hk i p Hp. destruct (Hc i p Hp); lia. Qed.

Lemma read_signature w node c fsize pt fr :
  loadable g w node c fsize pt → clear_of_pages w c (fr_signature fr) 4 → 4 ≤ fsize →
  ∃ m, com_fs_vfs_read (VnodeTables0 := loader_tables g uninit) (fr_signature fr) 4 node 0 0 w = Ok (E0, Some 4, set_umem w m) ∧
    rd_bytes m (fr_signature fr) 4 = [file_byte w c 0; file_byte w c 1; file_byte w c 2; file_byte w c 3] ∧
    ∀ a, ¬ in_range a (fr_signature fr) 4 → m a = umem w a.
Proof.
  intros Hld Hc Hs. destruct (read_file w node c fsize pt (fr_signature fr) 4 0 0 Hld) as (m & Hrd & Hm); try lia.
  { rewrite Z.sub_0_r, Z.min_l, Z.max_r by lia. done. }
  rewrite Z.sub_0_r, Z.min_l, Z.max_r in * by lia. exists m. split; [done|]. split.
  - cbn [rd_bytes]. rewrite !Hm. set (b := fr_signature fr).
    destruct (in_range_spec b b 4), (in_range_spec (b + 1) b 4), (in_range_spec (b + 1 + 1) b 4), (in_range_spec (b + 1 + 1 + 1) b 4); try lia.
    repeat f_equal; lia.
  - intros a Ha. rewrite Hm. by destruct (in_range a (fr_signature fr) 4).
Qed.

(** A file that does not start with the magic number is refused with
    [EACCES], with nothing mapped. *)
Theorem load_file_bad_magic w node c fsize pt fr out virt_off ctx :
  loadable g w node c fsize pt → frame_clear w c fr → 4 ≤ fsize →
  [file_byte w c 0; file_byte w c 1; file_byte w c 2; file_byte w c 3] ≠ elf_magic →
  ∃ w', load_file (VnodeTables0 := loader_tables g uninit) g O_RDONLY fr out node virt_off ctx w = Ok (EACCES, w') ∧
    cache (fsdata w') = cache (fsdata w) ∧ ∀ a, ¬ in_range a (fr_signature fr) 4 → umem w' a = umem w a.
Proof.
  intros Hld [Hc _] Hs Hne. unfold load_file. pose proof Hld as [(vn & t & Hvn & _ & Hty & _) _ _ _ _ _]. rewrite Hvn. mstep.
  rewrite Hty. rewrite bool_decide_eq_true_2 by done. cbn [negb].
  destruct (read_signature w node c fsize pt fr Hld Hc Hs) as (m & -> & Hb & Hout). mstep.
  rewrite bool_decide_eq_true_2 by done. cbn [negb default id set_umem umem]. rewrite Hb, bool_decide_eq_false_2 by done.
  cbn. by eexists.
Qed.

(** A file that starts with the magic number and is shorter than an ELF
    header stops the kernel: the assertion on the bytes read fails. *)
Theorem short_program_panics w node c fsize pt fr out virt_off ctx :
  loadable g w node c fsize pt → frame_clear w c fr → 4 ≤ fsize < 64 →
  [file_byte w c 0; file_byte w c 1; file_byte w c 2; file_byte w c 3] = elf_magic →
  (∀ i, 0 ≤ i < ARCH_PAGE_SIZE → ¬ in_range (ARCH_PHYS_TO_HHDM (ZeroPage g + i)) (fr_signature fr) 4) →
  (∀ i, 0 ≤ i < ARCH_PAGE_SIZE → ¬ in_range (ARCH_PHYS_TO_HHDM (ZeroPage g + i)) (fr_hdr fr) 64) →
  load_file (VnodeTables0 := loader_tables g uninit) g O_RDONLY fr out node virt_off ctx w = Panic.
Proof.
  intros Hld [Hc Hc2] Hs Hmagic Hz1 Hz2. unfold load_file. pose proof Hld as [(vn & t & Hvn & _ & Hty & _) _ _ _ _ _]. rewrite Hvn. mstep.
  rewrite Hty. rewrite bool_decide_eq_true_2 by done. cbn [negb].
  destruct (read_signature w node c fsize pt fr Hld Hc ltac:(lia)) as (m & -> & Hb & Hout). mstep.
  rewrite bool_decide_eq_true_2 by done. cbn [negb default id set_umem umem]. rewrite Hb, bool_decide_eq_true_2 by done.
  change (4 =? 4) with true. cbn [negb orb]. 
  set (m2 := (kmemset (fr_hdr fr) sizeof_elf_header 0 m).2).
  assert (Hld2 : loadable g (set_umem (set_umem w m) m2) node c fsize pt).
  { apply loadable_mem; [apply loadable_mem; [done|]|].
    - intros i Hi. apply Hout. by apply Hz1.
    - intros i Hi. cbn [set_umem umem]. unfold m2. rewrite kmemset_lookup by done.
      specialize (Hz2 i Hi). destruct (in_range (ARCH_PHYS_TO_HHDM (ZeroPage g + i)) (fr_hdr fr) sizeof_elf_header) eqn:E; [|done].
      change sizeof_elf_header with 64 in E. rewrite E in Hz2. by destruct Hz2. }
  destruct (read_file (set_umem (set_umem w m) m2) node c fsize pt (fr_hdr fr) sizeof_elf_header 0 O_RDONLY Hld2) as (m3 & -> & _);
    [lia|done|done| |].
  { eapply clear_less; [exact Hc2|]. unfold sizeof_elf_header. lia. }
  mstep. rewrite bool_decide_eq_true_2 by done. cbn [negb default id].
  destruct (Z.eqb_spec sizeof_elf_header (Z.max 0 (Z.min sizeof_elf_header (fsize - 0)))); [unfold sizeof_elf_header in *; lia|]. done.
Qed.

(** Executing something that is no regular file succeeds: nothing is loaded
    and the entry point is left as it was. *)
Theorem load_non_file_succeeds `{!VnodeTables S (tmpfs A)} w w1 w2 node v fr out path root cwd virt_off ctx :
  com_fs_vfs_lookup path root cwd true w = Ok (E0, Some node, w1) → vnodes w1 !! node = Some v →
  type v ≠ E_COM_VNODE_TYPE_FILE → COM_FS_VFS_VNODE_RELEASE (Some node) w1 = Ok w2 →
  com_sys_elf64_load g O_RDONLY fr out path root cwd virt_off ctx w = Ok (E0, w2).
Proof.
  intros Hl Hv Ht Hr. unfold com_sys_elf64_load. rewrite Hl. mstep. rewrite bool_decide_eq_true_2 by done. cbn [negb]. mstep.
  unfold load_file. rewrite Hv. mstep. rewrite bool_decide_eq_false_2 by done. cbn [negb]. mstep. rewrite Hr. done.
Qed.

(** The program header at an offset of the file, whatever address it is read
    to. *)
Definition phdr_at w c (off : Z) (ph : elf_phdr) : Prop :=
  ∀ m a, (∀ i, 0 ≤ i < sizeof_elf_phdr → m (a + i) = file_byte w c (off + i)) → get_elf_phdr m a = ph.

(** The path of the interpreter is read without a bound: what is longer than
    the array of 64 characters lands behind the structure. *)
Theorem interp_path_overflows w node c fsize pt fr out virt_off phoff i ctx ph :
  loadable g w node c fsize pt → 0 ≤ phoff → 0 ≤ i → phoff + i * sizeof_elf_phdr + sizeof_elf_phdr ≤ fsize →
  phdr_at w c (phoff + i * sizeof_elf_phdr) ph → ph_type ph = PT_INTERP →
  64 < file_sz ph → 0 ≤ ph_off ph → ph_off ph + file_sz ph ≤ fsize →
  clear_of_pages w c (fr_phdr fr) sizeof_elf_phdr → clear_of_pages w c (out + ED_INTERPRETER_PATH) (file_sz ph) →
  (∀ k, 0 ≤ k < ARCH_PAGE_SIZE → ¬ in_range (ARCH_PHYS_TO_HHDM (ZeroPage g + k)) (fr_phdr fr) sizeof_elf_phdr) →
  ∃ w', phdr_step (VnodeTables0 := loader_tables g uninit) g O_RDONLY fr out node virt_off phoff i ctx w = Ok (E0, w') ∧
    ∀ k, 64 ≤ k < file_sz ph → umem w' (out + sizeof_com_elf_data + (k - 64)) = file_byte w c (ph_off ph + k).
Proof.
  intros Hld Hp Hi Hfit Hph Hty Hlen Ho Hof Hc1 Hc2 Hz. pose proof (ld_size _ _ _ _ _ _ Hld) as Hsz. unfold FILE_SPAN, sizeof_elf_phdr in *.
  unfold phdr_step, sizeof_elf_phdr. rewrite wrap_small by lia. set (m1 := (kmemset _ _ _ _).2).
  assert (Hld1 : loadable g (set_umem w m1) node c fsize pt).
  { apply loadable_mem; [done|]. intros k Hk. unfold m1. rewrite kmemset_lookup by done. specialize (Hz k Hk).
    destruct (in_range (ARCH_PHYS_TO_HHDM (ZeroPage g + k)) (fr_phdr fr) 56); [|done]. by destruct Hz. }
  assert (Hfb1 : ∀ o, 0 ≤ o → file_byte (set_umem w m1) c o = file_byte w c o).
  { intros o Hoo. unfold file_byte, byte_at. cbn [set_umem umem fsdata]. destruct (rx_lookup c (cache (fsdata w)) (o / ARCH_PAGE_SIZE)) as [p|] eqn:E; [|done].
    destruct (page_offsets o Hoo) as [_ Hr]. unfold m1. rewrite kmemset_lookup by done. destruct (in_range_spec (p + o mod ARCH_PAGE_SIZE) (fr_phdr fr) 56); [|done].
    destruct (Hc1 _ _ E); lia. }
  destruct (read_file (set_umem w m1) node c fsize pt (fr_phdr fr) 56 (phoff + i * 56) O_RDONLY Hld1) as (m2 & -> & Hm2); [lia|lia|lia|eapply clear_less; [exact Hc1|lia]|].
  rewrite Z.min_l, Z.max_r in Hm2 by lia. mstep. rewrite bool_decide_eq_true_2 by done. cbn [negb set_umem umem].
  assert (Hget : get_elf_phdr m2 (fr_phdr fr) = ph).
  { apply Hph. intros k Hk. unfold sizeof_elf_phdr in *. rewrite Hm2. destruct (in_range_spec (fr_phdr fr + k) (fr_phdr fr) 56); [|lia]. rewrite Hfb1 by lia. f_equal. lia. }
  rewrite Hget, Hty. change (PT_INTERP =? PT_INTERP) with true. cbv iota.
  assert (Hld2 : loadable g (set_umem (set_umem w m1) m2) node c fsize pt).
  { apply loadable_mem; [done|]. intros k Hk. cbn [set_umem umem]. rewrite Hm2. specialize (Hz k Hk).
    destruct (in_range (ARCH_PHYS_TO_HHDM (ZeroPage g + k)) (fr_phdr fr) 56); [|done]. by destruct Hz. }
  assert (Hfb2 : ∀ o, 0 ≤ o → file_byte (set_umem (set_umem w m1) m2) c o = file_byte w c o).
  { intros o Hoo. rewrite <- Hfb1 by done. unfold file_byte, byte_at. cbn [set_umem umem fsdata]. destruct (rx_lookup c (cache (fsdata w)) (o / ARCH_PAGE_SIZE)) as [p|] eqn:E; [|done].
    destruct (page_offsets o Hoo) as [_ Hr]. rewrite Hm2. destruct (in_range_spec (p + o mod ARCH_PAGE_SIZE) (fr_phdr fr) 56); [|done].
    destruct (Hc1 _ _ E); lia. }
  destruct (read_file (set_umem (set_umem w m1) m2) node c fsize pt (out + ED_INTERPRETER_PATH) (file_sz ph) (ph_off ph) 0 Hld2) as (m3 & -> & Hm3);
    [lia|lia|lia|eapply clear_less; [exact Hc2|lia]|].
  rewrite Z.min_l, Z.max_r in Hm3 by lia. mstep. eexists. split; [done|]. intros k Hk. cbn [set_umem umem]. rewrite Hm3.
  unfold sizeof_com_elf_data, ED_INTERPRETER_PATH. destruct (in_range_spec (out + 96 + (k - 64)) (out + 32) (file_sz ph)); [|lia].
  rewrite Hfb2 by lia. f_equal. lia.
Qed.
End elf_properties.

(** ** Witnesses

    The file of [Filemap.demo_w4], grown to 100 bytes that start with the
    magic number, and a zero page. *)
#[local] Existing Instance demo_libc.

Definition demo_zero : Z := match vm_alloc (tpages (fsdata demo_w4)) with Ok (z, _) => z | _ => 0 end.
Definition demo_text : Z := default 0 (rx_lookup demo_fc (cache (fsdata demo_w4)) 0).
Definition demo_elf (size : Z) : demo_world :=
  match vm_alloc (tpages (fsdata demo_w4)), vnodes demo_w4 !! demo_file with
  | Ok (_, a), Some v =>
      match tnodes (fsdata demo_w4) !! extra v with
      | Some t => set_umem (set_tnode (set_cache demo_w4 (cache (fsdata demo_w4)) a) (extra v) (set_data t (TFile size demo_fc)))
                    (wr_bytes (λ _, 0) demo_text (elf_magic ++ [2; 1; 1]))
      | None => demo_w4
      end
  | _, _ => demo_w4
  end.
Definition demo_elf_glob : vmm_globals := mkGlob 0 demo_zero None.

(** A file with new contents and size beside a fresh zero page. *)
Definition with_contents (w : demo_world) (a : bump) (n : Z) (t : tmpfs_node) (c : kradixtree) (size p : Z) : demo_world :=
  set_umem (set_tnode (set_cache w (cache (fsdata w)) a) n (set_data t (TFile size c)))
    (wr_bytes (λ _, 0) p (elf_magic ++ [2; 1; 1])).

Lemma with_contents_loadable (w : demo_world) node vn t fsize c pt z a p size :
  vnodes w !! node = Some vn → ops vn = TmpfsNodeOps → type vn = E_COM_VNODE_TYPE_FILE →
  tnodes (fsdata w) !! extra vn = Some t → tn_data t = TFile fsize c → space_ok w c pt →
  rx_lookup c (cache (fsdata w)) 0 = Some p → vm_alloc (tpages (fsdata w)) = Ok (z, a) → 0 ≤ size ≤ 1000 →
  loadable (mkGlob 0 z None) (with_contents w a (extra vn) t c size p) node c size pt.
Proof.
  intros Hv Ho Hty Ht Hd Hsp Hp Hal Hs. destruct (space_inv _ _ _ Hsp) as [Hinv Hown].
  destruct (vm_alloc_ok _ _ _ Hinv Hal) as (Hi & Hz & Hnt & Htk & _).
  destruct (space_map w c pt (cache (fsdata w)) a Hsp) as [[S1 S2 S3] _]; [|by apply (so_tree _ _ _ Hsp)|done| |].
  { split; [intros r Hr Hn; done|]. intros r Hr. apply Htk. by right. }
  { intros r Hr Hs'. apply Htk. right. by apply Hown. }
  destruct (fo_pages _ _ (so_file _ _ _ Hsp) 0 p Hp) as (q & Hq & Hpq & Htq). split.
  - exists vn, (set_data t (TFile size c)). do 3 (split; [done|]). split; [|done].
    unfold with_contents. cbn [set_umem set_tnode fsdata tnodes]. by rewrite lookup_insert_eq.
  - unfold FILE_SPAN. lia.
  - split; [exact S1| |exact S3]. destruct S2 as [F1 F2 F3 F4]. split; [exact F1|exact F2|exact F3|exact F4].
  - split; [done|]. apply Htk. by left.
  - intros i r Hr. cbn [ZeroPage]. change (rx_lookup c (cache (fsdata w)) i = Some r) in Hr.
    destruct (fo_pages _ _ (so_file _ _ _ Hsp) i r Hr) as (r' & Hr' & -> & Htr). intros ?%hhdm_inj; [|done|done]. subst r'. done.
  - intros i Hir. unfold with_contents. cbn [ZeroPage set_umem umem]. rewrite wr_bytes_lookup, Hpq.
    rewrite hhdm_offset by done. destruct (in_range_spec (ARCH_PHYS_TO_HHDM z + i) (ARCH_PHYS_TO_HHDM q) (Z.of_nat (length (elf_magic ++ [2; 1; 1])))) as [Hr|Hr]; [|done].
    exfalso. apply (pages_apart z q i Hz Hq); [intros ->; done|done|]. cbn in Hr. unfold ARCH_PAGE_SIZE. lia.
Qed.

Lemma demo_elf_ok size : 0 ≤ size ≤ 1000 →
  loadable demo_elf_glob (demo_elf size) demo_file demo_fc size demo_table ∧
  rx_lookup demo_fc (cache (fsdata (demo_elf size))) 0 = Some demo_text.
Proof.
  intros Hs. destruct demo_w4_ok as (vn & t & fsize & Hv & Ho & Hty & Ht & Hd & Hsp & [p Hp]).
  assert (Hal : ∃ z a, vm_alloc (tpages (fsdata demo_w4)) = Ok (z, a)) by (eexists _, _; vm_compute; reflexivity).
  destruct Hal as (z & a & Hal).
  pose proof (with_contents_loadable demo_w4 demo_file vn t fsize demo_fc demo_table z a p size Hv Ho Hty Ht Hd Hsp Hp Hal Hs) as Hld.
  unfold demo_elf_glob, demo_elf, demo_zero, demo_text. rewrite Hal, Hv, Ht, Hp. split; [exact Hld|exact Hp].
Qed.

Lemma low_frame_clear {S A} `{VmMem A} (w : world S (tmpfs A)) c fr :
  file_ok w c → fr_signature fr + 4 ≤ HHDM_BASE → fr_hdr fr + 64 ≤ HHDM_BASE → frame_clear w c fr.
Proof. intros Hf H1' H2'. split; by apply low_clear. Qed.

Lemma file_ok_mem {S A} `{VmMem A} (w : world S (tmpfs A)) c m : file_ok w c → file_ok (set_umem w m) c.
Proof. by intros []; split. Qed.

Lemma bump_allocatable : allocatable (A := bump).
Proof.
  intros [n] Hi Hf. cbn in *. unfold bump_alloc. cbn. destruct (Z.ltb_spec n (2 ^ 34)); [by eexists _, _|].
  lia.
Qed.

Definition demo_segment : elf_phdr := ElfPhdr PT_LOAD 0 0x400000 20 8200.

Lemma demo_segment_ok : segment_ok (demo_elf 100) demo_fc 100 0x400000 demo_segment.
Proof.
  destruct (demo_elf_ok 100 ltac:(lia)) as [_ Hp]. split.
  - reflexivity.
  - cbn. lia.
  - unfold ARCH_PAGE_SIZE. cbn. lia.
  - unfold FILE_SPAN, ARCH_PAGE_SIZE. cbn. lia.
  - intros o Ho. cbn in Ho. rewrite Z.div_small by (unfold ARCH_PAGE_SIZE; lia). by eexists.
  - eapply Nat.le_trans; [|apply bump_room; vm_compute; split; discriminate].
    change (ph_mem_sz demo_segment / ARCH_PAGE_SIZE) with 2. lia.
Qed.

Lemma load_segment_image_witness :
  ∃ w', load (VnodeTables0 := loader_tables demo_elf_glob 0) demo_elf_glob 0 0x400000 demo_segment demo_file (Ctx demo_space_ctx) (demo_elf 100) = Ok (E0, w') ∧
    user_byte w' demo_table (0x400000 + 8199) = Some 0.
Proof.
  destruct (load_segment_image demo_elf_glob 0 0 (demo_elf 100) demo_file demo_fc 100 demo_space_ctx demo_segment 0x400000) as (w' & Hrun & Hb & _).
  - exact (proj1 (demo_elf_ok 100 ltac:(lia))).
  - exact bump_holdable.
  - exact bump_allocatable.
  - exact demo_segment_ok.
  - intros a _. by exists a.
  - exists w'. split; [exact Hrun|]. exact (Hb 8199 ltac:(cbn; lia)).
Defined.

Lemma load_clears_file_witness :
  ∃ w', load (VnodeTables0 := loader_tables demo_elf_glob 0) demo_elf_glob 0 0x400000 demo_segment demo_file (Ctx demo_space_ctx) (demo_elf 100) = Ok (E0, w') ∧
    file_byte w' demo_fc 50 = 0.
Proof.
  apply (load_clears_file demo_elf_glob 0 0 (demo_elf 100) demo_file demo_fc 100 demo_space_ctx demo_segment 0x400000 50).
  - exact (proj1 (demo_elf_ok 100 ltac:(lia))).
  - exact bump_holdable.
  - exact bump_allocatable.
  - exact demo_segment_ok.
  - intros a _. by exists a.
  - cbn. lia.
  - by left.
  - discriminate.
  - cbn. lia.
  - reflexivity.
Defined.

Lemma short_program_panics_witness :
  load_file (VnodeTables0 := loader_tables demo_elf_glob 0) demo_elf_glob 0 (ElfFrame 100 200 300) 400 demo_file 0 (Ctx demo_space_ctx) (demo_elf 40) = Panic.
Proof.
  pose proof (demo_elf_ok 40 ltac:(lia)) as [Hld Hp].
  pose proof (so_file _ _ _ (ld_space _ _ _ _ _ _ Hld)) as Hf.
  assert (Hzr : ∀ i b n, 0 ≤ i < ARCH_PAGE_SIZE → b + n ≤ 1000 → ¬ in_range (ARCH_PHYS_TO_HHDM (demo_zero + i)) b n).
  { intros i b n Hi Hb. pose proof (proj1 (ld_zero _ _ _ _ _ _ Hld)) as Hz. cbn [demo_elf_glob ZeroPage] in Hz. rewrite hhdm_offset by done.
    pose proof (hhdm_base_le _ Hz). destruct (in_range_spec (ARCH_PHYS_TO_HHDM demo_zero + i) b n) as [Hr|]; [|tauto]. unfold HHDM_BASE in *. lia. }
  apply (short_program_panics demo_elf_glob 0 0 (demo_elf 40) demo_file demo_fc 40 demo_table (ElfFrame 100 200 300) 400 0 (Ctx demo_space_ctx)).
  - exact Hld.
  - apply low_frame_clear; [exact Hf|discriminate|discriminate].
  - lia.
  - vm_compute. reflexivity.
  - intros i Hi. apply Hzr; [exact Hi|cbn; lia].
  - intros i Hi. apply Hzr; [exact Hi|cbn; lia].
Defined.

Lemma load_file_bad_magic_witness :
  ∃ w', load_file (VnodeTables0 := loader_tables demo_elf_glob 0) demo_elf_glob 0 (ElfFrame 100 200 300) 400 demo_file 0 (Ctx demo_space_ctx)
    (set_umem (demo_elf 40) (λ _, 0)) = Ok (EACCES, w').
Proof.
  pose proof (demo_elf_ok 40 ltac:(lia)) as [Hld Hp].
  pose proof (so_file _ _ _ (ld_space _ _ _ _ _ _ Hld)) as Hf.
  destruct (load_file_bad_magic demo_elf_glob 0 0 (set_umem (demo_elf 40) (λ _, 0)) demo_file demo_fc 40 demo_table (ElfFrame 100 200 300) 400 0 (Ctx demo_space_ctx)) as (w' & Hrun & _).
  - apply loadable_mem; [exact Hld|]. intros i Hi. by rewrite (ld_zero_bytes _ _ _ _ _ _ Hld).
  - apply low_frame_clear; [exact (file_ok_mem _ _ _ Hf)|discriminate|discriminate].
  - lia.
  - vm_compute. discriminate.
  - exists w'. exact Hrun.
Defined.

(** The root of the file system is no program; executing it "succeeds". *)
Lemma load_non_file_succeeds_witness :
  ∃ w', com_sys_elf64_load (VnodeTables0 := loader_tables demo_elf_glob 0) demo_elf_glob 0 (ElfFrame 100 200 300) 400 [47] demo_root (Some demo_root) 0
    (Ctx demo_space_ctx) demo_w2 = Ok (E0, w').
Proof.
  eexists. eapply (load_non_file_succeeds demo_elf_glob 0 demo_w2).
  - vm_compute. reflexivity.
  - vm_compute. reflexivity.
  - discriminate.
  - vm_compute. reflexivity.
Defined.
