(* ===== verification/Elfstack.v ===== *)
(** * Starting a program, src/com/sys/elf.c: the initial stack and the context

    com_sys_elf64_prepare_stack writes the arguments and the environment, the
    vectors of pointers to them and the auxiliary vector below the top of a
    page, through the higher-half map; com_sys_elf64_prepare_proc puts a new
    address space, the program and its interpreter, the stack and the initial
    registers together. *)
From S2P Require Import Prelude Mem Str PageTree Pmm Mmu Vmm Radixtree Slab Vfs Tmpfs Filemap Elf.

Definition AT_NULL : Z := 0.
Definition AT_PHDR : Z := 3.
Definition AT_PHENT : Z := 4.
Definition AT_PHNUM : Z := 5.
Definition AT_ENTRY : Z := 9.

(** [com_elf_data_t] as [com_sys_elf64_prepare_stack] gets it. *)
Record com_elf_data : Type := ElfData { entry : Z; phdr : Z; phent_sz : Z; ed_phent_num : Z }.

(** [PUSH(x)] *)
Definition PUSH (x : Z) (st : Z * mem) : Z * mem :=
  let '(stackptr, m) := st in let stackptr := u64 (stackptr - 8) in (stackptr, wr_u64 m stackptr x).

(** [kstrlen] takes the fuel it is given. *)
Section stack.
Variable fuel : nat.

(** The loops that copy the strings of a vector; they return the number of
    strings. *)
Fixpoint copy_strings (todo : nat) (vec i stackptr : Z) (m : mem) : res (Z * Z * mem) :=
  match todo with
  | O => Fuel
  | S todo =>
      let s := rd_uint 8 m (vec + 8 * i) in
      if s =? 0 then Ok (i, stackptr, m)
      else
        len ← kstrlen fuel s m;
        let len := u64 (len + 1) in
        let stackptr := u64 (stackptr - len) in
        copy_strings todo vec (u64 (i + 1)) stackptr (kmemcpy stackptr s len m).2
  end.

(** The loops that store where the copies are: [base] is the address of the
    vector on the stack, [off] the bytes of the strings so far. *)
Fixpoint put_pointers (todo : nat) (vec base stack_end_virt i off : Z) (m : mem) : res (Z * mem) :=
  match todo with
  | O => Ok (off, m)
  | S todo =>
      len ← kstrlen fuel (rd_uint 8 m (vec + 8 * i)) m;
      let off := u64 (off + u64 (len + 1)) in
      put_pointers todo vec base stack_end_virt (i + 1) off (wr_u64 m (base + 8 * i) (u64 (stack_end_virt - off)))
  end.

Definition com_sys_elf64_prepare_stack (elf_data : com_elf_data) (stack_end_phys stack_end_virt argv envp : Z) (m : mem)
    : res (Z * mem) :=
  let orig := ARCH_PHYS_TO_HHDM stack_end_phys in
  '(envc, stackptr, m) ← copy_strings fuel envp 0 orig m;
  '(argc, stackptr, m) ← copy_strings fuel argv 0 stackptr m;
  let stackptr := Z.ldiff stackptr 0xF in
  let stackptr := if negb (Z.land (argc + envc + 1) 1 =? 0) then u64 (stackptr - 8) else stackptr in
  let '(stackptr, m) := PUSH 0 (stackptr, m) in
  let '(stackptr, m) := PUSH 0 (stackptr, m) in
  let '(stackptr, m) := PUSH (entry elf_data) (stackptr, m) in
  let '(stackptr, m) := PUSH AT_ENTRY (stackptr, m) in
  let '(stackptr, m) := PUSH (phdr elf_data) (stackptr, m) in
  let '(stackptr, m) := PUSH AT_PHDR (stackptr, m) in
  let '(stackptr, m) := PUSH (phent_sz elf_data) (stackptr, m) in
  let '(stackptr, m) := PUSH AT_PHENT (stackptr, m) in
  let '(stackptr, m) := PUSH (ed_phent_num elf_data) (stackptr, m) in
  let '(stackptr, m) := PUSH AT_PHNUM (stackptr, m) in
  let '(stackptr, m) := PUSH 0 (stackptr, m) in
  let stackptr := u64 (stackptr - 8 * envc) in
  '(off, m) ← put_pointers (Z.to_nat envc) envp stackptr stack_end_virt 0 0 m;
  let '(stackptr, m) := PUSH 0 (stackptr, m) in
  let stackptr := u64 (stackptr - 8 * argc) in
  '(_, m) ← put_pointers (Z.to_nat argc) argv stackptr stack_end_virt 0 off m;
  let '(stackptr, m) := PUSH argc (stackptr, m) in
  Ok (u64 (stack_end_virt - (orig - stackptr)), m).
End stack.

(** ** The registers a program starts with: the fields that
    [ARCH_CONTEXT_THREAD_SET] sets; the others are zero. *)
Record thread_context : Type := ThreadContext { tc_cs : Z; tc_ss : Z; tc_rsp : Z; tc_rip : Z; tc_rflags : Z }.
Definition ARCH_CONTEXT_THREAD_SET (stack stack_size entry : Z) : thread_context :=
  ThreadContext (Z.lor 0x20 3) (Z.lor 0x18 3) (u64 (stack + stack_size)) entry
    (Z.lor (Z.lor (Z.shiftl 1 1) (Z.shiftl 1 9)) (Z.shiftl 1 21)).


(** The addresses of the variables of a call of com_sys_elf64_prepare_proc:
    those of its two calls of the loader, and its two structures. *)
Record proc_frame : Type := ProcFrame { pf_load : elf_frame; pf_prog_data : Z; pf_interp_data : Z }.

Section prepare.
Context {S A : Type} `{!SlabAlloc S} `{VmMem A} `{!VnodeTables S (tmpfs A)}.
Variable g : vmm_globals.
Variable O_RDONLY : Z.
Variable fuel : nat.
Implicit Types (w : world S (tmpfs A)).

Definition get_elf_data (m : mem) (a : Z) : com_elf_data :=
  ElfData (rd_uint 8 m (a + ED_ENTRY)) (rd_uint 8 m (a + ED_PHDR)) (rd_uint 8 m (a + ED_PHENT_SZ)) (rd_uint 8 m (a + ED_PHENT_NUM)).

(** The program and, if it names one, its interpreter: the address to start
    at. *)
Definition load_programs (fr : proc_frame) (path : Z) (root : Z) (cwd : option Z) (ctx : ctxarg) w
    : res (errno * Z * world S (tmpfs A)) :=
  let w := set_umem w (kmemset (pf_prog_data fr) sizeof_com_elf_data 0 (umem w)).2 in
  len ← kstrlen fuel path (umem w);
  '(status, w) ← com_sys_elf64_load g O_RDONLY (pf_load fr) (pf_prog_data fr) (rd_bytes (umem w) path (Z.to_nat len)) root cwd 0 ctx w;
  if negb (bool_decide (status = E0)) then Ok (status, 0, w)
  else
    let entry := rd_uint 8 (umem w) (pf_prog_data fr + ED_ENTRY) in
    let interp := pf_prog_data fr + ED_INTERPRETER_PATH in
    if negb (umem w interp =? 0) then
      let w := set_umem w (kmemset (pf_interp_data fr) sizeof_com_elf_data 0 (umem w)).2 in
      len ← kstrlen fuel interp (umem w);
      '(status, w) ← com_sys_elf64_load g O_RDONLY (pf_load fr) (pf_interp_data fr) (rd_bytes (umem w) interp (Z.to_nat len)) root cwd
        0x40000000 ctx w;
      if negb (bool_decide (status = E0)) then Ok (status, 0, w)
      else Ok (E0, rd_uint 8 (umem w) (pf_interp_data fr + ED_ENTRY), w)
    else Ok (E0, entry, w).

Definition STACK_END : Z := 0x60000000.
Definition STACK_LEN : Z := ARCH_PAGE_SIZE * 64.
Definition stack_flags : Z :=
  Z.lor (Z.lor (Z.lor ARCH_MMU_FLAGS_READ ARCH_MMU_FLAGS_WRITE) ARCH_MMU_FLAGS_NOEXEC) ARCH_MMU_FLAGS_USER.

(** The stack: all but the last page is zero pages. *)
Definition map_stack (ctx : ctxarg) w : res (Z * world S (tmpfs A)) :=
  let stack_start := STACK_END - STACK_LEN in
  '(stack_phys, a) ← vm_alloc (tpages (fsdata w));
  '(_, _, h, a) ← com_mm_vmm_map g (cache (fsdata w)) a ctx stack_start 0 (STACK_LEN - ARCH_PAGE_SIZE)
    COM_MM_VMM_FLAGS_ALLOCATE stack_flags;
  '(_, _, h, a) ← com_mm_vmm_map g h a ctx (stack_start + STACK_LEN - ARCH_PAGE_SIZE) stack_phys ARCH_PAGE_SIZE
    COM_MM_VMM_FLAGS_NONE stack_flags;
  Ok (stack_phys, set_cache w h a).

(** [exec_path] is the address of [proc->executable_path]. The new address
    space is also returned when loading fails: com_mm_vmm_destroy_context
    does nothing to it. *)
Definition com_sys_elf64_prepare_proc (RootTable : Z) (fr : proc_frame) (path argv env root : Z) (cwd : option Z) (exec_path : Z) w
    : res (errno * com_vmm_context * option thread_context * world S (tmpfs A)) :=
  '(new_vmm_ctx, h, a) ← com_mm_vmm_new_context RootTable (cache (fsdata w)) (tpages (fsdata w)) None;
  let w := set_cache w h a in
  '(status, entry, w) ← load_programs fr path root cwd (Ctx new_vmm_ctx) w;
  if negb (bool_decide (status = E0)) then Ok (status, new_vmm_ctx, None, w)
  else
    '(stack_phys, w) ← map_stack (Ctx new_vmm_ctx) w;
    '(stack_ptr, m) ← com_sys_elf64_prepare_stack fuel (get_elf_data (umem w) (pf_prog_data fr)) (stack_phys + ARCH_PAGE_SIZE)
      STACK_END argv env (umem w);
    m ← kstrncpy fuel exec_path path CONFIG_PATH_MAX m;
    Ok (E0, new_vmm_ctx, Some (ARCH_CONTEXT_THREAD_SET stack_ptr 0 entry), set_umem w m).
End prepare.

(** ** Lemmas: words and strings in memory *)

Lemma cstr_same m m' p s : (∀ x, p ≤ x ≤ p + Z.of_nat (length s) → m' x = m x) → cstr m p s → cstr m' p s.
Proof.
  intros Hm (Hb & Hz & Hn). split; [|split; [rewrite Hm by lia; done|done]].
  rewrite <- Hb at 2. apply rd_bytes_ext. intros i Hi. apply Hm. lia.
Qed.

(** Words one after the other. *)
Definition words_in (m : mem) (a : Z) (ws : list Z) : Prop :=
  ∀ i x, ws !! i = Some x → rd_uint 8 m (a + 8 * Z.of_nat i) = x.

Lemma words_in_same m m' a ws :
  (∀ x, a ≤ x < a + 8 * Z.of_nat (length ws) → m' x = m x) → words_in m a ws → words_in m' a ws.
Proof.
  intros Hm Hw i x Hi. rewrite (rd_uint_same 8 m); [by apply Hw|]. intros y Hy. apply Hm.
  apply lookup_lt_Some in Hi. lia.
Qed.

Lemma words_in_app m a ws ws' : words_in m a ws → words_in m (a + 8 * Z.of_nat (length ws)) ws' → words_in m a (ws ++ ws').
Proof.
  intros H1 H2 i x Hi. apply lookup_app_Some in Hi as [Hi|[Hl Hi]]; [by apply H1|].
  rewrite <- (H2 _ _ Hi). f_equal. lia.
Qed.

Lemma PUSH_words m sp x ws :
  0 ≤ x < 2 ^ 64 → 8 ≤ sp < 2 ^ 64 → words_in m sp ws →
  (PUSH x (sp, m)).1 = sp - 8 ∧ words_in (PUSH x (sp, m)).2 (sp - 8) (x :: ws) ∧
  ∀ y, ¬ sp - 8 ≤ y < sp → (PUSH x (sp, m)).2 y = m y.
Proof.
  intros Hx Hsp Hw. cbn [PUSH fst snd]. rewrite wrap_small by lia. split; [done|]. split.
  - intros [|i] y Hi; cbn in Hi.
    + injection Hi as <-. rewrite Z.add_0_r. by apply rd_wr_u64.
    + rewrite (rd_uint_same 8 m); [replace (sp - 8 + 8 * Z.of_nat (S i)) with (sp + 8 * Z.of_nat i) by lia; by apply Hw|].
      intros z Hz. apply wr_u64_lookup. lia.
  - intros y Hy. apply wr_u64_lookup. lia.
Qed.

(** The bytes of strings with their terminators. *)
Fixpoint strs_size (strs : list (list Z)) : Z :=
  match strs with [] => 0 | s :: strs => Z.of_nat (length s) + 1 + strs_size strs end.

Lemma strs_size_nonneg strs : 0 ≤ strs_size strs.
Proof. induction strs; simpl; lia. Qed.

Lemma strs_size_app l k : strs_size (l ++ k) = strs_size l + strs_size k.
Proof. induction l as [|s l IH]; simpl; [lia|]. rewrite IH. lia. Qed.

(** A vector of pointers to strings, all of it outside of [lo, hi). *)
Record strvec (fuel : nat) (m : mem) (vec : Z) (strs : list (list Z)) (lo hi : Z) : Prop := {
  sv_str : ∀ i s, strs !! i = Some s → let p := rd_uint 8 m (vec + 8 * Z.of_nat i) in
    p ≠ 0 ∧ cstr m p s ∧ (p + Z.of_nat (length s) < lo ∨ hi ≤ p) ∧ (length s < fuel)%nat;
  sv_end : rd_uint 8 m (vec + 8 * Z.of_nat (length strs)) = 0;
  sv_out : vec + 8 * (Z.of_nat (length strs) + 1) ≤ lo ∨ hi ≤ vec;
  sv_fuel : (length strs < fuel)%nat }.

Lemma strvec_same fuel m m' vec strs lo hi :
  (∀ a, ¬ lo ≤ a < hi → m' a = m a) → strvec fuel m vec strs lo hi → strvec fuel m' vec strs lo hi.
Proof.
  intros Hm [Hs He Ho Hf]. split; [| |done|done].
  - intros i s Hi. pose proof (lookup_lt_Some _ _ _ Hi). cbv zeta.
    rewrite (rd_uint_same 8 m) by (intros x Hx; apply Hm; lia). destruct (Hs i s Hi) as (H0 & Hc & Hout & Hl).
    split; [done|]. split; [|done]. eapply cstr_same; [|exact Hc]. intros x Hx. apply Hm. lia.
  - rewrite (rd_uint_same 8 m); [done|]. intros x Hx. apply Hm. lia.
Qed.

Lemma strvec_len fuel m vec strs lo hi i s :
  strvec fuel m vec strs lo hi → strs !! i = Some s → Z.of_nat fuel < 2 ^ 63 →
  kstrlen fuel (rd_uint 8 m (vec + 8 * Z.of_nat i)) m = Ok (Z.of_nat (length s)).
Proof.
  intros Hv Hi Hf. destruct (sv_str _ _ _ _ _ _ Hv i s Hi) as (_ & Hc & _ & Hl). unfold kstrlen.
  by rewrite (kstrlen_loop_spec _ _ s) by (done || lia).
Qed.

(** Copying a string with its terminator. *)
Lemma kmemcpy_cstr m dst p s :
  cstr m p s → (p + Z.of_nat (length s) < dst ∨ dst + Z.of_nat (length s) < p) →
  cstr (kmemcpy dst p (Z.of_nat (length s) + 1) m).2 dst s.
Proof.
  intros (Hb & Hz & Hn) Hd. split; [|split; [|done]].
  - etrans; [|exact Hb]. apply rd_bytes_ext. intros i Hi. rewrite kmemcpy_lookup by lia.
    destruct (in_range_spec (dst + i) dst (Z.of_nat (length s) + 1)); [|lia]. f_equal. lia.
  - rewrite kmemcpy_lookup by lia. destruct (in_range_spec (dst + Z.of_nat (length s)) dst (Z.of_nat (length s) + 1)); [|lia].
    rewrite <- Hz. f_equal. lia.
Qed.

Lemma copy_strings_spec fuel strs vec lo hi todo pre rest sp m :
  strvec fuel m vec strs lo hi → Z.of_nat fuel < 2 ^ 63 → strs = pre ++ rest → (length rest < todo)%nat →
  0 ≤ lo ≤ sp - strs_size rest → sp ≤ hi → hi < 2 ^ 64 →
  ∃ m', copy_strings fuel todo vec (Z.of_nat (length pre)) sp m = Ok (Z.of_nat (length strs), sp - strs_size rest, m') ∧
    (∀ a, ¬ sp - strs_size rest ≤ a < sp → m' a = m a) ∧
    ∀ j s, rest !! j = Some s → cstr m' (sp - strs_size (take (S j) rest)) s.
Proof.
  intros Hv Hf. revert pre rest sp m Hv. induction todo as [|todo IH]; intros pre rest sp m Hv -> Ht Hlo Hhi Hb; [lia|].
  cbn [copy_strings]. destruct rest as [|s rest].
  - rewrite app_nil_r in *. rewrite (sv_end _ _ _ _ _ _ Hv). cbn. exists m. rewrite Z.sub_0_r. split; [done|]. done.
  - assert (Hi : (pre ++ s :: rest) !! length pre = Some s) by by apply list_lookup_middle.
    destruct (sv_str _ _ _ _ _ _ Hv _ _ Hi) as (Hp & Hc & Hout & Hl). set (p := rd_uint 8 m (vec + 8 * Z.of_nat (length pre))) in *.
    destruct (Z.eqb_spec p 0); [done|]. pose proof (strvec_len _ _ _ _ _ _ _ _ Hv Hi Hf) as Hkl. fold p in Hkl. rewrite Hkl. mstep.
    cbn [strs_size] in *. pose proof (strs_size_nonneg rest).
    assert (Hlen : Z.of_nat (length pre) + 1 < 2 ^ 64).
    { pose proof (sv_fuel _ _ _ _ _ _ Hv) as Hsf. rewrite length_app in Hsf. simpl in Hsf. lia. }
    rewrite (wrap_small 64 (Z.of_nat (length s) + 1)), (wrap_small 64 (sp - _)), (wrap_small 64 (Z.of_nat (length pre) + 1)) by lia.
    set (d := sp - (Z.of_nat (length s) + 1)).
    set (m1 := (kmemcpy d p (Z.of_nat (length s) + 1) m).2).
    assert (Hm1 : ∀ a, ¬ d ≤ a < sp → m1 a = m a).
    { intros a Ha. unfold m1. rewrite kmemcpy_lookup by lia. by destruct (in_range_spec a d (Z.of_nat (length s) + 1)); [lia|]. }
    assert (Hv1 : strvec fuel m1 vec (pre ++ s :: rest) lo hi) by (apply (strvec_same _ m); [intros a Ha; apply Hm1; lia|done]).
    destruct (IH (pre ++ [s]) rest d m1) as (m' & Hrun & Hm' & Hcs).
    { exact Hv1. }
    { by rewrite <- app_assoc. }
    { simpl in Ht. lia. }
    { lia. }
    { lia. }
    { done. }
    rewrite (length_app pre [s]) in Hrun. cbn [length] in Hrun.
    replace (Z.of_nat (length pre + 1)) with (Z.of_nat (length pre) + 1) in Hrun by lia. fold p.
    exists m'. split; [rewrite Hrun; do 3 f_equal; lia|]. split.
    + intros a Ha. rewrite Hm' by lia. apply Hm1. lia.
    + intros [|j] s' Hj; cbn [lookup list_lookup] in Hj.
      * injection Hj as ->. cbn [take strs_size]. rewrite Z.add_0_r. apply (cstr_same m1); [|apply kmemcpy_cstr; [exact Hc|fold d; lia]].
        intros x Hx. apply Hm'. lia.
      * specialize (Hcs j s' Hj). cbn [take strs_size]. replace (sp - _) with (d - strs_size (take (S j) rest)) by lia. exact Hcs.
Qed.

(** The addresses the process has for strings copied one below the other. *)
Fixpoint string_ptrs (end_ off : Z) (strs : list (list Z)) : list Z :=
  match strs with
  | [] => []
  | s :: strs => let off := off + (Z.of_nat (length s) + 1) in (end_ - off) :: string_ptrs end_ off strs
  end.

Lemma length_string_ptrs end_ off strs : length (string_ptrs end_ off strs) = length strs.
Proof. revert off. induction strs as [|s strs IH]; intros off; [done|]. cbn [string_ptrs length]. by rewrite IH. Qed.

Lemma string_ptrs_lookup end_ off strs j s :
  strs !! j = Some s → string_ptrs end_ off strs !! j = Some (end_ - (off + strs_size (take (S j) strs))).
Proof.
  revert off j. induction strs as [|s' strs IH]; intros off [|j] Hj; try done; cbn [lookup list_lookup] in Hj; cbn [string_ptrs lookup list_lookup].
  - injection Hj as ->. cbn [take strs_size]. change (strs_size (take 0 strs)) with 0. f_equal. lia.
  - rewrite (IH _ _ Hj). cbn [take strs_size]. f_equal. lia.
Qed.

Lemma put_pointers_spec fuel strs vec lo hi pre rest base end_ off m :
  strvec fuel m vec strs lo hi → Z.of_nat fuel < 2 ^ 63 → strs = pre ++ rest →
  0 ≤ off → off + strs_size rest ≤ end_ → end_ < 2 ^ 64 →
  lo ≤ base → base + 8 * Z.of_nat (length strs) ≤ hi →
  ∃ m', put_pointers fuel (length rest) vec base end_ (Z.of_nat (length pre)) off m = Ok (off + strs_size rest, m') ∧
    (∀ a, ¬ base + 8 * Z.of_nat (length pre) ≤ a < base + 8 * Z.of_nat (length strs) → m' a = m a) ∧
    words_in m' (base + 8 * Z.of_nat (length pre)) (string_ptrs end_ off rest).
Proof.
  intros Hv Hf. revert pre off m Hv. induction rest as [|s rest IH]; intros pre off m Hv -> Ho He Heb Hlo Hhi.
  - cbn. exists m. rewrite Z.add_0_r. split; [done|]. split; [done|]. intros i x Hi. done.
  - assert (Hi : (pre ++ s :: rest) !! length pre = Some s) by by apply list_lookup_middle.
    cbn [length put_pointers]. rewrite (strvec_len _ _ _ _ _ _ _ _ Hv Hi Hf). mstep.
    cbn [strs_size] in *. pose proof (strs_size_nonneg rest).
    rewrite (wrap_small 64 (Z.of_nat (length s) + 1)), (wrap_small 64 (off + _)), (wrap_small 64 (end_ - _)) by lia.
    set (off' := off + (Z.of_nat (length s) + 1)). set (b := base + 8 * Z.of_nat (length pre)).
    set (m1 := wr_u64 m b (end_ - off')). rewrite length_app in Hhi. simpl in Hhi.
    assert (Hm1 : ∀ a, ¬ b ≤ a < b + 8 → m1 a = m a) by (intros a Ha; by apply wr_u64_lookup).
    destruct (IH (pre ++ [s]) off' m1) as (m' & Hrun & Hm' & Hw); try done.
    { apply (strvec_same _ m); [|done]. intros a Ha. apply Hm1. lia. }
    { by rewrite <- app_assoc. }
    { lia. }
    { lia. }
    { rewrite length_app. simpl. lia. }
    rewrite length_app in Hrun, Hm', Hw. simpl in Hrun, Hm', Hw.
    replace (Z.of_nat (length pre + 1)) with (Z.of_nat (length pre) + 1) in * by lia.
    exists m'. split; [rewrite Hrun; do 2 f_equal; lia|]. rewrite length_app. simpl. split.
    + intros a Ha. rewrite Hm'; [apply Hm1; lia|]. rewrite length_app. simpl. lia.
    + cbn [string_ptrs]. fold off'. intros [|i] x Hx; cbn [lookup list_lookup] in Hx.
      * injection Hx as <-. rewrite Z.add_0_r, (rd_uint_same 8 m1); [apply rd_wr_u64; lia|].
        intros y Hy. apply Hm'. lia.
      * rewrite <- (Hw i x Hx). f_equal. lia.
Qed.

(** ** The layout of the initial stack *)

(** Bytes written for the vectors [argv] and [env]: the strings, rounded up to
    16 bytes, a word of padding so that the result is a multiple of 16, and
    13 words beside the pointers. *)
Definition stack_used (argv env : list (list Z)) : Z :=
  let n := Z.of_nat (length argv) + Z.of_nat (length env) in
  (strs_size env + strs_size argv + 15) / 16 * 16 + 8 * ((n + 1) mod 2) + 8 * (13 + n).

Definition auxv (d : com_elf_data) : list Z :=
  [AT_PHNUM; ed_phent_num d; AT_PHENT; phent_sz d; AT_PHDR; phdr d; AT_ENTRY; entry d; AT_NULL; 0].

(** The words a program finds at its stack pointer. *)
Definition stack_words (d : com_elf_data) (end_ : Z) (argv env : list (list Z)) : list Z :=
  Z.of_nat (length argv) :: string_ptrs end_ (strs_size env) argv ++ 0 :: string_ptrs end_ 0 env ++ 0 :: auxv d.

Lemma stack_used_aligned argv env : stack_used argv env mod 16 = 0.
Proof.
  unfold stack_used. set (n := Z.of_nat (length argv) + _). set (q := _ / 16).
  replace (q * 16 + _ + _) with (16 * q + 8 * ((n + 1) mod 2 + 13 + n)) by lia.
  pose proof (Z.div_mod (n + 1) 2 ltac:(lia)). set (r := (n + 1) mod 2) in *. set (k := (n + 1) / 2) in *.
  replace (16 * q + 8 * (r + 13 + n)) with ((q + k + r + 6) * 16) by lia. apply Z.mod_mul. lia.
Qed.

Lemma stack_used_bounds argv env :
  strs_size env + strs_size argv + 8 * (13 + Z.of_nat (length argv) + Z.of_nat (length env)) ≤ stack_used argv env.
Proof.
  unfold stack_used. pose proof (Z.mod_pos_bound (Z.of_nat (length argv) + Z.of_nat (length env) + 1) 2 ltac:(lia)).
  pose proof (Z.div_mod (strs_size env + strs_size argv + 15) 16). pose proof (Z.mod_pos_bound (strs_size env + strs_size argv + 15) 16). lia.
Qed.

(** The words pushed so far, below [top]. *)
Definition pushed (m0 : mem) (top sp : Z) (m : mem) (ws : list Z) : Prop :=
  sp + 8 * Z.of_nat (length ws) ≤ top ∧ words_in m sp ws ∧ ∀ a, ¬ sp ≤ a < top → m a = m0 a.

Lemma PUSH_pushed m0 top sp m ws x :
  pushed m0 top sp m ws → 0 ≤ x < 2 ^ 64 → 8 ≤ sp < 2 ^ 64 →
  ∃ m', PUSH x (sp, m) = (sp - 8, m') ∧ pushed m0 top (sp - 8) m' (x :: ws).
Proof.
  intros (Hl & Hw & Hm) Hx Hsp. destruct (PUSH_words m sp x ws Hx Hsp Hw) as (H1 & H2 & H3).
  exists (PUSH x (sp, m)).2. split; [by rewrite <- H1; destruct (PUSH x (sp, m))|]. split; [cbn [length]; lia|].
  split; [done|]. intros a Ha. rewrite H3 by lia. apply Hm. lia.
Qed.

Lemma put_pointers_pushed fuel m0 top lo hi sp m ws vec strs end_ off :
  pushed m0 top sp m ws → strvec fuel m0 vec strs lo hi → Z.of_nat fuel < 2 ^ 63 →
  0 ≤ off → off + strs_size strs ≤ end_ → end_ < 2 ^ 64 →
  0 ≤ lo ≤ sp - 8 * Z.of_nat (length strs) → top ≤ hi → sp < 2 ^ 64 →
  let base := u64 (sp - 8 * Z.of_nat (length strs)) in
  base = sp - 8 * Z.of_nat (length strs) ∧
  ∃ m', put_pointers fuel (Z.to_nat (Z.of_nat (length strs))) vec base end_ 0 off m = Ok (off + strs_size strs, m') ∧
    pushed m0 top base m' (string_ptrs end_ off strs ++ ws).
Proof.
  intros (Hl & Hw & Hm) Hv Hf Ho He Heb Hlo Hhi Hsp. cbv zeta. rewrite wrap_small by lia. split; [done|].
  set (base := sp - 8 * Z.of_nat (length strs)). rewrite Nat2Z.id.
  destruct (put_pointers_spec fuel strs vec lo hi [] strs base end_ off m) as (m' & Hrun & Hm' & Hw'); try done; try lia.
  { apply (strvec_same _ m0); [|done]. intros a Ha. apply Hm. lia. }
  exists m'. change (8 * Z.of_nat (length (@nil (list Z)))) with 0 in *. rewrite Z.add_0_r in *. split; [exact Hrun|].
  split; [rewrite length_app, length_string_ptrs; lia|]. split.
  - apply words_in_app; [done|]. rewrite length_string_ptrs. replace (base + _) with sp by lia.
    eapply words_in_same; [|exact Hw]. intros a Ha. apply Hm'. lia.
  - intros a Ha. rewrite Hm' by lia. apply Hm. lia.
Qed.

Ltac push_step :=
  match goal with
  | H : pushed ?m0 ?top ?sp ?m ?ws |- context [PUSH ?x (?sp, ?m)] =>
      let m' := fresh "m" in let H' := fresh "Hpush" in let E := fresh "E" in
      destruct (PUSH_pushed m0 top sp m ws x H) as (m' & E & H'); [unfold AT_PHNUM, AT_PHENT, AT_PHDR, AT_ENTRY; lia|lia|];
      rewrite E; clear E; clear H
  end.

Lemma ldiff_15 z : Z.ldiff z 15 = z / 16 * 16.
Proof. change 15 with (Z.ones 4). by rewrite Z.ldiff_ones_r, Z.shiftl_mul_pow2, Z.shiftr_div_pow2 by lia. Qed.

Lemma round_below top t : top mod 16 = 0 → (top - t) / 16 * 16 = top - (t + 15) / 16 * 16.
Proof. intros H. Z.to_euclidean_division_equations. lia. Qed.

Lemma pad_word sp n :
  0 ≤ n → 8 ≤ sp < 2 ^ 64 → (if negb (Z.land (n + 1) 1 =? 0) then u64 (sp - 8) else sp) = sp - 8 * ((n + 1) mod 2).
Proof.
  intros Hn Hsp. change 1 with (Z.ones 1) at 2. rewrite Z.land_ones by lia. change (2 ^ 1) with 2.
  pose proof (Z.mod_pos_bound (n + 1) 2 ltac:(lia)). destruct (Z.eqb_spec ((n + 1) mod 2) 0) as [->|Hne]; cbn; [lia|].
  rewrite wrap_small by lia. lia.
Qed.

Definition elf_data_ok (d : com_elf_data) : Prop :=
  0 ≤ entry d < 2 ^ 64 ∧ 0 ≤ phdr d < 2 ^ 64 ∧ 0 ≤ phent_sz d < 2 ^ 64 ∧ 0 ≤ ed_phent_num d < 2 ^ 64.

Lemma strs_size_take l j s : l !! j = Some s → Z.of_nat (length s) + 1 ≤ strs_size (take (S j) l) ≤ strs_size l.
Proof.
  intros Hj. pose proof (f_equal strs_size (take_drop (S j) l)) as Ht. rewrite strs_size_app in Ht.
  pose proof (strs_size_nonneg (drop (S j) l)). rewrite (take_S_r _ _ _ Hj), strs_size_app in *. cbn [strs_size] in *.
  pose proof (strs_size_nonneg (take j l)). lia.
Qed.

(** The two copying loops. *)
Lemma copy_vectors_spec fuel argv_p envp argv env lo top m :
  strvec fuel m argv_p argv lo top → strvec fuel m envp env lo top → Z.of_nat fuel < 2 ^ 63 →
  0 ≤ lo ≤ top - (strs_size env + strs_size argv) → top < 2 ^ 64 →
  ∃ m1 m2, let sp := top - (strs_size env + strs_size argv) in
    copy_strings fuel fuel envp 0 top m = Ok (Z.of_nat (length env), top - strs_size env, m1) ∧
    copy_strings fuel fuel argv_p 0 (top - strs_size env) m1 = Ok (Z.of_nat (length argv), sp, m2) ∧
    (∀ a, ¬ sp ≤ a < top → m2 a = m a) ∧
    ∀ j s, (env ++ argv) !! j = Some s → cstr m2 (top - strs_size (take (S j) (env ++ argv))) s.
Proof.
  intros Hva Hve Hf Hlo Htb. pose proof (strs_size_nonneg env). pose proof (strs_size_nonneg argv).
  destruct (copy_strings_spec fuel env envp lo top fuel [] env top m) as (m1 & Hr1 & Hm1 & Hs1); try done; try lia.
  { exact (sv_fuel _ _ _ _ _ _ Hve). }
  assert (Hva1 : strvec fuel m1 argv_p argv lo top) by (apply (strvec_same _ m); [intros a Ha; apply Hm1; lia|done]).
  destruct (copy_strings_spec fuel argv argv_p lo top fuel [] argv (top - strs_size env) m1) as (m2 & Hr2 & Hm2 & Hs2); try done; try lia.
  { exact (sv_fuel _ _ _ _ _ _ Hva). }
  change (Z.of_nat (length (@nil (list Z)))) with 0 in *.
  replace (top - strs_size env - strs_size argv) with (top - (strs_size env + strs_size argv)) in * by lia.
  exists m1, m2. split; [done|]. split; [done|]. split; [intros a Ha; rewrite Hm2 by lia; apply Hm1; lia|].
  intros j s Hj. apply lookup_app_Some in Hj as [Hj|[Hl Hj]].
  - pose proof (lookup_lt_Some _ _ _ Hj). rewrite take_app_le by lia.
    pose proof (strs_size_take _ _ _ Hj).
    apply (cstr_same m1); [intros x Hx; apply Hm2; lia|]. exact (Hs1 j s Hj).
  - rewrite take_app_ge, strs_size_app by lia. specialize (Hs2 _ s Hj).
    replace (S j - length env)%nat with (S (j - length env)) by lia.
    replace (top - _) with (top - strs_size env - strs_size (take (S (j - length env)) argv)) by lia. exact Hs2.
Qed.

Lemma prepare_stack_spec fuel d phys virt argv_p envp argv env lo m :
  let top := ARCH_PHYS_TO_HHDM phys in
  let used := stack_used argv env in
  strvec fuel m argv_p argv lo top → strvec fuel m envp env lo top → Z.of_nat fuel < 2 ^ 63 → elf_data_ok d →
  top mod 16 = 0 → 0 ≤ lo ≤ top - used → top < 2 ^ 64 → virt mod 16 = 0 → used ≤ virt < 2 ^ 64 →
  ∃ m', com_sys_elf64_prepare_stack fuel d phys virt argv_p envp m = Ok (virt - used, m') ∧
    (virt - used) mod 16 = 0 ∧
    words_in m' (top - used) (stack_words d virt argv env) ∧
    (∀ j s, (env ++ argv) !! j = Some s → cstr m' (top - strs_size (take (S j) (env ++ argv))) s) ∧
    (∀ a, ¬ top - used ≤ a < top → m' a = m a).
Proof.
  cbv zeta. set (top := ARCH_PHYS_TO_HHDM phys). set (used := stack_used argv env).
  intros Hva Hve Hf (Hd1 & Hd2 & Hd3 & Hd4) Htop Hlo Htb Hvm Hvb.
  pose proof (stack_used_bounds argv env) as Hub. fold used in Hub.
  pose proof (strs_size_nonneg env). pose proof (strs_size_nonneg argv).
  destruct (copy_vectors_spec fuel argv_p envp argv env lo top m) as (m1 & m2 & Hr1 & Hr2 & Hm2 & Hs2); try done; try lia.
  unfold com_sys_elf64_prepare_stack. fold top. cbv zeta. rewrite Hr1. mstep. rewrite Hr2. mstep. clear Hr1 Hr2.
  rewrite ldiff_15, round_below by done. set (t := (strs_size env + strs_size argv + 15) / 16 * 16).
  assert (Ht : strs_size env + strs_size argv ≤ t < strs_size env + strs_size argv + 16) by (unfold t; Z.to_euclidean_division_equations; lia).
  rewrite pad_word by (unfold stack_used in *; lia).
  set (pad := (_ + 1) mod 2). assert (Hpad : 0 ≤ pad < 2) by (apply Z.mod_pos_bound; lia).
  assert (Hused : used = t + 8 * pad + 8 * (13 + (Z.of_nat (length argv) + Z.of_nat (length env)))) by done.
  assert (Hv2 : ∀ p l, strvec fuel m p l lo top → strvec fuel m2 p l lo top).
  { intros p l Hp. apply (strvec_same _ m); [intros a Ha; apply Hm2; lia|done]. }
  set (s0 := top - t - 8 * pad). assert (Hp : pushed m2 s0 s0 m2 []) by (split; [simpl; lia|split; [intros i x Hi; done|done]]).
  do 11 (push_step; cbv beta iota).
  edestruct (put_pointers_pushed fuel m2 s0 lo top) as (Hb & mb & -> & Hpush'); [eassumption|by apply Hv2|done|lia..|]. mstep. rewrite Z.add_0_l, Hb in *.
  push_step; cbv beta iota.
  edestruct (put_pointers_pushed fuel m2 s0 lo top) as (Hb' & ma & -> & Hpush''); [eassumption|by apply Hv2|done|lia..|]. mstep. rewrite Hb' in *.
  push_step; cbv beta iota. rewrite wrap_small by lia.
  match goal with H : pushed _ _ ?sp ?m _ |- _ => exists m; assert (sp = top - used) as Hsp by lia; rewrite Hsp in H;
    destruct H as (_ & Hw & Hm') end.
  split; [do 2 f_equal; lia|]. split; [|split; [|split]].
  - pose proof (stack_used_aligned argv env) as Hal. fold used in Hal. Z.to_euclidean_division_equations. lia.
  - exact Hw.
  - intros j s Hj. pose proof (strs_size_take (env ++ argv) j s Hj) as Hsz. rewrite strs_size_app in Hsz.
    apply (cstr_same m2); [intros x Hx; apply Hm'; lia|by apply Hs2].
  - intros a Ha. rewrite Hm' by lia. apply Hm2. lia.
Qed.

Lemma string_ptrs_strings (P : Z → list Z → Prop) end_ strs pre suf :
  (∀ j s, (pre ++ strs ++ suf) !! j = Some s → P (end_ - strs_size (take (S j) (pre ++ strs ++ suf))) s) →
  Forall2 P (string_ptrs end_ (strs_size pre) strs) strs.
Proof.
  intros HP. apply Forall2_same_length_lookup_2; [apply length_string_ptrs|]. intros j p s Hp Hj.
  rewrite (string_ptrs_lookup _ _ _ _ _ Hj) in Hp. injection Hp as <-. pose proof (lookup_lt_Some _ _ _ Hj).
  specialize (HP (length pre + j)%nat s). rewrite take_app_ge, strs_size_app, take_app_le in HP by lia.
  replace (S (length pre + j) - length pre)%nat with (S j) in HP by lia. apply HP.
  rewrite lookup_app_r by lia. replace (length pre + j - length pre)%nat with j by lia. rewrite lookup_app_l by done. done.
Qed.

Lemma all_strings (P : Z → list Z → Prop) end_ argv env :
  (∀ j s, (env ++ argv) !! j = Some s → P (end_ - strs_size (take (S j) (env ++ argv))) s) →
  Forall2 P (string_ptrs end_ (strs_size env) argv) argv ∧ Forall2 P (string_ptrs end_ 0 env) env.
Proof.
  intros HP. split.
  - apply (string_ptrs_strings P end_ argv env []). by rewrite app_nil_r.
  - apply (string_ptrs_strings P end_ env [] argv). done.
Qed.

(** C14: the initial stack of a program: at the stack pointer, which is a
    multiple of 16, the process finds the number of arguments, the null
    terminated vectors of the pointers to its arguments and to its
    environment, and the auxiliary vector; every pointer is the address, in
    the process, of a copy of its string; memory is written in the used part
    below the top of the stack only. *)
Theorem prepare_stack_layout fuel d phys virt argv_p envp argv env lo m :
  let top := ARCH_PHYS_TO_HHDM phys in
  let used := stack_used argv env in
  strvec fuel m argv_p argv lo top → strvec fuel m envp env lo top → Z.of_nat fuel < 2 ^ 63 → elf_data_ok d →
  top mod 16 = 0 → 0 ≤ lo ≤ top - used → top < 2 ^ 64 → virt mod 16 = 0 → used ≤ virt < 2 ^ 64 →
  ∃ m', com_sys_elf64_prepare_stack fuel d phys virt argv_p envp m = Ok (virt - used, m') ∧
    (virt - used) mod 16 = 0 ∧
    words_in m' (top - used) (stack_words d virt argv env) ∧
    Forall2 (λ ptr s, cstr m' (top - (virt - ptr)) s) (string_ptrs virt (strs_size env) argv) argv ∧
    Forall2 (λ ptr s, cstr m' (top - (virt - ptr)) s) (string_ptrs virt 0 env) env ∧
    (∀ a, ¬ top - used ≤ a < top → m' a = m a).
Proof.
  intros top used Hva Hve Hf Hd Htop Hlo Htb Hvm Hvb.
  destruct (prepare_stack_spec fuel d phys virt argv_p envp argv env lo m) as (m' & Hrun & Hal & Hw & Hs & Hm'); try done.
  exists m'. split; [exact Hrun|]. split; [exact Hal|]. split; [exact Hw|]. rewrite (assoc _ (Forall2 _ _ _)). split; [|exact Hm'].
  apply all_strings. intros j s Hj. replace (virt - (virt - _)) with (strs_size (take (S j) (env ++ argv))) by lia. by apply Hs.
Qed.

(** the arguments and the environment are not bounded: when they need
    more than the one page that is allocated for the end of the stack, the
    number of arguments is written below this page, over whatever memory the
    kernel has there. *)
Theorem prepare_stack_writes_below_page fuel d page virt argv_p envp argv env lo m :
  let top := ARCH_PHYS_TO_HHDM (page + ARCH_PAGE_SIZE) in
  let used := stack_used argv env in
  valid_phys page → ARCH_PAGE_SIZE < used →
  strvec fuel m argv_p argv lo top → strvec fuel m envp env lo top → Z.of_nat fuel < 2 ^ 63 → elf_data_ok d →
  0 ≤ lo ≤ top - used → virt mod 16 = 0 → used ≤ virt < 2 ^ 64 →
  ∃ m' a, com_sys_elf64_prepare_stack fuel d (page + ARCH_PAGE_SIZE) virt argv_p envp m = Ok (virt - used, m') ∧
    a < ARCH_PHYS_TO_HHDM page ∧ rd_uint 8 m' a = Z.of_nat (length argv).
Proof.
  intros top used Hp Hu Hva Hve Hf Hd Hlo Hvm Hvb.
  assert (Htop : top = ARCH_PHYS_TO_HHDM page + ARCH_PAGE_SIZE ∧ top mod 16 = 0 ∧ top < 2 ^ 64).
  { unfold top. rewrite (valid_phys_hhdm page) by done. destruct Hp as [Hp Hm]. unfold ARCH_PHYS_TO_HHDM, HHDM_BASE, ARCH_PAGE_SIZE in *.
    rewrite wrap_small by lia. Z.to_euclidean_division_equations. lia. }
  destruct Htop as (Ht & Ht16 & Htb).
  destruct (prepare_stack_spec fuel d (page + ARCH_PAGE_SIZE) virt argv_p envp argv env lo m) as (m' & Hrun & _ & Hw & _); try done.
  exists m', (top - used). split; [exact Hrun|]. split; [lia|]. rewrite <- (Z.add_0_r (top - used)). by apply (Hw 0%nat).
Qed.

Lemma length_stack_words d end_ argv env : length (stack_words d end_ argv env) = (length argv + length env + 13)%nat.
Proof. unfold stack_words. cbn [length]. rewrite !length_app, !length_string_ptrs. cbn [length]. rewrite length_app, length_string_ptrs. cbn. lia. Qed.

(** ** What the new process sees *)
Section seen.
Context {S A : Type} `{!SlabAlloc S} `{VmMem A}.
Variable g : vmm_globals.
Implicit Types (w : world S (tmpfs A)).

(** The bytes a process with page table [pt] sees from an address on. *)
Fixpoint user_bytes w (pt v : Z) (n : nat) : option (list Z) :=
  match n with
  | O => Some []
  | Datatypes.S n =>
      match user_byte w pt v, user_bytes w pt (v + 1) n with
      | Some b, Some bs => Some (b :: bs)
      | _, _ => None
      end
  end.

(** A null terminated string. *)
Definition user_str w (pt v : Z) (s : list Z) : Prop := user_bytes w pt v (Datatypes.S (length s)) = Some (s ++ [0]).

Definition user_words w (pt v : Z) (ws : list Z) : Prop :=
  ∀ i x, ws !! i = Some x → le_val <$> user_bytes w pt (v + 8 * Z.of_nat i) 8 = Some x.

Lemma user_bytes_rd w pt v a n :
  (∀ i, 0 ≤ i < Z.of_nat n → user_byte w pt (v + i) = Some (umem w (a + i))) → user_bytes w pt v n = Some (rd_bytes (umem w) a n).
Proof.
  revert v a. induction n as [|n IH]; intros v a Hb; [done|]. cbn [user_bytes rd_bytes].
  rewrite <- (Z.add_0_r v) at 1. rewrite (Hb 0) by lia. rewrite (IH (v + 1) (a + 1)).
  - by rewrite Z.add_0_r.
  - intros i Hi. replace (v + 1 + i) with (v + (1 + i)) by lia. rewrite Hb by lia. do 2 f_equal. lia.
Qed.

Lemma rd_bytes_cstr m p s : cstr m p s → rd_bytes m p (Datatypes.S (length s)) = s ++ [0].
Proof.
  intros (Hb & Hz & _). rewrite <- Nat.add_1_r, rd_bytes_app, Hb. cbn. by rewrite Hz.
Qed.

(** A new stack: the last page is the page that is returned, the others are
    the zero page. *)
Lemma map_stack_spec x w page a0 :
  vm_alloc (tpages (fsdata w)) = Ok (page, a0) →
  mtree (cache (fsdata w)) (pagetable x) → pa_inv (tpages (fsdata w)) → heap_owned (cache (fsdata w)) (tpages (fsdata w)) →
  valid_phys (ZeroPage g) → (∀ a, pa_inv a → ∃ a', pg_hold a (ZeroPage g) = Ok a') → (200 ≤ pa_free (tpages (fsdata w)))%nat →
  ∃ h a, map_stack g (Ctx x) w = Ok (page, set_cache w h a) ∧ mtree h (pagetable x) ∧ pa_inv a ∧ heap_owned h a ∧
    ∀ v, 0 ≤ v < 2 ^ 48 → arch_mmu_get_physical h (pagetable x) v =
      if decide (STACK_END - ARCH_PAGE_SIZE ≤ v < STACK_END) then Ok (Some (page + (v - (STACK_END - ARCH_PAGE_SIZE))))
      else if decide (STACK_END - STACK_LEN ≤ v < STACK_END) then Ok (Some (ZeroPage g + v mod ARCH_PAGE_SIZE))
      else arch_mmu_get_physical (cache (fsdata w)) (pagetable x) v.
Proof.
  intros Hal Ht Hinv Hown Hz Hzh Hfr. destruct (vm_alloc_ok _ _ _ Hinv Hal) as (Hi0 & Hp & _ & Htk & Hf0).
  assert (Ho0 : heap_owned (cache (fsdata w)) a0) by (intros q Hq Hs; apply Htk; right; by apply Hown).
  unfold map_stack. rewrite Hal. mstep.
  destruct (com_mm_vmm_map_spec g (cache (fsdata w)) a0 x (STACK_END - STACK_LEN) 0 (STACK_LEN - ARCH_PAGE_SIZE)
    COM_MM_VMM_FLAGS_ALLOCATE stack_flags 63) as (h1 & a1 & Hrun1 & Ht1 & Hi1 & Ho1 & _ & Hf1 & Hg1).
  1-3: assumption.
  1-2: vm_compute; reflexivity.
  1: vm_compute; split; [discriminate|reflexivity].
  1: vm_compute; reflexivity.
  1: change (Z.to_nat 63) with 63%nat; lia.
  1: vm_compute; reflexivity.
  1-2: vm_compute; discriminate.
  1: split; assumption.
  rewrite Hrun1. clear Hrun1.
  mstep. destruct Hp as [Hp Hpm].
  destruct (com_mm_vmm_map_spec g h1 a1 x (STACK_END - STACK_LEN + STACK_LEN - ARCH_PAGE_SIZE) page ARCH_PAGE_SIZE
    COM_MM_VMM_FLAGS_NONE stack_flags 1) as (h2 & a2 & Hrun2 & Ht2 & Hi2 & Ho2 & _ & _ & Hg2).
  1-3: assumption.
  1-2: vm_compute; reflexivity.
  1: vm_compute; split; [discriminate|reflexivity].
  1: vm_compute; reflexivity.
  1: change (Z.to_nat 63) with 63%nat in Hf1; change (Z.to_nat 1) with 1%nat; lia.
  1: vm_compute; reflexivity.
  1-2: vm_compute; discriminate.
  { change (map_source g COM_MM_VMM_FLAGS_NONE page 1) with (page mod ARCH_PAGE_SIZE = 0 ∧ 0 < page ∧ page + 1 * ARCH_PAGE_SIZE ≤ 2 ^ 46).
    split; [done|]. split; [lia|]. unfold ARCH_PAGE_SIZE in *. Z.to_euclidean_division_equations. lia. }
  rewrite Hrun2. clear Hrun2.
  mstep. exists h2, a2. do 4 (split; [done|]). intros v Hv.
  change (STACK_END - STACK_LEN + STACK_LEN - ARCH_PAGE_SIZE) with (STACK_END - ARCH_PAGE_SIZE) in *.
  rewrite Hg2 by done. change (STACK_END - ARCH_PAGE_SIZE + 1 * ARCH_PAGE_SIZE) with STACK_END.
  destruct (decide (STACK_END - ARCH_PAGE_SIZE ≤ v < STACK_END)) as [Hlast|Hlast]; [done|].
  rewrite Hg1 by done. change (STACK_END - STACK_LEN + 63 * ARCH_PAGE_SIZE) with (STACK_END - ARCH_PAGE_SIZE).
  destruct (decide (STACK_END - STACK_LEN ≤ v < STACK_END - ARCH_PAGE_SIZE)).
  - rewrite decide_True by (unfold ARCH_PAGE_SIZE in *; lia). done.
  - rewrite decide_False by (unfold ARCH_PAGE_SIZE in *; lia). done.
Qed.

(** C15: the stack of a new process, as the process sees it through its page
    tables: when the arguments and the environment fit into the page that is
    allocated for them, the words at the stack pointer are the number of
    arguments, the vectors and the auxiliary vector, every pointer leads to
    its string, and the rest of the stack reads as zero. *)
Theorem new_stack_seen_by_process fuel d x argv_p envp argv env w page a0 :
  vm_alloc (tpages (fsdata w)) = Ok (page, a0) →
  mtree (cache (fsdata w)) (pagetable x) → pa_inv (tpages (fsdata w)) → heap_owned (cache (fsdata w)) (tpages (fsdata w)) →
  valid_phys (ZeroPage g) → pa_taken (tpages (fsdata w)) (ZeroPage g) →
  (∀ a, pa_inv a → ∃ a', pg_hold a (ZeroPage g) = Ok a') → (200 ≤ pa_free (tpages (fsdata w)))%nat →
  (∀ i, 0 ≤ i < ARCH_PAGE_SIZE → umem w (ARCH_PHYS_TO_HHDM (ZeroPage g) + i) = 0) →
  let lo := ARCH_PHYS_TO_HHDM page in
  let used := stack_used argv env in
  strvec fuel (umem w) argv_p argv lo (lo + ARCH_PAGE_SIZE) → strvec fuel (umem w) envp env lo (lo + ARCH_PAGE_SIZE) →
  Z.of_nat fuel < 2 ^ 63 → elf_data_ok d → used ≤ ARCH_PAGE_SIZE →
  ∃ w1 m, map_stack g (Ctx x) w = Ok (page, w1) ∧
    com_sys_elf64_prepare_stack fuel d (page + ARCH_PAGE_SIZE) STACK_END argv_p envp (umem w1) = Ok (STACK_END - used, m) ∧
    let w' := set_umem w1 m in let pt := pagetable x in
    user_words w' pt (STACK_END - used) (stack_words d STACK_END argv env) ∧
    Forall2 (user_str w' pt) (string_ptrs STACK_END (strs_size env) argv) argv ∧
    Forall2 (user_str w' pt) (string_ptrs STACK_END 0 env) env ∧
    (∀ v, STACK_END - STACK_LEN ≤ v < STACK_END - ARCH_PAGE_SIZE → user_byte w' pt v = Some 0) ∧
    (∀ v, 0 ≤ v < 2 ^ 48 → ¬ STACK_END - STACK_LEN ≤ v < STACK_END →
      arch_mmu_get_physical (cache (fsdata w')) pt v = arch_mmu_get_physical (cache (fsdata w)) pt v).
Proof.
  intros Hal Ht Hinv Hown Hz Hzt Hzh Hfr Hzero lo used Hva Hve Hf Hd Hu.
  destruct (vm_alloc_ok _ _ _ Hinv Hal) as (_ & Hp & Hnt & _).
  destruct (map_stack_spec x w page a0) as (h & a & Hms & _ & _ & _ & Hg); try done.
  assert (Htop : ARCH_PHYS_TO_HHDM (page + ARCH_PAGE_SIZE) = lo + ARCH_PAGE_SIZE ∧ (lo + ARCH_PAGE_SIZE) mod 16 = 0 ∧ 0 ≤ lo ∧ lo + ARCH_PAGE_SIZE < 2 ^ 64).
  { unfold lo. rewrite (valid_phys_hhdm page) by done. destruct Hp as [Hp Hm]. unfold ARCH_PHYS_TO_HHDM, HHDM_BASE, ARCH_PAGE_SIZE in *.
    rewrite wrap_small by lia. Z.to_euclidean_division_equations. lia. }
  destruct Htop as (Htop & Ht16 & Hlo & Htb).
  destruct (prepare_stack_spec fuel d (page + ARCH_PAGE_SIZE) STACK_END argv_p envp argv env lo (umem w)) as (m & Hrun & _ & Hw & Hs & Hm);
    rewrite ?Htop; try done; [lia|unfold STACK_END, ARCH_PAGE_SIZE in *; lia|].
  rewrite Htop in Hw, Hs, Hm. fold used in Hrun, Hw, Hm.
  exists (set_cache w h a), m. split; [exact Hms|]. split; [exact Hrun|]. cbv zeta. set (w' := set_umem _ _).
  assert (Hview : ∀ v n, STACK_END - ARCH_PAGE_SIZE ≤ v → v + Z.of_nat n ≤ STACK_END →
    user_bytes w' (pagetable x) v n = Some (rd_bytes m (lo + ARCH_PAGE_SIZE - (STACK_END - v)) n)).
  { intros v n Hv1 Hv2. apply user_bytes_rd. intros i Hi. unfold user_byte. cbn [w' set_umem set_cache fsdata cache umem].
    rewrite Hg by (unfold STACK_END, ARCH_PAGE_SIZE in *; lia). rewrite decide_True by lia. rewrite hhdm_offset by (done || lia).
    do 2 f_equal. fold lo. lia. }
  rewrite (assoc _ (Forall2 _ _ _)). split; [|split; [|split]].
  - intros i y Hi. pose proof (lookup_lt_Some _ _ _ Hi) as Hl. rewrite length_stack_words in Hl.
    pose proof (stack_used_bounds argv env) as Hub. fold used in Hub.
    pose proof (strs_size_nonneg env). pose proof (strs_size_nonneg argv).
    rewrite Hview by lia. cbn [fmap option_fmap option_map]. f_equal. rewrite <- (Hw _ _ Hi). unfold rd_uint. do 2 f_equal. lia.
  - apply all_strings. intros j s Hj. pose proof (strs_size_take _ _ _ Hj) as Hsz. rewrite strs_size_app in Hsz.
    pose proof (stack_used_bounds argv env) as Hub. fold used in Hub. unfold user_str. rewrite Hview by lia. f_equal.
    rewrite <- (rd_bytes_cstr m (lo + ARCH_PAGE_SIZE - strs_size (take (Datatypes.S j) (env ++ argv))) s); [f_equal; lia|by apply Hs].
  - intros v Hv. unfold user_byte. cbn [w' set_umem set_cache fsdata cache umem].
    assert (0 ≤ v mod ARCH_PAGE_SIZE < ARCH_PAGE_SIZE) by (apply Z.mod_pos_bound; done).
    rewrite Hg by (unfold STACK_END, STACK_LEN, ARCH_PAGE_SIZE in *; lia). rewrite decide_False, decide_True by lia.
    rewrite hhdm_offset by done. rewrite Hm; [by rewrite Hzero|]. assert (page ≠ ZeroPage g) by (intros ->; done).
    unfold lo. rewrite (valid_phys_hhdm page), (valid_phys_hhdm (ZeroPage g)) by done. destruct Hp as [_ Hp2], Hz as [_ Hz2].
    unfold ARCH_PAGE_SIZE in *. Z.to_euclidean_division_equations. lia.
  - intros v Hv Hr. cbn [w' set_umem set_cache fsdata cache]. rewrite Hg by done.
    rewrite !decide_False by (unfold STACK_LEN, ARCH_PAGE_SIZE in *; lia). done.
Qed.
End seen.

(** Executing something that is no regular file, such as a directory, works:
    the process starts at address 0. *)
Theorem non_program_starts_at_zero {S A : Type} `{!SlabAlloc S} `{VmMem A} `{!VnodeTables S (tmpfs A)}
    (g : vmm_globals) O_RDONLY fuel fr path s root cwd ctx (w w1 w2 : world S (tmpfs A)) node v :
  cstr (umem w) path s → (length s < fuel)%nat → Z.of_nat fuel < 2 ^ 63 →
  (path + Z.of_nat (length s) < pf_prog_data fr ∨ pf_prog_data fr + sizeof_com_elf_data ≤ path) →
  let w0 := set_umem w (kmemset (pf_prog_data fr) sizeof_com_elf_data 0 (umem w)).2 in
  com_fs_vfs_lookup s root cwd true w0 = Ok (E0, Some node, w1) → vnodes w1 !! node = Some v → type v ≠ E_COM_VNODE_TYPE_FILE →
  COM_FS_VFS_VNODE_RELEASE (Some node) w1 = Ok w2 → umem w2 = umem w0 →
  load_programs g O_RDONLY fuel fr path root cwd ctx w = Ok (E0, 0, w2).
Proof.
  intros Hc Hl Hf Hout w0 Hlk Hv Ht Hr Hm.
  assert (Hz : ∀ a, pf_prog_data fr ≤ a < pf_prog_data fr + sizeof_com_elf_data → umem w0 a = 0).
  { intros a Ha. unfold w0. cbn [set_umem umem]. rewrite kmemset_lookup by done. by destruct (in_range_spec a (pf_prog_data fr) sizeof_com_elf_data). }
  assert (Hc0 : cstr (umem w0) path s).
  { apply (cstr_same (umem w)); [|done]. intros a Ha. unfold w0. cbn [set_umem umem]. rewrite kmemset_lookup by done.
    destruct (in_range_spec a (pf_prog_data fr) sizeof_com_elf_data); [lia|done]. }
  unfold load_programs. fold w0. unfold kstrlen. rewrite (kstrlen_loop_spec _ _ s) by (done || lia). mstep.
  rewrite Z.add_0_l, Nat2Z.id. destruct Hc0 as (-> & _).
  rewrite (load_non_file_succeeds g O_RDONLY w0 w1 w2 node v) by done. mstep. rewrite bool_decide_eq_true_2 by done. cbn [negb].
  rewrite Hm, Hz by (unfold ED_INTERPRETER_PATH, sizeof_com_elf_data; lia). cbn [negb Z.eqb].
  rewrite (rd_uint_same 8 (λ _, 0)); [done|]. intros a Ha. apply Hz. unfold ED_ENTRY, sizeof_com_elf_data in *. lia.
Qed.

(** ** Witnesses *)

(** A program with an argument [ls] and an environment [A=B]. *)
Definition args_mem : mem :=
  wr_u64 (wr_u64 (wr_bytes (wr_bytes (λ _, 0) 0x2000 [108; 115]) 0x2100 [65; 61; 66]) 0x1000 0x2000) 0x1100 0x2100.

Lemma strvec_one fuel m vec p s lo hi :
  rd_uint 8 m vec = p → p ≠ 0 → cstr m p s → p + Z.of_nat (length s) < lo → rd_uint 8 m (vec + 8) = 0 → vec + 16 ≤ lo →
  (length s < fuel)%nat → (1 < fuel)%nat → strvec fuel m vec [s] lo hi.
Proof.
  intros Hr H0 Hc Hlo He Hv Hl Hf. split.
  - intros [|i] t Hi; [|done]. injection Hi as <-. cbv zeta. rewrite Z.add_0_r, Hr. do 2 (split; [done|]). split; [lia|done].
  - exact He.
  - left. cbn. lia.
  - exact Hf.
Qed.

Lemma args_mem_argv lo hi : 0x3000 ≤ lo → strvec 16 args_mem 0x1000 [[108; 115]] lo hi.
Proof.
  intros Hlo. apply (strvec_one 16 args_mem 0x1000 0x2000); cbn [length]; try lia; try (vm_compute; reflexivity).
  split; [vm_compute; reflexivity|]. split; [vm_compute; reflexivity|]. repeat constructor; lia.
Qed.

Lemma args_mem_env lo hi : 0x3000 ≤ lo → strvec 16 args_mem 0x1100 [[65; 61; 66]] lo hi.
Proof.
  intros Hlo. apply (strvec_one 16 args_mem 0x1100 0x2100); cbn [length]; try lia; try (vm_compute; reflexivity).
  split; [vm_compute; reflexivity|]. split; [vm_compute; reflexivity|]. repeat constructor; lia.
Qed.

Definition prog_data : com_elf_data := ElfData 0x401000 0x400040 56 2.

Lemma prepare_stack_layout_witness :
  ∃ m', com_sys_elf64_prepare_stack 16 prog_data 0x6000 STACK_END 0x1000 0x1100 args_mem = Ok (STACK_END - 144, m') ∧
    words_in m' (ARCH_PHYS_TO_HHDM 0x6000 - 144)
      [1; STACK_END - 7; 0; STACK_END - 4; 0; AT_PHNUM; 2; AT_PHENT; 56; AT_PHDR; 0x400040; AT_ENTRY; 0x401000; AT_NULL; 0].
Proof.
  destruct (prepare_stack_layout 16 prog_data 0x6000 STACK_END 0x1000 0x1100 [[108; 115]] [[65; 61; 66]] (ARCH_PHYS_TO_HHDM 0x5000) args_mem)
    as (m' & Hrun & _ & Hw & _).
  - apply args_mem_argv. vm_compute. discriminate.
  - apply args_mem_env. vm_compute. discriminate.
  - vm_compute. reflexivity.
  - repeat split; vm_compute; try discriminate; reflexivity.
  - reflexivity.
  - vm_compute. split; discriminate.
  - vm_compute. reflexivity.
  - reflexivity.
  - vm_compute. split; [discriminate|reflexivity].
  - exists m'. split; [exact Hrun|exact Hw].
Defined.

Lemma args_mem_high a : 0x3000 ≤ a → args_mem a = 0.
Proof.
  intros Ha. unfold args_mem. rewrite !wr_u64_lookup by lia. rewrite !wr_bytes_lookup.
  destruct (in_range_spec a 0x2100 (Z.of_nat (length [65; 61; 66]))) as [Hr|_]; [cbn in Hr; lia|].
  destruct (in_range_spec a 0x2000 (Z.of_nat (length [108; 115]))) as [Hr|_]; [cbn in Hr; lia|done].
Qed.

Definition args_world : demo_world := set_umem small_world args_mem.

Lemma new_stack_seen_by_process_witness :
  ∃ w1 m, map_stack small_glob (Ctx small_ctx) args_world = Ok (0x5000, w1) ∧
    com_sys_elf64_prepare_stack 16 prog_data (0x5000 + ARCH_PAGE_SIZE) STACK_END 0x1000 0x1100 (umem w1) = Ok (STACK_END - 144, m) ∧
    le_val <$> user_bytes (set_umem w1 m) 0x1000 (STACK_END - 144) 8 = Some 1 ∧
    user_str (set_umem w1 m) 0x1000 (STACK_END - 7) [108; 115].
Proof.
  destruct (new_stack_seen_by_process small_glob 16 prog_data small_ctx 0x1000 0x1100 [[108; 115]] [[65; 61; 66]] args_world 0x5000 (Bump 6))
    as (w1 & m & Hms & Hrun & Hw & Hs & _).
  - vm_compute. reflexivity.
  - exact small_tree.
  - cbn. lia.
  - exact small_owned.
  - split; [cbn; lia|reflexivity].
  - split; [split; [split; vm_compute; reflexivity|reflexivity]|]. vm_compute. reflexivity.
  - intros a _. by exists a.
  - apply bump_room. vm_compute. split; discriminate.
  - intros i Hi. apply args_mem_high. change (ARCH_PHYS_TO_HHDM (ZeroPage small_glob)) with (HHDM_BASE + 0x2000). unfold HHDM_BASE. lia.
  - apply args_mem_argv. vm_compute. discriminate.
  - apply args_mem_env. vm_compute. discriminate.
  - vm_compute. reflexivity.
  - repeat split; vm_compute; try discriminate; reflexivity.
  - vm_compute. discriminate.
  - exists w1, m. split; [exact Hms|]. split; [exact Hrun|]. split; [apply (Hw 0%nat); reflexivity|].
    inversion Hs as [|? ? ? ? H1 _]. exact H1.
Defined.

(** An environment of one string of 4000 letters. *)
Definition long_mem : mem := λ a, if in_range a 0x2000 4000 then 65 else args_mem a.
Definition long_string : list Z := replicate 4000 65.

Lemma long_mem_argv lo hi : 0x4000 ≤ lo → strvec 5000 long_mem 0x1000 [long_string] lo hi.
Proof.
  intros Hlo. apply (strvec_one 5000 long_mem 0x1000 0x2000).
  1,5: vm_compute; reflexivity.
  1: lia.
  2: unfold long_string; rewrite length_replicate; lia.
  2: lia.
  2-3: apply Nat.ltb_lt; vm_compute; reflexivity.
  split; [vm_compute; reflexivity|]. split; [vm_compute; reflexivity|]. unfold long_string. by apply Forall_replicate.
Qed.

Lemma long_mem_env lo hi : 0x4000 ≤ lo → strvec 5000 long_mem 0x1108 [] lo hi.
Proof.
  intros Hlo. split; [done|vm_compute; reflexivity|left; cbn; lia|]. apply Nat.ltb_lt. vm_compute. reflexivity.
Qed.

Lemma prepare_stack_writes_below_page_witness :
  ∃ m' a, com_sys_elf64_prepare_stack 5000 prog_data (0x5000 + ARCH_PAGE_SIZE) STACK_END 0x1000 0x1108 long_mem =
      Ok (STACK_END - 4128, m') ∧ a < ARCH_PHYS_TO_HHDM 0x5000 ∧ rd_uint 8 m' a = 1.
Proof.
  apply (prepare_stack_writes_below_page 5000 prog_data 0x5000 STACK_END 0x1000 0x1108 [long_string] [] 0x4000 long_mem).
  - split; [lia|reflexivity].
  - vm_compute. reflexivity.
  - apply long_mem_argv. lia.
  - apply long_mem_env. lia.
  - vm_compute. reflexivity.
  - repeat split; vm_compute; try discriminate; reflexivity.
  - vm_compute. split; discriminate.
  - reflexivity.
  - vm_compute. split; [discriminate|reflexivity].
Defined.

#[local] Existing Instance demo_libc.

(** Executing the root directory of the file system. *)
Definition exec_frame : proc_frame := ProcFrame (ElfFrame 100 200 300) 400 500.
Definition exec_world : demo_world := set_umem demo_w2 (wr_bytes (umem demo_w2) 50 [47; 0]).

Lemma non_program_starts_at_zero_witness :
  ∃ w2, load_programs (VnodeTables0 := loader_tables demo_elf_glob 0) demo_elf_glob 0 16 exec_frame 50 demo_root (Some demo_root) (Ctx demo_space_ctx) exec_world
    = Ok (E0, 0, w2).
Proof.
  eexists. eapply (non_program_starts_at_zero demo_elf_glob 0 16 exec_frame 50 [47]).
  - split; [vm_compute; reflexivity|]. split; [vm_compute; reflexivity|]. repeat constructor. lia.
  - cbn. lia.
  - vm_compute. reflexivity.
  - left. vm_compute. reflexivity.
  - vm_compute. reflexivity.
  - vm_compute. reflexivity.
  - discriminate.
  - vm_compute. reflexivity.
  - reflexivity.
Defined.
