(* ===== verification/Ps2.v ===== *)
(** * The PS/2 keyboard and mouse: src/platform/x86-64/ps2.c

    The interrupt handlers decode the bytes of the two devices, one per
    interrupt, into packets for the console ([Input]). The bytes are arguments
    here: the ports and the set-up of the controller are not modelled. *)
From S2P Require Import Prelude Mem Ringbuffer Tty Input.

Definition PS2_KEYBOARD_EXTENDED_SCANCODE : Z := 0xE0.
Definition PS2_KEYBOARD_KEY_RELEASED : Z := 0x80.
Definition COM_IO_KEYBOARD_KEY_CAPSLOCK : Z := 58.

(** The tables give the numbers of keyboard.h; what they do not list is 0. *)
Definition G_PS2_KEYBOARD_SCANCODES : list Z :=
  [0; 1; 2; 3; 4; 5; 6; 7; 8; 9; 10; 11; 12; 13; 14; 15; 16; 17; 18; 19; 20; 21; 22; 23; 24; 25; 26; 27; 28; 29; 30; 31; 32; 33;
   34; 35; 36; 37; 38; 39; 40; 41; 42; 43; 44; 45; 46; 47; 48; 49; 50; 51; 52; 53; 54; 55; 56; 57; 58; 59; 60; 61; 62; 63; 64; 65;
   66; 67; 68; 69; 70; 71; 72; 73; 74; 75; 76; 77; 78; 79; 80; 81; 82; 83; 0; 0; 0; 87; 88] ++ replicate 39 0.

Definition ext_keys : list (Z * Z) :=
  [(0x1C, 96); (0x1D, 97); (0x35, 98); (0x38, 100); (0x47, 102); (0x48, 103); (0x49, 104); (0x4B, 105); (0x4D, 106);
   (0x4F, 107); (0x50, 108); (0x51, 109); (0x52, 110); (0x53, 111)].
Definition G_PS2_KEYBOARD_EXT_SCANCODES : list Z :=
  foldr (λ e l, <[Z.to_nat e.1 := e.2]> l) (replicate 128 0) ext_keys.

Section keyboard.
Context {W : Type} (X : textkern W) (fuel : nat).
(** [keyboard->layout] *)
Variable layout : com_keyboard → com_kbd_packet → res (option com_kbd_packet).

(** The keyboard and the static variable [extended]. *)
Record ps2_keyboard : Type := Ps2Keyboard { extended : bool; keyboard : com_keyboard }.

(** The key of a byte that is not [PS2_KEYBOARD_EXTENDED_SCANCODE], and
    whether it is released. *)
Definition decode_scancode (ext : bool) (scancode : Z) : res (Z * bool) :=
  let rel := negb (Z.land PS2_KEYBOARD_KEY_RELEASED scancode =? 0) in
  let scancode := if rel then Z.ldiff scancode PS2_KEYBOARD_KEY_RELEASED else scancode in
  code ← deref ((if ext then G_PS2_KEYBOARD_EXT_SCANCODES else G_PS2_KEYBOARD_SCANCODES) !! Z.to_nat scancode);
  Ok (code, rel).

Definition keyboard_state (k : com_keyboard) (p : com_kbd_packet) : com_keyboard :=
  let pressed := negb (released p) in
  let caps := if keycode p =? COM_IO_KEYBOARD_KEY_CAPSLOCK then xorb (caps_lock k) pressed else caps_lock k in
  let shift := if (keycode p =? COM_IO_KEYBOARD_KEY_LEFTSHIFT) || (keycode p =? COM_IO_KEYBOARD_KEY_RIGHTSHIFT) then pressed else shift_held k in
  Keyboard (kb_addr k) (kb_rb k) shift caps.

Definition ps2_keyboard_isr (scancode : Z) (st : ps2_keyboard) (c : console) (w : W) : res (ps2_keyboard * console * W) :=
  if PS2_KEYBOARD_EXTENDED_SCANCODE =? scancode then Ok (Ps2Keyboard true (keyboard st), c, w)
  else
    '(code, rel) ← decode_scancode (extended st) scancode;
    if code =? 0 then Ok (Ps2Keyboard false (keyboard st), c, w)
    else
      action ← layout (keyboard st) (KbdPacket code rel 0);
      match action with
      | Some pkt =>
          let k := keyboard_state (keyboard st) pkt in
          '(c, w) ← com_io_console_kbd_in X fuel c pkt w;
          Ok (Ps2Keyboard false k, c, w)
      | None => Ok (Ps2Keyboard false (keyboard st), c, w)
      end.

(** The bytes of several interrupts. *)
Fixpoint keyboard_bytes (bs : list Z) (st : ps2_keyboard) (c : console) (w : W) : res (ps2_keyboard * console * W) :=
  match bs with
  | [] => Ok (st, c, w)
  | b :: bs => '(st, c, w) ← ps2_keyboard_isr b st c w; keyboard_bytes bs st c w
  end.
End keyboard.

(** ** The mouse *)
Definition COM_IO_MOUSE_RIGHTBUTTON : Z := 0x01.
Definition COM_IO_MOUSE_MIDBUTTON : Z := 0x02.
Definition COM_IO_MOUSE_LEFTBUTTON : Z := 0x04.
Definition COM_IO_MOUSE_BUTTON4 : Z := 0x08.
Definition COM_IO_MOUSE_BUTTON5 : Z := 0x10.
Definition PS2_MOUSEPKT_GOOD : Z := 8.

(** The static variables of the handler and [Ps2Mouse]. *)
Record ps2_mouse : Type := Ps2Mouse { mouse : Z; has_wheel : bool; mouse_data : list Z; cycle : Z }.

Definition PS2_MOUSEPKT_ENOUGH (has_wheel : bool) (cycle : Z) : bool :=
  has_wheel && (4 =? cycle) || negb has_wheel && (3 =? cycle).

Definition has_bits (mask b : Z) : bool := negb (Z.land mask b =? 0).

Definition PS2_MOUSEPKT_TO_PROTOCOL (d0 d3 : Z) : Z :=
  Z.lor (Z.lor (Z.lor (Z.lor (if has_bits 1 d0 then COM_IO_MOUSE_LEFTBUTTON else 0)
    (if has_bits 2 d0 then COM_IO_MOUSE_RIGHTBUTTON else 0))
    (if has_bits 4 d0 then COM_IO_MOUSE_MIDBUTTON else 0))
    (if has_bits 0x10 d3 then COM_IO_MOUSE_BUTTON4 else 0))
    (if has_bits 0x20 d3 then COM_IO_MOUSE_BUTTON5 else 0).

(** The packet a byte completes, which the handler passes to
    [com_io_console_mouse_in]. *)
Definition ps2_mouse_step (curr_byte : Z) (st : ps2_mouse) : res (ps2_mouse * option com_mouse_packet) :=
  _ ← deref (mouse_data st !! Z.to_nat (cycle st));
  let data := <[Z.to_nat (cycle st) := curr_byte]> (mouse_data st) in
  d0 ← deref (data !! 0%nat);
  if negb (has_bits PS2_MOUSEPKT_GOOD d0) then Ok (Ps2Mouse (mouse st) (has_wheel st) data 0, None)
  else
    let cycle := u64 (cycle st + 1) in
    if negb (PS2_MOUSEPKT_ENOUGH (has_wheel st) cycle) then Ok (Ps2Mouse (mouse st) (has_wheel st) data cycle, None)
    else
      d1 ← deref (data !! 1%nat);
      d2 ← deref (data !! 2%nat);
      d3 ← deref (data !! 3%nat);
      let dx := d1 - (if has_bits 0x10 d0 then 0x100 else 0) in
      let dy := d2 - (if has_bits 0x20 d0 then 0x100 else 0) in
      let dy := - dy in
      let dz := Z.land 0x07 d3 * (if has_bits 0x08 d3 then -1 else 1) in
      Ok (Ps2Mouse (mouse st) (has_wheel st) data 0, Some (MousePacket (mouse st) (PS2_MOUSEPKT_TO_PROTOCOL d0 d3) dx dy dz)).

Definition ps2_mouse_isr {W} (send : com_mouse_packet → W → res W) (curr_byte : Z) (st : ps2_mouse) (c : console) (w : W)
    : res (ps2_mouse * W) :=
  '(st, pkt) ← ps2_mouse_step curr_byte st;
  match pkt with
  | Some pkt => w ← com_io_console_mouse_in send c pkt w; Ok (st, w)
  | None => Ok (st, w)
  end.

(** [x86_64_ps2_mouse_init] leaves the wheel off. *)
Definition x86_64_ps2_mouse_init (m : Z) : ps2_mouse := Ps2Mouse m false (replicate 5 0) 0.

(** The bytes of several interrupts and the packets they give. *)
Fixpoint mouse_bytes_in (bs : list Z) (st : ps2_mouse) : res (ps2_mouse * list com_mouse_packet) :=
  match bs with
  | [] => Ok (st, [])
  | b :: bs =>
      '(st, p) ← ps2_mouse_step b st;
      '(st, ps) ← mouse_bytes_in bs st;
      Ok (st, option_list p ++ ps)
  end.

(** ** Keys

    The bytes that a keyboard with scan code set 1 sends for a key. *)
Definition scan_code (k : Z) : option (list Z * Z) :=
  if (1 <=? k) && (k <=? 83) || (k =? 87) || (k =? 88) then Some ([], k)
  else match filter (λ e, e.2 = k) ext_keys with e :: _ => Some ([PS2_KEYBOARD_EXTENDED_SCANCODE], e.1) | [] => None end.

Definition scan_bytes (e : Z * bool) : list Z :=
  match scan_code e.1 with Some (prefix, b) => prefix ++ [if e.2 then b + 0x80 else b] | None => [] end.

(** What the handler does for a key, whatever its bytes are. *)
Section keys.
Context {W : Type} (X : textkern W) (fuel : nat) (layout : com_keyboard → com_kbd_packet → res (option com_kbd_packet)).

Definition key_event (e : Z * bool) (k : com_keyboard) (c : console) (w : W) : res (com_keyboard * console * W) :=
  action ← layout k (KbdPacket e.1 e.2 0);
  match action with
  | Some pkt => '(c, w) ← com_io_console_kbd_in X fuel c pkt w; Ok (keyboard_state k pkt, c, w)
  | None => Ok (k, c, w)
  end.

Fixpoint key_events (es : list (Z * bool)) (k : com_keyboard) (c : console) (w : W) : res (com_keyboard * console * W) :=
  match es with
  | [] => Ok (k, c, w)
  | e :: es => '(k, c, w) ← key_event e k c w; key_events es k c w
  end.

Definition known_key (k : Z) : bool := match scan_code k with Some _ => true | None => false end.

(** Both tables are read at the byte of the key, pressed or released. *)
Definition scan_ok (k : Z) (rel : bool) : bool :=
  match scan_code k with
  | Some (prefix, b) =>
      let b := if rel then b + 0x80 else b in
      negb (PS2_KEYBOARD_EXTENDED_SCANCODE =? b) && negb (k =? 0) &&
      match decode_scancode (negb (bool_decide (prefix = []))) b with Ok (k', rel') => (k' =? k) && eqb rel' rel | _ => false end
  | None => true
  end.

Lemma scan_code_range k p : scan_code k = Some p → 1 ≤ k < 128.
Proof.
  unfold scan_code. destruct ((1 <=? k) && (k <=? 83) || (k =? 87) || (k =? 88)) eqn:Hk; [intros _; lia|].
  destruct (filter _ ext_keys) as [|e l] eqn:Hf; [done|]. intros _.
  assert (He : e ∈ filter (λ e, e.2 = k) ext_keys) by (rewrite Hf; apply list_elem_of_here).
  apply list_elem_of_filter in He as [<- He]. unfold ext_keys in He.
  repeat (apply elem_of_cons in He as [->|He]; [cbn; lia|]). by apply elem_of_nil in He.
Qed.

Lemma scan_ok_all k rel : scan_ok k rel = true.
Proof.
  destruct (scan_code k) as [p|] eqn:Hs; [|unfold scan_ok; by rewrite Hs]. apply scan_code_range in Hs.
  assert (Hall : forallb (λ k, scan_ok k true && scan_ok k false) (seqZ 1 127) = true) by (vm_compute; reflexivity).
  rewrite forallb_forall in Hall. specialize (Hall k). rewrite andb_true_iff in Hall.
  destruct rel; apply Hall; apply list_elem_of_In, elem_of_seqZ; lia.
Qed.

Lemma key_bytes_event e k c w :
  known_key e.1 = true → keyboard_bytes X fuel layout (scan_bytes e) (Ps2Keyboard false k) c w =
    '(k, c, w) ← key_event e k c w; Ok (Ps2Keyboard false k, c, w).
Proof.
  intros Hk. unfold known_key in Hk. pose proof (scan_ok_all e.1 e.2) as Hok. unfold scan_ok in Hok. unfold scan_bytes.
  destruct e as [key rel]. cbn [fst snd] in *. destruct (scan_code key) as [[prefix b]|] eqn:Hs; [|done].
  assert (Hpre : prefix = [] ∨ prefix = [PS2_KEYBOARD_EXTENDED_SCANCODE]).
  { unfold scan_code in Hs. destruct (_ || _); [by injection Hs as <- _; left|]. destruct (filter _ _); [done|]. injection Hs as <- _. by right. }
  set (byte := if rel then b + 0x80 else b) in *. rewrite !andb_true_iff, !negb_true_iff in Hok. destruct Hok as [[Hne Hz] Hdec].
  assert (Hlast : ∀ ext, ext = negb (bool_decide (prefix = [])) → ps2_keyboard_isr X fuel layout byte (Ps2Keyboard ext k) c w =
    '(k, c, w) ← key_event (key, rel) k c w; Ok (Ps2Keyboard false k, c, w)).
  { intros ext ->. unfold ps2_keyboard_isr, key_event. rewrite Hne. cbn [extended keyboard fst snd].
    destruct (decode_scancode _ byte) as [[k' rel']| | |]; try done. mstep. apply andb_true_iff in Hdec as [->%Z.eqb_eq ->%eqb_prop].
    rewrite Hz. destruct (layout k (KbdPacket key rel 0)) as [[pkt|]| | |]; try done. mstep.
    destruct (com_io_console_kbd_in X fuel c pkt w) as [[c' w']| | |]; done. }
  assert (Hbind : ∀ r : res (ps2_keyboard * console * W), ('(st, c, w) ← r; Ok (st, c, w)) = r) by (by intros [[[? ?] ?]| | |]).
  destruct Hpre as [-> | ->]; cbn [app keyboard_bytes].
  - rewrite (Hlast false) by done. apply Hbind.
  - change (ps2_keyboard_isr X fuel layout PS2_KEYBOARD_EXTENDED_SCANCODE (Ps2Keyboard false k) c w) with (Ok (Ps2Keyboard true k, c, w)).
    mstep. rewrite (Hlast true) by done. apply Hbind.
Qed.

Lemma key_events_app es es' k c w :
  key_events (es ++ es') k c w = '(k, c, w) ← key_events es k c w; key_events es' k c w.
Proof.
  revert k c w. induction es as [|e es IH]; intros k c w; [done|]. cbn [app key_events].
  destruct (key_event e k c w) as [[[k' c'] w']| | |]; [|done..]. mstep. apply IH.
Qed.

Lemma keyboard_bytes_app bs bs' st c w :
  keyboard_bytes X fuel layout (bs ++ bs') st c w = '(st, c, w) ← keyboard_bytes X fuel layout bs st c w; keyboard_bytes X fuel layout bs' st c w.
Proof.
  revert st c w. induction bs as [|b bs IH]; intros st c w; [done|]. cbn [app keyboard_bytes].
  destruct (ps2_keyboard_isr X fuel layout b st c w) as [[[st' c'] w']| | |]; [|done..]. mstep. apply IH.
Qed.
End keys.

Lemma keyboard_events_bytes {W} (X : textkern W) fuel layout es k c w :
  Forall (λ e, known_key e.1 = true) es →
  keyboard_bytes X fuel layout (concat (scan_bytes <$> es)) (Ps2Keyboard false k) c w =
    '(k, c, w) ← key_events X fuel layout es k c w; Ok (Ps2Keyboard false k, c, w).
Proof.
  intros Hes. revert k c w. induction Hes as [|e es He Hes IH]; intros k c w; [done|].
  cbn [fmap list_fmap concat key_events]. rewrite keyboard_bytes_app, key_bytes_event by done.
  destruct (key_event X fuel layout e k c w) as [[[k' c'] w']| | |]; [|done..]. mstep. apply IH.
Qed.

(** C38: the bytes a keyboard sends for a sequence of keys, pressed and
    released, have the effect of these keys, in order: every key with a code
    of one byte or of two goes through the layout and to the console exactly
    once, as the key and the state that were sent; in between the handler
    remembers no prefix. *)
Theorem keyboard_decodes {W} (X : textkern W) fuel layout es es' k c w :
  Forall (λ e, known_key e.1 = true) es → Forall (λ e, known_key e.1 = true) es' →
  keyboard_bytes X fuel layout (concat (scan_bytes <$> es) ++ concat (scan_bytes <$> es')) (Ps2Keyboard false k) c w =
    '(k, c, w) ← key_events X fuel layout es k c w;
    '(k, c, w) ← key_events X fuel layout es' k c w; Ok (Ps2Keyboard false k, c, w).
Proof.
  intros Hes Hes'. rewrite keyboard_bytes_app, keyboard_events_bytes by done.
  destruct (key_events X fuel layout es k c w) as [[[k' c'] w']| | |]; [|done..]. mstep. by rewrite keyboard_events_bytes.
Qed.

(** ** Movements

    The three bytes of a mouse without a wheel: the buttons, left, right and
    middle, and the distance to the right and upwards. *)
Record movement : Type := Movement { mv_buttons : Z; mv_x : Z; mv_y : Z }.

Definition movement_ok (v : movement) : Prop := 0 ≤ mv_buttons v < 8 ∧ -256 ≤ mv_x v < 256 ∧ -256 ≤ mv_y v < 256.

Definition movement_bytes (v : movement) : list Z :=
  [8 + mv_buttons v + (if mv_x v <? 0 then 16 else 0) + (if mv_y v <? 0 then 32 else 0); mv_x v mod 256; mv_y v mod 256].

Definition movement_packet (m : Z) (v : movement) : com_mouse_packet :=
  MousePacket m (PS2_MOUSEPKT_TO_PROTOCOL (mv_buttons v) 0) (mv_x v) (- mv_y v) 0.

(** A mouse between two packets whose first three bytes are the last ones. *)
Definition mouse_idle (m : Z) (st : ps2_mouse) : Prop :=
  mouse st = m ∧ has_wheel st = false ∧ cycle st = 0 ∧ ∃ d0 d1 d2, mouse_data st = [d0; d1; d2; 0; 0].

Lemma header_bits b x y : 0 ≤ b < 8 →
  let h := 8 + b + (if x : bool then 16 else 0) + (if y : bool then 32 else 0) in
  has_bits PS2_MOUSEPKT_GOOD h = true ∧ has_bits 0x10 h = x ∧ has_bits 0x20 h = y ∧
  PS2_MOUSEPKT_TO_PROTOCOL h 0 = PS2_MOUSEPKT_TO_PROTOCOL b 0.
Proof.
  intros Hb. assert (b = 0 ∨ b = 1 ∨ b = 2 ∨ b = 3 ∨ b = 4 ∨ b = 5 ∨ b = 6 ∨ b = 7) as Hc by lia.
  destruct Hc as [->|[->|[->|[->|[->|[->|[-> | ->]]]]]]], x, y; vm_compute; done.
Qed.

Lemma mod_256 z : -256 ≤ z < 256 → z mod 256 - (if z <? 0 then 0x100 else 0) = z.
Proof. intros Hz. destruct (Z.ltb_spec z 0); Z.to_euclidean_division_equations; lia. Qed.

(** Evaluates a step on concrete state up to the tests of bits. *)
Ltac mouse_eval Hg :=
  unfold ps2_mouse_step; cbn [mouse has_wheel mouse_data cycle];
  repeat match goal with |- context [u64 (?a + 1)] => let v := eval vm_compute in (u64 (a + 1)) in change (u64 (a + 1)) with v end;
  lazy -[has_bits PS2_MOUSEPKT_GOOD PS2_MOUSEPKT_TO_PROTOCOL Z.sub Z.opp]; rewrite Hg; reflexivity.

Lemma mouse_step_header m h d0 d1 d2 :
  has_bits PS2_MOUSEPKT_GOOD h = true →
  ps2_mouse_step h (Ps2Mouse m false [d0; d1; d2; 0; 0] 0) = Ok (Ps2Mouse m false [h; d1; d2; 0; 0] 1, None).
Proof. intros Hg. mouse_eval Hg. Qed.

Lemma mouse_step_x m h d1 d2 x :
  has_bits PS2_MOUSEPKT_GOOD h = true →
  ps2_mouse_step x (Ps2Mouse m false [h; d1; d2; 0; 0] 1) = Ok (Ps2Mouse m false [h; x; d2; 0; 0] 2, None).
Proof. intros Hg. mouse_eval Hg. Qed.

Lemma mouse_step_y m h x d2 y :
  has_bits PS2_MOUSEPKT_GOOD h = true →
  ps2_mouse_step y (Ps2Mouse m false [h; x; d2; 0; 0] 2) = Ok (Ps2Mouse m false [h; x; y; 0; 0] 0,
    Some (MousePacket m (PS2_MOUSEPKT_TO_PROTOCOL h 0) (x - (if has_bits 0x10 h then 0x100 else 0))
      (- (y - (if has_bits 0x20 h then 0x100 else 0))) 0)).
Proof. intros Hg. mouse_eval Hg. Qed.

(** Three bytes that begin with a header make one packet. *)
Lemma mouse_three m st h x y bs :
  mouse_idle m st → has_bits PS2_MOUSEPKT_GOOD h = true → ∃ st', mouse_idle m st' ∧
    mouse_bytes_in (h :: x :: y :: bs) st = '(st, ps) ← mouse_bytes_in bs st';
      Ok (st, MousePacket m (PS2_MOUSEPKT_TO_PROTOCOL h 0) (x - (if has_bits 0x10 h then 0x100 else 0))
        (- (y - (if has_bits 0x20 h then 0x100 else 0))) 0 :: ps).
Proof.
  intros (Hm & Hw & Hc & d0 & d1 & d2 & Hd) Hg. destruct st as [m' wh data cy]. cbn in Hm, Hw, Hc, Hd. subst m' wh cy data.
  exists (Ps2Mouse m false [h; x; y; 0; 0] 0). split; [split_and!; [done..|by do 3 eexists]|].
  cbn [mouse_bytes_in]. rewrite mouse_step_header by done. mstep. rewrite mouse_step_x by done. mstep. rewrite mouse_step_y by done. mstep.
  by destruct (mouse_bytes_in bs _) as [[? ?]| | |].
Qed.

Lemma movement_step m st v bs :
  mouse_idle m st → movement_ok v → ∃ st', mouse_idle m st' ∧
    mouse_bytes_in (movement_bytes v ++ bs) st = '(st, ps) ← mouse_bytes_in bs st'; Ok (st, movement_packet m v :: ps).
Proof.
  intros Hi (Hb & Hx & Hy). destruct (header_bits (mv_buttons v) (mv_x v <? 0) (mv_y v <? 0) Hb) as (Hg & Hsx & Hsy & Hp).
  destruct (mouse_three m st _ (mv_x v mod 256) (mv_y v mod 256) bs Hi Hg) as (st' & Hi' & Hrun).
  exists st'. split; [done|]. unfold movement_bytes. cbn [app]. rewrite Hrun, Hsx, Hsy, Hp, !mod_256 by done. done.
Qed.

(** C37: the bytes of a sequence of movements are decoded to these movements:
    one packet each, in order, with the buttons, the signed distance to the
    right and the negated distance upwards. *)
Theorem mouse_stream_roundtrip m st vs :
  mouse_idle m st → Forall movement_ok vs → ∃ st', mouse_idle m st' ∧
    mouse_bytes_in (concat (movement_bytes <$> vs)) st = Ok (st', movement_packet m <$> vs).
Proof.
  intros Hi Hvs. revert st Hi. induction Hvs as [|v vs Hv Hvs IH]; intros st Hi; [by exists st|].
  cbn [fmap list_fmap concat]. destruct (movement_step m st v (concat (movement_bytes <$> vs)) Hi Hv) as (st1 & Hi1 & ->).
  destruct (IH st1 Hi1) as (st2 & Hi2 & ->). by exists st2.
Qed.

(** ** Lost bytes *)

(** A mouse that moves by 9 and 10 without a button, and the packet that the
    same bytes give when the first one is lost. *)
Definition steady : movement := Movement 0 9 10.

Lemma steady_shift n : concat (movement_bytes <$> replicate (S n) steady) = 8 :: concat (replicate n [9; 10; 8]) ++ [9; 10].
Proof.
  induction n as [|n IH]; [done|].
  assert (H : concat (movement_bytes <$> replicate (S (S n)) steady) = [8; 9; 10] ++ concat (movement_bytes <$> replicate (S n) steady)) by done.
  by rewrite H, IH.
Qed.

(** when the first byte of a packet is lost, the handler does not find
    the start of a packet again: as long as the movement has bit 3 set every
    later packet is wrong, here a button that nobody holds and a movement
    downwards instead of upwards. *)
Theorem mouse_never_resynchronizes m st n :
  mouse_idle m st → ∃ st' data, tail (concat (movement_bytes <$> replicate (S n) steady)) = data ∧
    mouse_bytes_in data st = Ok (st', replicate n (MousePacket m COM_IO_MOUSE_LEFTBUTTON 10 (-8) 0)) ∧
    movement_packet m steady = MousePacket m 0 9 (-10) 0.
Proof.
  intros Hi. rewrite steady_shift. cbn [tail].
  assert (Hrun : ∃ st', mouse_bytes_in (concat (replicate n [9; 10; 8]) ++ [9; 10]) st =
    Ok (st', replicate n (MousePacket m COM_IO_MOUSE_LEFTBUTTON 10 (-8) 0))).
  { revert st Hi. induction n as [|n IH]; intros st Hi.
    - destruct Hi as (Hm & Hw & Hc & d0 & d1 & d2 & Hd). destruct st as [m' wh data cy]. cbn in Hm, Hw, Hc, Hd. subst m' wh cy data.
      eexists. cbn [replicate concat app mouse_bytes_in]. rewrite mouse_step_header by done. mstep. rewrite mouse_step_x by done. done.
    - cbn [replicate concat app]. destruct (mouse_three m st 9 10 8 (concat (replicate n [9; 10; 8]) ++ [9; 10]) Hi) as (st1 & Hi1 & Hr); [done|].
      destruct (IH st1 Hi1) as [st2 Hr2]. exists st2. rewrite Hr, Hr2. done. }
  destruct Hrun as [st' Hrun]. by exists st', (concat (replicate n [9; 10; 8]) ++ [9; 10]).
Qed.

(** ** Other properties *)

(** The handler's index stays inside its array, and a packet has three bytes
    or four. *)
Definition mouse_wf (st : ps2_mouse) : Prop :=
  length (mouse_data st) = 5%nat ∧ 0 ≤ cycle st < (if has_wheel st then 4 else 3).

Theorem mouse_step_keeps_wf st b :
  mouse_wf st → ∃ st' p, ps2_mouse_step b st = Ok (st', p) ∧ mouse_wf st' ∧ (p ≠ None → cycle st' = 0).
Proof.
  intros [Hl Hc]. destruct st as [m wh data cy]. cbn in *.
  do 5 (destruct data as [|? data]; [done|]). destruct data; [|done]. clear Hl.
  assert (cy = 0 ∨ cy = 1 ∨ cy = 2 ∨ cy = 3) as Hcy by (destruct wh; lia).
  unfold ps2_mouse_step. cbn [mouse has_wheel mouse_data cycle].
  destruct Hcy as [->|[->|[-> | ->]]], wh; try lia;
    repeat match goal with |- context [u64 (?a + 1)] => let v := eval vm_compute in (u64 (a + 1)) in change (u64 (a + 1)) with v end;
    lazy -[has_bits PS2_MOUSEPKT_GOOD PS2_MOUSEPKT_TO_PROTOCOL Z.sub Z.opp Z.mul Z.land mouse_wf not];
    match goal with |- context [has_bits PS2_MOUSEPKT_GOOD ?d] => destruct (has_bits PS2_MOUSEPKT_GOOD d) end;
    eexists _, _; (split; [reflexivity|]); (split; [split; cbn; [done|lia]|done]).
Qed.

(** The fourth byte of a mouse with a wheel is a number in two's complement;
    the handler takes it for a sign and a distance: one step back is read as
    seven. *)
Theorem wheel_reads_sign_and_magnitude m d1 d2 :
  ∃ st, mouse_bytes_in [8; d1; d2; 0xF] (Ps2Mouse m true (replicate 5 0) 0) =
    Ok (st, [MousePacket m 0 (d1 - 0) (- (d2 - 0)) (-7)]).
Proof. by eexists. Qed.

(** With both shift keys down, releasing one turns the shift off. *)
Theorem two_shifts_release k :
  shift_held (keyboard_state (keyboard_state (keyboard_state k (KbdPacket COM_IO_KEYBOARD_KEY_LEFTSHIFT false 0))
    (KbdPacket COM_IO_KEYBOARD_KEY_RIGHTSHIFT false 0)) (KbdPacket COM_IO_KEYBOARD_KEY_RIGHTSHIFT true 0)) = false.
Proof. done. Qed.

(** The Pause key, whose bytes begin with 0xE1, is taken for the left control
    key and the number lock. *)
Theorem pause_is_ctrl_numlock {W} (X : textkern W) fuel layout k c w :
  keyboard_bytes X fuel layout [0xE1; 0x1D; 0x45; 0xE1; 0x9D; 0xC5] (Ps2Keyboard false k) c w =
    '(k, c, w) ← key_events X fuel layout [(COM_IO_KEYBOARD_KEY_LEFTCTRL, false); (69, false); (COM_IO_KEYBOARD_KEY_LEFTCTRL, true); (69, true)] k c w;
    Ok (Ps2Keyboard false k, c, w).
Proof.
  assert (Hign : ∀ k c w, keyboard_bytes X fuel layout [0xE1] (Ps2Keyboard false k) c w = Ok (Ps2Keyboard false k, c, w)) by done.
  change [0xE1; 0x1D; 0x45; 0xE1; 0x9D; 0xC5] with
    ([0xE1] ++ concat (scan_bytes <$> [(29, false); (69, false)]) ++ [0xE1] ++ concat (scan_bytes <$> [(29, true); (69, true)])).
  change [(COM_IO_KEYBOARD_KEY_LEFTCTRL, false); (69, false); (COM_IO_KEYBOARD_KEY_LEFTCTRL, true); (69, true)] with
    ([(29, false); (69, false)] ++ [(29, true); (69, true)]).
  rewrite keyboard_bytes_app, Hign. mstep. rewrite keyboard_bytes_app, keyboard_events_bytes, key_events_app by (repeat constructor).
  destruct (key_events X fuel layout [(29, false); (69, false)] k c w) as [[[k' c'] w']| | |]; [|done..]. mstep.
  rewrite keyboard_bytes_app, Hign. mstep. by rewrite keyboard_events_bytes by (repeat constructor).
Qed.

(** ** Witnesses *)
Definition ps2_console : console := Console ∅ (replicate 7 None) 0 0 0 0.

Lemma keyboard_decodes_witness (w := demo_w0) :
  keyboard_bytes demo_X 9 com_io_keyboard_layout_en_us [0x2A; 0xE0; 0x48; 0xE0; 0xC8; 0xAA] (Ps2Keyboard false demo_kb) ps2_console w =
    '(k, c, w) ← key_events demo_X 9 com_io_keyboard_layout_en_us [(42, false); (103, false); (103, true)] demo_kb ps2_console w;
    '(k, c, w) ← key_events demo_X 9 com_io_keyboard_layout_en_us [(42, true)] k c w; Ok (Ps2Keyboard false k, c, w).
Proof.
  apply (keyboard_decodes demo_X 9 com_io_keyboard_layout_en_us [(42, false); (103, false); (103, true)] [(42, true)]); repeat constructor.
Defined.

Lemma mouse_stream_roundtrip_witness :
  ∃ st, mouse_bytes_in [9; 5; 253; 0x38; 0xFF; 0xFE] (x86_64_ps2_mouse_init 7) =
    Ok (st, [MousePacket 7 COM_IO_MOUSE_LEFTBUTTON 5 (-253) 0; MousePacket 7 0 (-1) 2 0]).
Proof.
  destruct (mouse_stream_roundtrip 7 (x86_64_ps2_mouse_init 7) [Movement 1 5 253; Movement 0 (-1) (-2)]) as (st & _ & Hrun).
  - split_and!; [done..|]. by exists 0, 0, 0.
  - repeat constructor; cbn; lia.
  - exists st. exact Hrun.
Defined.

Lemma mouse_never_resynchronizes_witness :
  ∃ st, mouse_bytes_in [9; 10; 8; 9; 10; 8; 9; 10] (x86_64_ps2_mouse_init 7) =
    Ok (st, [MousePacket 7 COM_IO_MOUSE_LEFTBUTTON 10 (-8) 0; MousePacket 7 COM_IO_MOUSE_LEFTBUTTON 10 (-8) 0]).
Proof.
  destruct (mouse_never_resynchronizes 7 (x86_64_ps2_mouse_init 7) 2) as (st & data & <- & Hrun & _).
  - split_and!; [done..|]. by exists 0, 0, 0.
  - exists st. exact Hrun.
Defined.

Lemma mouse_step_keeps_wf_witness : ∃ st p, ps2_mouse_step 9 (x86_64_ps2_mouse_init 7) = Ok (st, p) ∧ mouse_wf st.
Proof.
  destruct (mouse_step_keeps_wf (x86_64_ps2_mouse_init 7) 9) as (st & p & Hrun & Hwf & _); [split; cbn; [done|lia]|]. by exists st, p.
Defined.
