(* ===== verification/Nvme.v ===== *)
(** * The NVMe driver: src/opt/nvme/nvme.c

    Commands go to the device through a submission queue, a ring in memory
    whose tail the driver writes to a register, and come back through a
    completion queue, whose entries carry a phase bit that changes with every
    round. Reads and writes of the block device are cut into pages. *)
From S2P Require Import Prelude Mem PageTree Mmu Vmm.

Definition NVME_OPCODE_WRITE : Z := 0x01.
Definition NVME_OPCODE_READ : Z := 0x02.

(** [struct nvme_rw_sqe]: the fields the driver sets, and the 64 bytes of the
    entry. *)
Record nvme_rw_sqe : Type := RwSqe { opcode : Z; nsid : Z; prp1 : Z; slba : Z; cdw12 : Z }.
Definition sqe_bytes (c : nvme_rw_sqe) : list Z :=
  le_bytes 1 (opcode c) ++ [0; 0; 0] ++ le_bytes 4 (nsid c) ++ replicate 16 0 ++ le_bytes 8 (prp1 c) ++ replicate 8 0 ++
  le_bytes 8 (slba c) ++ le_bytes 4 (cdw12 c) ++ replicate 12 0.

(** [struct nvme_queue]; the threads that wait are in [irq_waiters]. *)
Record nvme_queue : Type := NvmeQueue {
  sq : Z; cq : Z; qe : Z; sq_doorbell : Z; cq_doorbell : Z;
  sq_idx : Z; cq_idx : Z; cq_phase : bool; irq_waiters : list Z }.

Definition set_sq_idx (q : nvme_queue) (i : Z) : nvme_queue :=
  NvmeQueue (sq q) (cq q) (qe q) (sq_doorbell q) (cq_doorbell q) i (cq_idx q) (cq_phase q) (irq_waiters q).
Definition set_cq_idx (q : nvme_queue) (i : Z) (ph : bool) : nvme_queue :=
  NvmeQueue (sq q) (cq q) (qe q) (sq_doorbell q) (cq_doorbell q) (sq_idx q) i ph (irq_waiters q).
Definition set_irq_waiters (q : nvme_queue) (ts : list Z) : nvme_queue :=
  NvmeQueue (sq q) (cq q) (qe q) (sq_doorbell q) (cq_doorbell q) (sq_idx q) (cq_idx q) (cq_phase q) ts.

Record nvme_device : Type := NvmeDevice { num_blocks : Z; dev_size : Z; blocks_shift : Z; queue : nvme_queue }.
Definition set_nvme_queue (v : nvme_device) (q : nvme_queue) : nvme_device :=
  NvmeDevice (num_blocks v) (dev_size v) (blocks_shift v) q.

(** ** The device

    What the driver uses of it: 32-bit registers that are written, and what
    it does with memory while the processor waits. *)
Class NvmeHw (D : Type) := {
  hw_write32 : D → Z → Z → D;
  hw_step : D → mem → D * mem }.

Section nvme.
Context {D A : Type} `{!NvmeHw D} `{VmMem A}.

(** The phase bit is bit 16 of the last word of an entry of 16 bytes. *)
Definition nvme_queue_done_nobarrier (q : nvme_queue) (m : mem) : bool :=
  negb (eqb (Z.testbit (rd_uint 4 m (cq q + cq_idx q * 16 + 12)) 16) (cq_phase q)).

Definition nvme_submit (q : nvme_queue) (bs : list Z) (m : mem) (d : D) : nvme_queue * mem * D :=
  let m := wr_bytes m (sq q + sq_idx q * 64) bs in
  let i := (sq_idx q + 1) mod 2 ^ 32 in
  let i := if i =? qe q then 0 else i in
  (set_sq_idx q i, m, hw_write32 d (sq_doorbell q) i).

(** The end of a command: the entry is consumed. *)
Definition nvme_complete (q : nvme_queue) (d : D) : nvme_queue * D :=
  let i := (cq_idx q + 1) mod 2 ^ 32 in
  let '(i, ph) := if i =? qe q then (0, negb (cq_phase q)) else (i, cq_phase q) in
  (set_cq_idx q i ph, hw_write32 d (cq_doorbell q) i).

(** The loops that wait for the device, which does a step between two looks
    at the queue. *)
Fixpoint wait_done (fuel : nat) (q : nvme_queue) (m : mem) (d : D) : res (mem * D) :=
  match fuel with
  | O => Fuel
  | S fuel =>
      if nvme_queue_done_nobarrier q m then Ok (m, d)
      else let '(d, m) := hw_step d m in wait_done fuel q m d
  end.

Section waiting.
Variable fuel : nat.

Definition nvme_submit_and_wait (q : nvme_queue) (bs : list Z) (m : mem) (d : D) : res (nvme_queue * mem * D) :=
  let '(q, m, d) := nvme_submit q bs m d in
  '(m, d) ← wait_done fuel q m d;
  let '(q, d) := nvme_complete q d in
  Ok (q, m, d).

Definition page_sqe (drive : nvme_device) (buf pageno opcode : Z) : nvme_rw_sqe :=
  let lba := u64 (Z.shiftl pageno (12 - blocks_shift drive)) in
  let count := Z.shiftl 1 (12 - blocks_shift drive) in
  RwSqe opcode 1 buf lba (u64 (count - 1) mod 2 ^ 32).

(** Run by one thread: the lock is not contended, and every wait for the
    interrupt is a wait for the device. *)
Definition nvme_submit_page_command_sync (drive : nvme_device) (buf pageno opcode : Z) (m : mem) (d : D)
    : res (nvme_device * mem * D) :=
  '(q, m, d) ← nvme_submit_and_wait (queue drive) (sqe_bytes (page_sqe drive buf pageno opcode)) m d;
  Ok (set_nvme_queue drive q, m, d).

(** [com_mm_vmm_get_physical(NULL, buf)] *)
Variable get_physical : Z → Z.

Definition dma_address (buf : Z) : Z :=
  if ARCH_MMU_KERNELSPACE_START <? buf then ARCH_HHDM_TO_PHYS buf else get_physical buf.

Fixpoint multipage_loop (todo : nat) (drive : nvme_device) (buf pageno i opcode : Z) (m : mem) (d : D)
    : res (nvme_device * mem * D) :=
  match todo with
  | O => Ok (drive, m, d)
  | S todo =>
      let m := if NVME_OPCODE_READ =? opcode then upd m buf 0 else m in
      '(drive, m, d) ← nvme_submit_page_command_sync drive (dma_address buf) (pageno + i) opcode m d;
      multipage_loop todo drive (buf + ARCH_PAGE_SIZE) pageno (i + 1) opcode m d
  end.

Definition nvme_submit_multipage_command_sync (drive : nvme_device) (buf pageno num_pages opcode : Z) (m : mem) (d : D)
    : res (nvme_device * mem * D) :=
  multipage_loop (Z.to_nat num_pages) drive buf pageno 0 opcode m d.

(** ** Reading *)

(** The loop through a page of the kernel. [n] is [*bytes_read]. *)
Fixpoint nvme_read_loop (todo : nat) (drive : nvme_device) (tmp buf base_page i rem rem_buflen n : Z) (m : mem) (d : D)
    : res (Z * nvme_device * mem * D) :=
  match todo with
  | O => Ok (n, drive, m, d)
  | S todo =>
      let read_size := KMIN (ARCH_PAGE_SIZE - rem) rem_buflen in
      '(drive, m, d) ← nvme_submit_page_command_sync drive tmp (base_page + i) NVME_OPCODE_READ m d;
      let m := (kmemcpy buf (ARCH_PHYS_TO_HHDM tmp + rem) read_size m).2 in
      nvme_read_loop todo drive tmp (buf + read_size) base_page (i + 1) 0 (u64 (rem_buflen - read_size)) (u64 (n + read_size)) m d
  end.

(** The whole pages of a buffer that begins anywhere, then its head and its
    tail. *)
Definition read_unaligned (drive : nvme_device) (buf buflen base_page : Z) (m : mem) (d : D) (a : A)
    : res (nvme_device * mem * D * A) :=
  let rounded_buf := page_floor (u64 (buf + ARCH_PAGE_SIZE - 1)) in
  let rounded_last := page_floor (u64 (buf + buflen)) in
  let rounded_pages := u64 (rounded_last - rounded_buf) / ARCH_PAGE_SIZE in
  let head_size := u64 (rounded_buf - buf) in
  let tail_size := u64 (u64 (buf + buflen) - rounded_last) in
  '(drive, m, d) ← nvme_submit_multipage_command_sync drive rounded_buf (base_page + (if buf =? rounded_buf then 0 else 1))
    rounded_pages NVME_OPCODE_READ m d;
  '(tmp_phys, a) ← vm_alloc a;
  let tmp_hhdm := ARCH_PHYS_TO_HHDM tmp_phys in
  '(drive, m, d) ← (if buf =? rounded_buf then Ok (drive, m, d)
    else
      '(drive, m, d) ← nvme_submit_page_command_sync drive tmp_phys base_page NVME_OPCODE_READ m d;
      Ok (drive, (kmemcpy buf tmp_hhdm head_size m).2, d));
  '(drive, m, d) ← nvme_submit_page_command_sync drive tmp_phys (base_page + rounded_pages) NVME_OPCODE_READ m d;
  let m := (kmemcpy rounded_last tmp_hhdm tail_size m).2 in
  a ← pg_free a tmp_phys;
  Ok (drive, m, d, a).

Definition pages_of (buflen : Z) : nat := Z.to_nat (u64 (buflen + ARCH_PAGE_SIZE - 1) / ARCH_PAGE_SIZE).

(** What part of the buffer lies in the device. *)
Definition clamp (drive : nvme_device) (buflen off : Z) : Z :=
  if dev_size drive <=? u64 (off + buflen) then u64 (dev_size drive - off) else buflen.

(** [n] is [*bytes_read] at the call; the result is what it is in the end. *)
Definition nvme_read (buf buflen n : Z) (drive : nvme_device) (off : Z) (m : mem) (d : D) (a : A)
    : res (Z * nvme_device * mem * D * A) :=
  if dev_size drive <=? off then Ok (0, drive, m, d, a)
  else
    let buflen := clamp drive buflen off in
    if buflen =? 0 then Ok (0, drive, m, d, a)
    else
      let base_page := off / ARCH_PAGE_SIZE in
      let rem := off mod ARCH_PAGE_SIZE in
      if (rem =? 0) && (buflen mod ARCH_PAGE_SIZE =? 0) && (buf mod ARCH_PAGE_SIZE =? 0) then
        '(drive, m, d) ← nvme_submit_multipage_command_sync drive buf base_page (buflen / ARCH_PAGE_SIZE) NVME_OPCODE_READ m d;
        Ok (buflen, drive, m, d, a)
      else if (rem =? 0) && (2 * ARCH_PAGE_SIZE <=? buflen) then
        '(drive, m, d, a) ← read_unaligned drive buf buflen base_page m d a;
        Ok (buflen, drive, m, d, a)
      else
        '(tmp_phys, a) ← vm_alloc a;
        '(n, drive, m, d) ← nvme_read_loop (pages_of buflen) drive tmp_phys buf base_page 0 rem buflen n m d;
        a ← pg_free a tmp_phys;
        Ok (n, drive, m, d, a).

(** ** Writing *)
Fixpoint nvme_write_loop (todo : nat) (drive : nvme_device) (tmp buf base_page i rem rem_buflen n : Z) (m : mem) (d : D)
    : res (Z * nvme_device * mem * D) :=
  match todo with
  | O => Ok (n, drive, m, d)
  | S todo =>
      let read_size := KMIN (ARCH_PAGE_SIZE - rem) rem_buflen in
      '(drive, m, d) ← nvme_submit_page_command_sync drive tmp (base_page + i) NVME_OPCODE_READ m d;
      let m := (kmemcpy (ARCH_PHYS_TO_HHDM tmp + rem) buf read_size m).2 in
      '(drive, m, d) ← nvme_submit_page_command_sync drive tmp (base_page + i) NVME_OPCODE_WRITE m d;
      nvme_write_loop todo drive tmp (buf + read_size) base_page (i + 1) 0 (u64 (rem_buflen - read_size)) (u64 (n + read_size)) m d
  end.

Definition nvme_write (n : Z) (drive : nvme_device) (buf buflen off : Z) (m : mem) (d : D) (a : A)
    : res (Z * nvme_device * mem * D * A) :=
  if dev_size drive <=? off then Ok (0, drive, m, d, a)
  else
    let buflen := clamp drive buflen off in
    if buflen =? 0 then Ok (0, drive, m, d, a)
    else
      let base_page := off / ARCH_PAGE_SIZE in
      let rem := off mod ARCH_PAGE_SIZE in
      if (rem =? 0) && (buflen mod ARCH_PAGE_SIZE =? 0) && (buf mod ARCH_PAGE_SIZE =? 0) then
        '(drive, m, d) ← nvme_submit_multipage_command_sync drive buf base_page (buflen / ARCH_PAGE_SIZE) NVME_OPCODE_WRITE m d;
        Ok (buflen, drive, m, d, a)
      else
        '(tmp_phys, a) ← vm_alloc a;
        '(n, drive, m, d) ← nvme_write_loop (pages_of buflen) drive tmp_phys buf base_page 0 rem buflen n m d;
        a ← pg_free a tmp_phys;
        Ok (n, drive, m, d, a).
End waiting.

(** ** Several threads

    The parts of nvme_submit_page_command_sync between two points where the
    lock is given up: what a thread does from the start, and from a wait on;
    it is done, or waits (again). *)
Definition page_command_check (t : Z) (q : nvme_queue) (m : mem) (d : D) : bool * nvme_queue * D :=
  if nvme_queue_done_nobarrier q m then let '(q, d) := nvme_complete q d in (true, q, d)
  else (false, set_irq_waiters q (irq_waiters q ++ [t]), d).

Definition page_command_begin (t : Z) (drive : nvme_device) (buf pageno opcode : Z) (m : mem) (d : D)
    : bool * nvme_queue * mem * D :=
  let '(q, m, d) := nvme_submit (queue drive) (sqe_bytes (page_sqe drive buf pageno opcode)) m d in
  let '(fin, q, d) := page_command_check t q m d in
  (fin, q, m, d).

(** The interrupt wakes the thread that waits longest. *)
Definition nvme_isr (q : nvme_queue) : option Z * nvme_queue :=
  match irq_waiters q with [] => (None, q) | t :: ts => (Some t, set_irq_waiters q ts) end.
End nvme.

(** ** What the device promises

    A queue pair as the device knows it, the number of its blocks and the
    logarithm of their size. *)
Record hw_queue : Type := HwQueue { h_sq : Z; h_cq : Z; h_qe : Z; h_sqbell : Z; h_cqbell : Z; h_blocks : Z; h_shift : Z }.

Definition sqe_addr (h : hw_queue) (n : Z) : Z := h_sq h + n mod h_qe h * 64.
Definition cqe_addr (h : hw_queue) (n : Z) : Z := h_cq h + n mod h_qe h * 16.

(** The phase bit of the completion entry of slot [j]. *)
Definition phase_bit (h : hw_queue) (m : mem) (j : Z) : bool := Z.testbit (rd_uint 4 m (h_cq h + j * 16 + 12)) 16.

(** The bytes of the device and of memory that a command transfers. *)
Definition cmd_off (h : hw_queue) (c : nvme_rw_sqe) : Z := slba c * 2 ^ h_shift h.
Definition cmd_len (h : hw_queue) (c : nvme_rw_sqe) : Z := (cdw12 c + 1) * 2 ^ h_shift h.
Definition cmd_mem (c : nvme_rw_sqe) : Z := ARCH_PHYS_TO_HHDM (prp1 c).

(** The [n]-th command was executed: it moved its bytes, wrote its completion
    entry with the phase of its round, and nothing else. *)
Record executed (h : hw_queue) (n : Z) (c : nvme_rw_sqe) (disk : Z → Z) (m : mem) (disk' : Z → Z) (m' : mem) : Prop := {
  ex_mem : ∀ a, ¬ cqe_addr h n ≤ a < cqe_addr h n + 16 →
    m' a = if (opcode c =? NVME_OPCODE_READ) && in_range a (cmd_mem c) (cmd_len h c) then disk (cmd_off h c + (a - cmd_mem c)) else m a;
  ex_disk : ∀ o, disk' o = if (opcode c =? NVME_OPCODE_WRITE) && in_range o (cmd_off h c) (cmd_len h c) then m (cmd_mem c + (o - cmd_off h c)) else disk o;
  ex_phase : phase_bit h m' (n mod h_qe h) = Z.even (n / h_qe h) }.

(** A read or a write with fields that fit their widths, of blocks that the
    device has. *)
Definition cmd_ok (h : hw_queue) (c : nvme_rw_sqe) : Prop :=
  (opcode c = NVME_OPCODE_READ ∨ opcode c = NVME_OPCODE_WRITE) ∧ nsid c = 1 ∧
  0 ≤ prp1 c < 2 ^ 64 ∧ 0 ≤ slba c < 2 ^ 64 ∧ 0 ≤ cdw12 c < 2 ^ 32 ∧ slba c + cdw12 c < h_blocks h.

(** [hw_at h n busy disk d]: the device has executed [n] commands and holds
    [disk]; if it is [busy] the driver has told it of one more. It executes
    that one after at most [hw_left] steps that do nothing. *)
Class NvmeSpec (D : Type) `{!NvmeHw D} := {
  hw_at : hw_queue → Z → bool → (Z → Z) → D → Prop;
  hw_left : D → nat;
  hw_latency : nat;
  hw_submit h n disk d : hw_at h n false disk d →
    let d' := hw_write32 d (h_sqbell h) ((n + 1) mod h_qe h) in hw_at h n true disk d' ∧ (hw_left d' ≤ hw_latency)%nat;
  hw_consume h n disk d : hw_at h n false disk d → hw_at h n false disk (hw_write32 d (h_cqbell h) (n mod h_qe h));
  hw_run h n disk d m c : hw_at h n true disk d → rd_bytes m (sqe_addr h n) 64 = sqe_bytes c → cmd_ok h c →
    ∃ d' m', hw_step d m = (d', m') ∧
      (m' = m ∧ hw_at h n true disk d' ∧ (hw_left d' < hw_left d)%nat ∨
       ∃ disk', hw_at h (n + 1) false disk' d' ∧ executed h n c disk m disk' m') }.

(** ** The bytes of a transfer *)

(** The bytes [todo] turns of a loop transfer. *)
Definition loop_total (todo : nat) (rem left : Z) : Z := Z.min left (Z.of_nat todo * ARCH_PAGE_SIZE - rem).

(** The bytes of a transfer that lie in the device, and how many of them one
    call moves: the loop counts the pages of the length, not those that the
    range touches. *)
Definition dev_len (drive : nvme_device) (buflen off : Z) : Z := Z.min buflen (dev_size drive - off).
Definition transferred (off len : Z) : Z := loop_total (pages_of len) (off mod ARCH_PAGE_SIZE) len.

Lemma clamp_eq drive buflen off : 0 ≤ off < dev_size drive → 0 ≤ buflen → off + buflen < 2 ^ 64 → dev_size drive < 2 ^ 64 →
  clamp drive buflen off = dev_len drive buflen off.
Proof.
  intros Ho Hb Hob Hs. unfold clamp, dev_len. rewrite (wrap_small 64 (off + buflen)) by lia.
  destruct (Z.leb_spec (dev_size drive) (off + buflen)); [rewrite wrap_small by lia|]; lia.
Qed.

Lemma pages_of_eq len : 0 < len → len + ARCH_PAGE_SIZE < 2 ^ 64 →
  len ≤ Z.of_nat (pages_of len) * ARCH_PAGE_SIZE < len + ARCH_PAGE_SIZE.
Proof.
  intros Hl Hb. unfold pages_of. unfold ARCH_PAGE_SIZE in *. rewrite wrap_small by lia. rewrite Z2Nat.id by (apply Z.div_pos; lia).
  Z.to_euclidean_division_equations. lia.
Qed.

Lemma transferred_bounds off len : 0 < len → len + ARCH_PAGE_SIZE < 2 ^ 64 →
  0 < transferred off len ≤ len ∧ (off mod ARCH_PAGE_SIZE = 0 → transferred off len = len).
Proof.
  intros Hl Hb. pose proof (pages_of_eq len Hl Hb). pose proof (Z.mod_pos_bound off ARCH_PAGE_SIZE ltac:(done)).
  unfold transferred, loop_total. unfold ARCH_PAGE_SIZE in *. lia.
Qed.

(** Where an offset lies. *)
Lemma off_split off : 0 ≤ off → 0 ≤ off / ARCH_PAGE_SIZE ∧ 0 ≤ off mod ARCH_PAGE_SIZE < ARCH_PAGE_SIZE ∧
  off = off / ARCH_PAGE_SIZE * ARCH_PAGE_SIZE + off mod ARCH_PAGE_SIZE.
Proof. intros Ho. unfold ARCH_PAGE_SIZE. Z.to_euclidean_division_equations. lia. Qed.

(** The same drive with its queue moved on. *)
Definition same_drive (drive drive' : nvme_device) : Prop :=
  num_blocks drive' = num_blocks drive ∧ dev_size drive' = dev_size drive ∧ blocks_shift drive' = blocks_shift drive.

Ltac same_size := repeat match goal with
  | H : same_drive ?a ?b |- _ =>
      lazymatch goal with _ : dev_size b = dev_size a |- _ => fail | _ => let E := fresh "Hsz" in pose proof (proj1 (proj2 H) : dev_size b = dev_size a) as E end
  end.

(** ** The queue of the driver *)
Section protocol.
Context {D : Type} `{!NvmeHw D} `{!NvmeSpec D}.

(** The queue after [n] commands: its indices and its phase are those of the
    next command, and the completion entries carry the phase of the round
    they were last written in. *)
Record queue_at (h : hw_queue) (n : Z) (q : nvme_queue) (m : mem) : Prop := {
  qa_n : 0 ≤ n;
  qa_size : 1 < h_qe h < 2 ^ 32;
  qa_apart : h_sq h + 64 * h_qe h ≤ h_cq h ∨ h_cq h + 16 * h_qe h ≤ h_sq h;
  qa_same : sq q = h_sq h ∧ cq q = h_cq h ∧ qe q = h_qe h ∧ sq_doorbell q = h_sqbell h ∧ cq_doorbell q = h_cqbell h;
  qa_sq : sq_idx q = n mod h_qe h;
  qa_cq : cq_idx q = n mod h_qe h;
  qa_phase : cq_phase q = Z.odd (n / h_qe h);
  qa_bits : ∀ j, 0 ≤ j < h_qe h → phase_bit h m j = if j <? n mod h_qe h then Z.even (n / h_qe h) else Z.odd (n / h_qe h) }.

(** Memory of the two rings. *)
Definition ring_mem (h : hw_queue) (a : Z) : Prop :=
  h_sq h ≤ a < h_sq h + 64 * h_qe h ∨ h_cq h ≤ a < h_cq h + 16 * h_qe h.

Definition dma_clear (h : hw_queue) (c : nvme_rw_sqe) : Prop :=
  ∀ a, cmd_mem c ≤ a < cmd_mem c + cmd_len h c → ¬ ring_mem h a.

Lemma next_slot n qe : 0 ≤ n → 1 < qe →
  if n mod qe + 1 =? qe then (n + 1) mod qe = 0 ∧ (n + 1) / qe = n / qe + 1
  else (n + 1) mod qe = n mod qe + 1 ∧ (n + 1) / qe = n / qe.
Proof.
  intros Hn Hq. pose proof (Z.div_mod n qe ltac:(lia)) as Hd. pose proof (Z.mod_pos_bound n qe ltac:(lia)) as Hb.
  destruct (Z.eqb_spec (n mod qe + 1) qe) as [He|He].
  - assert (n + 1 = (n / qe + 1) * qe) as -> by nia. rewrite Z.mod_mul, Z.div_mul by lia. done.
  - split; symmetry; [apply (Z.mod_unique_pos _ _ (n / qe))|apply (Z.div_unique_pos _ _ _ (n mod qe + 1))]; nia.
Qed.

Lemma length_sqe_bytes c : length (sqe_bytes c) = 64%nat.
Proof. unfold sqe_bytes. rewrite !length_app, !length_le_bytes, !length_replicate. done. Qed.

Lemma phase_bit_same h m m' j :
  (∀ a, h_cq h + j * 16 ≤ a < h_cq h + j * 16 + 16 → m' a = m a) → phase_bit h m' j = phase_bit h m j.
Proof. intros Hm. unfold phase_bit. rewrite (rd_uint_same 4 m); [done|]. intros x Hx. apply Hm. lia. Qed.

(** The part of the queue that the completion side of a command uses. *)
Definition waits_for (h : hw_queue) (n : Z) (q : nvme_queue) : Prop :=
  cq q = h_cq h ∧ cq_idx q = n mod h_qe h ∧ cq_phase q = Z.odd (n / h_qe h).

Lemma done_iff h n q m : waits_for h n q → nvme_queue_done_nobarrier q m = eqb (phase_bit h m (n mod h_qe h)) (Z.even (n / h_qe h)).
Proof.
  intros (E1 & E2 & E3). unfold nvme_queue_done_nobarrier, phase_bit. rewrite E1, E2, E3, <- Z.negb_odd.
  by destruct (Z.testbit _ _), (Z.odd _).
Qed.

Lemma wait_done_spec fuel h n q m d disk c :
  waits_for h n q → phase_bit h m (n mod h_qe h) = Z.odd (n / h_qe h) →
  hw_at h n true disk d → rd_bytes m (sqe_addr h n) 64 = sqe_bytes c → cmd_ok h c → (S (hw_left d) < fuel)%nat →
  ∃ m' d' disk', wait_done fuel q m d = Ok (m', d') ∧ hw_at h (n + 1) false disk' d' ∧ executed h n c disk m disk' m'.
Proof.
  intros Hq Hph Hat Hsq Hc. revert d Hat. induction fuel as [|fuel IH]; intros d Hat Hl; [lia|].
  cbn [wait_done]. rewrite (done_iff h n q m Hq), Hph, <- Z.negb_odd.
  replace (eqb (Z.odd (n / h_qe h)) (negb (Z.odd (n / h_qe h)))) with false by (by destruct (Z.odd _)).
  destruct (hw_run h n disk d m c Hat Hsq Hc) as (d' & m' & -> & [(-> & Hat' & Hl')|(disk' & Hat' & Hex)]).
  - apply IH; [done|lia].
  - exists m', d', disk'. destruct fuel as [|fuel']; [lia|]. cbn [wait_done].
    rewrite (done_iff h n q m' Hq), (ex_phase _ _ _ _ _ _ _ Hex). by rewrite eqb_reflx.
Qed.

(** A command from the queue at rest to the queue at rest. *)
Lemma submit_and_wait_spec fuel h n q m d disk c :
  queue_at h n q m → hw_at h n false disk d → cmd_ok h c → dma_clear h c → (S (hw_latency (D := D)) < fuel)%nat →
  ∃ q' m' d' disk', nvme_submit_and_wait fuel q (sqe_bytes c) m d = Ok (q', m', d') ∧
    queue_at h (n + 1) q' m' ∧ hw_at h (n + 1) false disk' d' ∧
    (∀ a, ¬ ring_mem h a → m' a = if (opcode c =? NVME_OPCODE_READ) && in_range a (cmd_mem c) (cmd_len h c) then disk (cmd_off h c + (a - cmd_mem c)) else m a) ∧
    (∀ o, disk' o = if (opcode c =? NVME_OPCODE_WRITE) && in_range o (cmd_off h c) (cmd_len h c) then m (cmd_mem c + (o - cmd_off h c)) else disk o).
Proof.
  intros Hqa Hat Hc Hdma Hl. destruct Hqa as [Hn Hs Hap (E1 & E2 & E3 & E4 & E5) Hsq Hcq Hph Hb].
  pose proof (Z.mod_pos_bound n (h_qe h) ltac:(lia)) as Hmod. pose proof (next_slot n (h_qe h) Hn ltac:(lia)) as Hnext.
  unfold nvme_submit_and_wait, nvme_submit. rewrite E1, E3, E4, Hsq. rewrite (Z.mod_small (n mod h_qe h + 1)) by lia.
  fold (sqe_addr h n). set (m1 := wr_bytes m (sqe_addr h n) (sqe_bytes c)).
  assert (Hi : (if n mod h_qe h + 1 =? h_qe h then 0 else n mod h_qe h + 1) = (n + 1) mod h_qe h).
  { destruct (n mod h_qe h + 1 =? h_qe h); by destruct Hnext as [-> _]. }
  rewrite Hi. set (q1 := set_sq_idx q _). destruct (hw_submit h n disk d Hat) as [Hat1 Hl1]. cbv zeta in Hat1, Hl1.
  assert (Hm1 : ∀ a, ¬ sqe_addr h n ≤ a < sqe_addr h n + 64 → m1 a = m a).
  { intros a Ha. unfold m1. rewrite wr_bytes_lookup, length_sqe_bytes. by destruct (in_range_spec a (sqe_addr h n) (Z.of_nat 64)); [lia|]. }
  assert (Hb1 : ∀ j, 0 ≤ j < h_qe h → phase_bit h m1 j = phase_bit h m j).
  { intros j Hj. apply phase_bit_same. intros a Ha. apply Hm1. unfold sqe_addr. lia. }
  destruct (wait_done_spec fuel h n q1 m1 (hw_write32 d (h_sqbell h) ((n + 1) mod h_qe h)) disk c) as (m2 & d2 & disk2 & -> & Hat2 & Hex); [done|..].
  { rewrite Hb1, Hb by lia. by rewrite Z.ltb_irrefl. }
  { exact Hat1. }
  { unfold m1. rewrite <- (length_sqe_bytes c). apply rd_wr_bytes. }
  { done. }
  { lia. }
  mstep. unfold nvme_complete. cbn [q1 set_sq_idx cq_idx qe cq_phase cq_doorbell]. rewrite E3, E5, Hcq, Hph.
  rewrite (Z.mod_small (n mod h_qe h + 1)) by lia.
  pose proof (hw_consume h (n + 1) disk2 d2 Hat2) as Hat3.
  assert (Hpair : (if n mod h_qe h + 1 =? h_qe h then (0, negb (Z.odd (n / h_qe h))) else (n mod h_qe h + 1, Z.odd (n / h_qe h))) =
    ((n + 1) mod h_qe h, Z.odd ((n + 1) / h_qe h))).
  { destruct (n mod h_qe h + 1 =? h_qe h); destruct Hnext as [-> ->]; [|done]. by rewrite Z.odd_add, xorb_true_r. }
  rewrite Hpair. assert (Hslot : ∀ a, sqe_addr h n ≤ a < sqe_addr h n + 64 → ring_mem h a) by (intros a Ha; left; unfold sqe_addr in Ha; lia).
  assert (Hbits : ∀ j, 0 ≤ j < h_qe h → phase_bit h m2 j = if j =? n mod h_qe h then Z.even (n / h_qe h) else phase_bit h m j).
  { intros j Hj. destruct (Z.eqb_spec j (n mod h_qe h)) as [->|Hne]; [exact (ex_phase _ _ _ _ _ _ _ Hex)|].
    rewrite <- Hb1 by done. apply phase_bit_same. intros a Ha. rewrite (ex_mem _ _ _ _ _ _ _ Hex) by (unfold cqe_addr; lia).
    destruct (in_range_spec a (cmd_mem c) (cmd_len h c)) as [Hr|_]; [|by rewrite andb_false_r].
    destruct (Hdma a Hr). right. lia. }
  eexists _, _, _, _. split; [reflexivity|]. split; [|split; [exact Hat3|split]].
  - split; try done; [lia|]. intros j Hj. rewrite Hbits, Hb by done.
    destruct (Z.eqb_spec (n mod h_qe h + 1) (h_qe h)) as [He|He]; destruct Hnext as [-> ->];
      destruct (Z.eqb_spec j (n mod h_qe h)), (Z.ltb_spec j (n mod h_qe h)); try lia.
    + destruct (Z.ltb_spec j 0); [lia|]. by rewrite Z.odd_add, <- Z.negb_odd, xorb_true_r.
    + destruct (Z.ltb_spec j 0); [lia|]. by rewrite Z.odd_add, <- Z.negb_odd, xorb_true_r.
    + destruct (Z.ltb_spec j (n mod h_qe h + 1)); [done|lia].
    + destruct (Z.ltb_spec j (n mod h_qe h + 1)); [done|lia].
    + destruct (Z.ltb_spec j (n mod h_qe h + 1)); [lia|done].
  - intros a Ha. rewrite (ex_mem _ _ _ _ _ _ _ Hex) by (intros Hr; apply Ha; right; unfold cqe_addr in Hr; lia).
    rewrite Hm1; [done|]. intros Hr. by apply Ha, Hslot.
  - intros o. rewrite (ex_disk _ _ _ _ _ _ _ Hex).
    destruct (in_range_spec o (cmd_off h c) (cmd_len h c)); [|by rewrite andb_false_r].
    destruct (opcode c =? NVME_OPCODE_WRITE); [|done]. cbn [andb]. apply Hm1. intros Hr. apply (Hdma (cmd_mem c + (o - cmd_off h c))); [lia|]. by apply Hslot.
Qed.
(** ** Pages of the device *)

(** The drive at rest after [n] commands; the device ends at a page. *)
Definition drive_at (h : hw_queue) (n : Z) (drive : nvme_device) (m : mem) : Prop :=
  queue_at h n (queue drive) m ∧ h_shift h = blocks_shift drive ∧ 0 ≤ blocks_shift drive ≤ 12 ∧
  h_blocks h * 2 ^ h_shift h = dev_size drive ∧ dev_size drive mod ARCH_PAGE_SIZE = 0 ∧ dev_size drive < 2 ^ 64.

Lemma drive_at_same h n drive m m' : (∀ a, ring_mem h a → m' a = m a) → drive_at h n drive m → drive_at h n drive m'.
Proof.
  intros Hm [[Hn Hs Hap Hsame Hsq Hcq Hph Hb] Hsh]. split; [|done]. split; try done.
  intros j Hj. rewrite <- Hb by done. apply phase_bit_same. intros a Ha. apply Hm. right. lia.
Qed.

Lemma drive_end h n drive m pageno :
  drive_at h n drive m → pageno * ARCH_PAGE_SIZE < dev_size drive → (pageno + 1) * ARCH_PAGE_SIZE ≤ dev_size drive.
Proof. intros (_ & _ & _ & _ & He & _) Hp. unfold ARCH_PAGE_SIZE in *. Z.to_euclidean_division_equations. lia. Qed.

Definition clear_of_rings (h : hw_queue) (a n : Z) : Prop := ∀ x, a ≤ x < a + n → ¬ ring_mem h x.

Lemma page_command_spec fuel h n drive m d disk phys pageno op :
  drive_at h n drive m → hw_at h n false disk d → op = NVME_OPCODE_READ ∨ op = NVME_OPCODE_WRITE → 0 ≤ phys < 2 ^ 64 →
  0 ≤ pageno → (pageno + 1) * ARCH_PAGE_SIZE ≤ dev_size drive → clear_of_rings h (ARCH_PHYS_TO_HHDM phys) ARCH_PAGE_SIZE →
  (S (hw_latency (D := D)) < fuel)%nat →
  ∃ drive' m' d' disk', nvme_submit_page_command_sync fuel drive phys pageno op m d = Ok (drive', m', d') ∧
    drive_at h (n + 1) drive' m' ∧ same_drive drive drive' ∧ hw_at h (n + 1) false disk' d' ∧
    (∀ a, ¬ ring_mem h a → m' a = if (op =? NVME_OPCODE_READ) && in_range a (ARCH_PHYS_TO_HHDM phys) ARCH_PAGE_SIZE
      then disk (pageno * ARCH_PAGE_SIZE + (a - ARCH_PHYS_TO_HHDM phys)) else m a) ∧
    (∀ o, disk' o = if (op =? NVME_OPCODE_WRITE) && in_range o (pageno * ARCH_PAGE_SIZE) ARCH_PAGE_SIZE
      then m (ARCH_PHYS_TO_HHDM phys + (o - pageno * ARCH_PAGE_SIZE)) else disk o).
Proof.
  intros [Hq (Hsh & Hr & Hblk & Hend & Hdev)] Hat Hop Hphys Hpn Hpb Hcl Hl. unfold nvme_submit_page_command_sync. set (c := page_sqe drive phys pageno op).
  set (s := blocks_shift drive) in *. assert (Hp2 : 2 ^ (12 - s) * 2 ^ s = ARCH_PAGE_SIZE) by (rewrite <- Z.pow_add_r by lia; by replace (12 - s + s) with 12 by lia).
  assert (Hpos : 0 < 2 ^ (12 - s) ∧ 0 < 2 ^ s) by (split; apply Z.pow_pos_nonneg; lia).
  assert (Hlba : slba c = pageno * 2 ^ (12 - s)).
  { unfold c, page_sqe. cbn [slba]. fold s. rewrite Z.shiftl_mul_pow2 by lia. apply wrap_small. nia. }
  assert (Hcnt : cdw12 c = 2 ^ (12 - s) - 1).
  { unfold c, page_sqe. cbn [cdw12]. fold s. rewrite Z.shiftl_mul_pow2, Z.mul_1_l by lia.
    assert (2 ^ (12 - s) ≤ ARCH_PAGE_SIZE) by nia. unfold ARCH_PAGE_SIZE in *. rewrite wrap_small, Z.mod_small by lia. done. }
  assert (Hoff : cmd_off h c = pageno * ARCH_PAGE_SIZE) by (unfold cmd_off; rewrite Hlba, Hsh; nia).
  assert (Hlen : cmd_len h c = ARCH_PAGE_SIZE) by (unfold cmd_len; rewrite Hcnt, Hsh; nia).
  destruct (submit_and_wait_spec fuel h n (queue drive) m d disk c) as (q' & m' & d' & disk' & -> & Hq' & Hat' & Hm & Hd); try done.
  { split; [done|]. split; [done|]. split; [done|]. rewrite Hlba, Hcnt. assert (2 ^ (12 - s) ≤ ARCH_PAGE_SIZE) by nia.
    unfold ARCH_PAGE_SIZE in *. split; [nia|]. split; [nia|].
    assert (((pageno + 1) * 2 ^ (12 - s)) * 2 ^ s ≤ h_blocks h * 2 ^ s) by (rewrite Hsh in Hblk; nia). nia. }
  { intros a Ha. rewrite Hlen in Ha. by apply Hcl. }
  mstep. exists (set_nvme_queue drive q'), m', d', disk'. split; [done|]. split; [by split; [|split; [|split; [|split]]]|]. split; [done|]. split; [done|].
  rewrite Hoff, Hlen in Hm, Hd. done.
Qed.
Context (fuel : nat) (h : hw_queue) (Hfuel : (S (hw_latency (D := D)) < fuel)%nat).

(** Where the driver itself writes: the rings and its page. *)
Definition scratch (tmp a : Z) : Prop := ring_mem h a ∨ ARCH_PHYS_TO_HHDM tmp ≤ a < ARCH_PHYS_TO_HHDM tmp + ARCH_PAGE_SIZE.

Lemma nvme_read_loop_spec todo n drive m d disk tmp buf base i rem left nb :
  drive_at h n drive m → hw_at h n false disk d → 0 ≤ tmp < 2 ^ 64 → 0 ≤ base + i →
  (base + i + Z.of_nat todo) * ARCH_PAGE_SIZE ≤ dev_size drive → clear_of_rings h (ARCH_PHYS_TO_HHDM tmp) ARCH_PAGE_SIZE →
  0 ≤ rem < ARCH_PAGE_SIZE → 0 ≤ left → 0 ≤ nb → nb + left < 2 ^ 64 → (∀ x, 0 ≤ x < left → ¬ scratch tmp (buf + x)) →
  (todo = O → rem = 0) →
  ∃ n' drive' m' d' disk', nvme_read_loop fuel todo drive tmp buf base i rem left nb m d = Ok (nb + loop_total todo rem left, drive', m', d') ∧
    drive_at h n' drive' m' ∧ same_drive drive drive' ∧ hw_at h n' false disk' d' ∧ (∀ o, disk' o = disk o) ∧
    (∀ x, 0 ≤ x < loop_total todo rem left → m' (buf + x) = disk ((base + i) * ARCH_PAGE_SIZE + rem + x)) ∧
    (∀ a, ¬ scratch tmp a → ¬ buf ≤ a < buf + loop_total todo rem left → m' a = m a).
Proof.
  intros Hd Hat Htmp Hb Hbb Hcl. revert n drive m d disk buf i rem left nb Hd Hat Hb Hbb.
  induction todo as [|todo IH]; intros n drive m d disk buf i rem left nb Hd Hat Hb Hbb Hrem Hleft Hnb Hnl Hbuf H0.
  { rewrite (H0 eq_refl). cbn [nvme_read_loop]. unfold loop_total. exists n, drive, m, d, disk.
    replace (nb + Z.min left (Z.of_nat 0 * ARCH_PAGE_SIZE - 0)) with nb by lia. split_and!; try done. intros x Hx. lia. }
  cbn [nvme_read_loop]. rewrite KMIN_min. set (r := Z.min (ARCH_PAGE_SIZE - rem) left).
  same_size. destruct (page_command_spec fuel h n drive m d disk tmp (base + i) NVME_OPCODE_READ) as (dr1 & m1 & d1 & dk1 & -> & Hd1 & Hsd1 & Hat1 & Hm1 & Hdk1);
    try done; try (by left); try (unfold ARCH_PAGE_SIZE in *; lia).
  mstep. set (m2 := (kmemcpy buf (ARCH_PHYS_TO_HHDM tmp + rem) r m1).2).
  assert (Hm2 : ∀ a, m2 a = if in_range a buf r then m1 (ARCH_PHYS_TO_HHDM tmp + rem + (a - buf)) else m1 a).
  { intros a. unfold m2. rewrite kmemcpy_lookup; [done|lia|]. destruct (decide (ARCH_PHYS_TO_HHDM tmp + rem < buf < ARCH_PHYS_TO_HHDM tmp + rem + r)) as [Hin|]; [|lia].
    destruct (Hbuf 0); [lia|]. right. lia. }
  same_size. destruct (IH (n + 1) dr1 m2 d1 dk1 (buf + r) (i + 1) 0 (left - r) (nb + r)) as (n' & dr' & m' & d' & dk' & Hrun & Hd' & Hsd' & Hat' & Hdk' & Hget & Hfr);
    try done; try (unfold ARCH_PAGE_SIZE in *; lia).
  { apply (drive_at_same h (n + 1) dr1 m1); [|done]. intros a Ha. rewrite Hm2. destruct (in_range_spec a buf r) as [Hr|]; [|done].
    destruct (Hbuf (a - buf)); [lia|]. left. by replace (buf + (a - buf)) with a by lia. }
  { intros x Hx Hs. apply (Hbuf (r + x)); [lia|]. by replace (buf + (r + x)) with (buf + r + x) by lia. }
  assert (Hdk : ∀ o, dk1 o = disk o) by (intros o; by rewrite Hdk1).
  assert (Htot : loop_total (S todo) rem left = r + loop_total todo 0 (left - r)) by (unfold loop_total, r, ARCH_PAGE_SIZE in *; lia).
  assert (Hnn : 0 ≤ loop_total todo 0 (left - r)) by (unfold loop_total, r, ARCH_PAGE_SIZE in *; lia).
  rewrite !wrap_small by (unfold ARCH_PAGE_SIZE in *; lia). rewrite Hrun, Htot. exists n', dr', m', d', dk'.
  split; [by rewrite Z.add_assoc|]. split; [done|]. split; [unfold same_drive in *; intuition congruence|]. split; [done|].
  split; [intros o; by rewrite Hdk'|]. split.
  - intros x Hx. destruct (decide (x < r)) as [Hxr|Hxr].
    + rewrite Hfr by (lia || (apply Hbuf; lia)). rewrite Hm2. destruct (in_range_spec (buf + x) buf r); [|lia].
      rewrite Hm1 by (apply Hcl; unfold ARCH_PAGE_SIZE in *; lia). rewrite Z.eqb_refl.
      destruct (in_range_spec (ARCH_PHYS_TO_HHDM tmp + rem + (buf + x - buf)) (ARCH_PHYS_TO_HHDM tmp) ARCH_PAGE_SIZE); [|lia].
      cbn [andb]. f_equal. lia.
    + replace (buf + x) with (buf + r + (x - r)) by lia. rewrite Hget, Hdk by lia. f_equal. unfold loop_total, ARCH_PAGE_SIZE in *. lia.
  - intros a Ha Hr. rewrite Hfr by (done || lia). rewrite Hm2. destruct (in_range_spec a buf r); [lia|].
    rewrite Hm1 by (intros Hr'; apply Ha; by left). rewrite Z.eqb_refl.
    destruct (in_range_spec a (ARCH_PHYS_TO_HHDM tmp) ARCH_PAGE_SIZE); [|done]. destruct Ha. by right.
Qed.
(** A page read into the scratch page, changed there, and written back. *)
Lemma nvme_write_loop_spec todo n drive m d disk tmp buf base i rem left nb :
  drive_at h n drive m → hw_at h n false disk d → 0 ≤ tmp < 2 ^ 64 → 0 ≤ base + i →
  (base + i + Z.of_nat todo) * ARCH_PAGE_SIZE ≤ dev_size drive → clear_of_rings h (ARCH_PHYS_TO_HHDM tmp) ARCH_PAGE_SIZE →
  0 ≤ rem < ARCH_PAGE_SIZE → 0 ≤ left → 0 ≤ nb → nb + left < 2 ^ 64 → (∀ x, 0 ≤ x < left → ¬ scratch tmp (buf + x)) →
  (todo = O → rem = 0) →
  ∃ n' drive' m' d' disk', nvme_write_loop fuel todo drive tmp buf base i rem left nb m d = Ok (nb + loop_total todo rem left, drive', m', d') ∧
    drive_at h n' drive' m' ∧ same_drive drive drive' ∧ hw_at h n' false disk' d' ∧
    (∀ o, disk' o = let start := (base + i) * ARCH_PAGE_SIZE + rem in
      if in_range o start (loop_total todo rem left) then m (buf + (o - start)) else disk o) ∧
    (∀ a, ¬ scratch tmp a → m' a = m a).
Proof.
  intros Hd Hat Htmp Hb Hbb Hcl. revert n drive m d disk buf i rem left nb Hd Hat Hb Hbb.
  induction todo as [|todo IH]; intros n drive m d disk buf i rem left nb Hd Hat Hb Hbb Hrem Hleft Hnb Hnl Hbuf H0.
  { rewrite (H0 eq_refl). cbn [nvme_write_loop]. unfold loop_total. exists n, drive, m, d, disk.
    replace (Z.min left (Z.of_nat 0 * ARCH_PAGE_SIZE - 0)) with 0 by lia. rewrite Z.add_0_r. split_and!; try done.
    intros o. cbv zeta. by destruct (in_range_spec o ((base + i) * ARCH_PAGE_SIZE + 0) 0); [lia|]. }
  cbn [nvme_write_loop]. rewrite KMIN_min. set (r := Z.min (ARCH_PAGE_SIZE - rem) left). set (T := ARCH_PHYS_TO_HHDM tmp) in *.
  same_size. destruct (page_command_spec fuel h n drive m d disk tmp (base + i) NVME_OPCODE_READ) as (dr1 & m1 & d1 & dk1 & -> & Hd1 & Hsd1 & Hat1 & Hm1 & Hdk1);
    try done; try (by left); try (unfold ARCH_PAGE_SIZE in *; lia).
  mstep. fold T in Hm1. set (m2 := (kmemcpy (T + rem) buf r m1).2).
  assert (Hm2 : ∀ a, m2 a = if in_range a (T + rem) r then m1 (buf + (a - (T + rem))) else m1 a).
  { intros a. unfold m2. rewrite kmemcpy_lookup; [done|lia|]. destruct (decide (buf < T + rem < buf + r)) as [Hin|]; [|lia].
    destruct (Hbuf (T + rem - buf)); [lia|]. right. fold T. lia. }
  assert (Hd2 : drive_at h (n + 1) dr1 m2).
  { apply (drive_at_same h (n + 1) dr1 m1); [|done]. intros a Ha. rewrite Hm2. destruct (in_range_spec a (T + rem) r) as [Hr|]; [|done].
    destruct (Hcl a); [lia|done]. }
  same_size. destruct (page_command_spec fuel h (n + 1) dr1 m2 d1 dk1 tmp (base + i) NVME_OPCODE_WRITE) as (dr3 & m3 & d3 & dk3 & -> & Hd3 & Hsd3 & Hat3 & Hm3 & Hdk3);
    try done; try (by right); try (unfold ARCH_PAGE_SIZE in *; lia).
  mstep. fold T in Hm3, Hdk3.
  assert (Hkeep : ∀ a, ¬ scratch tmp a → m3 a = m a).
  { intros a Ha. rewrite Hm3 by (intros Hr; apply Ha; by left). cbn [andb Z.eqb]. rewrite Hm2.
    destruct (in_range_spec a (T + rem) r); [destruct Ha; right; fold T; lia|]. rewrite Hm1 by (intros Hr; apply Ha; by left). rewrite Z.eqb_refl.
    destruct (in_range_spec a T ARCH_PAGE_SIZE); [destruct Ha; by right|done]. }
  same_size. destruct (IH (n + 1 + 1) dr3 m3 d3 dk3 (buf + r) (i + 1) 0 (left - r) (nb + r)) as (n' & dr' & m' & d' & dk' & Hrun & Hd' & Hsd' & Hat' & Hdk' & Hfr);
    try done; try (unfold ARCH_PAGE_SIZE in *; lia).
  { intros x Hx Hs. apply (Hbuf (r + x)); [lia|]. by replace (buf + (r + x)) with (buf + r + x) by lia. }
  assert (Htot : loop_total (S todo) rem left = r + loop_total todo 0 (left - r)) by (unfold loop_total, r, ARCH_PAGE_SIZE in *; lia).
  assert (Hnn : 0 ≤ loop_total todo 0 (left - r)) by (unfold loop_total, r, ARCH_PAGE_SIZE in *; lia).
  rewrite !wrap_small by (unfold ARCH_PAGE_SIZE in *; lia). rewrite Hrun, Htot. exists n', dr', m', d', dk'.
  split; [by rewrite Z.add_assoc|]. split; [done|]. split; [unfold same_drive in *; intuition congruence|]. split; [done|]. split.
  - intros o. cbv zeta. rewrite Hdk'. cbv zeta. rewrite Z.add_0_r. set (P := (base + i) * ARCH_PAGE_SIZE) in *.
    replace ((base + (i + 1)) * ARCH_PAGE_SIZE) with (P + ARCH_PAGE_SIZE) by (unfold P, ARCH_PAGE_SIZE; lia).
    assert (Hr : 0 < loop_total todo 0 (left - r) → r = ARCH_PAGE_SIZE - rem) by (unfold r, loop_total; lia).
    assert (r ≤ ARCH_PAGE_SIZE - rem) by (unfold r; lia).
    destruct (in_range_spec o (P + ARCH_PAGE_SIZE) (loop_total todo 0 (left - r))) as [H2|H2].
    { rewrite Hr in * by lia. destruct (in_range_spec o (P + rem) (ARCH_PAGE_SIZE - rem + loop_total todo 0 (left - (ARCH_PAGE_SIZE - rem)))); [|lia].
      rewrite Hkeep by (replace (buf + (ARCH_PAGE_SIZE - rem) + (o - (P + ARCH_PAGE_SIZE))) with (buf + (o - (P + rem))) by lia; apply Hbuf; unfold loop_total in *; lia).
      f_equal. lia. }
    rewrite Hdk3. cbn [andb Z.eqb]. destruct (in_range_spec o P ARCH_PAGE_SIZE) as [H1|H1].
    + rewrite Hm2. destruct (in_range_spec (T + (o - P)) (T + rem) r) as [H3|H3], (in_range_spec o (P + rem) (r + loop_total todo 0 (left - r))) as [H4|H4]; try lia.
      * replace (buf + (T + (o - P) - (T + rem))) with (buf + (o - (P + rem))) by lia.
        assert (Hns : ¬ scratch tmp (buf + (o - (P + rem)))) by (apply Hbuf; unfold loop_total in *; lia).
        rewrite Hm1 by (intros Hr'; apply Hns; by left). rewrite Z.eqb_refl.
        destruct (in_range_spec (buf + (o - (P + rem))) T ARCH_PAGE_SIZE); [destruct Hns; by right|done].
      * rewrite Hm1 by (apply Hcl; fold T; lia). rewrite Z.eqb_refl. destruct (in_range_spec (T + (o - P)) T ARCH_PAGE_SIZE); [|lia].
        cbn [andb]. f_equal. lia.
    + rewrite Hdk1. cbn [andb Z.eqb]. destruct (in_range_spec o (P + rem) (r + loop_total todo 0 (left - r))); [lia|done].
  - intros a Ha. by rewrite Hfr, Hkeep.
Qed.
(** A buffer of the kernel, as the device reaches it. *)
Definition kernel_buf (buf len : Z) : Prop := ARCH_MMU_KERNELSPACE_START < buf ∧ HHDM_BASE ≤ buf ∧ buf + len ≤ 2 ^ 64.

Lemma dma_kernel get_physical buf len : kernel_buf buf len → 0 < len →
  0 ≤ dma_address get_physical buf < 2 ^ 64 ∧ ARCH_PHYS_TO_HHDM (dma_address get_physical buf) = buf.
Proof.
  intros (Hk & Hb & He) Hl. unfold dma_address. destruct (Z.ltb_spec ARCH_MMU_KERNELSPACE_START buf); [|lia].
  unfold ARCH_PHYS_TO_HHDM, ARCH_HHDM_TO_PHYS, HHDM_BASE in *. rewrite !wrap_small by (rewrite ?wrap_small; lia). lia.
Qed.

Lemma multipage_spec get_physical todo n drive m d disk buf pageno i op :
  drive_at h n drive m → hw_at h n false disk d → op = NVME_OPCODE_READ ∨ op = NVME_OPCODE_WRITE → 0 ≤ pageno + i →
  (pageno + i + Z.of_nat todo) * ARCH_PAGE_SIZE ≤ dev_size drive →
  kernel_buf buf (Z.of_nat todo * ARCH_PAGE_SIZE) → clear_of_rings h buf (Z.of_nat todo * ARCH_PAGE_SIZE) →
  ∃ n' drive' m' d' disk', multipage_loop fuel get_physical todo drive buf pageno i op m d = Ok (drive', m', d') ∧
    drive_at h n' drive' m' ∧ same_drive drive drive' ∧ hw_at h n' false disk' d' ∧
    (∀ a, ¬ ring_mem h a → m' a = if (op =? NVME_OPCODE_READ) && in_range a buf (Z.of_nat todo * ARCH_PAGE_SIZE)
      then disk ((pageno + i) * ARCH_PAGE_SIZE + (a - buf)) else m a) ∧
    (∀ o, disk' o = if (op =? NVME_OPCODE_WRITE) && in_range o ((pageno + i) * ARCH_PAGE_SIZE) (Z.of_nat todo * ARCH_PAGE_SIZE)
      then m (buf + (o - (pageno + i) * ARCH_PAGE_SIZE)) else disk o).
Proof.
  intros Hd Hat Hop. revert n drive m d disk buf i Hd Hat. induction todo as [|todo IH]; intros n drive m d disk buf i Hd Hat Hp Hpb Hk Hcl.
  { cbn [multipage_loop]. exists n, drive, m, d, disk. split_and!; try done.
    - intros a _. destruct (in_range_spec a buf (Z.of_nat 0 * ARCH_PAGE_SIZE)); [lia|]. by rewrite andb_false_r.
    - intros o. destruct (in_range_spec o ((pageno + i) * ARCH_PAGE_SIZE) (Z.of_nat 0 * ARCH_PAGE_SIZE)); [lia|]. by rewrite andb_false_r. }
  cbn [multipage_loop]. destruct (dma_kernel get_physical buf _ Hk) as [Hphys Hhhdm]; [unfold ARCH_PAGE_SIZE; lia|].
  set (m0 := if NVME_OPCODE_READ =? op then upd m buf 0 else m).
  assert (Hm0 : ∀ a, a ≠ buf → m0 a = m a). { intros a Ha. unfold m0, upd. destruct (_ =? op); [|done]. destruct (Z.eqb_spec a buf); done. }
  assert (Hm0w : op = NVME_OPCODE_WRITE → m0 = m) by (by intros ->).
  assert (Hd0 : drive_at h n drive m0).
  { apply (drive_at_same h n drive m); [|done]. intros a Ha. apply Hm0. intros ->. apply (Hcl buf); [unfold ARCH_PAGE_SIZE; lia|done]. }
  same_size. destruct (page_command_spec fuel h n drive m0 d disk (dma_address get_physical buf) (pageno + i) op) as (dr1 & m1 & d1 & dk1 & -> & Hd1 & Hsd1 & Hat1 & Hm1 & Hdk1);
    try done; try (unfold ARCH_PAGE_SIZE in *; lia).
  { rewrite Hhhdm. intros x Hx. apply Hcl. unfold ARCH_PAGE_SIZE in *. lia. }
  mstep. rewrite Hhhdm in Hm1, Hdk1.
  same_size. destruct (IH (n + 1) dr1 m1 d1 dk1 (buf + ARCH_PAGE_SIZE) (i + 1)) as (n' & dr' & m' & d' & dk' & -> & Hd' & Hsd' & Hat' & Hm' & Hdk');
    try done; try (unfold ARCH_PAGE_SIZE in *; lia).
  { destruct Hk as (? & ? & ?). unfold kernel_buf, ARCH_PAGE_SIZE in *. lia. }
  { intros x Hx. apply Hcl. unfold ARCH_PAGE_SIZE in *. lia. }
  exists n', dr', m', d', dk'. split; [done|]. split; [done|]. split; [unfold same_drive in *; intuition congruence|]. split; [done|].
  rewrite Nat2Z.inj_succ. set (k := Z.of_nat todo * ARCH_PAGE_SIZE) in *. replace (Z.succ (Z.of_nat todo) * ARCH_PAGE_SIZE) with (ARCH_PAGE_SIZE + k) in * by (unfold k; lia).
  set (P := (pageno + i) * ARCH_PAGE_SIZE) in *. replace ((pageno + (i + 1)) * ARCH_PAGE_SIZE) with (P + ARCH_PAGE_SIZE) in * by (unfold P; lia).
  assert (Hk0 : 0 ≤ k) by (unfold k, ARCH_PAGE_SIZE; lia). assert (HPS : 0 < ARCH_PAGE_SIZE) by done.
  destruct Hop as [-> | ->]; change (NVME_OPCODE_READ =? NVME_OPCODE_READ) with true in *; change (NVME_OPCODE_READ =? NVME_OPCODE_WRITE) with false in *;
    change (NVME_OPCODE_WRITE =? NVME_OPCODE_READ) with false in *; change (NVME_OPCODE_WRITE =? NVME_OPCODE_WRITE) with true in *; cbn [andb] in *.
  - split; [|intros o; by rewrite Hdk', Hdk1]. intros a Ha. rewrite Hm' by done.
    destruct (in_range_spec a (buf + ARCH_PAGE_SIZE) k) as [H2|H2], (in_range_spec a buf (ARCH_PAGE_SIZE + k)) as [H3|H3]; try lia.
    + rewrite Hdk1. f_equal. lia.
    + rewrite Hm1 by done. by destruct (in_range_spec a buf ARCH_PAGE_SIZE); [|lia].
    + rewrite Hm1 by done. destruct (in_range_spec a buf ARCH_PAGE_SIZE); [lia|]. apply Hm0. lia.
  - split; [intros a Ha; rewrite Hm', Hm1 by done; by rewrite Hm0w|]. intros o. rewrite Hdk'.
    destruct (in_range_spec o (P + ARCH_PAGE_SIZE) k) as [H2|H2], (in_range_spec o P (ARCH_PAGE_SIZE + k)) as [H3|H3]; try lia.
    + rewrite Hm1 by (apply Hcl; lia). rewrite Hm0w by done. f_equal. lia.
    + rewrite Hdk1. destruct (in_range_spec o P ARCH_PAGE_SIZE); [|lia]. by rewrite Hm0w.
    + rewrite Hdk1. by destruct (in_range_spec o P ARCH_PAGE_SIZE); [lia|].
Qed.
(** ** The whole operations *)
Context {A : Type} `{VmMem A}.

(** A buffer that begins at a page, with a last page that is not whole. *)
Lemma read_aligned_tail get_physical n drive m d disk buf len base a tmp a0 a1 :
  drive_at h n drive m → hw_at h n false disk d → vm_alloc a = Ok (tmp, a0) → pg_free a0 tmp = Ok a1 → 0 ≤ tmp < 2 ^ 64 →
  clear_of_rings h (ARCH_PHYS_TO_HHDM tmp) ARCH_PAGE_SIZE → buf mod ARCH_PAGE_SIZE = 0 → kernel_buf buf len → buf + len < 2 ^ 64 →
  0 < len → len mod ARCH_PAGE_SIZE ≠ 0 → 0 ≤ base → base * ARCH_PAGE_SIZE + len ≤ dev_size drive → (∀ x, 0 ≤ x < len → ¬ scratch tmp (buf + x)) →
  ∃ n' drive' m' d' disk', read_unaligned fuel get_physical drive buf len base m d a = Ok (drive', m', d', a1) ∧
    drive_at h n' drive' m' ∧ same_drive drive drive' ∧ hw_at h n' false disk' d' ∧ (∀ o, disk' o = disk o) ∧
    (∀ x, 0 ≤ x < len → m' (buf + x) = disk (base * ARCH_PAGE_SIZE + x)) ∧
    (∀ a, ¬ scratch tmp a → ¬ buf ≤ a < buf + len → m' a = m a).
Proof.
  intros Hd Hat Hal Hfree Htmp Hcl Hbm Hk Hbl Hlen Hlm Hbase Hbb Hbuf.
  set (p := len / ARCH_PAGE_SIZE). assert (Hp : 0 ≤ p ∧ 0 ≤ p * ARCH_PAGE_SIZE < len ∧ len < p * ARCH_PAGE_SIZE + ARCH_PAGE_SIZE).
  { unfold p, ARCH_PAGE_SIZE in *. Z.to_euclidean_division_equations. lia. }
  assert (Hb0 : 0 ≤ buf) by (destruct Hk as (_ & ? & _); unfold HHDM_BASE in *; lia).
  assert (Hrb : page_floor (u64 (buf + ARCH_PAGE_SIZE - 1)) = buf).
  { unfold ARCH_PAGE_SIZE in *. rewrite wrap_small by (Z.to_euclidean_division_equations; lia). rewrite page_floor_eq by lia.
    unfold ARCH_PAGE_SIZE. Z.to_euclidean_division_equations. lia. }
  assert (Hrl : page_floor (u64 (buf + len)) = buf + p * ARCH_PAGE_SIZE).
  { rewrite wrap_small by lia. rewrite page_floor_eq by lia. unfold ARCH_PAGE_SIZE in *. Z.to_euclidean_division_equations. lia. }
  unfold read_unaligned. rewrite Hrb, Hrl, Z.eqb_refl. rewrite (wrap_small 64 (buf + len)) by lia.
  replace (buf + p * ARCH_PAGE_SIZE - buf) with (p * ARCH_PAGE_SIZE) by lia.
  replace (buf + len - (buf + p * ARCH_PAGE_SIZE)) with (len - p * ARCH_PAGE_SIZE) by lia.
  rewrite !wrap_small by (unfold ARCH_PAGE_SIZE in *; lia). rewrite Z.div_mul by done. rewrite Z.add_0_r.
  unfold nvme_submit_multipage_command_sync.
  assert (Hpn : Z.of_nat (Z.to_nat p) = p) by lia. pose proof (drive_end h n drive m (base + p) Hd) as Hend.
  same_size. destruct (multipage_spec get_physical (Z.to_nat p) n drive m d disk buf base 0 NVME_OPCODE_READ) as (n1 & dr1 & m1 & d1 & dk1 & -> & Hd1 & Hsd1 & Hat1 & Hm1 & Hdk1);
    rewrite ?Hpn; try done; try (by left); try (unfold ARCH_PAGE_SIZE in *; lia).
  { destruct Hk as (? & ? & ?). split_and!; [done..|lia]. }
  { intros x Hx Hr. apply (Hbuf (x - buf)); [lia|]. left. by replace (buf + (x - buf)) with x by lia. }
  rewrite Hpn, Z.add_0_r in Hm1. mstep. rewrite Hal. mstep. mstep.
  same_size. destruct (page_command_spec fuel h n1 dr1 m1 d1 dk1 tmp (base + p) NVME_OPCODE_READ) as (dr2 & m2 & d2 & dk2 & -> & Hd2 & Hsd2 & Hat2 & Hm2 & Hdk2);
    try done; try (by left); try (unfold ARCH_PAGE_SIZE in *; lia).
  mstep. rewrite Hfree. mstep. set (T := ARCH_PHYS_TO_HHDM tmp) in *. set (t := len - p * ARCH_PAGE_SIZE) in *. set (b := buf + p * ARCH_PAGE_SIZE) in *.
  assert (Htb : 0 ≤ t < ARCH_PAGE_SIZE ∧ len = p * ARCH_PAGE_SIZE + t ∧ b = buf + p * ARCH_PAGE_SIZE) by (unfold t, b; lia).
  set (m3 := (kmemcpy b T t m2).2).
  assert (Hm3 : ∀ x, m3 x = if in_range x b t then m2 (T + (x - b)) else m2 x).
  { intros x. unfold m3. rewrite kmemcpy_lookup; [done|lia|]. destruct (decide (T < b < T + t)) as [Hin|]; [|lia].
    destruct (Hbuf (p * ARCH_PAGE_SIZE)); [lia|]. right. fold T b. lia. }
  exists (n1 + 1), dr2, m3, d2, dk2. split; [done|]. split.
  { apply (drive_at_same h (n1 + 1) dr2 m2); [|done]. intros x Hx. rewrite Hm3. destruct (in_range_spec x b t) as [Hr|]; [|done].
    destruct (Hbuf (x - buf)); [lia|]. left. by replace (buf + (x - buf)) with x by lia. }
  split; [unfold same_drive in *; intuition congruence|]. split; [done|].
  assert (Hdk : ∀ o, dk2 o = disk o) by (intros o; by rewrite Hdk2, Hdk1). split; [done|]. split.
  - intros x Hx. rewrite Hm3. destruct (in_range_spec (buf + x) b t) as [Hr|Hr].
    + rewrite Hm2 by (apply Hcl; fold T; lia). rewrite Z.eqb_refl. fold T. destruct (in_range_spec (T + (buf + x - b)) T ARCH_PAGE_SIZE); [|lia].
      cbn [andb]. rewrite Hdk1. f_equal. unfold b, ARCH_PAGE_SIZE. lia.
    + assert (Hns : ¬ scratch tmp (buf + x)) by (apply Hbuf; lia).
      rewrite Hm2 by (intros Hr'; apply Hns; by left). rewrite Z.eqb_refl. fold T.
      destruct (in_range_spec (buf + x) T ARCH_PAGE_SIZE); [destruct Hns; right; fold T; lia|]. cbn [andb].
      rewrite Hm1 by (intros Hr'; apply Hns; by left). rewrite Z.eqb_refl.
      destruct (in_range_spec (buf + x) buf (p * ARCH_PAGE_SIZE)); [|lia]. cbn [andb]. f_equal. lia.
  - intros x Hx Hr. rewrite Hm3. destruct (in_range_spec x b t); [lia|]. rewrite Hm2 by (intros Hr'; apply Hx; by left).
    rewrite Z.eqb_refl. fold T. destruct (in_range_spec x T ARCH_PAGE_SIZE); [destruct Hx; right; fold T; lia|]. cbn [andb].
    rewrite Hm1 by (intros Hr'; apply Hx; by left). rewrite Z.eqb_refl. by destruct (in_range_spec x buf (p * ARCH_PAGE_SIZE)); [lia|].
Qed.
(** What a call of the driver needs: a drive at rest, a range that begins in
    the device and does not overflow, a page for the loop, and a buffer apart
    from the driver's own memory. *)
Record io_ready (n : Z) (drive : nvme_device) (m : mem) (d : D) (disk : Z → Z) (buf buflen off : Z) (a : A) (tmp : Z) (a1 : A) : Prop := {
  ir_drive : drive_at h n drive m;
  ir_hw : hw_at h n false disk d;
  ir_off : 0 ≤ off < dev_size drive;
  ir_len : 0 < buflen;
  ir_bound : off + buflen < 2 ^ 64 ∧ dev_size drive + 2 * ARCH_PAGE_SIZE < 2 ^ 64 ∧ buf + buflen < 2 ^ 64 ∧ buflen + ARCH_PAGE_SIZE < 2 ^ 64;
  ir_page : ∃ a0, vm_alloc a = Ok (tmp, a0) ∧ pg_free a0 tmp = Ok a1;
  ir_tmp : 0 ≤ tmp < 2 ^ 64 ∧ clear_of_rings h (ARCH_PHYS_TO_HHDM tmp) ARCH_PAGE_SIZE;
  ir_buf : ∀ x, 0 ≤ x < buflen → ¬ scratch tmp (buf + x);
  ir_kernel : buf mod ARCH_PAGE_SIZE = 0 → kernel_buf buf buflen }.

(** A read of [r] bytes that went well. *)
Definition delivered (drive : nvme_device) (m : mem) (disk : Z → Z) (tmp buf off r : Z) (out : res (Z * nvme_device * mem * D * A)) : Prop :=
  ∃ n' drive' m' d' disk' a', out = Ok (r, drive', m', d', a') ∧
    drive_at h n' drive' m' ∧ same_drive drive drive' ∧ hw_at h n' false disk' d' ∧ (∀ o, disk' o = disk o) ∧
    (∀ x, 0 ≤ x < r → m' (buf + x) = disk (off + x)) ∧
    (∀ x, ¬ scratch tmp x → ¬ buf ≤ x < buf + r → m' x = m x).

Lemma read_whole_pages get_physical n drive m d disk buf len off a tmp :
  drive_at h n drive m → hw_at h n false disk d → 0 ≤ off → 0 < len → off + len ≤ dev_size drive → off mod ARCH_PAGE_SIZE = 0 → len mod ARCH_PAGE_SIZE = 0 →
  kernel_buf buf len → (∀ x, 0 ≤ x < len → ¬ scratch tmp (buf + x)) →
  delivered drive m disk tmp buf off len
    ('(drive, m, d) ← nvme_submit_multipage_command_sync fuel get_physical drive buf (off / ARCH_PAGE_SIZE) (len / ARCH_PAGE_SIZE) NVME_OPCODE_READ m d;
     Ok (len, drive, m, d, a)).
Proof.
  intros Hd Hat Ho Hl Hb Hom Hlm Hk Hbuf. destruct (off_split off Ho) as (Hq & _ & Hs). rewrite Hom, Z.add_0_r in Hs.
  unfold nvme_submit_multipage_command_sync. assert (Hpl : Z.of_nat (Z.to_nat (len / ARCH_PAGE_SIZE)) * ARCH_PAGE_SIZE = len).
  { rewrite Z2Nat.id by (apply Z.div_pos; [lia|done]). unfold ARCH_PAGE_SIZE in *. Z.to_euclidean_division_equations. lia. }
  same_size. destruct (multipage_spec get_physical (Z.to_nat (len / ARCH_PAGE_SIZE)) n drive m d disk buf (off / ARCH_PAGE_SIZE) 0 NVME_OPCODE_READ)
    as (n1 & dr1 & m1 & d1 & dk1 & -> & Hd1 & Hsd1 & Hat1 & Hm1 & Hdk1);
    rewrite ?Z.mul_add_distr_r, ?Hpl; try done; try (by left); try lia.
  { intros x Hx Hr'. apply (Hbuf (x - buf)); [lia|]. left. by replace (buf + (x - buf)) with x by lia. }
  mstep. rewrite Hpl, Z.add_0_r, <- Hs in *. exists n1, dr1, m1, d1, dk1, a. do 4 (split; [done|]). split; [intros o; by rewrite Hdk1|]. split.
  - intros x Hx. rewrite Hm1 by (intros Hr'; apply (Hbuf x); [lia|by left]). rewrite Z.eqb_refl.
    destruct (in_range_spec (buf + x) buf len); [|lia]. cbn [andb]. f_equal. lia.
  - intros x Hx Hr. rewrite Hm1 by (intros Hr'; apply Hx; by left). rewrite Z.eqb_refl. by destruct (in_range_spec x buf len); [lia|].
Qed.

(** The loop over the scratch page, for a whole read. *)
Lemma read_by_loop n drive m d disk buf len off a tmp a0 a1 :
  drive_at h n drive m → hw_at h n false disk d → 0 ≤ off → 0 < len → off + len ≤ dev_size drive → dev_size drive + ARCH_PAGE_SIZE < 2 ^ 64 →
  vm_alloc a = Ok (tmp, a0) → pg_free a0 tmp = Ok a1 → 0 ≤ tmp < 2 ^ 64 → clear_of_rings h (ARCH_PHYS_TO_HHDM tmp) ARCH_PAGE_SIZE →
  (∀ x, 0 ≤ x < len → ¬ scratch tmp (buf + x)) →
  delivered drive m disk tmp buf off (transferred off len)
    ('(tmp_phys, a) ← vm_alloc a;
     '(n, drive, m, d) ← nvme_read_loop fuel (pages_of len) drive tmp_phys buf (off / ARCH_PAGE_SIZE) 0 (off mod ARCH_PAGE_SIZE) len 0 m d;
     a ← pg_free a tmp_phys;
     Ok (n, drive, m, d, a)).
Proof.
  intros Hd Hat Ho Hl Hb Hb2 Hal Hfree Htmp Hcl Hbuf. destruct (off_split off Ho) as (Hdiv & Hmod & Hdm).
  pose proof (pages_of_eq len ltac:(lia) ltac:(unfold ARCH_PAGE_SIZE in *; lia)) as Hpages. rewrite Hal. mstep.
  pose proof (drive_end h n drive m (off / ARCH_PAGE_SIZE + Z.of_nat (pages_of len) - 1) Hd) as Hend.
  destruct (nvme_read_loop_spec (pages_of len) n drive m d disk tmp buf (off / ARCH_PAGE_SIZE) 0 (off mod ARCH_PAGE_SIZE) len 0)
    as (n1 & dr1 & m1 & d1 & dk1 & -> & Hd1 & Hsd1 & Hat1 & Hdk1 & Hget & Hfr); try done; try (unfold ARCH_PAGE_SIZE in *; lia).
  mstep. rewrite Hfree. mstep. rewrite Z.add_0_l. fold (transferred off len) in *. exists n1, dr1, m1, d1, dk1, a1.
  do 4 (split; [done|]). split; [done|]. split; [|done].
  intros x Hx. rewrite Hget by done. f_equal. lia.
Qed.

(** C34: a read of the block device puts the bytes of the device at the offset
    into the buffer, as many as it reports, and reports at least one and no
    more than there are; nothing else but the driver's own memory changes,
    and the drive is at rest again, its next command in the next slot. Left
    out is the case that goes wrong: a buffer that begins within a page, for
    a range of two pages or more that begins at one. *)
Theorem nvme_read_delivers get_physical n drive m d disk buf buflen off a tmp a1 :
  io_ready n drive m d disk buf buflen off a tmp a1 →
  let len := dev_len drive buflen off in let r := transferred off len in
  off mod ARCH_PAGE_SIZE ≠ 0 ∨ len < 2 * ARCH_PAGE_SIZE ∨ buf mod ARCH_PAGE_SIZE = 0 →
  0 < r ≤ len ∧ (off mod ARCH_PAGE_SIZE = 0 → r = len) ∧
  delivered drive m disk tmp buf off r (nvme_read fuel get_physical buf buflen 0 drive off m d a).
Proof.
  intros [Hd Hat Hoff Hlen (Hb1 & Hb2 & Hb3 & Hb4) (a0 & Hal & Hfree) (Htmp & Hcl) Hbuf Hk] len r Hcase.
  assert (Hl : 0 < len ≤ buflen ∧ off + len ≤ dev_size drive) by (unfold len, dev_len; lia).
  assert (Hlb : len + ARCH_PAGE_SIZE < 2 ^ 64) by lia.
  destruct (transferred_bounds off len ltac:(lia) Hlb) as [Hr Hr0]. fold r in Hr, Hr0. split; [done|]. split; [done|].
  pose proof (pages_of_eq len ltac:(lia) Hlb) as Hpages. destruct (off_split off ltac:(lia)) as (Hdiv & Hmod & Hdm).
  unfold nvme_read. destruct (Z.leb_spec (dev_size drive) off); [lia|]. rewrite clamp_eq by (unfold ARCH_PAGE_SIZE in *; lia). fold len.
  destruct (Z.eqb_spec len 0); [lia|].
  assert (Hbuf' : ∀ x, 0 ≤ x < len → ¬ scratch tmp (buf + x)) by (intros x Hx; apply Hbuf; lia).
  assert (Hk' : buf mod ARCH_PAGE_SIZE = 0 → kernel_buf buf len) by (intros Hbm; destruct (Hk Hbm) as (?&?&?); split_and!; [done..|lia]).
  match goal with |- context [if ?c then _ else _] => destruct c eqn:Hfast end.
  { apply andb_true_iff in Hfast as [[Hom%Z.eqb_eq Hlm%Z.eqb_eq]%andb_true_iff Hbm%Z.eqb_eq]. rewrite Hr0 by done.
    apply (read_whole_pages _ n); try done; try lia. by apply Hk'. }
  match goal with |- context [if ?c then _ else _] => destruct c eqn:Hmany end; [|apply (read_by_loop n) with a0 a1; try done; lia].
  apply andb_true_iff in Hmany as [Hom%Z.eqb_eq Hlp%Z.leb_le]. rewrite Hr0 by done. rewrite Hom, Z.add_0_r in Hdm.
  destruct Hcase as [?|[?|Hbm]]; [done|lia|].
  destruct (read_aligned_tail get_physical n drive m d disk buf len (off / ARCH_PAGE_SIZE) a tmp a0 a1)
    as (n1 & dr1 & m1 & d1 & dk1 & -> & Hd1 & Hsd1 & Hat1 & Hdk1 & Hget & Hfr); try done; try lia; [by apply Hk'|].
  mstep. exists n1, dr1, m1, d1, dk1, a1. do 5 (split; [done|]). split; [|done]. intros x Hx. rewrite Hget by done. f_equal. lia.
Qed.
(** C35: a write to the block device leaves on it the bytes of the buffer at
    the offset, as many as it reports, and every other byte as it was, also
    those around the range in its first and last page; memory is left alone
    but for the driver's own, and the drive is at rest again. *)
Theorem nvme_write_stores get_physical n drive m d disk buf buflen off a tmp a1 :
  io_ready n drive m d disk buf buflen off a tmp a1 →
  let len := dev_len drive buflen off in let r := transferred off len in
  0 < r ≤ len ∧ (off mod ARCH_PAGE_SIZE = 0 → r = len) ∧
  ∃ n' drive' m' d' disk' a', nvme_write fuel get_physical 0 drive buf buflen off m d a = Ok (r, drive', m', d', a') ∧
    drive_at h n' drive' m' ∧ same_drive drive drive' ∧ hw_at h n' false disk' d' ∧
    (∀ o, disk' o = if in_range o off r then m (buf + (o - off)) else disk o) ∧
    (∀ x, ¬ scratch tmp x → m' x = m x).
Proof.
  intros [Hd Hat Hoff Hlen (Hb1 & Hb2 & Hb3 & Hb4) (a0 & Hal & Hfree) (Htmp & Hcl) Hbuf Hk] len r.
  assert (Hl : 0 < len ≤ buflen ∧ off + len ≤ dev_size drive) by (unfold len, dev_len; lia).
  assert (Hlb : len + ARCH_PAGE_SIZE < 2 ^ 64) by lia.
  destruct (transferred_bounds off len ltac:(lia) Hlb) as [Hr Hr0]. fold r in Hr, Hr0. split; [done|]. split; [done|].
  pose proof (pages_of_eq len ltac:(lia) Hlb) as Hpages. destruct (off_split off ltac:(lia)) as (Hdiv & Hmod & Hdm).
  unfold nvme_write. destruct (Z.leb_spec (dev_size drive) off); [lia|]. rewrite clamp_eq by (unfold ARCH_PAGE_SIZE in *; lia). fold len.
  destruct (Z.eqb_spec len 0); [lia|].
  assert (Hbuf' : ∀ x, 0 ≤ x < len → ¬ scratch tmp (buf + x)) by (intros x Hx; apply Hbuf; lia).
  match goal with |- context [if ?c then _ else _] => destruct c eqn:Hfast end.
  - apply andb_true_iff in Hfast as [[Hom%Z.eqb_eq Hlm%Z.eqb_eq]%andb_true_iff Hbm%Z.eqb_eq]. rewrite Hr0 by done.
    rewrite Hom, Z.add_0_r in Hdm. destruct (Hk Hbm) as (Hk1 & Hk2 & Hk3). unfold nvme_submit_multipage_command_sync.
    assert (Hpl : Z.of_nat (Z.to_nat (len / ARCH_PAGE_SIZE)) * ARCH_PAGE_SIZE = len).
    { rewrite Z2Nat.id by (apply Z.div_pos; [lia|done]). unfold ARCH_PAGE_SIZE in *. Z.to_euclidean_division_equations. lia. }
    destruct (multipage_spec get_physical (Z.to_nat (len / ARCH_PAGE_SIZE)) n drive m d disk buf (off / ARCH_PAGE_SIZE) 0 NVME_OPCODE_WRITE)
      as (n1 & dr1 & m1 & d1 & dk1 & -> & Hd1 & Hsd1 & Hat1 & Hm1 & Hdk1);
      rewrite ?Z.mul_add_distr_r, ?Hpl; try done; try (by right); try lia.
    { split_and!; [done..|lia]. }
    { intros x Hx Hr'. apply (Hbuf' (x - buf)); [lia|]. left. by replace (buf + (x - buf)) with x by lia. }
    mstep. rewrite Hpl, Z.add_0_r, <- Hdm in *. exists n1, dr1, m1, d1, dk1, a. do 5 (split; [done|]).
    intros x Hx. by rewrite Hm1 by (intros Hr'; apply Hx; by left).
  - rewrite Hal. mstep.
    pose proof (drive_end h n drive m (off / ARCH_PAGE_SIZE + Z.of_nat (pages_of len) - 1) Hd) as Hend.
    destruct (nvme_write_loop_spec (pages_of len) n drive m d disk tmp buf (off / ARCH_PAGE_SIZE) 0 (off mod ARCH_PAGE_SIZE) len 0)
      as (n1 & dr1 & m1 & d1 & dk1 & -> & Hd1 & Hsd1 & Hat1 & Hdk1 & Hfr); try done; try (unfold ARCH_PAGE_SIZE in *; lia).
    mstep. rewrite Hfree. mstep. rewrite Z.add_0_l. exists n1, dr1, m1, d1, dk1, a1. do 4 (split; [done|]). split; [|done].
    intros o. rewrite Hdk1. cbv zeta. rewrite Z.add_0_r, <- Hdm. done.
Qed.

End protocol.

(** ** What goes wrong *)
Section faults.
Context {D : Type} `{!NvmeHw D} `{!NvmeSpec D} {A : Type} `{VmMem A}.

(** a read of two pages or more, at a page of the device, into a buffer
    that begins within a page, reports success and gives wrong bytes: after
    the [head] bytes up to the next page of the buffer come those that begin a
    page of the device later, not those that follow. *)
Theorem nvme_read_misplaces fuel h get_physical n drive m d disk buf buflen off a tmp a1 :
  io_ready h n drive m d disk buf buflen off a tmp a1 → (S (hw_latency (D := D)) < fuel)%nat →
  let len := dev_len drive buflen off in let head := ARCH_PAGE_SIZE - buf mod ARCH_PAGE_SIZE in
  off mod ARCH_PAGE_SIZE = 0 → 2 * ARCH_PAGE_SIZE ≤ len → buf mod ARCH_PAGE_SIZE ≠ 0 → kernel_buf buf buflen →
  ∃ drive' m' d' a', nvme_read fuel get_physical buf buflen 0 drive off m d a = Ok (len, drive', m', d', a') ∧
    0 < head < ARCH_PAGE_SIZE ∧ (∀ x, 0 ≤ x < head → m' (buf + x) = disk (off + x)) ∧
    (∀ x, head ≤ x < ARCH_PAGE_SIZE → m' (buf + x) = disk (off + ARCH_PAGE_SIZE + (x - head))).
Proof.
  intros [Hd Hat Hoff Hlen (Hb1 & Hb2 & Hb3 & Hb4) (a0 & Hal & Hfree) (Htmp & Hcl) Hbuf _] Hfuel len head Hom H2 Hbm (Hk1 & Hk2 & Hk3).
  assert (Hl : 0 < len ≤ buflen ∧ off + len ≤ dev_size drive) by (unfold len, dev_len; lia).
  unfold nvme_read. destruct (Z.leb_spec (dev_size drive) off); [lia|]. rewrite clamp_eq by (unfold ARCH_PAGE_SIZE in *; lia). fold len.
  destruct (Z.eqb_spec len 0); [lia|]. rewrite Hom, Z.eqb_refl. destruct (Z.eqb_spec (buf mod ARCH_PAGE_SIZE) 0); [done|]. rewrite andb_false_r.
  destruct (Z.leb_spec (2 * ARCH_PAGE_SIZE) len); [|lia]. cbn [andb].
  assert (Hb0 : 0 ≤ buf) by (unfold HHDM_BASE in *; lia). destruct (off_split off ltac:(lia)) as (Hdiv & _ & Hdm). rewrite Hom, Z.add_0_r in Hdm.
  destruct (off_split buf Hb0) as (_ & Hbmod & Hbs). set (base := off / ARCH_PAGE_SIZE) in *.
  assert (Hhd : 0 < head < ARCH_PAGE_SIZE) by (unfold head, ARCH_PAGE_SIZE in *; lia).
  assert (Hrb : page_floor (u64 (buf + ARCH_PAGE_SIZE - 1)) = buf + head).
  { rewrite wrap_small by (unfold ARCH_PAGE_SIZE in *; lia). rewrite page_floor_eq by (unfold ARCH_PAGE_SIZE in *; lia).
    unfold head, ARCH_PAGE_SIZE in *. Z.to_euclidean_division_equations. lia. }
  set (last := page_floor (u64 (buf + len))).
  destruct (off_split (buf + len) ltac:(lia)) as (_ & Hlm & Hls). set (lq := (buf + len) / ARCH_PAGE_SIZE) in *. set (bq := buf / ARCH_PAGE_SIZE) in *.
  assert (Hrl : last = lq * ARCH_PAGE_SIZE) by (unfold last; rewrite wrap_small by lia; apply page_floor_eq; lia).
  assert (Hbh : buf + head = (bq + 1) * ARCH_PAGE_SIZE) by (unfold head, ARCH_PAGE_SIZE in *; lia).
  set (p := (last - (buf + head)) / ARCH_PAGE_SIZE). assert (Hp : p * ARCH_PAGE_SIZE = last - (buf + head) ∧ 0 < p).
  { unfold p. rewrite Hrl, Hbh, <- Z.mul_sub_distr_r, Z.div_mul by done. split; [done|]. unfold ARCH_PAGE_SIZE in *. lia. }
  unfold read_unaligned. fold last. rewrite Hrb. destruct (Z.eqb_spec buf (buf + head)); [lia|]. rewrite (wrap_small 64 (buf + len)) by lia.
  replace (buf + head - buf) with head by lia. rewrite !(wrap_small 64) by (unfold ARCH_PAGE_SIZE in *; lia). fold p.
  unfold nvme_submit_multipage_command_sync. assert (Hpn : Z.of_nat (Z.to_nat p) = p) by lia.
  pose proof (drive_end h n drive m (base + p) Hd ltac:(unfold ARCH_PAGE_SIZE in *; lia)) as Hend.
  same_size. destruct (multipage_spec fuel h Hfuel get_physical (Z.to_nat p) n drive m d disk (buf + head) (base + 1) 0 NVME_OPCODE_READ)
    as (k1 & dr1 & m1 & d1 & dk1 & -> & Hd1 & Hsd1 & Hat1 & Hm1 & Hdk1); rewrite ?Hpn; try done; try (by left); try (unfold ARCH_PAGE_SIZE in *; lia).
  { rewrite (proj1 Hp). split; [lia|]. split; [lia|]. lia. }
  { intros x Hx Hr. apply (Hbuf (x - buf)); [lia|]. left. by replace (buf + (x - buf)) with x by lia. }
  rewrite Hpn, (proj1 Hp) in Hm1. mstep. rewrite Hal. mstep.
  same_size. destruct (page_command_spec fuel h k1 dr1 m1 d1 dk1 tmp base NVME_OPCODE_READ) as (dr2 & m2 & d2 & dk2 & -> & Hd2 & Hsd2 & Hat2 & Hm2 & Hdk2);
    try done; try (by left); try (unfold ARCH_PAGE_SIZE in *; lia).
  mstep. set (T := ARCH_PHYS_TO_HHDM tmp) in *. set (m3 := (kmemcpy buf T head m2).2).
  assert (Hm3 : ∀ x, m3 x = if in_range x buf head then m2 (T + (x - buf)) else m2 x).
  { intros x. unfold m3. rewrite kmemcpy_lookup; [done|lia|]. destruct (decide (T < buf < T + head)) as [Hin|]; [|lia].
    destruct (Hbuf 0); [lia|]. right. fold T. lia. }
  same_size. destruct (page_command_spec fuel h (k1 + 1) dr2 m3 d2 dk2 tmp (base + p) NVME_OPCODE_READ) as (dr4 & m4 & d4 & dk4 & -> & _ & _ & _ & Hm4 & _);
    try done; try (by left); try (unfold ARCH_PAGE_SIZE in *; lia).
  { apply (drive_at_same h (k1 + 1) dr2 m2); [|done]. intros x Hx. rewrite Hm3. destruct (in_range_spec x buf head) as [Hr|]; [|done].
    destruct (Hbuf (x - buf)); [lia|]. left. by replace (buf + (x - buf)) with x by lia. }
  mstep. rewrite Hfree. mstep. set (t := buf + len - last). set (m5 := (kmemcpy last T t m4).2). fold T in Hm4.
  assert (Ht : 0 ≤ t < ARCH_PAGE_SIZE ∧ last + t = buf + len ∧ buf + ARCH_PAGE_SIZE ≤ last) by (unfold t, ARCH_PAGE_SIZE in *; lia).
  assert (Hm5 : ∀ x, x < last → ¬ scratch h tmp x → m5 x = m3 x).
  { intros x Hx Hs. unfold m5. rewrite kmemcpy_lookup.
    - destruct (in_range_spec x last t); [lia|]. rewrite Hm4 by (intros Hr'; apply Hs; by left). rewrite Z.eqb_refl.
      destruct (in_range_spec x T ARCH_PAGE_SIZE); [destruct Hs; right; fold T; lia|done].
    - lia.
    - destruct (decide (T < last < T + t)) as [Hin|]; [|lia]. destruct (Hbuf (last - buf)); [lia|]. right. fold T. lia. }
  exists dr4, m5, d4, a1. split; [done|]. split; [done|]. split.
  - intros x Hx. rewrite Hm5 by (lia || (apply Hbuf; lia)). rewrite Hm3. destruct (in_range_spec (buf + x) buf head); [|lia].
    rewrite Hm2 by (apply Hcl; fold T; lia). rewrite Z.eqb_refl. destruct (in_range_spec (T + (buf + x - buf)) T ARCH_PAGE_SIZE); [|lia].
    cbn [andb]. rewrite Hdk1. f_equal. lia.
  - intros x Hx. assert (Hs : ¬ scratch h tmp (buf + x)) by (apply Hbuf; unfold ARCH_PAGE_SIZE in *; lia).
    assert (Hnr : ¬ ring_mem h (buf + x)) by (intros Hr'; apply Hs; by left).
    rewrite Hm5 by (done || lia). rewrite Hm3. destruct (in_range_spec (buf + x) buf head); [lia|].
    rewrite Hm2 by done. rewrite Z.eqb_refl. destruct (in_range_spec (buf + x) T ARCH_PAGE_SIZE); [destruct Hs; right; fold T; lia|]. cbn [andb].
    rewrite Hm1 by done. rewrite Z.eqb_refl. destruct (in_range_spec (buf + x) (buf + head) (last - (buf + head))); [|lia].
    cbn [andb]. f_equal. unfold ARCH_PAGE_SIZE in *. lia.
Qed.

(** a thread takes the next completion for its own: when the command of
    another thread, which waits, is completed just before this thread submits
    its command, the thread returns at once; nothing but the queue has
    changed, so a read has put nothing into its buffer. *)
Theorem another_threads_completion h n t drive m d buf pageno op :
  waits_for h n (queue drive) → phase_bit h m (n mod h_qe h) = Z.even (n / h_qe h) →
  (∀ x, sq (queue drive) + sq_idx (queue drive) * 64 ≤ x < sq (queue drive) + sq_idx (queue drive) * 64 + 64 →
    ¬ cqe_addr h n ≤ x < cqe_addr h n + 16) →
  ∃ q m' d', page_command_begin t drive buf pageno op m d = (true, q, m', d') ∧ irq_waiters q = irq_waiters (queue drive) ∧
    ∀ x, ¬ sq (queue drive) + sq_idx (queue drive) * 64 ≤ x < sq (queue drive) + sq_idx (queue drive) * 64 + 64 → m' x = m x.
Proof.
  intros Hw Hph Hap. unfold page_command_begin, nvme_submit, page_command_check.
  set (bs := sqe_bytes _). set (a := sq (queue drive) + sq_idx (queue drive) * 64) in *. set (m1 := wr_bytes m a bs).
  assert (Hm1 : ∀ x, ¬ a ≤ x < a + 64 → m1 x = m x).
  { intros x Hx. unfold m1. rewrite wr_bytes_lookup. unfold bs. rewrite length_sqe_bytes. by destruct (in_range_spec x a (Z.of_nat 64)); [lia|]. }
  rewrite (done_iff h n) by done. rewrite (phase_bit_same h m m1), Hph, eqb_reflx.
  - unfold nvme_complete. cbn [cq_idx set_sq_idx]. destruct (_ =? _); by eexists _, m1, _.
  - intros x Hx. apply Hm1. intros Hr. apply (Hap x Hr). unfold cqe_addr. lia.
Qed.
End faults.

(** ** A device

    The witnesses run against this one, which answers after one idle step. *)
Record demo_nvme : Type := DemoNvme { dn_h : hw_queue; dn_n : Z; dn_busy : bool; dn_left : nat; dn_disk : Z → Z }.

Definition demo_parse (bs : list Z) : nvme_rw_sqe :=
  let at_ k n := le_val (take n (drop k bs)) in RwSqe (at_ 0 1)%nat (at_ 4 4)%nat (at_ 24 8)%nat (at_ 40 8)%nat (at_ 48 4)%nat.

Definition demo_execute (v : demo_nvme) (m : mem) : demo_nvme * mem :=
  let h := dn_h v in let n := dn_n v in
  let c := demo_parse (rd_bytes m (sqe_addr h n) 64) in
  let m' a := if (opcode c =? NVME_OPCODE_READ) && in_range a (cmd_mem c) (cmd_len h c) then dn_disk v (cmd_off h c + (a - cmd_mem c)) else m a in
  let disk' o := if (opcode c =? NVME_OPCODE_WRITE) && in_range o (cmd_off h c) (cmd_len h c) then m (cmd_mem c + (o - cmd_off h c)) else dn_disk v o in
  (DemoNvme h (n + 1) false O disk', wr_bytes m' (cqe_addr h n + 12) (le_bytes 4 (if Z.even (n / h_qe h) then 2 ^ 16 else 0))).

#[export] Instance demo_hw : NvmeHw demo_nvme := {
  hw_write32 v a x := if a =? h_sqbell (dn_h v) then DemoNvme (dn_h v) (dn_n v) true 1 (dn_disk v) else v;
  hw_step v m :=
    if dn_busy v then
      match dn_left v with O => demo_execute v m | S k => (DemoNvme (dn_h v) (dn_n v) true k (dn_disk v), m) end
    else (v, m) }.

Definition demo_at (h : hw_queue) (n : Z) (busy : bool) (disk : Z → Z) (v : demo_nvme) : Prop :=
  dn_h v = h ∧ dn_n v = n ∧ dn_busy v = busy ∧ dn_disk v = disk ∧ h_sqbell h ≠ h_cqbell h.

Lemma demo_parse_bytes h c : cmd_ok h c → demo_parse (sqe_bytes c) = c.
Proof.
  intros (Hop & Hns & Hp & Hl & Hc & _). destruct c as [op ns p l cd]. cbn [opcode nsid prp1 slba cdw12] in *. unfold demo_parse, sqe_bytes. cbn [opcode nsid prp1 slba cdw12].
  change (RwSqe (le_val (le_bytes 1 op)) (le_val (le_bytes 4 ns)) (le_val (le_bytes 8 p)) (le_val (le_bytes 8 l)) (le_val (le_bytes 4 cd)) = RwSqe op ns p l cd).
  rewrite !le_val_le_bytes; [done|..]; simpl; try lia. destruct Hop; subst; by split.
Qed.

Lemma demo_executed v m c :
  rd_bytes m (sqe_addr (dn_h v) (dn_n v)) 64 = sqe_bytes c → cmd_ok (dn_h v) c →
  ∃ v' m', demo_execute v m = (v', m') ∧ executed (dn_h v) (dn_n v) c (dn_disk v) m (dn_disk v') m' ∧
    dn_h v' = dn_h v ∧ dn_n v' = dn_n v + 1 ∧ dn_busy v' = false.
Proof.
  intros Hsq Hc. unfold demo_execute. rewrite Hsq, (demo_parse_bytes (dn_h v)) by done. eexists _, _. split; [reflexivity|]. split; [|done].
  set (w := if Z.even _ then _ else _). split.
  - intros a Ha. rewrite wr_bytes_lookup, length_le_bytes. by destruct (in_range_spec a (cqe_addr (dn_h v) (dn_n v) + 12) (Z.of_nat 4)); [lia|].
  - done.
  - unfold phase_bit, rd_uint. fold (cqe_addr (dn_h v) (dn_n v)). rewrite <- (length_le_bytes 4 w) at 1. rewrite rd_wr_bytes, le_val_le_bytes.
    + unfold w. by destruct (Z.even _).
    + unfold w. destruct (Z.even _); split; vm_compute; congruence.
Qed.

#[export] Program Instance demo_spec : NvmeSpec demo_nvme := {
  hw_at := demo_at; hw_left := dn_left; hw_latency := 1%nat }.
Next Obligation.
  intros h n disk d (Hh & Hn & Hb & Hd & Hne). cbn. rewrite Hh, Z.eqb_refl. split; [done|]. cbn. lia.
Qed.
Next Obligation.
  intros h n disk d (Hh & Hn & Hb & Hd & Hne). cbn. rewrite Hh. destruct (Z.eqb_spec (h_cqbell h) (h_sqbell h)); done.
Qed.
Next Obligation.
  intros h n disk d m c (Hh & Hn & Hb & Hd & Hne) Hsq Hc. cbn. rewrite Hb. destruct (dn_left d) as [|k] eqn:Hk.
  - subst h n disk. destruct (demo_executed d m c Hsq Hc) as (v' & m' & -> & Hex & E1 & E2 & E3). exists v', m'. split; [done|]. right.
    by exists (dn_disk v').
  - exists (DemoNvme (dn_h d) (dn_n d) true k (dn_disk d)), m. split; [done|]. left. split; [done|]. split; [done|]. cbn. lia.
Qed.

(** ** Witnesses

    Queues of two entries, 512 bytes a block, and a disk of 16 pages whose
    bytes are the low bits of their offset divided by 16. *)
Definition demo_h : hw_queue := HwQueue (HHDM_BASE + 0x10000) (HHDM_BASE + 0x20000) 2 0x1000 0x1004 128 9.
Definition demo_disk (o : Z) : Z := o / 16 mod 256.
Definition demo_dev : demo_nvme := DemoNvme demo_h 0 false 0 demo_disk.
Definition demo_drive : nvme_device :=
  NvmeDevice 128 0x10000 9 (NvmeQueue (h_sq demo_h) (h_cq demo_h) 2 0x1000 0x1004 0 0 false []).
Definition demo_zero : mem := λ _, 0.

Lemma demo_drive_at : drive_at demo_h 0 demo_drive demo_zero.
Proof.
  split; [|by split]. split; try done; try by left. intros j Hj. cbn in Hj. assert (j = 0 ∨ j = 1) as [-> | ->] by lia; done.
Qed.

Lemma demo_io_ready buf buflen off : HHDM_BASE + 0x100000 ≤ buf → 0 < buflen ≤ 0x10000 → buf + buflen < HHDM_BASE + 0x1000000 → 0 ≤ off < 0x10000 →
  io_ready demo_h 0 demo_drive demo_zero demo_dev demo_disk buf buflen off (Bump 2) 0x2000 (Bump 3).
Proof.
  intros Hb Hl He Ho. unfold HHDM_BASE in *. split; try done; try (cbn; unfold ARCH_PAGE_SIZE; lia).
  - apply demo_drive_at.
  - exists (Bump 3). done.
  - split; [done|]. intros x Hx Hr. unfold ring_mem in Hr. cbn in Hr. unfold ARCH_PAGE_SIZE, HHDM_BASE in *.
    change (ARCH_PHYS_TO_HHDM 0x2000) with (0xFFFF800000000000 + 0x2000) in Hx. lia.
  - intros x Hx [Hr|Hr]; [unfold ring_mem in Hr; cbn in Hr; unfold HHDM_BASE in Hr; lia|].
    change (ARCH_PHYS_TO_HHDM 0x2000) with (0xFFFF800000000000 + 0x2000) in Hr. unfold ARCH_PAGE_SIZE in *. lia.
  - intros _. unfold kernel_buf, ARCH_MMU_KERNELSPACE_START, HHDM_BASE. lia.
Qed.

Lemma demo_fuel : (S (hw_latency (D := demo_nvme)) < 3)%nat.
Proof. cbn. lia. Qed.

Lemma nvme_read_delivers_witness : ∃ drive m d a,
  nvme_read 3 (λ _, 0) (HHDM_BASE + 0x100003) 100 0 demo_drive 5000 demo_zero demo_dev (Bump 2) = Ok (100, drive, m, d, a) ∧
  m (HHDM_BASE + 0x100003 + 90) = demo_disk 5090.
Proof.
  destruct (nvme_read_delivers 3 demo_h demo_fuel (λ _, 0) 0 demo_drive demo_zero demo_dev demo_disk (HHDM_BASE + 0x100003) 100 5000 (Bump 2) 0x2000 (Bump 3))
    as (_ & _ & n & drive & m & d & dk & a & Hrun & _ & _ & _ & _ & Hget & _).
  - apply demo_io_ready; unfold HHDM_BASE; lia.
  - left. done.
  - exists drive, m, d, a. split; [exact Hrun|]. apply Hget. vm_compute. by split.
Defined.

Lemma nvme_write_stores_witness : ∃ drive m d a,
  nvme_write 3 (λ _, 0) 0 demo_drive (HHDM_BASE + 0x100003) 100 5000 demo_zero demo_dev (Bump 2) = Ok (100, drive, m, d, a) ∧
  dn_disk d 5050 = 0 ∧ dn_disk d 5100 = demo_disk 5100 ∧ dn_disk d 4999 = demo_disk 4999.
Proof.
  destruct (nvme_write_stores 3 demo_h demo_fuel (λ _, 0) 0 demo_drive demo_zero demo_dev demo_disk (HHDM_BASE + 0x100003) 100 5000 (Bump 2) 0x2000 (Bump 3))
    as (_ & _ & n & drive & m & d & dk & a & Hrun & _ & _ & (_ & _ & _ & Hdk & _) & Hd & _).
  - apply demo_io_ready; unfold HHDM_BASE; lia.
  - exists drive, m, d, a. split; [exact Hrun|]. rewrite Hdk. split; [|split]; rewrite Hd; reflexivity.
Defined.

Lemma nvme_read_misplaces_witness : ∃ drive m d a,
  nvme_read 3 (λ _, 0) (HHDM_BASE + 0x100800) 0x2000 0 demo_drive 0 demo_zero demo_dev (Bump 2) = Ok (0x2000, drive, m, d, a) ∧
  m (HHDM_BASE + 0x100FF0) = demo_disk 0x7F0 ∧ m (HHDM_BASE + 0x101010) = demo_disk 0x1010 ∧ demo_disk 0x1010 ≠ demo_disk 0x810.
Proof.
  destruct (nvme_read_misplaces 3 demo_h (λ _, 0) 0 demo_drive demo_zero demo_dev demo_disk (HHDM_BASE + 0x100800) 0x2000 0 (Bump 2) 0x2000 (Bump 3))
    as (drive & m & d & a & Hrun & _ & Hhead & Hwrong).
  - apply demo_io_ready; unfold HHDM_BASE; lia.
  - cbn. lia.
  - done.
  - vm_compute. congruence.
  - vm_compute. congruence.
  - unfold kernel_buf, ARCH_MMU_KERNELSPACE_START, HHDM_BASE. lia.
  - exists drive, m, d, a. split; [exact Hrun|]. split; [|split; [|vm_compute; congruence]].
    + apply (Hhead 0x7F0). vm_compute. by split.
    + apply (Hwrong 0x810). vm_compute. split; congruence.
Defined.

(** Thread 1 submits a read of page 0 and waits; the device executes it; now
    thread 2 submits a read of page 5. *)
Definition demo_begun : bool * nvme_queue * mem * demo_nvme :=
  page_command_begin 1 demo_drive 0x300000 0 NVME_OPCODE_READ demo_zero demo_dev.
Definition demo_ran : demo_nvme * mem :=
  let '(_, _, m, d) := demo_begun in let '(d, m) := hw_step d m in hw_step d m.

Lemma another_threads_completion_witness :
  demo_begun.1.1.1 = false ∧ demo_ran.2 (HHDM_BASE + 0x300040) = demo_disk 0x40 ∧
  ∃ q m d, page_command_begin 2 (set_nvme_queue demo_drive demo_begun.1.1.2) 0x400000 5 NVME_OPCODE_READ demo_ran.2 demo_ran.1 = (true, q, m, d) ∧
    m (HHDM_BASE + 0x400040) = 0 ∧ demo_disk 0x5040 ≠ 0 ∧ irq_waiters q = [1].
Proof.
  assert (Hslot : sq demo_begun.1.1.2 + sq_idx demo_begun.1.1.2 * 64 = HHDM_BASE + 0x10040) by (vm_compute; reflexivity).
  split; [vm_compute; reflexivity|]. split; [vm_compute; reflexivity|].
  destruct (another_threads_completion demo_h 0 2 (set_nvme_queue demo_drive demo_begun.1.1.2) demo_ran.2 demo_ran.1 0x400000 5 NVME_OPCODE_READ)
    as (q & m & d & Hrun & Hw & Hm).
  - split_and!; vm_compute; reflexivity.
  - vm_compute. reflexivity.
  - cbn [queue set_nvme_queue]. rewrite Hslot. intros x Hx. change (cqe_addr demo_h 0) with (HHDM_BASE + 0x20000 + 0). lia.
  - exists q, m, d. split; [exact Hrun|]. cbn [queue set_nvme_queue] in Hm. rewrite Hslot in Hm.
    split; [rewrite Hm by lia; vm_compute; reflexivity|]. split; [vm_compute; congruence|]. rewrite Hw. vm_compute. reflexivity.
Defined.
