(* ===== verification/Devfs.v ===== *)
(** * Device files: src/com/fs/devfs.c and src/com/dev/null.c

    A device is a node of the memory file system that carries the address of
    a [struct devfs_dev] (in [umem]) and has an operation table of its own,
    which hands every call to the driver. Drivers register tables of
    operations, named by address. *)
From S2P Require Import Prelude Mem PageTree Vmm Slab Vfs Tmpfs.

(** [com_dev_ops_t]; as [com_vnode_ops], with the data of the driver in place
    of the node. *)
Record com_dev_ops (S F : Type) : Type := DevOps {
  dev_read : option (Z → Z → Z → Z → Z → world S F → res (errno * option Z * world S F));
  dev_write : option (Z → Z → Z → Z → Z → world S F → res (errno * option Z * world S F));
  dev_ioctl : option (Z → Z → Z → world S F → res (errno * world S F));
  dev_isatty : option (Z → world S F → res (errno * world S F));
  dev_close : option (Z → world S F → res (errno * world S F));
  dev_stat : option (stat → Z → world S F → res (errno * stat * world S F));
  dev_poll_head : option (Z → world S F → res (errno * option Z * world S F));
  dev_poll : option (Z → Z → world S F → res (errno * option Z * world S F));
  dev_open : option (Z → world S F → res (errno * option Z * world S F));
  dev_mmap : option (Z → ctxarg → Z → Z → Z → Z → Z → world S F → res (errno * option Z * ctxarg * world S F)) }.
Arguments dev_read {S F}. Arguments dev_write {S F}. Arguments dev_ioctl {S F}.
Arguments dev_isatty {S F}. Arguments dev_close {S F}. Arguments dev_stat {S F}.
Arguments dev_poll_head {S F}. Arguments dev_poll {S F}. Arguments dev_open {S F}.
Arguments dev_mmap {S F}.

(** The tables of the drivers, by address. *)
Class DevTables (S F : Type) := devtab : Z → com_dev_ops S F.

(** Operation tables of vnodes by number; see [Tmpfs.TmpfsNodeOps]. *)
Definition DevfsNodeOps : Z := 3.

(** [struct devfs_dev]: the vnode, the operations, the data. *)
Definition sizeof_devfs_dev : Z := 24.
Definition dev_devops (m : mem) (dev : Z) : Z := rd_uint 8 m (dev + 8).
Definition dev_devdata (m : mem) (dev : Z) : Z := rd_uint 8 m (dev + 16).

Section devfs.
Context {S A : Type} `{!SlabAlloc S} `{!PageAlloc A} `{!LibcConsts} `{!DevTables S (tmpfs A)}.
Implicit Types (w : world S (tmpfs A)).

Definition set_node_ops w (node tab : Z) : res (world S (tmpfs A)) :=
  v ← deref (vnodes w !! node);
  Ok (set_vnodes w (<[node := Vnode (mountpointof v) (vfs v) tab (type v) (num_ref v) (isroot v) (extra v)]> (vnodes w))).

(** [com_fs_tmpfs_get_other(node)], which is dereferenced. *)
Definition devfs_dev_of (node : Z) w : res Z :=
  dev ← com_fs_tmpfs_get_other node w;
  if dev =? 0 then Fault else Ok dev.

(** [dev->devops], dereferenced, and [dev->devdata]. *)
Definition device_of (node : Z) w : res (com_dev_ops S (tmpfs A) * Z) :=
  dev ← devfs_dev_of node w;
  let ops := dev_devops (umem w) dev in
  if ops =? 0 then Fault else Ok (devtab ops, dev_devdata (umem w) dev).

(** ** Operations of a device node *)
Definition com_fs_devfs_close (node : Z) w : res (errno * world S (tmpfs A)) :=
  '(devops, devdata) ← device_of node w;
  match dev_close devops with None => Ok (ENOSYS, w) | Some f => f devdata w end.

(** The memory of the new object is zero. *)
Definition com_fs_devfs_create (dir : Z) (name : list Z) (attr fsattr : Z) w
    : res (errno * option Z * world S (tmpfs A)) :=
  '(ret, new, w) ← com_fs_tmpfs_create dir name attr (Z.lor fsattr COM_FS_TMPFS_ATTR_GHOST) w;
  match new with
  | Some new =>
      if negb (bool_decide (ret = E0)) then Ok (ret, None, w)
      else
        '(dev, w) ← obj_alloc sizeof_devfs_dev w;
        let w := set_umem w (wr_bytes (umem w) dev (replicate 24 0)) in
        w ← com_fs_tmpfs_set_other new dev w;
        w ← set_node_ops w new DevfsNodeOps;
        Ok (E0, Some new, w)
  | None => Ok (ret, None, w)
  end.

Definition com_fs_devfs_read (buf buflen node off flags : Z) w : res (errno * option Z * world S (tmpfs A)) :=
  '(devops, devdata) ← device_of node w;
  match dev_read devops with None => Ok (ENOSYS, None, w) | Some f => f buf buflen devdata off flags w end.

Definition com_fs_devfs_write (node buf buflen off flags : Z) w : res (errno * option Z * world S (tmpfs A)) :=
  '(devops, devdata) ← device_of node w;
  match dev_write devops with None => Ok (ENOSYS, None, w) | Some f => f devdata buf buflen off flags w end.

Definition com_fs_devfs_ioctl (node op buf : Z) w : res (errno * world S (tmpfs A)) :=
  '(devops, devdata) ← device_of node w;
  match dev_ioctl devops with None => Ok (ENOSYS, w) | Some f => f devdata op buf w end.

Definition com_fs_devfs_isatty (node : Z) w : res (errno * world S (tmpfs A)) :=
  '(devops, devdata) ← device_of node w;
  match dev_isatty devops with None => Ok (ENOSYS, w) | Some f => f devdata w end.

Definition com_fs_devfs_stat (out : stat) (node : Z) w : res (errno * stat * world S (tmpfs A)) :=
  '(devops, devdata) ← device_of node w;
  match dev_stat devops with None => Ok (ENOSYS, out, w) | Some f => f out devdata w end.

Definition com_fs_devfs_poll_head (node : Z) w : res (errno * option Z * world S (tmpfs A)) :=
  '(devops, devdata) ← device_of node w;
  match dev_poll_head devops with None => Ok (ENOSYS, None, w) | Some f => f devdata w end.

Definition com_fs_devfs_poll (node events : Z) w : res (errno * option Z * world S (tmpfs A)) :=
  '(devops, devdata) ← device_of node w;
  match dev_poll devops with None => Ok (ENOSYS, None, w) | Some f => f devdata events w end.

Definition com_fs_devfs_open (node : Z) w : res (errno * option Z * world S (tmpfs A)) :=
  '(devops, devdata) ← device_of node w;
  match dev_open devops with None => Ok (E0, Some node, w) | Some f => f devdata w end.

Definition com_fs_devfs_mmap (node : Z) (vmm_context : ctxarg) (hint size vmm_flags mmu_flags off : Z) w
    : res (errno * option Z * ctxarg * world S (tmpfs A)) :=
  '(devops, devdata) ← device_of node w;
  match dev_mmap devops with
  | None => Ok (ENOSYS, None, vmm_context, w)
  | Some f => f devdata vmm_context hint size vmm_flags mmu_flags off w
  end.

(** ** Directories and registration

    [devfs] is the static variable [Devfs]. *)
Section registration.
Variable devfs : option Z.

Definition devfs_root (dir : option Z) w : res Z :=
  match dir with
  | Some d => Ok d
  | None => f ← deref devfs; fs ← deref (vfss w !! f); Ok (vfs_root fs)
  end.

Definition com_fs_devfs_mkdir (parent : option Z) (name : list Z) (attr fsattr : Z) w
    : res (errno * option Z * world S (tmpfs A)) :=
  parent ← devfs_root parent w;
  '(ret, new, w) ← com_fs_tmpfs_mkdir parent name attr (Z.lor fsattr COM_FS_TMPFS_ATTR_GHOST) w;
  if negb (bool_decide (ret = E0)) then Ok (ret, None, w) else Ok (ret, new, w).

Definition com_fs_devfs_get_data (node : Z) w : res Z :=
  dev ← devfs_dev_of node w; Ok (dev_devdata (umem w) dev).

(** [dev->devops = devops; dev->devdata = devdata;] *)
Definition set_device (node devops devdata : Z) w : res (world S (tmpfs A)) :=
  dev ← devfs_dev_of node w;
  Ok (set_umem w (wr_u64 (wr_u64 (umem w) (dev + 8) devops) (dev + 16) devdata)).

(** [out] says whether the caller wants the node; without it an error is
    stored through NULL. *)
Definition com_fs_devfs_register (out : bool) (dir : option Z) (name : list Z) (devops devdata : Z) w
    : res (errno * option Z * world S (tmpfs A)) :=
  dir ← devfs_root dir w;
  '(ret, devnode, w) ← com_fs_devfs_create dir name 0 0 w;
  match devnode with
  | Some devnode =>
      if negb (bool_decide (ret = E0)) then (if out then Ok (ret, None, w) else Fault)
      else
        w ← set_device devnode devops devdata w;
        Ok (E0, (if out then Some devnode else None), w)
  | None => if out then Ok (ret, None, w) else Fault
  end.

Definition com_fs_devfs_register_anonymous (devops devdata : Z) w : res (errno * option Z * world S (tmpfs A)) :=
  root ← devfs_root None w;
  '(ret, devnode, w) ← com_fs_devfs_create root [] 0 COM_FS_TMPFS_ATTR_NO_DIRENT w;
  match devnode with
  | Some devnode =>
      if negb (bool_decide (ret = E0)) then Ok (ret, None, w)
      else w ← set_device devnode devops devdata w; Ok (E0, Some devnode, w)
  | None => Ok (ret, None, w)
  end.
End registration.

(** ** The operation table *)
Definition devfs_node_ops : com_vnode_ops S (tmpfs A) :=
  VnodeOps _ _ (Some com_fs_devfs_close) (Some com_fs_tmpfs_lookup) (Some com_fs_devfs_create)
    (Some (λ d name attr fsattr w, com_fs_devfs_mkdir None (Some d) name attr fsattr w)) None None
    (Some com_fs_devfs_read) (Some com_fs_devfs_write) None None None None None
    (Some com_fs_devfs_ioctl) (Some com_fs_devfs_isatty) (Some com_fs_devfs_stat) None None
    (Some com_fs_devfs_poll_head) (Some com_fs_devfs_poll) (Some com_fs_devfs_open) None (Some com_fs_devfs_mmap).

(** A kernel with the memory file system and its devices. *)
#[export] Instance devfs_tables : VnodeTables S (tmpfs A) | 0 :=
  λ tab, if tab =? TmpfsNodeOps then tmpfs_node_ops else if tab =? DevfsNodeOps then devfs_node_ops else no_ops.

(** Returns [*out] and the new value of [Devfs]. A failed mount is answered
    with the value of [ret], which is 0. *)
Definition com_fs_devfs_init (devfs : option Z) (rootfs : Z) w : res (errno * option Z * option Z * world S (tmpfs A)) :=
  fs ← deref (vfss w !! rootfs);
  '(ret, devdir, w) ← com_fs_vfs_mkdir (vfs_root fs) [100; 101; 118] 0 w;
  if negb (bool_decide (ret = E0)) then Ok (ret, None, devfs, w)
  else
    '(mret, fs, w) ← com_fs_tmpfs_mount devdir w;
    if negb (bool_decide (mret = E0)) then Ok (ret, None, devfs, w) else Ok (E0, fs, fs, w).
End devfs.

(** ** The null device *)
Class DevConsts := { S_IFCHR : Z; POLLIN : Z; POLLOUT : Z; POLLPRI : Z }.

Section dev_null.
Context {S F : Type} `{!DevConsts}.
Implicit Types (w : world S F).

Definition dev_null_read (buf buflen devdata off flags : Z) w : res (errno * option Z * world S F) := Ok (E0, Some buflen, w).
Definition dev_null_write (devdata buf buflen off flags : Z) w : res (errno * option Z * world S F) := Ok (E0, Some buflen, w).
Definition dev_null_poll_head (devdata : Z) w : res (errno * option Z * world S F) := Ok (E0, Some devdata, w).
Definition dev_null_poll (devdata events : Z) w : res (errno * option Z * world S F) :=
  Ok (E0, Some (Z.lor (Z.lor POLLIN POLLOUT) POLLPRI), w).
Definition dev_null_stat (out : stat) (devdata : Z) w : res (errno * stat * world S F) :=
  Ok (E0, mkStat 0 devdata (Z.lor 511 S_IFCHR) (st_size out) (st_blocks out) (st_nlink out), w).
Definition dev_null_ioctl (devdata op buf : Z) w : res (errno * world S F) := Ok (E0, w).

Definition DevNullOps : com_dev_ops S F :=
  DevOps _ _ (Some dev_null_read) (Some dev_null_write) (Some dev_null_ioctl) None None (Some dev_null_stat)
    (Some dev_null_poll_head) (Some dev_null_poll) None None.
End dev_null.

(** [struct devnull] is a list head and a lock. [tab] is the address of the
    operations. *)
Definition sizeof_devnull : Z := 16.

Section dev_null_init.
Context {A B : Type} `{!PageAlloc A} `{!PageAlloc B} `{!LibcConsts}.

Definition com_dev_null_init (devfs : option Z) (tab : Z) (w : world (slab B) (tmpfs A)) : res (errno * world (slab B) (tmpfs A)) :=
  '(devnull, w) ← obj_alloc sizeof_devnull w;
  let w := set_umem w (wr_u64 (umem w) devnull 0) in
  '(ret, _, w) ← com_fs_devfs_register devfs false None [110; 117; 108; 108] tab devnull w;
  if negb (bool_decide (ret = E0)) then
    s ← com_mm_slab_free devnull sizeof_devnull (objs w); Ok (ret, set_objs w s)
  else Ok (ret, w).
End dev_null_init.

(** ** A node that becomes a device *)

(** [w'] is [w] with the file [n] turned into a device whose [struct
    devfs_dev] is at [dev]. *)
Definition became_device {S A} (w : world S (tmpfs A)) (n dev : Z) (w' : world S (tmpfs A)) : Prop :=
  ∃ v t, vnodes w !! n = Some v ∧ type v = E_COM_VNODE_TYPE_FILE ∧ tnodes (fsdata w) !! extra v = Some t ∧ tn_data t = TZero ∧
    vnodes w' = <[n := Vnode (mountpointof v) (vfs v) DevfsNodeOps (type v) (num_ref v) (isroot v) (extra v)]> (vnodes w) ∧
    vfss w' = vfss w ∧ tnodes (fsdata w') = <[extra v := set_data t (TOther dev)]> (tnodes (fsdata w)) ∧
    dirents (fsdata w') = dirents (fsdata w).

(** A device whose driver has registered the operations at [devops]. *)
Definition is_device {S A} (w : world S (tmpfs A)) (n devops devdata : Z) : Prop :=
  ∃ v t dev, vnodes w !! n = Some v ∧ ops v = DevfsNodeOps ∧ tnodes (fsdata w) !! extra v = Some t ∧ tn_data t = TOther dev ∧
    dev ≠ 0 ∧ devops ≠ 0 ∧ dev_devops (umem w) dev = devops ∧ dev_devdata (umem w) dev = devdata.

Section became.
Context {S A : Type}.
Implicit Types (w : world S (tmpfs A)).

Lemma became_tnode w n dev w' x t' :
  became_device w n dev w' → tnodes (fsdata w') !! x = Some t' →
  ∃ t, tnodes (fsdata w) !! x = Some t ∧ tn_vnode t' = tn_vnode t ∧ tn_parent t' = tn_parent t ∧
    (t' = t ∨ tn_data t = TZero ∧ tn_data t' = TOther dev).
Proof.
  intros (v & t & Hv & _ & Ht & Hz & _ & _ & Hts & _) Hx. rewrite Hts in Hx. destruct (decide (x = extra v)) as [->|].
  - rewrite lookup_insert_eq in Hx. injection Hx as <-. exists t. split_and!; auto.
  - rewrite lookup_insert_ne in Hx by done. exists t'. split_and!; auto.
Qed.

Lemma became_tnode' w n dev w' x t :
  became_device w n dev w' → tnodes (fsdata w) !! x = Some t →
  ∃ t', tnodes (fsdata w') !! x = Some t' ∧ tn_vnode t' = tn_vnode t ∧ tn_parent t' = tn_parent t ∧
    (t' = t ∨ tn_data t = TZero ∧ tn_data t' = TOther dev).
Proof.
  intros Hb Hx. assert (Hb' := Hb). destruct Hb' as (v & t0 & Hv & _ & Ht & Hz & _ & _ & Hts & _).
  destruct (tnodes (fsdata w') !! x) as [t'|] eqn:Hx'.
  - destruct (became_tnode w n dev w' x t' Hb Hx') as (t1 & Ht1 & E1 & E2 & E3). simplify_eq. by exists t'.
  - rewrite Hts in Hx'. apply lookup_insert_None in Hx' as [Hx' _]. congruence.
Qed.

Lemma became_vnode w n dev w' m u :
  became_device w n dev w' → vnodes w' !! m = Some u →
  ∃ u0, vnodes w !! m = Some u0 ∧ type u = type u0 ∧ extra u = extra u0 ∧ (u = u0 ∨ type u = E_COM_VNODE_TYPE_FILE).
Proof.
  intros (v & t & Hv & Hty & _ & _ & Hvn & _) Hu. rewrite Hvn in Hu. destruct (decide (m = n)) as [->|].
  - rewrite lookup_insert_eq in Hu. injection Hu as <-. exists v. split_and!; auto.
  - rewrite lookup_insert_ne in Hu by done. exists u. split_and!; auto.
Qed.

Lemma became_is_vnode w n dev w' m : became_device w n dev w' → is_Some (vnodes w !! m) → is_Some (vnodes w' !! m).
Proof.
  intros (v & t & Hv & _ & _ & _ & Hvn & _) [u Hu]. rewrite Hvn. destruct (decide (m = n)) as [->|]; [rewrite lookup_insert_eq|rewrite lookup_insert_ne by done]; by eexists.
Qed.

Lemma became_device_ns w n dev w' : tmpfs_ns w → became_device w n dev w' → tmpfs_ns w'.
Proof.
  intros Hns Hb. assert (Hde : dirents (fsdata w') = dirents (fsdata w)) by (destruct Hb as (?&?&_&_&_&_&_&_&_&Hd); exact Hd).
  assert (Hpo : ∀ p c o, tnodes (fsdata w) !! p = Some c → tn_vnode c = Some o → is_Some (vnodes w !! o) →
    ∃ c, tnodes (fsdata w') !! p = Some c ∧ tn_vnode c = Some o ∧ is_Some (vnodes w' !! o)).
  { intros p c o Hc Hco Ho. destruct (became_tnode' w n dev w' p c Hb Hc) as (c' & Hc' & E & _). exists c'. split_and!; [done|congruence|]. by eapply became_is_vnode. }
  split.
  - intros m u Hu. destruct (became_vnode w n dev w' m u Hb Hu) as (u0 & Hu0 & Ety & Eex & Hcase).
    destruct (tn_of w Hns m u0 Hu0) as (Hops & t & Ht & Htv & Hdir & Hlink). split.
    { intros Hd. destruct Hcase as [->|Hf]; [by apply Hops|]. rewrite Hf in Hd. by destruct Hd. }
    destruct (became_tnode' w n dev w' _ t Hb Ht) as (t' & Ht' & E1 & _ & Hc). exists t'. rewrite Eex, Ety. split; [done|]. split; [congruence|].
    destruct Hc as [->|[Hz _]]; [done|]. split; intros Hty; [destruct (Hdir Hty)|destruct (Hlink Hty)]; congruence.
  - intros x t' es e Ht' Hd He. destruct (became_tnode w n dev w' x t' Hb Ht') as (t & Ht & _ & _ & [->|[_ Hc]]); [|congruence].
    destruct (tn_ents w Hns x t es e Ht Hd He) as (d & c & o & Hdd & Hc & Hco & Ho). destruct (Hpo _ c o Hc Hco Ho) as (c' & Hc' & ? & ?).
    exists d, c', o. by rewrite Hde.
  - intros x t' p Ht' Hp. destruct (became_tnode w n dev w' x t' Hb Ht') as (t & Ht & _ & E & _). rewrite E in Hp.
    destruct (tn_par w Hns x t p Ht Hp) as (c & o & Hc & Hco & Ho). destruct (Hpo _ c o Hc Hco Ho) as (c' & ? & ? & ?). by exists c', o.
Qed.

(** No name changes its meaning. *)
Lemma became_device_entry w n dev w' d nm : became_device w n dev w' → tmpfs_entry w' d nm = tmpfs_entry w d nm.
Proof.
  intros Hb. assert (Hb' := Hb). destruct Hb' as (v & t & Hv & _ & Ht & Hz & Hvn & _ & Hts & Hde).
  assert (Htv : ∀ x, tnodes (fsdata w') !! x ≫= tn_vnode = tnodes (fsdata w) !! x ≫= tn_vnode).
  { intros x. destruct (tnodes (fsdata w) !! x) as [c|] eqn:Hc.
    - destruct (became_tnode' w n dev w' x c Hb Hc) as (c' & -> & E & _). done.
    - rewrite Hts. destruct (decide (x = extra v)) as [->|]; [congruence|]. by rewrite lookup_insert_ne, Hc by done. }
  unfold tmpfs_entry. rewrite Hde.
  assert (Hnode : (v ← vnodes w' !! d; tnodes (fsdata w') !! extra v) = (v ← vnodes w !! d; tnodes (fsdata w) !! extra v) ∨
    (v ← vnodes w !! d; tnodes (fsdata w) !! extra v) = Some t ∧ (v ← vnodes w' !! d; tnodes (fsdata w') !! extra v) = Some (set_data t (TOther dev))).
  { assert (He : (v ← vnodes w' !! d; tnodes (fsdata w') !! extra v) = (v ← vnodes w !! d; tnodes (fsdata w') !! extra v)).
    { rewrite Hvn. destruct (decide (d = n)) as [->|]; [rewrite lookup_insert_eq, Hv|rewrite lookup_insert_ne by done]; done. }
    rewrite He. destruct (vnodes w !! d) as [u|]; [|by left]. cbn [mbind option_bind]. rewrite Hts.
    destruct (decide (extra u = extra v)) as [E|]; [right; rewrite E, lookup_insert_eq; done|left; by rewrite lookup_insert_ne by done]. }
  destruct Hnode as [->|[-> ->]].
  - destruct (is_dotdot nm).
    + destruct ((v ← vnodes w !! d; tnodes (fsdata w) !! extra v) ≫= tn_parent) as [p|]; [|done]. by rewrite Htv.
    + destruct (v ← vnodes w !! d; tnodes (fsdata w) !! extra v) as [c|]; [|done]. cbn [mbind option_bind].
      destruct (tn_data c); try done. destruct (find_entry _ _ _) as [[x|]| | |]; try done. by rewrite Htv.
  - cbn [mbind option_bind set_data tn_parent tn_data]. rewrite Hz. destruct (is_dotdot nm); [|done].
    destruct (tn_parent t) as [p|]; [|done]. by rewrite Htv.
Qed.
End became.

(** ** Calls reach the driver *)
Section reach.
Context {S A : Type} `{!SlabAlloc S} `{!PageAlloc A} `{!LibcConsts} `{!DevTables S (tmpfs A)}.
Implicit Types (w : world S (tmpfs A)).

(** Lookups work as in [Tmpfs]: directories and links are its own. *)
#[export] Program Instance devfs_FsLookup : FsLookup S (tmpfs A) := {
  fs_ok := tmpfs_ns;
  fs_entry := tmpfs_entry;
  fs_target := tmpfs_target;
  fs_ok_sim := tmpfs_ns_sim;
  fs_entry_sim := tmpfs_entry_sim;
  fs_target_sim := tmpfs_target_sim }.
Next Obligation.
  intros w d v name Hns Hv Hty. destruct (tn_of w Hns d v Hv) as (Hops & _).
  exists com_fs_tmpfs_lookup. split; [|by eapply tmpfs_lookup_ok]. by rewrite Hops by auto.
Qed.
Next Obligation.
  intros w n v Hns Hv Hty. destruct (tn_of w Hns n v Hv) as (Hops & _).
  exists com_fs_tmpfs_readlink. split; [|by eapply tmpfs_readlink_ok]. by rewrite Hops by auto.
Qed.

Lemma device_parts w n devops devdata : is_device w n devops devdata →
  device_of n w = Ok (devtab devops, devdata) ∧ vnode_ops w n = Ok devfs_node_ops ∧ com_fs_devfs_get_data n w = Ok devdata.
Proof.
  intros (v & t & dev & Hv & Hops & Ht & Hd & Hnz & Hoz & <- & <-).
  assert (Hdev : devfs_dev_of n w = Ok dev).
  { unfold devfs_dev_of, com_fs_tmpfs_get_other, tnode_of. rewrite Hv. mstep. rewrite Ht. mstep. rewrite Hd. cbn [as_file]. mstep.
    by destruct (Z.eqb_spec dev 0). }
  unfold device_of, com_fs_devfs_get_data. rewrite Hdev. mstep. split; [by destruct (Z.eqb_spec (dev_devops (umem w) dev) 0)|]. split; [|done].
  unfold vnode_ops. rewrite Hv. mstep. by rewrite Hops.
Qed.

(** A read of a device is a call of its driver's operation. *)
Lemma device_read_calls w n devops devdata buf len off flags : is_device w n devops devdata →
  com_fs_vfs_read buf len n off flags w =
    match dev_read (devtab devops) with None => Ok (ENOSYS, Some 0, w) | Some f => '(e, k, w) ← f buf len devdata off flags w; Ok (e, Some (default 0 k), w) end.
Proof.
  intros Hdev. destruct (device_parts w n devops devdata Hdev) as (Hd & Hv & _). unfold com_fs_vfs_read. rewrite Hv. mstep. cbn.
  unfold com_fs_devfs_read. rewrite Hd. mstep. by destruct (dev_read (devtab devops)).
Qed.


(** ** Registration *)

Lemma set_device_is w n dev devops devdata v t :
  vnodes w !! n = Some v → ops v = DevfsNodeOps → tnodes (fsdata w) !! extra v = Some t → tn_data t = TOther dev → dev ≠ 0 →
  0 < devops < 2 ^ 64 → 0 ≤ devdata < 2 ^ 64 →
  ∃ m, set_device n devops devdata w = Ok (set_umem w m) ∧ is_device (set_umem w m) n devops devdata ∧
    (∀ a, ¬ dev ≤ a < dev + sizeof_devfs_dev → m a = umem w a).
Proof.
  intros Hv Hops Ht Hd Hnz Ho Hdd. unfold set_device, devfs_dev_of, com_fs_tmpfs_get_other, tnode_of. rewrite Hv. mstep. rewrite Ht. mstep.
  rewrite Hd. cbn [as_file]. mstep. destruct (Z.eqb_spec dev 0); [done|]. mstep. eexists. split; [reflexivity|]. split.
  - exists v, t, dev. split_and!; try done; [lia|..]; cbn [set_umem umem]; unfold dev_devops, dev_devdata.
    + rewrite (rd_uint_same 8 (wr_u64 (umem w) (dev + 8) devops)); [apply rd_wr_u64; lia|].
      intros x Hx. apply wr_u64_lookup. lia.
    + apply rd_wr_u64. lia.
  - intros a Ha. unfold sizeof_devfs_dev in Ha. by rewrite !wr_u64_lookup by lia.
Qed.

(** What one device keeps of memory when another object is written. *)
Lemma became_device_world w n dev w' v t m : became_device w n dev w' → vnodes w !! n = Some v → tnodes (fsdata w) !! extra v = Some t →
  ∃ v' t', vnodes (set_umem w' m) !! n = Some v' ∧ ops v' = DevfsNodeOps ∧
    tnodes (fsdata (set_umem w' m)) !! extra v' = Some t' ∧ tn_data t' = TOther dev.
Proof.
  intros (v0 & t0 & Hv0 & _ & Ht0 & _ & Hvn & _ & Hts & _) Hv Ht. simplify_eq. cbn [set_umem vnodes fsdata]. rewrite Hvn, Hts, lookup_insert_eq.
  eexists _, _. split; [done|]. split; [done|]. cbn [extra]. by rewrite lookup_insert_eq.
Qed.

(** The end of [com_fs_devfs_create]: the new file becomes a device. *)
Lemma make_device w1 L n u t :
  live_objs w1 L → (0 < sa_room (objs w1))%nat → vnodes w1 !! n = Some u → type u = E_COM_VNODE_TYPE_FILE →
  tnodes (fsdata w1) !! extra u = Some t → tn_data t = TZero →
  ∃ dev w2 L2,
    ('(dev, w) ← obj_alloc sizeof_devfs_dev w1;
     let w := set_umem w (wr_bytes (umem w) dev (replicate 24 0)) in
     w ← com_fs_tmpfs_set_other n dev w;
     w ← set_node_ops w n DevfsNodeOps;
     Ok (E0, Some n, w)) = Ok (E0, Some n, w2) ∧
    became_device w1 n dev w2 ∧ dev ≠ 0 ∧ live_objs w2 L2 ∧ umem w2 = wr_bytes (umem w1) dev (replicate 24 0).
Proof.
  intros (Hi & H1 & H2 & H3) Hroom Hu Hty Ht Hz.
  destruct (sa_alloc_ok _ L sizeof_devfs_dev Hi) as (dev & s & Hal & Hnz & Hp & Hi' & _); [done|done|].
  unfold obj_alloc. rewrite Hal. mstep. unfold com_fs_tmpfs_set_other, tnode_of. cbn [set_umem set_objs vnodes fsdata umem]. rewrite Hu. mstep.
  rewrite Ht. mstep. rewrite Hz. mstep. unfold set_node_ops. cbn [set_tnode set_umem set_objs vnodes]. rewrite Hu. mstep.
  eexists dev, _, ({[dev]} ∪ L). split; [reflexivity|]. split; [|split; [done|split; [|done]]].
  - exists u, t. by split_and!.
  - split_and!; simpl; [done|..]; rewrite ?dom_insert_L; try (apply elem_of_dom_2 in Hu); try (apply elem_of_dom_2 in Ht); set_solver.
Qed.

(** A device under a name, from the creation of its node on. *)
Lemma devfs_create_spec w L d v name :
  tmpfs_ns w → live_objs w L → vnodes w !! d = Some v → type v = E_COM_VNODE_TYPE_DIR → Z.of_nat (length name) ≤ 4048 → (4 ≤ sa_room (objs w))%nat →
  ∃ n dev w1 w2 L2, com_fs_devfs_create d name 0 0 w = Ok (E0, Some n, w2) ∧
    added w d name E_COM_VNODE_TYPE_FILE n w1 ∧ became_device w1 n dev w2 ∧ dev ≠ 0 ∧ live_objs w2 L2 ∧
    umem w2 = wr_bytes (umem w1) dev (replicate 24 0).
Proof.
  intros Hns HL Hv Hty Hlen Hroom. destruct (tn_of w Hns d v Hv) as (_ & t & Ht & _ & Hdir & _). destruct (Hdir Hty) as [es Hes].
  destruct (create_common_spec w L d v name E_COM_VNODE_TYPE_FILE HL Hv Hty Hlen) as
    (e & n & tn & w0 & L0 & Hcc & Hn & Htn & He & Hvn & Hvf & Hts & Hds & _ & _ & HL0 & Hr0); [done|lia|].
  destruct (link_node_added w d v t es name E_COM_VNODE_TYPE_FILE e n tn TZero w0 L0) as (w1 & Hlk & Had & HL1 & Hv1 & Ht1 & _);
    try done; [by left|].
  assert (Hobj : objs w1 = objs w0).
  { revert Hlk. unfold link_node, insert_tail. destruct (vnodes w0 !! d) as [x|]; [|done]. mstep. destruct (tnodes (fsdata w0) !! extra x) as [y|]; [|done]. mstep.
    destruct (as_dir (tn_data y)) as [z| | |]; [|done..]. mstep. 
    match goal with |- context [deref ?o] => destruct o as [q|] end; [|done]. mstep. by intros [= <-]. }
  destruct (make_device w1 L0 n (Vnode None (vfs v) TmpfsNodeOps E_COM_VNODE_TYPE_FILE 1 false tn) (Tnode (Some n) 1 (Some e) (Some (extra v)) TZero))
    as (dev & w2 & L2 & Hmk & Hb & Hnz & HL2 & Hm); try done.
  { rewrite Hobj. lia. }
  { by rewrite Hv1, Hvn, lookup_insert_eq. }
  exists n, dev, w1, w2, L2. split; [|split; [done|split; [done|split; [done|by split]]]]. unfold com_fs_devfs_create, com_fs_tmpfs_create.
  change (create_common d name (Z.lor 0 COM_FS_TMPFS_ATTR_GHOST) E_COM_VNODE_TYPE_FILE w) with (create_common d name 0 E_COM_VNODE_TYPE_FILE w).
  rewrite Hcc. mstep. unfold tnode_of at 1. rewrite Hvn, lookup_insert_eq. mstep. cbn [extra].
  rewrite Hts, lookup_insert_eq. mstep. change (attr_set COM_FS_TMPFS_ATTR_GHOST (Z.lor 0 COM_FS_TMPFS_ATTR_GHOST)) with true. cbv iota. mstep. cbn [extra].
  rewrite Hlk. mstep. exact Hmk.
Qed.

(** C31: registering a device under a free name of a directory: the name leads
    to a new node that hands its calls to the driver's operations with its data,
    as a read of it does (ENOSYS when the driver has none); every other name
    keeps its meaning and the file system stays well formed. *)
Theorem devfs_register_reaches devfs dir w d v name devops devdata :
  tmpfs_ok w → devfs_root devfs dir w = Ok d → vnodes w !! d = Some v → type v = E_COM_VNODE_TYPE_DIR → is_dotdot name = false →
  tmpfs_entry w d name = inr ENOENT → Z.of_nat (length name) ≤ 4048 → (4 ≤ sa_room (objs w))%nat →
  0 < devops < 2 ^ 64 → 0 ≤ devdata < 2 ^ 64 →
  ∃ n w', com_fs_devfs_register devfs true dir name devops devdata w = Ok (E0, Some n, w') ∧ tmpfs_ok w' ∧
    vnodes w !! n = None ∧ is_device w' n devops devdata ∧ com_fs_devfs_get_data n w' = Ok devdata ∧
    (∀ buf len off flags, com_fs_vfs_read buf len n off flags w' =
       match dev_read (devtab devops) with None => Ok (ENOSYS, Some 0, w') | Some f => '(e, k, w) ← f buf len devdata off flags w'; Ok (e, Some (default 0 k), w) end) ∧
    (∃ w'', com_fs_tmpfs_lookup d name w' = Ok (E0, Some n, w'')) ∧
    ∀ d' nm, type_at w d' = Some E_COM_VNODE_TYPE_DIR →
      tmpfs_entry w' d' nm = if decide (d' = d ∧ nm = name) then inl n else tmpfs_entry w d' nm.
Proof.
  intros [Hns [L HL]] Hroot Hv Hty Hdd Hent Hlen Hroom Ho Hda.
  destruct (devfs_create_spec w L d v name Hns HL Hv Hty Hlen Hroom) as (n & dev & w1 & w2 & L2 & Hcr & Had & Hb & Hnz & HL2 & Hm2).
  pose proof (added_type _ _ _ _ _ _ Had) as [Hn _]. pose proof (added_ns _ _ _ _ _ _ Hns Had) as Hns1.
  pose proof (became_device_ns _ _ _ _ Hns1 Hb) as Hns2. assert (Hb' := Hb). destruct Hb' as (u & t & Hu & _ & Ht & _).
  destruct (became_device_world w1 n dev w2 u t (umem w2) Hb Hu Ht) as (u2 & t2 & Hu2 & Hops2 & Ht2 & Hd2).
  destruct (set_device_is w2 n dev devops devdata u2 t2 Hu2 Hops2 Ht2 Hd2 Hnz Ho Hda) as (m & Hset & Hdev & _).
  unfold com_fs_devfs_register. rewrite Hroot. mstep. rewrite Hcr. mstep. rewrite Hset. mstep.
  assert (Hent' : ∀ d' nm, type_at w d' = Some E_COM_VNODE_TYPE_DIR →
      tmpfs_entry (set_umem w2 m) d' nm = if decide (d' = d ∧ nm = name) then inl n else tmpfs_entry w d' nm).
  { intros d' nm Hd'%type_at_Some. transitivity (tmpfs_entry w2 d' nm); [done|]. rewrite (became_device_entry w1 n dev w2) by done. by eapply added_entry. }
  assert (Hns' : tmpfs_ns (set_umem w2 m)) by (destruct Hns2 as [G1 G2 G3]; split; [exact G1|exact G2|exact G3]).
  exists n, (set_umem w2 m). split; [done|]. split; [by split; [|exists L2]|]. split; [done|]. split; [done|].
  split; [apply (device_parts _ _ _ _ Hdev)|]. split; [intros; by apply device_read_calls|]. split; [|done].
  assert (Hv' : ∃ v', vnodes (set_umem w2 m) !! d = Some v' ∧ type v' = E_COM_VNODE_TYPE_DIR).
  { destruct Had as [(v0 & t0 & es & e & tn & data & Hv0 & _ & _ & _ & _ & _ & Hvn & _)]. destruct Hb as (u0 & t1 & _ & _ & _ & _ & Hvn2 & _).
    exists v. cbn [set_umem vnodes]. rewrite Hvn2, Hvn, !lookup_insert_ne by congruence. done. }
  destruct Hv' as (v' & Hv' & Hty'). pose proof (tmpfs_lookup_ok _ d v' name Hns' Hv' Hty') as Hlk.
  rewrite Hent', decide_True in Hlk by (done || apply type_at_Some; by exists v). destruct Hlk as (_ & w'' & Hlk & _). by exists w''.
Qed.

(** between its creation and the end of the registration a device is
    already in its directory: a read of it goes through a NULL table. *)
Theorem unregistered_device_faults w d v name :
  tmpfs_ok w → vnodes w !! d = Some v → type v = E_COM_VNODE_TYPE_DIR → is_dotdot name = false →
  tmpfs_entry w d name = inr ENOENT → Z.of_nat (length name) ≤ 4048 → (4 ≤ sa_room (objs w))%nat →
  ∃ n w', com_fs_devfs_create d name 0 0 w = Ok (E0, Some n, w') ∧ tmpfs_entry w' d name = inl n ∧
    ∀ buf len off flags, com_fs_vfs_read buf len n off flags w' = Fault.
Proof.
  intros [Hns [L HL]] Hv Hty Hdd Hent Hlen Hroom.
  destruct (devfs_create_spec w L d v name Hns HL Hv Hty Hlen Hroom) as (n & dev & w1 & w2 & L2 & Hcr & Had & Hb & Hnz & _ & Hm).
  exists n, w2. split; [done|]. split.
  { rewrite (became_device_entry w1 n dev w2) by done.
    rewrite (added_entry w d name E_COM_VNODE_TYPE_FILE n w1) by (done || by exists v). by rewrite decide_True. }
  intros buf len off flags. assert (Hb' := Hb). destruct Hb' as (u & t & Hu & _ & Ht & _).
  destruct (became_device_world w1 n dev w2 u t (umem w2) Hb Hu Ht) as (u2 & t2 & Hu2 & Hops2 & Ht2 & Hd2).
  cbn [set_umem vnodes fsdata] in Hu2, Ht2.
  unfold com_fs_vfs_read, vnode_ops. rewrite Hu2. mstep. rewrite Hops2. cbn. unfold com_fs_devfs_read, device_of, devfs_dev_of, com_fs_tmpfs_get_other, tnode_of.
  rewrite Hu2. mstep. rewrite Ht2. mstep. rewrite Hd2. cbn [as_file]. mstep. destruct (Z.eqb_spec dev 0); [done|]. mstep.
  assert (Hz : dev_devops (umem w2) dev = 0).
  { unfold dev_devops. rewrite (rd_uint_same 8 (λ _, 0)); [reflexivity|]. intros x Hx. rewrite Hm, wr_bytes_lookup.
    destruct (in_range_spec x dev (Z.of_nat (length (replicate 24 0)))) as [|Hr]; [|simpl in Hr; lia].
    by rewrite nth_lookup, lookup_replicate_2 by lia. }
  by rewrite Hz.
Qed.

(** A node in no directory, and its record. *)
Lemma isolated_ns w n tn vf w' :
  tmpfs_ns w → vnodes w !! n = None → tnodes (fsdata w) !! tn = None →
  vnodes w' = <[n := Vnode None vf TmpfsNodeOps E_COM_VNODE_TYPE_FILE 1 false tn]> (vnodes w) →
  tnodes (fsdata w') = <[tn := Tnode (Some n) 1 None None TZero]> (tnodes (fsdata w)) → dirents (fsdata w') = dirents (fsdata w) →
  tmpfs_ns w' ∧ ∀ d nm, is_Some (vnodes w !! d) → tmpfs_entry w' d nm = tmpfs_entry w d nm.
Proof.
  intros Hns Hn Htn Hvn Hts Hds.
  assert (Hvo : ∀ m, is_Some (vnodes w !! m) → vnodes w' !! m = vnodes w !! m) by (intros m [u Hu]; rewrite Hvn, lookup_insert_ne by congruence; done).
  assert (Hto : ∀ x t, tnodes (fsdata w) !! x = Some t → tnodes (fsdata w') !! x = Some t) by (intros x t Hx; rewrite Hts, lookup_insert_ne by congruence; done).
  assert (Hnew : ∀ x t, tnodes (fsdata w') !! x = Some t → t = Tnode (Some n) 1 None None TZero ∨ tnodes (fsdata w) !! x = Some t).
  { intros x t. rewrite Hts. intros [[<- <-]|[_ Hx]]%lookup_insert_Some; auto. }
  split; [split|].
  - intros m u Hu. rewrite Hvn in Hu. apply lookup_insert_Some in Hu as [[<- <-]|[Hne Hu]].
    + simpl. split; [done|]. rewrite Hts, lookup_insert_eq. by eexists.
    + destruct (tn_of w Hns m u Hu) as (Ho & t & Ht & Hrest). split; [done|]. exists t. split; [by apply Hto|done].
  - intros x t es e Hx Hd He. destruct (Hnew x t Hx) as [->|Hx0]; [done|]. destruct (tn_ents w Hns x t es e Hx0 Hd He) as (dd & c & o & ? & Hc & ? & Ho).
    exists dd, c, o. rewrite Hds, (Hvo o) by done. split_and!; try done. by apply Hto.
  - intros x t p Hx Hp. destruct (Hnew x t Hx) as [->|Hx0]; [done|]. destruct (tn_par w Hns x t p Hx0 Hp) as (c & o & Hc & ? & Ho).
    exists c, o. rewrite (Hvo o) by done. split_and!; try done. by apply Hto.
  - intros d nm [v Hv]. destruct (tn_of w Hns d v Hv) as (_ & t & Ht & Htv & _ & _). unfold tmpfs_entry.
    rewrite Hvo by (by eexists). rewrite Hv, Hds. cbn [mbind option_bind]. rewrite Ht, (Hto _ _ Ht). cbn [mbind option_bind].
    destruct (is_dotdot nm).
    + destruct (tn_parent t) as [p|] eqn:Hp; [|done]. destruct (tn_par w Hns _ t p Ht Hp) as (c & o & Hc & _ & _). by rewrite Hc, (Hto _ _ Hc).
    + destruct (tn_data t) as [|es| | |] eqn:Hes; try done.
      destruct (find_entry_ok (dirents (fsdata w)) es nm) as (r & Hf & Hr).
      { intros e He. destruct (tn_ents w Hns _ t es e Ht Hes He) as (? & ? & ? & -> & _). by eexists. }
      rewrite Hf. destruct r as [c|]; [|done]. destruct Hr as (e & dd & He & Hdd & _ & <-).
      destruct (tn_ents w Hns _ t es e Ht Hes He) as (d' & c & o & Hd' & Hc & _). simplify_eq. by rewrite Hc, (Hto _ _ Hc).
Qed.

Lemma devfs_create_anonymous_spec w L r v :
  tmpfs_ns w → live_objs w L → vnodes w !! r = Some v → type v = E_COM_VNODE_TYPE_DIR → (3 ≤ sa_room (objs w))%nat →
  ∃ n tn dev w1 w2 L2, com_fs_devfs_create r [] 0 COM_FS_TMPFS_ATTR_NO_DIRENT w = Ok (E0, Some n, w2) ∧
    vnodes w !! n = None ∧ tnodes (fsdata w) !! tn = None ∧
    vnodes w1 = <[n := Vnode None (vfs v) TmpfsNodeOps E_COM_VNODE_TYPE_FILE 1 false tn]> (vnodes w) ∧
    tnodes (fsdata w1) = <[tn := Tnode (Some n) 1 None None TZero]> (tnodes (fsdata w)) ∧ dirents (fsdata w1) = dirents (fsdata w) ∧
    became_device w1 n dev w2 ∧ dev ≠ 0 ∧ live_objs w2 L2.
Proof.
  intros Hns HL Hv Hty Hroom. unfold com_fs_devfs_create, com_fs_tmpfs_create, create_common.
  change (attr_set COM_FS_TMPFS_ATTR_NO_DIRENT (Z.lor COM_FS_TMPFS_ATTR_NO_DIRENT COM_FS_TMPFS_ATTR_GHOST)) with true.
  change (attr_set COM_FS_TMPFS_ATTR_GHOST (Z.lor COM_FS_TMPFS_ATTR_NO_DIRENT COM_FS_TMPFS_ATTR_GHOST)) with true. cbv iota.
  rewrite Hv. mstep. rewrite bool_decide_true by done. mstep.
  destruct (obj_alloc_spec w L sizeof_tmpfs_node HL) as (tn & s1 & -> & Htn & (Hi1 & H1 & H2 & H3) & Hr1); [done|lia|]. mstep.
  destruct (sa_alloc_ok s1 ({[tn]} ∪ L) sizeof_com_vnode Hi1) as (n & s2 & Hal & _ & Hn & Hi2 & Hr2); [done|lia|].
  unfold com_fs_vfs_alloc_vnode. rewrite !bool_decide_false by done. cbn [objs set_tnode set_objs]. rewrite Hal. mstep.
  cbn [set_vnodes set_objs vnodes set_tnode fsdata objs vfss umem]. rewrite lookup_insert_eq. mstep.
  unfold tnode_of at 1. cbn [set_vnodes set_objs vnodes set_tnode fsdata tnodes]. rewrite !lookup_insert_eq. mstep. cbn [extra].
  rewrite !lookup_insert_eq. mstep. cbn [link_node]. mstep.
  match goal with |- context [obj_alloc sizeof_devfs_dev ?x] => set (w1 := x) end.
  destruct HL as (Hi & D1 & D2 & D3). simpl in H1, H2, H3.
  assert (Hvn1 : vnodes w1 = <[n := Vnode None (vfs v) TmpfsNodeOps E_COM_VNODE_TYPE_FILE 1 false tn]> (vnodes w)) by (cbn; by rewrite ?insert_insert_eq).
  assert (Hts1 : tnodes (fsdata w1) = <[tn := Tnode (Some n) 1 None None TZero]> (tnodes (fsdata w))) by (cbn; by rewrite ?insert_insert_eq).
  assert (HL1 : live_objs w1 ({[n]} ∪ ({[tn]} ∪ L))).
  { split; [exact Hi2|]. rewrite Hvn1, Hts1, !dom_insert_L. split; [set_solver|]. split; [set_solver|]. cbn. set_solver. }
  destruct (make_device w1 _ n (Vnode None (vfs v) TmpfsNodeOps E_COM_VNODE_TYPE_FILE 1 false tn) (Tnode (Some n) 1 None None TZero) HL1)
    as (dev & w2 & L2 & Hmk & Hb & Hnz & HL2 & _); try done.
  { cbn. lia. }
  { by rewrite Hvn1, lookup_insert_eq. }
  { by rewrite Hts1, lookup_insert_eq. }
  exists n, tn, dev, w1, w2, L2. split; [exact Hmk|]. split; [apply not_elem_of_dom; set_solver|]. split; [apply not_elem_of_dom; set_solver|].
  split; [done|]. split; [done|]. split; [done|]. by split; [|split].
Qed.

(** registering a device without a name: there is a node whose calls
    reach the driver, and no name of the file system leads to it or changes
    its meaning. *)
Theorem devfs_anonymous_reaches devfs w r v devops devdata :
  tmpfs_ok w → devfs_root devfs None w = Ok r → vnodes w !! r = Some v → type v = E_COM_VNODE_TYPE_DIR →
  (3 ≤ sa_room (objs w))%nat → 0 < devops < 2 ^ 64 → 0 ≤ devdata < 2 ^ 64 →
  ∃ n w', com_fs_devfs_register_anonymous devfs devops devdata w = Ok (E0, Some n, w') ∧ tmpfs_ok w' ∧
    vnodes w !! n = None ∧ is_device w' n devops devdata ∧
    (∀ d nm, is_Some (vnodes w !! d) → tmpfs_entry w' d nm = tmpfs_entry w d nm).
Proof.
  intros [Hns [L HL]] Hroot Hv Hty Hroom Ho Hda. unfold com_fs_devfs_register_anonymous. rewrite Hroot. mstep.
  destruct (devfs_create_anonymous_spec w L r v Hns HL Hv Hty Hroom) as (n & tn & dev & w1 & w2 & L2 & -> & Hn & Htn & Hvn1 & Hts1 & Hds1 & Hb & Hnz & HL2).
  mstep. destruct (isolated_ns w n tn (vfs v) w1 Hns Hn Htn Hvn1 Hts1 Hds1) as [Hns1 Hent1].
  destruct (became_device_world w1 n dev w2 _ _ (umem w2) Hb ltac:(by rewrite Hvn1, lookup_insert_eq) ltac:(by rewrite Hts1, lookup_insert_eq))
    as (u2 & t2 & Hu2 & Hops2 & Ht2 & Hd2).
  destruct (set_device_is w2 n dev devops devdata u2 t2 Hu2 Hops2 Ht2 Hd2 Hnz Ho Hda) as (m & -> & Hdev & _). mstep.
  pose proof (became_device_ns _ _ _ _ Hns1 Hb) as [G1 G2 G3].
  exists n, (set_umem w2 m). split; [done|]. split; [by split; [split; [exact G1|exact G2|exact G3]|exists L2]|]. split; [done|]. split; [done|].
  intros d nm Hd. transitivity (tmpfs_entry w2 d nm); [done|]. rewrite (became_device_entry w1 n dev w2) by done. by apply Hent1.
Qed.
End reach.

(** ** The null device *)

(** A read of it reports that the whole buffer was filled, and changes
    nothing: the reader never meets the end of the file, and takes what the
    buffer held before for data. *)
Theorem dev_null_read_never_ends {S A} `{!SlabAlloc S} `{!PageAlloc A} `{!LibcConsts} `{!DevTables S (tmpfs A)} `{!DevConsts}
    (w : world S (tmpfs A)) n tab data buf len off flags :
  is_device w n tab data → devtab tab = DevNullOps → com_fs_vfs_read buf len n off flags w = Ok (E0, Some len, w).
Proof. intros Hd Ht. destruct (device_parts w n tab data Hd) as (Hp & Hv & _). unfold com_fs_vfs_read. rewrite Hv. mstep. cbn. unfold com_fs_devfs_read. rewrite Hp. mstep. by rewrite Ht. Qed.

(** ** Witnesses *)
#[local] Existing Instance demo_libc.
#[local] Instance demo_dev_consts : DevConsts := { S_IFCHR := 8192; POLLIN := 1; POLLOUT := 4; POLLPRI := 2 }.

(** A kernel with one driver, whose table is at 0x1000. *)
#[local] Instance demo_devtab : DevTables (slab bump) (tmpfs bump) :=
  λ tab, if tab =? 0x1000 then DevNullOps else DevOps _ _ None None None None None None None None None None.

(** A start: the root file system, /dev and /dev/null. *)
Definition demo_boot : res (errno * errno * Z * demo_world) :=
  '(_, fs, w) ← com_fs_tmpfs_mount None empty_world;
  root ← mounted_root fs w;
  fs ← deref fs;
  '(ret, _, devfs, w) ← com_fs_devfs_init None fs w;
  '(ret', w) ← com_dev_null_init devfs 0x1000 w;
  Ok (ret, ret', root, w).

(** What a path leads to, and what a read and a stat of it give. *)
Definition demo_probe (path : list Z) : res (errno * errno * (errno * option Z) * Z * Z) :=
  '(ret, ret', root, w) ← demo_boot;
  '(_, n, w) ← com_fs_vfs_lookup path root (Some root) true w;
  n ← deref n;
  '(e, k, w) ← com_fs_vfs_read 0x5000 512 n 0 0 w;
  '(_, st, w) ← com_fs_vfs_stat n stat_zero w;
  Ok (ret, ret', (e, k), umem w 0x5000, st_mode st).

(** The parts together: /dev is made and mounted, the device is registered
    there, and a look-up of its path, through the mount, reaches the driver. *)
Example dev_null_reached : demo_probe [47; 100; 101; 118; 47; 110; 117; 108; 108] = Ok (E0, E0, (E0, Some 512), 0, 8192 + 511).
Proof. vm_compute. reflexivity. Qed.

Lemma demo_w1_dir : ∃ v, vnodes demo_w1 !! demo_root = Some v ∧ type v = E_COM_VNODE_TYPE_DIR ∧ tmpfs_ok demo_w1 ∧ (4 ≤ sa_room (objs demo_w1))%nat.
Proof.
  destruct demo_w1_ok as (L & fs & tn & Hns & HL & Hroom & Hvn & _). eexists. rewrite Hvn, lookup_singleton_eq.
  split; [done|]. split; [done|]. split; [by split; [|exists L]|]. eapply Nat.le_trans; [|exact Hroom]. lia.
Qed.

Lemma devfs_register_reaches_witness :
  ∃ n w, com_fs_devfs_register None true (Some demo_root) [110] 0x1000 0x7000 demo_w1 = Ok (E0, Some n, w) ∧ tmpfs_ok w ∧
    is_device w n 0x1000 0x7000.
Proof.
  destruct demo_w1_dir as (v & Hv & Hty & Hok & Hroom).
  destruct (devfs_register_reaches None (Some demo_root) demo_w1 demo_root v [110] 0x1000 0x7000 Hok eq_refl Hv Hty)
    as (n & w & Hr & Hok' & _ & Hd & _); [reflexivity|vm_compute; reflexivity|simpl; lia|exact Hroom|lia|lia|].
  exists n, w. split; [exact Hr|]. by split.
Defined.


Lemma unregistered_device_faults_witness :
  ∃ n w, com_fs_devfs_create demo_root [110] 0 0 demo_w1 = Ok (E0, Some n, w) ∧ com_fs_vfs_read 0x5000 100 n 0 0 w = Fault.
Proof.
  destruct demo_w1_dir as (v & Hv & Hty & Hok & Hroom).
  destruct (unregistered_device_faults demo_w1 demo_root v [110] Hok Hv Hty) as (n & w & Hr & _ & Hf);
    [reflexivity|vm_compute; reflexivity|simpl; lia|exact Hroom|]. exists n, w. split; [exact Hr|apply Hf].
Defined.

Lemma devfs_anonymous_reaches_witness :
  ∃ fs n w, com_fs_devfs_register_anonymous (Some fs) 0x1000 0x7000 demo_w1 = Ok (E0, Some n, w) ∧ is_device w n 0x1000 0x7000.
Proof.
  destruct demo_w1_ok as (L & fs & tn & _ & _ & _ & _ & Hvf & _). destruct demo_w1_dir as (v & Hv & Hty & Hok & Hroom). exists fs.
  destruct (devfs_anonymous_reaches (Some fs) demo_w1 demo_root v 0x1000 0x7000 Hok) as (n & w & Hr & _ & _ & Hd & _).
  - unfold devfs_root. mstep. by rewrite Hvf, lookup_singleton_eq.
  - exact Hv.
  - exact Hty.
  - eapply Nat.le_trans; [|exact Hroom]. lia.
  - lia.
  - lia.
  - exists n, w. by split.
Defined.
