(* ===== verification/Initrd.v ===== *)
(** * The initial file system: src/com/fs/initrd.c

    The boot loader hands over a tar archive in memory; its entries are made
    in the root file system, whichever tables of operations that has. *)
From S2P Require Import Prelude Mem Str PageTree Slab Vfs Tmpfs.

Definition GNUTAR_SYMLINK : Z := 50.
Definition GNUTAR_LONG_NAME : Z := 76.
Definition GNUTAR_LONG_LINK : Z := 75.
Definition GNUTAR_DIR : Z := 53.

(** [struct tar_header]: the offsets of the fields the code reads. *)
Definition TAR_SIZE : Z := 124.
Definition TAR_TYPE : Z := 156.
Definition TAR_LINKNAME : Z := 157.

(** The digits are not checked. *)
Fixpoint oct_loop (n : nat) (s val : Z) (m : mem) : Z :=
  match n with
  | O => val
  | Datatypes.S n => if m s =? 0 then val else oct_loop n (s + 1) (u64 (u64 (val * 8) + (schar (m s) - 48))) m
  end.
Definition oct_atoi (s len : Z) (m : mem) : Z := oct_loop (Z.to_nat len) s 0 m.

(** [while (0 < len && '/' == s[len - 1]) len--;] *)
Fixpoint trim_slashes (len : nat) (s : Z) (m : mem) : nat :=
  match len with
  | O => O
  | Datatypes.S n => if m (s + Z.of_nat n) =? AT_slash then trim_slashes n s m else len
  end.

Section initrd.
Context {S F : Type} `{!VnodeTables S F}.
Implicit Types (w : world S F).

Definition create_node (name : list Z) (dir hdr : Z) w : res (world S F) :=
  if umem w (hdr + TAR_TYPE) =? GNUTAR_DIR then
    '(ret, _, w) ← com_fs_vfs_mkdir dir name 0 w;
    KASSERT (bool_decide (ret = E0)) ;; Ok w
  else
    '(ret, file, w) ← com_fs_vfs_create dir name 0 w;
    KASSERT (bool_decide (ret = E0)) ;;
    let contents := hdr + 512 in
    let file_size := oct_atoi (hdr + TAR_SIZE) 11 (umem w) in
    file ← deref file;
    w ← COM_FS_VFS_VNODE_HOLD file w;
    '(ret, written, w) ← com_fs_vfs_write file contents file_size 0 0 w;
    KASSERT (bool_decide (ret = E0)) ;;
    KASSERT (file_size =? default 0 written) ;;
    COM_FS_VFS_VNODE_RELEASE (Some file) w.

(** [strfuel] bounds the length of the target of a link. *)
Section make.
Variables (strfuel : nat) (root : Z).

(** The directory of a path and where in it the name starts. *)
Definition path_dir (file_path : Z) (file_path_len : nat) w : res (Z * nat * nat * world S F) :=
  match kmemrchr file_path AT_slash (Z.of_nat file_path_len) (umem w) with
  | None => Ok (root, O, file_path_len, w)
  | Some path_end =>
      let sl_len := Z.to_nat (path_end - file_path) in
      '(_, dir, w) ← com_fs_vfs_lookup (rd_bytes (umem w) file_path sl_len) root (Some root) true w;
      dir ← (match dir with Some d => Ok d | None => Panic end);
      Ok (dir, (sl_len + 1)%nat, (file_path_len - sl_len - 1)%nat, w)
  end.

(** The part of the loop that makes something. *)
Definition extract_entry (file_path : Z) (file_path_len : nat) (hdr : Z) w : res (world S F) :=
  let file_path_len := trim_slashes file_path_len file_path (umem w) in
  '(dir, file_name_off, file_name_len, w) ← path_dir file_path file_path_len w;
  let name_at := file_path + Z.of_nat file_name_off in
  let file_name_len := trim_slashes file_name_len name_at (umem w) in
  let name := rd_bytes (umem w) name_at file_name_len in
  w ← (if umem w (hdr + TAR_TYPE) =? GNUTAR_SYMLINK then
         len ← kstrlen strfuel (hdr + TAR_LINKNAME) (umem w);
         '(_, w) ← com_fs_vfs_symlink dir name (rd_bytes (umem w) (hdr + TAR_LINKNAME) (Z.to_nat len)) w; Ok w
       else create_node name dir hdr w);
  if dir =? root then Ok w else COM_FS_VFS_VNODE_RELEASE (Some dir) w.

(** [(n + k) & ~511] *)
Definition block_end (n k : Z) : Z := Z.ldiff (u64 (n + k)) 511.

Fixpoint initrd_loop (fuel : nat) (tar tarsize i : Z) w : res (world S F) :=
  match fuel with
  | O => Fuel
  | Datatypes.S fuel =>
      if negb (i <? tarsize) then Ok w
      else
        let hdr := tar + i in
        if umem w hdr =? 0 then Ok w
        else
          let skip file_size i w := initrd_loop fuel tar tarsize (u64 (u64 (i + 512) + block_end file_size 511)) w in
          if umem w (hdr + TAR_TYPE) =? GNUTAR_LONG_LINK then skip 0 i w
          else
            let file_size := oct_atoi (hdr + TAR_SIZE) 11 (umem w) in
            '(file_path, file_path_len, i, hdr, file_size) ←
              (if umem w (hdr + TAR_TYPE) =? GNUTAR_LONG_NAME then
                 let i' := u64 (u64 (i + 512) + block_end file_size 512) in
                 Ok (tar + i + 512, file_size, i', tar + i', oct_atoi (tar + i' + TAR_SIZE) 11 (umem w))
               else if umem w (hdr + 99) =? 0 then
                 len ← kstrlen strfuel hdr (umem w); Ok (hdr, len, i, hdr, file_size)
               else Ok (hdr, 100, i, hdr, file_size));
            if (2 =? file_path_len) && (umem w file_path =? 46) then skip file_size i w
            else
              w ← extract_entry file_path (Z.to_nat file_path_len) hdr w;
              skip file_size i w
  end.

Definition com_fs_initrd_make (fuel : nat) (tar tarsize : Z) w : res (world S F) := initrd_loop fuel tar tarsize 0 w.
End make.
End initrd.

(** ** Archives

    What an archive is made of. Paths have no trailing slash here; directories
    are stored with one. *)
Inductive tar_kind : Type := KDir | KFile (contents : list Z) | KLink (target : list Z).
Record tar_entry : Type := TarEntry { te_path : list Z; te_kind : tar_kind }.

Definition te_text (e : tar_entry) : list Z := te_path e ++ match te_kind e with KDir => [AT_slash] | _ => [] end.
Definition te_type (e : tar_entry) : Z := match te_kind e with KDir => GNUTAR_DIR | KFile _ => 48 | KLink _ => GNUTAR_SYMLINK end.
Definition te_data (e : tar_entry) : list Z := match te_kind e with KFile c => c | _ => [] end.
Definition te_target (e : tar_entry) : list Z := match te_kind e with KLink t => t | _ => [] end.
Definition te_size (e : tar_entry) : Z := Z.of_nat (length (te_data e)).

(** [k] octal digits, the most significant first. *)
Fixpoint oct_digits (k : nat) (n : Z) : list Z :=
  match k with O => [] | Datatypes.S k => 48 + n / 8 ^ Z.of_nat k mod 8 :: oct_digits k n end.

Definition pad (n : nat) (l : list Z) : list Z := l ++ replicate (n - length l) 0.
Definition blocks (n : Z) : Z := (n + 511) / 512 * 512.

Definition tar_bytes (e : tar_entry) : list Z :=
  pad 100 (te_text e) ++ replicate 24 0 ++ (oct_digits 11 (te_size e) ++ [0]) ++ replicate 20 0 ++ [te_type e] ++
  pad 100 (te_target e) ++ replicate 255 0 ++ pad (Z.to_nat (blocks (te_size e))) (te_data e).

(** An archive ends with blocks of zeros. *)
Definition tar_archive (es : list tar_entry) : list Z := concat (tar_bytes <$> es) ++ replicate 1024 0.

(** Names that fit the header, and none of the names that are taken for ".". *)
Record entry_ok (e : tar_entry) : Prop := {
  eo_path : te_path e ≠ [] ∧ last (te_path e) ≠ Some AT_slash ∧ Forall (λ b, b ≠ 0) (te_path e);
  eo_text : (length (te_text e) ≤ 99)%nat ∧ ¬ (length (te_text e) = 2%nat ∧ head (te_path e) = Some 46);
  eo_target : (length (te_target e) ≤ 99)%nat ∧ Forall (λ b, b ≠ 0) (te_target e);
  eo_size : te_size e < 8 ^ 11 }.

(** What a header in memory says of an entry. *)
Record entry_at (m : mem) (a : Z) (e : tar_entry) : Prop := {
  ea_name : cstr m a (te_text e) ∧ m (a + 99) = 0;
  ea_size : rd_bytes m (a + TAR_SIZE) 11 = oct_digits 11 (te_size e);
  ea_type : m (a + TAR_TYPE) = te_type e;
  ea_link : cstr m (a + TAR_LINKNAME) (te_target e) }.

Definition holds (m : mem) (a : Z) (l : list Z) : Prop := rd_bytes m a (length l) = l.

Lemma holds_app m a l k : holds m a (l ++ k) ↔ holds m a l ∧ holds m (a + Z.of_nat (length l)) k.
Proof.
  unfold holds. rewrite length_app, rd_bytes_app. split; [|by intros [-> ->]].
  intros H. apply app_inj_1 in H as [H1 H2]; [|by rewrite length_rd_bytes]. done.
Qed.

Lemma holds_byte m a b : holds m a [b] ↔ m a = b.
Proof. unfold holds. simpl. split; [by intros [= ->]|by intros ->]. Qed.

Lemma holds_zero m a n k : holds m a (replicate n 0) → 0 ≤ k < Z.of_nat n → m (a + k) = 0.
Proof.
  unfold holds. rewrite length_replicate. intros H Hk. assert (Hl : rd_bytes m a n !! Z.to_nat k = Some 0) by (rewrite H; apply lookup_replicate_2; lia).
  rewrite rd_bytes_lookup in Hl by lia. injection Hl as Hl. by rewrite Z2Nat.id in Hl by lia.
Qed.

Lemma length_oct_digits k n : length (oct_digits k n) = k.
Proof. by induction k as [|k IH]; [|cbn [oct_digits length]; rewrite IH]. Qed.

Lemma length_pad n l : (length l ≤ n)%nat → length (pad n l) = n.
Proof. intros Hl. unfold pad. rewrite length_app, length_replicate. lia. Qed.

Lemma cstr_pad m a n l : (length l < n)%nat → Forall (λ b, b ≠ 0) l → holds m a (pad n l) →
  cstr m a l ∧ ∀ k, Z.of_nat (length l) ≤ k < Z.of_nat n → m (a + k) = 0.
Proof.
  intros Hl Hnz [H1 H2]%holds_app. assert (Hz : ∀ k, Z.of_nat (length l) ≤ k < Z.of_nat n → m (a + k) = 0).
  { intros k Hk. replace (a + k) with (a + Z.of_nat (length l) + (k - Z.of_nat (length l))) by lia. apply (holds_zero _ _ _ _ H2). lia. }
  split; [|done]. split; [exact H1|]. split; [apply Hz; lia|done].
Qed.

Lemma length_tar_bytes e : entry_ok e → length (tar_bytes e) = (512 + Z.to_nat (blocks (te_size e)))%nat.
Proof.
  intros [_ [Ht _] [Hl _] _]. unfold tar_bytes. rewrite !length_app, !length_pad, !length_replicate, length_oct_digits; [simpl; lia|..|lia|lia].
  unfold te_size, blocks. Z.to_euclidean_division_equations. lia.
Qed.

Lemma tar_bytes_at m a e : entry_ok e → holds m a (tar_bytes e) → entry_at m a e ∧ holds m (a + 512) (te_data e).
Proof.
  intros Hok. assert (Hok' := Hok). destruct Hok' as [(Hne & Hlast & Hnz) [Ht _] [Hl Hlnz] _]. unfold tar_bytes.
  rewrite !holds_app, !length_pad, !length_replicate, !length_app, !length_oct_digits by lia. cbn [length].
  intros (Hname & _ & (Hsz & _) & _ & Hty & Hlk & _ & Hda). apply holds_byte in Hty.
  assert (Htz : Forall (λ b, b ≠ 0) (te_text e)).
  { unfold te_text. apply Forall_app. split; [done|]. destruct (te_kind e); repeat constructor. done. }
  destruct (cstr_pad m a 100 (te_text e)) as [Hc Hz]; [lia|done|done|].
  match type of Hsz with holds _ ?x _ => replace x with (a + TAR_SIZE) in Hsz by (unfold TAR_SIZE; lia) end.
  match type of Hty with m ?x = _ => replace x with (a + TAR_TYPE) in Hty by (unfold TAR_TYPE; lia) end.
  match type of Hlk with holds _ ?x _ => replace x with (a + TAR_LINKNAME) in Hlk by (unfold TAR_LINKNAME; lia) end.
  match type of Hda with holds _ ?x _ => replace x with (a + 512) in Hda by lia end.
  destruct (cstr_pad m (a + TAR_LINKNAME) 100 (te_target e)) as [Hc' _]; [lia|done|exact Hlk|].
  split; [split; try done|].
  - split; [done|]. apply Hz. lia.
  - unfold pad in Hda. by apply holds_app in Hda as [Hda _].
Qed.

Lemma blocks_end n : 0 ≤ n < 2 ^ 40 → block_end n 511 = blocks n.
Proof.
  intros Hn. unfold block_end, blocks. rewrite (wrap_small 64 (n + 511)) by lia. change 511 with (Z.ones 9) at 2.
  rewrite Z.ldiff_ones_r by lia. by rewrite Z.shiftl_mul_pow2, Z.shiftr_div_pow2 by lia.
Qed.

Lemma blocks_bounds n : 0 ≤ n → n ≤ blocks n < n + 512 ∧ blocks 0 = 0.
Proof. intros Hn. unfold blocks. Z.to_euclidean_division_equations. lia. Qed.

Lemma oct_loop_digits k s v n m :
  rd_bytes m s k = oct_digits k n → 0 ≤ n → 0 ≤ v → (v + 1) * 8 ^ Z.of_nat k ≤ 2 ^ 60 →
  oct_loop k s v m = v * 8 ^ Z.of_nat k + n mod 8 ^ Z.of_nat k.
Proof.
  revert s v. induction k as [|k IH]; intros s v Hd Hn Hv Hb.
  { cbn [oct_loop]. change (8 ^ Z.of_nat 0) with 1. rewrite Z.mod_1_r. lia. }
  cbn [rd_bytes oct_digits oct_loop] in *. injection Hd as Hm Hd. pose proof (Z.mod_pos_bound (n / 8 ^ Z.of_nat k) 8 ltac:(lia)) as Hdig.
  rewrite Hm. destruct (Z.eqb_spec (48 + (n / 8 ^ Z.of_nat k) mod 8) 0); [lia|].
  assert (Hpow : 8 ^ Z.of_nat (Datatypes.S k) = 8 * 8 ^ Z.of_nat k) by (rewrite Nat2Z.inj_succ, Z.pow_succ_r; lia).
  assert (Hp0 : 0 < 8 ^ Z.of_nat k) by (apply Z.pow_pos_nonneg; lia). rewrite Hpow in *.
  set (d := (n / 8 ^ Z.of_nat k) mod 8) in *. set (P := 8 ^ Z.of_nat k) in *.
  assert (Hs : schar (48 + d) - 48 = d) by (unfold schar; rewrite Z.mod_small by lia; lia). rewrite Hs.
  assert (v + 1 ≤ 2 ^ 57) by nia. rewrite (wrap_small 64 (v * 8)), wrap_small by lia. rewrite IH by (done || nia).
  rewrite (Z.mul_comm 8 P), (Z.rem_mul_r n P 8) by lia. fold d. lia.
Qed.

Lemma oct_atoi_digits s n m : rd_bytes m s 11 = oct_digits 11 n → 0 ≤ n < 8 ^ 11 → oct_atoi s 11 m = n.
Proof.
  intros Hd Hn. unfold oct_atoi. change (Z.to_nat 11) with 11%nat. rewrite (oct_loop_digits 11 s 0 n m Hd) by (lia || done).
  change (8 ^ Z.of_nat 11) with (8 ^ 11). rewrite Z.mod_small by done. lia.
Qed.

(** ** Paths *)

(** The directory part of a path, if it has one, and the name. *)
Fixpoint split_last (p : list Z) : option (list Z) * list Z :=
  match p with
  | [] => (None, [])
  | c :: p' =>
      match split_last p' with
      | (Some d, n) => (Some (c :: d), n)
      | (None, n) => if c =? AT_slash then (Some [], n) else (None, p)
      end
  end.

Lemma split_last_spec p :
  match split_last p with
  | (None, n) => n = p ∧ AT_slash ∉ p
  | (Some d, n) => p = d ++ AT_slash :: n ∧ AT_slash ∉ n
  end.
Proof.
  induction p as [|c p IH]; cbn [split_last]; [split; [done|apply not_elem_of_nil]|].
  destruct (split_last p) as [[d|] n]; [destruct IH as [-> Hn]; done|]. destruct IH as [-> Hn].
  destruct (Z.eqb_spec c AT_slash) as [->|Hc]; [done|]. split; [done|]. by apply not_elem_of_cons.
Qed.

Lemma holds_lookup m a l k x : holds m a l → l !! k = Some x → m (a + Z.of_nat k) = x.
Proof.
  unfold holds. intros Hl Hk. assert (Hk' := Hk). rewrite <- Hl, rd_bytes_lookup in Hk by (by apply lookup_lt_Some in Hk'). congruence.
Qed.

Lemma trim_none m a l : holds m a l → last l ≠ Some AT_slash → trim_slashes (length l) a m = length l.
Proof.
  intros Hl Hlast. destruct l as [|c l _] using rev_ind; [done|]. rewrite last_snoc in Hlast. rewrite length_app. cbn [length].
  replace (length l + 1)%nat with (Datatypes.S (length l)) by lia. cbn [trim_slashes].
  rewrite (holds_lookup m a (l ++ [c]) (length l) c Hl) by (by apply list_lookup_middle).
  destruct (Z.eqb_spec c AT_slash) as [->|]; [done|done].
Qed.

Lemma trim_text m a e : entry_ok e → holds m a (te_text e) → trim_slashes (length (te_text e)) a m = length (te_path e).
Proof.
  intros [(Hne & Hlast & _) _ _ _] Hl. unfold te_text in *. destruct (te_kind e); rewrite ?app_nil_r in *; try by apply trim_none.
  rewrite length_app. cbn [length]. replace (length (te_path e) + 1)%nat with (Datatypes.S (length (te_path e))) by lia. cbn [trim_slashes].
  rewrite (holds_lookup m a (te_path e ++ [AT_slash]) (length (te_path e)) AT_slash Hl) by (by apply list_lookup_middle).
  rewrite Z.eqb_refl. apply holds_app in Hl as [Hl _]. by apply trim_none.
Qed.

Lemma kmemrchr_split m a p : holds m a p →
  kmemrchr a AT_slash (Z.of_nat (length p)) m = match split_last p with (Some d, _) => Some (a + Z.of_nat (length d)) | (None, _) => None end.
Proof.
  intros Hp. unfold kmemrchr. rewrite Nat2Z.id. change (u8 AT_slash) with AT_slash. pose proof (split_last_spec p) as Hs.
  destruct (split_last p) as [[d|] n].
  - destruct Hs as [-> Hn]. apply kmemrchr_loop_Some. exists (Z.of_nat (length d)). rewrite length_app. cbn [length]. split_and!; [lia|lia|done|..].
    + apply (holds_lookup m a (d ++ AT_slash :: n)); [done|by apply list_lookup_middle].
    + intros j Hj Hm. apply Hn. assert (Hin : (d ++ AT_slash :: n) !! Z.to_nat j = Some (m (a + j))).
      { rewrite <- Hp, rd_bytes_lookup by (rewrite length_app; cbn [length]; lia). do 2 f_equal. lia. }
      rewrite lookup_app_r in Hin by lia. destruct (Z.to_nat j - length d)%nat eqn:Hk; [lia|]. cbn in Hin. rewrite Hm in Hin. by apply list_elem_of_lookup_2 in Hin.
  - destruct Hs as [-> Hn]. apply kmemrchr_loop_None. intros k Hk Hm. apply Hn. apply list_elem_of_lookup. exists (Z.to_nat k).
    rewrite <- Hp, rd_bytes_lookup by lia. f_equal. rewrite <- Hm. f_equal. lia.
Qed.

(** ** What extracting an archive means *)

Lemma holds_same m m' a l : (∀ x, a ≤ x < a + Z.of_nat (length l) → m' x = m x) → holds m a l → holds m' a l.
Proof. unfold holds. intros Hm Hl. rewrite <- Hl at 2. apply rd_bytes_ext. intros i Hi. apply Hm. lia. Qed.

Lemma entry_at_same m m' a e : entry_ok e → (∀ x, a ≤ x < a + 512 → m' x = m x) → entry_at m a e → entry_at m' a e.
Proof.
  intros [_ [Ht _] [Hl _] _] Hm [[(Hn1 & Hn2 & Hn3) Hz] Hs Hty (Hk1 & Hk2 & Hk3)]. unfold TAR_SIZE, TAR_TYPE, TAR_LINKNAME in *.
  split; unfold TAR_SIZE, TAR_TYPE, TAR_LINKNAME; rewrite ?Hm by lia; try done.
  - split; [|done]. split; [by apply (holds_same m); [intros; apply Hm; lia|]|]. split; [rewrite Hm by lia; done|done].
  - rewrite <- Hs. apply rd_bytes_ext. intros i Hi. apply Hm. lia.
  - split; [by apply (holds_same m); [intros; apply Hm; lia|]|]. split; [rewrite Hm by lia; done|done].
Qed.

Section extract.
Context {S F : Type} `{!VnodeTables S F}.
Variables (strfuel : nat) (root lo n : Z).
Implicit Types (w : world S F).

(** The memory of the archive, [n] bytes from [lo] on, is as it was. *)
Definition intact w w' : bool := forallb (λ a, umem w' a =? umem w a) (seqZ lo n).
Definition guard w w' : res unit := if intact w w' then Ok tt else Fault.

(** An entry is made in the directory of its path, a file with what is at
    [contents]; a file system that writes over the archive stops it. *)
Definition make_entry (e : tar_entry) (contents : Z) w : res (world S F) :=
  let '(parent, name) := split_last (te_path e) in
  '(dir, w1) ← match parent with
    | None => Ok (root, w)
    | Some p =>
        '(_, d, w1) ← com_fs_vfs_lookup p root (Some root) true w;
        d ← (match d with Some d => Ok d | None => Panic end);
        Ok (d, w1)
    end;
  _ ← guard w w1;
  w2 ← match te_kind e with
    | KDir => '(ret, _, w2) ← com_fs_vfs_mkdir dir name 0 w1; KASSERT (bool_decide (ret = E0)) ;; Ok w2
    | KFile c =>
        '(ret, f, w2) ← com_fs_vfs_create dir name 0 w1;
        KASSERT (bool_decide (ret = E0)) ;;
        _ ← guard w w2;
        f ← deref f;
        w2 ← COM_FS_VFS_VNODE_HOLD f w2;
        '(ret, k, w2) ← com_fs_vfs_write f contents (te_size e) 0 0 w2;
        KASSERT (bool_decide (ret = E0)) ;;
        KASSERT (te_size e =? default 0 k) ;;
        COM_FS_VFS_VNODE_RELEASE (Some f) w2
    | KLink t => '(_, w2) ← com_fs_vfs_symlink dir name t w1; Ok w2
    end;
  w3 ← (if dir =? root then Ok w2 else COM_FS_VFS_VNODE_RELEASE (Some dir) w2);
  _ ← guard w w3;
  Ok w3.

Fixpoint make_entries (es : list tar_entry) (a : Z) w : res (world S F) :=
  match es with
  | [] => Ok w
  | e :: es => w ← make_entry e (a + 512) w; make_entries es (a + Z.of_nat (length (tar_bytes e))) w
  end.

Lemma guard_same w w' : guard w w' = Ok tt → ∀ a, lo ≤ a < lo + n → umem w' a = umem w a.
Proof.
  unfold guard, intact. destruct (forallb _ _) eqn:Hf; [|done]. intros _ a Ha. rewrite forallb_forall in Hf.
  apply Z.eqb_eq, Hf, list_elem_of_In, elem_of_seqZ. lia.
Qed.

(** The name in memory, after the directory part. *)
Lemma name_at m a e d nm : entry_ok e → holds m a (te_text e) → split_last (te_path e) = (d, nm) →
  let off := match d with Some d => (length d + 1)%nat | None => O end in
  length nm = (length (te_path e) - off)%nat ∧ holds m (a + Z.of_nat off) nm ∧ last nm ≠ Some AT_slash ∧
  match d with Some d => holds m a d | None => True end.
Proof.
  intros [(Hne & Hlast & _) _ _ _] Ht Hsp. unfold te_text in Ht. apply holds_app in Ht as [Ht _].
  pose proof (split_last_spec (te_path e)) as Hs. rewrite Hsp in Hs. destruct d as [d|]; cbv zeta iota.
  - destruct Hs as [Hp Hn]. rewrite Hp in Ht |- *. rewrite length_app. cbn [length]. split; [lia|].
    rewrite (app_assoc d [AT_slash] nm : d ++ AT_slash :: nm = (d ++ [AT_slash]) ++ nm) in Ht.
    apply holds_app in Ht as [Hd Hnm]. rewrite length_app in Hnm. cbn [length] in Hnm. split; [done|]. apply holds_app in Hd as [Hd _]. split; [|done].
    intros Hl. apply last_Some in Hl as [l' ->]. apply Hn. apply elem_of_app. right. apply list_elem_of_here.
  - destruct Hs as [-> Hn]. rewrite Z.add_0_r. split; [lia|]. by split.
Qed.

Lemma extract_entry_makes e a w w' :
  entry_ok e → entry_at (umem w) a e → lo ≤ a → a + 512 ≤ lo + n → (100 < strfuel)%nat →
  make_entry e (a + 512) w = Ok w' → extract_entry strfuel root a (length (te_text e)) a w = Ok w'.
Proof.
  intros Hok Hat Hlo Hhi Hf Hmk. pose proof (proj1 (proj1 (ea_name _ _ _ Hat)) : holds (umem w) a (te_text e)) as Hname.
  unfold make_entry in Hmk. destruct (split_last (te_path e)) as [d nm] eqn:Hsp. unfold extract_entry.
  rewrite (trim_text _ _ _ Hok Hname). unfold path_dir.
  assert (Hp : holds (umem w) a (te_path e)) by (unfold te_text in Hname; by apply holds_app in Hname as [? _]).
  rewrite (kmemrchr_split _ _ _ Hp), Hsp.
  destruct (name_at (umem w) a e d nm Hok Hname Hsp) as (Hnl & Hnm & Hnlast & Hd).
  (* the directory *)
  apply bind_Ok in Hmk as ([dir w1] & Hdir & Hmk). apply bind_Ok in Hmk as ([] & Hg1 & Hmk).
  set (off := match d with Some d => (length d + 1)%nat | None => O end) in *.
  match goal with |- (?r ≫= _) = _ => assert (Hr : r = Ok (dir, off, length nm, w1)) end.
  { destruct d as [d|]; [|injection Hdir as <- <-; unfold off; by rewrite Hnl, Nat.sub_0_r].
    replace (Z.to_nat (a + Z.of_nat (length d) - a)) with (length d) by lia. unfold holds in Hd. rewrite Hd.
    apply bind_Ok in Hdir as ([[ret o] w1'] & -> & Hdir). mstep. apply bind_Ok in Hdir as (d' & -> & Hdir). mstep. injection Hdir as -> ->.
    rewrite Hnl. unfold off. by rewrite Nat.sub_add_distr. }
  rewrite Hr. mstep. clear Hr.
  pose proof (guard_same w w1 Hg1) as Hm1. destruct Hok as [Hokp [Hokt Hdot] Hokl Hoks] eqn:HokE.
  assert (Hok' : entry_ok e) by exact Hok. clear HokE.
  assert (Hpl : (off + length nm ≤ 99)%nat).
  { unfold te_text in Hokt. rewrite length_app in Hokt. pose proof (split_last_spec (te_path e)) as Hs. rewrite Hsp in Hs.
    unfold off. destruct d as [d|]; destruct Hs as [Hs _]; [rewrite Hs, length_app in Hokt; cbn [length] in Hokt; lia|subst nm; lia]. }
  assert (Hat1 : entry_at (umem w1) a e) by (apply (entry_at_same (umem w)); [done|intros; apply Hm1; lia|done]).
  assert (Hnm1 : holds (umem w1) (a + Z.of_nat off) nm) by (apply (holds_same (umem w)); [intros; apply Hm1; lia|done]).
  rewrite (trim_none _ _ _ Hnm1 Hnlast). unfold holds in Hnm1. rewrite Hnm1. rewrite (ea_type _ _ _ Hat1).
  apply bind_Ok in Hmk as (w2 & Hmk2 & Hmk). apply bind_Ok in Hmk as (w3 & Hrel & Hmk). apply bind_Ok in Hmk as ([] & _ & [= ->]).
  match goal with |- (?r ≫= _) = _ => assert (Hr : r = Ok w2) end; [|by rewrite Hr].
  pose proof (ea_link _ _ _ Hat1) as Hlk. unfold te_type, te_target in *. destruct (te_kind e) as [|c|t] eqn:Hkind.
  - change (GNUTAR_DIR =? GNUTAR_SYMLINK) with false. cbv iota. unfold create_node. rewrite (ea_type _ _ _ Hat1). unfold te_type. rewrite Hkind.
    rewrite Z.eqb_refl. done.
  - change (48 =? GNUTAR_SYMLINK) with false. cbv iota. unfold create_node. rewrite (ea_type _ _ _ Hat1). unfold te_type. rewrite Hkind.
    change (48 =? GNUTAR_DIR) with false. cbv iota.
    apply bind_Ok in Hmk2 as ([[ret f] w4] & -> & Hmk2). mstep. apply bind_Ok in Hmk2 as ([] & -> & Hmk2). mstep.
    apply bind_Ok in Hmk2 as ([] & Hg4 & Hmk2). pose proof (guard_same w w4 Hg4) as Hm4.
    assert (Hat4 : entry_at (umem w4) a e) by (apply (entry_at_same (umem w)); [done|intros; apply Hm4; lia|done]).
    rewrite (oct_atoi_digits _ _ _ (ea_size _ _ _ Hat4)) by (unfold te_size in *; lia). exact Hmk2.
  - change (GNUTAR_SYMLINK =? GNUTAR_SYMLINK) with true. cbv iota. destruct Hokl as [Hokl _].
    unfold kstrlen. rewrite (kstrlen_loop_spec _ _ t) by (done || lia). mstep. rewrite Z.add_0_l, Nat2Z.id.
    destruct Hlk as (Hlk & _). rewrite Hlk. exact Hmk2.
Qed.
End extract.

Section whole.
Context {S F : Type} `{!VnodeTables S F}.
Variables (strfuel : nat) (root tar size : Z).
Implicit Types (w : world S F).

Lemma make_entry_keeps e c w w1 :
  make_entry root tar size e c w = Ok w1 → ∀ a, tar ≤ a < tar + size → umem w1 a = umem w a.
Proof.
  unfold make_entry. destruct (split_last (te_path e)) as [d nm]. intros Hmk.
  apply bind_Ok in Hmk as ([dir w0] & _ & Hmk). apply bind_Ok in Hmk as ([] & _ & Hmk). apply bind_Ok in Hmk as (w2 & _ & Hmk).
  apply bind_Ok in Hmk as (w3 & _ & Hmk). apply bind_Ok in Hmk as ([] & Hg & [= ->]). exact (guard_same tar size w w1 Hg).
Qed.

(** What the loop reads of a header. *)
Lemma header_facts e a m : entry_ok e → entry_at m a e → (100 < strfuel)%nat →
  m a ≠ 0 ∧ m (a + TAR_TYPE) ≠ GNUTAR_LONG_LINK ∧ m (a + TAR_TYPE) ≠ GNUTAR_LONG_NAME ∧
  oct_atoi (a + TAR_SIZE) 11 m = te_size e ∧ kstrlen strfuel a m = Ok (Z.of_nat (length (te_text e))) ∧
  (2 =? Z.of_nat (length (te_text e))) && (m a =? 46) = false.
Proof.
  intros [(Hne & _ & Hnz) [Ht Hdot] _ Hsz] [[Hc Hz] Hs Hty _] Hf. destruct (te_path e) as [|c p] eqn:Hp; [done|].
  assert (Hm : m a = c).
  { destruct Hc as (Hc & _). unfold te_text in Hc. rewrite Hp in Hc. by injection Hc. }
  split; [rewrite Hm; by inversion Hnz|]. rewrite Hty. unfold te_type.
  split; [by destruct (te_kind e)|]. split; [by destruct (te_kind e)|]. split; [apply oct_atoi_digits; [done|unfold te_size in *; lia]|].
  split; [unfold kstrlen; rewrite (kstrlen_loop_spec _ _ (te_text e)) by (done || lia); done|].
  apply andb_false_iff. rewrite Hm. destruct (Z.eqb_spec 2 (Z.of_nat (length (te_text e)))) as [He|]; [|by left].
  right. apply Z.eqb_neq. intros ->. apply Hdot. split; [lia|done].
Qed.

Lemma initrd_loop_makes es fuel i w w' :
  Forall entry_ok es → (length es < fuel)%nat → (100 < strfuel)%nat → 0 ≤ tar → 0 ≤ i → size < 2 ^ 62 →
  holds (umem w) (tar + i) (tar_archive es) → i + Z.of_nat (length (tar_archive es)) ≤ size →
  make_entries root tar size es (tar + i) w = Ok w' → initrd_loop strfuel root fuel tar size i w = Ok w'.
Proof.
  intros Hes. revert fuel i w. induction Hes as [|e es Hok Hes IH]; intros [|fuel] i w Hf Hsf Htar Hi Hsize Hh Hin Hmk; [cbn in Hf; lia| |cbn in Hf; lia|].
  { cbn [initrd_loop]. destruct (Z.ltb_spec i size); [|unfold tar_archive in Hin; cbn [fmap list_fmap concat app] in Hin; rewrite length_replicate in Hin; lia].
    cbn [negb]. rewrite <- (Z.add_0_r (tar + i)), (holds_zero _ _ 1024 0) by (done || lia). exact Hmk. }
  assert (Ha : tar_archive (e :: es) = tar_bytes e ++ tar_archive es) by (unfold tar_archive; cbn [fmap list_fmap concat]; by rewrite app_assoc).
  rewrite Ha in Hh, Hin. apply holds_app in Hh as [Hhe Hhs]. rewrite length_app, Nat2Z.inj_add in Hin.
  assert (Hlen : Z.of_nat (length (tar_bytes e)) = 512 + blocks (te_size e)).
  { rewrite length_tar_bytes by done. assert (0 ≤ te_size e) by (unfold te_size; lia). pose proof (blocks_bounds (te_size e)). lia. }
  assert (Hts : 0 ≤ te_size e < 2 ^ 40) by (pose proof (eo_size e Hok); unfold te_size in *; lia).
  pose proof (blocks_bounds (te_size e) ltac:(lia)) as [Hbl _].
  destruct (tar_bytes_at _ _ _ Hok Hhe) as [Hat _]. destruct (header_facts e (tar + i) (umem w) Hok Hat Hsf) as (F1 & F2 & F3 & F4 & F5 & F6).
  cbn [make_entries] in Hmk. apply bind_Ok in Hmk as (w1 & Hmk & Hmks).
  cbn [initrd_loop]. destruct (Z.ltb_spec i size); [|lia]. cbn [negb].
  destruct (Z.eqb_spec (umem w (tar + i)) 0); [done|]. destruct (Z.eqb_spec (umem w (tar + i + TAR_TYPE)) GNUTAR_LONG_LINK); [done|].
  destruct (Z.eqb_spec (umem w (tar + i + TAR_TYPE)) GNUTAR_LONG_NAME); [done|].
  destruct (ea_name _ _ _ Hat) as [_ ->]. rewrite Z.eqb_refl. cbv zeta. rewrite F4, F5. mstep. rewrite F6. rewrite Nat2Z.id.
  rewrite (extract_entry_makes strfuel root tar size e (tar + i) w w1) by (done || lia). mstep.
  rewrite blocks_end by lia. rewrite (wrap_small 64 (i + 512)), wrap_small by lia.
  apply IH; try done; try lia.
  - cbn in Hf. lia.
  - replace (tar + (i + 512 + blocks (te_size e))) with (tar + i + Z.of_nat (length (tar_bytes e))) by lia.
    apply (holds_same (umem w)); [|done]. intros x Hx. apply (make_entry_keeps e _ w w1 Hmk). lia.
  - replace (tar + (i + 512 + blocks (te_size e))) with (tar + i + Z.of_nat (length (tar_bytes e))) by lia. exact Hmks.
Qed.
End whole.

(** C33: extracting the archive of a list of entries makes these entries, in
    order, each once: the directory of its path is looked up, and in it a
    directory, a file with the bytes of the archive, or a symbolic link is
    made under the last component; the end of the archive is found. The file
    system may be any that leaves the memory of the archive alone. *)
Theorem initrd_makes_entries {S F : Type} `{!VnodeTables S F} strfuel root es tar (w w' : world S F) fuel :
  Forall entry_ok es → 0 ≤ tar → let size := Z.of_nat (length (tar_archive es)) in
  holds (umem w) tar (tar_archive es) → size < 2 ^ 62 → (100 < strfuel)%nat → (length es < fuel)%nat →
  make_entries root tar size es tar w = Ok w' → com_fs_initrd_make strfuel root fuel tar size w = Ok w'.
Proof.
  intros Hok Htar size Hh Hsize Hsf Hfuel Hmk. unfold com_fs_initrd_make.
  apply (initrd_loop_makes strfuel root tar size es); rewrite ?Z.add_0_r; done.
Qed.

(** ** Archives of the memory file system *)
#[local] Existing Instance demo_libc.

(** A root directory, and an archive in memory. *)
Definition TAR_AT : Z := 0x600000.
Definition tar_mem (bs : list Z) : mem := λ a, if in_range a TAR_AT (Z.of_nat (length bs)) then nth (Z.to_nat (a - TAR_AT)) bs 0 else 0.
Definition tar_world (bs : list Z) : demo_world :=
  World (vnodes demo_w1) (vfss demo_w1) (tar_mem bs) (objs demo_w1) (fsdata demo_w1).

(** What is found under a path once an archive is extracted: the error of the
    look-up, and the first four bytes that a read gives. *)
Definition tar_probe (bs : list Z) (path : list Z) : res (errno * option (list Z)) :=
  w ← com_fs_initrd_make 200 demo_root 10 TAR_AT (Z.of_nat (length bs)) (tar_world bs);
  '(ret, n, w) ← com_fs_vfs_lookup path demo_root (Some demo_root) true w;
  match n with
  | None => Ok (ret, None)
  | Some n => '(_, k, w) ← com_fs_vfs_read 0x5000 4 n 0 0 w; Ok (ret, Some (rd_bytes (umem w) 0x5000 (Z.to_nat (default 0 k))))
  end.

(** The directory etc with the file motd, and a link to it. *)
Definition etc : list Z := [101; 116; 99].
Definition motd : list Z := [109; 111; 116; 100].
Definition demo_entries : list tar_entry :=
  [TarEntry etc KDir; TarEntry (etc ++ AT_slash :: motd) (KFile [104; 105; 10]); TarEntry [109] (KLink (AT_slash :: etc ++ AT_slash :: motd))].

Example initrd_file_found :
  tar_probe (tar_archive demo_entries) (AT_slash :: etc ++ AT_slash :: motd) = Ok (E0, Some [104; 105; 10]) ∧
  tar_probe (tar_archive demo_entries) [AT_slash; 109] = Ok (E0, Some [104; 105; 10]).
Proof. vm_compute. done. Qed.

(** A header as other entries have it, and its data. *)
Definition raw_entry (name : list Z) (ty : Z) (data : list Z) : list Z :=
  let size := Z.of_nat (length data) in
  pad 100 name ++ replicate 24 0 ++ (oct_digits 11 size ++ [0]) ++ replicate 20 0 ++ [ty] ++ replicate 355 0 ++ pad (Z.to_nat (blocks size)) data.

(** the data of an entry for a long link target is taken for the next
    header: here the text of the target becomes a file of that name, and
    where the text is longer its bytes decide what is made. *)
Theorem long_link_becomes_file :
  tar_probe (raw_entry motd GNUTAR_LONG_LINK etc ++ replicate 1024 0) (AT_slash :: etc) = Ok (E0, Some []) ∧
  tar_probe (replicate 1024 0) (AT_slash :: etc) = Ok (ENOENT, None).
Proof. vm_compute. done. Qed.

(** A file whose name is a dot and one letter is left out: the test for the
    current directory looks at the length and the dot only. *)
Theorem dot_name_left_out :
  tar_probe (tar_archive [TarEntry [46; 97] (KFile [1])]) [AT_slash; 46; 97] = Ok (ENOENT, None) ∧
  tar_probe (tar_archive [TarEntry [46; 97; 97] (KFile [1])]) [AT_slash; 46; 97; 97] = Ok (E0, Some [1]).
Proof. vm_compute. done. Qed.

(** A name of more than 100 bytes, which comes with a NUL, is stored with it:
    the file is not found under its name. *)
Definition long_name : list Z := replicate 120 97.
Theorem long_name_not_found :
  tar_probe (raw_entry motd GNUTAR_LONG_NAME (long_name ++ [0]) ++ raw_entry (take 100 long_name) 48 [1] ++ replicate 1024 0) (AT_slash :: long_name) = Ok (ENOENT, None) ∧
  tar_probe (raw_entry motd GNUTAR_LONG_NAME (long_name ++ [0]) ++ raw_entry (take 100 long_name) 48 [1] ++ replicate 1024 0) (AT_slash :: long_name ++ [0]) = Ok (E0, Some [1]).
Proof. vm_compute. done. Qed.

Lemma demo_entries_ok : Forall entry_ok demo_entries.
Proof.
  repeat constructor; try (vm_compute; done); try (repeat constructor; done); cbn; try lia; try (intros [? ?]; done).
Qed.

Lemma initrd_makes_entries_witness : ∃ w, com_fs_initrd_make 200 demo_root 10 TAR_AT (Z.of_nat (length (tar_archive (take 2 demo_entries))))
  (tar_world (tar_archive (take 2 demo_entries))) = Ok w.
Proof.
  set (es := take 2 demo_entries). set (w0 := tar_world (tar_archive es)).
  assert (Hrun : ∃ w, make_entries demo_root TAR_AT (Z.of_nat (length (tar_archive es))) es TAR_AT w0 = Ok w).
  { assert (Hb : match make_entries demo_root TAR_AT (Z.of_nat (length (tar_archive es))) es TAR_AT w0 with Ok _ => true | _ => false end = true) by (vm_compute; reflexivity).
    destruct (make_entries demo_root TAR_AT _ es TAR_AT w0) as [w| | |]; try discriminate Hb. by exists w. }
  destruct Hrun as [w Hrun]. exists w.
  apply (initrd_makes_entries 200 demo_root es TAR_AT w0 w 10); [apply Forall_take, demo_entries_ok|done|vm_compute; reflexivity|vm_compute; reflexivity|lia|cbn; lia|exact Hrun].
Defined.
